(* ===== verification/_CoqProject ===== *)
-Q . S2P
Prelude.v
Archive.v
Crypto.v
DomainTables.v
DomainName.v
DomainExtra.v
GovParams.v
GovStore.v
DomainPolicy.v
Registry.v
RegistryProofs.v
RegistryInvariant.v
RegistryHistory.v
ParamExecution.v
ParamExecutionProofs.v
TxExtra.v
Curve.v
CurveModel.v
Treasury.v
TreasuryProofs.v
TreasuryTemplate.v
NodeScripts.v
Emission.v
Paillier.v
Threshold.v
DkgProofs.v
Pedersen.v
Reshare.v
ReshareProofs.v
ReshareCodec.v
ReshareCorrect.v
ReshareRunner.v
ReshareRunnerProofs.v
VotingWeight.v
VoteV2.v
VoteProof.v
VoteProofComplete.v
Tally.v
TallyMembers.v
TallyCorrect.v
TallyShare.v
ReshareNode.v
VoteAccepted.v
VoteSound.v
VoteForgery.v
TallyResult.v
TallyShareProofs.v
TallyNode.v
ReshareTally.v
ReshareNodeProofs.v
ReshareLimits.v
ReshareSecrecy.v
Voting.v
VoteDelivery.v
Activation.v
ActivationProofs.v
Proposals.v
Lifecycle.v
LifecycleProofs.v
Election.v
