(* ===== verification/Prelude.v ===== *)
(** * VeilRoot: names and governance, verified

    VeilRoot is a Monero-derived node (C++, under [src/src]) with a name system
    (names [label..extension] registered on chain and kept alive by heartbeats)
    and a DAO that votes on the name policy and on grants from a treasury.
    This library models the name system, the DAO from the submission of a
    proposal over open and encrypted votes to its execution, the committee that
    decrypts the votes and hands its key on, the treasury and the emission that
    feeds it as Rocq functions translated from the sources, and proves them
    correct.  The two JavaScript programs vendored in the tree
    ([src/external]) are modelled as well.

    ** Parts of the program and the files that model them

    - [Prelude]: bytes, machine words ([u8] .. [u128] wrap explicitly), C
      strings in fixed buffers ([cstr], [strncpy_buf], [strncmp_eq]),
      [memcmp] order, tactics and the hint database [vns].
    - [Archive]: [common/varint.h] and [serialization/*]: varints, strings,
      containers, and parsing that must consume its whole input.
    - [Crypto]: the class [Crypto] of cryptographic primitives the code calls
      (libsecp256k1, [cn_fast_hash], commitments).  They are parameters without
      laws: no theorem needs more of them than that they are functions.
    - [DomainTables], [DomainName]: [common/domain_utils.h], the compiled-in
      tables, tiers and fees, and the grammar and normalisation of names.
    - [DomainExtra]: the wallet's builders of registration, update and transfer
      payloads ([domain_utils.h]) and the daemon's scan of [tx.extra] and its
      TLV loops (the first half of [Blockchain::process_domain_registration]).
    - [GovParams]: [governance/governance_params.{h,cpp}].
    - [GovStore]: the governance tables of [blockchain_db/lmdb/db_lmdb.cpp].  A
      table is the list of its rows in cursor order; the class [PolicyRow] says
      what the generic scans need of a row and [PolicyRowOk] what makes its
      bytes determine its key; each record type is an instance.
    - [DomainPolicy]: [Blockchain::resolve_domain_policy].
    - [Registry]: the registry of names in [cryptonote_core/blockchain.cpp]
      (second half of [process_domain_registration], heartbeats, expiry, block
      pop, start-up load).  The state [vns_state] is the in-memory map with the
      database tables it is persisted to, so the two can differ as in the
      program.
    - [RegistryProofs], [RegistryInvariant], [RegistryHistory]: theorems about
      the registry.
    - [ParamExecution]: [governance/parameter_update.h],
      [Blockchain::process_parameter_execution], [ExecutionManager::rollback]
      and [ParameterManager].
    - [ParamExecutionProofs]: theorems about the execution of proposals.
    - [Treasury]: treasury outputs and the balance in
      [blockchain_db/lmdb/db_lmdb.cpp]; in [blockchain.cpp], validation of
      grants ([check_tx_inputs]), what connecting and popping a block does to
      the treasury, and the grants of a block template
      ([build_execution_transaction], [create_block_template],
      [GovernanceManager::get_ready_executions]).
    - [TreasuryProofs], [TreasuryTemplate]: theorems about the treasury.
    - [NodeScripts]: [external/ixwebsocket/ws/broadcast-server.js] over the
      class [WsLib] of the [ws] package with its documented behaviour
      ([WsLaws]), and [external/rapidjson/include_dirs.js].
    - [Emission]: block reward, coinbase construction and validation, supply
      and its snapshots ([cryptonote_basic_impl.cpp],
      [cryptonote_tx_utils.cpp], [blockchain.cpp], [governance/dao_supply.h]).
    - [Paillier], [Threshold]: [governance/dao_paillier.cpp] and
      [governance/dao_threshold.cpp], the encryption of vote weights and their
      decryption by a committee.
    - [TxExtra]: [cryptonote_basic/tx_extra.h] and [parse_tx_extra],
      [sort_tx_extra] of [cryptonote_format_utils.cpp], with the byte forms of
      all fields.
    - [Curve]: the operations of the curve as classes ([CurveOps], [RctOps]) with
      their laws; [CurveModel] is a group that satisfies them.
    - [DkgProofs]: in [governance/dao_dkg.cpp], verification keys and the proofs
      of partial decryptions, over the class [Digests] of SHA-256 and SHAKE-256
      with the lengths of their outputs as laws.
    - [Pedersen]: in [dao_dkg.cpp], verifiable secret sharing and range proofs.
    - [Reshare]: [governance/dao_reshare_proof.cpp],
      [dao_reshare_coeff_link.cpp], [dao_reshare_vss.cpp] and the functions of
      [dao_reshare_pipeline.cpp]: dealing a share to a new committee, its proofs,
      the combination of the dealt shares, and all byte forms.
    - [ReshareRunner]: the class [dao_reshare_runner] of
      [dao_reshare_pipeline.cpp] as a state with [start], [on_message] and
      [try_finalize_locked], and the private envelopes of [dao_dkg.cpp] over the
      class [PrivateBox] of key agreement and authenticated encryption.
    - [ReshareNode]: in [blockchain.cpp], the roster of ready nodes, the start of
      a resharing, its messages and the commit of its result.
    - [ReshareProofs], [ReshareCodec], [ReshareCorrect], [ReshareRunnerProofs],
      [ReshareTally], [ReshareNodeProofs], [ReshareLimits], [ReshareSecrecy]:
      theorems about resharings.
    - [VotingWeight]: [governance/voting_weight.cpp].
    - [VoteV2]: applying and undoing encrypted votes
      ([governance/vote_manager.cpp]).
    - [VoteProof]: the proofs of an encrypted vote ([dao_clsag.cpp],
      [dao_consistency.cpp], [dao_vote_or_proof.cpp]), their verifier
      ([vote_proof_verifier.cpp]) and the wallet that builds a vote
      ([dao_wallet_v2.cpp]).
    - [VoteProofComplete], [VoteAccepted], [VoteSound], [VoteForgery]: theorems
      about these proofs; [VoteDelivery] follows a vote from the wallet to the
      tables and recognises the transactions of the DAO.
    - [Tally]: tally certificates ([governance/dao_tally.cpp]) and the
      transactions that carry them ([blockchain.cpp]).
    - [TallyShare]: [governance/dao_tally_share.cpp],
      [governance/tally_manager.cpp], the byte forms of [dao_tally.cpp] and, in
      [blockchain.cpp], the handler of received shares.
    - [TallyMembers], [TallyCorrect], [TallyResult], [TallyShareProofs],
      [TallyNode]: theorems about tallies.
    - [Voting]: open votes and the votes of a block
      ([governance/vote_manager.cpp]), over the class [VoteEnv] of what a vote is
      judged with (the outputs of the
      chain, the raw truth value of a byte).
    - [Activation]: in [blockchain.cpp], the announcements by which nodes get
      onto the roster and the activations by which a committee installs its key,
      with their byte forms ([governance_payload.h], [dao_dkg.cpp]), over the
      classes [NodeSignatures] (a node's signature verifies under its key) and
      [StakeAge] (the weight of a stake, which the code computes in floating
      point).  [ActivationProofs]: theorems about them.
    - [Proposals]: [governance/proposal.{h,cpp}].  Its record [gov_state] holds
      the tables all of governance works on.
    - [Lifecycle]: [governance/lifecycle_manager.cpp], [execute_due] of
      [governance/execution.cpp] and the manager [governance/governance.cpp].
    - [LifecycleProofs], [Election]: theorems about the life of a proposal.

    The wallet calls the builders of [DomainExtra]; a block hands its
    transactions to [process_domain_registration], which asks
    [resolve_domain_policy], which reads the governance tables; these change
    only when a passed proposal is executed.  The governance manager hands each
    block to [Proposals] (submissions), [Voting] (votes, encrypted ones to
    [VoteProof] and [VoteV2]), [Lifecycle] (proposals whose voting ends) and the
    clean-up of the execution queue.  A proposal with encrypted votes gets its
    key by an activation ([Activation]) of a committee taken from the roster of
    announced nodes.  Encrypted votes are decided by a certificate of [Tally] instead: when the voting has ended, the committee of
    the key hands its shares to the nodes that are ready ([ReshareNode], which
    runs a [ReshareRunner]), these decrypt the totals ([TallyShare]), and the
    transaction with the certificate decides the proposal.  Grants are executed
    by transactions with treasury inputs, which the miner's template carries and
    the block validation checks; the coinbase of [Emission] pays the treasury.

    ** How the program is modelled

    Strings, byte vectors and hashes are lists of byte values, words are [Z]
    with the wrap-around of their width, [std::map] and [std::unordered_map]
    are [gmap].  Where the iteration order of an unordered container can be
    seen it is an argument ([default_params]).  A function that returns [bool]
    with an out parameter returns an [option]; error codes are the source's
    enumeration; a database exception is an explicit outcome ([db_ok],
    [wtxn_outcome], [exec_threw], [gov_threw]); inside a batch the abort of a
    write transaction undoes nothing, as in the program.  What the language leaves open is an
    argument: bytes behind a buffer and uninitialised locals ([indeterminate]),
    padding bytes ([pads]), the value of a [bool] read from a byte other than 0
    and 1 ([trap_bool]).

    Loops that are not structural take fuel.  The scan of [extra] and the TLV
    loops get one step per byte, which [domain_extra_total] shows to be enough
    on every input; [write_varint] gets nine rounds, enough for 64 bits;
    [parse_tx_extra] gets one step per byte; a ring signature gets one round per
    member of its ring; [floor_log2] gets 64, one per bit of its argument; the
    decimal form of the supply gets 39 digits, enough for 128 bits.  Random
    numbers are arguments; a run of a protocol is the list of messages that reach
    a node, in any order and with repetitions.

    ** What the theorems show

    - Names: normalisation is sound and complete for the grammar, idempotent,
      blind to case and surrounding space, and what it returns passes every
      later check ([normalize_vns_domain_spec], [normalize_then_parse]).
    - Encodings: varints are canonical; payloads, parameters and the wallet's
      domain operations are read back as written; every accepted parameter blob
      is well formed and none has trailing bytes.
    - Policy: the scans find the newest record in force; the verdict and the
      price of a name are given by explicit rules; with default parameters they
      agree with the tables in the wallet.
    - Registry: exact acceptance condition of a wallet-built registration; no
      change of a name without its owner's signature or a reclaim; a
      well-formedness invariant over all interleavings with database failures;
      expiry as a function of age; block pop undoes registrations and
      heartbeats.
    - Execution of proposals: a refinement from the execution code to an
      abstract policy state ([parameter_execution_refines]), at most once, never
      retroactive, undone exactly by the rollback, preserving the invariant
      under which the resolver is total.
    - Open votes: exact condition under which a vote counts and what it adds
      ([v1_vote_counted]); the weight never overflows ([voting_weight_spec]).
    - Encrypted votes: what the wallet builds is counted
      ([wallet_vote_counted]); what the verifier accepts obeys the rules of
      voting ([accepted_vote_sound]) and cannot vote again ([v2_vote_once]);
      decryption inverts encryption, any quorum of the
      committee recovers the plaintext ([threshold_decryption]), the certificate
      built from the votes applied verifies and its verdict is that of counting
      in the clear ([v2_tally_correct]); votes are undone by the rollback; a
      verified result decides the proposal and is undone by popping its block.
    - Keys: what a node announces is accepted and makes it a candidate
      ([announced_node_selected]); an accepted activation has the signatures of a
      quorum of the selected committee ([activation_authorised]), and what a
      quorum signs is accepted and installed ([quorum_activates_key]), even where
      the proposal has a key already ([activation_replaces_key]).
    - Committee: from the stored shares of a quorum a node builds a result that
      the chain accepts ([tally_transaction_accepted]); a resharing ends with the
      same record on every new node, whatever the order of its messages
      ([resharing_completes]), and the new committee decides the votes that were
      encrypted for the old one ([reshared_committee_tallies]).  Against it
      stand what the code does not ensure: a single new member can decrypt
      ([new_member_decrypts_alone]), the evidence of a resharing can be made up
      ([forged_resharing_rejects]), a silent contributor stops it
      ([silent_contributor_stalls]), and the shares that members send are not
      in a version that any node takes ([tally_shares_never_travel]), so that the
      theorems about tallies hand the produced shares to the builder directly.
    - Extra fields: an extra parses into exactly the fields written in it
      ([tx_extra_codec]).
    - Proposals: submission accepts exactly what execution understands; a block
      decides exactly the proposals due ([lifecycle_decides]); no open proposal
      is overlooked along any chain ([no_proposal_overlooked]); a submitted and
      openly voted change takes effect exactly when it is approved
      ([approved_change_takes_effect]); submissions are rolled back.
    - Emission: the supply after [n] blocks is [n] subsidies up to the cap and
      is what the coinbases paid ([emission_schedule]); the template's coinbase
      is accepted.
    - Scripts: the relay refines an abstract chat room ([relay_refines_room]);
      the printed include path resolves to the include directory.
    - Treasury: the balance is the value of the unspent outputs and connecting
      a block keeps it so ([treasury_solvent]); popping the block restores
      outputs, balance and proposals ([connect_then_pop]); what a template
      builds, validation accepts ([template_accepted]).

    Theorems whose names describe a defect ([update_signature_transfers],
    [pop_keeps_transfer], [rejected_block_keeps_effects], ...) exhibit concrete
    runs where the code does not do what it means to.

    ** Not modelled

    - Consensus code inherited from Monero, ring signatures of ordinary
      transactions, proof of work, and the LMDB engine below the ordering of
      rows.
    - Distributed key generation ([dao_mpc.cpp] and most of [dao_dkg.cpp]): an
      interactive protocol over several thousand lines; the theorems start from
      its outcome, a committee that holds a key ([holds_key]).
    - The trigger that looks over all proposals at a new block
      ([maybe_produce_dao_v2_share]), the sending of messages, locks and timers
      around the runner: a theorem takes the order of events as given.
    - That proofs cannot be forged or ciphertexts opened without the key, which
      rests on computational assumptions; shown are completeness, what a check
      has established when it accepts, and concrete forgeries where it
      establishes too little.
    - The announcements that peers exchange over the network beside those in
      blocks, the table of eligible stakes, which is an argument, the text form of
      addresses, which is an argument, and [reindex_governance], whose loop does
      nothing.
    - RPC, networking, the wallets beyond their builders, and the translation
      catalogues ([translations/*.ts], XML data). *)

From Stdlib Require Export ZArith Lia ZifyBool.
From Stdlib Require Import Ascii String.
From stdpp Require Export base numbers list list_numbers gmap strings fin_maps.

#[global] Open Scope Z_scope.

(** ** Bytes, strings and machine words

    [std::string] and [std::vector<uint8_t>] are lists of byte values; a
    machine word is a [Z] and its wrap-around is written out. *)

Declare Scope vns_scope.
Delimit Scope vns_scope with vns.

Abbreviation bytes := (list Z).
Abbreviation hash := (list Z).

Definition u8 (z : Z) : Z := z mod 2 ^ 8.
Definition u16 (z : Z) : Z := z mod 2 ^ 16.
Definition u64 (z : Z) : Z := z mod 2 ^ 64.
Definition bool_byte (x : bool) : Z := if x then 1 else 0.
Definition u128 (z : Z) : Z := z mod 2 ^ 128.

Definition UINT64_MAX : Z := 2 ^ 64 - 1.

(** The bytes of a string literal. *)
Fixpoint str (s : string) : bytes :=
  match s with
  | EmptyString => []
  | String c s' => Z.of_N (N_of_ascii c) :: str s'
  end.

(** [z] fits an unsigned word of [w] bits. *)
Notation "z '∈u' w" := (0 <= z < 2 ^ w)%Z (at level 70, w at level 9) : vns_scope.
#[global] Open Scope vns_scope.

Definition zlen {A} (l : list A) : Z := Z.of_nat (length l).

Definition null_hash : hash := replicate 32 0.

Definition is_byte (z : Z) : Prop := 0 <= z < 256.

#[export] Instance is_byte_dec z : Decision (is_byte z).
Proof. unfold is_byte. apply _. Defined.

(** [std::string] equality. *)
Definition beq (x y : bytes) : bool := bool_decide (x = y).

Definition is_empty {A} (l : list A) : bool :=
  match l with [] => true | _ => false end.

(** ** Little-endian integers in memory *)

Fixpoint le_bytes (n : nat) (v : Z) : bytes :=
  match n with
  | O => []
  | S n' => v mod 256 :: le_bytes n' (v / 256)
  end.

Fixpoint le_val (l : bytes) : Z :=
  match l with
  | [] => 0
  | x :: l' => x + 256 * le_val l'
  end.

(** ** C strings in fixed buffers *)

(** The characters before the terminating NUL. *)
Fixpoint cstr (l : bytes) : bytes :=
  match l with
  | [] => []
  | x :: l' => if x =? 0 then [] else x :: cstr l'
  end.

(** [strncpy(dst, src.c_str(), n - 1)] into a zeroed [char dst[n]]. *)
Definition strncpy_buf (n : nat) (src : bytes) : bytes :=
  let s := take (n - 1) (cstr src) in s ++ replicate (n - length s) 0.

(** [strncmp(x, y, n) == 0]. *)
Definition strncmp_eq (n : nat) (x y : bytes) : bool :=
  bool_decide (take n (cstr x ++ [0]) = take n (cstr y ++ [0])).

(** Lexicographic order on byte strings, the order of [memcmp] and, for equal
    prefixes, of the shorter string first. *)
Fixpoint bytes_leb (x y : bytes) : bool :=
  match x, y with
  | [], _ => true
  | _ :: _, [] => false
  | a :: x', c :: y' => if a <? c then true else if c <? a then false else bytes_leb x' y'
  end.

(** ** Automation *)

Create HintDb vns.
Create Rewrite HintDb vns.

(** Turn the boolean tests of the code into propositions, everywhere. *)
Ltac to_prop :=
  repeat match goal with
  | H : _ && _ = true |- _ => apply andb_prop in H; destruct H
  | H : _ && _ = false |- _ => apply andb_false_iff in H
  | H : _ || _ = false |- _ => apply orb_false_iff in H; destruct H
  | H : _ || _ = true |- _ => apply orb_prop in H
  | H : negb _ = true |- _ => apply negb_true_iff in H
  | H : negb _ = false |- _ => apply negb_false_iff in H
  | H : bool_decide _ = true |- _ => apply bool_decide_eq_true in H
  | H : bool_decide _ = false |- _ => apply bool_decide_eq_false in H
  | H : Z.eqb _ _ = true |- _ => apply Z.eqb_eq in H
  | H : Z.eqb _ _ = false |- _ => apply Z.eqb_neq in H
  | H : Z.ltb _ _ = true |- _ => apply Z.ltb_lt in H
  | H : Z.ltb _ _ = false |- _ => apply Z.ltb_ge in H
  | H : Z.leb _ _ = true |- _ => apply Z.leb_le in H
  | H : Z.leb _ _ = false |- _ => apply Z.leb_gt in H
  | H : Nat.eqb _ _ = true |- _ => apply Nat.eqb_eq in H
  | H : Nat.eqb _ _ = false |- _ => apply Nat.eqb_neq in H
  | H : Nat.ltb _ _ = true |- _ => apply Nat.ltb_lt in H
  | H : Nat.ltb _ _ = false |- _ => apply Nat.ltb_ge in H
  | H : Nat.leb _ _ = true |- _ => apply Nat.leb_le in H
  | H : Nat.leb _ _ = false |- _ => apply Nat.leb_gt in H
  end.

(** Split the first [if] of the goal on its condition. *)
Ltac split_if :=
  match goal with
  | |- context [if ?b then _ else _] => let E := fresh "E" in destruct b eqn:E
  end.

(** Split the first [if] of a hypothesis. *)
Ltac split_if_in H :=
  match type of H with
  | context [if ?b then _ else _] => let E := fresh "E" in destruct b eqn:E
  end.

(** Decide a closed boolean or arithmetic goal by evaluation. *)
Ltac crunch := first [reflexivity | vm_compute; reflexivity | lia].

(** ** Machine words *)

Section words.
  Implicit Types z : Z.

Lemma u128_id z : 0 <= z < 2 ^ 128 -> u128 z = z.
Proof. apply Z.mod_small. Qed.
Lemma u64_id z : 0 <= z < 2 ^ 64 -> u64 z = z.
Proof. intros. unfold u64. apply Z.mod_small. lia. Qed.

Lemma u64_range z : 0 <= u64 z < 2 ^ 64.
Proof. unfold u64. apply Z.mod_pos_bound. lia. Qed.

Lemma u64_u64 z : u64 (u64 z) = u64 z.
Proof. apply u64_id, u64_range. Qed.

Lemma u16_id z : 0 <= z < 2 ^ 16 -> u16 z = z.
Proof. intros. unfold u16. apply Z.mod_small. lia. Qed.

Lemma u8_id z : 0 <= z < 256 -> u8 z = z.
Proof. intros. unfold u8. apply Z.mod_small. lia. Qed.

Lemma u8_range z : 0 <= u8 z < 256.
Proof. unfold u8. apply (Z.mod_pos_bound z 256). lia. Qed.
(** Or-ing a shifted value onto a smaller one is addition. *)
Lemma lor_shift acc c shift :
  0 <= shift -> 0 <= acc < 2 ^ shift -> Z.lor acc (Z.shiftl c shift) = acc + c * 2 ^ shift.
Proof.
  intros Hs Ha. rewrite <- Z.add_nocarry_lor; [by rewrite Z.shiftl_mul_pow2|].
  apply Z.bits_inj'. intros n Hn. rewrite Z.land_spec, Z.bits_0, Z.shiftl_spec by done.
  destruct (Z.lt_ge_cases n shift) as [Hlt|Hge].
  - rewrite (Z.testbit_neg_r c) by lia. apply andb_false_r.
  - rewrite <- (Z.mod_small acc (2 ^ shift)) by done.
    by rewrite Z.mod_pow2_bits_high by lia.
Qed.
End words.

#[export] Hint Resolve u64_range u8_range : vns.
#[export] Hint Rewrite u64_u64 : vns.

(** ** Byte strings *)

Lemma beq_true x y : beq x y = true <-> x = y.
Proof. apply bool_decide_eq_true. Qed.

Lemma beq_false x y : beq x y = false <-> x <> y.
Proof. apply bool_decide_eq_false. Qed.

Lemma beq_refl x : beq x x = true.
Proof. by apply beq_true. Qed.

Lemma is_empty_false {A} (l : list A) : is_empty l = false <-> l <> [].
Proof. destruct l; split; naive_solver. Qed.

Lemma is_empty_true {A} (l : list A) : is_empty l = true <-> l = [].
Proof. destruct l; split; naive_solver. Qed.

Lemma forallb_Forall {A} (p : A -> bool) l : forallb p l = true <-> Forall (fun x => p x = true) l.
Proof. rewrite forallb_forall, Forall_forall. by setoid_rewrite list_elem_of_In. Qed.

Lemma existsb_Exists {A} (p : A -> bool) l : existsb p l = true <-> Exists (fun x => p x = true) l.
Proof. rewrite existsb_exists, Exists_exists. by setoid_rewrite list_elem_of_In. Qed.

(** A property of bytes holds when it holds of the 256 of them. *)
Lemma byte_cases (p : Z -> bool) z :
  forallb p (seqZ 0 256) = true -> 0 <= z < 256 -> p z = true.
Proof.
  intros F%forallb_Forall Hz. rewrite Forall_forall in F. apply F, elem_of_seqZ. lia.
Qed.

Ltac byte_cases z :=
  match goal with
  | |- ?t = true =>
      let p := eval pattern z in t in
      match p with ?f _ => apply (byte_cases f z); [vm_compute; reflexivity | lia] end
  end.

Lemma zlen_nonneg {A} (l : list A) : 0 <= zlen l.
Proof. unfold zlen. lia. Qed.

Lemma zlen_app {A} (l k : list A) : zlen (l ++ k) = zlen l + zlen k.
Proof. unfold zlen. rewrite length_app. lia. Qed.

Lemma zlen_cons {A} x (l : list A) : zlen (x :: l) = 1 + zlen l.
Proof. unfold zlen. cbn. lia. Qed.

Lemma to_nat_zlen {A} (l : list A) : Z.to_nat (zlen l) = length l.
Proof. apply Nat2Z.id. Qed.

#[export] Hint Resolve zlen_nonneg beq_refl : vns.
#[export] Hint Rewrite @zlen_app @zlen_cons : vns.

Lemma length_le_bytes n v : length (le_bytes n v) = n.
Proof. revert v. induction n; intros; cbn; auto. Qed.

Lemma le_bytes_byte n v : Forall is_byte (le_bytes n v).
Proof.
  revert v. induction n as [|n IH]; intros v; cbn; constructor; auto.
  unfold is_byte. apply Z.mod_pos_bound. lia.
Qed.

(** What is written little-endian in [n] bytes is read back modulo [256 ^ n]. *)
Lemma le_val_le_bytes n v : le_val (le_bytes n v) = v mod 256 ^ Z.of_nat n.
Proof.
  revert v. induction n as [|n IH]; intros v.
  - cbn. by rewrite Z.mod_1_r.
  - cbn [le_bytes le_val]. rewrite IH.
    rewrite Nat2Z.inj_succ, Z.pow_succ_r by lia.
    rewrite Z.rem_mul_r; lia.
Qed.

Lemma le_val_le_bytes_id n v : 0 <= v < 256 ^ Z.of_nat n -> le_val (le_bytes n v) = v.
Proof. intros. rewrite le_val_le_bytes. by apply Z.mod_small. Qed.

Lemma le_bytes_inj n v w :
  0 <= v < 256 ^ Z.of_nat n -> 0 <= w < 256 ^ Z.of_nat n -> le_bytes n v = le_bytes n w -> v = w.
Proof. intros Hv Hw E. by rewrite <- (le_val_le_bytes_id n v), E, le_val_le_bytes_id. Qed.

Lemma le_val_range l : Forall is_byte l -> 0 <= le_val l < 256 ^ zlen l.
Proof.
  unfold zlen. induction 1 as [|x l Hx Hl IH]; cbn [le_val length]; [lia|].
  rewrite Nat2Z.inj_succ, Z.pow_succ_r by lia. unfold is_byte in Hx. lia.
Qed.

Lemma le_bytes_le_val l : Forall is_byte l -> le_bytes (length l) (le_val l) = l.
Proof.
  induction 1 as [|x l Hx F IH]; [done|]. cbn [length le_val le_bytes]. unfold is_byte in Hx.
  rewrite Z.mul_comm, Z_mod_plus_full, Z.mod_small, Z.div_add, Z.div_small by lia. by rewrite Z.add_0_l, IH.
Qed.

#[export] Hint Resolve length_le_bytes le_bytes_byte : vns.

(** ** Congruence

    Equality modulo [n], wrapped so that rewriting with it goes through sums and
    products. *)

Inductive congr (n a b : Z) : Prop := congr_intro : a mod n = b mod n -> congr n a b.
Notation "a ≡[ n ] b" := (congr n a b) (at level 70, n at level 60, no associativity) : Z_scope.

Lemma congr_iff n a b : a ≡[n] b <-> a mod n = b mod n.
Proof. split; [by intros []|by constructor]. Qed.

Lemma congr_elim n a b : a ≡[n] b -> a mod n = b mod n.
Proof. by intros []. Qed.

#[export] Instance congr_equiv n : Equivalence (congr n).
Proof.
  split; [intros a|intros a b [E]|intros a b c [E] [F]]; constructor; congruence.
Qed.
#[export] Instance congr_add n : Proper (congr n ==> congr n ==> congr n) Z.add.
Proof. intros a b [E] c d [F]. constructor. by rewrite Zplus_mod, E, F, <- Zplus_mod. Qed.
#[export] Instance congr_sub n : Proper (congr n ==> congr n ==> congr n) Z.sub.
Proof. intros a b [E] c d [F]. constructor. by rewrite Zminus_mod, E, F, <- Zminus_mod. Qed.
#[export] Instance congr_mul n : Proper (congr n ==> congr n ==> congr n) Z.mul.
Proof. intros a b [E] c d [F]. constructor. by rewrite Zmult_mod, E, F, <- Zmult_mod. Qed.

Lemma congr_mod n a : a mod n ≡[n] a.
Proof. constructor. apply Zmod_mod. Qed.

(** Drops the reductions and compares as polynomials. *)
Ltac congr_ring := rewrite ?congr_mod; match goal with |- congr ?n ?a ?b => replace a with b by ring; reflexivity end.

(** ** Sizes in bits *)

Lemma abs_mul_pow a b n m : 0 <= n -> 0 <= m -> Z.abs a <= 2 ^ n -> Z.abs b <= 2 ^ m -> Z.abs (a * b) <= 2 ^ (n + m).
Proof. intros Hn Hm Ha Hb. rewrite Z.abs_mul, Z.pow_add_r by done. apply Z.mul_le_mono_nonneg; lia. Qed.

Lemma abs_add_pow a b n m : 0 <= n -> n + 1 < m -> Z.abs a <= 2 ^ n -> Z.abs b <= 2 ^ n -> Z.abs (a + b) < 2 ^ m.
Proof.
  intros Hn Hm Ha Hb. apply Z.le_lt_trans with (2 ^ (n + 1)); [rewrite Z.pow_add_r by lia; lia|]. apply Z.pow_lt_mono_r; lia.
Qed.

(** ** Reading a prefix of known length *)

Lemma take_app_len {A} n (l k : list A) : length l = n -> take n (l ++ k) = l.
Proof. intros <-. apply take_app_length. Qed.

Lemma drop_app_len {A} n (l k : list A) : length l = n -> drop n (l ++ k) = k.
Proof. intros <-. apply drop_app_length. Qed.

Lemma length_take_exact {A} n (l : list A) : (n <= length l)%nat -> length (take n l) = n.
Proof. intros. rewrite length_take. lia. Qed.

Lemma lookup_app_second {A} (pre : list A) a c r :
  (pre ++ a :: c :: r) !! (length pre + 1)%nat = Some c.
Proof. by rewrite lookup_app_r, Nat.add_comm, Nat.add_sub by lia. Qed.

Lemma drop_app_two {A} (pre : list A) a c r : drop (length pre + 2) (pre ++ a :: c :: r) = r.
Proof. by rewrite <- drop_drop, drop_app_length. Qed.

Lemma lookup_map {A B} (f : A -> B) l i : map f l !! i = f <$> l !! i.
Proof. apply list_lookup_fmap. Qed.

Lemma filter_all {A} (P : A -> Prop) `{forall x, Decision (P x)} l : Forall P l -> filter P l = l.
Proof. induction 1 as [|x l Hx _ IH]; [done|]. by rewrite filter_cons_True, IH. Qed.

Lemma list_filter_none {A} (P : A -> Prop) `{forall x, Decision (P x)} l :
  Forall (fun x => ~ P x) l -> filter P l = [].
Proof. induction 1 as [|x l Hx _ IH]; [done|]. by rewrite filter_cons_False. Qed.

Lemma Forall_filter_list {A} (P Q : A -> Prop) `{forall x, Decision (P x)} l :
  Forall Q l -> Forall Q (filter P l).
Proof.
  intros F. apply Forall_forall. intros x [_ Hx]%list_elem_of_filter.
  rewrite Forall_forall in F. auto.
Qed.

(** ** C strings *)

Definition no_nul (s : bytes) : Prop := Forall (fun c => c <> 0) s.

Lemma cstr_no_nul s : no_nul (cstr s).
Proof.
  induction s as [|x s IH]; cbn; [constructor|].
  destruct (x =? 0) eqn:E; constructor; [by apply Z.eqb_neq | done].
Qed.

Lemma cstr_id s : no_nul s -> cstr s = s.
Proof.
  induction 1 as [|x s Hx _ IH]; cbn; [done|].
  destruct (Z.eqb_spec x 0); [done | by rewrite IH].
Qed.

Lemma cstr_app_nul s t : no_nul s -> cstr (s ++ 0 :: t) = s.
Proof.
  induction 1 as [|x s Hx _ IH]; cbn; [done|].
  destruct (Z.eqb_spec x 0); [done | by rewrite IH].
Qed.

Lemma cstr_pad s n : no_nul s -> cstr (s ++ replicate n 0) = s.
Proof. destruct n; cbn; [rewrite app_nil_r; apply cstr_id | apply cstr_app_nul]. Qed.

(** A NUL-free string that fits is stored exactly. *)
Lemma cstr_strncpy_buf n s : no_nul s -> (length s < n)%nat -> cstr (strncpy_buf n s) = s.
Proof.
  intros Hs Hl. unfold strncpy_buf. rewrite (cstr_id s Hs).
  rewrite (take_ge s) by lia. by apply cstr_pad.
Qed.

Lemma length_strncpy_buf n s : (0 < n)%nat -> length (strncpy_buf n s) = n.
Proof.
  intros. unfold strncpy_buf. rewrite length_app, length_replicate, length_take. lia.
Qed.

Lemma no_nul_last_inj x y : no_nul x -> no_nul y -> x ++ [0] `prefix_of` y ++ [0] -> x = y.
Proof.
  intros Hx. revert y. induction Hx as [|a x Ha _ IH]; intros y Hy [k Hk].
  - destruct y as [|c y]; [done|]. inversion Hy; subst. by injection Hk.
  - destruct y as [|c y]; cbn in Hk.
    + injection Hk as Hc Hk. destruct x; discriminate.
    + injection Hk as -> Hk. inversion Hy; subst. f_equal. apply IH; [done|]. by exists k.
Qed.

(** On strings shorter than the bound [strncmp] is equality of C strings. *)
Lemma strncmp_eq_spec n x y :
  (length (cstr x) < n)%nat -> (length (cstr y) < n)%nat ->
  strncmp_eq n x y = true <-> cstr x = cstr y.
Proof.
  intros Hx Hy. unfold strncmp_eq. rewrite bool_decide_eq_true.
  rewrite !take_ge by (rewrite length_app; cbn; lia).
  split; [by intros ?%(inj (fun l => l ++ [0])) | congruence].
Qed.

(** A stored string that fits its buffer matches exactly the keys with that
    C string. *)
Lemma strncmp_eq_stored n buf k :
  (length (cstr buf) < n)%nat -> strncmp_eq n buf k = beq (cstr k) (cstr buf).
Proof.
  intros Hl. apply eq_true_iff_eq. unfold strncmp_eq, beq. rewrite !bool_decide_eq_true.
  rewrite (take_ge (cstr buf ++ [0])) by (rewrite length_app; cbn; lia). split.
  - intros E. symmetry. apply no_nul_last_inj; [apply cstr_no_nul..|]. rewrite E. eexists. symmetry. apply take_drop.
  - intros ->. by rewrite take_ge by (rewrite length_app; cbn; lia).
Qed.

(** ** The order of byte strings *)

Lemma bytes_leb_refl x : bytes_leb x x = true.
Proof. induction x as [|a x IH]; cbn; [done|]. by rewrite Z.ltb_irrefl. Qed.

Lemma bytes_leb_total x y : bytes_leb x y = true \/ bytes_leb y x = true.
Proof.
  revert y. induction x as [|a x IH]; intros [|c y]; cbn; auto.
  destruct (Z.ltb_spec a c), (Z.ltb_spec c a); auto; lia.
Qed.

Lemma bytes_leb_trans x y z : bytes_leb x y = true -> bytes_leb y z = true -> bytes_leb x z = true.
Proof.
  revert y z. induction x as [|a x IH]; intros [|c y] [|d z]; cbn; try done.
  destruct (Z.ltb_spec a c), (Z.ltb_spec c a), (Z.ltb_spec c d), (Z.ltb_spec d c),
    (Z.ltb_spec a d), (Z.ltb_spec d a); try done; try lia. apply IH.
Qed.

Lemma bytes_leb_antisym x y : bytes_leb x y = true -> bytes_leb y x = true -> x = y.
Proof.
  revert y. induction x as [|a x IH]; intros [|c y]; cbn; try done.
  destruct (Z.ltb_spec a c), (Z.ltb_spec c a); try done; try lia.
  intros. f_equal; [lia|auto].
Qed.
