(* ===== verification/Archive.v ===== *)
(** * Binary archives ([src/serialization], [src/common/varint.h])

    Reading functions that consume a prefix of their input, the varint codec,
    strings and containers as [binary_archive] reads and writes them. *)

From S2P Require Import Prelude.

(** ** Readers *)

(** A reader consumes a prefix of the remaining [data]/[size]. *)
Definition reader (A : Type) : Type := bytes -> option (A * bytes).

Definition read_le (n : nat) : reader Z := fun d =>
  if (length d <? n)%nat then None else Some (le_val (take n d), drop n d).

Definition read_raw (n : nat) : reader bytes := fun d =>
  if (length d <? n)%nat then None else Some (take n d, drop n d).

Fixpoint read_n {A} (r : reader A) (n : nat) : reader (list A) := fun d =>
  match n with
  | O => Some ([], d)
  | S n => '(x, d) ← r d; '(l, d) ← read_n r n d; Some (x :: l, d)
  end.

(** ** Readers against writers *)

(** [reads r e x]: from an input that starts with the bytes [e] the reader
    takes exactly [e] and returns [x]. *)
Definition reads {A} (r : reader A) (e : bytes) (x : A) : Prop :=
  forall rest, r (e ++ rest) = Some (x, rest).

Lemma reads_raw n l : length l = n -> reads (read_raw n) l l.
Proof.
  intros <- rest. unfold read_raw. rewrite length_app, (proj2 (Nat.ltb_ge _ _)) by lia.
  by rewrite take_app_length, drop_app_length.
Qed.

Lemma reads_le n v : 0 <= v < 256 ^ Z.of_nat n -> reads (read_le n) (le_bytes n v) v.
Proof.
  intros Hv rest. unfold read_le. rewrite length_app, length_le_bytes.
  rewrite (proj2 (Nat.ltb_ge _ _)) by lia.
  by rewrite take_app_len, drop_app_len, le_val_le_bytes_id by auto with vns.
Qed.

Lemma reads_byte v : reads (read_le 1) [v] v.
Proof. intros rest. unfold read_le. cbn. by rewrite Z.add_0_r. Qed.

Lemma read_byte_cons v rest : read_le 1 (v :: rest) = Some (v, rest).
Proof. apply (reads_byte v rest). Qed.

Lemma reads_n {A} (r : reader A) (e : A -> bytes) l :
  Forall (fun x => reads r (e x) x) l -> reads (read_n r (length l)) (concat (map e l)) l.
Proof.
  induction 1 as [|x l Hx _ IH]; intros rest; [done|]. cbn [length read_n map concat].
  rewrite <- app_assoc, (Hx _). cbn [mbind option_bind]. by rewrite (IH rest).
Qed.

Ltac read_with L := rewrite (L _); cbn [mbind option_bind].

(** ** What a reader guarantees *)

(** [sound r P]: on byte input the reader returns values in [P] and leaves
    bytes. *)
Definition sound {A} (r : reader A) (P : A -> Prop) : Prop :=
  forall d x d', Forall is_byte d -> r d = Some (x, d') -> P x /\ Forall is_byte d'.

(** [extends r]: what the reader returns does not depend on what follows. *)
Definition extends {A} (r : reader A) : Prop :=
  forall d x d' t, r d = Some (x, d') -> r (d ++ t) = Some (x, d' ++ t).

Lemma sound_le n : sound (read_le n) (fun v => 0 <= v < 256 ^ Z.of_nat n).
Proof.
  intros d x d' B. unfold read_le. split_if; [done|]. intros [= <- <-]. to_prop.
  pose proof (le_val_range (take n d) (Forall_take _ _ _ B)) as R.
  unfold zlen in R. rewrite length_take_exact in R by lia. split; [done|by apply Forall_drop].
Qed.

Lemma sound_raw n : sound (read_raw n) (fun l => length l = n /\ Forall is_byte l).
Proof.
  intros d x d' B. unfold read_raw. split_if; [done|]. intros [= <- <-]. to_prop.
  split; [split; [apply length_take_exact; lia|by apply Forall_take]|by apply Forall_drop].
Qed.

(** Take a reader's [bind] apart in a hypothesis. *)
Ltac bind_inv H :=
  match type of H with
  | (mbind _ ?m) = Some _ =>
      let x := fresh "x" in let d := fresh "d" in let E := fresh "E" in
      destruct m as [[x d]|] eqn:E; [cbn [mbind option_bind] in H|done]
  end.

Lemma sound_n {A} (r : reader A) P n :
  sound r P -> sound (read_n r n) (fun l => length l = n /\ Forall P l).
Proof.
  intros Hr. induction n as [|n IH]; intros d l d' B; cbn [read_n].
  - intros [= <- <-]. auto.
  - intros H. bind_inv H. bind_inv H. injection H as <- <-.
    apply Hr in E as [? B']; [|done]. apply IH in E0 as [[L F] B'']; [|done].
    split; [split; [cbn; lia|by constructor]|done].
Qed.

Lemma extends_le n : extends (read_le n).
Proof.
  intros d x d' t. unfold read_le. split_if; [done|]. intros [= <- <-]. to_prop.
  rewrite length_app, (proj2 (Nat.ltb_ge _ _)) by lia.
  by rewrite take_app_le, drop_app_le by lia.
Qed.

Lemma extends_raw n : extends (read_raw n).
Proof.
  intros d x d' t. unfold read_raw. split_if; [done|]. intros [= <- <-]. to_prop.
  rewrite length_app, (proj2 (Nat.ltb_ge _ _)) by lia.
  by rewrite take_app_le, drop_app_le by lia.
Qed.

Lemma extends_n {A} (r : reader A) n : extends r -> extends (read_n r n).
Proof.
  intros Hr. induction n as [|n IH]; intros d l d' t; cbn [read_n]; [by intros [= <- <-]|].
  intros H. bind_inv H. bind_inv H. rewrite (Hr _ _ _ _ E). cbn [mbind option_bind].
  rewrite (IH _ _ _ _ E0). cbn. by injection H as <- <-.
Qed.


(** ** Varints ([tools::write_varint], [tools::read_varint]) *)

(** The loop of [write_varint]; nine rounds are enough for a 64-bit value, the
    last byte is written after the loop. *)
Fixpoint write_varint_loop (rounds : nat) (i : Z) : bytes :=
  match rounds with
  | O => [i]
  | S rounds => if 128 <=? i then Z.lor (Z.land i 127) 128 :: write_varint_loop rounds (Z.shiftr i 7)
                else [i]
  end.

Definition write_varint (i : Z) : bytes := write_varint_loop 9 i.

(** The loop of [read_varint<bits>]: [None] for the two error codes.  At the
    end of the input it returns what it has so far, as the code does. *)
Fixpoint read_varint_loop (bits shift acc : Z) (d : bytes) : option (Z * bytes) :=
  match d with
  | [] => Some (acc, [])
  | c :: d =>
      if (bits <=? shift + 7) && (Z.shiftl 1 (bits - shift) <=? c) then None
      else if (c =? 0) && negb (shift =? 0) then None
      else
      let acc := Z.lor acc (Z.shiftl (Z.land c 127) shift) in
      if Z.land c 128 =? 0 then Some (acc, d) else read_varint_loop bits (shift + 7) acc d
  end.

Definition read_varint (bits : Z) : reader Z := read_varint_loop bits 0 0.

(** ** Strings and containers ([do_serialize], [do_serialize_container]) *)

Definition write_archive_string (s : bytes) : bytes := write_varint (zlen s) ++ s.

Definition read_archive_string : reader bytes := fun d =>
  '(size, d) ← read_varint 64 d;
  if zlen d <? size then None else read_raw (Z.to_nat size) d.

Definition write_container {A} (e : A -> bytes) (l : list A) : bytes :=
  write_varint (zlen l) ++ concat (map e l).

Definition read_container {A} (r : reader A) : reader (list A) := fun d =>
  '(cnt, d) ← read_varint 64 d;
  if zlen d <? cnt then None else read_n r (Z.to_nat cnt) d.

(** A [bool] is copied from its byte: the value when that is 0 or 1; for the
    other bytes the language leaves the value open ([trap_bool]). *)
Definition write_bool (x : bool) : bytes := [bool_byte x].
Definition read_bool (trap_bool : Z -> bool) : reader bool := fun d =>
  '(c, d) ← read_le 1 d;
  Some (if c =? 0 then false else if c =? 1 then true else trap_bool c, d).

(** [::serialization::serialize(ar, v)] on a reading archive: the whole input
    must be consumed. *)
Definition parse_all {A} (r : reader A) (d : bytes) : option A :=
  match r d with
  | Some (x, []) => Some x
  | _ => None
  end.

(** *** Round trips *)

Lemma write_varint_loop_small n i : i < 128 -> write_varint_loop n i = [i].
Proof. intros. destruct n; [done|]. cbn. rewrite (proj2 (Z.leb_gt _ _)) by lia. done. Qed.

Lemma byte_land c : 0 <= c < 256 -> (Z.land c 128 =? 0) = (c <? 128) /\ Z.land c 127 = c mod 128.
Proof.
  intros Hc. split; [|exact (Z.land_ones c 7 ltac:(lia))].
  apply Bool.eqb_prop. byte_cases c.
Qed.

(** One round of the reader on a byte it accepts. *)
Lemma read_varint_step bits shift acc c d :
  0 <= shift -> 0 <= acc < 2 ^ shift -> 0 <= c < 256 ->
  (bits <= shift + 7 -> c < 2 ^ (bits - shift)) -> (shift <> 0 -> c <> 0) ->
  read_varint_loop bits shift acc (c :: d)
  = (let acc := acc + c mod 128 * 2 ^ shift in
     if c <? 128 then Some (acc, d) else read_varint_loop bits (shift + 7) acc d).
Proof.
  intros Hs Ha Hc Ho Hz. cbn [read_varint_loop].
  destruct (byte_land c Hc) as [E1 E2].
  assert ((bits <=? shift + 7) && (Z.shiftl 1 (bits - shift) <=? c) = false) as ->.
  { destruct (Z.leb_spec bits (shift + 7)) as [L|L]; [|done]. cbn. specialize (Ho L).
    destruct (Z.lt_ge_cases (bits - shift) 0) as [N|N].
    - rewrite Z.pow_neg_r in Ho by done. lia.
    - rewrite Z.shiftl_1_l. lia. }
  assert ((c =? 0) && negb (shift =? 0) = false) as -> by lia.
  cbv zeta. rewrite E1, E2, lor_shift by done. done.
Qed.

Lemma write_varint_loop_round n i :
  128 <= i -> write_varint_loop (S n) i = (i mod 128 + 128) :: write_varint_loop n (i / 128).
Proof.
  intros Hi. cbn [write_varint_loop]. rewrite (proj2 (Z.leb_le _ _) Hi).
  rewrite (Z.shiftr_div_pow2 i 7) by lia. change 127 with (Z.ones 7). rewrite (Z.land_ones i 7) by lia.
  change (2 ^ 7) with 128. f_equal.
  assert (0 <= i mod 128 < 128) as R by (apply Z.mod_pos_bound; lia).
  generalize dependent (i mod 128). intros m R.
  change 128 with (Z.shiftl 1 7) at 1. rewrite lor_shift by lia. lia.
Qed.

(** Reading what was written, from any intermediate state of the reader. *)
Lemma read_write_varint_loop n : forall bits shift acc i rest,
  0 <= shift -> 0 <= acc < 2 ^ shift -> 0 <= i < 128 ^ (Z.of_nat n + 1) ->
  i < 2 ^ (bits - shift) -> (shift <> 0 -> i <> 0) ->
  read_varint_loop bits shift acc (write_varint_loop n i ++ rest) = Some (acc + i * 2 ^ shift, rest).
Proof.
  induction n as [|n IH]; intros bits shift acc i rest Hs Ha Hi Hb Hz.
  - change (Z.of_nat 0 + 1) with 1 in Hi. cbn [write_varint_loop app].
    rewrite read_varint_step by (done || lia). cbv zeta.
    rewrite (proj2 (Z.ltb_lt _ _)), Z.mod_small by lia. done.
  - destruct (Z.lt_ge_cases i 128) as [L|L].
    + rewrite write_varint_loop_small by done. cbn [app].
      rewrite read_varint_step by (done || lia). cbv zeta.
      rewrite (proj2 (Z.ltb_lt _ _)), Z.mod_small by lia. done.
    + rewrite write_varint_loop_round by done. cbn [app].
      assert (0 <= i mod 128 < 128) as R by (apply Z.mod_pos_bound; lia).
      assert (7 < bits - shift) as B.
      { apply Z.nle_gt. intros N. pose proof (Z.pow_le_mono_r 2 (bits - shift) 7 ltac:(lia) N). lia. }
      rewrite read_varint_step; [|done|done|lia|lia|lia]. cbv zeta.
      rewrite (proj2 (Z.ltb_ge _ _)) by lia.
      replace ((i mod 128 + 128) mod 128) with (i mod 128)
        by (rewrite <- Z.add_mod_idemp_r, Z.mod_same, Z.add_0_r, Z.mod_mod by lia; done).
      assert (2 ^ (shift + 7) = 2 ^ shift * 128) as P by (rewrite Z.pow_add_r by lia; done).
      pose proof (Z_div_mod_eq_full i 128) as D.
      rewrite IH.
      * f_equal. f_equal. rewrite P. nia.
      * lia.
      * rewrite P. nia.
      * split; [apply Z.div_pos; lia|]. apply Z.div_lt_upper_bound; [lia|].
        rewrite Nat2Z.inj_succ in Hi. replace (Z.succ (Z.of_nat n) + 1) with (1 + (Z.of_nat n + 1)) in Hi by lia.
        rewrite Z.pow_add_r in Hi by lia. lia.
      * apply Z.div_lt_upper_bound; [lia|].
        replace (128 * 2 ^ (bits - (shift + 7))) with (2 ^ (bits - shift)); [done|].
        change 128 with (2 ^ 7). rewrite <- Z.pow_add_r by lia. f_equal. lia.
      * intros _. assert (1 <= i / 128) by (apply Z.div_le_lower_bound; lia). lia.
Qed.

(** What the reader accepted, when it stopped at a final byte, is what the
    writer writes for the value it returned. *)
Lemma read_varint_loop_inv d : forall n bits shift acc v rest,
  0 <= shift -> 0 <= acc < 2 ^ shift -> bits - shift <= 7 * (Z.of_nat n + 1) ->
  Forall is_byte d -> existsb (fun c => c <? 128) d = true ->
  read_varint_loop bits shift acc d = Some (v, rest) ->
  exists i, v = acc + i * 2 ^ shift /\ 0 <= i < 2 ^ (bits - shift) /\ (shift <> 0 -> i <> 0) /\
    d = write_varint_loop n i ++ rest.
Proof.
  induction d as [|c d IH]; intros n bits shift acc v rest Hs Ha Hn B T H; [done|].
  apply Forall_cons in B as [Hc B]. unfold is_byte in Hc.
  pose proof H as H'. cbn [read_varint_loop] in H'. split_if_in H'; [done|]. split_if_in H'; [done|].
  clear H'. to_prop.
  assert (bits <= shift + 7 -> c < 2 ^ (bits - shift)) as Ho.
  { intros L. destruct (Z.lt_ge_cases (bits - shift) 0) as [N|N].
    - rewrite Z.shiftl_div_pow2, Z.div_small in * by (pose proof (Z.pow_gt_1 2 (- (bits - shift))); lia). lia.
    - rewrite Z.shiftl_1_l in *. lia. }
  rewrite read_varint_step in H; [|lia..]. cbv zeta in H.
  destruct (Z.ltb_spec c 128) as [L|L].
  - injection H as <- <-. exists c. rewrite Z.mod_small, write_varint_loop_small by lia.
    split_and!; [done|lia| |lia|done].
    destruct (Z.le_gt_cases bits (shift + 7)); [by apply Ho|].
    pose proof (Z.pow_le_mono_r 2 7 (bits - shift)). lia.
  - assert (shift + 7 < bits) as Hb.
    { apply Z.nle_gt. intros N. specialize (Ho N).
      pose proof (Z.pow_le_mono_r 2 (bits - shift) 7). lia. }
    destruct n as [|n]; [lia|].
    assert (0 <= c mod 128 < 128) as R by (apply Z.mod_pos_bound; lia).
    assert (2 ^ (shift + 7) = 2 ^ shift * 128) as P by (rewrite Z.pow_add_r by lia; done).
    assert (c mod 128 = c - 128) as M by (symmetry; apply (Z.mod_unique _ _ 1); lia).
    apply (IH n) in H as (i & -> & Hi & Hz & ->); [|lia|rewrite P; nia|lia|done|].
    2: { cbn in T. rewrite (proj2 (Z.ltb_ge _ _)) in T by done. done. }
    exists (c mod 128 + 128 * i). specialize (Hz ltac:(lia)).
    assert (2 ^ (bits - shift) = 128 * 2 ^ (bits - (shift + 7))) as P'.
    { change 128 with (2 ^ 7). rewrite <- Z.pow_add_r by lia. f_equal. lia. }
    split_and!; [rewrite P; nia|lia|lia|lia|].
    rewrite write_varint_loop_round by lia.
    rewrite (Z.mul_comm 128 i), Z.mod_add, Z.div_add, Z.mod_mod, Z.div_small by lia.
    cbn [app Z.add]. f_equal. lia.
Qed.

(** *** The codec's contract *)

Lemma reads_varint bits v :
  0 <= bits <= 64 -> 0 <= v < 2 ^ bits -> reads (read_varint bits) (write_varint v) v.
Proof.
  intros Hb Hv rest. unfold read_varint, write_varint.
  rewrite read_write_varint_loop; [|lia|lia| | |lia].
  - f_equal. f_equal. lia.
  - pose proof (Z.pow_le_mono_r 2 bits 64). change (128 ^ (Z.of_nat 9 + 1)) with (2 ^ 70). lia.
  - rewrite Z.sub_0_r. lia.
Qed.

Lemma length_write_varint v : (length (write_varint v) <= 10)%nat.
Proof.
  unfold write_varint. cut (forall n v, length (write_varint_loop n v) <= S n)%nat; [intros H; apply H|].
  clear v. intros n. induction n as [|n IH]; intros v; cbn; [lia|]. destruct (128 <=? v); cbn; [|lia]. specialize (IH (Z.shiftr v 7)). lia.
Qed.

Lemma reads_archive_string s : zlen s < 2 ^ 64 -> reads read_archive_string (write_archive_string s) s.
Proof.
  intros Hs rest. unfold read_archive_string, write_archive_string. rewrite <- app_assoc.
  rewrite reads_varint by (pose proof (zlen_nonneg s); lia). cbn [mbind option_bind].
  unfold zlen in *. rewrite length_app, (proj2 (Z.ltb_ge _ _)), Nat2Z.id by lia.
  by apply reads_raw.
Qed.

(** A container is read back when every element is and takes a byte at least,
    which is what the reader's sanity check on the count relies on. *)
Lemma reads_container {A} (r : reader A) (e : A -> bytes) l :
  zlen l < 2 ^ 64 -> Forall (fun x => reads r (e x) x /\ e x <> []) l ->
  reads (read_container r) (write_container e l) l.
Proof.
  intros Hl F rest. unfold read_container, write_container. rewrite <- app_assoc.
  rewrite reads_varint by (pose proof (zlen_nonneg l); lia). cbn [mbind option_bind].
  assert (length l <= length (concat (map e l)))%nat as L.
  { clear Hl. induction F as [|x l [_ Hx] _ IH]; cbn; [lia|]. rewrite length_app.
    destruct (e x); [done|cbn; lia]. }
  unfold zlen in *. rewrite length_app, (proj2 (Z.ltb_ge _ _)), Nat2Z.id by lia.
  apply reads_n. eapply Forall_impl; [exact F|]. by intros x [? _].
Qed.

Lemma reads_bool trap x : reads (read_bool trap) (write_bool x) x.
Proof. intros rest. destruct x; reflexivity. Qed.

Lemma parse_all_reads {A} (r : reader A) e x : reads r e x -> parse_all r e = Some x.
Proof. intros H. unfold parse_all. specialize (H []). rewrite app_nil_r in H. by rewrite H. Qed.

(** *** What the readers return *)

Lemma sound_varint_loop d : forall bits shift acc v d',
  0 <= shift < bits -> 0 <= acc < 2 ^ shift -> Forall is_byte d ->
  read_varint_loop bits shift acc d = Some (v, d') -> 0 <= v < 2 ^ bits /\ Forall is_byte d'.
Proof.
  induction d as [|c d IH]; intros bits shift acc v d' Hs Ha B H; cbn [read_varint_loop] in H.
  { injection H as <- <-. pose proof (Z.pow_le_mono_r 2 shift bits). split; [lia|done]. }
  apply Forall_cons in B as [Hc B]. unfold is_byte in Hc. destruct (byte_land c Hc) as [E1 E2].
  split_if_in H; [done|]. split_if_in H; [done|]. cbv zeta in H. rewrite E1, E2, lor_shift in H by lia.
  assert (bits <= shift + 7 -> c < 2 ^ (bits - shift)) as Ho by (intros; rewrite Z.shiftl_1_l in *; lia).
  assert (0 <= c mod 128 < 128) as R by (apply Z.mod_pos_bound; lia).
  assert (2 ^ bits = 2 ^ shift * 2 ^ (bits - shift)) as P by (rewrite <- Z.pow_add_r by lia; f_equal; lia).
  assert (2 ^ (shift + 7) = 2 ^ shift * 128) as P7 by (rewrite Z.pow_add_r by lia; done).
  destruct (Z.ltb_spec c 128) as [L|L].
  - injection H as <- <-. split; [|done]. rewrite Z.mod_small by lia.
    assert (c < 2 ^ (bits - shift)).
    { destruct (Z.le_gt_cases bits (shift + 7)); [by apply Ho|].
      pose proof (Z.pow_le_mono_r 2 7 (bits - shift)). lia. }
    nia.
  - assert (shift + 7 < bits).
    { apply Z.nle_gt. intros N. specialize (Ho N). pose proof (Z.pow_le_mono_r 2 (bits - shift) 7). lia. }
    apply IH in H; [done|lia|nia|done].
Qed.

Lemma sound_varint bits : 0 < bits -> sound (read_varint bits) (fun v => 0 <= v < 2 ^ bits).
Proof. intros Hb d v d' B H. apply sound_varint_loop in H; [done|lia|lia|done]. Qed.

Lemma sound_archive_string :
  sound read_archive_string (fun l => Forall is_byte l /\ zlen l < 2 ^ 64).
Proof.
  intros d l d' B H. unfold read_archive_string in H. bind_inv H. split_if_in H; [done|].
  apply sound_varint in E as [Hx B']; [|lia|done]. apply sound_raw in H as [[L F] ?]; [|done].
  split; [|done]. split; [done|]. unfold zlen. lia.
Qed.

Lemma sound_container {A} (r : reader A) P : sound r P ->
  sound (read_container r) (fun l => Forall P l /\ zlen l < 2 ^ 64).
Proof.
  intros Hr d l d' B H. unfold read_container in H. bind_inv H. split_if_in H; [done|].
  apply sound_varint in E as [Hx B']; [|lia|done]. apply (sound_n _ _ _ Hr) in H as [[L F] ?]; [|done].
  split; [|done]. split; [done|]. unfold zlen. lia.
Qed.

Lemma sound_bool trap : sound (read_bool trap) (fun _ => True).
Proof.
  intros d x d' B H. unfold read_bool in H. bind_inv H. injection H as _ <-.
  apply sound_le in E as [_ ?]; done.
Qed.

(** [shrinks r]: the reader does not leave more than it was given. *)
Definition shrinks {A} (r : reader A) : Prop :=
  forall d x d', r d = Some (x, d') -> (length d' <= length d)%nat.

Lemma shrinks_le n : shrinks (read_le n).
Proof. intros d x d'. unfold read_le. split_if; [done|]. intros [= _ <-]. rewrite length_drop. lia. Qed.
Lemma shrinks_raw n : shrinks (read_raw n).
Proof. intros d x d'. unfold read_raw. split_if; [done|]. intros [= _ <-]. rewrite length_drop. lia. Qed.
Lemma shrinks_varint bits : shrinks (read_varint bits).
Proof.
  intros d x d'. unfold read_varint.
  enough (forall shift acc, read_varint_loop bits shift acc d = Some (x, d') -> (length d' <= length d)%nat) by eauto.
  induction d as [|c d IH]; intros shift acc H; cbn [read_varint_loop] in H; [by injection H as _ <-|].
  split_if_in H; [done|]. split_if_in H; [done|]. cbv zeta in H. split_if_in H; [injection H as _ <-; cbn; lia|].
  apply IH in H. cbn. lia.
Qed.
Lemma shrinks_n {A} (r : reader A) n : shrinks r -> shrinks (read_n r n).
Proof.
  intros Hr. induction n as [|n IH]; intros d l d'; cbn [read_n]; [by intros [= _ <-]|].
  intros H. bind_inv H. bind_inv H. injection H as _ <-. apply Hr in E. apply IH in E0. lia.
Qed.
Lemma shrinks_archive_string : shrinks read_archive_string.
Proof.
  intros d l d' H. unfold read_archive_string in H. bind_inv H. split_if_in H; [done|].
  apply shrinks_varint in E. apply shrinks_raw in H. lia.
Qed.
Lemma shrinks_container {A} (r : reader A) : shrinks r -> shrinks (read_container r).
Proof.
  intros Hr d l d' H. unfold read_container in H. bind_inv H. split_if_in H; [done|].
  apply shrinks_varint in E. apply (shrinks_n _ _ Hr) in H. lia.
Qed.
Lemma shrinks_bool trap : shrinks (read_bool trap).
Proof. intros d x d' H. unfold read_bool in H. bind_inv H. injection H as _ <-. by apply shrinks_le in E. Qed.

(** [codec] knows what each reader does with what its writer wrote, returns and
    leaves; [read_back] runs a reader of several fields over their bytes. *)
Create HintDb codec.
#[export] Hint Resolve reads_raw reads_byte reads_varint reads_archive_string reads_container reads_bool : codec.
#[export] Hint Resolve sound_le sound_raw sound_varint sound_archive_string sound_container sound_bool : codec.
#[export] Hint Resolve shrinks_le shrinks_raw shrinks_varint shrinks_archive_string shrinks_container shrinks_bool : codec.

Ltac read_back :=
  repeat (rewrite <- ?app_assoc;
    match goal with
    | |- mbind _ (?r (?e ++ ?rest)) = _ =>
        let H := fresh in eassert (reads r e _) as H by (eauto with codec lia);
        rewrite (H rest); clear H; cbn [mbind option_bind]
    end).

(** Take a reader of several fields apart, keeping what each field gives. *)
Ltac fields_sound H B :=
  repeat (bind_inv H;
    match goal with
    | E : ?r _ = Some (?x, ?d) |- _ =>
        let S := fresh "S" in let B' := fresh "B" in
        eassert (sound r _) as S by (eauto with codec lia);
        apply S in E as [E B']; [|exact B]; clear S B; rename B' into B
    end).
Ltac fields_shrink H :=
  repeat (bind_inv H;
    match goal with
    | E : ?r _ = Some (?x, ?d) |- _ =>
        let S := fresh "S" in assert (shrinks r) as S by (eauto with codec);
        apply S in E; clear S
    end).

(** varints are canonical.  A value of [bits] bits is read back from the
    bytes written for it, whatever follows; and an input that holds a final
    byte is accepted only if it starts with exactly the bytes the writer
    produces for the value returned, so no second encoding of a value and no
    value beyond the width is ever accepted there. *)
Theorem varint_canonical (bits : Z) (Hbits : 0 <= bits <= 64) :
  (forall v rest, 0 <= v < 2 ^ bits -> read_varint bits (write_varint v ++ rest) = Some (v, rest)) /\
  (forall d v rest, Forall is_byte d -> existsb (fun c => c <? 128) d = true ->
    read_varint bits d = Some (v, rest) -> 0 <= v < 2 ^ bits /\ d = write_varint v ++ rest).
Proof.
  split; [intros v rest Hv; by apply reads_varint|]. intros d v rest B T H.
  apply (read_varint_loop_inv d 9) in H as (i & -> & Hi & _ & ->); try lia; try done.
  rewrite Z.sub_0_r in Hi. replace (0 + i * 2 ^ 0) with i by lia. done.
Qed.

Lemma varint_canonical_witness :
  read_varint 64 (write_varint 300 ++ [7]) = Some (300, [7]) /\
  (0 <= 300 < 2 ^ 64 /\ [172; 2; 9] = write_varint 300 ++ [9]).
Proof.
  split.
  - apply (proj1 (varint_canonical 64 ltac:(lia)) 300 [7]). lia.
  - apply (proj2 (varint_canonical 64 ltac:(lia)) [172; 2; 9] 300 [9]);
      [repeat constructor; lia|reflexivity|reflexivity].
Defined.

(** An input that ends inside a varint is accepted with the bits read so far. *)
Theorem truncated_varint_accepted : read_varint 64 [172] = Some (44, []) /\ read_varint 8 [] = Some (0, []).
Proof. split; reflexivity. Qed.
