(* ===== verification/Crypto.v ===== *)
(** * The cryptography the name system relies on

    Hashing, commitments and the secp256k1 primitives are the operations of a
    class with no laws: every theorem of the development holds whatever they
    compute.  The code of the repository on top of them ([bip340::verify],
    [is_valid_compressed_pubkey], the frozen message hashes) is translated. *)

From S2P Require Import Prelude.

Class Crypto := {
  cn_fast_hash : bytes -> hash;
  secp_xonly_pubkey : Type;
  secp256k1_xonly_pubkey_parse : bytes -> option secp_xonly_pubkey;
  secp256k1_schnorrsig_verify : bytes -> bytes -> secp_xonly_pubkey -> bool;
  secp256k1_ec_pubkey_parse : bytes -> bool;
  rct_commit_zero : Z -> bytes;  (* rct::commit(amount, rct::zero()) *)
}.

Section crypto.
Context `{Crypto}.

(** [bip340::verify]: the prefix byte of the compressed key is skipped. *)
Definition bip340_verify (public_key message signature : bytes) : bool :=
  match secp256k1_xonly_pubkey_parse (drop 1 public_key) with
  | None => false
  | Some xonly_pubkey => secp256k1_schnorrsig_verify signature message xonly_pubkey
  end.

(** [domain_utils::is_valid_compressed_pubkey]; the context allocation is
    taken to succeed. *)
Definition is_valid_compressed_pubkey (key : bytes) : bool :=
  if match key with k0 :: _ => negb (k0 =? 2) && negb (k0 =? 3) | [] => true end
  then false else secp256k1_ec_pubkey_parse key.

Definition compute_vns_registration_fingerprint
    (normalized_domain registrant_key : bytes) (fee_tier : Z) : hash :=
  cn_fast_hash (normalized_domain ++ registrant_key ++ [fee_tier]).

Definition compute_vns_transfer_message_hash
    (normalized_domain new_owner_xonly : bytes) : hash :=
  cn_fast_hash (normalized_domain ++ new_owner_xonly).

End crypto.

(** A concrete instance, on which the definitions evaluate: hashing keeps a
    rolling sum of the message, a signature is the message followed by the
    key. *)
Definition sample_crypto : Crypto :=
  {| cn_fast_hash m := le_bytes 32 (fold_left (fun acc c => acc * 257 + c + 1) m 0);
     secp_xonly_pubkey := bytes;
     secp256k1_xonly_pubkey_parse k := if (length k =? 32)%nat then Some k else None;
     secp256k1_schnorrsig_verify sig msg k := beq sig (msg ++ k);
     secp256k1_ec_pubkey_parse k := (length k =? 33)%nat;
     rct_commit_zero amount := le_bytes 32 amount |}.
