(* ===== verification/DomainTables.v ===== *)
(** * Name tables of [src/common/domain_utils.h]

    The extension tiers, the premium labels and the banned terms that the
    daemon and the wallet compile in, entry by entry and in source order.
    Entries are UTF-8 byte strings, as the C++ literals are. *)

From S2P Require Import Prelude.

#[local] Open Scope string_scope.

Definition GENERIC_EXTENSIONS : list bytes := map str [
    "com"; "org"; "net"; "info"; "xyz"; "blog"; "site"; "online"; "me"; "co";
    "shop"; "club"; "news"; "media"; "social"; "world"; "life"; "fun"; "space";
    "website"; "press"; "host"; "cloud"; "digital"; "direct"; "express"; "free";
    "guru"; "help"; "live"; "one"; "plus"; "rocks"; "show"; "software"; "solutions";
    "support"; "systems"; "tips"; "today"; "tools"; "training"; "tv"; "video";
    "vin"; "vip"; "work"; "zone"; "center"; "company"; "consulting"; "design";
    "events"; "expert"; "global"; "group"; "guide"; "institute"; "international";
    "market"; "money"; "network"; "partners"; "photo"; "pictures"; "productions";
    "properties"; "realty"; "report"; "services"; "studio"; "supply"; "trading";
    "travel"; "ventures"; "vision"; "watch"; "web"
  ]%list.

Definition AFFORDABLE_EXTENSIONS : list bytes := map str [
    "biz"; "pro"; "io"; "tv"; "app"; "dev"; "agency"; "consulting"; "design";
    "studio"; "expert"; "partners"; "ventures"
  ]%list.

Definition POPULAR_EXTENSIONS : list bytes := map str [
    "ai"; "art"; "music"; "film"; "gallery"; "theater"; "pub"; "restaurant"; "cafe";
    "bar"; "fitness"; "yoga"; "health"; "legal"
  ]%list.

Definition PREMIUM_EXTENSIONS : list bytes := map str [
    "law"; "doctor"; "dentist"; "accountant"; "engineer"; "university"; "college";
    "academy"; "school"; "institute"; "foundation"; "charity"; "ngo"; "sport";
    "travel"; "hotel"; "insurance"; "mortgage"; "loans"
  ]%list.

Definition ENTERPRISE_EXTENSIONS : list bytes := map str [
    "bank"; "broker"; "creditcard"; "financial"; "investments"; "capital";
    "holdings"; "enterprises"; "industries"; "corp"; "inc"; "ltd"; "llc"; "pharma";
    "biotech"; "aerospace"; "defense"; "energy"; "oil"; "gas"
  ]%list.

Definition SOVEREIGN_EXTENSIONS : list bytes := map str [
    "ac"; "ad"; "ae"; "af"; "ag"; "ai"; "al"; "am"; "ao"; "aq"; "ar"; "as"; "at";
    "au"; "aw"; "ax"; "az"; "ba"; "bb"; "bd"; "be"; "bf"; "bg"; "bh"; "bi"; "bj";
    "bl"; "bm"; "bn"; "bo"; "bq"; "br"; "bs"; "bt"; "bv"; "bw"; "by"; "bz"; "ca";
    "cc"; "cd"; "cf"; "cg"; "ch"; "ci"; "ck"; "cl"; "cm"; "cn"; "co"; "cr"; "cu";
    "cv"; "cw"; "cx"; "cy"; "cz"; "de"; "dj"; "dk"; "dm"; "do"; "dz"; "ec"; "ee";
    "eg"; "er"; "es"; "et"; "eu"; "fi"; "fj"; "fk"; "fm"; "fo"; "fr"; "ga"; "gd";
    "ge"; "gf"; "gg"; "gh"; "gi"; "gl"; "gm"; "gn"; "gp"; "gq"; "gr"; "gs"; "gt";
    "gu"; "gw"; "gy"; "hk"; "hm"; "hn"; "hr"; "ht"; "hu"; "id"; "ie"; "il"; "im";
    "in"; "io"; "iq"; "ir"; "is"; "it"; "je"; "jm"; "jo"; "jp"; "ke"; "kg"; "kh";
    "ki"; "km"; "kn"; "kp"; "kr"; "kw"; "ky"; "kz"; "la"; "lb"; "lc"; "li"; "lk";
    "lr"; "ls"; "lt"; "lu"; "lv"; "ly"; "ma"; "mc"; "md"; "me"; "mg"; "mh"; "mk";
    "ml"; "mm"; "mn"; "mo"; "mp"; "mq"; "mr"; "ms"; "mt"; "mu"; "mv"; "mw"; "mx";
    "my"; "mz"; "na"; "nc"; "ne"; "nf"; "ng"; "ni"; "nl"; "no"; "np"; "nr"; "nu";
    "nz"; "om"; "pa"; "pe"; "pf"; "pg"; "ph"; "pk"; "pl"; "pm"; "pn"; "pr"; "ps";
    "pt"; "pw"; "py"; "qa"; "re"; "ro"; "rs"; "ru"; "rw"; "sa"; "sb"; "sc"; "sd";
    "se"; "sg"; "sh"; "si"; "sj"; "sk"; "sl"; "sm"; "sn"; "so"; "sr"; "ss"; "st";
    "sv"; "sx"; "sy"; "sz"; "tc"; "td"; "tf"; "tg"; "th"; "tj"; "tk"; "tl"; "tm";
    "tn"; "to"; "tr"; "tt"; "tv"; "tw"; "tz"; "ua"; "ug"; "uk"; "us"; "uy"; "uz";
    "va"; "vc"; "ve"; "vg"; "vi"; "vn"; "vu"; "wf"; "ws"; "ye"; "yt"; "za"; "zm";
    "zw"; "gov"; "edu"; "mil"; "int"; "parliament"; "congress"; "senate"; "army";
    "navy"; "airforce"; "police"; "fbi"; "cia"; "nsa"; "court"; "justice";
    "diplomacy"; "embassy"; "consulate"; "minister"; "ministry"; "department";
    "federal"; "state"; "municipal"; "city"; "county"
  ]%list.

Definition BANNED_EXTENSIONS : list bytes := map str [
    "example"; "test"; "invalid"; "localhost"; "onion"; "arpa"; "root"; "corp";
    "home"; "mail"; "nato"; "icann"; "iana"; "internic"; "whois"; "dns"; "ddns";
    "dyndns"; "noip"; "afraid"; "freedns"; "zoneedit"; "cloudns"; "easydns"
  ]%list.

Definition BANNED_ABHORRENT_TERMS : list bytes := map str [
    "rape"; "rapes"; "rapist"; "raping"; "raped"; "rap3"; "rap3d"; "r4pe"; "r4p3";
    "murder"; "murders"; "murderer"; "murdering"; "murd3r"; "murd3rs"; "pedophile";
    "pedophilia"; "pedo"; "pedofile"; "paedophile"; "paedophilia"; "childporn";
    "childabuse"; "childpornography"; "lolita"; "preteen"; "abuse"; "abuser";
    "abusing"; "abus3"; "abus3r"; "abus3d"; "gore"; "gory"; "g0re"; "g0ry";
    "torture"; "tortur3"; "t0rture"; "necrophilia"; "necrophile"; "necro";
    "necrophil"; "necrophiliac"; "suicide"; "suicidal"; "suicid3"; "suicid4l";
    "kill"; "killyourself"; "kys"; "hangyourself"; "selfharm"; "selfmutilation";
    "incest"; "inc3st"; "incestuous"; "bestiality"; "beastiality"; "zoophilia";
    "fisting"; "fistfucking"; "scat"; "scatology"; "watersports"; "pissplay";
    "snuff"; "snufffilm"; "snuffporn"; "snuffmovie"; "kidnapping"; "kidnap";
    "kidnapper"; "kidn4p"; "abduction"; "abduct"; "terrorist"; "terrorism";
    "terror"; "t3rror"; "t3rrorist"; "bombmaking"; "cannabis"; "cocaine"; "heroin";
    "methamphetamine"; "meth"; "lsd"; "ecstasy"; "mdma"; "fentanyl"; "opioid";
    "opium"; "crack"; "ketamine"; "amphetamines"; "marijuana"; "weed"; "hashish";
    "hash"; "thc"; "pornography"; "porn"; "pron"; "pr0n"; "p0rn"; "xxx";
    "adultvideo"; "hardcore"; "softcore"; "teensex"; "milf"; "bdsm"; "bondage";
    "sadomasochism"; "domination"; "submission"; "swinger"; "swinging"; "hooker";
    "hookers"; "prostitute"; "prostitution"; "escortservice"; "brothel"; "whore";
    "whorehouse"; "stripclub"; "stripper"; "lapdance"; "sexwork"; "sexworker";
    "sexslave"; "sextrafficking"; "humantrafficking"; "trafficking"
  ]%list.

Definition PROJECT_RESERVED_TERMS : list bytes := map str [
    "veilroot"; "veil"; "root"; "vns"; "veilrootdao"; "vnsdao"; "veilnet";
    "veilchain"; "veilname"; "veilrootname"; "veilrootnamesystem";
    "veilrootprotocol"; "veilrootdns"; "veilrootdomain"; "veilrootdomains"
  ]%list.

Definition BIG_TECH_LABELS : list bytes := map str [
    "apple"; "appleinc"; "google"; "alphabet"; "youtube"; "android"; "chrome";
    "microsoft"; "windows"; "azure"; "office"; "linkedin"; "github"; "skype";
    "amazon"; "aws"; "kindle"; "audible"; "twitch"; "imdb"; "meta"; "facebook";
    "instagram"; "whatsapp"; "messenger"; "threads"; "oculus"; "x"; "twitter";
    "tesla"; "spacex"; "starlink"; "palantir"; "openai"; "anthropic"; "deepmind";
    "nvidia"; "intel"; "amd"; "qualcomm"; "broadcom"; "cisco"; "oracle"; "sap";
    "salesforce"; "ibm"; "hp"; "dell"; "sony"; "panasonic"; "samsung"; "lg";
    "xiaomi"; "huawei"; "zte"; "lenovo"; "asus"; "acer"; "logitech"; "razer";
    "tiktok"; "bytedance"; "snapchat"; "pinterest"; "reddit"; "spotify"; "netflix";
    "hulu"; "disney"; "warner"; "paramount"; "hbo"; "peacock"; "tencent"; "alibaba";
    "baidu"; "naver"; "kakao"; "yandex"; "mailru"; "vk"; "cloudflare"
  ]%list.

Definition FINANCE_LABELS : list bytes := map str [
    "goldmansachs"; "jpmorgan"; "jpmorganchase"; "morganstanley"; "bankofamerica";
    "bofa"; "citigroup"; "citi"; "wellsfargo"; "barclays"; "hsbc"; "ubs";
    "creditsuisse"; "deutschebank"; "bnpparibas"; "societegenerale"; "commerzbank";
    "unicredit"; "intesa"; "santander"; "bbva"; "ing"; "abnamro"; "nordea"; "dnb";
    "swedbank"; "seb"; "standardchartered"; "westpac"; "nab"; "anz"; "cba"; "dbs";
    "ocbc"; "uob"; "mizuho"; "mitsubishiufj"; "smbc"; "nomura"; "daiwa"; "icbc";
    "chinaconstructionbank"; "agriculturalbankofchina"; "bankofchina";
    "bankofcommunications"; "pingan"; "sberbank"; "vtb"; "gazprombank"; "alfabank";
    "itau"; "bradesco"; "bancodobrasil"; "santanderbrasil"; "blackrock"; "vanguard";
    "fidelity"; "statestreet"; "pimco"; "capitalgroup"; "troweprice"; "franklin";
    "templeton"; "invesco"; "janie"; "wellington"; "putnam"; "berkshirehathaway";
    "citadel"; "point72"; "millennium"; "bragg"; "renaissance"; "twosigma";
    "deshaw"; "jump"; "virtu"; "susquehanna"; "aig"; "prudential"; "metlife";
    "allstate"; "statefarm"; "progressive"; "geico"; "libertymutual"; "guardian";
    "principal"; "hartford"; "travelers"; "nationwide"; "usaa"; "axa"; "allianz";
    "generali"; "zurich"; "munichre"; "swissre"; "berkshire"; "hathaway"; "visa";
    "mastercard"; "americanexpress"; "paypal"; "venmo"; "stripe"; "square"; "block";
    "adyen"; "worldpay"; "fiserv"; "fis"; "globalpayments"; "binance"; "coinbase";
    "kraken"; "gemini"; "bitfinex"; "bitstamp"; "huobi"; "okx"; "bybit"; "kucoin";
    "gateio"; "cryptocom"; "robinhood"; "revolut"; "wise"; "n26"; "nubank"; "chime";
    "sofi"; "chainalysis"; "elliptic"; "ciphertrace"; "trm"; "compilatio";
    "refinitiv"; "worldcheck"; "dowjones"; "lexisnexis"; "relx"; "experian";
    "equifax"; "transunion"; "bis"; "worldbank"; "imf"; "wef"; "fsb"; "iosco";
    "basel"; "fatf"; "ecb"; "federalreserve"; "bankofengland"; "boj"; "pbc"; "boe";
    "swift"; "chips"
  ]%list.

Definition GOVERNMENT_KEYWORDS : list bytes := map str [
    "government"; "ministry"; "minister"; "department"; "federal"; "national";
    "state"; "provincial"; "municipal"; "city"; "county"; "township"; "borough";
    "parish"; "canton"; "agency"; "administration"; "authority"; "commission";
    "committee"; "council"; "board"; "assembly"; "parliament"; "congress"; "senate";
    "house"; "chamber"; "court"; "justice"; "police"; "sheriff"; "marshal";
    "constable"; "trooper"; "patrol"; "investigation"; "fbi"; "cia"; "nsa"; "dia";
    "nga"; "nro"; "dea"; "atf"; "ice"; "cbp"; "tss"; "secretservice";
    "intelligence"; "counterterrorism"; "homeland"; "security"; "defense";
    "armedforces"; "army"; "navy"; "airforce"; "marines"; "coastguard"; "militia";
    "guard"; "reserve"; "veteran"; "affairs"; "gchq"; "fiveeyes"; "fisa";
    "gobierno"; "estado"; "nacional"; "provincial"; "municipal"; "ciudad";
    "condado"; "departamento"; "ministerio"; "oficina"; "agencia"; "administracion";
    "comision"; "comite"; "consejo"; "asamblea"; "parlamento"; "congreso"; "senado";
    "camara"; "corte"; "justicia"; "policia"; "fiscal"; "juez"; "investigacion";
    "inteligencia"; "seguridad"; "defensa"; "fuerzasarmadas"; "ejercito"; "armada";
    "fuerzaaerea"; "marina"; "guardiacivil"; "gouvernement"; "etat"; "national";
    "provincial"; "municipal"; "ville"; "departement"; "ministere"; "bureau";
    "agence"; "administration"; "commission"; "comite"; "conseil"; "assemblee";
    "parlement"; "congres"; "senat"; "chambre"; "cour"; "justice"; "police";
    "enquete"; "renseignement"; "securite"; "defense"; "armees"; "armee"; "marine";
    "garde"; "regierung"; "staat"; "bundes"; "landes"; "kreis"; "stadt"; "gemeinde";
    "ministerium"; "amt"; "behoerde"; "verwaltung"; "kommission"; "ausschuss";
    "rat"; "parlament"; "bundestag"; "senat"; "gericht"; "justiz"; "polizei";
    "ermittlung"; "geheimdienst"; "nachrichtendienst"; "sicherheit"; "verteidigung";
    "streitkraefte"; "armee"; "marine"; "luftwaffe"; "правительство"; "государство";
    "федеральный"; "региональный"; "муниципальный"; "город"; "район"; "департамент";
    "министерство"; "ведомство"; "служба"; "комиссия"; "комитет"; "совет";
    "парламент"; "сенат"; "суд"; "юстиция"; "полиция"; "расследование"; "разведка";
    "безопасность"; "оборона"; "вооруженныесилы"; "армия"; "флот"; "政府"; "国务院";
    "国家"; "部"; "部门"; "省"; "市"; "县"; "区"; "警察"; "军队"; "国防"; "安全"; "情报"; "法院"; "检察院";
    "حكومة"; "وزارة"; "وزير"; "دولة"; "شرطة"; "جيش"; "أمن"; "مخابرات"; "قضاء";
    "محكمة"; "برلمان"; "مجلس"
  ]%list.

Definition INTERNATIONAL_BODIES : list bytes := map str [
    "un"; "unitednations"; "undp"; "unicef"; "unesco"; "who"; "ilo"; "imf";
    "worldbank"; "wto"; "oecd"; "nato"; "eu"; "europeanunion"; "ecb";
    "africanunion"; "asean"; "mercosur"; "g7"; "g20"; "brics"; "interpol"; "icrc";
    "redcross"; "redcrescent"; "wef"; "bis"; "fatf"; "iosco"; "icann"; "iana";
    "iso"; "itu"; "upu"; "wipo"; "wmo"; "iaea"; "opcw"; "icc"; "icj"; "pca";
    "unhcr"; "unrwa"; "wfp"; "fao"; "ifad"; "unido"; "unctad"; "unep"; "unfccc";
    "unhabitat"; "unwomen"; "unfpa"; "iom"; "ieee"; "w3c"; "freedomhouse";
    "article19"; "eff"; "opensociety"; "mozilla"; "wikimedia"; "isoc";
    "privacyinternational"; "aclu"
  ]%list.

Definition DEFENCE_CONTRACTORS : list bytes := map str [
    "lockheedmartin"; "raytheon"; "northropgrumman"; "generaldynamics"; "boeing";
    "baesystems"; "thales"; "leonardo"; "saab"; "airbus"; "elbit"; "cobham";
    "meggitt"; "ultra"; "l3harris"; "harris"; "leidos"; "caci"; "mitre"; "sra";
    "boozallen"; "anduril"; "palantir"; "epirus"; "shieldai"; "hawk"; "dedrone";
    "clearviewai"; "hikvision"; "dahua"; "axon"; "cellebrite"; "nsogroup";
    "finfisher"; "gammagroup"; "blackcube"; "intellxa"; "k2integrity"
  ]%list.

Definition TELECOM_MEDIA_LABELS : list bytes := map str [
    "at&t"; "att"; "verizon"; "tmobile"; "sprint"; "comcast"; "charter"; "cox";
    "dish"; "vodafone"; "orange"; "telefonica"; "deutschetelekom"; "bt"; "sky";
    "ntt"; "kddi"; "softbank"; "singtel"; "telstra"; "rogers"; "bell"; "telenor";
    "telia"; "swisscom"; "nokia"; "ericsson"; "huawei"; "zte"; "disney"; "warner";
    "nbc"; "cbs"; "abc"; "bbc"; "cnn"; "fox"; "bloomberg"; "reuters"; "ap"; "afp";
    "nytimes"; "wsj"; "news"; "sinclair"; "viacom"; "discovery"; "amc";
    "aenetworks"; "lionsgate"; "mgm"
  ]%list.
