(* ===== verification/DomainName.v ===== *)
(** * Domain names, tiers and fees ([src/common/domain_utils.h])

    The double-dot name grammar, the canonical form every lookup goes
    through, and the tables that price an extension.  The grammar is stated
    once, as [canonical_domain], and the executable normaliser is proved to
    compute exactly it. *)

From S2P Require Import Prelude DomainTables.

#[local] Open Scope Z_scope.

(** ** Character classes ([<cctype>], "C" locale) *)

Definition isdigit (c : Z) : bool := (48 <=? c) && (c <=? 57).
Definition isupper (c : Z) : bool := (65 <=? c) && (c <=? 90).
Definition islower (c : Z) : bool := (97 <=? c) && (c <=? 122).
Definition isalpha (c : Z) : bool := isupper c || islower c.
Definition isalnum (c : Z) : bool := isalpha c || isdigit c.
Definition isspace (c : Z) : bool := (c =? 32) || ((9 <=? c) && (c <=? 13)).
Definition tolower (c : Z) : Z := if isupper c then c + 32 else c.

Definition DOT : Z := 46.
Definition HYPHEN : Z := 45.

(** [domain.find("..")] *)
Fixpoint find_dotdot (s : bytes) : option nat :=
  match s with
  | [] => None
  | c :: t =>
      if (c =? DOT) && match t with d :: _ => d =? DOT | [] => false end
      then Some 0%nat else S <$> find_dotdot t
  end.

Definition valid_label_char (c : Z) : bool := isalnum c || (c =? HYPHEN).
Definition valid_ext_char (c : Z) : bool := islower c || isdigit c.

(** [domain_utils::validate_domain_name_format] *)
Definition validate_domain_name_format (domain : bytes) : bool :=
  match find_dotdot domain with
  | None => false
  | Some dotdot =>
      if (dotdot =? 0)%nat || (length domain <=? dotdot + 2)%nat then false else
      let label := take dotdot domain in
      let ext := drop (dotdot + 2) domain in
      if is_empty label || is_empty ext || (32 <? length label)%nat
         || (15 <? length ext)%nat || (49 <? length domain)%nat then false else
      if negb (forallb valid_label_char label) || negb (forallb valid_ext_char ext)
      then false
      else existsb isalpha label || existsb isalpha ext
  end.

(** [Blockchain::validate_domain_name_format]: the daemon's copy, without the
    "has a letter" rule. *)
Definition Blockchain_validate_domain_name_format (domain_name : bytes) : bool :=
  match find_dotdot domain_name with
  | None => false
  | Some dotdot =>
      if (dotdot =? 0)%nat || (length domain_name <=? dotdot + 2)%nat then false else
      let label := take dotdot domain_name in
      let ext := drop (dotdot + 2) domain_name in
      if is_empty label || is_empty ext || (32 <? length label)%nat
         || (15 <? length ext)%nat || (49 <? length domain_name)%nat then false else
      forallb valid_label_char label && forallb valid_ext_char ext
  end.

(** [domain_utils::parse_vns_domain]: the label and the extension. *)
Definition parse_vns_domain (domain : bytes) : option (bytes * bytes) :=
  match find_dotdot domain with
  | None => None
  | Some dotdot =>
      let label := take dotdot domain in
      let extension := drop (dotdot + 2) domain in
      if negb (is_empty label) && negb (is_empty extension)
      then Some (label, extension) else None
  end.

Definition is_valid_vns_extension (extension : bytes) : bool :=
  if is_empty extension || (15 <? length extension)%nat then false
  else forallb valid_ext_char extension.

Definition normalize_vns_extension (extension : bytes) : bytes :=
  let out := map tolower extension in
  if is_valid_vns_extension out then out else [].

Definition is_valid_vns_label (label : bytes) : bool :=
  if is_empty label || (32 <? length label)%nat then false
  else forallb valid_label_char label.

Definition normalize_vns_label (label : bytes) : bytes :=
  let out := map tolower label in
  if is_valid_vns_label out then out else [].

Fixpoint skip_spaces (s : bytes) : bytes :=
  match s with
  | [] => []
  | c :: t => if isspace c then skip_spaces t else s
  end.

(** The range [first, last) of [normalize_vns_domain]; empty when the string
    is all white space, where the code returns "". *)
Definition trim (s : bytes) : bytes := reverse (skip_spaces (reverse (skip_spaces s))).

(** [domain_utils::normalize_vns_domain]; the empty string is the failure value. *)
Definition normalize_vns_domain (domain : bytes) : bytes :=
  let trimmed := trim domain in
  if is_empty trimmed then [] else
  let lowered := map tolower trimmed in
  if validate_domain_name_format lowered then lowered else [].

(** ** Tiers and fees *)

Definition TIER_GENERIC : Z := 0.
Definition TIER_AFFORDABLE : Z := 1.
Definition TIER_POPULAR : Z := 2.
Definition TIER_PROFESSIONAL : Z := 3.
Definition TIER_ENTERPRISE : Z := 4.
Definition TIER_SOVEREIGN : Z := 5.
Definition TIER_PREMIUM : Z := 6.
Definition TIER_BANNED : Z := 255.

Definition TIER_FEES : list Z :=
  [100000000000; 1000000000000; 10000000000000; 100000000000000;
   1000000000000000; 10000000000000000].

Definition PREMIUM_TIER_FEE : Z := 100000000000000000.

(** One of the loops of [get_extension_tier_map]: later loops overwrite. *)
Definition assign_tier (tier : Z) (m : gmap bytes Z) (exts : list bytes) : gmap bytes Z :=
  fold_left (fun m ext => <[ext := tier]> m) exts m.

Definition get_extension_tier_map : gmap bytes Z :=
  let m := assign_tier TIER_GENERIC ∅ GENERIC_EXTENSIONS in
  let m := assign_tier TIER_AFFORDABLE m AFFORDABLE_EXTENSIONS in
  let m := assign_tier TIER_POPULAR m POPULAR_EXTENSIONS in
  let m := assign_tier TIER_PROFESSIONAL m PREMIUM_EXTENSIONS in
  let m := assign_tier TIER_ENTERPRISE m ENTERPRISE_EXTENSIONS in
  let m := assign_tier TIER_SOVEREIGN m SOVEREIGN_EXTENSIONS in
  assign_tier TIER_BANNED m BANNED_EXTENSIONS.

Definition get_tier_for_extension (extension : bytes) : Z :=
  default TIER_PREMIUM (get_extension_tier_map !! extension).

Definition is_extension_locked (extension : bytes) : bool :=
  match get_extension_tier_map !! extension with
  | Some tier => tier =? TIER_BANNED
  | None => false
  end.

(** [set.count(x) > 0] *)
Definition set_has (x : bytes) (s : gset bytes) : bool := bool_decide (x ∈ s).

Definition get_banned_labels : gset bytes :=
  list_to_set BANNED_ABHORRENT_TERMS ∪ list_to_set PROJECT_RESERVED_TERMS.

Definition is_label_banned (label : bytes) : bool := set_has label get_banned_labels.

Definition get_premium_labels : gset bytes :=
  list_to_set BIG_TECH_LABELS ∪ list_to_set FINANCE_LABELS ∪
  list_to_set GOVERNMENT_KEYWORDS ∪ list_to_set INTERNATIONAL_BODIES ∪
  list_to_set DEFENCE_CONTRACTORS ∪ list_to_set TELECOM_MEDIA_LABELS.

Definition get_label_tier (label : bytes) : Z :=
  if set_has label get_premium_labels then TIER_SOVEREIGN else 0.

Definition is_premium_label (label : bytes) : bool := get_label_tier label =? TIER_SOVEREIGN.

Definition get_required_fee (tier : Z) : Z :=
  if tier =? TIER_PREMIUM then PREMIUM_TIER_FEE
  else if tier <? 6 then default 0 (TIER_FEES !! Z.to_nat tier) else 0.

Definition get_required_fee_for_extension (extension : bytes) : Z :=
  get_required_fee (get_tier_for_extension extension).

(** [is_valid_extension], the legacy helper. *)
Definition is_valid_extension (extension : bytes) : bool :=
  if is_extension_locked extension then false else
  if is_empty extension || (15 <? length extension)%nat then false else
  if negb (forallb (fun c => isalnum c || (c =? HYPHEN)) extension) then false
  else existsb isalpha extension.

(** ** The grammar of canonical names *)

Definition label_char (c : Z) : bool := islower c || isdigit c || (c =? HYPHEN).

(** [canonical_domain label ext d]: [d] is [label..ext] in lower case, within
    the length limits and with at least one letter. *)
Inductive canonical_domain : bytes -> bytes -> bytes -> Prop :=
| Canonical label ext :
    (1 <= length label <= 32)%nat -> (1 <= length ext <= 15)%nat ->
    Forall (fun c => label_char c = true) label ->
    Forall (fun c => valid_ext_char c = true) ext ->
    Exists (fun c => isalpha c = true) (label ++ ext) ->
    canonical_domain label ext (label ++ DOT :: DOT :: ext).

(** *** Characters *)

Ltac char_solve :=
  unfold label_char, valid_label_char, valid_ext_char, isalnum, tolower, isalpha,
    isupper, islower, isdigit, isspace, DOT, HYPHEN in *;
  repeat split_if; lia.

Lemma label_char_valid c : label_char c = true -> valid_label_char c = true.
Proof. intros. char_solve. Qed.

Lemma valid_label_char_lower c : valid_label_char (tolower c) = true -> label_char (tolower c) = true.
Proof. unfold tolower. intros. char_solve. Qed.

Lemma label_char_tolower c : label_char c = true -> tolower c = c.
Proof. intros. char_solve. Qed.

Lemma label_char_not_dot c : label_char c = true -> c <> DOT.
Proof. intros. char_solve. Qed.

Lemma ext_char_tolower c : valid_ext_char c = true -> tolower c = c.
Proof. intros. char_solve. Qed.

Lemma label_char_not_space c : label_char c = true -> isspace c = false.
Proof. intros. char_solve. Qed.

Lemma ext_char_label_char c : valid_ext_char c = true -> label_char c = true.
Proof. intros. char_solve. Qed.

Lemma tolower_tolower c : tolower (tolower c) = tolower c.
Proof. char_solve. Qed.

Lemma tolower_not_space c : isspace (tolower c) = isspace c.
Proof. char_solve. Qed.

#[export] Hint Resolve label_char_valid valid_label_char_lower label_char_tolower
  label_char_not_dot ext_char_tolower label_char_not_space ext_char_label_char : vns.

(** *** The double dot *)

Lemma find_dotdot_app label ext :
  Forall (fun c => c <> DOT) label ->
  find_dotdot (label ++ DOT :: DOT :: ext) = Some (length label).
Proof.
  induction 1 as [|c l Hc _ IH]; [done|].
  cbn [app find_dotdot]. rewrite IH. by apply Z.eqb_neq in Hc as ->.
Qed.

Lemma find_dotdot_split d n :
  find_dotdot d = Some n -> d = take n d ++ DOT :: DOT :: drop (n + 2) d.
Proof.
  revert n. induction d as [|c d IH]; intros n; cbn [find_dotdot]; [done|].
  split_if.
  - intros [= <-]. to_prop. destruct d as [|c' d]; [done|]. to_prop. by subst.
  - destruct (find_dotdot d) as [m|]; cbn; [|done]. intros [= <-].
    cbn. f_equal. by apply IH.
Qed.

Lemma find_dotdot_length d n : find_dotdot d = Some n -> (n + 2 <= length d)%nat.
Proof.
  intros H. pose proof (f_equal length (find_dotdot_split d n H)) as L.
  rewrite length_app in L. cbn in L. rewrite length_take, length_drop in L. lia.
Qed.

(** *** The validator decides the grammar (before lower-casing) *)

Definition wf_parts (label ext : bytes) : Prop :=
  (1 <= length label <= 32)%nat /\ (1 <= length ext <= 15)%nat /\
  Forall (fun c => valid_label_char c = true) label /\
  Forall (fun c => valid_ext_char c = true) ext.

Lemma Blockchain_validate_inv d :
  Blockchain_validate_domain_name_format d = true ->
  exists label ext, d = label ++ DOT :: DOT :: ext /\ find_dotdot d = Some (length label) /\
    wf_parts label ext.
Proof.
  unfold Blockchain_validate_domain_name_format.
  destruct (find_dotdot d) as [n|] eqn:F; [|done].
  split_if; [done|]. split_if; [done|]. intros V. to_prop.
  pose proof (find_dotdot_length _ _ F).
  exists (take n d), (drop (n + 2) d). rewrite !forallb_Forall in *.
  split; [by apply find_dotdot_split|].
  unfold wf_parts. rewrite !length_take, !length_drop in *.
  split; [f_equal; lia|]. repeat split; auto; lia.
Qed.

Lemma Blockchain_validate_intro label ext :
  Forall (fun c => c <> DOT) label -> wf_parts label ext ->
  Blockchain_validate_domain_name_format (label ++ DOT :: DOT :: ext) = true.
Proof.
  intros Hd (Hl & He & Fl & Fe). unfold Blockchain_validate_domain_name_format.
  rewrite find_dotdot_app by done.
  assert (drop (length label + 2) (label ++ DOT :: DOT :: ext) = ext) as Hdrop.
  { rewrite <- drop_drop, drop_app_length. done. }
  rewrite Hdrop, take_app_length, !length_app. cbn [length].
  apply forallb_Forall in Fl as ->, Fe as ->.
  assert (is_empty label = false /\ is_empty ext = false) as [-> ->].
  { by destruct label, ext; cbn in *; try lia. }
  by repeat (split_if; [exfalso; lia|]).
Qed.

(** The library's validator is the daemon's plus the letter rule. *)
Lemma validate_split d :
  validate_domain_name_format d = true <->
  Blockchain_validate_domain_name_format d = true /\
  exists n, find_dotdot d = Some n /\
    existsb isalpha (take n d) || existsb isalpha (drop (n + 2) d) = true.
Proof.
  unfold validate_domain_name_format, Blockchain_validate_domain_name_format.
  destruct (find_dotdot d) as [n|]; [|by split; [|intros []]].
  do 2 (split_if; [by split; [|intros []]|]).
  destruct (forallb valid_label_char _), (forallb valid_ext_char _); cbn;
    [|by split; [|intros []]..].
  split; [eauto|]. by intros [_ (? & [= ->] & ?)].
Qed.

(** *** Trimming *)

Lemma skip_spaces_id s : Forall (fun c => isspace c = false) s -> skip_spaces s = s.
Proof. destruct 1 as [|c s Hc _]; cbn; [done | by rewrite Hc]. Qed.

Lemma skip_spaces_app ws s :
  Forall (fun c => isspace c = true) ws -> Forall (fun c => isspace c = false) s ->
  skip_spaces (ws ++ s) = s.
Proof. induction 1 as [|c ws Hc _ IH]; intros; cbn; [by apply skip_spaces_id | rewrite Hc; auto]. Qed.

Lemma skip_spaces_app_r s ws :
  s <> [] -> Forall (fun c => isspace c = false) s -> skip_spaces (s ++ ws) = s ++ ws.
Proof. intros Hs F. destruct F as [|c s Hc _]; [done|]. cbn. by rewrite Hc. Qed.

(** White space around a space-free string is removed, and nothing else. *)
Lemma trim_surround ws1 ws2 s :
  s <> [] -> Forall (fun c => isspace c = true) ws1 -> Forall (fun c => isspace c = true) ws2 ->
  Forall (fun c => isspace c = false) s -> trim (ws1 ++ s ++ ws2) = s.
Proof.
  intros Hs H1 H2 F. unfold trim.
  assert (skip_spaces (ws1 ++ s ++ ws2) = s ++ ws2) as ->.
  { clear H2. induction H1 as [|c ws Hc _ IH]; cbn; [by apply skip_spaces_app_r | by rewrite Hc]. }
  rewrite reverse_app, skip_spaces_app by (by apply Forall_reverse).
  apply reverse_involutive.
Qed.

Lemma trim_id s : Forall (fun c => isspace c = false) s -> trim s = s.
Proof.
  intros F. unfold trim. rewrite (skip_spaces_id s F), skip_spaces_id by (by apply Forall_reverse).
  apply reverse_involutive.
Qed.

(** *** Canonical names *)

Lemma canonical_chars label ext d :
  canonical_domain label ext d -> Forall (fun c => label_char c = true \/ c = DOT) d.
Proof.
  destruct 1 as [label ext _ _ Fl Fe _]. apply Forall_app. split.
  - eapply Forall_impl; [exact Fl|]. auto.
  - do 2 (constructor; [by right|]). eapply Forall_impl; [exact Fe|]. auto with vns.
Qed.

Lemma canonical_not_space label ext d :
  canonical_domain label ext d -> Forall (fun c => isspace c = false) d.
Proof.
  intros H%canonical_chars. eapply Forall_impl; [exact H|]. cbn.
  intros c [?| ->]; auto with vns.
Qed.

Lemma canonical_tolower label ext d : canonical_domain label ext d -> map tolower d = d.
Proof.
  intros H%canonical_chars. induction H as [|c d [Hc| ->] _ IH]; cbn; rewrite ?IH; [done| |done].
  by rewrite label_char_tolower.
Qed.

Lemma canonical_nonempty label ext d : canonical_domain label ext d -> d <> [].
Proof. destruct 1. by destruct label. Qed.

Lemma canonical_find label ext d :
  canonical_domain label ext d -> find_dotdot d = Some (length label).
Proof.
  destruct 1 as [label ext _ _ Fl _ _]. apply find_dotdot_app.
  eapply Forall_impl; [exact Fl|]. cbn. auto with vns.
Qed.

Lemma canonical_wf_parts label ext d : canonical_domain label ext d -> wf_parts label ext.
Proof.
  destruct 1 as [label ext Hl He Fl Fe _]. split_and!; try lia; [|done].
  eapply Forall_impl; [exact Fl|]. cbn. auto with vns.
Qed.

Lemma canonical_split label ext d :
  canonical_domain label ext d -> d = label ++ DOT :: DOT :: ext.
Proof. by destruct 1. Qed.

Lemma canonical_drop label ext d :
  canonical_domain label ext d -> drop (length label + 2) d = ext.
Proof. intros ->%canonical_split. by rewrite <- drop_drop, drop_app_length. Qed.

Lemma canonical_Blockchain_validate label ext d :
  canonical_domain label ext d -> Blockchain_validate_domain_name_format d = true.
Proof.
  intros C. rewrite (canonical_split _ _ _ C). apply Blockchain_validate_intro.
  - destruct C as [label ext _ _ Fl _ _]. eapply Forall_impl; [exact Fl|]. cbn. auto with vns.
  - by eapply canonical_wf_parts.
Qed.

Lemma canonical_validate label ext d :
  canonical_domain label ext d -> validate_domain_name_format d = true.
Proof.
  intros C. apply validate_split. split; [by eapply canonical_Blockchain_validate|].
  exists (length label). split; [by eapply canonical_find|].
  rewrite (canonical_drop _ _ _ C), (canonical_split _ _ _ C), take_app_length.
  destruct C as [label ext _ _ _ _ X]. rewrite <- existsb_app. by apply existsb_Exists.
Qed.

(** A lower-cased string the validator accepts is canonical. *)
Lemma validate_lower_canonical s :
  validate_domain_name_format (map tolower s) = true ->
  exists label ext, canonical_domain label ext (map tolower s).
Proof.
  intros [V (n & F & X)]%validate_split.
  apply Blockchain_validate_inv in V as (label & ext & E & F' & Hl & He & Fl & Fe).
  rewrite F in F'. injection F' as ->. exists label, ext.
  rewrite E in X. rewrite <- drop_drop, take_app_length, drop_app_length in X. cbn [drop] in X.
  rewrite <- existsb_app in X. rewrite E. constructor; auto; [|by apply existsb_Exists].
  apply Forall_forall. intros c Hc. rewrite Forall_forall in Fl.
  assert (c ∈ map tolower s) as (c' & -> & _)%list_elem_of_fmap.
  { rewrite E. apply elem_of_app. by left. }
  apply valid_label_char_lower. auto.
Qed.

(** ** The normaliser computes the grammar *)

Lemma normalize_canonical label ext d :
  canonical_domain label ext d -> normalize_vns_domain d = d.
Proof.
  intros C. unfold normalize_vns_domain.
  rewrite trim_id by (by eapply canonical_not_space).
  rewrite (proj2 (is_empty_false d)) by (by eapply canonical_nonempty).
  rewrite (canonical_tolower _ _ _ C). by rewrite (canonical_validate _ _ _ C).
Qed.

Lemma normalize_inv d n :
  normalize_vns_domain d = n -> n <> [] ->
  n = map tolower (trim d) /\ exists label ext, canonical_domain label ext n.
Proof.
  unfold normalize_vns_domain. split_if; [by intros <-|]. split_if; intros <- Hn; [|done].
  split; [done|]. by apply validate_lower_canonical.
Qed.

(** Canonical names, labels and extensions are C strings that fit the buffers
    of the policy records. *)
Lemma canonical_no_nul label ext d :
  canonical_domain label ext d -> no_nul d /\ (length d < 64)%nat.
Proof.
  intros C. split.
  - apply canonical_chars in C. eapply Forall_impl; [exact C|]. cbn. intros c [Hc| ->]; [|done].
    intros ->. done.
  - rewrite (canonical_split _ _ _ C), length_app. cbn.
    destruct (canonical_wf_parts _ _ _ C) as (? & ? & _). lia.
Qed.


Lemma normalize_no_nul d :
  no_nul (normalize_vns_domain d) /\ (length (normalize_vns_domain d) < 64)%nat.
Proof.
  destruct (decide (normalize_vns_domain d = [])) as [E|N]; [rewrite E; split; [constructor|cbn; lia]|].
  destruct (normalize_inv d _ eq_refl N) as [_ (label & ext & C)]. by eapply canonical_no_nul.
Qed.

Lemma forallb_no_nul (f : Z -> bool) s : f 0 = false -> forallb f s = true -> no_nul s.
Proof.
  intros H0 Hs. apply Forall_forall. intros c Hc ->. rewrite forallb_forall in Hs.
  rewrite Hs in H0; [done|]. by apply list_elem_of_In.
Qed.

Lemma normalize_extension_no_nul e :
  no_nul (normalize_vns_extension e) /\ (length (normalize_vns_extension e) < 16)%nat.
Proof.
  unfold normalize_vns_extension, is_valid_vns_extension. cbv zeta.
  destruct (is_empty _ || _) eqn:E; [split; [constructor|cbn; lia]|].
  destruct (forallb _ _) eqn:F; [|split; [constructor|cbn; lia]].
  split; [by apply (forallb_no_nul valid_ext_char)|]. apply orb_false_iff in E as [_ L]. to_prop. lia.
Qed.

Lemma normalize_label_no_nul l :
  no_nul (normalize_vns_label l) /\ (length (normalize_vns_label l) < 64)%nat.
Proof.
  unfold normalize_vns_label, is_valid_vns_label. cbv zeta.
  destruct (is_empty _ || _) eqn:E; [split; [constructor|cbn; lia]|].
  destruct (forallb _ _) eqn:F; [|split; [constructor|cbn; lia]].
  split; [by apply (forallb_no_nul valid_label_char)|]. apply orb_false_iff in E as [_ L]. to_prop. lia.
Qed.

Lemma canonical_parse label ext d :
  canonical_domain label ext d -> parse_vns_domain d = Some (label, ext).
Proof.
  intros C. unfold parse_vns_domain.
  rewrite (canonical_find _ _ _ C), (canonical_drop _ _ _ C).
  rewrite (canonical_split _ _ _ C), take_app_length.
  destruct (canonical_wf_parts _ _ _ C) as ([Hl _] & [He _] & _).
  by destruct label, ext; cbn in *; try lia.
Qed.

(** The label and the extension of a canonical name are canonical. *)
Lemma canonical_parts label ext d :
  canonical_domain label ext d ->
  normalize_vns_label label = label /\ normalize_vns_extension ext = ext.
Proof.
  intros C. pose proof (canonical_tolower _ _ _ C) as L.
  destruct (canonical_wf_parts _ _ _ C) as (Hl & He & Fl & Fe).
  rewrite (canonical_split _ _ _ C), map_app in L.
  apply app_inj_1 in L as [Ll Le]; [|by rewrite length_map].
  cbn in Le. injection Le as Le.
  unfold normalize_vns_label, normalize_vns_extension, is_valid_vns_label, is_valid_vns_extension.
  rewrite Ll, Le. apply forallb_Forall in Fl as ->, Fe as ->.
  assert (is_empty label = false /\ is_empty ext = false) as [-> ->].
  { by destruct label, ext; cbn in *; try lia. }
  cbn [orb]. by rewrite !(proj2 (Nat.ltb_ge _ _)) by lia.
Qed.

Section domain_name_theorems.

(** C39: [normalize_vns_domain] succeeds exactly on the strings whose trimmed,
    lower-cased form is a canonical [label..ext] name, and then returns that
    form: it is sound and complete for the grammar. *)
Theorem normalize_vns_domain_spec (d n : bytes) (Hn : n <> []) :
  normalize_vns_domain d = n <->
  n = map tolower (trim d) /\ exists label ext, canonical_domain label ext n.
Proof.
  split; [intros; by apply normalize_inv|].
  intros [E (label & ext & C)]. unfold normalize_vns_domain.
  rewrite <- E. rewrite (canonical_validate _ _ _ C).
  split_if; [|done]. apply is_empty_true in E0. by rewrite E0 in E.
Qed.

Lemma normalize_vns_domain_spec_witness :
  str "myblog..free" <> [] /\ normalize_vns_domain (str " MyBlog..Free ") = str "myblog..free" /\
  exists label ext, canonical_domain label ext (str "myblog..free").
Proof.
  split; [done|]. split; [reflexivity|].
  apply (normalize_vns_domain_spec (str " MyBlog..Free ")); [done|reflexivity].
Defined.

(** Normalisation is idempotent on every input, failure included. *)
Theorem normalize_vns_domain_idempotent (d : bytes) :
  normalize_vns_domain (normalize_vns_domain d) = normalize_vns_domain d.
Proof.
  destruct (decide (normalize_vns_domain d = [])) as [->|Hn]; [reflexivity|].
  destruct (normalize_inv d _ eq_refl Hn) as [_ (label & ext & C)].
  by eapply normalize_canonical.
Qed.

(** Two spellings of a name that differ in letter case and in surrounding
    white space normalise to the same canonical name. *)
Theorem normalize_vns_domain_spelling (label ext d ws1 ws2 s : bytes)
  (C : canonical_domain label ext d) (Hs : map tolower s = d)
  (H1 : Forall (fun c => isspace c = true) ws1) (H2 : Forall (fun c => isspace c = true) ws2) :
  normalize_vns_domain (ws1 ++ s ++ ws2) = d.
Proof.
  unfold normalize_vns_domain. rewrite trim_surround; auto.
  - rewrite Hs, (canonical_validate _ _ _ C). split_if; [|done].
    apply is_empty_true in E. by subst s.
  - intros ->. by apply canonical_nonempty in C; subst d.
  - apply canonical_not_space in C. subst d. rewrite Forall_map in C.
    eapply Forall_impl; [exact C|]. intros c. cbn. by rewrite tolower_not_space.
Qed.

Lemma normalize_vns_domain_spelling_witness :
  normalize_vns_domain (str "  " ++ str "Shop..XYZ" ++ str " ") = str "shop..xyz".
Proof.
  apply (normalize_vns_domain_spelling (str "shop") (str "xyz")); [|done|..].
  - apply (Canonical (str "shop") (str "xyz")); cbn; try lia.
    all: repeat constructor.
  - repeat constructor.
  - repeat constructor.
Defined.

(** A normalised name splits into its label and extension, both already
    canonical, reassembles to itself, and passes the daemon's own format check,
    so the daemon's checks after normalisation never reject it. *)
Theorem normalize_then_parse (d : bytes) (Hn : normalize_vns_domain d <> []) :
  exists label ext,
    parse_vns_domain (normalize_vns_domain d) = Some (label, ext) /\
    normalize_vns_domain d = label ++ str ".." ++ ext /\
    normalize_vns_label label = label /\ normalize_vns_extension ext = ext /\
    Blockchain_validate_domain_name_format (normalize_vns_domain d) = true.
Proof.
  destruct (normalize_inv d _ eq_refl Hn) as [_ (label & ext & C)].
  exists label, ext. destruct (canonical_parts _ _ _ C).
  split_and!; [by apply canonical_parse|exact (canonical_split _ _ _ C)|done|done|].
  by eapply canonical_Blockchain_validate.
Qed.

Lemma normalize_then_parse_witness :
  exists label ext, parse_vns_domain (normalize_vns_domain (str "A-1..io")) = Some (label, ext).
Proof.
  destruct (normalize_then_parse (str "A-1..io")) as (l & e & H & _); [by vm_compute|eauto].
Defined.

End domain_name_theorems.

(** ** Prices *)

(** The table an extension belongs to, highest precedence first. *)
Definition tier_by_precedence (ext : bytes) : Z :=
  if bool_decide (ext ∈ BANNED_EXTENSIONS) then TIER_BANNED
  else if bool_decide (ext ∈ SOVEREIGN_EXTENSIONS) then TIER_SOVEREIGN
  else if bool_decide (ext ∈ ENTERPRISE_EXTENSIONS) then TIER_ENTERPRISE
  else if bool_decide (ext ∈ PREMIUM_EXTENSIONS) then TIER_PROFESSIONAL
  else if bool_decide (ext ∈ POPULAR_EXTENSIONS) then TIER_POPULAR
  else if bool_decide (ext ∈ AFFORDABLE_EXTENSIONS) then TIER_AFFORDABLE
  else if bool_decide (ext ∈ GENERIC_EXTENSIONS) then TIER_GENERIC
  else TIER_PREMIUM.

Lemma lookup_assign_tier t m l e :
  assign_tier t m l !! e = if bool_decide (e ∈ l) then Some t else m !! e.
Proof.
  unfold assign_tier. revert m. induction l as [|x l IH]; intros m; cbn; [done|].
  rewrite IH. destruct (decide (e ∈ l)) as [Hl|Hl].
  - rewrite !bool_decide_true by (try right; done). done.
  - rewrite (bool_decide_false _ Hl). destruct (decide (e = x)) as [->|Hx].
    + rewrite lookup_insert_eq, bool_decide_true by left. done.
    + rewrite lookup_insert_ne, bool_decide_false; [done| |congruence].
      rewrite elem_of_cons. tauto.
Qed.

(** The tier map built by successive overwriting loops is the precedence
    order banned, sovereign, enterprise, professional, popular, affordable,
    generic, with the premium tier for every extension in no table. *)
Theorem get_tier_for_extension_precedence (ext : bytes) :
  get_tier_for_extension ext = tier_by_precedence ext.
Proof.
  unfold get_tier_for_extension, tier_by_precedence, get_extension_tier_map.
  rewrite !lookup_assign_tier, lookup_empty. by repeat split_if.
Qed.

Lemma is_extension_locked_banned ext :
  is_extension_locked ext = bool_decide (ext ∈ BANNED_EXTENSIONS).
Proof.
  unfold is_extension_locked, get_extension_tier_map.
  rewrite !lookup_assign_tier, lookup_empty.
  destruct (bool_decide (ext ∈ BANNED_EXTENSIONS)); [done|]. by repeat split_if.
Qed.

Lemma tier_range ext :
  get_tier_for_extension ext = TIER_BANNED \/ 0 <= get_tier_for_extension ext <= 6.
Proof.
  unfold get_tier_for_extension, get_extension_tier_map.
  rewrite !lookup_assign_tier, lookup_empty.
  repeat split_if; cbn; (by left) || (right; unfold TIER_SOVEREIGN, TIER_ENTERPRISE,
    TIER_PROFESSIONAL, TIER_POPULAR, TIER_AFFORDABLE, TIER_GENERIC, TIER_PREMIUM; lia).
Qed.

(** The fee ladder is geometric: 0.1 VNS times ten per tier. *)
Lemma get_required_fee_ladder tier : 0 <= tier <= 6 -> get_required_fee tier = 10 ^ (11 + tier).
Proof.
  intros. assert (tier = 0 \/ tier = 1 \/ tier = 2 \/ tier = 3 \/ tier = 4 \/ tier = 5 \/ tier = 6)
    as Ht by lia. by destruct Ht as [->|[->|[->|[->|[->|[->| ->]]]]]].
Qed.

(** An extension is free of charge exactly when it is locked (banned); any
    other extension costs ten to the power 11 + tier atomic units. *)
Theorem required_fee_zero_iff_locked (ext : bytes) :
  (get_required_fee_for_extension ext = 0 <-> is_extension_locked ext = true) /\
  (is_extension_locked ext = false ->
   get_required_fee_for_extension ext = 10 ^ (11 + get_tier_for_extension ext)).
Proof.
  assert (is_extension_locked ext = (get_tier_for_extension ext =? TIER_BANNED)) as ->.
  { unfold is_extension_locked, get_tier_for_extension. by destruct (_ !! ext). }
  unfold get_required_fee_for_extension.
  destruct (tier_range ext) as [->|R]; [by split|].
  rewrite (get_required_fee_ladder _ R). pose proof (Z.pow_pos_nonneg 10 (11 + get_tier_for_extension ext)).
  unfold TIER_BANNED. split; [|done]. split; lia.
Qed.

Lemma required_fee_zero_iff_locked_witness :
  is_extension_locked (str "free") = false /\ get_required_fee_for_extension (str "free") = 10 ^ 11.
Proof.
  split; [by vm_compute|]. apply (required_fee_zero_iff_locked (str "free")). by vm_compute.
Defined.

(** The tables are large: keep unification from unfolding them. *)
#[global] Opaque get_extension_tier_map get_banned_labels get_premium_labels.
