(* ===== verification/DomainExtra.v ===== *)
(** * Domain operations in [tx_extra]

    The wallet's builders ([src/common/domain_utils.h]) and the daemon's
    readers (the scanning and TLV loops of
    [Blockchain::process_domain_registration]).  Positions are indices into
    the whole [extra] vector, as in the code.  The C++ reads bytes it does not
    own in two places; those bytes are the fields of [indeterminate]. *)

From S2P Require Import Prelude Crypto DomainTables DomainName.

(** ** Builders *)

(** The lambda [append_tlv]; [static_cast<uint8_t>(len)] truncates. *)
Definition append_tlv (payload : bytes) (type : Z) (data : bytes) : bytes :=
  payload ++ type :: u8 (zlen data) :: data.

(** The tail of the three builders: tag 0x02, the length as a one or two byte
    varint, the payload. *)
Definition wrap_nonce (payload : bytes) : bytes :=
  let size := zlen payload in
  if 255 <? size then [] else
  2 :: (if size <? 128 then [u8 size] else [u8 (Z.lor size 128); u8 (Z.shiftr size 7)])
    ++ payload.

Definition relay_tags : list Z := [6; 7; 8].

(** The relay loop of [build_registration_extra]; [None] is [return {}]. *)
Fixpoint append_relays (payload : bytes) (tags : list Z) (urls : list bytes) : option bytes :=
  match tags, urls with
  | tag :: tags, url :: urls =>
      if is_empty url then append_relays payload tags urls
      else if 255 <? zlen url then None
      else append_relays (append_tlv payload tag url) tags urls
  | _, _ => Some payload
  end.

Definition build_registration_extra (domain_name : bytes) (fee_tier : Z)
    (registrant_key genesis_fingerprint : bytes) (relay_urls : list bytes) : bytes :=
  let payload := str "DOMAIN_REG" in
  let payload := append_tlv payload 1 domain_name in
  let payload := append_tlv payload 2 [fee_tier] in
  let payload := append_tlv payload 3 registrant_key in
  let payload := append_tlv payload 4 genesis_fingerprint in
  match append_relays payload relay_tags relay_urls with
  | None => []
  | Some payload => wrap_nonce (payload ++ [0])
  end.

(** The relay block of [build_update_extra]; [None] is [return {}]. *)
Fixpoint relay_entries (relay_data : bytes) (urls : list bytes) : option bytes :=
  match urls with
  | [] => Some relay_data
  | url :: urls =>
      if is_empty url then relay_entries relay_data urls
      else if 255 <? zlen url then None
      else relay_entries (relay_data ++ u8 (zlen url) :: url) urls
  end.

Definition count_nonempty (urls : list bytes) : Z := zlen (filter (fun u => u <> []) urls).

Definition build_update_extra (domain_name : bytes) (new_owner_key : option bytes)
    (new_relay_set : option (list bytes)) (signature : bytes) : bytes :=
  let payload := append_tlv (str "DOMAIN_UPDATE") 1 domain_name in
  let payload := match new_owner_key with
                 | Some k => append_tlv payload 2 k
                 | None => payload
                 end in
  let with_relays :=
    match new_relay_set with
    | None => Some payload
    | Some set =>
        let count := count_nonempty set in
        if (0 <? count) && (count <=? 3)
        then match relay_entries [u8 count] set with
             | None => None
             | Some relay_data => Some (append_tlv payload 16 relay_data)
             end
        else Some payload
    end in
  match with_relays with
  | None => []
  | Some payload => wrap_nonce (append_tlv payload 4 signature ++ [0])
  end.

Definition build_transfer_extra (domain_name new_owner_key signature : bytes) : bytes :=
  let payload := append_tlv (str "DOMAIN_XFER") 1 domain_name in
  let payload := append_tlv payload 5 new_owner_key in
  let payload := append_tlv payload 4 signature in
  wrap_nonce (payload ++ [0]).

(** ** Results *)

Inductive domain_registration_result :=
| success
| already_registered
| invalid_format
| invalid_fee_tier
| invalid_key
| invalid_fingerprint
| internal_error
| domain_not_found
| domain_expired
| signature_invalid
| update_failed.

#[export] Instance domain_registration_result_eq_dec : EqDecision domain_registration_result.
Proof. solve_decision. Defined.

(** Memory whose content the program does not determine: what follows the
    [extra] vector, and the locals that are declared without an initialiser. *)
Record indeterminate := {
  beyond_extra : bytes;
  uninit_registrant_key : bytes;
  uninit_genesis_fingerprint : hash;
}.

(** [memcmp(&extra[start], magic, strlen(magic)) == 0] *)
Definition memcmp_at (ind : indeterminate) (extra : bytes) (start : nat) (magic : bytes) : bool :=
  beq (take (length magic) (drop start (extra ++ beyond_extra ind))) magic.

(** ** The outer scan *)

(** The two-byte varint loop: at most [fuel = 2] bytes; returns the length,
    the number of bytes read and the next position. *)
Fixpoint read_len (fuel : nat) (extra : bytes) (p : nat) (len : Z) (len_bytes : nat) : Z * nat * nat :=
  match fuel with
  | O => (len, len_bytes, p)
  | S fuel =>
      match extra !! p with
      | None => (len, len_bytes, p)
      | Some c =>
          let len := Z.lor len (Z.shiftl (Z.land c 127) (7 * Z.of_nat len_bytes)) in
          if Z.land c 128 =? 0 then (len, S len_bytes, S p)
          else read_len fuel extra (S p) len (S len_bytes)
      end
  end.

(** What the scan stops at: the first nonce that carries a domain operation,
    with its payload bounds. *)
Inductive domain_op :=
| OpReg (payload_start payload_end : nat)
| OpUpdate (payload_start payload_end : nat)
| OpXfer (payload_start payload_end : nat).

(** The [for] loop over [extra]; [Some None] when it reaches the end, [None]
    when the fuel runs out. *)
Fixpoint scan_extra (ind : indeterminate) (fuel : nat) (extra : bytes) (i : nat)
    : option (option domain_op) :=
  match fuel with
  | O => None
  | S fuel =>
      match extra !! i with
      | None => Some None
      | Some tag =>
          if tag =? 1 then scan_extra ind fuel extra (i + (1 + 32))
          else if tag =? 2 then
            if (length extra <=? i + 2)%nat then Some None else
            let '(len, len_bytes, p) := read_len 2 extra (i + 1) 0 0 in
            let payload_end := (p + Z.to_nat len)%nat in
            if (len_bytes =? 0)%nat || (len <? 10) || (length extra <? payload_end)%nat
            then scan_extra ind fuel extra payload_end
            else if memcmp_at ind extra p (str "DOMAIN_REG") then Some (Some (OpReg p payload_end))
            else if memcmp_at ind extra p (str "DOMAIN_UPDATE") then Some (Some (OpUpdate p payload_end))
            else if memcmp_at ind extra p (str "DOMAIN_XFER") then Some (Some (OpXfer p payload_end))
            else scan_extra ind fuel extra (i + (2 + Z.to_nat len))
          else scan_extra ind fuel extra (i + 1)
      end
  end.

Definition scan (ind : indeterminate) (extra : bytes) : option (option domain_op) :=
  scan_extra ind (S (length extra)) extra 0.

(** ** The TLV loop shared by the three operations *)

Section tlv.
  Context {S : Type} (handle : Z -> bytes -> S -> S + domain_registration_result).

Fixpoint tlv_loop (fuel : nat) (extra : bytes) (payload_end pos : nat) (s : S)
    : option (S + domain_registration_result) :=
  match fuel with
  | O => None
  | Datatypes.S fuel =>
      if (payload_end <=? pos)%nat then Some (inl s) else
      match extra !! pos with
      | None => Some (inr invalid_format)
      | Some type =>
          if type =? 0 then Some (inl s) else
          match extra !! (pos + 1)%nat with
          | None => Some (inr invalid_format)
          | Some length =>
              let len := Z.to_nat length in
              let pos := (pos + 2)%nat in
              if (List.length extra <? pos + len)%nat || (payload_end <? pos + len)%nat
              then Some (inr invalid_format) else
              match handle type (take len (drop pos extra)) s with
              | inr e => Some (inr e)
              | inl s => tlv_loop fuel extra payload_end (pos + len) s
              end
          end
      end
  end.
End tlv.

(** ** Registration fields *)

Record reg_fields := {
  rf_domain_name : bytes;
  rf_fee_tier : Z;
  rf_registrant_key : bytes;
  rf_genesis_fingerprint : hash;
  rf_relay_urls : list bytes;
}.

Definition VNS_MAX_RELAYS : nat := 3.
Definition VNS_RELAY_URL_MAX : Z := 255.

(** [fee_tier |= ((uint64_t)extra[pos + j]) << (j * 8)] *)
Fixpoint or_bytes (j : Z) (acc : Z) (l : bytes) : Z :=
  match l with
  | [] => acc
  | c :: l => or_bytes (j + 1) (Z.lor acc (Z.shiftl c (j * 8))) l
  end.

Section parsers.
Context `{Crypto}.

(** The locals as declared before the loop. *)
Definition reg_fields_init (ind : indeterminate) : reg_fields :=
  {| rf_domain_name := []; rf_fee_tier := 0;
     rf_registrant_key := uninit_registrant_key ind;
     rf_genesis_fingerprint := uninit_genesis_fingerprint ind;
     rf_relay_urls := replicate VNS_MAX_RELAYS [] |}.

(** One iteration's [switch (type)] of the registration loop. *)
Definition reg_handle (type : Z) (v : bytes) (s : reg_fields)
    : reg_fields + domain_registration_result :=
  let '(Build_reg_fields dn ft rk gf ru) := s in
  let length := zlen v in
  let relay i :=
    if VNS_RELAY_URL_MAX <? length then inr invalid_format
    else inl (Build_reg_fields dn ft rk gf (<[i := v]> ru)) in
  if type =? 1 then inl (Build_reg_fields v ft rk gf ru)
  else if type =? 2 then
    if (length <? 1) || (8 <? length) then inr invalid_fee_tier
    else inl (Build_reg_fields dn (or_bytes 0 0 v) rk gf ru)
  else if type =? 3 then
    if negb (length =? 33) then inr invalid_key
    else if negb (is_valid_compressed_pubkey v) then inr invalid_key
    else inl (Build_reg_fields dn ft v gf ru)
  else if type =? 4 then
    if negb (length =? 32) then inr invalid_fingerprint
    else inl (Build_reg_fields dn ft rk v ru)
  else if type =? 6 then relay 0%nat
  else if type =? 7 then relay 1%nat
  else if type =? 8 then relay 2%nat
  else inr invalid_format.

Definition parse_registration (ind : indeterminate) (extra : bytes) (payload_start payload_end : nat)
    : option (reg_fields + domain_registration_result) :=
  tlv_loop reg_handle (S (length extra)) extra payload_end (payload_start + 10)
    (reg_fields_init ind).

(** ** Update fields *)

Record upd_fields := {
  uf_domain_name : bytes;
  uf_new_owner : option bytes;
  uf_new_relay_set : option (list bytes);
  uf_signature : option bytes;  (* [None] while [have_signature] is false *)
}.

Definition upd_fields_init : upd_fields :=
  {| uf_domain_name := []; uf_new_owner := None; uf_new_relay_set := None; uf_signature := None |}.

(** The [for (ri < count)] loop of tag 0x10, on the [length] bytes of the
    value: [n] entries are left, [p] is the read position. *)
Fixpoint read_relays (n ri : nat) (v : bytes) (p : nat) (relays : list bytes)
    : list bytes + domain_registration_result :=
  match n with
  | O => inl relays
  | S n =>
      match v !! p with
      | None => inr invalid_format
      | Some url_len =>
          let p := S p in
          if (url_len =? 0) || (VNS_RELAY_URL_MAX <? url_len) then inr invalid_format
          else if (length v <? p + Z.to_nat url_len)%nat then inr invalid_format
          else read_relays n (S ri) v (p + Z.to_nat url_len)
                 (<[ri := take (Z.to_nat url_len) (drop p v)]> relays)
      end
  end.

(** One iteration's [switch (type)] of the update loop. *)
Definition upd_handle (type : Z) (v : bytes) (s : upd_fields)
    : upd_fields + domain_registration_result :=
  let '(Build_upd_fields dn no nr sg) := s in
  let length := zlen v in
  if type =? 1 then inl (Build_upd_fields v no nr sg)
  else if type =? 2 then
    if negb (length =? 33) then inr invalid_key
    else if negb (is_valid_compressed_pubkey v) then inr invalid_key
    else inl (Build_upd_fields dn (Some v) nr sg)
  else if type =? 3 then
    if (length =? 0) || (VNS_RELAY_URL_MAX <? length) then inr invalid_format
    else inl (Build_upd_fields dn no (Some [v; []; []]) sg)
  else if type =? 16 then
    match v with
    | [] => inr invalid_format
    | count :: _ =>
        if (count =? 0) || (Z.of_nat VNS_MAX_RELAYS <? count) then inr invalid_format
        else match read_relays (Z.to_nat count) 0 v 1 (replicate VNS_MAX_RELAYS []) with
             | inr e => inr e
             | inl relays => inl (Build_upd_fields dn no (Some relays) sg)
             end
    end
  else if type =? 4 then
    if negb (length =? 64) then inr invalid_format
    else inl (Build_upd_fields dn no nr (Some v))
  else inr invalid_format.

Definition parse_update (extra : bytes) (payload_start payload_end : nat)
    : option (upd_fields + domain_registration_result) :=
  tlv_loop upd_handle (S (length extra)) extra payload_end
    (payload_start + length (str "DOMAIN_UPDATE")) upd_fields_init.

(** ** Transfer fields *)

Record xfer_fields := {
  xf_domain_name : bytes;
  xf_new_owner_key : option bytes;  (* [None] while [have_key] is false *)
  xf_signature : option bytes;      (* [None] while [have_sig] is false *)
}.

Definition xfer_fields_init : xfer_fields :=
  {| xf_domain_name := []; xf_new_owner_key := None; xf_signature := None |}.

Definition xfer_handle (type : Z) (v : bytes) (s : xfer_fields)
    : xfer_fields + domain_registration_result :=
  let '(Build_xfer_fields dn k sg) := s in
  let length := zlen v in
  if type =? 1 then inl (Build_xfer_fields v k sg)
  else if type =? 5 then
    if negb (length =? 32) then inr invalid_key
    else inl (Build_xfer_fields dn (Some v) sg)
  else if type =? 4 then
    if negb (length =? 64) then inr invalid_format
    else inl (Build_xfer_fields dn k (Some v))
  else inr invalid_format.

Definition parse_transfer (extra : bytes) (payload_start payload_end : nat)
    : option (xfer_fields + domain_registration_result) :=
  tlv_loop xfer_handle (S (length extra)) extra payload_end (payload_start + 11)
    xfer_fields_init.

End parsers.

(** ** Termination *)

Lemma read_len_progress fuel extra p len n :
  (p <= (read_len fuel extra p len n).2)%nat.
Proof.
  revert p len n. induction fuel as [|fuel IH]; intros p len n; cbn [read_len]; [done|].
  destruct (extra !! p); [|done]. split_if; cbn; [lia|]. etransitivity; [|apply IH]. lia.
Qed.

(** Every iteration advances, so [length extra - i + 1] iterations reach the end. *)
Lemma scan_extra_total ind fuel extra i :
  (length extra - i < fuel)%nat -> is_Some (scan_extra ind fuel extra i).
Proof.
  revert i. induction fuel as [|fuel IH]; intros i Hf; [lia|]. cbn [scan_extra].
  destruct (extra !! i) as [tag|] eqn:L; [|by eexists].
  apply lookup_lt_Some in L.
  split_if; [apply IH; lia|]. split_if; [|apply IH; lia]. split_if; [by eexists|].
  pose proof (read_len_progress 2 extra (i + 1) 0 0) as P.
  destruct (read_len 2 extra (i + 1) 0 0) as [[len lb] p]. cbn in P.
  split_if; [apply IH; lia|]. do 3 (split_if; [by eexists|]). apply IH. lia.
Qed.

Lemma tlv_loop_total {S} (h : Z -> bytes -> S -> S + domain_registration_result) fuel extra e pos s :
  (length extra - pos < fuel)%nat -> is_Some (tlv_loop h fuel extra e pos s).
Proof.
  revert pos s. induction fuel as [|fuel IH]; intros pos s Hf; [lia|]. cbn [tlv_loop].
  split_if; [by eexists|].
  destruct (extra !! pos) as [t|] eqn:L; [|by eexists]. apply lookup_lt_Some in L.
  split_if; [by eexists|]. destruct (extra !! (pos + 1)%nat); [|by eexists].
  split_if; [by eexists|]. destruct (h _ _ _); [apply IH; lia | by eexists].
Qed.

(** ** Encoded TLVs and what the loop makes of them *)

Definition tlv (tv : Z * bytes) : bytes := tv.1 :: zlen tv.2 :: tv.2.
Definition enc (l : list (Z * bytes)) : bytes := concat (map tlv l).
Definition wf_tlv (tv : Z * bytes) : Prop := tv.1 <> 0 /\ (length tv.2 <= 255)%nat.

Fixpoint run_tlvs {S} (h : Z -> bytes -> S -> S + domain_registration_result)
    (l : list (Z * bytes)) (s : S) : S + domain_registration_result :=
  match l with
  | [] => inl s
  | (t, v) :: l => match h t v s with inr e => inr e | inl s => run_tlvs h l s end
  end.

Lemma enc_cons t v l : enc ((t, v) :: l) = t :: zlen v :: v ++ enc l.
Proof. done. Qed.

Lemma enc_app l k : enc (l ++ k) = enc l ++ enc k.
Proof. unfold enc. by rewrite map_app, concat_app. Qed.

Lemma length_enc_ge l : (length l <= length (enc l))%nat.
Proof.
  induction l as [|[t v] l IH]; [cbn; lia|]. rewrite enc_cons. cbn [length].
  rewrite length_app. lia.
Qed.

Lemma append_tlv_enc p t v : (length v <= 255)%nat -> append_tlv p t v = p ++ enc [(t, v)].
Proof.
  intros. unfold append_tlv, enc, tlv. cbn. rewrite app_nil_r, u8_id; [done|].
  unfold zlen. lia.
Qed.

(** The index loop over the whole vector folds the handler over the TLVs. *)
Lemma tlv_loop_enc {S} (h : Z -> bytes -> S -> S + domain_registration_result) l :
  forall fuel pre post s,
  Forall wf_tlv l -> (length l < fuel)%nat ->
  tlv_loop h fuel (pre ++ enc l ++ 0 :: post) (length pre + length (enc l) + 1) (length pre) s
  = Some (run_tlvs h l s).
Proof.
  induction l as [|[t v] l IH]; intros [|fuel] pre post s W Hf; cbn in Hf; try lia; cbn [tlv_loop].
  - rewrite (proj2 (Nat.leb_gt _ _)) by lia.
    cbn [enc map concat app]. by rewrite list_lookup_middle.
  - inversion W as [|? ? [Ht Hv] W']; subst. cbn [fst snd] in *.
    rewrite (proj2 (Nat.leb_gt _ _)) by lia.
    rewrite enc_cons. cbn [app]. rewrite <- (app_assoc v), list_lookup_middle by done.
    apply Z.eqb_neq in Ht as ->.
    rewrite lookup_app_second. cbv zeta. rewrite !to_nat_zlen.
    rewrite drop_app_two, take_app_length.
    rewrite (proj2 (Nat.ltb_ge _ _)), (proj2 (Nat.ltb_ge _ _)); cbn [orb];
      [|repeat (rewrite length_app || cbn [length]); lia..].
    cbn [run_tlvs]. destruct (h t v s) as [s'|e]; [|done].
    specialize (IH fuel (pre ++ t :: zlen v :: v) post s' W' ltac:(lia)).
    rewrite <- IH. f_equal.
    + by rewrite <- !app_assoc.
    + rewrite length_app. cbn [length]. rewrite length_app. lia.
    + rewrite length_app. cbn. lia.
Qed.

(** ** The length header *)

Definition nonce_header (size : Z) : bytes :=
  if size <? 128 then [u8 size] else [u8 (Z.lor size 128); u8 (Z.shiftr size 7)].

Lemma wrap_nonce_eq payload :
  (length payload <= 255)%nat -> wrap_nonce payload = 2 :: nonce_header (zlen payload) ++ payload.
Proof.
  intros. unfold wrap_nonce, nonce_header. rewrite (proj2 (Z.ltb_ge _ _)); [done|].
  unfold zlen. lia.
Qed.

Lemma wrap_nonce_bound payload : wrap_nonce payload <> [] -> (length payload <= 255)%nat.
Proof. unfold wrap_nonce. split_if; [done|]. to_prop. unfold zlen in *. lia. Qed.

(** The header of a payload of [size] bytes, written out. *)
Lemma nonce_header_bits size :
  0 <= size <= 255 ->
  if size <? 128 then u8 size = size /\ Z.land size 127 = size /\ Z.land size 128 = 0
  else u8 (Z.lor size 128) = size /\ Z.land size 128 = 128 /\ u8 (Z.shiftr size 7) = 1 /\
       Z.lor (Z.land size 127) 128 = size.
Proof.
  intros. assert ((if size <? 128
    then (u8 size =? size) && (Z.land size 127 =? size) && (Z.land size 128 =? 0)
    else (u8 (Z.lor size 128) =? size) && (Z.land size 128 =? 128) &&
         (u8 (Z.shiftr size 7) =? 1) && (Z.lor (Z.land size 127) 128 =? size)) = true) as F.
  { byte_cases size. }
  destruct (size <? 128); to_prop; auto.
Qed.

Lemma read_len_header size pre post :
  0 <= size <= 255 ->
  read_len 2 (pre ++ nonce_header size ++ post) (length pre) 0 0
  = (size, length (nonce_header size), (length pre + length (nonce_header size))%nat).
Proof.
  intros Hs. pose proof (nonce_header_bits size Hs) as B. unfold nonce_header.
  destruct (size <? 128) eqn:E; cbn [app read_len length];
    rewrite list_lookup_middle by done; cbv zeta; rewrite Z.lor_0_l, Z.shiftl_0_r.
  - destruct B as (-> & -> & ->). cbn [Z.eqb]. f_equal. lia.
  - destruct B as (-> & -> & -> & L). cbn [Z.eqb].
    replace (S (length pre)) with (length pre + 1)%nat by lia.
    rewrite lookup_app_second. change (Z.shiftl (Z.land 1 127) (7 * Z.of_nat 1)) with 128.
    rewrite L. cbn [Z.land Pos.land Z.eqb]. repeat f_equal. lia.
Qed.

(** ** Scanning to a nonce *)

(** Fields that precede the operation in a transaction's [extra]: public keys
    (tag 1) and bytes that are neither tag. *)
Inductive skippable : bytes -> Prop :=
| skip_nil : skippable []
| skip_pubkey key pre : length key = 32%nat -> skippable pre -> skippable (1 :: key ++ pre)
| skip_other c pre : c <> 1 -> c <> 2 -> skippable pre -> skippable (c :: pre).

Lemma scan_skip ind pre :
  skippable pre -> forall a fuel rest, (length pre <= fuel)%nat ->
  exists fuel', (fuel - length pre <= fuel')%nat /\
  scan_extra ind fuel (a ++ pre ++ rest) (length a)
  = scan_extra ind fuel' (a ++ pre ++ rest) (length a + length pre).
Proof.
  induction 1 as [|key pre Hk _ IH|c pre H1 H2 _ IH]; intros a fuel rest Hf.
  - exists fuel. rewrite Nat.add_0_r. split; [lia|done].
  - destruct fuel as [|fuel]; cbn [length] in *; [lia|]. rewrite length_app in *.
    cbn [scan_extra app]. rewrite list_lookup_middle by done. cbn [Z.eqb Pos.eqb].
    destruct (IH (a ++ 1 :: key) fuel rest) as (fuel' & Hf' & E); [lia|].
    exists fuel'. split; [lia|]. rewrite length_app in E. cbn [length] in E. rewrite Hk in *.
    rewrite <- !app_assoc in *. cbn [app] in E.
    change (1 + 32)%nat with 33%nat. rewrite E. f_equal. lia.
  - destruct fuel as [|fuel]; cbn [length] in *; [lia|].
    cbn [scan_extra app]. rewrite list_lookup_middle by done.
    apply Z.eqb_neq in H1 as ->, H2 as ->.
    destruct (IH (a ++ [c]) fuel rest) as (fuel' & Hf' & E); [lia|].
    exists fuel'. split; [lia|]. rewrite length_app in E. cbn [length] in E.
    rewrite <- !app_assoc in *. cbn [app] in E. rewrite E. f_equal. lia.
Qed.

Lemma memcmp_at_app ind pre s post magic :
  memcmp_at ind (pre ++ s ++ post) (length pre) magic
  = beq (take (length magic) (s ++ post ++ beyond_extra ind)) magic.
Proof. unfold memcmp_at. by rewrite <- !app_assoc, drop_app_length. Qed.

(** The position of the payload of a nonce that starts at [length pre]. *)
Definition payload_pos (pre payload : bytes) : nat :=
  length (pre ++ 2 :: nonce_header (zlen payload)).

Lemma scan_wrapped ind fuel pre payload post :
  (10 <= length payload <= 255)%nat ->
  let extra := pre ++ wrap_nonce payload ++ post in
  let p := payload_pos pre payload in
  let e := (p + length payload)%nat in
  let has magic := beq (take (length magic) (payload ++ post ++ beyond_extra ind)) magic in
  scan_extra ind (S fuel) extra (length pre) =
    if has (str "DOMAIN_REG") then Some (Some (OpReg p e))
    else if has (str "DOMAIN_UPDATE") then Some (Some (OpUpdate p e))
    else if has (str "DOMAIN_XFER") then Some (Some (OpXfer p e))
    else scan_extra ind fuel extra (length pre + (2 + length payload)).
Proof.
  intros Hl extra p e has. subst extra p e has. cbv zeta.
  rewrite wrap_nonce_eq by lia. cbn [app scan_extra].
  rewrite list_lookup_middle by done. cbn [Z.eqb Pos.eqb].
  set (hd := nonce_header (zlen payload)).
  rewrite (proj2 (Nat.leb_gt _ _)) by
    (repeat (rewrite length_app || cbn [length]); lia).
  assert (pre ++ 2 :: (hd ++ payload) ++ post = (pre ++ [2]) ++ hd ++ payload ++ post) as X
    by (by rewrite <- !app_assoc).
  assert (length pre + 1 = length (pre ++ [2%Z]))%nat as -> by (by rewrite length_app).
  rewrite X at 1. subst hd. rewrite read_len_header by (unfold zlen; lia).
  set (hd := nonce_header (zlen payload)) in *. rewrite to_nat_zlen.
  assert (length (pre ++ [2%Z]) + length hd = payload_pos pre payload)%nat as ->.
  { unfold payload_pos. subst hd. rewrite !length_app. cbn. lia. }
  assert ((length hd =? 0)%nat = false) as ->.
  { subst hd. unfold nonce_header. by destruct (_ <? _). }
  assert ((zlen payload <? 10) = false) as -> by (unfold zlen; lia).
  rewrite (proj2 (Nat.ltb_ge _ _)) by
    (unfold payload_pos; subst hd; repeat (rewrite length_app || cbn [length]); lia).
  cbn [orb].
  assert (pre ++ 2 :: (hd ++ payload) ++ post = (pre ++ 2 :: hd) ++ payload ++ post) as Y
    by (by rewrite <- !app_assoc).
  rewrite Y. unfold payload_pos. fold hd. by rewrite !memcmp_at_app.
Qed.

(** Reading back a wrapped TLV payload, wherever it sits in [extra]. *)
Lemma tlv_loop_wrapped {S} (h : Z -> bytes -> S -> S + domain_registration_result)
    pre post magic l s :
  Forall wf_tlv l ->
  let payload := magic ++ enc l ++ [0] in
  let extra := pre ++ wrap_nonce payload ++ post in
  (length payload <= 255)%nat ->
  tlv_loop h (Datatypes.S (length extra)) extra (payload_pos pre payload + length payload)
    (payload_pos pre payload + length magic) s
  = Some (run_tlvs h l s).
Proof.
  intros W payload extra Hl. subst extra. rewrite wrap_nonce_eq by done.
  set (front := pre ++ 2 :: nonce_header (zlen payload) ++ magic).
  assert (pre ++ (2 :: nonce_header (zlen payload) ++ payload) ++ post
    = front ++ enc l ++ 0 :: post) as X.
  { subst front payload. cbn [app]. rewrite <- !app_assoc. cbn [app]. by rewrite <- !app_assoc. }
  rewrite X. assert (payload_pos pre payload + length magic = length front)%nat as P.
  { unfold payload_pos. subst front. repeat (rewrite length_app || cbn [length]). lia. }
  rewrite P. rewrite <- (tlv_loop_enc h l (Datatypes.S (length (front ++ enc l ++ 0 :: post))) front post s W).
  - f_equal. rewrite <- P. subst payload. rewrite !length_app. cbn. lia.
  - pose proof (length_enc_ge l). rewrite !length_app. cbn. lia.
Qed.

Lemma scan_wrapped_at ind pre payload post magic op :
  skippable pre -> (10 <= length payload <= 255)%nat ->
  magic `prefix_of` payload ->
  (magic, op) ∈ [(str "DOMAIN_REG", OpReg); (str "DOMAIN_UPDATE", OpUpdate);
                 (str "DOMAIN_XFER", OpXfer)] ->
  scan ind (pre ++ wrap_nonce payload ++ post)
  = Some (Some (op (payload_pos pre payload) (payload_pos pre payload + length payload)%nat)).
Proof.
  intros Sk Hl [rest ->] Hop. unfold scan.
  set (extra := pre ++ _ ++ post).
  destruct (scan_skip ind pre Sk [] (S (length extra)) (wrap_nonce (magic ++ rest) ++ post))
    as (fuel & Hf & E).
  { subst extra. rewrite length_app. lia. }
  cbn [app length] in E. fold extra in E. rewrite E. cbn [plus].
  destruct fuel as [|fuel]; [subst extra; rewrite !length_app in Hf; lia|].
  subst extra. rewrite scan_wrapped by done.
  rewrite !elem_of_cons, elem_of_nil in Hop.
  by destruct Hop as [[= -> ->]|[[= -> ->]|[[= -> ->]|[]]]].
Qed.

(** *** The builders emit TLVs *)

Ltac wf_tlvs :=
  repeat (apply Forall_cons; split; [split; cbn in *; lia|]); try apply Forall_nil; auto.

Lemma length_append_tlv p t v : length (append_tlv p t v) = (length p + 2 + length v)%nat.
Proof. unfold append_tlv. rewrite length_app. cbn. lia. Qed.

Fixpoint relay_tlvs (tags : list Z) (urls : list bytes) : list (Z * bytes) :=
  match tags, urls with
  | tag :: tags, url :: urls =>
      if is_empty url then relay_tlvs tags urls else (tag, url) :: relay_tlvs tags urls
  | _, _ => []
  end.

Lemma append_relays_enc tags urls p p' :
  Forall (fun t => t <> 0) tags -> append_relays p tags urls = Some p' ->
  p' = p ++ enc (relay_tlvs tags urls) /\ Forall wf_tlv (relay_tlvs tags urls).
Proof.
  intros Ht. revert urls p p'.
  induction Ht as [|t tags Ht _ IH]; intros [|url urls] p p'; cbn;
    [intros [= <-]; by rewrite app_nil_r..|].
  split_if; [apply IH|]. split_if; [done|]. intros R.
  assert (length url <= 255)%nat by (to_prop; unfold zlen in *; lia).
  apply IH in R as [-> W]. rewrite append_tlv_enc by done.
  rewrite <- app_assoc, <- enc_app. split; [done|]. by constructor.
Qed.

Definition reg_tlvs (f : reg_fields) : list (Z * bytes) :=
  [(1, rf_domain_name f); (2, [rf_fee_tier f]); (3, rf_registrant_key f);
   (4, rf_genesis_fingerprint f)] ++ relay_tlvs relay_tags (rf_relay_urls f).

Lemma build_registration_extra_enc f :
  let extra := build_registration_extra (rf_domain_name f) (rf_fee_tier f)
    (rf_registrant_key f) (rf_genesis_fingerprint f) (rf_relay_urls f) in
  let payload := str "DOMAIN_REG" ++ enc (reg_tlvs f) ++ [0] in
  extra <> [] ->
  extra = wrap_nonce payload /\ Forall wf_tlv (reg_tlvs f) /\ (length payload <= 255)%nat.
Proof.
  destruct f as [dn ft rk gf ru]. unfold reg_tlvs, build_registration_extra.
  cbn [rf_domain_name rf_fee_tier rf_registrant_key rf_genesis_fingerprint rf_relay_urls].
  cbv zeta.
  destruct (append_relays _ _ _) as [p|] eqn:R; [|done]. intros Hne.
  pose proof (wrap_nonce_bound _ Hne) as Hb.
  apply append_relays_enc in R as [-> W]; [|by repeat constructor].
  pose proof Hb as Hd. rewrite !length_app, !length_append_tlv in Hd.
  rewrite !append_tlv_enc in * by (cbn; lia). rewrite <- !app_assoc in *.
  assert (enc ([(1, dn); (2, [ft]); (3, rk); (4, gf)] ++ relay_tlvs relay_tags ru) ++ [0]
    = enc [(1, dn)] ++ enc [(2, [ft])] ++ enc [(3, rk)] ++ enc [(4, gf)] ++
      enc (relay_tlvs relay_tags ru) ++ [0]) as X.
  { change [(1, dn); (2, [ft]); (3, rk); (4, gf)]
      with ([(1, dn)] ++ [(2, [ft])] ++ [(3, rk)] ++ [(4, gf)]).
    by rewrite !enc_app, <- !app_assoc. }
  split_and!; [by f_equal; rewrite X| |by rewrite X].
  apply Forall_app. split; [wf_tlvs|done].
Qed.

Section roundtrips.
Context `{Crypto}.

(** The field values the daemon accepts in a registration. *)
Definition reg_fields_ok (f : reg_fields) : Prop :=
  length (rf_registrant_key f) = 33%nat /\ is_valid_compressed_pubkey (rf_registrant_key f) = true /\
  length (rf_genesis_fingerprint f) = 32%nat /\ length (rf_relay_urls f) = 3%nat.

Lemma reg_handle_name dn ft k gf ru v :
  reg_handle 1 v (Build_reg_fields dn ft k gf ru) = inl (Build_reg_fields v ft k gf ru).
Proof. done. Qed.

Lemma reg_handle_tier dn ft k gf ru t :
  reg_handle 2 [t] (Build_reg_fields dn ft k gf ru) = inl (Build_reg_fields dn t k gf ru).
Proof. cbn. by rewrite Z.shiftl_0_r. Qed.

Lemma reg_handle_key dn ft k gf ru v :
  length v = 33%nat -> is_valid_compressed_pubkey v = true ->
  reg_handle 3 v (Build_reg_fields dn ft k gf ru) = inl (Build_reg_fields dn ft v gf ru).
Proof. intros L V. unfold reg_handle, zlen. by rewrite L, V. Qed.

Lemma reg_handle_fingerprint dn ft k gf ru v :
  length v = 32%nat ->
  reg_handle 4 v (Build_reg_fields dn ft k gf ru) = inl (Build_reg_fields dn ft k v ru).
Proof. intros L. unfold reg_handle, zlen. by rewrite L. Qed.

Lemma reg_handle_relay dn ft k gf ru v i :
  (i < 3)%nat -> (length v <= 255)%nat ->
  reg_handle (6 + Z.of_nat i) v (Build_reg_fields dn ft k gf ru)
  = inl (Build_reg_fields dn ft k gf (<[i := v]> ru)).
Proof.
  intros Hi L. assert ((VNS_RELAY_URL_MAX <? zlen v) = false) as E.
  { unfold VNS_RELAY_URL_MAX, zlen. lia. }
  destruct i as [|[|[|]]]; try lia; unfold reg_handle; rewrite E; done.
Qed.

(** The relay TLVs fill the slots of the URLs that are not empty. *)
Lemma run_relay_tlvs dn ft k gf a b c :
  Forall wf_tlv (relay_tlvs relay_tags [a; b; c]) ->
  run_tlvs reg_handle (relay_tlvs relay_tags [a; b; c])
    (Build_reg_fields dn ft k gf (replicate VNS_MAX_RELAYS []))
  = inl (Build_reg_fields dn ft k gf [a; b; c]).
Proof.
  pose proof (reg_handle_relay dn ft k gf) as R.
  cbn [relay_tlvs relay_tags]. intros W.
  destruct a, b, c; cbn [is_empty] in *; cbn [run_tlvs]; try done;
    repeat match goal with
    | W : Forall wf_tlv (_ :: _) |- _ =>
        apply Forall_cons in W as [[_ ?] W]; cbn [snd] in *
    end;
    change 6 with (6 + Z.of_nat 0); change 7 with (6 + Z.of_nat 1); change 8 with (6 + Z.of_nat 2);
    rewrite ?R by (done || lia); done.
Qed.

Lemma run_reg_tlvs ind f :
  reg_fields_ok f -> Forall wf_tlv (reg_tlvs f) ->
  run_tlvs reg_handle (reg_tlvs f) (reg_fields_init ind) = inl f.
Proof.
  destruct f as [dn ft rk gf ru]. intros (Hk & Hv & Hg & Hr) W.
  apply Forall_app in W as [_ W].
  cbn [rf_domain_name rf_fee_tier rf_registrant_key rf_genesis_fingerprint rf_relay_urls] in *.
  destruct ru as [|a [|b [|c [|]]]]; try done.
  unfold reg_tlvs, reg_fields_init. cbn [run_tlvs app rf_domain_name rf_fee_tier
    rf_registrant_key rf_genesis_fingerprint rf_relay_urls].
  rewrite reg_handle_name, reg_handle_tier, reg_handle_key, reg_handle_fingerprint by done. by apply run_relay_tlvs.
Qed.

(** A registration the wallet builds is found by the daemon's scan behind any
    skippable prefix and before any suffix, and its payload parses back to
    exactly the fields it was built from, whatever the indeterminate memory. *)
Lemma registration_extra_roundtrip (ind : indeterminate) (f : reg_fields) (pre post : bytes)
  (Hpre : skippable pre) (Hf : reg_fields_ok f)
  (Hb : build_registration_extra (rf_domain_name f) (rf_fee_tier f)
    (rf_registrant_key f) (rf_genesis_fingerprint f) (rf_relay_urls f) <> []) :
  let extra := pre ++ build_registration_extra (rf_domain_name f) (rf_fee_tier f)
    (rf_registrant_key f) (rf_genesis_fingerprint f) (rf_relay_urls f) ++ post in
  exists s e, scan ind extra = Some (Some (OpReg s e)) /\
    parse_registration ind extra s e = Some (inl f).
Proof.
  cbv zeta. destruct (build_registration_extra_enc f Hb) as (-> & W & L).
  eexists _, _. split.
  - apply (scan_wrapped_at _ _ _ _ (str "DOMAIN_REG")); auto.
    + split; [|done]. rewrite length_app. cbn. lia.
    + by eexists.
    + by left.
  - unfold parse_registration. rewrite <- (run_reg_tlvs ind f Hf W).
    by apply (tlv_loop_wrapped reg_handle pre post (str "DOMAIN_REG")).
Qed.
(** *** Transfers *)

Definition xfer_tlvs (name key sig : bytes) : list (Z * bytes) := [(1, name); (5, key); (4, sig)].

(** A transfer the wallet builds parses back to its name, key and
    signature. *)
Theorem transfer_extra_roundtrip (ind : indeterminate) (name key sig pre post : bytes)
  (Hpre : skippable pre) (Hk : length key = 32%nat) (Hs : length sig = 64%nat)
  (Hb : build_transfer_extra name key sig <> []) :
  let extra := pre ++ build_transfer_extra name key sig ++ post in
  exists s e, scan ind extra = Some (Some (OpXfer s e)) /\
    parse_transfer extra s e = Some (inl (Build_xfer_fields name (Some key) (Some sig))).
Proof.
  cbv zeta. unfold build_transfer_extra in *. pose proof (wrap_nonce_bound _ Hb) as L.
  pose proof L as L'. rewrite !length_app, !length_append_tlv in L'.
  rewrite !append_tlv_enc in * by lia. rewrite <- !app_assoc in *.
  assert (enc [(1, name)] ++ enc [(5, key)] ++ enc [(4, sig)] ++ [0]
    = enc (xfer_tlvs name key sig) ++ [0]) as X.
  { rewrite app_assoc, app_assoc, <- !enc_app. done. }
  rewrite X in *. eexists _, _. split.
  - apply (scan_wrapped_at _ _ _ _ (str "DOMAIN_XFER")); auto.
    + split; [|done]. rewrite length_app. cbn. lia.
    + by eexists.
    + by right; right; left.
  - unfold parse_transfer. rewrite (tlv_loop_wrapped xfer_handle pre post (str "DOMAIN_XFER")); [|wf_tlvs|done].
    unfold xfer_tlvs, xfer_fields_init. cbn [run_tlvs]. unfold xfer_handle, zlen. by rewrite Hk, Hs.
Qed.

(** *** Updates *)

Lemma list_inserts_insert_before {A} (k l : list A) i j x :
  (i < j)%nat -> list_inserts j k (<[i := x]> l) = <[i := x]> (list_inserts j k l).
Proof.
  revert j. induction k as [|y k IH]; intros j Hj; cbn; [done|].
  rewrite IH by lia. apply list_insert_insert_ne. lia.
Qed.

(** The counted relay block, read back entry by entry into the slots. *)
Lemma read_relays_entries urls front ri rs :
  Forall (fun u => u <> [] /\ (length u <= 255)%nat) urls ->
  read_relays (length urls) ri (front ++ concat (map (fun u => zlen u :: u) urls)) (length front) rs
  = inl (list_inserts ri urls rs).
Proof.
  revert front ri rs. induction urls as [|u urls IH]; intros front ri rs W; [done|].
  apply Forall_cons in W as [[Hu L] W]. cbn [length read_relays map concat app list_inserts].
  rewrite list_lookup_middle by done. cbv zeta. rewrite to_nat_zlen.
  assert ((zlen u =? 0) || (VNS_RELAY_URL_MAX <? zlen u) = false) as ->.
  { unfold VNS_RELAY_URL_MAX, zlen. destruct u; cbn [length] in *; [done|lia]. }
  rewrite (proj2 (Nat.ltb_ge _ _)) by (repeat (rewrite length_app || cbn [length]); lia).
  replace (S (length front)) with (length (front ++ [zlen u])) by (rewrite length_app; cbn; lia).
  replace (front ++ zlen u :: u ++ concat (map (fun u => zlen u :: u) urls))
    with ((front ++ [zlen u]) ++ u ++ concat (map (fun u => zlen u :: u) urls))
    by (by rewrite <- app_assoc).
  rewrite drop_app_length, take_app_length.
  rewrite (app_assoc (front ++ [zlen u])), <- length_app, IH by done.
  by rewrite list_inserts_insert_before by lia.
Qed.

Lemma relay_entries_spec urls d d' :
  relay_entries d urls = Some d' ->
  let us := filter (fun u => u <> []) urls in
  d' = d ++ concat (map (fun u => zlen u :: u) us) /\
  Forall (fun u => u <> [] /\ (length u <= 255)%nat) us.
Proof.
  revert d. induction urls as [|u urls IH]; intros d; cbn [relay_entries].
  - intros [= ->]. cbn. by rewrite app_nil_r.
  - split_if.
    + apply is_empty_true in E as ->. intros R%IH. by rewrite filter_cons_False by tauto.
    + split_if; [done|]. apply is_empty_false in E. intros [-> W]%IH.
      assert (length u <= 255)%nat by (to_prop; unfold zlen in *; lia).
      rewrite filter_cons_True by done. cbn. rewrite u8_id by (unfold zlen; lia).
      split; [by rewrite <- app_assoc | by constructor].
Qed.

(** The relay slots an update installs: the URLs that are not empty, in order. *)
Definition packed_relays (set : list bytes) : option (list bytes) :=
  let us := filter (fun u => u <> []) set in
  if bool_decide (us = []) then None else Some (us ++ replicate (3 - length us) []).

(** The TLVs between the name and the signature of an update. *)
Definition owner_tlvs (owner : option bytes) : list (Z * bytes) :=
  match owner with Some k => [(2, k)] | None => [] end.

Definition relay_block (us : list bytes) : bytes :=
  zlen us :: concat (map (fun u => zlen u :: u) us).

Definition relay_set_tlvs (relays : option (list bytes)) : list (Z * bytes) :=
  match relays with
  | Some set => match filter (fun u => u <> []) set with
                | [] => []
                | us => [(16, relay_block us)]
                end
  | None => []
  end.

Definition upd_tlvs (name : bytes) (owner : option bytes) (relays : option (list bytes)) (sig : bytes) :=
  [(1, name)] ++ owner_tlvs owner ++ relay_set_tlvs relays ++ [(4, sig)].

(** The middle of [build_update_extra] appends exactly the relay TLV. *)
Lemma build_update_relays p p' (set : list bytes) :
  length set = 3%nat ->
  (let count := count_nonempty set in
   if (0 <? count) && (count <=? 3)
   then match relay_entries [u8 count] set with
        | None => None
        | Some relay_data => Some (append_tlv p 16 relay_data)
        end
   else Some p) = Some p' ->
  (length p' <= 255)%nat ->
  p' = p ++ enc (relay_set_tlvs (Some set)) /\ Forall wf_tlv (relay_set_tlvs (Some set)) /\
  Forall (fun u => u <> [] /\ (length u <= 255)%nat) (filter (fun u => u <> []) set).
Proof.
  intros L. unfold count_nonempty, relay_set_tlvs.
  pose proof (length_filter (fun u : bytes => u <> []) set) as Lf.
  set (us := filter _ set) in *. cbv zeta.
  destruct (decide (us = [])) as [E|Hne].
  { rewrite E. cbn. intros [= ->] _. rewrite app_nil_r. by split_and!. }
  assert (1 <= zlen us <= 3) as Hu.
  { destruct us; [done|]. unfold zlen. cbn in *. lia. }
  rewrite (proj2 (Z.ltb_lt _ _)), (proj2 (Z.leb_le _ _)), u8_id by lia. cbn [andb].
  destruct (relay_entries _ _) as [d|] eqn:R; [|done].
  apply relay_entries_spec in R as [-> W]. fold us in W |- *. intros [= <-] Lp.
  rewrite length_append_tlv in Lp. cbn [app] in *. fold (relay_block us) in *.
  rewrite append_tlv_enc by lia.
  destruct us; [done|]. split_and!; [done| |done]. wf_tlvs.
Qed.

Lemma build_update_extra_enc name owner relays sig :
  (forall k, owner = Some k -> length k = 33%nat) ->
  (forall set, relays = Some set -> length set = 3%nat) ->
  length sig = 64%nat -> build_update_extra name owner relays sig <> [] ->
  let payload := str "DOMAIN_UPDATE" ++ enc (upd_tlvs name owner relays sig) ++ [0] in
  build_update_extra name owner relays sig = wrap_nonce payload /\
  Forall wf_tlv (upd_tlvs name owner relays sig) /\ (length payload <= 255)%nat /\
  (forall set, relays = Some set ->
    Forall (fun u => u <> [] /\ (length u <= 255)%nat) (filter (fun u => u <> []) set)).
Proof.
  intros Ho Hr Hs. unfold build_update_extra. cbv zeta.
  set (p1 := match owner with Some k => _ | None => _ end).
  set (mid := match relays with None => _ | Some _ => _ end).
  destruct mid as [p2|] eqn:M; [|done]. intros Hb.
  pose proof (wrap_nonce_bound _ Hb) as L. rewrite length_app, length_append_tlv in L.
  assert (p2 = p1 ++ enc (relay_set_tlvs relays) /\ Forall wf_tlv (relay_set_tlvs relays) /\
    (forall set, relays = Some set ->
      Forall (fun u => u <> [] /\ (length u <= 255)%nat) (filter (fun u => u <> []) set)))
    as (-> & Wr & Wu).
  { subst mid. destruct relays as [set|].
    - apply build_update_relays in M as (-> & ? & ?); [|by apply Hr|lia].
      split_and!; try done. by intros ? [= <-].
    - injection M as ->. cbn. by rewrite app_nil_r. }
  rewrite length_app in L.
  assert (p1 = str "DOMAIN_UPDATE" ++ enc ([(1, name)] ++ owner_tlvs owner) /\
    Forall wf_tlv ([(1, name)] ++ owner_tlvs owner)) as [E1 W1].
  { subst p1. destruct owner as [k|]; cbn [owner_tlvs app];
      rewrite !length_append_tlv in L; rewrite !append_tlv_enc by lia; [|split; [done|wf_tlvs]].
    rewrite <- app_assoc, <- enc_app. split; [done|]. wf_tlvs. }
  rewrite append_tlv_enc in * by lia. rewrite E1 in *. rewrite <- !app_assoc in *.
  assert (enc ([(1, name)] ++ owner_tlvs owner) ++ enc (relay_set_tlvs relays) ++ enc [(4, sig)] ++ [0]
    = enc (upd_tlvs name owner relays sig) ++ [0]) as X.
  { unfold upd_tlvs. rewrite !enc_app, <- !app_assoc. done. }
  rewrite X in *. split_and!; [done| |by apply wrap_nonce_bound|done].
  unfold upd_tlvs. rewrite app_assoc. apply Forall_app. split; [done|].
  apply Forall_app. split; [done|]. wf_tlvs.
Qed.

Lemma run_owner_tlvs dn nr sg owner :
  (forall k, owner = Some k -> length k = 33%nat /\ is_valid_compressed_pubkey k = true) ->
  run_tlvs upd_handle (owner_tlvs owner) (Build_upd_fields dn None nr sg)
  = inl (Build_upd_fields dn owner nr sg).
Proof.
  intros Ho. destruct owner as [k|]; [|done]. destruct (Ho k eq_refl) as [L V].
  cbn [owner_tlvs run_tlvs]. unfold upd_handle, zlen. by rewrite L, V.
Qed.

Lemma run_relay_set_tlvs dn no sg relays :
  (forall set, relays = Some set -> length set = 3%nat /\
    Forall (fun u => u <> [] /\ (length u <= 255)%nat) (filter (fun u => u <> []) set)) ->
  run_tlvs upd_handle (relay_set_tlvs relays) (Build_upd_fields dn no None sg)
  = inl (Build_upd_fields dn no (relays ≫= packed_relays) sg).
Proof.
  intros Hr. destruct relays as [set|]; [|done]. destruct (Hr set eq_refl) as [L W].
  pose proof (length_filter (fun u : bytes => u <> []) set) as Lf.
  cbn [relay_set_tlvs mbind option_bind]. unfold packed_relays.
  generalize dependent (filter (fun u : bytes => u <> []) set). intros us W Lf.
  destruct (decide (us = [])) as [->|Hne]; [done|]. rewrite bool_decide_false by done.
  assert (match us with [] => [] | u :: us => [(16, relay_block (u :: us))] end
    = [(16, relay_block us)]) as -> by (by destruct us).
  cbn [run_tlvs]. unfold upd_handle, relay_block. cbn [Z.eqb Pos.eqb].
  assert ((zlen us =? 0) || (Z.of_nat VNS_MAX_RELAYS <? zlen us) = false) as ->.
  { unfold VNS_MAX_RELAYS, zlen. destruct us; [done|]. cbn in *. lia. }
  rewrite to_nat_zlen. pose proof (read_relays_entries us [zlen us] 0 (replicate VNS_MAX_RELAYS []) W) as R.
  cbn [app length] in R. rewrite R. cbv beta iota. do 3 f_equal.
  destruct us as [|a [|b [|c [|]]]]; cbn in *; try done; lia.
Qed.

Lemma run_tlvs_app {S} (h : Z -> bytes -> S -> S + domain_registration_result) l k s :
  run_tlvs h (l ++ k) s = match run_tlvs h l s with inl s => run_tlvs h k s | inr e => inr e end.
Proof. revert s. induction l as [|[t v] l IH]; intros s; cbn; [done|]. by destruct (h t v s). Qed.

(** an update the wallet builds parses back to its name, owner key and
    signature, with the relay set packed into its first slots (an all-empty
    set is not sent). *)
Theorem update_extra_roundtrip (ind : indeterminate) (name sig pre post : bytes)
  (owner : option bytes) (relays : option (list bytes)) (Hpre : skippable pre)
  (Ho : forall k, owner = Some k -> length k = 33%nat /\ is_valid_compressed_pubkey k = true)
  (Hr : forall set, relays = Some set -> length set = 3%nat) (Hs : length sig = 64%nat)
  (Hb : build_update_extra name owner relays sig <> []) :
  let extra := pre ++ build_update_extra name owner relays sig ++ post in
  exists s e, scan ind extra = Some (Some (OpUpdate s e)) /\
    parse_update extra s e
    = Some (inl (Build_upd_fields name owner (relays ≫= packed_relays) (Some sig))).
Proof.
  cbv zeta. destruct (build_update_extra_enc name owner relays sig) as (-> & W & L & Wu);
    [by intros; apply Ho|done..|].
  eexists _, _. split.
  - apply (scan_wrapped_at _ _ _ _ (str "DOMAIN_UPDATE")); auto.
    + split; [|done]. rewrite length_app. cbn. lia.
    + by eexists.
    + by right; left.
  - unfold parse_update.
    rewrite (tlv_loop_wrapped upd_handle pre post (str "DOMAIN_UPDATE")); [|done..].
    unfold upd_tlvs. rewrite run_tlvs_app.
    change (run_tlvs upd_handle [(1, name)] upd_fields_init)
      with (@inl _ domain_registration_result (Build_upd_fields name None None None)).
    cbv beta iota. rewrite run_tlvs_app, run_owner_tlvs by auto.
    rewrite run_tlvs_app, run_relay_set_tlvs by auto.
    cbn [run_tlvs]. unfold upd_handle, zlen. by rewrite Hs.
Qed.

End roundtrips.

Definition op_bounds (op : domain_op) : nat * nat :=
  match op with OpReg s e | OpUpdate s e | OpXfer s e => (s, e) end.

Lemma scan_extra_bounds ind fuel extra i op :
  scan_extra ind fuel extra i = Some (Some op) ->
  ((op_bounds op).1 + 10 <= (op_bounds op).2 <= length extra)%nat.
Proof.
  revert i. induction fuel as [|fuel IH]; intros i; [done|]. cbn [scan_extra].
  destruct (extra !! i) as [tag|]; [|done].
  split_if; [apply IH|]. split_if; [|apply IH]. split_if; [done|].
  destruct (read_len 2 extra (i + 1) 0 0) as [[len lb] p].
  split_if; [apply IH|]. to_prop.
  do 3 (split_if; [intros [= <-]; cbn; lia|]). apply IH.
Qed.

(** on every [extra] the scan and the three TLV parsers terminate within
    the fuel the model gives them (one step per byte), and the payload the
    scan stops at has at least ten bytes and lies inside [extra]. *)
Theorem domain_extra_total `{Crypto} (ind : indeterminate) (extra : bytes) :
  exists r, scan ind extra = Some r /\
    match r with
    | None => True
    | Some op => let '(s, e) := op_bounds op in
        (s + 10 <= e <= length extra)%nat /\ is_Some (parse_registration ind extra s e) /\
        is_Some (parse_update extra s e) /\ is_Some (parse_transfer extra s e)
    end.
Proof.
  destruct (scan_extra_total ind (S (length extra)) extra 0) as [r Hr]; [lia|].
  exists r. split; [done|]. destruct r as [op|]; [|done].
  apply scan_extra_bounds in Hr. destruct (op_bounds op) as [s e]. cbn in Hr.
  split_and!; [lia..| | |]; apply tlv_loop_total; lia.
Qed.

(** *** Concrete instances *)

Definition sample_key : bytes := 2 :: replicate 32 7.
Definition sample_ind : indeterminate := Build_indeterminate [] [] [].

Definition sample_reg : reg_fields :=
  Build_reg_fields (str "myblog..free") 0 sample_key (replicate 32 9)
    [str "wss://relay.one"; []; str "ws://two"].

Lemma transfer_extra_roundtrip_witness :
  exists s e, scan sample_ind ([] ++ build_transfer_extra (str "myblog..free")
    (replicate 32 3) (replicate 64 4) ++ []) = Some (Some (OpXfer s e)).
Proof.
  destruct (transfer_extra_roundtrip sample_ind (str "myblog..free") (replicate 32 3)
    (replicate 64 4) [] []) as (s & e & Hs & _); [apply skip_nil|reflexivity..|by vm_compute|].
  exists s, e. exact Hs.
Defined.

Lemma update_extra_roundtrip_witness :
  exists s e, scan sample_ind ([] ++ build_update_extra (str "myblog..free") (Some sample_key)
    (Some [[]; str "wss://a"; []]) (replicate 64 4) ++ []) = Some (Some (OpUpdate s e)).
Proof.
  destruct (@update_extra_roundtrip sample_crypto sample_ind (str "myblog..free") (replicate 64 4)
    [] [] (Some sample_key) (Some [[]; str "wss://a"; []])) as (s & e & Hs & _).
  - apply skip_nil.
  - intros k [= <-]. by split.
  - by intros set [= <-].
  - reflexivity.
  - by vm_compute.
  - exists s, e. exact Hs.
Defined.

(** ** Reads the program does not control *)

(** The scan compares 13 bytes of a payload that is only known to have ten:
    with "DOMAIN_UPD" at the very end of [extra] its outcome depends on the
    memory behind the vector. *)
Theorem scan_depends_on_memory_behind_extra :
  exists extra ind1 ind2, scan ind1 extra <> scan ind2 extra.
Proof.
  exists (2 :: 10 :: str "DOMAIN_UPD"),
    (Build_indeterminate (str "ATE") [] []), (Build_indeterminate [] [] []).
  by vm_compute.
Qed.

(** A registration without the key and fingerprint TLVs parses successfully,
    and the key and fingerprint are whatever the uninitialised locals held. *)
Theorem registration_fields_uninitialised `{Crypto} (ind : indeterminate) :
  let extra := 2 :: 16 :: str "DOMAIN_REG" ++ [1; 1; 97; 2; 1; 0] in
  parse_registration ind extra 2 18
  = Some (inl (Build_reg_fields [97] 0 (uninit_registrant_key ind)
      (uninit_genesis_fingerprint ind) [[]; []; []])).
Proof. reflexivity. Qed.
