(* ===== verification/GovParams.v ===== *)
(** * Governance parameters ([src/governance/governance_params.{h,cpp}])

    The parameter record, its binary form in the database, the defaults built
    from the compiled-in tables and the look-up helpers. *)

From S2P Require Import Prelude Archive DomainTables DomainName.

(** ** Data *)

Inductive governance_parameter :=
| proposal_submission_fee_param
| voting_quorum_percent_param
| treasury_ratio_param
| execution_delay_param
| voting_period_days_param
| domain_tier_fee_0
| domain_tier_fee_1
| domain_tier_fee_2
| domain_tier_fee_3
| domain_tier_fee_4
| domain_tier_fee_5.

Record governance_params := {
  version : Z;
  proposal_submission_fee : Z;
  voting_quorum_percent : Z;
  tally_committee_size : Z;
  bridge_committee_size : Z;
  threshold_ratio_numerator : Z;
  threshold_ratio_denominator : Z;
  threshold_public_key : bytes;
  tier_fees : list Z;
  treasury_ratio : Z;
  extension_tier_map_keys : list bytes;
  extension_tier_map_vals : list Z;
  premium_labels : list bytes;
  banned_labels : list bytes;
  banned_extensions : list bytes;
}.

(** ** Serialization *)

Definition append_string (s : bytes) : bytes :=
  let len := u16 (zlen s) in le_bytes 2 len ++ take (Z.to_nat len) s.

(** A 16-bit count and the strings. *)
Definition append_strings (l : list bytes) : bytes :=
  le_bytes 2 (u16 (zlen l)) ++ concat (map append_string l).

Definition serialize (gp : governance_params) : bytes :=
  [version gp] ++ le_bytes 8 (proposal_submission_fee gp) ++ le_bytes 8 (voting_quorum_percent gp) ++
  [tally_committee_size gp; bridge_committee_size gp; threshold_ratio_numerator gp;
   threshold_ratio_denominator gp] ++
  concat (map (le_bytes 8) (tier_fees gp)) ++ threshold_public_key gp ++
  le_bytes 2 (u16 (zlen (extension_tier_map_keys gp))) ++
  concat (map (fun kv => append_string kv.1 ++ [kv.2])
    (zip (extension_tier_map_keys gp) (extension_tier_map_vals gp))) ++
  append_strings (premium_labels gp) ++ append_strings (banned_labels gp) ++
  append_strings (banned_extensions gp).

Definition read_string : reader bytes := fun d =>
  '(len, d) ← read_le 2 d; read_raw (Z.to_nat len) d.

Definition read_counted {A} (r : reader A) : reader (list A) := fun d =>
  '(count, d) ← read_le 2 d; read_n r (Z.to_nat count) d.

(** A key and its tier in the extension map. *)
Definition read_ext_entry : reader (bytes * Z) := fun d =>
  '(key, d) ← read_string d; '(val, d) ← read_le 1 d; Some ((key, val), d).

Definition FIXED_SIZE : nat := 1 + 8 + 8 + 1 + 1 + 1 + 1 + 6 * 8 + 32.

(** [governance_params::deserialize(blob, out)]: [None] is [return false];
    [treasury_ratio] keeps the value [out] had. *)
Definition deserialize (blob : bytes) (out : governance_params) : option governance_params :=
  if (length blob <? FIXED_SIZE)%nat then None else
  '(version, d) ← read_le 1 blob;
  if (version <? 1) || (3 <? version) then None else
  '(fee, d) ← read_le 8 d;
  '(quorum, d) ← read_le 8 d;
  '(tally, d) ← read_le 1 d;
  '(bridge, d) ← read_le 1 d;
  '(num, d) ← read_le 1 d;
  '(den, d) ← read_le 1 d;
  '(fees, d) ← read_n (read_le 8) 6 d;
  '(key, d) ← read_raw 32 d;
  '(entries, d) ← read_counted read_ext_entry d;
  let kept := filter (fun kv => kv.2 <> TIER_BANNED) entries in
  '(premium, d) ← read_counted read_string d;
  '(banned, d) ← read_counted read_string d;
  '(banned_ext, d) ← read_counted read_string d;
  if negb (is_empty d) then None else
  Some {| version := version; proposal_submission_fee := fee; voting_quorum_percent := quorum;
          tally_committee_size := tally; bridge_committee_size := bridge;
          threshold_ratio_numerator := num; threshold_ratio_denominator := den;
          threshold_public_key := key; tier_fees := fees; treasury_ratio := treasury_ratio out;
          extension_tier_map_keys := kept.*1; extension_tier_map_vals := kept.*2;
          premium_labels := premium; banned_labels := banned; banned_extensions := banned_ext |}.

(** ** Defaults *)

(** [default_params]: the iteration order of the [std::unordered_map] and
    [std::unordered_set]s it copies is unspecified, so the three sequences are
    arguments; [treasury_ratio] is not assigned and is an argument as well. *)
Definition default_params (exts : list (bytes * Z)) (premium banned : list bytes)
    (uninit_treasury_ratio : Z) : governance_params :=
  let mapped := filter (fun kv => kv.2 <> TIER_BANNED) exts in
  {| version := 2;
     proposal_submission_fee := 10000000;
     voting_quorum_percent := 10;
     tally_committee_size := 16;
     bridge_committee_size := 32;
     threshold_ratio_numerator := 2;
     threshold_ratio_denominator := 3;
     threshold_public_key := replicate 32 0;
     tier_fees := [100000000000; 1000000000000; 10000000000000; 100000000000000;
                   1000000000000000; 10000000000000000];
     treasury_ratio := uninit_treasury_ratio;
     extension_tier_map_keys := mapped.*1;
     extension_tier_map_vals := mapped.*2;
     premium_labels := premium;
     banned_labels := banned;
     banned_extensions := BANNED_EXTENSIONS |}.

(** ** Helpers *)

Fixpoint tier_scan (keys : list bytes) (vals : list Z) (ext : bytes) : Z :=
  match keys, vals with
  | k :: keys, v :: vals => if beq k ext then v else tier_scan keys vals ext
  | _, _ => 5
  end.

Definition gp_get_tier_for_extension (gp : governance_params) (ext : bytes) : Z :=
  tier_scan (extension_tier_map_keys gp) (extension_tier_map_vals gp) ext.

Definition has_extension_tier_mapping (gp : governance_params) (ext : bytes) : bool :=
  existsb (beq ext) (extension_tier_map_keys gp).

Definition gp_is_premium_label (gp : governance_params) (label : bytes) : bool :=
  existsb (beq label) (premium_labels gp).

Definition gp_is_label_banned (gp : governance_params) (label : bytes) : bool :=
  existsb (beq label) (banned_labels gp).

Definition gp_is_extension_banned (gp : governance_params) (ext : bytes) : bool :=
  existsb (beq ext) (banned_extensions gp).

(** ** Well-formed parameters *)

Definition wf_string (s : bytes) : Prop := zlen s < 2 ^ 16 /\ Forall is_byte s.
Definition wf_strings (l : list bytes) : Prop := zlen l < 2 ^ 16 /\ Forall wf_string l.

Record wf_params (gp : governance_params) : Prop := {
  wf_version : 1 <= version gp <= 3;
  wf_fee : proposal_submission_fee gp ∈u 64;
  wf_quorum : voting_quorum_percent gp ∈u 64;
  wf_tally : tally_committee_size gp ∈u 8;
  wf_bridge : bridge_committee_size gp ∈u 8;
  wf_num : threshold_ratio_numerator gp ∈u 8;
  wf_den : threshold_ratio_denominator gp ∈u 8;
  wf_key : length (threshold_public_key gp) = 32%nat /\ Forall is_byte (threshold_public_key gp);
  wf_fees : length (tier_fees gp) = 6%nat /\ Forall (fun f => f ∈u 64) (tier_fees gp);
  wf_ext_keys : wf_strings (extension_tier_map_keys gp);
  wf_ext_vals : length (extension_tier_map_vals gp) = length (extension_tier_map_keys gp) /\
    Forall (fun v => v ∈u 8 /\ v <> TIER_BANNED) (extension_tier_map_vals gp);
  wf_premium : wf_strings (premium_labels gp);
  wf_banned : wf_strings (banned_labels gp);
  wf_banned_ext : wf_strings (banned_extensions gp);
}.

(** ** Readers against writers *)

Section readers.
Context {A : Type}.

Lemma reads_string s : zlen s < 2 ^ 16 -> reads read_string (append_string s) s.
Proof.
  intros Hs rest. unfold append_string, read_string. cbv zeta. pose proof (zlen_nonneg s).
  rewrite u16_id by lia. rewrite to_nat_zlen, firstn_all, <- app_assoc.
  rewrite (reads_le 2 (zlen s)) by (change (256 ^ Z.of_nat 2) with (2 ^ 16); lia).
  cbn [mbind option_bind]. rewrite to_nat_zlen. by apply reads_raw.
Qed.

Lemma reads_counted (r : reader A) (e : A -> bytes) l :
  zlen l < 2 ^ 16 -> Forall (fun x => reads r (e x) x) l ->
  reads (read_counted r) (le_bytes 2 (u16 (zlen l)) ++ concat (map e l)) l.
Proof.
  intros Hl F rest. unfold read_counted. pose proof (zlen_nonneg l).
  rewrite u16_id by lia. rewrite <- app_assoc, (reads_le 2 (zlen l))
    by (change (256 ^ Z.of_nat 2) with (2 ^ 16); lia).
  cbn [mbind option_bind]. rewrite to_nat_zlen. by apply reads_n.
Qed.
End readers.

Lemma reads_strings l : wf_strings l -> reads (read_counted read_string) (append_strings l) l.
Proof.
  intros [Hl F]. apply reads_counted; [done|].
  eapply Forall_impl; [exact F|]. intros s [Hs _]. by apply reads_string.
Qed.

Lemma reads_ext_entry kv :
  zlen kv.1 < 2 ^ 16 -> reads read_ext_entry (append_string kv.1 ++ [kv.2]) kv.
Proof.
  intros Hk rest. unfold read_ext_entry. rewrite <- app_assoc, (reads_string _ Hk).
  cbn [mbind option_bind]. rewrite (reads_byte _ rest). by destruct kv.
Qed.

Lemma reads_ext_map keys vals :
  wf_strings keys -> length vals = length keys ->
  reads (read_counted read_ext_entry)
    (le_bytes 2 (u16 (zlen keys)) ++
     concat (map (fun kv => append_string kv.1 ++ [kv.2]) (zip keys vals))) (zip keys vals).
Proof.
  intros [Hl F] L. replace (zlen keys) with (zlen (zip keys vals)).
  2: { unfold zlen. rewrite length_zip_with. f_equal. lia. }
  apply reads_counted; [unfold zlen in *; rewrite length_zip_with; lia|].
  apply Forall_forall. intros [k v] Hkv%elem_of_zip_l. apply reads_ext_entry.
  rewrite Forall_forall in F. by apply F in Hkv as [? _].
Qed.

Lemma length_serialize gp : wf_params gp -> (FIXED_SIZE <= length (serialize gp))%nat.
Proof.
  intros []. destruct wf_key0 as [Lk _], wf_fees0 as [Lf _].
  assert (length (concat (map (le_bytes 8) (tier_fees gp))) = 48%nat) as L48.
  { destruct (tier_fees gp) as [|? [|? [|? [|? [|? [|? [|]]]]]]]; done. }
  unfold serialize, FIXED_SIZE. repeat (rewrite length_app || rewrite length_le_bytes).
  rewrite L48, Lk. cbn [length]. lia.
Qed.

(** The kept entries of an extension map without banned tiers are all of it. *)
Lemma filter_ext_map keys vals :
  length vals = length keys -> Forall (fun v => v ∈u 8 /\ v <> TIER_BANNED) vals ->
  let kept := filter (fun kv : bytes * Z => kv.2 <> TIER_BANNED) (zip keys vals) in
  kept.*1 = keys /\ kept.*2 = vals.
Proof.
  intros L F kept. assert (kept = zip keys vals) as ->.
  { apply filter_all. apply Forall_forall. intros [k v] Hkv%elem_of_zip_r.
    rewrite Forall_forall in F. by apply F in Hkv as [_ ?]. }
  rewrite fst_zip, snd_zip by lia. done.
Qed.

(** Deserializing what [serialize] wrote gives the parameters back, field
    by field; only [treasury_ratio], which the format does not carry, keeps
    the value of the object read into. *)
Theorem governance_params_roundtrip (gp out : governance_params) (Hgp : wf_params gp) :
  exists gp', deserialize (serialize gp) out = Some gp' /\
    treasury_ratio gp' = treasury_ratio out /\
    (treasury_ratio out = treasury_ratio gp -> gp' = gp).
Proof.
  unfold deserialize. rewrite (proj2 (Nat.ltb_ge _ _)) by (by apply length_serialize).
  destruct Hgp as [Hv Hfee Hq Ht Hb Hn Hd [Lk Bk] [Lf Ff] Hk [Lv Fv] Hp Hbl Hbe].
  assert ((version gp <? 1) || (3 <? version gp) = false) as Ev by lia.
  assert (Forall (fun f => reads (read_le 8) (le_bytes 8 f) f) (tier_fees gp)) as Rf.
  { eapply Forall_impl; [exact Ff|]. intros f Hf. by apply reads_le. }
  apply reads_n in Rf. rewrite Lf in Rf.
  pose proof (filter_ext_map _ _ Lv Fv) as [K1 K2].
  unfold serialize. cbn [app]. read_with (read_byte_cons (version gp)). rewrite Ev.
  read_with (reads_le 8 (proposal_submission_fee gp) Hfee).
  read_with (reads_le 8 (voting_quorum_percent gp) Hq).
  do 4 read_with read_byte_cons.
  read_with Rf.
  read_with (reads_raw 32 _ Lk).
  rewrite app_assoc. read_with (reads_ext_map _ _ Hk Lv).
  read_with (reads_strings _ Hp). read_with (reads_strings _ Hbl).
  rewrite <- (app_nil_r (append_strings (banned_extensions gp))).
  read_with (reads_strings _ Hbe). cbn [is_empty negb]. rewrite K1, K2.
  eexists. split; [reflexivity|]. cbn. split; [done|]. intros ->. by destruct gp.
Qed.

(** ** What an accepted blob satisfies *)

Lemma sound_string : sound read_string wf_string.
Proof.
  intros d s d' B H. unfold read_string in H. bind_inv H.
  apply sound_le in E as [R B']; [|done]. apply sound_raw in H as [[L F] B'']; [|done].
  split; [|done]. split; [|done]. unfold zlen. rewrite L. change (256 ^ Z.of_nat 2) with (2 ^ 16) in R. lia.
Qed.

Lemma sound_ext_entry : sound read_ext_entry (fun kv => wf_string kv.1 /\ kv.2 ∈u 8).
Proof.
  intros d kv d' B H. unfold read_ext_entry in H. bind_inv H. bind_inv H.
  apply sound_string in E as [? B']; [|done]. apply sound_le in E0 as [R B'']; [|done].
  by injection H as <- <-.
Qed.

Lemma sound_counted {A} (r : reader A) P :
  sound r P -> sound (read_counted r) (fun l => zlen l < 2 ^ 16 /\ Forall P l).
Proof.
  intros Hr d l d' B H. unfold read_counted in H. bind_inv H.
  apply sound_le in E as [R B']; [|done]. apply (sound_n r P) in H as [[L F] B'']; [|done..].
  split; [|done]. split; [|done]. unfold zlen. rewrite L. change (256 ^ Z.of_nat 2) with (2 ^ 16) in R. lia.
Qed.

(** Dropping the banned entries keeps the two columns in step. *)
Lemma wf_kept entries :
  zlen entries < 2 ^ 16 /\ Forall (fun kv : bytes * Z => wf_string kv.1 /\ kv.2 ∈u 8) entries ->
  let kept := filter (fun kv => kv.2 <> TIER_BANNED) entries in
  wf_strings kept.*1 /\ length kept.*2 = length kept.*1 /\
  Forall (fun v => v ∈u 8 /\ v <> TIER_BANNED) kept.*2.
Proof.
  intros [L F] kept. assert (length kept <= length entries)%nat by apply length_filter.
  assert (Forall (fun kv => (wf_string kv.1 /\ kv.2 ∈u 8) /\ kv.2 <> TIER_BANNED) kept) as W.
  { apply Forall_forall. intros kv [? Hin]%list_elem_of_filter. rewrite Forall_forall in F. auto. }
  unfold wf_strings. rewrite !length_fmap, !Forall_fmap.
  split_and!; [unfold zlen in *; rewrite length_fmap; lia| |done|];
    (eapply Forall_impl; [exact W|]); intros kv [[? ?] ?]; cbn; auto.
Qed.

(** whatever byte string [deserialize] accepts, the parameters it returns
    are well formed: version 1 to 3, every field within its width, six tier
    fees, the two columns of the extension map of equal length and free of the
    banned marker. *)
Theorem deserialize_wf (blob : bytes) (out gp : governance_params)
  (Hb : Forall is_byte blob) (Hd : deserialize blob out = Some gp) : wf_params gp.
Proof.
  unfold deserialize in Hd. split_if_in Hd; [done|]. bind_inv Hd. split_if_in Hd; [done|].
  repeat bind_inv Hd. split_if_in Hd; [done|]. injection Hd as <-.
  repeat match goal with
  | E : read_le _ ?d = Some _, B : Forall is_byte ?d |- _ => apply sound_le in E as [? ?]; [|exact B]
  | E : read_raw _ ?d = Some _, B : Forall is_byte ?d |- _ => apply sound_raw in E as [? ?]; [|exact B]
  | E : read_n _ _ ?d = Some _, B : Forall is_byte ?d |- _ =>
      apply (sound_n _ _ _ (sound_le 8)) in E as [? ?]; [|exact B]
  | E : read_counted read_string ?d = Some _, B : Forall is_byte ?d |- _ =>
      apply (sound_counted _ _ sound_string) in E as [? ?]; [|exact B]
  | E : read_counted read_ext_entry ?d = Some _, B : Forall is_byte ?d |- _ =>
      apply (sound_counted _ _ sound_ext_entry) in E as [?%wf_kept ?]; [|exact B]
  end.
  destruct_and!. to_prop. change (256 ^ Z.of_nat 1) with (2 ^ 8) in *.
  change (256 ^ Z.of_nat 8) with (2 ^ 64) in *. constructor; cbn; try done; by split.
Qed.

Lemma extends_string : extends read_string.
Proof.
  intros d s d' t H. unfold read_string in *. bind_inv H.
  rewrite (extends_le _ _ _ _ _ E). cbn. by apply extends_raw.
Qed.

Lemma extends_ext_entry : extends read_ext_entry.
Proof.
  intros d s d' t H. unfold read_ext_entry in *. bind_inv H. bind_inv H.
  rewrite (extends_string _ _ _ _ E). cbn [mbind option_bind].
  rewrite (extends_le _ _ _ _ _ E0). cbn. by injection H as <- <-.
Qed.

Lemma extends_counted {A} (r : reader A) : extends r -> extends (read_counted r).
Proof.
  intros Hr d l d' t H. unfold read_counted in *. bind_inv H.
  rewrite (extends_le _ _ _ _ _ E). cbn. by apply extends_n.
Qed.

(** The format is prefix free: no accepted blob stays acceptable with
    bytes appended, so a blob with trailing garbage is rejected. *)
Theorem deserialize_rejects_trailing (blob t : bytes) (out gp : governance_params)
  (Hd : deserialize blob out = Some gp) (Ht : t <> []) : deserialize (blob ++ t) out = None.
Proof.
  unfold deserialize in *. split_if_in Hd; [done|]. to_prop.
  rewrite (proj2 (Nat.ltb_ge (length (blob ++ t)) _)) by (rewrite length_app; lia).
  bind_inv Hd. rewrite (extends_le _ _ _ _ t E0). cbn [mbind option_bind].
  split_if_in Hd; [done|]. repeat bind_inv Hd.
  repeat match goal with
  | E : ?r ?d = Some _ |- context [?r (?d ++ t)] =>
      let X := fresh in
      assert (extends r) as X by auto using extends_le, extends_raw, extends_n, extends_counted,
        extends_string, extends_ext_entry;
      apply (X _ _ _ t) in E; rewrite E; clear X E; cbn [mbind option_bind]
  end.
  split_if_in Hd; [done|]. to_prop.
  match goal with E : is_empty ?d = true |- _ => apply is_empty_true in E as -> end.
  by destruct t.
Qed.

(** ** The defaults agree with the compiled-in tables *)

Lemma existsb_beq_elem x l : existsb (beq x) l = bool_decide (x ∈ l).
Proof.
  apply eq_bool_prop_intro. rewrite bool_decide_spec, Is_true_true, existsb_Exists, Exists_exists.
  setoid_rewrite beq_true. split; [by intros (y & ? & ->)|eauto].
Qed.

Lemma tier_scan_elem (l : list (bytes * Z)) k v :
  NoDup l.*1 -> (k, v) ∈ l -> tier_scan l.*1 l.*2 k = v.
Proof.
  induction l as [|[k' v'] l IH]; [by intros _ ?%not_elem_of_nil|].
  intros [Hn Hd]%NoDup_cons. cbn. rewrite elem_of_cons.
  destruct (beq k' k) eqn:E.
  - apply beq_true in E as ->. intros [[= ->]|Hin]; [done|].
    exfalso. apply Hn. by apply (list_elem_of_fmap_2 fst) in Hin.
  - apply beq_false in E. intros [[= -> ->]|Hin]; [done|auto].
Qed.

(** The entries of [m] that are not banned, in any order. *)
Lemma mapped_elem (m : gmap bytes Z) exts k v :
  exts ≡ₚ map_to_list m ->
  (k, v) ∈ filter (fun kv : bytes * Z => kv.2 <> TIER_BANNED) exts <->
  m !! k = Some v /\ v <> TIER_BANNED.
Proof.
  intros P. rewrite list_elem_of_filter, P, elem_of_map_to_list. cbn. tauto.
Qed.

Lemma mapped_NoDup (m : gmap bytes Z) exts :
  exts ≡ₚ map_to_list m -> NoDup (filter (fun kv : bytes * Z => kv.2 <> TIER_BANNED) exts).*1.
Proof.
  intros P. assert (NoDup exts.*1) as N by (rewrite P; apply NoDup_fst_map_to_list).
  clear P. induction exts as [|[k v] l IH]; [constructor|].
  cbn in N. apply NoDup_cons in N as [Hn N]. rewrite filter_cons. case_decide; [|auto].
  cbn. constructor; [|auto]. contradict Hn.
  apply list_elem_of_fmap in Hn as (kv & -> & [_ Hin]%list_elem_of_filter).
  by apply (list_elem_of_fmap_2 fst).
Qed.

Lemma perm_set_has (S : gset bytes) l s : l ≡ₚ elements S -> bool_decide (s ∈ l) = set_has s S.
Proof. intros P. unfold set_has. apply bool_decide_ext. by rewrite P, elem_of_elements. Qed.

Section defaults.
Context (exts : list (bytes * Z)) (premium banned : list bytes) (ratio : Z).
Context (Hexts : exts ≡ₚ map_to_list get_extension_tier_map).
Context (Hprem : premium ≡ₚ elements get_premium_labels).
Context (Hban : banned ≡ₚ elements get_banned_labels).

Lemma default_label_banned s :
  gp_is_label_banned (default_params exts premium banned ratio) s = is_label_banned s.
Proof.
  unfold gp_is_label_banned, is_label_banned. cbn [banned_labels default_params].
  rewrite existsb_beq_elem. by rewrite (perm_set_has _ _ _ Hban).
Qed.

Lemma default_premium_label s :
  gp_is_premium_label (default_params exts premium banned ratio) s = is_premium_label s.
Proof.
  unfold gp_is_premium_label, is_premium_label, get_label_tier. cbn [premium_labels default_params].
  rewrite existsb_beq_elem, (perm_set_has _ _ _ Hprem). by destruct (set_has s get_premium_labels).
Qed.

Lemma default_extension_banned s :
  gp_is_extension_banned (default_params exts premium banned ratio) s = is_extension_locked s.
Proof.
  unfold gp_is_extension_banned. cbn [banned_extensions default_params].
  by rewrite existsb_beq_elem, is_extension_locked_banned.
Qed.

Lemma default_mapping s t :
  get_extension_tier_map !! s = Some t -> t <> TIER_BANNED ->
  has_extension_tier_mapping (default_params exts premium banned ratio) s = true /\
  gp_get_tier_for_extension (default_params exts premium banned ratio) s = t.
Proof.
  intros Ht Hb. unfold has_extension_tier_mapping, gp_get_tier_for_extension.
  cbn [extension_tier_map_keys extension_tier_map_vals default_params].
  pose proof (proj2 (mapped_elem get_extension_tier_map exts s t Hexts) (conj Ht Hb)) as M.
  rewrite existsb_beq_elem, bool_decide_eq_true. split.
  - exact (list_elem_of_fmap_2 fst _ _ M).
  - exact (tier_scan_elem _ _ _ (mapped_NoDup _ _ Hexts) M).
Qed.

Lemma default_mapping_inv s :
  has_extension_tier_mapping (default_params exts premium banned ratio) s = true ->
  exists t, get_extension_tier_map !! s = Some t /\ t <> TIER_BANNED.
Proof.
  unfold has_extension_tier_mapping. cbn [extension_tier_map_keys default_params].
  rewrite existsb_beq_elem, bool_decide_eq_true. intros ([k v] & -> & Hin)%list_elem_of_fmap.
  exists v. exact (proj1 (mapped_elem get_extension_tier_map exts k v Hexts) Hin).
Qed.

(** Whatever order the hash containers are iterated in, the default
    parameters answer every query as the compiled-in tables do: banned and
    premium labels, banned extensions, and the tier of every extension that is
    mapped; an extension is mapped exactly when some table lists it and it is
    not banned. *)
Theorem default_params_agree (s : bytes) :
  let gp := default_params exts premium banned ratio in
  gp_is_label_banned gp s = is_label_banned s /\
  gp_is_premium_label gp s = is_premium_label s /\
  gp_is_extension_banned gp s = is_extension_locked s /\
  (has_extension_tier_mapping gp s = true <->
    exists t, get_extension_tier_map !! s = Some t /\ t <> TIER_BANNED) /\
  (has_extension_tier_mapping gp s = true ->
    gp_get_tier_for_extension gp s = get_tier_for_extension s).
Proof.
  cbv zeta. split_and!; [apply default_label_banned|apply default_premium_label|
    apply default_extension_banned| |].
  - split; [apply default_mapping_inv|]. intros (t & Ht & Hb). exact (proj1 (default_mapping s t Ht Hb)).
  - intros (t & Ht & Hb)%default_mapping_inv. rewrite (proj2 (default_mapping s t Ht Hb)).
    unfold get_tier_for_extension. by rewrite Ht.
Qed.
End defaults.

Lemma default_params_agree_witness :
  gp_is_label_banned (default_params (map_to_list get_extension_tier_map)
    (elements get_premium_labels) (elements get_banned_labels) 0) (str "hello")
  = is_label_banned (str "hello").
Proof.
  exact (proj1 (default_params_agree _ _ _ 0 (Permutation_refl _) (Permutation_refl _)
    (Permutation_refl _) (str "hello"))).
Defined.

(** A well-formed record, for the concrete instances. *)
Definition sample_params : governance_params :=
  default_params [(str "free", 0); (str "io", 1); (str "onion", 255)] [str "google"; str "nasa"]
    [str "veilroot"] 20.

Lemma sample_params_wf : wf_params sample_params.
Proof.
  constructor; cbn; unfold wf_strings, wf_string; try lia;
    repeat split; repeat constructor; try done; try lia; vm_compute; try done; lia.
Qed.

Lemma governance_params_roundtrip_witness :
  deserialize (serialize sample_params) sample_params = Some sample_params.
Proof.
  destruct (governance_params_roundtrip sample_params sample_params sample_params_wf)
    as (gp & H & _ & E). by rewrite H, E.
Defined.

Lemma deserialize_wf_witness : wf_params sample_params.
Proof.
  apply (deserialize_wf (serialize sample_params) sample_params).
  - apply (bool_decide_unpack _). vm_compute. exact I.
  - vm_compute. reflexivity.
Defined.

Lemma deserialize_rejects_trailing_witness :
  deserialize (serialize sample_params ++ [0]) sample_params = None.
Proof.
  apply (deserialize_rejects_trailing _ _ _ sample_params); [vm_compute; reflexivity|done].
Defined.
