(* ===== verification/GovStore.v ===== *)
(** * Governance policy tables ([src/blockchain_db])

    The DAO's policies are rows of LMDB tables opened with
    [MDB_INTEGERKEY | MDB_DUPSORT]: the key is the activation height and rows
    of one height are ordered by the bytes of the record.  A table is the list
    of its rows in cursor order; a typeclass says what the generic code needs
    of a row, and each record type of [blockchain_db.h] is an instance. *)

From Stdlib Require Import Sorted.
From S2P Require Import Prelude GovParams.

(** ** Rows *)

Class PolicyRow (R K : Type) := {
  pr_matches : R -> K -> bool;   (* the row is about this key *)
  pr_activation : R -> Z;
  pr_bytes : R -> bytes;         (* the record in memory *)
}.

Record parameter_record := {
  prm_parameter : Z;
  prm_pad : bytes;  (* the seven bytes of padding after the one-byte enum *)
  prm_value : Z;
  prm_activation_height : Z;
  prm_proposal_height : Z;
  prm_proposal_id : hash;
}.

Record extension_policy_record := {
  ext_extension : bytes;  (* char[16] *)
  ext_tier : Z;
  ext_activation_height : Z;
  ext_proposal_height : Z;
  ext_proposal_id : hash;
}.

(** [premium_label_policy_record], [banned_label_policy_record],
    [banned_extension_policy_record] and [exact_domain_ban_policy_record]
    share this layout: a C string in a buffer of [n] bytes and a flag. *)
Record flag_policy_record (n : nat) := {
  fl_term : bytes;
  fl_flag : bool;
  fl_activation_height : Z;
  fl_proposal_height : Z;
  fl_proposal_id : hash;
}.
Arguments fl_term {n}.
Arguments fl_flag {n}.
Arguments fl_activation_height {n}.
Arguments fl_proposal_height {n}.
Arguments fl_proposal_id {n}.

Definition premium_label_policy_record := flag_policy_record 64.
Definition banned_label_policy_record := flag_policy_record 64.
Definition banned_extension_policy_record := flag_policy_record 16.
Definition exact_domain_ban_policy_record := flag_policy_record 64.

Record exact_domain_tier_policy_record := {
  edt_domain : bytes;  (* char[64] *)
  edt_has_tier_override : bool;
  edt_tier : Z;
  edt_activation_height : Z;
  edt_proposal_height : Z;
  edt_proposal_id : hash;
}.

Record pending_domain_policy_record := {
  pend_domain : bytes;  (* char[64] *)
  pend_proposal_id : hash;
  pend_voting_end_height : Z;
  pend_action : Z;
  pend_enable : bool;
  pend_tier : Z;
  pend_submission_height : Z;
}.


(** The three trailing fields every policy record ends with. *)
Definition tail_bytes (activation proposal_height : Z) (id : hash) : bytes :=
  le_bytes 8 activation ++ le_bytes 8 proposal_height ++ id.

#[export] Instance parameter_row : PolicyRow parameter_record Z := {|
  pr_matches r k := prm_parameter r =? k;
  pr_activation := prm_activation_height;
  pr_bytes r := [prm_parameter r] ++ prm_pad r ++ le_bytes 8 (prm_value r) ++
    tail_bytes (prm_activation_height r) (prm_proposal_height r) (prm_proposal_id r);
|}.

#[export] Instance extension_row : PolicyRow extension_policy_record bytes := {|
  pr_matches r k := strncmp_eq 16 (ext_extension r) k;
  pr_activation := ext_activation_height;
  pr_bytes r := ext_extension r ++ [ext_tier r] ++ replicate 7 0 ++
    tail_bytes (ext_activation_height r) (ext_proposal_height r) (ext_proposal_id r);
|}.

#[export] Instance flag_row n : PolicyRow (flag_policy_record n) bytes := {|
  pr_matches r k := strncmp_eq n (fl_term r) k;
  pr_activation := fl_activation_height;
  pr_bytes r := fl_term r ++ [bool_byte (fl_flag r)] ++ replicate 7 0 ++
    tail_bytes (fl_activation_height r) (fl_proposal_height r) (fl_proposal_id r);
|}.

#[export] Instance exact_tier_row : PolicyRow exact_domain_tier_policy_record bytes := {|
  pr_matches r k := strncmp_eq 64 (edt_domain r) k;
  pr_activation := edt_activation_height;
  pr_bytes r := edt_domain r ++ [bool_byte (edt_has_tier_override r); edt_tier r] ++
    replicate 6 0 ++
    tail_bytes (edt_activation_height r) (edt_proposal_height r) (edt_proposal_id r);
|}.

(** Records of the right size whose bytes agree are about the same keys. *)
Class PolicyRowOk (R K : Type) `{PolicyRow R K} := {
  pr_sized : R -> Prop;
  pr_bytes_matches : forall x y k, pr_sized x -> pr_sized y -> pr_bytes x = pr_bytes y ->
    pr_matches x k = pr_matches y k;
}.

#[export] Program Instance parameter_row_ok : PolicyRowOk parameter_record Z :=
  {| pr_sized r := length (prm_pad r) = 7%nat |}.
Next Obligation. intros x y k _ _ E. cbn in *. congruence. Qed.

#[export] Program Instance extension_row_ok : PolicyRowOk extension_policy_record bytes :=
  {| pr_sized r := length (ext_extension r) = 16%nat |}.
Next Obligation. intros x y k Hx Hy E. cbn in *. apply app_inj_1 in E as [-> _]; [done|congruence]. Qed.

#[export] Program Instance flag_row_ok n : PolicyRowOk (flag_policy_record n) bytes :=
  {| pr_sized r := length (fl_term r) = n |}.
Next Obligation. intros n x y k Hx Hy E. cbn in *. apply app_inj_1 in E as [-> _]; [done|congruence]. Qed.

#[export] Program Instance exact_tier_row_ok : PolicyRowOk exact_domain_tier_policy_record bytes :=
  {| pr_sized r := length (edt_domain r) = 64%nat |}.
Next Obligation. intros x y k Hx Hy E. cbn in *. apply app_inj_1 in E as [-> _]; [done|congruence]. Qed.

(** ** Tables *)

Section table.
Context {R K : Type} `{PolicyRow R K}.
Implicit Types (t : list R) (r : R).

(** Cursor order: the integer key, then [memcmp] of the data. *)
Definition row_leb (x y : R) : bool :=
  (pr_activation x <? pr_activation y) ||
  ((pr_activation x =? pr_activation y) && bytes_leb (pr_bytes x) (pr_bytes y)).

Definition same_row (x y : R) : bool :=
  (pr_activation x =? pr_activation y) && beq (pr_bytes x) (pr_bytes y).

Fixpoint insert_row r t : list R :=
  match t with
  | [] => [r]
  | x :: t' => if row_leb r x then r :: t else x :: insert_row r t'
  end.

(** [mdb_cursor_put(.., MDB_NODUPDATA)]: [None] is the exception thrown when
    the very record is already there. *)
Definition add_record t r : option (list R) :=
  if existsb (same_row r) t then None else Some (insert_row r t).

(** One step of the scan of [get_*_policy]: the best row so far. *)
Definition scan_step (k : K) (height : Z) (best : option R) (candidate : R) : option R :=
  let best_activation := match best with Some x => pr_activation x | None => 0 end in
  if pr_matches candidate k && (pr_activation candidate <=? height) &&
     (best_activation <=? pr_activation candidate)
  then Some candidate else best.

(** [get_*_policy(key, height, rec)] and [get_parameter_record]. *)
Definition get_policy t (k : K) (height : Z) : option R := fold_left (scan_step k height) t None.

(** [remove_*_records_by_height_in_txn] *)
Definition remove_by_height t (height : Z) : list R :=
  filter (fun r => pr_activation r <> height) t.

(** [remove_*_records_by_domain_in_txn] *)
Definition remove_by_key t (k : K) : list R := filter (fun r => pr_matches r k = false) t.

(** [get_parameters_ready]: the rows of one height. *)
Definition get_ready t (height : Z) : list R := filter (fun r => pr_activation r = height) t.

End table.

(** ** Proposals *)

Definition PROPOSAL_STATUS_ACTIVE : Z := 0.
Definition PROPOSAL_STATUS_PASSED : Z := 1.
Definition PROPOSAL_STATUS_REJECTED : Z := 2.
Definition PROPOSAL_STATUS_EXECUTED : Z := 3.
Definition PROPOSAL_STATUS_FAILED_EXECUTION : Z := 4.
Definition PROPOSAL_STATUS_EXPIRED : Z := 5.

Record proposal_record := {
  proposal_id : hash;
  ptype : Z;  (* 0 = grant, 1 = parameter update, 2 = bridge configuration *)
  title : bytes;
  description : bytes;
  recipient : bytes;
  amount : Z;
  voting_period_days : Z;
  submission_height : Z;
  voting_end_height : Z;
  tally_key_id : hash;
  submission_tx_hash : hash;
  executed : bool;
  status : Z;
  status_height : Z;
  recipient_view_public_key : bytes;
  is_subaddress : bool;
}.

Record proposal_execution_record := {
  per_proposal_id : hash;
  per_execution_height : Z;
  per_execution_tx_hash : hash;
  per_pre_execution_status_height : Z;
}.

(** ** The tables together *)

Record policy_db := {
  governance_parameters : list parameter_record;
  extension_policy : list extension_policy_record;
  premium_label_policy : list premium_label_policy_record;
  banned_label_policy : list banned_label_policy_record;
  banned_extension_policy : list banned_extension_policy_record;
  exact_domain_ban_policy : list exact_domain_ban_policy_record;
  exact_domain_tier_policy : list exact_domain_tier_policy_record;
  pending_domain_policy : gmap bytes pending_domain_policy_record;  (* by domain *)
  proposals : gmap hash proposal_record;
  proposal_data : gmap hash bytes;
  proposal_executions : gmap hash proposal_execution_record;
}.

Definition empty_policy_db : policy_db :=
  {| governance_parameters := []; extension_policy := []; premium_label_policy := [];
     banned_label_policy := []; banned_extension_policy := []; exact_domain_ban_policy := [];
     exact_domain_tier_policy := []; pending_domain_policy := ∅; proposals := ∅;
     proposal_data := ∅; proposal_executions := ∅ |}.

(** *** Replacing one table *)

Definition set_governance_parameters (db : policy_db) (t : list parameter_record) : policy_db :=
  {| governance_parameters := t; extension_policy := extension_policy db;
     premium_label_policy := premium_label_policy db;
     banned_label_policy := banned_label_policy db;
     banned_extension_policy := banned_extension_policy db;
     exact_domain_ban_policy := exact_domain_ban_policy db;
     exact_domain_tier_policy := exact_domain_tier_policy db;
     pending_domain_policy := pending_domain_policy db; proposals := proposals db;
     proposal_data := proposal_data db; proposal_executions := proposal_executions db |}.

Definition set_extension_policy (db : policy_db) (t : list extension_policy_record) : policy_db :=
  {| governance_parameters := governance_parameters db; extension_policy := t;
     premium_label_policy := premium_label_policy db;
     banned_label_policy := banned_label_policy db;
     banned_extension_policy := banned_extension_policy db;
     exact_domain_ban_policy := exact_domain_ban_policy db;
     exact_domain_tier_policy := exact_domain_tier_policy db;
     pending_domain_policy := pending_domain_policy db; proposals := proposals db;
     proposal_data := proposal_data db; proposal_executions := proposal_executions db |}.

Definition set_premium_label_policy (db : policy_db) (t : list premium_label_policy_record) : policy_db :=
  {| governance_parameters := governance_parameters db; extension_policy := extension_policy db;
     premium_label_policy := t; banned_label_policy := banned_label_policy db;
     banned_extension_policy := banned_extension_policy db;
     exact_domain_ban_policy := exact_domain_ban_policy db;
     exact_domain_tier_policy := exact_domain_tier_policy db;
     pending_domain_policy := pending_domain_policy db; proposals := proposals db;
     proposal_data := proposal_data db; proposal_executions := proposal_executions db |}.

Definition set_banned_label_policy (db : policy_db) (t : list banned_label_policy_record) : policy_db :=
  {| governance_parameters := governance_parameters db; extension_policy := extension_policy db;
     premium_label_policy := premium_label_policy db; banned_label_policy := t;
     banned_extension_policy := banned_extension_policy db;
     exact_domain_ban_policy := exact_domain_ban_policy db;
     exact_domain_tier_policy := exact_domain_tier_policy db;
     pending_domain_policy := pending_domain_policy db; proposals := proposals db;
     proposal_data := proposal_data db; proposal_executions := proposal_executions db |}.

Definition set_banned_extension_policy (db : policy_db) (t : list banned_extension_policy_record) : policy_db :=
  {| governance_parameters := governance_parameters db; extension_policy := extension_policy db;
     premium_label_policy := premium_label_policy db;
     banned_label_policy := banned_label_policy db; banned_extension_policy := t;
     exact_domain_ban_policy := exact_domain_ban_policy db;
     exact_domain_tier_policy := exact_domain_tier_policy db;
     pending_domain_policy := pending_domain_policy db; proposals := proposals db;
     proposal_data := proposal_data db; proposal_executions := proposal_executions db |}.

Definition set_exact_domain_ban_policy (db : policy_db) (t : list exact_domain_ban_policy_record) : policy_db :=
  {| governance_parameters := governance_parameters db; extension_policy := extension_policy db;
     premium_label_policy := premium_label_policy db;
     banned_label_policy := banned_label_policy db;
     banned_extension_policy := banned_extension_policy db; exact_domain_ban_policy := t;
     exact_domain_tier_policy := exact_domain_tier_policy db;
     pending_domain_policy := pending_domain_policy db; proposals := proposals db;
     proposal_data := proposal_data db; proposal_executions := proposal_executions db |}.

Definition set_exact_domain_tier_policy (db : policy_db) (t : list exact_domain_tier_policy_record) : policy_db :=
  {| governance_parameters := governance_parameters db; extension_policy := extension_policy db;
     premium_label_policy := premium_label_policy db;
     banned_label_policy := banned_label_policy db;
     banned_extension_policy := banned_extension_policy db;
     exact_domain_ban_policy := exact_domain_ban_policy db; exact_domain_tier_policy := t;
     pending_domain_policy := pending_domain_policy db; proposals := proposals db;
     proposal_data := proposal_data db; proposal_executions := proposal_executions db |}.

Definition set_pending_domain_policy (db : policy_db) (t : gmap bytes pending_domain_policy_record) : policy_db :=
  {| governance_parameters := governance_parameters db; extension_policy := extension_policy db;
     premium_label_policy := premium_label_policy db;
     banned_label_policy := banned_label_policy db;
     banned_extension_policy := banned_extension_policy db;
     exact_domain_ban_policy := exact_domain_ban_policy db;
     exact_domain_tier_policy := exact_domain_tier_policy db; pending_domain_policy := t;
     proposals := proposals db; proposal_data := proposal_data db;
     proposal_executions := proposal_executions db |}.

Definition set_proposals (db : policy_db) (t : gmap hash proposal_record) : policy_db :=
  {| governance_parameters := governance_parameters db; extension_policy := extension_policy db;
     premium_label_policy := premium_label_policy db;
     banned_label_policy := banned_label_policy db;
     banned_extension_policy := banned_extension_policy db;
     exact_domain_ban_policy := exact_domain_ban_policy db;
     exact_domain_tier_policy := exact_domain_tier_policy db;
     pending_domain_policy := pending_domain_policy db; proposals := t;
     proposal_data := proposal_data db; proposal_executions := proposal_executions db |}.

Definition set_proposal_executions (db : policy_db) (t : gmap hash proposal_execution_record) : policy_db :=
  {| governance_parameters := governance_parameters db; extension_policy := extension_policy db;
     premium_label_policy := premium_label_policy db;
     banned_label_policy := banned_label_policy db;
     banned_extension_policy := banned_extension_policy db;
     exact_domain_ban_policy := exact_domain_ban_policy db;
     exact_domain_tier_policy := exact_domain_tier_policy db;
     pending_domain_policy := pending_domain_policy db; proposals := proposals db;
     proposal_data := proposal_data db; proposal_executions := t |}.

(** ** The named accessors of [BlockchainLMDB]

    The read functions have a copy for reads inside the batch transaction and
    one for read-only transactions, with the same scan; the write functions
    likewise. *)

Definition get_parameter_record (db : policy_db) (key : Z) (height : Z) : option parameter_record :=
  get_policy (governance_parameters db) key height.

Definition add_parameter_record (db : policy_db) (rec : parameter_record) : option policy_db :=
  set_governance_parameters db <$> add_record (governance_parameters db) rec.

Definition remove_parameter_records_by_height (db : policy_db) (height : Z) : policy_db :=
  set_governance_parameters db (remove_by_height (governance_parameters db) height).

Definition get_extension_policy (db : policy_db) (key : bytes) (height : Z) : option extension_policy_record :=
  get_policy (extension_policy db) key height.

Definition add_extension_policy_record (db : policy_db) (rec : extension_policy_record) : option policy_db :=
  set_extension_policy db <$> add_record (extension_policy db) rec.

Definition remove_extension_policy_records_by_height (db : policy_db) (height : Z) : policy_db :=
  set_extension_policy db (remove_by_height (extension_policy db) height).

Definition get_premium_label_policy (db : policy_db) (key : bytes) (height : Z) : option premium_label_policy_record :=
  get_policy (premium_label_policy db) key height.

Definition add_premium_label_policy_record (db : policy_db) (rec : premium_label_policy_record) : option policy_db :=
  set_premium_label_policy db <$> add_record (premium_label_policy db) rec.

Definition remove_premium_label_policy_records_by_height (db : policy_db) (height : Z) : policy_db :=
  set_premium_label_policy db (remove_by_height (premium_label_policy db) height).

Definition get_banned_label_policy (db : policy_db) (key : bytes) (height : Z) : option banned_label_policy_record :=
  get_policy (banned_label_policy db) key height.

Definition add_banned_label_policy_record (db : policy_db) (rec : banned_label_policy_record) : option policy_db :=
  set_banned_label_policy db <$> add_record (banned_label_policy db) rec.

Definition remove_banned_label_policy_records_by_height (db : policy_db) (height : Z) : policy_db :=
  set_banned_label_policy db (remove_by_height (banned_label_policy db) height).

Definition get_banned_extension_policy (db : policy_db) (key : bytes) (height : Z) : option banned_extension_policy_record :=
  get_policy (banned_extension_policy db) key height.

Definition add_banned_extension_policy_record (db : policy_db) (rec : banned_extension_policy_record) : option policy_db :=
  set_banned_extension_policy db <$> add_record (banned_extension_policy db) rec.

Definition remove_banned_extension_policy_records_by_height (db : policy_db) (height : Z) : policy_db :=
  set_banned_extension_policy db (remove_by_height (banned_extension_policy db) height).

Definition get_exact_domain_ban_policy (db : policy_db) (key : bytes) (height : Z) : option exact_domain_ban_policy_record :=
  get_policy (exact_domain_ban_policy db) key height.

Definition add_exact_domain_ban_policy_record (db : policy_db) (rec : exact_domain_ban_policy_record) : option policy_db :=
  set_exact_domain_ban_policy db <$> add_record (exact_domain_ban_policy db) rec.

Definition remove_exact_domain_ban_policy_records_by_height (db : policy_db) (height : Z) : policy_db :=
  set_exact_domain_ban_policy db (remove_by_height (exact_domain_ban_policy db) height).

Definition get_exact_domain_tier_policy (db : policy_db) (key : bytes) (height : Z) : option exact_domain_tier_policy_record :=
  get_policy (exact_domain_tier_policy db) key height.

Definition add_exact_domain_tier_policy_record (db : policy_db) (rec : exact_domain_tier_policy_record) : option policy_db :=
  set_exact_domain_tier_policy db <$> add_record (exact_domain_tier_policy db) rec.

Definition remove_exact_domain_tier_policy_records_by_height (db : policy_db) (height : Z) : policy_db :=
  set_exact_domain_tier_policy db (remove_by_height (exact_domain_tier_policy db) height).

Definition remove_exact_domain_ban_policy_records_by_domain (db : policy_db) (domain : bytes) : policy_db :=
  set_exact_domain_ban_policy db (remove_by_key (exact_domain_ban_policy db) domain).

Definition remove_exact_domain_tier_policy_records_by_domain (db : policy_db) (domain : bytes) : policy_db :=
  set_exact_domain_tier_policy db (remove_by_key (exact_domain_tier_policy db) domain).

Definition get_parameter (db : policy_db) (param height : Z) : option Z :=
  prm_value <$> get_parameter_record db param height.

(** [add_pending_domain_policy_record]: [MDB_NOOVERWRITE], an exception when
    the domain already has one. *)
Definition add_pending_domain_policy_record (m : gmap bytes pending_domain_policy_record)
    (rec : pending_domain_policy_record) : option (gmap bytes pending_domain_policy_record) :=
  match m !! cstr (pend_domain rec) with
  | Some _ => None
  | None => Some (<[cstr (pend_domain rec) := rec]> m)
  end.

Definition get_pending_domain_policy (m : gmap bytes pending_domain_policy_record) (domain : bytes) :=
  m !! cstr domain.

Definition remove_pending_domain_policy_by_domain (m : gmap bytes pending_domain_policy_record)
    (domain : bytes) := delete (cstr domain) m.

Definition remove_pending_domain_policy_by_proposal (m : gmap bytes pending_domain_policy_record)
    (id : hash) := filter (fun kv => pend_proposal_id kv.2 <> id) m.

(** ** Correctness of the tables *)

Section table_theory.
Context {R K : Type} `{PolicyRow R K}.
Implicit Types (t : list R) (r x y : R).

Lemma row_leb_refl x : row_leb x x = true.
Proof. unfold row_leb. rewrite bytes_leb_refl. lia. Qed.

Lemma row_leb_total x y : row_leb x y = true \/ row_leb y x = true.
Proof. unfold row_leb. destruct (bytes_leb_total (pr_bytes x) (pr_bytes y)) as [->| ->]; lia. Qed.

Lemma row_leb_trans x y z : row_leb x y = true -> row_leb y z = true -> row_leb x z = true.
Proof.
  unfold row_leb. intros. destruct (bytes_leb (pr_bytes x) (pr_bytes y)) eqn:E1,
    (bytes_leb (pr_bytes y) (pr_bytes z)) eqn:E2; try lia.
  rewrite (bytes_leb_trans _ _ _ E1 E2). lia.
Qed.

Lemma row_leb_activation x y : row_leb x y = true -> pr_activation x <= pr_activation y.
Proof. unfold row_leb. lia. Qed.

(** The invariant of a table: rows in cursor order, heights not negative. *)
Definition wf_table t : Prop :=
  StronglySorted (fun x y => row_leb x y = true) t /\ Forall (fun r => 0 <= pr_activation r) t.

Lemma insert_row_elem r t x : x ∈ insert_row r t <-> x = r \/ x ∈ t.
Proof.
  induction t as [|y t IH]; cbn; [by rewrite list_elem_of_singleton, elem_of_nil; tauto|].
  split_if; rewrite !elem_of_cons, ?IH; tauto.
Qed.

Lemma insert_row_wf r t : 0 <= pr_activation r -> wf_table t -> wf_table (insert_row r t).
Proof.
  intros Hr [S F]. split.
  - clear F. induction S as [|y t S IH Fy]; cbn; [by repeat constructor|].
    split_if.
    + constructor; [by constructor|]. constructor; [done|].
      eapply Forall_impl; [exact Fy|]. intros z Hz. by eapply row_leb_trans.
    + constructor; [done|]. apply Forall_forall. intros z [->|Hz]%insert_row_elem.
      * destruct (row_leb_total y r); [done|congruence].
      * rewrite Forall_forall in Fy. auto.
  - apply Forall_forall. intros z [->|Hz]%insert_row_elem; [done|].
    rewrite Forall_forall in F. auto.
Qed.

Lemma filter_wf (P : R -> Prop) `{forall x, Decision (P x)} t : wf_table t -> wf_table (filter P t).
Proof.
  intros [S F]. split.
  - clear F. induction S as [|y t S IH Fy]; [constructor|]. rewrite filter_cons. case_decide; [|done].
    constructor; [done|]. by apply Forall_filter_list.
  - by apply Forall_filter_list.
Qed.

(** In force for [k] at [height]. *)
Definition applies (k : K) (height : Z) r : Prop :=
  pr_matches r k = true /\ pr_activation r <= height.

#[export] Instance applies_dec k height r : Decision (applies k height r).
Proof. unfold applies. apply _. Defined.

Lemma fold_scan_step k height t best :
  StronglySorted (fun x y => row_leb x y = true) t ->
  Forall (fun r => match best with Some x => pr_activation x | None => 0 end <= pr_activation r) t ->
  fold_left (scan_step k height) t best
  = match last (filter (applies k height) t) with Some r => Some r | None => best end.
Proof.
  intros S. revert best. induction S as [|y t S IH Fy]; intros best F; cbn [fold_left]; [done|].
  apply Forall_cons in F as [Hy F]. unfold scan_step at 2.
  rewrite (proj2 (Z.leb_le _ _) Hy), andb_true_r, filter_cons.
  destruct (decide (applies k height y)) as [[M L]|N].
  - rewrite M, (proj2 (Z.leb_le _ _) L). cbn [andb]. rewrite IH.
    + rewrite last_cons. by destruct (last _).
    + eapply Forall_impl; [exact Fy|]. intros z. apply row_leb_activation.
  - assert (pr_matches y k && (pr_activation y <=? height) = false) as ->.
    { unfold applies in N. destruct (pr_matches y k); [|done]. cbn. apply Z.leb_gt.
      apply Z.nle_gt. tauto. }
    by apply IH.
Qed.

(** The scan returns the last row in force. *)
Lemma get_policy_last t k height :
  wf_table t -> get_policy t k height = last (filter (applies k height) t).
Proof.
  intros [S F]. unfold get_policy. rewrite fold_scan_step by done. by destruct (last _).
Qed.

Lemma filter_insert_row (P : R -> Prop) `{forall x, Decision (P x)} r t :
  ~ P r -> filter P (insert_row r t) = filter P t.
Proof.
  intros N. induction t as [|y t IH]; cbn [insert_row]; [by rewrite filter_cons_False|].
  split_if; [by rewrite filter_cons_False|]. rewrite !filter_cons. by rewrite IH.
Qed.

Lemma last_sorted_max t r :
  StronglySorted (fun x y => row_leb x y = true) t -> last t = Some r ->
  forall x, x ∈ t -> row_leb x r = true.
Proof.
  induction 1 as [|y t S IH Fy]; [done|]. rewrite last_cons.
  destruct (last t) as [z|] eqn:L; intros [= ->] x.
  - intros [->|Hx]%elem_of_cons; [|auto].
    rewrite Forall_forall in Fy. apply Fy. by apply last_Some_elem_of.
  - apply last_None in L as ->. rewrite list_elem_of_singleton. intros ->. apply row_leb_refl.
Qed.


(** Adding a row, seen through the scan: where no row of the key is as recent,
    the new row is the one in force from its activation on. *)
Lemma add_record_inv t t' r : add_record t r = Some t' -> t' = insert_row r t.
Proof. unfold add_record. split_if; [done|]. by intros [= <-]. Qed.

(** No row of the key is as recent as the height. *)
Definition fresh t (k : K) (height : Z) : Prop :=
  Forall (fun x => pr_matches x k = true -> pr_activation x < height) t.

Lemma get_policy_add t t' r k height :
  wf_table t -> 0 <= pr_activation r -> add_record t r = Some t' ->
  (pr_matches r k = true -> fresh t k (pr_activation r)) ->
  get_policy t' k height
  = if pr_matches r k && (pr_activation r <=? height) then Some r else get_policy t k height.
Proof.
  intros Ht Hr Ha%add_record_inv Hf. subst t'. pose proof (insert_row_wf r t Hr Ht) as Ht'.
  rewrite !get_policy_last by done.
  destruct (decide (applies k height r)) as [[M L]|N].
  2: { rewrite filter_insert_row by done. unfold applies in N.
       destruct (pr_matches r k); [|done]. cbn. rewrite (proj2 (Z.leb_gt _ _)); [done|].
       apply Z.nle_gt. tauto. }
  rewrite M, (proj2 (Z.leb_le _ _) L). cbn [andb]. specialize (Hf M).
  pose proof (filter_wf (applies k height) _ Ht') as [S _].
  assert (r ∈ filter (applies k height) (insert_row r t)) as Hin.
  { apply list_elem_of_filter. split; [done|]. apply insert_row_elem. by left. }
  destruct (last (filter (applies k height) (insert_row r t))) as [z|] eqn:E.
  2: { apply last_None in E. rewrite E in Hin. by apply not_elem_of_nil in Hin. }
  pose proof (last_sorted_max _ _ S E r Hin) as O%row_leb_activation.
  apply last_Some_elem_of, list_elem_of_filter in E as [[Mz _] [->|Hz]%insert_row_elem]; [done|].
  unfold fresh in Hf. rewrite Forall_forall in Hf. specialize (Hf _ Hz Mz). lia.
Qed.

Lemma get_policy_elem t k height r : get_policy t k height = Some r -> r ∈ t.
Proof.
  unfold get_policy. assert (forall best, fold_left (scan_step k height) t best = Some r ->
    best = Some r \/ r ∈ t) as X; [|by intros [?|?]%X].
  induction t as [|x t IH]; intros best; cbn; [auto|].
  intros [E|E]%IH; [|right; by right]. unfold scan_step in E.
  split_if_in E; [|auto]. injection E as <-. right. left.
Qed.

(** on a table in cursor order, the scan of the [get_*_policy] functions
    returns the newest row in force for the key at the height (ties go to the
    greatest record bytes), and fails exactly when no row is in force. *)
Theorem get_policy_newest t (k : K) (height : Z) (Ht : wf_table t) :
  match get_policy t k height with
  | Some r => r ∈ t /\ applies k height r /\
      forall x, x ∈ t -> applies k height x -> row_leb x r = true
  | None => forall x, x ∈ t -> ~ applies k height x
  end.
Proof.
  rewrite get_policy_last by done.
  destruct (last (filter (applies k height) t)) as [r|] eqn:L.
  - pose proof (last_Some_elem_of _ _ L) as [Ha Hr]%list_elem_of_filter. split_and!; auto.
    intros x Hx Hax. eapply last_sorted_max; [exact (proj1 (filter_wf (applies k height) t Ht))|exact L|].
    by apply list_elem_of_filter.
  - apply last_None in L. intros x Hx Ha.
    assert (x ∈ filter (applies k height) t) as X by (by apply list_elem_of_filter).
    rewrite L in X. by apply not_elem_of_nil in X.
Qed.

(** Adding a row keeps the table in cursor order, and changes no answer
    about another key or about a height before the row's activation: history
    is not rewritten. *)
Theorem add_record_frame t t' r (k : K) (height : Z) (Ht : wf_table t)
  (Hr : 0 <= pr_activation r) (Ha : add_record t r = Some t') :
  wf_table t' /\ (~ applies k height r -> get_policy t' k height = get_policy t k height).
Proof.
  unfold add_record in Ha. split_if_in Ha; [done|]. injection Ha as <-.
  pose proof (insert_row_wf r t Hr Ht) as Ht'. split; [done|]. intros N.
  rewrite !get_policy_last by done. by rewrite filter_insert_row.
Qed.

(** Removing the rows of a height undoes the addition of a row at that
    height (when it was the only one): block rollback restores the table. *)
Theorem add_then_remove_by_height t t' r (Ha : add_record t r = Some t')
  (Hn : Forall (fun x => pr_activation x <> pr_activation r) t) :
  remove_by_height t' (pr_activation r) = t.
Proof.
  unfold add_record in Ha. split_if_in Ha; [done|]. injection Ha as <-.
  unfold remove_by_height. rewrite filter_insert_row by auto. by apply filter_all.
Qed.

(** A write that does not repeat a record of its key does not fail. *)
Lemma add_record_fresh `{!PolicyRowOk R K} t r k :
  Forall pr_sized t -> pr_sized r -> pr_matches r k = true -> fresh t k (pr_activation r) ->
  add_record t r = Some (insert_row r t).
Proof.
  intros Hs Hr M F. unfold add_record. replace (existsb (same_row r) t) with false; [done|].
  symmetry. apply not_true_is_false. intros (x & Hx & S)%existsb_exists.
  apply list_elem_of_In in Hx. unfold same_row, beq in S. to_prop.
  unfold fresh in F. rewrite Forall_forall in F, Hs.
  rewrite (pr_bytes_matches r x k) in M; [|done|auto|done]. specialize (F _ Hx M). lia.
Qed.

End table_theory.

Definition sample_row (h : Z) : extension_policy_record :=
  Build_extension_policy_record (strncpy_buf 16 (str "io")) 3 h 1 null_hash.

Lemma sample_table_wf : wf_table [sample_row 10; sample_row 20].
Proof. split; repeat constructor; by vm_compute. Qed.

Lemma get_policy_newest_witness : get_policy [sample_row 10; sample_row 20] (str "io") 15 = Some (sample_row 10) /\
  (sample_row 10 ∈ [sample_row 10; sample_row 20]).
Proof.
  pose proof (get_policy_newest [sample_row 10; sample_row 20] (str "io") 15 sample_table_wf) as P.
  assert (get_policy [sample_row 10; sample_row 20] (str "io") 15 = Some (sample_row 10)) as E by (by vm_compute).
  split; [exact E|]. rewrite E in P. apply P.
Defined.

Lemma add_record_frame_witness :
  get_policy [sample_row 10; sample_row 20; sample_row 30] (str "io") 25 = get_policy [sample_row 10; sample_row 20] (str "io") 25.
Proof.
  apply (add_record_frame [sample_row 10; sample_row 20] [sample_row 10; sample_row 20; sample_row 30] (sample_row 30)).
  - exact sample_table_wf.
  - by vm_compute.
  - by vm_compute.
  - intros [_ X]. vm_compute in X. congruence.
Defined.

Lemma add_then_remove_by_height_witness :
  remove_by_height [sample_row 10; sample_row 20; sample_row 30] (pr_activation (sample_row 30)) = [sample_row 10; sample_row 20].
Proof.
  apply (add_then_remove_by_height [sample_row 10; sample_row 20] [sample_row 10; sample_row 20; sample_row 30] (sample_row 30)).
  - by vm_compute.
  - repeat constructor; by vm_compute.
Defined.
