(* ===== verification/DomainPolicy.v ===== *)
(** * The domain policy resolver ([Blockchain::resolve_domain_policy])

    Which tier and fee a name has at a height, and whether it may be
    registered at all: pending proposals, bans, overrides, tiers, premium
    labels and tier fees, in the order of the code. *)

From S2P Require Import Prelude DomainTables DomainName GovParams GovStore.

Inductive domain_policy_source :=
| DEFAULT_TIER
| EXTENSION_TIER
| PREMIUM_LABEL
| EXACT_DOMAIN_OVERRIDE
| BANNED
| DAO_TIER_FEE
| DAO_EXTENSION_TIER
| PENDING_DOMAIN_POLICY
| EXACT_DOMAIN_BAN
| DEFAULT_PREMIUM_TIER.

Record domain_policy_result := {
  registration_allowed : bool;
  pending : bool;
  banned : bool;
  tier : Z;
  source : domain_policy_source;
  fee : Z;
  policy_height : Z;
  policy_id : hash;
  premium_policy_from_dao : bool;
  premium_policy_height : Z;
  premium_policy_id : hash;
  ban_policy_from_dao : bool;
  ban_policy_height : Z;
  ban_policy_id : hash;
}.

(** The provenance triples of the result: from the DAO, height, proposal. *)
Definition provenance : Type := bool * Z * hash.
Definition no_provenance : provenance := (false, 0, null_hash).

Definition mk_result (allowed pend ban : bool) (t : Z) (src : domain_policy_source) (f : Z)
    (policy : Z * hash) (premium_prov ban_prov : provenance) : domain_policy_result :=
  {| registration_allowed := allowed; pending := pend; banned := ban; tier := t; source := src;
     fee := f; policy_height := policy.1; policy_id := policy.2;
     premium_policy_from_dao := premium_prov.1.1; premium_policy_height := premium_prov.1.2;
     premium_policy_id := premium_prov.2;
     ban_policy_from_dao := ban_prov.1.1; ban_policy_height := ban_prov.1.2;
     ban_policy_id := ban_prov.2 |}.

Section resolver.
Context (gp : governance_params) (db : policy_db) (height : Z).

(** A boolean rule with its DAO override, and where it came from. *)
Definition flag_rule {n} (found : option (flag_policy_record n)) (dflt : bool)
    (prov : provenance) : bool * provenance :=
  match found with
  | Some rec => (fl_flag rec, (true, fl_activation_height rec, fl_proposal_id rec))
  | None => (dflt, prov)
  end.

(** Steps 5 and 6: the exact-domain override, the DAO's extension tier, the
    mapped tier, the premium default. *)
Definition base_tier (normalized extension : bytes) : Z * domain_policy_source * (Z * hash) :=
  let by_extension :=
    match get_extension_policy db extension height with
    | Some rec => (ext_tier rec, DAO_EXTENSION_TIER, (ext_activation_height rec, ext_proposal_id rec))
    | None =>
        if has_extension_tier_mapping gp extension
        then (gp_get_tier_for_extension gp extension, EXTENSION_TIER, (0, null_hash))
        else (TIER_PREMIUM, DEFAULT_PREMIUM_TIER, (0, null_hash))
    end in
  match get_exact_domain_tier_policy db normalized height with
  | Some rec =>
      if edt_has_tier_override rec
      then (edt_tier rec, EXACT_DOMAIN_OVERRIDE, (edt_activation_height rec, edt_proposal_id rec))
      else by_extension
  | None => by_extension
  end.

(** Step 2: a pending record whose proposal is not yet executed. *)
Definition pending_lock (normalized : bytes) : option pending_domain_policy_record :=
  match get_pending_domain_policy (pending_domain_policy db) normalized with
  | Some rec =>
      match proposals db !! pend_proposal_id rec with
      | Some p => if executed p then None else Some rec
      | None => Some rec
      end
  | None => None
  end.

(** Step 3. *)
Definition exact_ban (normalized : bytes) : option exact_domain_ban_policy_record :=
  match get_exact_domain_ban_policy db normalized height with
  | Some rec => if fl_flag rec then Some rec else None
  | None => None
  end.

(** Step 4: is the name banned by its label or extension. *)
Definition global_ban (label extension : bytes) : bool * provenance :=
  let '(label_banned, prov) :=
    flag_rule (get_banned_label_policy db label height) (gp_is_label_banned gp label) no_provenance in
  let '(extension_banned, prov) :=
    flag_rule (get_banned_extension_policy db extension height) (gp_is_extension_banned gp extension) prov in
  (label_banned || extension_banned || gp_is_label_banned gp extension, prov).

(** Step 9: the fee of a tier; [None] is [return false]. *)
Definition tier_fee (t : Z) (src : domain_policy_source) (policy : Z * hash)
    : option (Z * domain_policy_source * (Z * hash)) :=
  if t =? TIER_PREMIUM then Some (PREMIUM_TIER_FEE, src, policy)
  else if TIER_SOVEREIGN <? t then None
  else match get_parameter_record db (5 + t) height with
       | Some rec => Some (prm_value rec, DAO_TIER_FEE,
                           (prm_activation_height rec, prm_proposal_id rec))
       | None => Some (nth (Z.to_nat t) (tier_fees gp) 0, src, policy)
       end.

(** [resolve_domain_policy(domain, height, result)]; [None] is [return false].
    The fields the early returns leave alone have their initial values. *)
Definition resolve_domain_policy (domain : bytes) : option domain_policy_result :=
  let normalized := normalize_vns_domain domain in
  if is_empty normalized then None else
  match parse_vns_domain normalized with
  | None => None
  | Some (label, extension) =>
      if negb (is_valid_vns_extension extension)
      then Some (mk_result false false true 5 BANNED 0 (0, null_hash) no_provenance no_provenance)
      else
      match pending_lock normalized with
      | Some rec => Some (mk_result false true false 5 PENDING_DOMAIN_POLICY 0
          (pend_submission_height rec, pend_proposal_id rec) no_provenance no_provenance)
      | None =>
      match exact_ban normalized with
      | Some rec => Some (mk_result false false true 5 EXACT_DOMAIN_BAN 0
          (fl_activation_height rec, fl_proposal_id rec) no_provenance no_provenance)
      | None =>
      let '(is_banned, ban_prov) := global_ban label extension in
      if is_banned
      then Some (mk_result false false true 5 BANNED 0 (0, null_hash) no_provenance ban_prov)
      else
      let '(t, src, policy) := base_tier normalized extension in
      let '(is_premium, premium_prov) :=
        flag_rule (get_premium_label_policy db label height) (gp_is_premium_label gp label) no_provenance in
      let t := if is_premium then TIER_PREMIUM else t in
      let src := if is_premium then PREMIUM_LABEL else src in
      match tier_fee t src policy with
      | None => None
      | Some (f, src, policy) => Some (mk_result true false false t src f policy premium_prov ban_prov)
      end
      end
      end
  end.

End resolver.

(** ** What the resolver computes *)

(** The resolver after the name checks. *)
Definition resolve_canonical gp db height (label extension normalized : bytes)
    : option domain_policy_result :=
  match pending_lock db normalized, exact_ban db height normalized with
  | Some rec, _ => Some (mk_result false true false 5 PENDING_DOMAIN_POLICY 0
      (pend_submission_height rec, pend_proposal_id rec) no_provenance no_provenance)
  | None, Some rec => Some (mk_result false false true 5 EXACT_DOMAIN_BAN 0
      (fl_activation_height rec, fl_proposal_id rec) no_provenance no_provenance)
  | None, None =>
      let '(is_banned, ban_prov) := global_ban gp db height label extension in
      if is_banned
      then Some (mk_result false false true 5 BANNED 0 (0, null_hash) no_provenance ban_prov)
      else
      let '(t, src, policy) := base_tier gp db height normalized extension in
      let '(is_premium, premium_prov) :=
        flag_rule (get_premium_label_policy db label height) (gp_is_premium_label gp label) no_provenance in
      let t := if is_premium then TIER_PREMIUM else t in
      let src := if is_premium then PREMIUM_LABEL else src in
      match tier_fee gp db height t src policy with
      | None => None
      | Some (f, src, policy) => Some (mk_result true false false t src f policy premium_prov ban_prov)
      end
  end.

(** On a canonical name the grammar checks pass; in particular the branch for
    an invalid extension is dead. *)
Lemma resolve_canonical_eq gp db height label ext d :
  canonical_domain label ext d ->
  resolve_domain_policy gp db height d = resolve_canonical gp db height label ext d.
Proof.
  intros C. unfold resolve_domain_policy, resolve_canonical.
  rewrite (normalize_canonical _ _ _ C).
  rewrite (proj2 (is_empty_false d)) by (by eapply canonical_nonempty).
  rewrite (canonical_parse _ _ _ C).
  assert (is_valid_vns_extension ext = true) as ->.
  { destruct (canonical_parts _ _ _ C) as [_ E]. unfold normalize_vns_extension in E.
    split_if_in E; [by rewrite E in E0|]. apply canonical_wf_parts in C as (_ & ? & _).
    destruct ext; cbn in *; [lia|done]. }
  cbn [negb]. by destruct (pending_lock db d), (exact_ban db height d).
Qed.

Lemma resolve_normalize gp db height d :
  normalize_vns_domain d <> [] ->
  resolve_domain_policy gp db height d
  = resolve_domain_policy gp db height (normalize_vns_domain d).
Proof.
  intros Hn. destruct (normalize_inv d _ eq_refl Hn) as [_ (label & ext & C)].
  unfold resolve_domain_policy. by rewrite (normalize_canonical _ _ _ C).
Qed.

Section policy_theorems.
Context (gp : governance_params) (db : policy_db) (height : Z).

(** The tiers the governance state may assign: the six priced ones. *)
Record tiers_ok : Prop := {
  ok_ext : Forall (fun r => 0 <= ext_tier r <= 5) (extension_policy db);
  ok_exact : Forall (fun r => 0 <= edt_tier r <= 5) (exact_domain_tier_policy db);
  ok_map : forall e, has_extension_tier_mapping gp e = true ->
    0 <= gp_get_tier_for_extension gp e <= 6;
}.

Lemma base_tier_range n e : tiers_ok -> 0 <= (base_tier gp db height n e).1.1 <= 6.
Proof.
  intros [He Hx Hm]. unfold base_tier, get_extension_policy, get_exact_domain_tier_policy. rewrite Forall_forall in He. rewrite Forall_forall in Hx.
  assert (0 <= (match get_policy (extension_policy db) e height with
    | Some rec => (ext_tier rec, DAO_EXTENSION_TIER, (ext_activation_height rec, ext_proposal_id rec))
    | None => if has_extension_tier_mapping gp e
        then (gp_get_tier_for_extension gp e, EXTENSION_TIER, (0, null_hash))
        else (TIER_PREMIUM, DEFAULT_PREMIUM_TIER, (0, null_hash)) end).1.1 <= 6) as X.
  { destruct (get_policy (extension_policy db) e height) eqn:G.
    - apply get_policy_elem in G. cbn. specialize (He _ G). lia.
    - split_if; cbn; [by apply Hm|unfold TIER_PREMIUM; lia]. }
  destruct (get_policy (exact_domain_tier_policy db) n height) eqn:G; [|done].
  split_if; [|done]. apply get_policy_elem in G. cbn. specialize (Hx _ G). lia.
Qed.

Lemma tier_fee_total t src p : 0 <= t <= 6 -> is_Some (tier_fee gp db height t src p).
Proof.
  intros Ht. unfold tier_fee. split_if; [by eexists|]. to_prop.
  unfold TIER_PREMIUM, TIER_SOVEREIGN in *. rewrite (proj2 (Z.ltb_ge _ _)) by lia.
  by destruct (get_parameter_record _ _ _); eexists.
Qed.

Lemma resolve_defined d :
  tiers_ok -> normalize_vns_domain d <> [] -> is_Some (resolve_domain_policy gp db height d).
Proof.
  intros Ht Hn. rewrite resolve_normalize by done.
  destruct (normalize_inv d _ eq_refl Hn) as [_ (label & ext & C)].
  rewrite (resolve_canonical_eq _ _ _ _ _ _ C). unfold resolve_canonical.
  destruct (pending_lock _ _); [by eexists|]. destruct (exact_ban _ _ _); [by eexists|].
  destruct (global_ban _ _ _ _ _) as [ib bp]. destruct ib; [by eexists|].
  pose proof (base_tier_range (normalize_vns_domain d) ext Ht) as R.
  destruct (base_tier _ _ _ _ _) as [[t src] p]. cbn in R.
  destruct (flag_rule _ _ _) as [pr pp].
  destruct (tier_fee_total (if pr then TIER_PREMIUM else t) (if pr then PREMIUM_LABEL else src) p)
    as [[[f s] q] E].
  { destruct pr; [unfold TIER_PREMIUM; lia|done]. }
  rewrite E. by eexists.
Qed.

(** While the governance state only assigns priced tiers, the resolver
    answers for exactly the names that normalise, and its answer does not
    depend on the spelling of the name. *)
Theorem resolve_domain_policy_total (Ht : tiers_ok) (d : bytes) :
  (is_Some (resolve_domain_policy gp db height d) <-> normalize_vns_domain d <> []) /\
  (normalize_vns_domain d <> [] ->
   resolve_domain_policy gp db height d
   = resolve_domain_policy gp db height (normalize_vns_domain d)).
Proof.
  split; [|apply resolve_normalize]. split; [|by apply resolve_defined].
  intros [r Hr] E. unfold resolve_domain_policy in Hr. by rewrite E in Hr.
Qed.


(** the price of an allowed name.  A premium label (as amended by the DAO)
    puts the name in the premium tier whatever its extension or override says;
    otherwise the tier is the exact-domain override, the DAO's extension tier,
    the mapped tier or the premium default, in that order.  The premium tier
    costs the fixed premium fee, any other the DAO's tier fee in force or the
    configured one. *)
Theorem resolve_domain_policy_price (label ext d : bytes) (r : domain_policy_result)
  (C : canonical_domain label ext d) (Hr : resolve_domain_policy gp db height d = Some r)
  (Ha : registration_allowed r = true) :
  tier r = (if (flag_rule (get_premium_label_policy db label height) (gp_is_premium_label gp label)
                  no_provenance).1
            then TIER_PREMIUM else (base_tier gp db height d ext).1.1) /\
  fee r = (if tier r =? TIER_PREMIUM then PREMIUM_TIER_FEE
           else default (nth (Z.to_nat (tier r)) (tier_fees gp) 0)
                  (get_parameter db (5 + tier r) height)).
Proof.
  rewrite (resolve_canonical_eq _ _ _ _ _ _ C) in Hr. unfold resolve_canonical in Hr.
  destruct (pending_lock _ _); [by injection Hr as <-|].
  destruct (exact_ban _ _ _); [by injection Hr as <-|].
  destruct (global_ban _ _ _ _ _) as [ib bp]. destruct ib; [by injection Hr as <-|].
  destruct (base_tier _ _ _ _ _) as [[t src] p], (flag_rule _ _ _) as [pr pp].
  cbv zeta in Hr. destruct (tier_fee _ _ _ _ _ _) as [[[f s] q]|] eqn:F; [|done].
  injection Hr as <-. cbn [tier fee mk_result fst]. split; [done|].
  unfold tier_fee, get_parameter in *. split_if_in F; [by injection F as <- <- <-|].
  split_if_in F; [done|]. by destruct (get_parameter_record _ _ _); injection F as <- <- <-.
Qed.

End policy_theorems.

(** ** The initial policy is the compiled-in one *)

Section genesis.
Context (exts : list (bytes * Z)) (premium banned_list : list bytes) (ratio height : Z).
Context (Hexts : exts ≡ₚ map_to_list get_extension_tier_map).
Context (Hprem : premium ≡ₚ elements get_premium_labels).
Context (Hban : banned_list ≡ₚ elements get_banned_labels).

Abbreviation gp0 := (default_params exts premium banned_list ratio).

Lemma genesis_base_tier d ext :
  is_extension_locked ext = false ->
  (base_tier gp0 empty_policy_db height d ext).1.1 = get_tier_for_extension ext.
Proof.
  unfold base_tier, is_extension_locked, get_tier_for_extension. intros L.
  change (get_extension_policy empty_policy_db ext height) with (@None extension_policy_record).
  change (get_exact_domain_tier_policy empty_policy_db d height)
    with (@None exact_domain_tier_policy_record).
  destruct (get_extension_tier_map !! ext) as [t|] eqn:E.
  - to_prop. destruct (default_mapping exts premium banned_list ratio Hexts ext t E L) as [-> ->]. done.
  - destruct (has_extension_tier_mapping _ ext) eqn:M; [|done].
    destruct (default_mapping_inv exts premium banned_list ratio Hexts ext M) as (t & E' & _).
    exfalso. congruence.
Qed.

Lemma genesis_tier_fee t src p :
  0 <= t <= 6 -> exists s q, tier_fee gp0 empty_policy_db height t src p = Some (get_required_fee t, s, q).
Proof.
  intros Ht. unfold tier_fee.
  assert (t = 0 \/ t = 1 \/ t = 2 \/ t = 3 \/ t = 4 \/ t = 5 \/ t = 6) as C by lia.
  by destruct C as [->|[->|[->|[->|[->|[->| ->]]]]]]; eexists _, _.
Qed.

(** with default parameters and no DAO record, the daemon's resolver
    agrees with the tables the wallet is compiled with: a name is refused
    exactly when its label, its extension, or its extension read as a label is
    banned there, and otherwise its tier is the premium tier for a premium
    label or the extension's tier, at that tier's listed fee. *)
Theorem genesis_policy_agrees (label ext d : bytes) (C : canonical_domain label ext d) :
  exists r, resolve_domain_policy gp0 empty_policy_db height d = Some r /\
    registration_allowed r
    = negb (is_label_banned label || is_extension_locked ext || is_label_banned ext) /\
    (registration_allowed r = true ->
      tier r = (if is_premium_label label then TIER_PREMIUM else get_tier_for_extension ext) /\
      fee r = get_required_fee (tier r)).
Proof.
  rewrite (resolve_canonical_eq _ _ _ _ _ _ C). unfold resolve_canonical.
  change (pending_lock empty_policy_db d) with (@None pending_domain_policy_record).
  change (exact_ban empty_policy_db height d) with (@None exact_domain_ban_policy_record).
  unfold global_ban, flag_rule.
  change (get_banned_label_policy empty_policy_db label height) with (@None banned_label_policy_record).
  change (get_banned_extension_policy empty_policy_db ext height)
    with (@None banned_extension_policy_record).
  change (get_premium_label_policy empty_policy_db label height) with (@None premium_label_policy_record).
  rewrite (default_label_banned exts premium banned_list ratio Hban label),
    (default_label_banned exts premium banned_list ratio Hban ext),
    (default_extension_banned exts premium banned_list ratio ext),
    (default_premium_label exts premium banned_list ratio Hprem label).
  destruct (is_label_banned label || is_extension_locked ext || is_label_banned ext) eqn:B.
  { eexists. split; [reflexivity|]. by split. }
  apply orb_false_iff in B as [B _]. apply orb_false_iff in B as [_ B].
  pose proof (genesis_base_tier d ext B) as T.
  destruct (base_tier _ _ _ _ _) as [[t src] p]. cbn [fst] in T. subst t.
  assert (0 <= (if is_premium_label label then TIER_PREMIUM else get_tier_for_extension ext) <= 6) as R.
  { destruct (is_premium_label label); [unfold TIER_PREMIUM; lia|].
    destruct (tier_range ext) as [E|]; [|done]. exfalso.
    revert B E. unfold is_extension_locked, get_tier_for_extension.
    destruct (get_extension_tier_map !! ext) as [t|]; cbn; [|done].
    intros N%Z.eqb_neq E. by rewrite E in N. }
  cbv zeta. generalize dependent (if is_premium_label label then TIER_PREMIUM else get_tier_for_extension ext).
  generalize (if is_premium_label label then PREMIUM_LABEL else src). intros src' t R.
  destruct (genesis_tier_fee t src' p R) as (s & q & E). rewrite E. eexists. split; [reflexivity|]. split; [done|]. intros _. by split.
Qed.
End genesis.

(** ** Concrete instances *)

Lemma canonical_sample : canonical_domain (str "shop") (str "io") (str "shop..io").
Proof. apply (Canonical (str "shop") (str "io")); cbn; try lia; repeat constructor. Qed.

Lemma sample_tiers_ok : tiers_ok sample_params empty_policy_db.
Proof.
  constructor; [constructor|constructor|]. intros e.
  unfold has_extension_tier_mapping, gp_get_tier_for_extension.
  change (extension_tier_map_keys sample_params) with [str "free"; str "io"].
  change (extension_tier_map_vals sample_params) with [0; 1].
  intros _. cbn [tier_scan]. repeat split_if; lia.
Qed.

Lemma resolve_domain_policy_total_witness :
  is_Some (resolve_domain_policy sample_params empty_policy_db 100 (str "Shop..IO")).
Proof.
  apply (resolve_domain_policy_total sample_params empty_policy_db 100 sample_tiers_ok).
  by vm_compute.
Defined.


Lemma resolve_domain_policy_price_witness :
  exists r, resolve_domain_policy sample_params empty_policy_db 100 (str "shop..io") = Some r /\
    tier r = 1 /\ fee r = 1000000000000.
Proof.
  eexists. split; [vm_compute; reflexivity|].
  exact (resolve_domain_policy_price sample_params empty_policy_db 100 _ _ _ _ canonical_sample
    ltac:(vm_compute; reflexivity) ltac:(vm_compute; reflexivity)).
Defined.

Lemma genesis_policy_agrees_witness :
  exists r, resolve_domain_policy (default_params (map_to_list get_extension_tier_map)
    (elements get_premium_labels) (elements get_banned_labels) 0) empty_policy_db 0 (str "shop..io")
    = Some r.
Proof.
  destruct (genesis_policy_agrees _ _ _ 0 0 (Permutation_refl _) (Permutation_refl _)
    (Permutation_refl _) _ _ _ canonical_sample) as (r & H & _).
  exists r. exact H.
Defined.
