(* ===== verification/Registry.v ===== *)
(** * The domain registry ([src/cryptonote_core/blockchain.cpp])

    Registration, update and transfer of names, their heartbeats, health and
    expiry, and what popping a block undoes.  The state is the in-memory
    registry together with the database tables it is persisted to. *)

From S2P Require Import Prelude Crypto DomainTables DomainName DomainExtra GovParams GovStore DomainPolicy.

(** ** Data *)

Record vns_domain_record := {
  fee_tier : Z;
  fee_burned : Z;
  registrant_key : bytes;              (* 33 bytes *)
  genesis_fingerprint : hash;
  last_heartbeat_block : Z;
  health_score : Z;                    (* 0-10000 *)
  dstatus : Z;                         (* 0 = ACTIVE, 1 = GRACE, 2 = EXPIRED *)
  registered_height : Z;
  heartbeat_count : Z;
  relays : list bytes;                 (* three buffers of 256 bytes *)
  heartbeat_history : list Z;
  heartbeat_history_count : Z;
  registration_tx_hash : hash;
}.

Record heartbeat_event_record := {
  ev_domain : bytes;                   (* char[64] *)
  ev_heartbeat_event_id : hash;
  ev_observed_height : Z;
  ev_event_timestamp : Z;
  ev_event_sequence : Z;
  ev_previous_proof : option hash;     (* [had_previous_proof], [previous_proof] *)
  ev_previous_heartbeat_count : Z;
  ev_previous_last_heartbeat_block : Z;
  ev_previous_health_score : Z;
  ev_previous_status : Z;
  ev_new_heartbeat_count : Z;
  ev_new_last_heartbeat_block : Z;
  ev_new_health_score : Z;
  ev_new_status : Z;
}.

#[export] Instance heartbeat_event_record_eq_dec : EqDecision heartbeat_event_record.
Proof. solve_decision. Defined.

(** The parts of [Blockchain] and of the database the name system owns. *)
Record vns_state := {
  m_vns_domain_registry : gmap bytes vns_domain_record;
  m_vns_extension_registry : gset bytes;
  db_domains : gmap bytes vns_domain_record;
  db_proofs : gmap bytes hash;
  db_events : list heartbeat_event_record;
}.

(** The parts of a transaction the name system reads. *)
Inductive txout_target := txout_to_script | txout_to_scripthash | txout_to_key
| txout_to_tagged_key | txout_treasury | txout_to_burn.

#[export] Instance txout_target_eq_dec : EqDecision txout_target.
Proof. solve_decision. Defined.

Record tx_out := { out_amount : Z; out_target : txout_target }.

Record transaction := {
  tx_version : Z;
  tx_vout : list tx_out;
  tx_extra : bytes;
  tx_outPk : list bytes;  (* the commitment masks of [rct_signatures.outPk] *)
  tx_hash : hash;         (* [get_transaction_hash(tx)] *)
}.

(** ** Constants *)

Definition GRACE_BLOCKS : Z := 5040.
Definition EXPIRY_BLOCKS : Z := 21600.
Definition RECLAIM_BLOCKS : Z := 21600.
Definition DECAY_START_BLOCKS : Z := 720.
Definition VNS_DOMAIN_FEE_BURN_HEIGHT : Z := 50000.

(** ** Health and expiry *)

Definition set_health (r : vns_domain_record) (last health st : Z) : vns_domain_record :=
  {| fee_tier := fee_tier r; fee_burned := fee_burned r; registrant_key := registrant_key r;
     genesis_fingerprint := genesis_fingerprint r; last_heartbeat_block := last;
     health_score := health; dstatus := st; registered_height := registered_height r;
     heartbeat_count := heartbeat_count r; relays := relays r;
     heartbeat_history := heartbeat_history r;
     heartbeat_history_count := heartbeat_history_count r;
     registration_tx_hash := registration_tx_hash r |}.

Definition set_count (r : vns_domain_record) (count : Z) : vns_domain_record :=
  {| fee_tier := fee_tier r; fee_burned := fee_burned r; registrant_key := registrant_key r;
     genesis_fingerprint := genesis_fingerprint r; last_heartbeat_block := last_heartbeat_block r;
     health_score := health_score r; dstatus := dstatus r; registered_height := registered_height r;
     heartbeat_count := count; relays := relays r;
     heartbeat_history := heartbeat_history r;
     heartbeat_history_count := heartbeat_history_count r;
     registration_tx_hash := registration_tx_hash r |}.

Definition set_owner (r : vns_domain_record) (key : bytes) (rl : list bytes) : vns_domain_record :=
  {| fee_tier := fee_tier r; fee_burned := fee_burned r; registrant_key := key;
     genesis_fingerprint := genesis_fingerprint r; last_heartbeat_block := last_heartbeat_block r;
     health_score := health_score r; dstatus := dstatus r; registered_height := registered_height r;
     heartbeat_count := heartbeat_count r; relays := rl;
     heartbeat_history := heartbeat_history r;
     heartbeat_history_count := heartbeat_history_count r;
     registration_tx_hash := registration_tx_hash r |}.

Definition calculate_health_score (domain : vns_domain_record) (current_height : Z) : Z :=
  if last_heartbeat_block domain =? 0 then 10000 else
  let blocks_since := u64 (current_height - last_heartbeat_block domain) in
  if blocks_since <=? DECAY_START_BLOCKS then 10000 else
  let decay := blocks_since - DECAY_START_BLOCKS in
  let decay := if 10000 <? decay then 10000 else decay in
  10000 - decay.

Definition status_of_age (blocks_since : Z) : Z :=
  if EXPIRY_BLOCKS <? blocks_since then 2
  else if GRACE_BLOCKS <? blocks_since then 1 else 0.

(** The body of the loop of [check_domain_expiry]. *)
Definition expire_record (current_height : Z) (rec : vns_domain_record) : vns_domain_record :=
  if current_height <? last_heartbeat_block rec then rec else
  set_health rec (last_heartbeat_block rec) (calculate_health_score rec current_height)
    (status_of_age (u64 (current_height - last_heartbeat_block rec))).

Definition with_registry (s : vns_state) (m : gmap bytes vns_domain_record) : vns_state :=
  {| m_vns_domain_registry := m; m_vns_extension_registry := m_vns_extension_registry s;
     db_domains := db_domains s; db_proofs := db_proofs s; db_events := db_events s |}.

Definition check_domain_expiry (s : vns_state) (current_height : Z) : vns_state :=
  with_registry s (expire_record current_height <$> m_vns_domain_registry s).

(** [update_domain_health]; the health is computed before the block is moved. *)
Definition update_domain_health (s : vns_state) (domain_name_in : bytes) (height : Z) : vns_state :=
  let domain_name := normalize_vns_domain domain_name_in in
  if is_empty domain_name then s else
  match m_vns_domain_registry s !! domain_name with
  | None => s
  | Some rec =>
      with_registry s (<[domain_name := set_health rec height (calculate_health_score rec height)
        (dstatus rec)]> (m_vns_domain_registry s))
  end.

(** ** Queries *)

Definition is_domain_registered (s : vns_state) (domain_name : bytes) : bool :=
  let normalized := normalize_vns_domain domain_name in
  if is_empty normalized then false
  else bool_decide (is_Some (m_vns_domain_registry s !! normalized)).

(** [resolve_domain]: the key (the code returns its hex digits), [] for none. *)
Definition resolve_domain (s : vns_state) (domain_name : bytes) : bytes :=
  let normalized := normalize_vns_domain domain_name in
  if is_empty normalized then [] else
  match m_vns_domain_registry s !! normalized with
  | None => []
  | Some rec => if dstatus rec =? 2 then [] else registrant_key rec
  end.

(** [get_domain_records_by_registrant_keys], as the association list of the
    map; the code's order is that of the hash map. *)
Definition get_domain_records_by_registrant_keys (s : vns_state) (keys : list bytes)
    (active_or_grace_only : bool) : list (bytes * vns_domain_record) :=
  if is_empty keys then [] else
  filter (fun kv =>
      negb (active_or_grace_only && (dstatus kv.2 =? 2)) && existsb (beq (registrant_key kv.2)) keys = true)
    (map_to_list (m_vns_domain_registry s)).

(** ** Operations carried by transactions *)

(** [memset] and [memcpy] of a URL into a relay buffer. *)
Definition relay_buf (url : bytes) : bytes :=
  let u := take 255 url in u ++ replicate (256 - length u) 0.

(** [url.find("ws://") == 0 || url.find("wss://") == 0] *)
Definition has_relay_scheme (url : bytes) : bool :=
  beq (take 5 url) (str "ws://") || beq (take 6 url) (str "wss://").

(** The relay loop of a registration: [None] on a bad scheme, else the count. *)
Fixpoint check_relays (urls : list bytes) (relay_count : nat) : option nat :=
  match urls with
  | [] => Some relay_count
  | url :: urls =>
      if is_empty url then check_relays urls relay_count
      else if negb (has_relay_scheme url) then None
      else check_relays urls (S relay_count)
  end.

Definition is_null_key (key : bytes) : bool := forallb (fun c => c =? 0) key.

(** The loop that looks for the burn output: [None] when there are several. *)
Fixpoint find_burn (i : nat) (outs : list tx_out) (burn_index : option nat) : option (option nat) :=
  match outs with
  | [] => Some burn_index
  | o :: outs =>
      if bool_decide (out_target o = txout_to_burn)
      then match burn_index with
           | Some _ => None
           | None => find_burn (S i) outs (Some i)
           end
      else find_burn (S i) outs burn_index
  end.

Definition burn_total (outs : list tx_out) : Z :=
  fold_left (fun acc o => if bool_decide (out_target o = txout_to_burn)
                          then u64 (acc + out_amount o) else acc) outs 0.

Section operations.
Context `{Crypto}.
Context (gp : governance_params) (pdb : policy_db).

(** The fee-burn block: does the transaction pay [fee].  The commitment of a
    burn output without one ([outPk] too short) is not compared by the code's
    types; it counts as different. *)
Definition burn_ok (tx : transaction) (height fee : Z) : bool :=
  if height <? VNS_DOMAIN_FEE_BURN_HEIGHT then true else
  match find_burn 0 (tx_vout tx) None with
  | None => false
  | Some None => false
  | Some (Some burn_index) =>
      if 2 <=? tx_version tx
      then match tx_outPk tx !! burn_index with
           | Some mask => beq mask (rct_commit_zero fee)
           | None => false
           end
      else burn_total (tx_vout tx) =? fee
  end.

(** An existing record blocks registration unless expired long enough. *)
Definition reclaimable (existing : vns_domain_record) (height : Z) : bool :=
  (dstatus existing =? 2) &&
  (EXPIRY_BLOCKS + RECLAIM_BLOCKS <? u64 (height - last_heartbeat_block existing)).

(** Memory is updated first, then the database; [db_ok = false] is an
    exception of [add_vns_domain_record]. *)
Definition store_record (db_ok : bool) (s : vns_state) (name : bytes) (rec : vns_domain_record)
    : domain_registration_result * vns_state :=
  let reg := <[name := rec]> (m_vns_domain_registry s) in
  if db_ok
  then (success, {| m_vns_domain_registry := reg;
                    m_vns_extension_registry := m_vns_extension_registry s;
                    db_domains := <[name := rec]> (db_domains s);
                    db_proofs := db_proofs s; db_events := db_events s |})
  else (internal_error, with_registry s reg).

Definition add_extension (s : vns_state) (ext : bytes) : vns_state :=
  {| m_vns_domain_registry := m_vns_domain_registry s;
     m_vns_extension_registry := {[ext]} ∪ m_vns_extension_registry s;
     db_domains := db_domains s; db_proofs := db_proofs s; db_events := db_events s |}.

Definition new_record (f : reg_fields) (policy_fee height : Z) (tx : transaction) : vns_domain_record :=
  {| fee_tier := rf_fee_tier f; fee_burned := policy_fee;
     registrant_key := rf_registrant_key f; genesis_fingerprint := rf_genesis_fingerprint f;
     last_heartbeat_block := height; health_score := 10000; dstatus := 0;
     registered_height := height; heartbeat_count := 0;
     relays := map relay_buf (rf_relay_urls f);
     heartbeat_history := replicate 120 0; heartbeat_history_count := 0;
     registration_tx_hash := tx_hash tx |}.

(** DOMAIN_REG, after its TLV loop. *)
Definition apply_registration (db_ok dry_run : bool) (tx : transaction) (height : Z)
    (f : reg_fields) (s : vns_state) : domain_registration_result * vns_state :=
  if is_empty (rf_domain_name f) then (invalid_format, s) else
  let domain_name := normalize_vns_domain (rf_domain_name f) in
  if is_empty domain_name then (invalid_format, s) else
  match parse_vns_domain domain_name with
  | None => (invalid_format, s)
  | Some (label, extension) =>
  match resolve_domain_policy gp pdb height domain_name with
  | None => (internal_error, s)
  | Some policy =>
      if negb (registration_allowed policy) then (invalid_format, s) else
      if negb (rf_fee_tier f =? tier policy) then (invalid_fee_tier, s) else
      if TIER_PREMIUM <? rf_fee_tier f then (invalid_fee_tier, s) else
      if is_null_key (rf_registrant_key f) then (invalid_key, s) else
      if beq (rf_genesis_fingerprint f) null_hash then (invalid_fingerprint, s) else
      if negb (Blockchain_validate_domain_name_format domain_name) then (invalid_format, s) else
      match check_relays (rf_relay_urls f) 0 with
      | None => (invalid_format, s)
      | Some relay_count =>
          if (relay_count =? 0)%nat then (invalid_format, s) else
          if negb (burn_ok tx height (fee policy)) then (invalid_fee_tier, s) else
          if match m_vns_domain_registry s !! domain_name with
             | Some existing => negb (reclaimable existing height)
             | None => false
             end then (already_registered, s) else
          if dry_run then (success, s) else
          store_record db_ok (add_extension s extension) domain_name
            (new_record f (fee policy) height tx)
      end
  end
  end.

(** The message an update signs. *)
Definition update_message (domain_name : bytes) (new_owner : option bytes)
    (new_relay_set : option (list bytes)) : bytes :=
  domain_name ++ default [] new_owner ++ concat (default [] new_relay_set).

(** DOMAIN_UPDATE, after its TLV loop. *)
Definition apply_update (db_ok dry_run : bool) (f : upd_fields) (s : vns_state)
    : domain_registration_result * vns_state :=
  match is_empty (uf_domain_name f), uf_signature f with
  | true, _ | _, None => (invalid_format, s)
  | false, Some signature =>
      let domain_name := normalize_vns_domain (uf_domain_name f) in
      if is_empty domain_name then (invalid_format, s) else
      if negb (Blockchain_validate_domain_name_format domain_name) then (invalid_format, s) else
      match uf_new_owner f, uf_new_relay_set f with
      | None, None => (invalid_format, s)
      | new_owner, new_relay_set =>
          match m_vns_domain_registry s !! domain_name with
          | None => (domain_not_found, s)
          | Some existing =>
              if dstatus existing =? 2 then (domain_expired, s) else
              let message_hash := cn_fast_hash (update_message domain_name new_owner new_relay_set) in
              if negb (bip340_verify (registrant_key existing) message_hash signature)
              then (signature_invalid, s) else
              if dry_run then (success, s) else
              store_record db_ok s domain_name
                (set_owner existing (default (registrant_key existing) new_owner)
                   (match new_relay_set with
                    | Some urls => map relay_buf urls
                    | None => relays existing
                    end))
          end
      end
  end.

(** DOMAIN_XFER, after its TLV loop. *)
Definition apply_transfer (db_ok dry_run : bool) (f : xfer_fields) (s : vns_state)
    : domain_registration_result * vns_state :=
  match is_empty (xf_domain_name f), xf_new_owner_key f, xf_signature f with
  | false, Some new_owner_key, Some signature =>
      let domain_name := normalize_vns_domain (xf_domain_name f) in
      if is_empty domain_name then (invalid_format, s) else
      if negb (Blockchain_validate_domain_name_format domain_name) then (invalid_format, s) else
      match m_vns_domain_registry s !! domain_name with
      | None => (domain_not_found, s)
      | Some existing =>
          if dstatus existing =? 2 then (domain_expired, s) else
          let message_hash := compute_vns_transfer_message_hash domain_name new_owner_key in
          if negb (bip340_verify (registrant_key existing) message_hash signature)
          then (signature_invalid, s) else
          if dry_run then (success, s) else
          store_record db_ok s domain_name
            (set_owner existing (2 :: new_owner_key) (relays existing))
      end
  | _, _, _ => (invalid_format, s)
  end.

(** [Blockchain::process_domain_registration]; [None] only if a loop runs out
    of fuel, which [process_domain_registration_total] excludes. *)
Definition process_domain_registration (ind : indeterminate) (db_ok : bool) (tx : transaction)
    (height : Z) (dry_run : bool) (s : vns_state)
    : option (domain_registration_result * vns_state) :=
  op ← scan ind (tx_extra tx);
  match op with
  | None => Some (success, s)
  | Some (OpReg st en) =>
      r ← parse_registration ind (tx_extra tx) st en;
      Some (match r with
            | inr e => (e, s)
            | inl f => apply_registration db_ok dry_run tx height f s
            end)
  | Some (OpUpdate st en) =>
      r ← parse_update (tx_extra tx) st en;
      Some (match r with inr e => (e, s) | inl f => apply_update db_ok dry_run f s end)
  | Some (OpXfer st en) =>
      r ← parse_transfer (tx_extra tx) st en;
      Some (match r with inr e => (e, s) | inl f => apply_transfer db_ok dry_run f s end)
  end.

(** The loop over a block's transactions in [handle_block_to_main_chain]: the
    first failure rejects the block. *)
Fixpoint process_block_domains (ind : indeterminate) (txs : list transaction) (height : Z)
    (s : vns_state) : option (domain_registration_result * vns_state) :=
  match txs with
  | [] => Some (success, s)
  | tx :: txs =>
      '(res, s) ← process_domain_registration ind true tx height false s;
      if bool_decide (res = success) then process_block_domains ind txs height s
      else Some (res, s)
  end.

End operations.

(** ** Heartbeats *)

(** What the database does with the write transaction of a heartbeat. *)
Inductive wtxn_outcome := wtxn_commits | wtxn_start_fails | wtxn_put_fails.

#[export] Instance wtxn_outcome_eq_dec : EqDecision wtxn_outcome.
Proof. solve_decision. Defined.

Definition heartbeat_event (domain_name : bytes) (rec rec' : vns_domain_record) (proof : hash)
    (last_proof : option hash) (current_height : Z) : heartbeat_event_record :=
  {| ev_domain := strncpy_buf 64 domain_name;
     ev_heartbeat_event_id := proof;
     ev_observed_height := current_height;
     ev_event_timestamp := 0;
     ev_event_sequence := u64 (heartbeat_count rec + 1);
     ev_previous_proof := last_proof;
     ev_previous_heartbeat_count := heartbeat_count rec;
     ev_previous_last_heartbeat_block := last_heartbeat_block rec;
     ev_previous_health_score := health_score rec;
     ev_previous_status := dstatus rec;
     ev_new_heartbeat_count := heartbeat_count rec';
     ev_new_last_heartbeat_block := last_heartbeat_block rec';
     ev_new_health_score := health_score rec';
     ev_new_status := dstatus rec' |}.

(** The record after an accepted heartbeat. *)
Definition beat (rec : vns_domain_record) (heartbeat_height new_count : Z) : vns_domain_record :=
  set_health (set_count rec (if 0 <? new_count then new_count else u64 (heartbeat_count rec + 1)))
    heartbeat_height 10000 0.

(** [update_domain_heartbeat]; [current_height] is [m_db->height()].  [None]
    is an exception that leaves the function: the event is already stored
    ([MDB_NODUPDATA]). *)
Definition update_domain_heartbeat (w : wtxn_outcome) (current_height : Z) (domain_name_in : bytes)
    (heartbeat_height : Z) (proof : hash) (new_count : Z) (s : vns_state)
    : option (bool * vns_state) :=
  let domain_name := normalize_vns_domain domain_name_in in
  if is_empty domain_name then Some (false, s) else
  match m_vns_domain_registry s !! domain_name with
  | None => Some (false, s)
  | Some rec =>
      if current_height <? heartbeat_height then Some (false, s) else
      let last_proof := db_proofs s !! domain_name in
      if bool_decide (w = wtxn_start_fails) then Some (false, s) else
      let unchanged := bool_decide (last_proof = Some proof) in
      let rec' := if unchanged then rec else beat rec heartbeat_height new_count in
      let ev := heartbeat_event domain_name rec rec' proof last_proof current_height in
      if negb unchanged && bool_decide (ev ∈ db_events s) then None else
      let reg := <[domain_name := rec']> (m_vns_domain_registry s) in
      if bool_decide (w = wtxn_put_fails) then Some (false, with_registry s reg) else
      Some (true,
        {| m_vns_domain_registry := reg;
           m_vns_extension_registry := m_vns_extension_registry s;
           db_domains := <[domain_name := rec']> (db_domains s);
           db_proofs := if unchanged then db_proofs s else <[domain_name := proof]> (db_proofs s);
           db_events := if unchanged then db_events s else db_events s ++ [ev] |})
  end.

(** ** Popping a block *)

(** Undo one event ([VNS_HEARTBEAT_EVENT_ROLLBACK], loop body). *)
Definition rollback_event (s : vns_state) (ev : heartbeat_event_record) : vns_state :=
  let domain_name := cstr (ev_domain ev) in
  let found_in_memory := m_vns_domain_registry s !! domain_name in
  let target := match found_in_memory with
                | Some rec => Some rec
                | None => db_domains s !! domain_name
                end in
  match target with
  | None => s
  | Some rec =>
      let rec := set_health (set_count rec (ev_previous_heartbeat_count ev))
        (ev_previous_last_heartbeat_block ev) (ev_previous_health_score ev) (ev_previous_status ev) in
      {| m_vns_domain_registry :=
           match found_in_memory with
           | Some _ => <[domain_name := rec]> (m_vns_domain_registry s)
           | None => m_vns_domain_registry s
           end;
         m_vns_extension_registry := m_vns_extension_registry s;
         db_domains := <[domain_name := rec]> (db_domains s);
         db_proofs := match ev_previous_proof ev with
                      | Some p => <[domain_name := p]> (db_proofs s)
                      | None => delete domain_name (db_proofs s)
                      end;
         db_events := db_events s |}
  end.

(** The descending sort by [event_sequence]; [std::sort] may order equal
    sequence numbers in any way, here they keep their order. *)
Fixpoint insert_desc (ev : heartbeat_event_record) (l : list heartbeat_event_record) :=
  match l with
  | [] => [ev]
  | x :: l' => if ev_event_sequence x <? ev_event_sequence ev then ev :: l else x :: insert_desc ev l'
  end.

Definition sort_desc (l : list heartbeat_event_record) : list heartbeat_event_record :=
  fold_left (fun acc ev => insert_desc ev acc) l [].

Definition rollback_heartbeats (s : vns_state) (height : Z) : vns_state :=
  let hb_events := sort_desc (filter (fun ev => ev_observed_height ev = height) (db_events s)) in
  let s := fold_left rollback_event hb_events s in
  {| m_vns_domain_registry := m_vns_domain_registry s;
     m_vns_extension_registry := m_vns_extension_registry s;
     db_domains := db_domains s; db_proofs := db_proofs s;
     db_events := filter (fun ev => ev_observed_height ev <> height) (db_events s) |}.

(** The removal loop: every domain whose record was created by [txid]. *)
Definition remove_registered_by (s : vns_state) (txid : hash) : vns_state :=
  let gone := filter (fun kv => registration_tx_hash kv.2 = txid) (m_vns_domain_registry s) in
  {| m_vns_domain_registry :=
       filter (fun kv => registration_tx_hash kv.2 <> txid) (m_vns_domain_registry s);
     m_vns_extension_registry := m_vns_extension_registry s;
     db_domains := db_domains s ∖ gone;
     db_proofs := filter (fun kv => gone !! kv.1 = None) (db_proofs s);
     db_events := filter (fun ev => gone !! cstr (ev_domain ev) = None) (db_events s) |}.

(** The name-system part of [pop_block_from_blockchain]; [height] is
    [m_db->height() + 1] after the pop. *)
Definition pop_block_domains (s : vns_state) (popped_txs : list transaction) (height : Z) : vns_state :=
  fold_left (fun s tx => remove_registered_by s (tx_hash tx)) popped_txs (rollback_heartbeats s height).

(** ** Loading at start-up *)

Definition reconcile_record (curr_height : Z) (record : vns_domain_record) : vns_domain_record :=
  let last := if (curr_height <? last_heartbeat_block record) || (last_heartbeat_block record =? 0)
              then registered_height record else last_heartbeat_block record in
  let blocks_since := if last <? curr_height then curr_height - last else 0 in
  let clamped := set_health record last (health_score record) (status_of_age blocks_since) in
  set_health clamped last (calculate_health_score clamped curr_height) (dstatus clamped).

(** One row of [for_all_vns_domain_records] in [Blockchain::init]. *)
Definition load_record (curr_height : Z) (domain_name : bytes) (record : vns_domain_record)
    (s : vns_state) : vns_state :=
  if curr_height <? registered_height record then s else
  let normalized := normalize_vns_domain domain_name in
  if is_empty normalized then s else
  let s := with_registry s (<[normalized := reconcile_record curr_height record]>
    (m_vns_domain_registry s)) in
  match parse_vns_domain normalized with
  | Some (_, ext) => add_extension s ext
  | None => s
  end.

(** The registry rebuilt from the database rows. *)
Definition load_registry (curr_height : Z) (s : vns_state) : vns_state :=
  foldr (fun kv s => load_record curr_height kv.1 kv.2 s)
    {| m_vns_domain_registry := ∅; m_vns_extension_registry := ∅; db_domains := db_domains s;
       db_proofs := db_proofs s; db_events := db_events s |}
    (map_to_list (db_domains s)).
