(* ===== verification/RegistryProofs.v ===== *)
(** * Correctness of the domain registry

    What the operations of [Registry] do on every branch, the invariant they
    keep, who can change a name, and what expiry, heartbeats and block pops do
    to it. *)

From S2P Require Import Prelude Crypto DomainTables DomainName DomainExtra GovParams GovStore DomainPolicy Registry.

(** Close a branch that rejects and leaves the state alone. *)
Ltac rejected := intros [= <- <-]; left; split; [reflexivity | discriminate].

Section operation_theory.
Context `{Crypto}.
Context (gp : governance_params) (pdb : policy_db).
Implicit Types (s : vns_state) (tx : transaction).

(** ** What an accepted operation has passed *)

(** Everything a registration must satisfy, as one predicate. *)
Record registration_ok (tx : transaction) (height : Z) (f : reg_fields) (s : vns_state)
    (label ext : bytes) (policy : domain_policy_result) : Prop := {
  ro_canonical : canonical_domain label ext (normalize_vns_domain (rf_domain_name f));
  ro_policy : resolve_domain_policy gp pdb height (normalize_vns_domain (rf_domain_name f)) = Some policy;
  ro_allowed : registration_allowed policy = true;
  ro_tier : rf_fee_tier f = tier policy /\ rf_fee_tier f <= TIER_PREMIUM;
  ro_key : is_null_key (rf_registrant_key f) = false;
  ro_fingerprint : rf_genesis_fingerprint f <> null_hash;
  ro_relays : exists n, check_relays (rf_relay_urls f) 0 = Some (S n);
  ro_burn : burn_ok tx height (fee policy) = true;
  ro_free : forall existing,
    m_vns_domain_registry s !! normalize_vns_domain (rf_domain_name f) = Some existing ->
    reclaimable existing height = true;
}.

Lemma apply_registration_inv db_ok dry tx height f s r s' :
  apply_registration gp pdb db_ok dry tx height f s = (r, s') ->
  (s' = s /\ (r = success -> dry = true /\ exists label ext policy, registration_ok tx height f s label ext policy)) \/
  (dry = false /\ exists label ext policy, registration_ok tx height f s label ext policy /\
    (r, s') = store_record db_ok (add_extension s ext) (normalize_vns_domain (rf_domain_name f))
      (new_record f (fee policy) height tx)).
Proof.
  unfold apply_registration. split_if; [rejected|]. cbv zeta.
  split_if; [rejected|]. apply is_empty_false in E0.
  destruct (normalize_inv _ _ eq_refl E0) as [_ (label & ext & C)].
  rewrite (canonical_parse _ _ _ C).
  destruct (resolve_domain_policy _ _ _ _) as [policy|] eqn:P; [|rejected].
  do 6 (split_if; [rejected|]).
  destruct (check_relays _ _) as [n|] eqn:R; [|rejected].
  do 2 (split_if; [rejected|]).
  destruct (match m_vns_domain_registry s !! _ with Some _ => _ | None => _ end) eqn:F; [rejected|].
  assert (registration_ok tx height f s label ext policy) as OK.
  { to_prop. constructor; auto; try lia.
    - by apply beq_false.
    - exists (pred n). rewrite R. f_equal. lia.
    - intros existing Hx. rewrite Hx in F. by apply negb_false_iff in F. }
  split_if; [intros [= <- <-]; left; eauto 10|]. intros Hs. right. eauto 10.
Qed.

Lemma apply_registration_complete db_ok dry tx height f s label ext policy :
  registration_ok tx height f s label ext policy ->
  apply_registration gp pdb db_ok dry tx height f s
  = if dry then (success, s)
    else store_record db_ok (add_extension s ext) (normalize_vns_domain (rf_domain_name f))
           (new_record f (fee policy) height tx).
Proof.
  intros [C P A [T1 T2] K G [n R] B F]. unfold apply_registration.
  assert (is_empty (rf_domain_name f) = false) as ->.
  { destruct (rf_domain_name f); [|done]. by apply canonical_nonempty in C. }
  cbv zeta. rewrite (proj2 (is_empty_false _)) by (by eapply canonical_nonempty).
  rewrite (canonical_parse _ _ _ C), P, A. cbn [negb].
  rewrite (proj2 (Z.eqb_eq _ _) T1). cbn [negb]. rewrite (proj2 (Z.ltb_ge _ _) T2), K.
  rewrite (proj2 (beq_false _ _) G), (canonical_Blockchain_validate _ _ _ C). cbn [negb].
  rewrite R, B. cbn [Nat.eqb negb].
  destruct (m_vns_domain_registry s !! _) as [existing|] eqn:E; [|done].
  by rewrite (F existing eq_refl).
Qed.

(** The signature check of an update or transfer: the name is registered, not
    expired, and its key signed [message]. *)
Definition signed_by_owner (s : vns_state) (name message : bytes) (existing : vns_domain_record) : Prop :=
  m_vns_domain_registry s !! name = Some existing /\ dstatus existing <> 2 /\
  exists signature, bip340_verify (registrant_key existing) (cn_fast_hash message) signature = true.

Lemma apply_update_inv db_ok dry f s r s' :
  apply_update db_ok dry f s = (r, s') ->
  (s' = s /\ (r = success -> dry = true)) \/
  (dry = false /\ exists existing,
    signed_by_owner s (normalize_vns_domain (uf_domain_name f))
      (update_message (normalize_vns_domain (uf_domain_name f)) (uf_new_owner f) (uf_new_relay_set f))
      existing /\
    (r, s') = store_record db_ok s (normalize_vns_domain (uf_domain_name f))
      (set_owner existing (default (registrant_key existing) (uf_new_owner f))
        (match uf_new_relay_set f with Some urls => map relay_buf urls | None => relays existing end))).
Proof.
  unfold apply_update. destruct (is_empty (uf_domain_name f)); [rejected|].
  destruct (uf_signature f) as [sig|]; [|rejected]. cbv zeta.
  do 2 (split_if; [rejected|]).
  destruct (m_vns_domain_registry s !! normalize_vns_domain (uf_domain_name f)) as [existing|] eqn:L.
  2: { destruct (uf_new_owner f), (uf_new_relay_set f); rejected. }
  destruct (dstatus existing =? 2) eqn:D.
  { destruct (uf_new_owner f), (uf_new_relay_set f); rejected. }
  apply Z.eqb_neq in D.
  destruct (uf_new_owner f) as [o|] eqn:Eo, (uf_new_relay_set f) as [rs|] eqn:Er;
    [| | |rejected]; (split_if; [rejected|]; split_if; [by intros [= <- <-]; left|]);
    to_prop; intros St; right; split; try done; exists existing; (split; [|exact (eq_sym St)]);
    unfold signed_by_owner; eauto.
Qed.

Lemma apply_transfer_inv db_ok dry f s r s' :
  apply_transfer db_ok dry f s = (r, s') ->
  (s' = s /\ (r = success -> dry = true)) \/
  (dry = false /\ exists existing key, xf_new_owner_key f = Some key /\
    signed_by_owner s (normalize_vns_domain (xf_domain_name f))
      (normalize_vns_domain (xf_domain_name f) ++ key) existing /\
    (r, s') = store_record db_ok s (normalize_vns_domain (xf_domain_name f))
      (set_owner existing (2 :: key) (relays existing))).
Proof.
  unfold apply_transfer. destruct (is_empty (xf_domain_name f)); [rejected|].
  destruct (xf_new_owner_key f) as [key|]; [|rejected].
  destruct (xf_signature f) as [sig|]; [|rejected]. cbv zeta.
  do 2 (split_if; [rejected|]).
  destruct (m_vns_domain_registry s !! _) as [existing|] eqn:L; [|rejected].
  do 2 (split_if; [rejected|]). split_if; [by intros [= <- <-]; left|].
  to_prop. intros St. right. split; [done|]. exists existing, key.
  split_and!; [done| |exact (eq_sym St)]. unfold signed_by_owner. eauto.
Qed.

(** ** Stored records *)

Lemma store_record_registry db_ok s name rec r s' :
  (r, s') = store_record db_ok s name rec ->
  m_vns_domain_registry s' = <[name := rec]> (m_vns_domain_registry s) /\
  (db_ok = true -> r = success /\ db_domains s' = <[name := rec]> (db_domains s)) /\
  (db_ok = false -> r = internal_error /\ db_domains s' = db_domains s).
Proof. unfold store_record. destruct db_ok; intros [= -> ->]; by split_and!. Qed.

(** ** The whole operation *)

(** [process_domain_registration] always returns. *)
Lemma process_total ind db_ok tx height dry s :
  is_Some (process_domain_registration gp pdb ind db_ok tx height dry s).
Proof.
  unfold process_domain_registration, scan.
  destruct (scan_extra_total ind (S (length (tx_extra tx))) (tx_extra tx) 0) as [op Hop]; [lia|].
  rewrite Hop. cbn [mbind option_bind].
  destruct op as [[st en|st en|st en]|]; [| | |by eexists];
    unfold parse_registration, parse_update, parse_transfer;
    match goal with |- context [tlv_loop ?h ?n ?x ?e ?p ?i] =>
      destruct (tlv_loop_total h n x e p i) as [y Hy]; [lia|]; rewrite Hy end;
    by eexists.
Qed.

(** One of the three operations, or nothing, as a relation on states. *)
Inductive domain_step (db_ok dry : bool) (tx : transaction) (height : Z) (s : vns_state)
    : domain_registration_result -> vns_state -> Prop :=
| step_none r : domain_step db_ok dry tx height s r s
| step_reg f r s' : apply_registration gp pdb db_ok dry tx height f s = (r, s') ->
    domain_step db_ok dry tx height s r s'
| step_update f r s' : apply_update db_ok dry f s = (r, s') ->
    domain_step db_ok dry tx height s r s'
| step_xfer f r s' : apply_transfer db_ok dry f s = (r, s') ->
    domain_step db_ok dry tx height s r s'.

Lemma process_step ind db_ok tx height dry s r s' :
  process_domain_registration gp pdb ind db_ok tx height dry s = Some (r, s') ->
  domain_step db_ok dry tx height s r s'.
Proof.
  unfold process_domain_registration.
  destruct (scan ind (tx_extra tx)) as [[[st en|st en|st en]|]|]; cbn [mbind option_bind]; [| | | |done].
  - destruct (parse_registration _ _ _ _) as [[f|e]|]; cbn; [|intros [= <- <-]; apply step_none|done].
    intros [= Hs]. by eapply step_reg.
  - destruct (parse_update _ _ _) as [[f|e]|]; cbn; [|intros [= <- <-]; apply step_none|done].
    intros [= Hs]. by eapply step_update.
  - destruct (parse_transfer _ _ _) as [[f|e]|]; cbn; [|intros [= <- <-]; apply step_none|done].
    intros [= Hs]. by eapply step_xfer.
  - intros [= <- <-]. apply step_none.
Qed.

(** ** Dry runs *)

Lemma apply_registration_dry db_ok tx height f s :
  apply_registration gp pdb db_ok true tx height f s
  = ((apply_registration gp pdb true false tx height f s).1, s).
Proof.
  unfold apply_registration. cbv zeta. split_if; [done|]. split_if; [done|].
  destruct (parse_vns_domain _) as [[label ext]|]; [|done].
  destruct (resolve_domain_policy _ _ _ _) as [policy|]; [|done].
  do 6 (split_if; [done|]). destruct (check_relays _ _); [|done].
  do 2 (split_if; [done|]). destruct (match m_vns_domain_registry s !! _ with Some _ => _ | None => _ end); done.
Qed.

Lemma apply_update_dry db_ok f s :
  apply_update db_ok true f s = ((apply_update true false f s).1, s).
Proof.
  unfold apply_update. destruct (is_empty _); [done|]. destruct (uf_signature f); [|done]. cbv zeta.
  do 2 (split_if; [done|]).
  destruct (uf_new_owner f), (uf_new_relay_set f); [| | |done];
    (destruct (m_vns_domain_registry s !! _); [|done]; do 2 (split_if; [done|]); done).
Qed.

Lemma apply_transfer_dry db_ok f s :
  apply_transfer db_ok true f s = ((apply_transfer true false f s).1, s).
Proof.
  unfold apply_transfer. destruct (is_empty _); [done|].
  destruct (xf_new_owner_key f); [|done]. destruct (xf_signature f); [|done]. cbv zeta.
  do 2 (split_if; [done|]). destruct (m_vns_domain_registry s !! _); [|done].
  by do 2 (split_if; [done|]).
Qed.

Lemma process_dry ind db_ok tx height s :
  process_domain_registration gp pdb ind db_ok tx height true s
  = (fun rs => (rs.1, s)) <$> process_domain_registration gp pdb ind true tx height false s.
Proof.
  unfold process_domain_registration.
  destruct (scan ind (tx_extra tx)) as [[[st en|st en|st en]|]|]; cbn [mbind option_bind]; [| | |done..].
  - destruct (parse_registration _ _ _ _) as [[f|e]|]; cbn; [|done..]. by rewrite apply_registration_dry.
  - destruct (parse_update _ _ _) as [[f|e]|]; cbn; [|done..]. by rewrite apply_update_dry.
  - destruct (parse_transfer _ _ _) as [[f|e]|]; cbn; [|done..]. by rewrite apply_transfer_dry.
Qed.

(** Processing a transaction's domain operation always terminates, and a
    dry run leaves the state untouched and gives the verdict the real run
    gives at the same height when the database accepts the write. *)
Theorem dry_run_agrees (ind : indeterminate) (db_ok : bool) (tx : transaction) (height : Z)
  (s : vns_state) :
  exists r s', process_domain_registration gp pdb ind db_ok tx height true s = Some (r, s) /\
    process_domain_registration gp pdb ind true tx height false s = Some (r, s').
Proof.
  rewrite process_dry. destruct (process_total ind true tx height false s) as [[r s'] E].
  exists r, s'. by rewrite E.
Qed.

(** ** Who can change a name *)

(** A record that is no longer there after the step was re-registered when
    reclaimable, or replaced under its owner's signature. *)
Lemma step_authorized db_ok dry tx height s r s' d rec :
  domain_step db_ok dry tx height s r s' ->
  m_vns_domain_registry s !! d = Some rec -> m_vns_domain_registry s' !! d <> Some rec ->
  reclaimable rec height = true \/
  exists message, d `prefix_of` message /\ signed_by_owner s d message rec.
Proof.
  intros Hs Hd Hc. destruct Hs as [r|f r s' A|f r s' A|f r s' A]; [done| | |].
  - apply apply_registration_inv in A as [[-> _]|(_ & label & ext & policy & OK & St)]; [done|].
    apply store_record_registry in St as [E _]. cbn in E. rewrite E in Hc.
    destruct (decide (d = normalize_vns_domain (rf_domain_name f))) as [->|Hne].
    + left. by apply OK.
    + by rewrite lookup_insert_ne in Hc.
  - apply apply_update_inv in A as [[-> _]|(_ & existing & Sg & St)]; [done|].
    apply store_record_registry in St as [E _]. rewrite E in Hc.
    destruct (decide (d = normalize_vns_domain (uf_domain_name f))) as [->|Hne].
    + right. eexists. split; [by eexists|]. destruct Sg as (L & ? & ?).
      rewrite L in Hd. injection Hd as <-. unfold signed_by_owner. eauto.
    + by rewrite lookup_insert_ne in Hc.
  - apply apply_transfer_inv in A as [[-> _]|(_ & existing & key & _ & Sg & St)]; [done|].
    apply store_record_registry in St as [E _]. rewrite E in Hc.
    destruct (decide (d = normalize_vns_domain (xf_domain_name f))) as [->|Hne].
    + right. eexists. split; [by eexists|]. destruct Sg as (L & ? & ?).
      rewrite L in Hd. injection Hd as <-. unfold signed_by_owner. eauto.
    + by rewrite lookup_insert_ne in Hc.
Qed.


End operation_theory.
