(* ===== verification/RegistryInvariant.v ===== *)
(** * The registry invariant, expiry, heartbeats and pops

    Every operation of [Registry] keeps the state well formed; status and
    health are functions of the heartbeat's age; a popped block undoes the
    heartbeats it saw. *)

From S2P Require Import Prelude Crypto DomainTables DomainName DomainExtra GovParams GovStore DomainPolicy Registry RegistryProofs.

(** ** Well-formed state *)

Record wf_record (r : vns_domain_record) : Prop := {
  wr_key : length (registrant_key r) = 33%nat;
  wr_fingerprint : length (genesis_fingerprint r) = 32%nat;
  wr_health : 0 <= health_score r <= 10000;
  wr_status : 0 <= dstatus r <= 2;
  wr_last : last_heartbeat_block r ∈u 64;
  wr_registered : registered_height r ∈u 64;
  wr_relays : length (relays r) = 3%nat /\ Forall (fun b => length b = 256%nat) (relays r);
}.

Definition wf_entry (d : bytes) (r : vns_domain_record) : Prop :=
  (exists label ext, canonical_domain label ext d) /\ wf_record r.

Definition wf_event (ev : heartbeat_event_record) : Prop :=
  0 <= ev_previous_health_score ev <= 10000 /\ 0 <= ev_previous_status ev <= 2 /\
  ev_previous_last_heartbeat_block ev ∈u 64.

Record wf_state (s : vns_state) : Prop := {
  ws_registry : map_Forall wf_entry (m_vns_domain_registry s);
  ws_db : map_Forall wf_entry (db_domains s);
  ws_events : Forall wf_event (db_events s);
}.

(** The uninitialised locals are arrays of their declared size. *)
Definition ind_sized (ind : indeterminate) : Prop :=
  length (uninit_registrant_key ind) = 33%nat /\ length (uninit_genesis_fingerprint ind) = 32%nat.

(** ** What the parsers guarantee *)

Lemma tlv_loop_inv {S} (h : Z -> bytes -> S -> S + domain_registration_result) (P : S -> Prop)
    fuel extra e pos s s' :
  (forall t v s s', P s -> h t v s = inl s' -> P s') -> P s ->
  tlv_loop h fuel extra e pos s = Some (inl s') -> P s'.
Proof.
  intros Hh. revert pos s. induction fuel as [|fuel IH]; intros pos s Ps; [done|]. cbn [tlv_loop].
  split_if; [by intros [= <-]|]. destruct (extra !! pos); [|done].
  split_if; [by intros [= <-]|]. destruct (extra !! (pos + 1)%nat); [|done].
  split_if; [done|]. destruct (h _ _ s) as [s''|] eqn:Hs; [|done]. apply IH. by eapply Hh.
Qed.

Section parsed.
Context `{Crypto}.

Definition reg_sized (f : reg_fields) : Prop :=
  length (rf_registrant_key f) = 33%nat /\ length (rf_genesis_fingerprint f) = 32%nat /\
  length (rf_relay_urls f) = 3%nat.

Lemma reg_handle_sized t v f f' : reg_sized f -> reg_handle t v f = inl f' -> reg_sized f'.
Proof.
  destruct f as [dn ft rk gf ru]. intros (K & G & R). unfold reg_handle, reg_sized in *. cbn in K, G, R.
  repeat split_if; try done; intros [= <-]; cbn; rewrite ?length_insert; to_prop; unfold zlen in *;
    split_and!; try done; lia.
Qed.

Definition upd_sized (f : upd_fields) : Prop :=
  (forall k, uf_new_owner f = Some k -> length k = 33%nat) /\
  (forall l, uf_new_relay_set f = Some l -> length l = 3%nat).

Lemma read_relays_length n ri v p rs rs' : read_relays n ri v p rs = inl rs' -> length rs' = length rs.
Proof.
  revert ri p rs. induction n as [|n IH]; intros ri p rs; cbn [read_relays]; [by intros [= <-]|].
  destruct (v !! p); [|done]. cbv zeta. split_if; [done|]. split_if; [done|].
  intros ->%IH. apply length_insert.
Qed.

Lemma upd_handle_sized t v f f' : upd_sized f -> upd_handle t v f = inl f' -> upd_sized f'.
Proof.
  destruct f as [dn no nr sg]. intros [K R]. unfold upd_handle, upd_sized in *. cbn in K, R.
  repeat split_if; try done; try (destruct v as [|c v]; [done|]; split_if; [done|];
    destruct (read_relays _ _ _ _ _) eqn:L; [|done]);
    intros [= <-]; cbn; (split; [auto|auto]); try (intros ? [= <-]; to_prop; unfold zlen in *).
  - lia.
  - done.
  - by apply read_relays_length in L.
Qed.

Definition xfer_sized (f : xfer_fields) : Prop :=
  forall k, xf_new_owner_key f = Some k -> length k = 32%nat.

Lemma xfer_handle_sized t v f f' : xfer_sized f -> xfer_handle t v f = inl f' -> xfer_sized f'.
Proof.
  destruct f as [dn k sg]. unfold xfer_handle, xfer_sized. cbn. intros K.
  repeat split_if; try done; intros [= <-]; cbn; auto. intros ? [= <-]. to_prop. unfold zlen in *. lia.
Qed.
End parsed.

(** ** Preservation by the transaction operations *)

Lemma length_relay_buf url : length (relay_buf url) = 256%nat.
Proof. unfold relay_buf. rewrite length_app, length_replicate, length_take. lia. Qed.

Lemma wf_relay_bufs urls :
  length urls = 3%nat ->
  length (map relay_buf urls) = 3%nat /\ Forall (fun b => length b = 256%nat) (map relay_buf urls).
Proof.
  intros L. split; [by rewrite length_map|]. apply Forall_map, Forall_forall.
  intros u _. apply length_relay_buf.
Qed.

Lemma set_owner_wf r key rl :
  wf_record r -> length key = 33%nat ->
  length rl = 3%nat /\ Forall (fun b => length b = 256%nat) rl -> wf_record (set_owner r key rl).
Proof. intros [] K R. by constructor. Qed.

Lemma store_record_wf db_ok s name rec r s' :
  wf_state s -> wf_entry name rec -> (r, s') = store_record db_ok s name rec -> wf_state s'.
Proof.
  intros [R D E] W. unfold store_record. destruct db_ok; intros [= -> ->]; constructor; cbn; auto;
    by apply map_Forall_insert_2.
Qed.

Section preservation.
Context `{Crypto}.
Context (gp : governance_params) (pdb : policy_db).

Lemma apply_registration_wf db_ok dry tx height f s r s' :
  wf_state s -> reg_sized f -> height ∈u 64 ->
  apply_registration gp pdb db_ok dry tx height f s = (r, s') -> wf_state s'.
Proof.
  intros W (K & G & R) Hh A.
  apply apply_registration_inv in A as [[-> _]|(_ & label & ext & policy & OK & St)]; [done|].
  eapply store_record_wf; [|split|exact St].
  - by destruct W.
  - exists label, ext. by destruct OK.
  - constructor; cbn; try done; try lia. by apply wf_relay_bufs.
Qed.

Lemma apply_update_wf db_ok dry f s r s' :
  wf_state s -> upd_sized f -> apply_update db_ok dry f s = (r, s') -> wf_state s'.
Proof.
  intros W [K R] A. apply apply_update_inv in A as [[-> _]|(_ & existing & (L & _) & St)]; [done|].
  pose proof (ws_registry _ W _ _ L) as [C We].
  eapply store_record_wf; [done|split; [exact C|]|exact St].
  apply set_owner_wf; [done| |].
  - destruct (uf_new_owner f) as [k|]; cbn; [by apply K|by destruct We].
  - destruct (uf_new_relay_set f) as [l|]; [by apply wf_relay_bufs, R|by destruct We].
Qed.

Lemma apply_transfer_wf db_ok dry f s r s' :
  wf_state s -> xfer_sized f -> apply_transfer db_ok dry f s = (r, s') -> wf_state s'.
Proof.
  intros W K A. apply apply_transfer_inv in A as [[-> _]|(_ & existing & key & E & (L & _) & St)]; [done|].
  pose proof (ws_registry _ W _ _ L) as [C We].
  eapply store_record_wf; [done|split; [exact C|]|exact St].
  apply set_owner_wf; [done| |by destruct We]. cbn. by rewrite (K _ E).
Qed.

Lemma process_wf ind db_ok tx height dry s r s' :
  wf_state s -> ind_sized ind -> height ∈u 64 ->
  process_domain_registration gp pdb ind db_ok tx height dry s = Some (r, s') -> wf_state s'.
Proof.
  intros W [I1 I2] Hh. unfold process_domain_registration.
  destruct (scan ind (tx_extra tx)) as [[[st en|st en|st en]|]|]; cbn [mbind option_bind];
    [| | |by intros [= <- <-]|done].
  - destruct (parse_registration _ _ _ _) as [[f|e]|] eqn:P; cbn; [|by intros [= <- <-]|done].
    intros [= A]. eapply apply_registration_wf; [done| |done|exact A].
    eapply (tlv_loop_inv reg_handle reg_sized); [apply reg_handle_sized| |exact P]. by split_and!.
  - destruct (parse_update _ _ _) as [[f|e]|] eqn:P; cbn; [|by intros [= <- <-]|done].
    intros [= A]. eapply apply_update_wf; [done| |exact A].
    eapply (tlv_loop_inv upd_handle upd_sized); [apply upd_handle_sized| |exact P]. by split.
  - destruct (parse_transfer _ _ _) as [[f|e]|] eqn:P; cbn; [|by intros [= <- <-]|done].
    intros [= A]. eapply apply_transfer_wf; [done| |exact A].
    eapply (tlv_loop_inv xfer_handle xfer_sized); [apply xfer_handle_sized| |exact P]. done.
Qed.
End preservation.

(** ** Preservation by expiry, heartbeats and pops *)

Lemma calculate_health_score_range r h : 0 <= calculate_health_score r h <= 10000.
Proof. unfold calculate_health_score. repeat split_if; to_prop; lia. Qed.

Lemma status_of_age_range n : 0 <= status_of_age n <= 2.
Proof. unfold status_of_age. repeat split_if; lia. Qed.

#[export] Hint Resolve calculate_health_score_range status_of_age_range : vns.

Lemma set_health_wf r last health st :
  wf_record r -> last ∈u 64 -> 0 <= health <= 10000 -> 0 <= st <= 2 ->
  wf_record (set_health r last health st).
Proof. intros []. by constructor. Qed.

Lemma set_count_wf r c : wf_record r -> wf_record (set_count r c).
Proof. intros []. by constructor. Qed.

Lemma expire_record_wf h r : wf_record r -> wf_record (expire_record h r).
Proof.
  intros W. unfold expire_record. split_if; [done|]. apply set_health_wf; auto with vns. by destruct W.
Qed.

Lemma with_registry_wf s m : wf_state s -> map_Forall wf_entry m -> wf_state (with_registry s m).
Proof. intros [] ?. by constructor. Qed.

Lemma check_domain_expiry_wf s h : wf_state s -> wf_state (check_domain_expiry s h).
Proof.
  intros W. apply with_registry_wf; [done|]. intros d r. rewrite lookup_fmap.
  destruct (m_vns_domain_registry s !! d) as [r0|] eqn:E; [|done]. intros [= <-].
  destruct (ws_registry _ W _ _ E) as [C Wr]. split; [done|by apply expire_record_wf].
Qed.

Lemma update_domain_health_wf s d h : h ∈u 64 -> wf_state s -> wf_state (update_domain_health s d h).
Proof.
  intros Hh W. unfold update_domain_health. cbv zeta. split_if; [done|].
  destruct (m_vns_domain_registry s !! _) as [r|] eqn:L; [|done].
  destruct (ws_registry _ W _ _ L) as [C Wr]. apply with_registry_wf; [done|].
  apply map_Forall_insert_2; [|by destruct W]. split; [done|].
  apply set_health_wf; auto with vns. by destruct Wr.
Qed.

Lemma beat_wf r h c : h ∈u 64 -> wf_record r -> wf_record (beat r h c).
Proof. intros Hh W. apply set_health_wf; [by apply set_count_wf|done|lia|lia]. Qed.

Lemma update_domain_heartbeat_wf w cur d h proof c s ok s' :
  h ∈u 64 -> wf_state s ->
  update_domain_heartbeat w cur d h proof c s = Some (ok, s') -> wf_state s'.
Proof.
  intros Hh W. unfold update_domain_heartbeat. cbv zeta. split_if; [by intros [= <- <-]|].
  destruct (m_vns_domain_registry s !! _) as [r|] eqn:L; [|by intros [= <- <-]].
  destruct (ws_registry _ W _ _ L) as [C Wr].
  do 2 (split_if; [by intros [= <- <-]|]).
  set (u := bool_decide (db_proofs s !! _ = Some proof)).
  assert (wf_record (if u then r else beat r h c)) as Wr' by (destruct u; [done|by apply beat_wf]).
  destruct (negb u && _); [done|].
  assert (forall m : gmap bytes vns_domain_record, map_Forall wf_entry m -> map_Forall wf_entry
    (<[normalize_vns_domain d := if u then r else beat r h c]> m)) as Wi.
  { intros m Hm. apply map_Forall_insert_2; [by split|done]. }
  destruct (bool_decide (w = wtxn_put_fails)); intros [= <- <-].
  { apply with_registry_wf; [done|]. apply Wi. by destruct W. }
  destruct W as [R D E2]. constructor; cbn; [by apply Wi..|].
  destruct u; [done|]. apply Forall_app. split; [done|]. constructor; [|constructor].
  destruct Wr as [? ? Hh1 Hs1 Hl1 ? ?]. exact (conj Hh1 (conj Hs1 Hl1)).
Qed.

Lemma rollback_event_wf s ev : wf_event ev -> wf_state s -> wf_state (rollback_event s ev).
Proof.
  intros (E1 & E2 & E3) W. unfold rollback_event. cbv zeta.
  destruct (m_vns_domain_registry s !! cstr (ev_domain ev)) as [r|] eqn:L.
  - destruct (ws_registry _ W _ _ L) as [C Wr]. destruct W.
    constructor; cbn; [| |done]; (apply map_Forall_insert_2; [|done]); (split; [done|]);
      apply set_health_wf; auto; by apply set_count_wf.
  - destruct (db_domains s !! cstr (ev_domain ev)) as [r|] eqn:L'; [|done].
    destruct (ws_db _ W _ _ L') as [C Wr]. destruct W.
    constructor; cbn; [done| |done]. apply map_Forall_insert_2; [|done]. split; [done|].
    apply set_health_wf; auto. by apply set_count_wf.
Qed.

Lemma elem_of_insert_desc ev l x : x ∈ insert_desc ev l <-> x = ev \/ x ∈ l.
Proof.
  induction l as [|y l IH]; cbn; [by rewrite list_elem_of_singleton, elem_of_nil; tauto|].
  split_if; rewrite !elem_of_cons, ?IH; tauto.
Qed.

Lemma elem_of_sort_desc l x : x ∈ sort_desc l <-> x ∈ l.
Proof.
  unfold sort_desc. assert (forall acc, x ∈ fold_left (fun acc ev => insert_desc ev acc) l acc <->
    x ∈ acc \/ x ∈ l) as G.
  { induction l as [|y l IH]; intros acc; cbn; [rewrite elem_of_nil; tauto|].
    rewrite IH, elem_of_insert_desc, elem_of_cons. tauto. }
  rewrite G, elem_of_nil. tauto.
Qed.

Lemma fold_rollback_wf l s :
  Forall wf_event l -> wf_state s -> wf_state (fold_left rollback_event l s).
Proof.
  intros F. revert s. induction F as [|ev l Hev _ IH]; intros s W; cbn; [done|].
  apply IH. by apply rollback_event_wf.
Qed.

Lemma rollback_heartbeats_wf s h : wf_state s -> wf_state (rollback_heartbeats s h).
Proof.
  intros W. unfold rollback_heartbeats. cbv zeta.
  set (l := sort_desc _). assert (Forall wf_event l) as F.
  { apply Forall_forall. intros ev [_ Hin]%elem_of_sort_desc%list_elem_of_filter.
    destruct W as [_ _ E]. rewrite Forall_forall in E. auto. }
  pose proof (fold_rollback_wf l s F W) as [R D E]. constructor; cbn; [done..|].
  by apply Forall_filter_list.
Qed.

Lemma remove_registered_by_wf s txid : wf_state s -> wf_state (remove_registered_by s txid).
Proof.
  intros [R D E]. unfold remove_registered_by. cbv zeta. constructor; cbn.
  - intros d r [Hr _]%map_lookup_filter_Some. by apply R.
  - intros d r [Hr _]%lookup_difference_Some. by apply D.
  - by apply Forall_filter_list.
Qed.

Lemma pop_block_domains_wf s txs h : wf_state s -> wf_state (pop_block_domains s txs h).
Proof.
  intros W%(fun W => rollback_heartbeats_wf s h W). unfold pop_block_domains.
  revert W. generalize (rollback_heartbeats s h). clear s.
  induction txs as [|tx txs IH]; intros s W; cbn; [done|]. by apply IH, remove_registered_by_wf.
Qed.

Lemma reconcile_record_wf h r : wf_record r -> wf_record (reconcile_record h r).
Proof.
  intros W. unfold reconcile_record. cbv zeta.
  assert ((if (h <? last_heartbeat_block r) || (last_heartbeat_block r =? 0)
           then registered_height r else last_heartbeat_block r) ∈u 64)
    by (destruct W; by split_if).
  apply set_health_wf; [apply set_health_wf|..]; cbn [dstatus set_health]; auto with vns.
  by destruct W.
Qed.

Lemma load_record_wf h d r s : wf_record r -> wf_state s -> wf_state (load_record h d r s).
Proof.
  intros Wr W. unfold load_record. split_if; [done|]. cbv zeta. split_if; [done|].
  apply is_empty_false in E0. destruct (normalize_inv _ _ eq_refl E0) as [_ (label & ext & C)].
  rewrite (canonical_parse _ _ _ C). destruct W. constructor; cbn; [|done..].
  apply map_Forall_insert_2; [|done]. split; [eauto|by apply reconcile_record_wf].
Qed.

Lemma load_registry_wf h s : wf_state s -> wf_state (load_registry h s).
Proof.
  intros [R D E]. unfold load_registry.
  assert (Forall (fun kv => wf_record kv.2) (map_to_list (db_domains s))) as F.
  { apply Forall_forall. intros [d r] Hin%elem_of_map_to_list. by apply D in Hin as [_ ?]. }
  induction F as [|[d r] l Wr _ IH]; cbn [foldr]; [|by apply load_record_wf].
  constructor; cbn; [apply map_Forall_empty|done..].
Qed.

(** ** Reachable states *)

(** Everything that changes the name system's state.  The governance state
    may be different at each step. *)
Inductive vns_step `{Crypto} : vns_state -> vns_state -> Prop :=
| vstep_tx gp pdb ind db_ok tx height dry s r s' :
    ind_sized ind -> height ∈u 64 ->
    process_domain_registration gp pdb ind db_ok tx height dry s = Some (r, s') -> vns_step s s'
| vstep_heartbeat w cur d h proof c s ok s' :
    h ∈u 64 -> update_domain_heartbeat w cur d h proof c s = Some (ok, s') -> vns_step s s'
| vstep_expiry h s : vns_step s (check_domain_expiry s h)
| vstep_health d h s : h ∈u 64 -> vns_step s (update_domain_health s d h)
| vstep_pop txs h s : vns_step s (pop_block_domains s txs h)
| vstep_restart h s : vns_step s (load_registry h s).

Definition empty_state : vns_state :=
  {| m_vns_domain_registry := ∅; m_vns_extension_registry := ∅; db_domains := ∅;
     db_proofs := ∅; db_events := [] |}.

Lemma vns_step_wf `{Crypto} s s' : vns_step s s' -> wf_state s -> wf_state s'.
Proof.
  destruct 1; eauto using process_wf, update_domain_heartbeat_wf, check_domain_expiry_wf,
    update_domain_health_wf, pop_block_domains_wf, load_registry_wf.
Qed.


