(* ===== verification/RegistryHistory.v ===== *)
(** * Expiry, heartbeat rollback and what a pop does not undo

    Status and health are caches of the heartbeat's age; popping a block
    undoes heartbeats and fresh registrations exactly.  The last section
    proves the behaviours a maintainer should know: signatures that verify for
    two operations, effects of a rejected block, pops that do not undo. *)

From Stdlib Require Import Sorted.
From S2P Require Import Prelude Crypto DomainTables DomainName DomainExtra GovParams GovStore DomainPolicy Registry RegistryProofs RegistryInvariant.

(** ** Expiry *)

Lemma expire_record_last h r : last_heartbeat_block (expire_record h r) = last_heartbeat_block r.
Proof. unfold expire_record. by split_if. Qed.

Lemma expire_record_expire h1 h2 r :
  h1 <= h2 \/ last_heartbeat_block r <= h2 ->
  expire_record h2 (expire_record h1 r) = expire_record h2 r.
Proof.
  intros Hh. unfold expire_record at 1 3. rewrite expire_record_last.
  split_if; [|unfold expire_record; by split_if].
  to_prop. unfold expire_record. rewrite (proj2 (Z.ltb_lt _ _)); [done|lia].
Qed.

(** Status and health are caches: checking expiry at a height gives the
    same registry whatever earlier checks were made, so they carry no history
    of their own.  The same holds after a pop, for a height lower than the
    earlier check's, when no heartbeat lies above it. *)
Theorem expiry_is_a_cache (s : vns_state) (h1 h2 : Z)
  (Hh : h1 <= h2 \/ map_Forall (fun _ r => last_heartbeat_block r <= h2) (m_vns_domain_registry s)) :
  check_domain_expiry (check_domain_expiry s h1) h2 = check_domain_expiry s h2.
Proof.
  unfold check_domain_expiry, with_registry. cbn. f_equal. rewrite <- map_fmap_compose.
  apply map_fmap_ext. intros d r Hd. apply expire_record_expire.
  destruct Hh as [?|Hh]; [by left|right; by eapply Hh].
Qed.

Lemma expiry_is_a_cache_witness :
  check_domain_expiry (check_domain_expiry empty_state 3) 5 = check_domain_expiry empty_state 5.
Proof. apply expiry_is_a_cache. left. lia. Defined.

(** after an expiry check at height [h], a name whose last heartbeat is at
    block [b <= h] is active for the first 5040 blocks after it, in grace up to
    21600, expired afterwards; its health is 10000 for 720 blocks and then
    drops by one per block to 0; and it resolves exactly while not expired. *)
Theorem expiry_schedule (s : vns_state) (h : Z) (d : bytes) (r : vns_domain_record)
  (Hc : normalize_vns_domain d = d) (Hd : m_vns_domain_registry s !! d = Some r)
  (Hb : 0 < last_heartbeat_block r <= h) (Hh : h ∈u 64) :
  exists r', m_vns_domain_registry (check_domain_expiry s h) !! d = Some r' /\
    let age := h - last_heartbeat_block r in
    dstatus r' = (if age <=? 5040 then 0 else if age <=? 21600 then 1 else 2) /\
    health_score r' = (if age <=? 720 then 10000 else Z.max 0 (10000 - (age - 720))) /\
    registrant_key r' = registrant_key r /\
    (age <= 21600 -> d <> [] -> resolve_domain (check_domain_expiry s h) d = registrant_key r) /\
    (21600 < age -> resolve_domain (check_domain_expiry s h) d = []).
Proof.
  exists (expire_record h r). unfold resolve_domain. cbn [check_domain_expiry with_registry m_vns_domain_registry].
  rewrite !lookup_fmap, Hc, Hd. cbn [fmap option_fmap option_map]. split; [done|]. cbv zeta.
  assert (expire_record h r = set_health r (last_heartbeat_block r) (calculate_health_score r h)
    (status_of_age (h - last_heartbeat_block r))) as ->.
  { unfold expire_record. rewrite (proj2 (Z.ltb_ge _ _)), u64_id by lia. done. }
  assert (calculate_health_score r h = (if h - last_heartbeat_block r <=? 720 then 10000
    else Z.max 0 (10000 - (h - last_heartbeat_block r - 720)))) as ->.
  { unfold calculate_health_score, DECAY_START_BLOCKS. rewrite u64_id by lia.
    repeat split_if; to_prop; lia. }
  cbn [dstatus health_score registrant_key set_health].
  unfold status_of_age, EXPIRY_BLOCKS, GRACE_BLOCKS.
  split_and!; [repeat split_if; lia|done|done|intros Ha Hne|intros Ha].
  - rewrite (proj2 (is_empty_false d)) by done.
    rewrite (proj2 (Z.ltb_ge 21600 _)) by lia. by destruct (5040 <? _).
  - destruct (is_empty d); [done|]. by rewrite (proj2 (Z.ltb_lt 21600 _)) by lia.
Qed.

(** ** Heartbeat rollback *)

Definition with_events (s : vns_state) (evs : list heartbeat_event_record) : vns_state :=
  {| m_vns_domain_registry := m_vns_domain_registry s;
     m_vns_extension_registry := m_vns_extension_registry s;
     db_domains := db_domains s; db_proofs := db_proofs s; db_events := evs |}.

(** Memory and database agree on a name. *)
Definition in_sync (s : vns_state) (d : bytes) : Prop :=
  m_vns_domain_registry s !! d = db_domains s !! d.

Lemma rollback_event_with_events s evs ev :
  rollback_event (with_events s evs) ev = with_events (rollback_event s ev) evs.
Proof.
  unfold rollback_event, with_events. cbn.
  destruct (m_vns_domain_registry s !! _); [done|]. by destruct (db_domains s !! _).
Qed.

Lemma set_health_beat r h c :
  set_health (set_count (beat r h c) (heartbeat_count r)) (last_heartbeat_block r) (health_score r)
    (dstatus r) = r.
Proof. by destruct r. Qed.

(** A heartbeat that was recorded, as the code runs it. *)
Record beats (cur : Z) (d : bytes) (h : Z) (proof : hash) (c : Z) (s s' : vns_state) : Prop := {
  bt_run : update_domain_heartbeat wtxn_commits cur d h proof c s = Some (true, s');
  bt_fresh : db_proofs s !! normalize_vns_domain d <> Some proof;
  bt_sync : in_sync s (normalize_vns_domain d);
}.

(** Undoing the event of a recorded heartbeat gives the state before it. *)
Lemma rollback_beat cur d h proof c s s' :
  beats cur d h proof c s s' ->
  exists ev, db_events s' = db_events s ++ [ev] /\ ev_observed_height ev = cur /\
    rollback_event s' ev = with_events s (db_events s').
Proof.
  intros [Run Fresh Sync]. revert Run. unfold update_domain_heartbeat. cbv zeta.
  split_if; [done|]. apply is_empty_false in E.
  destruct (normalize_inv _ _ eq_refl E) as [_ (label & ext & C)].
  destruct (canonical_no_nul _ _ _ C) as [Nul Len].
  remember (normalize_vns_domain d) as n eqn:Hn. clear Hn.
  destruct (m_vns_domain_registry s !! n) as [r|] eqn:L; [|done].
  split_if; [done|]. rewrite (bool_decide_false (wtxn_commits = wtxn_start_fails)) by done.
  rewrite (bool_decide_false _ Fresh). cbn [negb andb].
  split_if; [done|]. rewrite (bool_decide_false (wtxn_commits = wtxn_put_fails)) by done.
  intros [= <-]. eexists. split; [reflexivity|]. split; [done|].
  unfold rollback_event. cbn [ev_domain heartbeat_event m_vns_domain_registry db_domains].
  rewrite (cstr_strncpy_buf 64 n Nul Len). rewrite lookup_insert_eq.
  cbn [ev_previous_heartbeat_count ev_previous_last_heartbeat_block ev_previous_health_score
    ev_previous_status ev_previous_proof heartbeat_event]. rewrite set_health_beat.
  unfold with_events. cbn [m_vns_extension_registry db_proofs db_events].
  unfold in_sync in Sync. rewrite L in Sync.
  f_equal; [rewrite insert_insert_eq; by apply insert_id|rewrite insert_insert_eq; by apply insert_id|].
  destruct (db_proofs s !! n) as [p|] eqn:P.
  - rewrite insert_insert_eq. by apply insert_id.
  - by apply delete_insert_id.
Qed.

(** Heartbeats recorded one after the other at one height, and their events. *)
Inductive beat_run (cur : Z) : vns_state -> list heartbeat_event_record -> vns_state -> Prop :=
| br_nil s : beat_run cur s [] s
| br_cons s1 s2 s3 d h proof c ev evs :
    beats cur d h proof c s1 s2 -> db_events s2 = db_events s1 ++ [ev] ->
    beat_run cur s2 evs s3 -> beat_run cur s1 (ev :: evs) s3.

Lemma beat_run_events cur s evs s' :
  beat_run cur s evs s' ->
  db_events s' = db_events s ++ evs /\ Forall (fun ev => ev_observed_height ev = cur) evs.
Proof.
  induction 1 as [s|s1 s2 s3 d h proof c ev evs B E _ [IH F]]; [by rewrite app_nil_r|].
  split; [rewrite IH, E, <- app_assoc; done|]. constructor; [|done].
  destruct (rollback_beat _ _ _ _ _ _ _ B) as (ev' & E' & O & _).
  rewrite E in E'. apply app_inj_tail in E' as [_ ->]. done.
Qed.

(** Undoing the events in reverse order gives the first state back. *)
Lemma beat_run_undo cur s evs s' l :
  beat_run cur s evs s' ->
  fold_left rollback_event (reverse evs) (with_events s' l) = with_events s l.
Proof.
  induction 1 as [s|s1 s2 s3 d h proof c ev evs B E _ IH]; [done|].
  rewrite reverse_cons, fold_left_app, IH. cbn [fold_left].
  destruct (rollback_beat _ _ _ _ _ _ _ B) as (ev' & E' & _ & U).
  rewrite E in E'. apply app_inj_tail in E' as [_ ->].
  by rewrite rollback_event_with_events, U.
Qed.

Definition increasing (l : list heartbeat_event_record) : Prop :=
  StronglySorted (fun x y => ev_event_sequence x < ev_event_sequence y) l.

Lemma sort_desc_increasing l : increasing l -> sort_desc l = reverse l.
Proof.
  intros S. unfold sort_desc.
  assert (forall acc, (forall x y, x ∈ acc -> y ∈ l -> ev_event_sequence x < ev_event_sequence y) ->
    fold_left (fun acc ev => insert_desc ev acc) l acc = reverse l ++ acc) as G.
  { induction S as [|y l S IH F]; intros acc Ha; cbn [fold_left]; [done|].
    assert (insert_desc y acc = y :: acc) as ->.
    { destruct acc as [|x acc]; [done|]. cbn. rewrite (proj2 (Z.ltb_lt _ _)); [done|].
      apply Ha; left. }
    rewrite IH; [by rewrite reverse_cons, <- app_assoc|].
    intros x z [->|Hx]%elem_of_cons Hz.
    - rewrite Forall_forall in F. auto.
    - apply Ha; [done|by right]. }
  rewrite G; [by rewrite app_nil_r|]. intros x y Hx. by apply not_elem_of_nil in Hx.
Qed.

(** popping a block undoes the heartbeats recorded at its height: if
    their sequence numbers increase in the order they were applied, the
    rollback restores the registry, the database records, the proofs and the
    event log to exactly what they were. *)
Theorem heartbeats_rolled_back (cur : Z) (s s' : vns_state) (evs : list heartbeat_event_record)
  (Hrun : beat_run cur s evs s') (Hinc : increasing evs)
  (Hold : Forall (fun ev => ev_observed_height ev <> cur) (db_events s)) :
  rollback_heartbeats s' cur = s.
Proof.
  destruct (beat_run_events _ _ _ _ Hrun) as [E F]. unfold rollback_heartbeats.
  assert (filter (fun ev => ev_observed_height ev = cur) (db_events s') = evs) as ->.
  { rewrite E, filter_app, (filter_all _ evs F).
    replace (filter _ (db_events s)) with (@nil heartbeat_event_record); [done|].
    symmetry. apply list_filter_none. eapply Forall_impl; [exact Hold|]. auto. }
  rewrite (sort_desc_increasing _ Hinc).
  assert (fold_left rollback_event (reverse evs) s' = with_events s (db_events s')) as ->.
  { rewrite <- (beat_run_undo _ _ _ _ (db_events s') Hrun). f_equal. by destruct s'. }
  cbn. rewrite E, filter_app, (filter_all _ (db_events s) Hold).
  rewrite (list_filter_none _ evs), app_nil_r; [by destruct s|].
  eapply Forall_impl; [exact F|]. auto.
Qed.

(** ** Registering and popping *)

(** popping the block of a fresh registration removes the name again: the
    registry, the database, the proofs and the event log are those before the
    block, provided the name was new to all four tables, no other record
    carries the transaction's hash and no heartbeat was recorded at the popped
    height. *)
Theorem register_then_pop `{Crypto} (gp : governance_params) (pdb : policy_db) (tx : transaction)
  (height : Z) (f : reg_fields) (s s' : vns_state) (popped : Z)
  (Ha : apply_registration gp pdb true false tx height f s = (success, s'))
  (Hn : let d := normalize_vns_domain (rf_domain_name f) in
    m_vns_domain_registry s !! d = None /\ db_domains s !! d = None /\ db_proofs s !! d = None /\
    Forall (fun ev => cstr (ev_domain ev) <> d) (db_events s))
  (Hu : map_Forall (fun _ r => registration_tx_hash r <> tx_hash tx) (m_vns_domain_registry s))
  (He : Forall (fun ev => ev_observed_height ev <> popped) (db_events s)) :
  let q := pop_block_domains s' [tx] popped in
  m_vns_domain_registry q = m_vns_domain_registry s /\ db_domains q = db_domains s /\
  db_proofs q = db_proofs s /\ db_events q = db_events s.
Proof.
  cbv zeta in *. apply apply_registration_inv in Ha as [[_ Hd]|(_ & label & ext & policy & _ & St)];
    [by destruct (Hd eq_refl)|].
  remember (normalize_vns_domain (rf_domain_name f)) as d eqn:Ed. clear Ed.
  destruct Hn as (N1 & N2 & N3 & N4). injection St as ->.
  unfold pop_block_domains, rollback_heartbeats. cbn [db_events add_extension].
  rewrite (list_filter_none _ (db_events s)) by done. cbn [sort_desc fold_left].
  unfold remove_registered_by. cbn [m_vns_domain_registry db_domains db_proofs db_events].
  set (rec := new_record f (fee policy) height tx).
  assert (filter (fun kv => registration_tx_hash kv.2 = tx_hash tx)
    (<[d := rec]> (m_vns_domain_registry s)) = {[d := rec]}) as ->.
  { apply map_eq. intros k. destruct (decide (k = d)) as [->|Hk].
    - rewrite lookup_singleton_eq. apply map_lookup_filter_Some_2; [apply lookup_insert_eq|done].
    - rewrite lookup_singleton_ne by done. apply map_lookup_filter_None_2. right.
      intros r Hr. rewrite lookup_insert_ne in Hr by done. by apply (Hu k r). }
  split_and!.
  - apply map_eq. intros k. destruct (decide (k = d)) as [->|Hk].
    + rewrite N1. apply map_lookup_filter_None_2. right. intros r Hr.
      rewrite lookup_insert_eq in Hr. injection Hr as <-. cbn. tauto.
    + destruct (m_vns_domain_registry s !! k) as [r|] eqn:Hr.
      * apply map_lookup_filter_Some_2; [by rewrite lookup_insert_ne|by apply (Hu k r)].
      * apply map_lookup_filter_None_2. left. by rewrite lookup_insert_ne.
  - apply map_eq. intros k. destruct (decide (k = d)) as [->|Hk].
    + rewrite N2. apply lookup_difference_None. right. rewrite lookup_singleton_eq. by eexists.
    + rewrite lookup_difference, lookup_singleton_ne, lookup_insert_ne by done. done.
  - apply map_eq. intros k. destruct (decide (k = d)) as [->|Hk].
    + rewrite N3. apply map_lookup_filter_None_2. by left.
    + destruct (db_proofs s !! k) as [p|] eqn:Hp.
      * apply map_lookup_filter_Some_2; [done|]. cbn. by rewrite lookup_singleton_ne.
      * apply map_lookup_filter_None_2. by left.
  - rewrite (filter_all _ (db_events s) He). apply filter_all.
    eapply Forall_impl; [exact N4|]. cbn. intros ev Hev. by rewrite lookup_singleton_ne.
Qed.

(** ** Concrete states *)

Definition sample_reg_fields (name : bytes) : reg_fields :=
  Build_reg_fields name 1 sample_key (replicate 32 9) [str "wss://relay.one"; []; []].

Definition sample_reg_tx (name : bytes) (id : Z) : transaction :=
  {| tx_version := 2; tx_vout := [];
     tx_extra := build_registration_extra name 1 sample_key (replicate 32 9)
       [str "wss://relay.one"; []; []];
     tx_outPk := []; tx_hash := replicate 32 id |}.

Definition sample_state : vns_state :=
  match @process_domain_registration sample_crypto sample_params empty_policy_db sample_ind true
    (sample_reg_tx (str "shop..io") 1) 100 false empty_state with
  | Some (_, s) => s
  | None => empty_state
  end.

Lemma register_then_pop_witness :
  m_vns_domain_registry (pop_block_domains (snd (@apply_registration sample_crypto sample_params
    empty_policy_db true false (sample_reg_tx (str "shop..io") 1) 100
    (sample_reg_fields (str "shop..io")) empty_state)) [sample_reg_tx (str "shop..io") 1] 101) = ∅.
Proof.
  refine (proj1 (@register_then_pop sample_crypto sample_params empty_policy_db
    (sample_reg_tx (str "shop..io") 1) 100 (sample_reg_fields (str "shop..io")) empty_state _ 101 _ _ _ _)).
  - vm_compute. reflexivity.
  - by split_and!.
  - apply map_Forall_empty.
  - constructor.
Defined.

Lemma expiry_schedule_witness :
  exists r', m_vns_domain_registry (check_domain_expiry sample_state 30000) !! str "shop..io" = Some r' /\
    dstatus r' = 2.
Proof.
  destruct (m_vns_domain_registry sample_state !! str "shop..io") as [r|] eqn:E;
    [|vm_compute in E; discriminate].
  destruct (expiry_schedule sample_state 30000 (str "shop..io") r) as (r' & L & S & _).
  - vm_compute. reflexivity.
  - exact E.
  - vm_compute in E. injection E as <-. vm_compute. split; congruence.
  - lia.
  - exists r'. split; [exact L|]. rewrite S. vm_compute in E. injection E as <-. reflexivity.
Defined.

Definition sample_beaten (cur proof c : Z) (s : vns_state) : vns_state :=
  match update_domain_heartbeat wtxn_commits cur (str "shop..io") cur (replicate 32 proof) c s with
  | Some (_, s') => s'
  | None => s
  end.

(** The event of the first heartbeat of [sample_state]. *)
Definition sample_event : heartbeat_event_record :=
  default (Build_heartbeat_event_record [] [] 0 0 0 None 0 0 0 0 0 0 0 0)
    (last (db_events (sample_beaten 200 5 0 sample_state))).

Lemma sample_beats :
  beats 200 (str "shop..io") 200 (replicate 32 5) 0 sample_state (sample_beaten 200 5 0 sample_state).
Proof.
  constructor; [vm_compute; reflexivity| |vm_compute; reflexivity].
  vm_compute. discriminate.
Qed.

Lemma heartbeats_rolled_back_witness :
  rollback_heartbeats (sample_beaten 200 5 0 sample_state) 200 = sample_state.
Proof.
  apply (heartbeats_rolled_back 200 sample_state (sample_beaten 200 5 0 sample_state) [sample_event]).
  - apply (br_cons 200 sample_state (sample_beaten 200 5 0 sample_state)
      (sample_beaten 200 5 0 sample_state) (str "shop..io") 200 (replicate 32 5) 0 sample_event []).
    + exact sample_beats.
    + vm_compute. reflexivity.
    + apply br_nil.
  - repeat constructor.
  - vm_compute. constructor.
Defined.

(** ** Behaviours worth knowing *)

(** The messages of an update and of a transfer are not told apart: an update
    of the relay set whose URLs concatenate to 32 bytes carries a signature
    that is accepted as a transfer of the name to those 32 bytes. *)
Theorem update_signature_transfers `{Crypto} (s : vns_state) (name key sig : bytes) (urls : list bytes)
  (existing : vns_domain_record)
  (Hu : apply_update true true (Build_upd_fields name None (Some urls) (Some sig)) s = (success, s))
  (Hk : concat urls = key)
  (He : m_vns_domain_registry s !! normalize_vns_domain name = Some existing) :
  exists s', apply_transfer true false (Build_xfer_fields name (Some key) (Some sig)) s = (success, s') /\
    registrant_key <$> m_vns_domain_registry s' !! normalize_vns_domain name = Some (2 :: key).
Proof.
  unfold apply_update, apply_transfer in *.
  cbn [uf_domain_name uf_signature uf_new_owner uf_new_relay_set xf_domain_name xf_new_owner_key
    xf_signature] in *.
  destruct (is_empty name); [done|]. cbv zeta in *. do 2 (split_if_in Hu; [done|]).
  rewrite He in *. split_if_in Hu; [done|]. unfold update_message in Hu. cbn [default] in Hu.
  unfold compute_vns_transfer_message_hash. rewrite <- Hk. cbn [app] in Hu.
  split_if_in Hu; [done|]. unfold id in *. rewrite E2. eexists. split; [reflexivity|]. cbn. by rewrite lookup_insert_eq.
Qed.

(** A block whose second transaction is refused still leaves the first one's
    registration in the in-memory registry. *)
Theorem rejected_block_keeps_effects :
  exists txs s', @process_block_domains sample_crypto sample_params empty_policy_db sample_ind txs 100
      empty_state = Some (already_registered, s') /\
    is_domain_registered s' (str "shop..io") = true.
Proof.
  exists [sample_reg_tx (str "shop..io") 1; sample_reg_tx (str "Shop..io") 2], sample_state.
  split; vm_compute; reflexivity.
Qed.

(** The transaction pool's dry run is made at height 0: it accepts a
    registration without a burn output that every block from height 50000 on
    refuses. *)
Theorem pool_check_misses_fee_burn :
  fst <$> @process_domain_registration sample_crypto sample_params empty_policy_db sample_ind true
    (sample_reg_tx (str "shop..io") 1) 0 true empty_state = Some success /\
  fst <$> @process_domain_registration sample_crypto sample_params empty_policy_db sample_ind true
    (sample_reg_tx (str "shop..io") 1) 60000 true empty_state = Some invalid_fee_tier.
Proof. split; vm_compute; reflexivity. Qed.

(** At height 0 the unsigned difference to the last heartbeat wraps: an
    expired name that is still within its reclaim period counts as free. *)
Theorem pool_check_reclaims_early :
  let s := check_domain_expiry sample_state 22000 in
  fst <$> @process_domain_registration sample_crypto sample_params empty_policy_db sample_ind true
    (sample_reg_tx (str "shop..io") 2) 0 true s = Some success /\
  fst <$> @process_domain_registration sample_crypto sample_params empty_policy_db sample_ind true
    (sample_reg_tx (str "shop..io") 2) 22000 true s = Some already_registered.
Proof. split; vm_compute; reflexivity. Qed.

(** Two heartbeats at one height whose counts go down are undone in the wrong
    order: the rollback does not restore the record. *)
Theorem heartbeat_rollback_wrong_order :
  let s1 := sample_beaten 200 5 10 sample_state in
  let s2 := sample_beaten 300 6 3 s1 in
  let s3 := sample_beaten 300 7 2 s2 in
  heartbeat_count <$> m_vns_domain_registry s1 !! str "shop..io" = Some 10 /\
  heartbeat_count <$> m_vns_domain_registry (rollback_heartbeats s3 300) !! str "shop..io" = Some 3.
Proof. split; vm_compute; reflexivity. Qed.

(** The key the name would have had before the popped block. *)
Definition sample_xfer_tx : transaction :=
  {| tx_version := 2; tx_vout := [];
     tx_extra := build_transfer_extra (str "shop..io") (replicate 32 8)
       (@cn_fast_hash sample_crypto (str "shop..io" ++ replicate 32 8) ++ replicate 32 7);
     tx_outPk := []; tx_hash := replicate 32 3 |}.

(** A pop does not undo a transfer: the new owner keeps the name although the
    transfer's block is gone. *)
Theorem pop_keeps_transfer :
  exists s', @process_domain_registration sample_crypto sample_params empty_policy_db sample_ind true
      sample_xfer_tx 150 false sample_state = Some (success, s') /\
    resolve_domain s' (str "shop..io") <> resolve_domain sample_state (str "shop..io") /\
    resolve_domain (pop_block_domains s' [sample_xfer_tx] 151) (str "shop..io")
    = resolve_domain s' (str "shop..io").
Proof.
  eexists. split; [vm_compute; reflexivity|]. split; [by vm_compute|]. vm_compute. reflexivity.
Qed.

(** *** Instances for the theorems of [RegistryProofs] *)

Definition sample_record : vns_domain_record :=
  new_record (sample_reg_fields (str "shop..io")) 1000000000000 100 (sample_reg_tx (str "shop..io") 1).

Definition sample_state_xfer : vns_state :=
  match @process_domain_registration sample_crypto sample_params empty_policy_db sample_ind true
    sample_xfer_tx 150 false sample_state with
  | Some (_, s) => s
  | None => empty_state
  end.


