(* ===== verification/ParamExecution.v ===== *)
(** * Execution of parameter proposals ([src/cryptonote_core/blockchain.cpp],
      [src/governance/parameter_update.h], [execution.cpp], [parameter_manager.cpp])

    The payloads of a parameter proposal, what executing one writes to the
    policy tables, and how popping the block takes it back. *)

From S2P Require Import Prelude Archive Crypto DomainTables DomainName DomainExtra GovParams GovStore DomainPolicy Registry.

(** ** Payloads *)

Definition MIN_DOMAIN_TIER_FEE : Z := 100000000000.
Definition MAX_DOMAIN_TIER_FEE : Z := UINT64_MAX.

Record parameter_update_entry := { pue_parameter : Z; pue_value : Z }.
Record parameter_update_payload := { pup_version : Z; pup_entries : list parameter_update_entry }.
Record extension_update_payload := { eup_version : Z; eup_extension : bytes; eup_tier : Z }.
Record label_policy_update_payload := { lpu_version : Z; lpu_term : bytes; lpu_enable : bool }.
Record exact_domain_tier_update_payload :=
  { etu_version : Z; etu_domain : bytes; etu_enable : bool; etu_tier : Z }.
Record exact_domain_ban_update_payload := { ebu_version : Z; ebu_domain : bytes; ebu_enable : bool }.
Record parameter_execution_payload := { pep_version : Z; pep_proposal_id : hash }.

(** *** Writing *)

Definition write_entry (e : parameter_update_entry) : bytes :=
  write_varint (pue_parameter e) ++ write_varint (pue_value e).

Definition write_parameter_update (p : parameter_update_payload) : bytes :=
  write_varint (pup_version p) ++ write_container write_entry (pup_entries p).

Definition write_extension_update (p : extension_update_payload) : bytes :=
  write_varint (eup_version p) ++ write_archive_string (eup_extension p) ++ write_varint (eup_tier p).

Definition write_label_policy_update (p : label_policy_update_payload) : bytes :=
  write_varint (lpu_version p) ++ write_archive_string (lpu_term p) ++ write_bool (lpu_enable p).

Definition write_exact_domain_tier_update (p : exact_domain_tier_update_payload) : bytes :=
  write_varint (etu_version p) ++ write_archive_string (etu_domain p) ++ write_bool (etu_enable p) ++
  write_varint (etu_tier p).

Definition write_exact_domain_ban_update (p : exact_domain_ban_update_payload) : bytes :=
  write_varint (ebu_version p) ++ write_archive_string (ebu_domain p) ++ write_bool (ebu_enable p).

Definition write_parameter_execution (p : parameter_execution_payload) : bytes :=
  write_varint (pep_version p) ++ pep_proposal_id p.

Section execution.
(** How a [bool] is read from a byte other than 0 and 1. *)
Context (trap_bool : Z -> bool).

(** *** Reading *)

Definition read_entry : reader parameter_update_entry := fun d =>
  '(p, d) ← read_varint 8 d; '(v, d) ← read_varint 64 d;
  Some ({| pue_parameter := p; pue_value := v |}, d).

Definition read_parameter_update : reader parameter_update_payload := fun d =>
  '(v, d) ← read_varint 8 d; '(es, d) ← read_container read_entry d;
  Some ({| pup_version := v; pup_entries := es |}, d).

Definition read_extension_update : reader extension_update_payload := fun d =>
  '(v, d) ← read_varint 8 d; '(e, d) ← read_archive_string d; '(t, d) ← read_varint 8 d;
  Some ({| eup_version := v; eup_extension := e; eup_tier := t |}, d).

Definition read_label_policy_update : reader label_policy_update_payload := fun d =>
  '(v, d) ← read_varint 8 d; '(t, d) ← read_archive_string d; '(b, d) ← read_bool trap_bool d;
  Some ({| lpu_version := v; lpu_term := t; lpu_enable := b |}, d).

Definition read_exact_domain_tier_update : reader exact_domain_tier_update_payload := fun d =>
  '(v, d) ← read_varint 8 d; '(n, d) ← read_archive_string d; '(b, d) ← read_bool trap_bool d;
  '(t, d) ← read_varint 8 d;
  Some ({| etu_version := v; etu_domain := n; etu_enable := b; etu_tier := t |}, d).

Definition read_exact_domain_ban_update : reader exact_domain_ban_update_payload := fun d =>
  '(v, d) ← read_varint 8 d; '(n, d) ← read_archive_string d; '(b, d) ← read_bool trap_bool d;
  Some ({| ebu_version := v; ebu_domain := n; ebu_enable := b |}, d).

Definition read_parameter_execution : reader parameter_execution_payload := fun d =>
  '(v, d) ← read_varint 8 d; '(h, d) ← read_raw 32 d;
  Some ({| pep_version := v; pep_proposal_id := h |}, d).

(** ** Parameters in force ([ParameterManager]) *)

Definition default_parameter (param : Z) : Z :=
  match param with
  | 0 => 10000000
  | 1 => 10
  | 2 => 18
  | 3 => 720
  | 4 => 14
  | 5 => 100000000000
  | 6 => 1000000000000
  | 7 => 10000000000000
  | 8 => 100000000000000
  | 9 => 1000000000000000
  | 10 => 10000000000000000
  | _ => 0
  end.

(** [ParameterManager::get_parameter] *)
Definition get_governance_parameter (db : policy_db) (param height : Z) : Z :=
  match get_parameter db param height with
  | Some value => value
  | None => default_parameter param
  end.

Definition execution_delay : Z := 3.

(** [ParameterManager::rollback_block] *)
Definition parameters_rollback_block (db : policy_db) (height : Z) : policy_db :=
  let db := remove_parameter_records_by_height db height in
  let db := remove_extension_policy_records_by_height db height in
  let db := remove_premium_label_policy_records_by_height db height in
  let db := remove_banned_label_policy_records_by_height db height in
  let db := remove_banned_extension_policy_records_by_height db height in
  let db := remove_exact_domain_ban_policy_records_by_height db height in
  remove_exact_domain_tier_policy_records_by_height db height.

(** ** Executing a proposal *)

(** [return false], an exception of a database write with the tables as they
    are then, or [return true]. *)
Inductive exec_outcome :=
| exec_refused
| exec_threw (db : policy_db)
| exec_done (db : policy_db).

Definition put (db : policy_db) (r : option policy_db) : exec_outcome :=
  match r with Some db' => exec_done db' | None => exec_threw db end.

(** [memcpy(dst, s.c_str(), s.size())] into a zeroed buffer it fits. *)
Definition memcpy_buf (n : nat) (s : bytes) : bytes := s ++ replicate (n - length s) 0.

Definition with_status (rec : proposal_record) (st : Z) (ex : bool) (h : Z) : proposal_record :=
  {| proposal_id := proposal_id rec; ptype := ptype rec; title := title rec;
     description := description rec; recipient := recipient rec; amount := amount rec;
     voting_period_days := voting_period_days rec; submission_height := submission_height rec;
     voting_end_height := voting_end_height rec; tally_key_id := tally_key_id rec;
     submission_tx_hash := submission_tx_hash rec; executed := ex; status := st;
     status_height := h; recipient_view_public_key := recipient_view_public_key rec;
     is_subaddress := is_subaddress rec |}.

Definition add_proposal_record (db : policy_db) (id : hash) (rec : proposal_record) : policy_db :=
  set_proposals db (<[id := rec]> (proposals db)).

Definition add_proposal_execution_record (db : policy_db) (per : proposal_execution_record) : policy_db :=
  set_proposal_executions db (<[per_proposal_id per := per]> (proposal_executions db)).

Definition remove_proposal_execution_record (db : policy_db) (id : hash) : policy_db :=
  set_proposal_executions db (delete id (proposal_executions db)).

(** The execution record and the proposal's new status. *)
Definition mark_executed (db : policy_db) (rec : proposal_record) (height : Z) : policy_db :=
  let per := {| per_proposal_id := proposal_id rec; per_execution_height := height;
                per_execution_tx_hash := null_hash;
                per_pre_execution_status_height := status_height rec |} in
  let db := add_proposal_execution_record db per in
  add_proposal_record db (proposal_id rec) (with_status rec PROPOSAL_STATUS_EXECUTED true height).

(** *** One branch per payload version *)

Section branches.
Context (pads : nat -> bytes)  (* the padding bytes of the i-th uninitialised [parameter_record] *)
  (gp : governance_params) (vns : vns_state) (db : policy_db) (height : Z) (rec : proposal_record).

(** The validation loop of version 1. *)
Fixpoint entries_ok (i : nat) (es : list parameter_update_entry) : bool :=
  match es with
  | [] => true
  | e :: es =>
      if negb (pue_parameter e =? u8 (5 + Z.of_nat i)) then false
      else if (pue_value e <? MIN_DOMAIN_TIER_FEE) || (MAX_DOMAIN_TIER_FEE <? pue_value e) then false
      else entries_ok (S i) es
  end.

(** The storing loop of version 1. *)
Fixpoint add_entries (i : nat) (es : list parameter_update_entry) (db : policy_db) : exec_outcome :=
  match es with
  | [] => exec_done db
  | e :: es =>
      let prec := {| prm_parameter := pue_parameter e; prm_pad := pads i; prm_value := pue_value e;
                     prm_activation_height := height; prm_proposal_height := submission_height rec;
                     prm_proposal_id := proposal_id rec |} in
      match add_parameter_record db prec with
      | Some db => add_entries (S i) es db
      | None => exec_threw db
      end
  end.

Definition exec_tier_fees (blob : bytes) : exec_outcome :=
  match parse_all read_parameter_update blob with
  | None => exec_refused
  | Some payload =>
      if negb (pup_version payload =? 1) || negb (zlen (pup_entries payload) =? 6) then exec_refused
      else if negb (entries_ok 0 (pup_entries payload)) then exec_refused
      else add_entries 0 (pup_entries payload) db
  end.

Definition exec_extension_tier (blob : bytes) : exec_outcome :=
  match parse_all read_extension_update blob with
  | None => exec_refused
  | Some payload =>
      if negb (eup_version payload =? 2) || (5 <? eup_tier payload) then exec_refused else
      let normalized_extension := normalize_vns_extension (eup_extension payload) in
      if is_empty normalized_extension then exec_refused else
      put db (add_extension_policy_record db
        {| ext_extension := strncpy_buf 16 normalized_extension; ext_tier := eup_tier payload;
           ext_activation_height := height; ext_proposal_height := submission_height rec;
           ext_proposal_id := proposal_id rec |})
  end.

(** The record the three label branches and the ban branch store. *)
Definition flag_record (n : nat) (buf : bytes) (flag : bool) : flag_policy_record n :=
  {| fl_term := buf; fl_flag := flag; fl_activation_height := height;
     fl_proposal_height := submission_height rec; fl_proposal_id := proposal_id rec |}.

(** The rule in force: the newest record, else the default. *)
Definition current_flag {n} (found : option (flag_policy_record n)) (dflt : bool) : bool :=
  match found with Some old_rec => fl_flag old_rec | None => dflt end.

Definition exec_premium_label (blob : bytes) : exec_outcome :=
  match parse_all read_label_policy_update blob with
  | None => exec_refused
  | Some payload =>
      if negb (lpu_version payload =? 3) then exec_refused else
      let normalized := normalize_vns_label (lpu_term payload) in
      if is_empty normalized then exec_refused
      else if (64 <=? length normalized)%nat then exec_refused
      else if eqb (lpu_enable payload)
        (current_flag (get_premium_label_policy db normalized height) (gp_is_premium_label gp normalized))
      then exec_refused
      else put db (add_premium_label_policy_record db
        (flag_record 64 (memcpy_buf 64 normalized) (lpu_enable payload)))
  end.

Definition exec_banned_label (blob : bytes) : exec_outcome :=
  match parse_all read_label_policy_update blob with
  | None => exec_refused
  | Some payload =>
      if negb (lpu_version payload =? 4) then exec_refused else
      let normalized := normalize_vns_label (lpu_term payload) in
      if is_empty normalized then exec_refused
      else if (64 <=? length normalized)%nat then exec_refused
      else if eqb (lpu_enable payload)
        (current_flag (get_banned_label_policy db normalized height) (gp_is_label_banned gp normalized))
      then exec_refused
      else put db (add_banned_label_policy_record db
        (flag_record 64 (memcpy_buf 64 normalized) (lpu_enable payload)))
  end.

Definition exec_banned_extension (blob : bytes) : exec_outcome :=
  match parse_all read_label_policy_update blob with
  | None => exec_refused
  | Some payload =>
      if negb (lpu_version payload =? 5) then exec_refused else
      let normalized := normalize_vns_extension (lpu_term payload) in
      if is_empty normalized then exec_refused
      else if (16 <=? length normalized)%nat then exec_refused
      else if eqb (lpu_enable payload)
        (current_flag (get_banned_extension_policy db normalized height) (gp_is_extension_banned gp normalized))
      then exec_refused
      else put db (add_banned_extension_policy_record db
        (flag_record 16 (memcpy_buf 16 normalized) (lpu_enable payload)))
  end.

Definition exec_exact_tier (blob : bytes) : exec_outcome :=
  match parse_all read_exact_domain_tier_update blob with
  | None => exec_refused
  | Some payload =>
      if negb (etu_version payload =? 6) || (5 <? etu_tier payload) then exec_refused else
      let normalized_domain := normalize_vns_domain (etu_domain payload) in
      if is_empty normalized_domain then exec_refused
      else if (64 <=? length normalized_domain)%nat then exec_refused else
      let '(current_has_override, current_tier) :=
        match get_exact_domain_tier_policy db normalized_domain height with
        | Some r => (edt_has_tier_override r, edt_tier r)
        | None => (false, 0)
        end in
      if eqb (etu_enable payload) current_has_override &&
         (negb (etu_enable payload) || (etu_tier payload =? current_tier))
      then exec_refused
      else put db (add_exact_domain_tier_policy_record db
        {| edt_domain := strncpy_buf 64 normalized_domain;
           edt_has_tier_override := etu_enable payload; edt_tier := etu_tier payload;
           edt_activation_height := height; edt_proposal_height := submission_height rec;
           edt_proposal_id := proposal_id rec |})
  end.

Definition exec_exact_ban (blob : bytes) : exec_outcome :=
  match parse_all read_exact_domain_ban_update blob with
  | None => exec_refused
  | Some payload =>
      if negb (ebu_version payload =? 7) then exec_refused else
      let normalized_domain := normalize_vns_domain (ebu_domain payload) in
      if is_empty normalized_domain then exec_refused
      else if (64 <=? length normalized_domain)%nat then exec_refused else
      match db_domains vns !! normalized_domain with
      | Some _ => exec_refused
      | None =>
      if eqb (ebu_enable payload)
        (current_flag (get_exact_domain_ban_policy db normalized_domain height) false)
      then exec_refused
      else put db (add_exact_domain_ban_policy_record db
        (flag_record 64 (strncpy_buf 64 normalized_domain) (ebu_enable payload)))
      end
  end.

(** The dispatch on the first byte of the proposal's data. *)
Definition exec_payload (blob : bytes) : exec_outcome :=
  match blob with
  | [] => exec_refused
  | payload_version :: _ =>
      if payload_version =? 1 then exec_tier_fees blob
      else if payload_version =? 2 then exec_extension_tier blob
      else if payload_version =? 3 then exec_premium_label blob
      else if payload_version =? 4 then exec_banned_label blob
      else if payload_version =? 5 then exec_banned_extension blob
      else if payload_version =? 6 then exec_exact_tier blob
      else if payload_version =? 7 then exec_exact_ban blob
      else exec_refused
  end.

End branches.

Definition process_parameter_execution (pads : nat -> bytes) (gp : governance_params) (vns : vns_state)
    (db : policy_db) (height : Z) (id : hash) : exec_outcome :=
  match proposals db !! id with
  | None => exec_refused
  | Some rec =>
      if negb (ptype rec =? 1) || negb (status rec =? PROPOSAL_STATUS_PASSED) || executed rec
      then exec_refused else
      let exec_delay := get_governance_parameter db execution_delay height in
      if height <? u64 (voting_end_height rec + exec_delay) then exec_refused else
      match proposal_data db !! id with
      | None => exec_refused
      | Some data_blob =>
          match exec_payload pads gp vns db height rec data_blob with
          | exec_done db' => exec_done (mark_executed db' rec height)
          | o => o
          end
      end
  end.

End execution.

(** [ExecutionManager::rollback] *)
Definition execution_rollback (db : policy_db) (id : hash) : policy_db :=
  match proposals db !! id with
  | None => db
  | Some rec =>
      if (status rec =? PROPOSAL_STATUS_EXECUTED) || (status rec =? PROPOSAL_STATUS_FAILED_EXECUTION) then
        let exec_record := proposal_executions db !! id in
        let previous_status_height :=
          match exec_record with
          | Some r => if per_pre_execution_status_height r =? 0 then status_height rec
                      else per_pre_execution_status_height r
          | None => status_height rec
          end in
        let db := add_proposal_record db (proposal_id rec)
          (with_status rec PROPOSAL_STATUS_PASSED false previous_status_height) in
        match exec_record with
        | Some _ => remove_proposal_execution_record db id
        | None => db
        end
      else db
  end.
