(* ===== verification/ParamExecutionProofs.v ===== *)
(** * What executing a parameter proposal does

    The policies in force at a height as an abstract state, the change a
    payload asks for, and the theorem that the execution code performs exactly
    that change from its height on; round trips of the payloads; execution
    happens once, is not retroactive, preserves the invariant of the tables
    and is undone by the rollback. *)

From S2P Require Import Prelude Archive Crypto DomainTables DomainName DomainExtra GovParams GovStore DomainPolicy Registry ParamExecution.

(** ** Payload round trips *)

Lemma reads_entry e :
  pue_parameter e ∈u 8 -> pue_value e ∈u 64 -> reads read_entry (write_entry e) e /\ write_entry e <> [].
Proof.
  intros Hp Hv. split.
  - intros rest. unfold read_entry, write_entry. rewrite <- app_assoc.
    read_with (reads_varint 8 _ ltac:(lia) Hp). read_with (reads_varint 64 _ ltac:(lia) Hv).
    by destruct e.
  - unfold write_entry, write_varint. cbn [write_varint_loop]. split_if; discriminate.
Qed.

(** Read the fields of a payload one by one. *)
Ltac read_fields :=
  rewrite <- ?app_assoc;
  repeat (first
    [ rewrite (reads_varint 8) by (done || lia) | rewrite reads_archive_string by done
    | rewrite reads_bool ]; cbn [mbind option_bind]).

(** Every governance payload is read back from the bytes written for it,
    with nothing left over: tier fees, extension tier, label and extension
    policies, exact-domain tier and ban, and the execution payload. *)
Theorem payload_roundtrip (trap_bool : Z -> bool) :
  (forall p, pup_version p ∈u 8 -> zlen (pup_entries p) < 2 ^ 64 ->
    Forall (fun e => pue_parameter e ∈u 8 /\ pue_value e ∈u 64) (pup_entries p) ->
    parse_all read_parameter_update (write_parameter_update p) = Some p) /\
  (forall p, eup_version p ∈u 8 -> zlen (eup_extension p) < 2 ^ 64 -> eup_tier p ∈u 8 ->
    parse_all read_extension_update (write_extension_update p) = Some p) /\
  (forall p, lpu_version p ∈u 8 -> zlen (lpu_term p) < 2 ^ 64 ->
    parse_all (read_label_policy_update trap_bool) (write_label_policy_update p) = Some p) /\
  (forall p, etu_version p ∈u 8 -> zlen (etu_domain p) < 2 ^ 64 -> etu_tier p ∈u 8 ->
    parse_all (read_exact_domain_tier_update trap_bool) (write_exact_domain_tier_update p) = Some p) /\
  (forall p, ebu_version p ∈u 8 -> zlen (ebu_domain p) < 2 ^ 64 ->
    parse_all (read_exact_domain_ban_update trap_bool) (write_exact_domain_ban_update p) = Some p) /\
  (forall p, pep_version p ∈u 8 -> length (pep_proposal_id p) = 32%nat ->
    parse_all read_parameter_execution (write_parameter_execution p) = Some p).
Proof.
  split_and!; intros p Hv; intros; apply parse_all_reads; intros rest.
  - unfold read_parameter_update, write_parameter_update. rewrite <- app_assoc.
    read_with (reads_varint 8 _ ltac:(lia) Hv). rewrite reads_container; [by destruct p|done|].
    eapply Forall_impl; [eassumption|]. intros e [? ?]. by apply reads_entry.
  - unfold read_extension_update, write_extension_update. read_fields. by destruct p.
  - unfold read_label_policy_update, write_label_policy_update. read_fields. by destruct p.
  - unfold read_exact_domain_tier_update, write_exact_domain_tier_update. read_fields. by destruct p.
  - unfold read_exact_domain_ban_update, write_exact_domain_ban_update. read_fields. by destruct p.
  - unfold read_parameter_execution, write_parameter_execution. rewrite <- app_assoc.
    read_with (reads_varint 8 _ ltac:(lia) Hv). rewrite reads_raw by done. by destruct p.
Qed.

Lemma payload_roundtrip_witness :
  parse_all read_extension_update
    (write_extension_update {| eup_version := 2; eup_extension := str "io"; eup_tier := 3 |})
  = Some {| eup_version := 2; eup_extension := str "io"; eup_tier := 3 |}.
Proof.
  apply (proj1 (proj2 (payload_roundtrip (fun _ => false))));
    cbn [eup_version eup_extension eup_tier]; [lia|reflexivity|lia].
Defined.

(** ** The policies in force, abstractly *)

(** What the tables say at a height, by C string: a DAO fee per parameter, a
    tier per extension, a flag per label, extension and exact name, and for an
    exact name an override that is set or withdrawn. *)
Record policies := {
  p_fee : Z -> option Z;
  p_extension : bytes -> option Z;
  p_premium : bytes -> option bool;
  p_label_ban : bytes -> option bool;
  p_extension_ban : bytes -> option bool;
  p_exact_ban : bytes -> option bool;
  p_exact_tier : bytes -> option (option Z);
}.

Definition override_of (r : exact_domain_tier_policy_record) : option Z :=
  if edt_has_tier_override r then Some (edt_tier r) else None.

Definition in_force (db : policy_db) (h : Z) : policies :=
  {| p_fee p := prm_value <$> get_parameter_record db p h;
     p_extension k := ext_tier <$> get_extension_policy db k h;
     p_premium k := fl_flag <$> get_premium_label_policy db k h;
     p_label_ban k := fl_flag <$> get_banned_label_policy db k h;
     p_extension_ban k := fl_flag <$> get_banned_extension_policy db k h;
     p_exact_ban k := fl_flag <$> get_exact_domain_ban_policy db k h;
     p_exact_tier k := override_of <$> get_exact_domain_tier_policy db k h |}.

(** The same answers. *)
Record policies_eq (x y : policies) : Prop := {
  pe_fee : forall k, p_fee x k = p_fee y k;
  pe_extension : forall k, p_extension x k = p_extension y k;
  pe_premium : forall k, p_premium x k = p_premium y k;
  pe_label_ban : forall k, p_label_ban x k = p_label_ban y k;
  pe_extension_ban : forall k, p_extension_ban x k = p_extension_ban y k;
  pe_exact_ban : forall k, p_exact_ban x k = p_exact_ban y k;
  pe_exact_tier : forall k, p_exact_tier x k = p_exact_tier y k;
}.

#[export] Instance policies_equiv : Equiv policies := policies_eq.
#[export] Instance policies_equivalence : Equivalence (≡@{policies}).
Proof.
  split; [intros x|intros x y []|intros x y z [] []]; constructor; intros; cbn in *;
    try done; try congruence; etrans; eauto.
Qed.

(** The change a payload asks for. *)
Inductive policy_change :=
| change_tier_fees (fees : list Z)
| change_extension_tier (ext : bytes) (t : Z)
| change_premium (label : bytes) (on : bool)
| change_label_ban (label : bytes) (on : bool)
| change_extension_ban (ext : bytes) (on : bool)
| change_exact_tier (name : bytes) (override : option Z)
| change_exact_ban (name : bytes) (on : bool).

(** Point update by C string. *)
Definition upd {A} (f : bytes -> option A) (name : bytes) (v : A) (k : bytes) : option A :=
  if beq (cstr k) name then Some v else f k.

Definition upd_fees (f : Z -> option Z) (fees : list Z) (p : Z) : option Z :=
  if (5 <=? p) && (p <? 5 + zlen fees) then fees !! Z.to_nat (p - 5) else f p.

Definition apply_change (c : policy_change) (p : policies) : policies :=
  let '(Build_policies fee ext prem lab bext ban tier) := p in
  match c with
  | change_tier_fees fees => Build_policies (upd_fees fee fees) ext prem lab bext ban tier
  | change_extension_tier e t => Build_policies fee (upd ext e t) prem lab bext ban tier
  | change_premium l b => Build_policies fee ext (upd prem l b) lab bext ban tier
  | change_label_ban l b => Build_policies fee ext prem (upd lab l b) bext ban tier
  | change_extension_ban e b => Build_policies fee ext prem lab (upd bext e b) ban tier
  | change_exact_tier d o => Build_policies fee ext prem lab bext ban (upd tier d o)
  | change_exact_ban d b => Build_policies fee ext prem lab bext (upd ban d b) tier
  end.

(** The change asks for what is in force already; fees and extension tiers may
    be set again. *)
Definition no_op (gp : governance_params) (p : policies) (c : policy_change) : bool :=
  match c with
  | change_tier_fees _ | change_extension_tier _ _ => false
  | change_premium l b => eqb b (default (gp_is_premium_label gp l) (p_premium p l))
  | change_label_ban l b => eqb b (default (gp_is_label_banned gp l) (p_label_ban p l))
  | change_extension_ban e b => eqb b (default (gp_is_extension_banned gp e) (p_extension_ban p e))
  | change_exact_tier d o => bool_decide (o = default None (p_exact_tier p d))
  | change_exact_ban d b => eqb b (default false (p_exact_ban p d))
  end.

(** A name somebody holds cannot be banned or unbanned. *)
Definition held (vns : vns_state) (c : policy_change) : bool :=
  match c with
  | change_exact_ban d _ => bool_decide (is_Some (db_domains vns !! d))
  | _ => false
  end.

(** No record of the keys of the change is as recent as the height. *)
Definition change_fresh (c : policy_change) (db : policy_db) (height : Z) : Prop :=
  match c with
  | change_tier_fees _ => forall p, 5 <= p <= 10 -> fresh (governance_parameters db) p height
  | change_extension_tier e _ => fresh (extension_policy db) e height
  | change_premium l _ => fresh (premium_label_policy db) l height
  | change_label_ban l _ => fresh (banned_label_policy db) l height
  | change_extension_ban e _ => fresh (banned_extension_policy db) e height
  | change_exact_tier d _ => fresh (exact_domain_tier_policy db) d height
  | change_exact_ban d _ => fresh (exact_domain_ban_policy db) d height
  end.

(** ** The invariant of the policy tables *)

Section row_inv.
Context {R K : Type} `{PolicyRowOk R K}.

Definition table_inv (ok : R -> Prop) (t : list R) : Prop :=
  wf_table t /\ Forall pr_sized t /\ Forall ok t.

Lemma table_inv_add ok t r t' :
  table_inv ok t -> 0 <= pr_activation r -> pr_sized r -> ok r -> add_record t r = Some t' ->
  table_inv ok t'.
Proof.
  intros (W & S & O) Hr Hs Ho ->%add_record_inv. split_and!; [by apply insert_row_wf|..];
    apply Forall_forall; intros x [->|Hx]%insert_row_elem; try done;
    rewrite Forall_forall in S, O; auto.
Qed.

Lemma table_inv_remove ok t h : table_inv ok t -> table_inv ok (remove_by_height t h).
Proof.
  intros (W & S & O). unfold remove_by_height. split_and!; [by apply filter_wf|..]; by apply Forall_filter_list.
Qed.
End row_inv.

(** Rows in cursor order and sized; DAO tiers are priced ones, DAO fees at
    least the minimum; a proposal is stored under its own id. *)
Record policy_inv (db : policy_db) : Prop := {
  pi_fees : table_inv (fun r => 5 <= prm_parameter r <= 10 ->
    MIN_DOMAIN_TIER_FEE <= prm_value r) (governance_parameters db);
  pi_extension : table_inv (fun r => 0 <= ext_tier r <= 5) (extension_policy db);
  pi_premium : table_inv (fun _ => True) (premium_label_policy db);
  pi_label_ban : table_inv (fun _ => True) (banned_label_policy db);
  pi_extension_ban : table_inv (fun _ => True) (banned_extension_policy db);
  pi_exact_ban : table_inv (fun _ => True) (exact_domain_ban_policy db);
  pi_exact_tier : table_inv (fun r => 0 <= edt_tier r <= 5) (exact_domain_tier_policy db);
  pi_proposals : forall id rec, proposals db !! id = Some rec -> proposal_id rec = id;
}.

(** ** From bytes to changes *)

Section refinement.
Context (trap_bool : Z -> bool).

(** The change in a proposal's data, when it is a valid payload. *)
Definition decode_tier_fees (blob : bytes) : option policy_change :=
  p ← parse_all read_parameter_update blob;
  if (pup_version p =? 1) && (zlen (pup_entries p) =? 6) && entries_ok 0 (pup_entries p)
  then Some (change_tier_fees (map pue_value (pup_entries p))) else None.

Definition decode_extension_tier (blob : bytes) : option policy_change :=
  p ← parse_all read_extension_update blob;
  let e := normalize_vns_extension (eup_extension p) in
  if (eup_version p =? 2) && (eup_tier p <=? 5) && negb (is_empty e)
  then Some (change_extension_tier e (eup_tier p)) else None.

Definition decode_label (version : Z) (norm : bytes -> bytes) (change : bytes -> bool -> policy_change)
    (blob : bytes) : option policy_change :=
  p ← parse_all (read_label_policy_update trap_bool) blob;
  let l := norm (lpu_term p) in
  if (lpu_version p =? version) && negb (is_empty l) then Some (change l (lpu_enable p)) else None.

Definition decode_exact_tier (blob : bytes) : option policy_change :=
  p ← parse_all (read_exact_domain_tier_update trap_bool) blob;
  let d := normalize_vns_domain (etu_domain p) in
  if (etu_version p =? 6) && (etu_tier p <=? 5) && negb (is_empty d)
  then Some (change_exact_tier d (if etu_enable p then Some (etu_tier p) else None)) else None.

Definition decode_exact_ban (blob : bytes) : option policy_change :=
  p ← parse_all (read_exact_domain_ban_update trap_bool) blob;
  let d := normalize_vns_domain (ebu_domain p) in
  if (ebu_version p =? 7) && negb (is_empty d) then Some (change_exact_ban d (ebu_enable p)) else None.

Definition decode_change (blob : bytes) : option policy_change :=
  match blob with
  | [] => None
  | v :: _ =>
      if v =? 1 then decode_tier_fees blob
      else if v =? 2 then decode_extension_tier blob
      else if v =? 3 then decode_label 3 normalize_vns_label change_premium blob
      else if v =? 4 then decode_label 4 normalize_vns_label change_label_ban blob
      else if v =? 5 then decode_label 5 normalize_vns_extension change_extension_ban blob
      else if v =? 6 then decode_exact_tier blob
      else if v =? 7 then decode_exact_ban blob
      else None
  end.

(** Whether and how a proposal may be executed now. *)
Definition executable (gp : governance_params) (vns : vns_state) (db : policy_db) (height : Z) (id : hash)
    : option (proposal_record * policy_change) :=
  rec ← proposals db !! id;
  if (ptype rec =? 1) && (status rec =? PROPOSAL_STATUS_PASSED) && negb (executed rec) &&
     (u64 (voting_end_height rec + get_governance_parameter db execution_delay height) <=? height)
  then
    blob ← proposal_data db !! id;
    c ← decode_change blob;
    if no_op gp (in_force db height) c || held vns c then None else Some (rec, c)
  else None.

(** *** Buffers *)

Lemma memcpy_buf_key n s :
  no_nul s -> (length s < n)%nat -> cstr (memcpy_buf n s) = s /\ length (memcpy_buf n s) = n.
Proof.
  intros Hs Hl. unfold memcpy_buf. split; [by apply cstr_pad|].
  rewrite length_app, length_replicate. lia.
Qed.

Lemma strncpy_buf_key n s :
  no_nul s -> (length s < n)%nat -> cstr (strncpy_buf n s) = s /\ length (strncpy_buf n s) = n.
Proof. intros. split; [by apply cstr_strncpy_buf|]. apply length_strncpy_buf. lia. Qed.

Lemma stored_matches n s buf :
  (length s < n)%nat -> cstr buf = s -> forall k, strncmp_eq n buf k = beq (cstr k) s.
Proof. intros Hl <- k. by rewrite strncmp_eq_stored. Qed.

Lemma read_varint_nonneg bits d v d' : read_varint bits d = Some (v, d') -> 0 <= v.
Proof.
  unfold read_varint. generalize 0 at 1. assert (0 <= 0) as Ha by lia. revert Ha. generalize 0 at 2 3.
  induction d as [|c d IH]; intros acc Ha shift; cbn [read_varint_loop]; [by intros [= <- _]|].
  split_if; [done|]. split_if; [done|]. cbv zeta.
  assert (0 <= Z.lor acc (Z.shiftl (Z.land c 127) shift)) as Hn.
  { apply Z.lor_nonneg. split; [done|]. apply Z.shiftl_nonneg, Z.land_nonneg. lia. }
  split_if; [by intros [= <- _]|]. by apply IH.
Qed.

(** *** One table changes *)

(** Storing a row whose key is the C string [name]: the write succeeds, and
    the answers about [name] change from the row's height on. *)
Lemma store_row {R : Type} `{PolicyRowOk R bytes} {A} (ok : R -> Prop) (view : R -> A) t r name :
  table_inv ok t -> 0 <= pr_activation r -> pr_sized r ->
  (forall k, pr_matches r k = beq (cstr k) name) -> no_nul name ->
  (forall x k, pr_matches x k = pr_matches x (cstr k)) ->
  fresh t name (pr_activation r) ->
  exists t', add_record t r = Some t' /\ forall k h,
    view <$> get_policy t' k h
    = (if h <? pr_activation r then (fun k => view <$> get_policy t k h)
       else upd (fun k => view <$> get_policy t k h) name (view r)) k.
Proof.
  intros (W & Z & _) Hr Hs M N C F. eexists. split.
  - eapply add_record_fresh; [done|done| |exact F]. by rewrite M, cstr_id, beq_refl.
  - intros k h. rewrite (get_policy_add t _ r) by (done || (by eapply add_record_fresh; [done..| |exact F];
      rewrite M, cstr_id, beq_refl) || (rewrite M; intros E%bool_decide_eq_true; unfold fresh in *;
      eapply Forall_impl; [exact F|]; intros x; cbn; by rewrite (C x k), E)).
    unfold upd. rewrite M. destruct (Z.ltb_spec h (pr_activation r)) as [L|L].
    + by rewrite (proj2 (Z.leb_gt _ _)), andb_false_r by lia.
    + rewrite (proj2 (Z.leb_le _ _)), andb_true_r by lia. by destruct (beq (cstr k) name).
Qed.

Lemma strncmp_cstr n x k : strncmp_eq n x k = strncmp_eq n x (cstr k).
Proof. unfold strncmp_eq. by rewrite (cstr_id (cstr k)) by apply cstr_no_nul. Qed.


(** *** The relation between outcome and change *)

(** [db'] differs from [db] by the change [c], from [height] on. *)
Record changed (db : policy_db) (height : Z) (c : policy_change) (db' : policy_db) : Prop := {
  ch_inv : policy_inv db';
  ch_pending : pending_domain_policy db' = pending_domain_policy db;
  ch_proposals : proposals db' = proposals db;
  ch_data : proposal_data db' = proposal_data db;
  ch_executions : proposal_executions db' = proposal_executions db;
  ch_in_force : forall h,
    in_force db' h ≡ if h <? height then in_force db h else apply_change c (in_force db h);
}.

Definition refines (db : policy_db) (height : Z) (o : exec_outcome) (c : option policy_change) : Prop :=
  match c with
  | None => o = exec_refused
  | Some c => change_fresh c db height -> exists db', o = exec_done db' /\ changed db height c db'
  end.

Section one_table.
Context (db : policy_db) (height : Z) (Hinv : policy_inv db) (Hh : 0 <= height).

Lemma refines_extension e t rec :
  no_nul e -> (length e < 16)%nat -> 0 <= t <= 5 ->
  refines db height
    (put db (add_extension_policy_record db
      {| ext_extension := strncpy_buf 16 e; ext_tier := t; ext_activation_height := height;
         ext_proposal_height := submission_height rec; ext_proposal_id := proposal_id rec |}))
    (Some (change_extension_tier e t)).
Proof.
  intros N L Ht F. destruct (strncpy_buf_key 16 e N L) as [K1 K2]. unfold add_extension_policy_record.
  match goal with |- context [add_record _ ?r] => set (r0 := r) end.
  destruct (store_row _ ext_tier (extension_policy db) r0 e (pi_extension db Hinv)) as (t' & E & G);
    [done|done|by apply stored_matches|done|intros; apply strncmp_cstr|exact F|].
  rewrite E. cbn. eexists. split; [done|]. constructor; try done.
  - destruct Hinv. constructor; try done. apply (table_inv_add _ (extension_policy db) r0 t'); [assumption|exact Hh|exact K2|exact Ht|exact E].
  - intros h. specialize (fun k => G k h). cbn in G. split_if; constructor; cbn; try done; exact G.
Qed.

Lemma refines_exact_tier d en t rec :
  no_nul d -> (length d < 64)%nat -> 0 <= t <= 5 ->
  refines db height
    (put db (add_exact_domain_tier_policy_record db
      {| edt_domain := strncpy_buf 64 d; edt_has_tier_override := en; edt_tier := t;
         edt_activation_height := height; edt_proposal_height := submission_height rec;
         edt_proposal_id := proposal_id rec |}))
    (Some (change_exact_tier d (if en then Some t else None))).
Proof.
  intros N L Ht F. destruct (strncpy_buf_key 64 d N L) as [K1 K2]. unfold add_exact_domain_tier_policy_record.
  match goal with |- context [add_record _ ?r] => set (r0 := r) end.
  destruct (store_row _ override_of (exact_domain_tier_policy db) r0 d (pi_exact_tier db Hinv)) as (t' & E & G);
    [done|done|by apply stored_matches|done|intros; apply strncmp_cstr|exact F|].
  rewrite E. cbn. eexists. split; [done|]. constructor; try done.
  - destruct Hinv. constructor; try done. apply (table_inv_add _ (exact_domain_tier_policy db) r0 t'); [assumption|exact Hh|exact K2|exact Ht|exact E].
  - intros h. specialize (fun k => G k h). cbn in G. split_if; constructor; cbn; try done; exact G.
Qed.

(** The four tables of flags. *)
Lemma store_flag n (t : list (flag_policy_record n)) name buf on rec :
  table_inv (fun _ => True) t -> no_nul name -> (length name < n)%nat ->
  cstr buf = name -> length buf = n -> fresh t name height ->
  let r := flag_record height rec n buf on in
  exists t', add_record t r = Some t' /\ table_inv (fun _ => True) t' /\ forall k h,
    fl_flag <$> get_policy t' k h
    = (if h <? height then (fun k => fl_flag <$> get_policy t k h)
       else upd (fun k => fl_flag <$> get_policy t k h) name on) k.
Proof.
  intros T N L K1 K2 F r. destruct (store_row _ fl_flag t r name T) as (t' & E & G);
    [done|done|by apply stored_matches|done|intros; apply strncmp_cstr|exact F|].
  exists t'. split_and!; [done| |done].
  apply (table_inv_add _ t r t'); [assumption|exact Hh|exact K2|exact I|exact E].
Qed.


Lemma refines_premium l buf on rec :
  no_nul l -> (length l < 64)%nat -> cstr buf = l /\ length buf = 64%nat ->
  refines db height (put db (add_premium_label_policy_record db (flag_record height rec 64 buf on)))
    (Some (change_premium l on)).
Proof.
  intros N L [K1 K2] F. unfold add_premium_label_policy_record.
  destruct (store_flag 64 _ l buf on rec (pi_premium db Hinv) N L K1 K2 F) as (t' & E & T & G).
  cbv zeta in E. unfold premium_label_policy_record in *. rewrite E. eexists. split; [done|].
  constructor; try done; [by destruct Hinv; constructor|].
  intros h. specialize (fun k => G k h). split_if; constructor; try done; exact G.
Qed.

Lemma refines_label_ban l buf on rec :
  no_nul l -> (length l < 64)%nat -> cstr buf = l /\ length buf = 64%nat ->
  refines db height (put db (add_banned_label_policy_record db (flag_record height rec 64 buf on)))
    (Some (change_label_ban l on)).
Proof.
  intros N L [K1 K2] F. unfold add_banned_label_policy_record.
  destruct (store_flag 64 _ l buf on rec (pi_label_ban db Hinv) N L K1 K2 F) as (t' & E & T & G).
  cbv zeta in E. unfold banned_label_policy_record in *. rewrite E. eexists. split; [done|].
  constructor; try done; [by destruct Hinv; constructor|].
  intros h. specialize (fun k => G k h). split_if; constructor; try done; exact G.
Qed.

Lemma refines_extension_ban e buf on rec :
  no_nul e -> (length e < 16)%nat -> cstr buf = e /\ length buf = 16%nat ->
  refines db height (put db (add_banned_extension_policy_record db (flag_record height rec 16 buf on)))
    (Some (change_extension_ban e on)).
Proof.
  intros N L [K1 K2] F. unfold add_banned_extension_policy_record.
  destruct (store_flag 16 _ e buf on rec (pi_extension_ban db Hinv) N L K1 K2 F) as (t' & E & T & G).
  cbv zeta in E. unfold banned_extension_policy_record in *. rewrite E. eexists. split; [done|].
  constructor; try done; [by destruct Hinv; constructor|].
  intros h. specialize (fun k => G k h). split_if; constructor; try done; exact G.
Qed.

Lemma refines_exact_ban d buf on rec :
  no_nul d -> (length d < 64)%nat -> cstr buf = d /\ length buf = 64%nat ->
  refines db height (put db (add_exact_domain_ban_policy_record db (flag_record height rec 64 buf on)))
    (Some (change_exact_ban d on)).
Proof.
  intros N L [K1 K2] F. unfold add_exact_domain_ban_policy_record.
  destruct (store_flag 64 _ d buf on rec (pi_exact_ban db Hinv) N L K1 K2 F) as (t' & E & T & G).
  cbv zeta in E. unfold exact_domain_ban_policy_record in *. rewrite E. eexists. split; [done|].
  constructor; try done; [by destruct Hinv; constructor|].
  intros h. specialize (fun k => G k h). split_if; constructor; try done; exact G.
Qed.

End one_table.

(** The six fee records. *)
Lemma add_entries_spec pads height rec (Hh : 0 <= height) (Hp : forall i, length (pads i) = 7%nat) es :
  forall i db, policy_inv db -> (i + length es <= 6)%nat -> entries_ok i es = true ->
  (forall p, 5 + Z.of_nat i <= p < 5 + Z.of_nat i + zlen es -> fresh (governance_parameters db) p height) ->
  exists t, add_entries pads height rec i es db = exec_done (set_governance_parameters db t) /\
    policy_inv (set_governance_parameters db t) /\
    forall p h, prm_value <$> get_policy t p h
      = if (height <=? h) && (5 + Z.of_nat i <=? p) && (p <? 5 + Z.of_nat i + zlen es)
        then map pue_value es !! Z.to_nat (p - 5 - Z.of_nat i)
        else prm_value <$> get_policy (governance_parameters db) p h.
Proof.
  induction es as [|e es IH]; intros i db Hinv Hl Hok Hf.
  - exists (governance_parameters db). cbn. destruct db, Hinv. split_and!; [done|done|].
    intros p h. replace ((height <=? h) && (5 + Z.of_nat i <=? p) && (p <? 5 + Z.of_nat i + zlen (A:=parameter_update_entry) []))
      with false; [done|]. unfold zlen. cbn. lia.
  - cbn [add_entries]. cbn [entries_ok length] in *. split_if_in Hok; [done|]. split_if_in Hok; [done|].
    match goal with |- context [add_parameter_record _ ?r] => set (r0 := r) end.
    assert (pue_parameter e = 5 + Z.of_nat i) as Ep.
    { to_prop. unfold u8 in *. rewrite Z.mod_small in * by (cbn in *; lia). done. }
    assert (fresh (governance_parameters db) (pue_parameter e) (pr_activation r0)) as Fe.
    { rewrite Ep. apply Hf. unfold zlen. cbn. lia. }
    destruct (pi_fees db Hinv) as (W & Sz & O).
    pose proof (add_record_fresh _ r0 (pue_parameter e) Sz (Hp i) (Z.eqb_refl _) Fe) as Ea.
    unfold add_parameter_record. rewrite Ea. cbn [fmap option_fmap option_map].
    set (db1 := set_governance_parameters db (insert_row r0 (governance_parameters db))).
    assert (policy_inv db1) as Hinv1.
    { destruct Hinv. constructor; try done.
      apply (table_inv_add _ (governance_parameters db) r0); [done|exact Hh|exact (Hp i)| |exact Ea].
      cbn. to_prop. lia. }
    destruct (IH (S i) db1 Hinv1) as (t & Et & Hinv' & G); [cbn; lia|done| |].
    { intros p Hr. cbn. unfold fresh. apply Forall_forall. intros x [->|Hx]%insert_row_elem.
      - cbn. intros ?%Z.eqb_eq. lia.
      - assert (fresh (governance_parameters db) p height) as Fp by (apply Hf; unfold zlen in *; cbn in *; lia).
        unfold fresh in Fp. rewrite Forall_forall in Fp. auto. }
    exists t. split; [exact Et|]. split; [exact Hinv'|]. intros p h. rewrite G.
    change (governance_parameters db1) with (insert_row r0 (governance_parameters db)).
    rewrite (get_policy_add _ _ r0 p h W Hh Ea) by (cbn; intros <-%Z.eqb_eq; exact Fe).
    change (pr_matches r0 p) with (pue_parameter e =? p). change (pr_activation r0) with height.
    unfold zlen. cbn [length map]. rewrite Ep.
    destruct (Z.leb_spec height h); cbn [andb]; [|by rewrite andb_false_r].
    destruct (Z.eqb_spec (5 + Z.of_nat i) p) as [<-|Np].
    + replace ((5 + Z.of_nat (S i) <=? 5 + Z.of_nat i) && _) with false by lia.
      rewrite !(proj2 (Z.leb_le _ _)), (proj2 (Z.ltb_lt _ _)) by lia. cbn [andb].
      replace (Z.to_nat (5 + Z.of_nat i - 5 - Z.of_nat i)) with 0%nat by lia. done.
    + cbn [andb]. destruct (Z.leb_spec (5 + Z.of_nat (S i)) p) as [L|L]; cbn [andb].
      2: { replace ((5 + Z.of_nat i <=? p) && _) with false by lia. done. }
      replace (5 + Z.of_nat i <=? p) with true by lia. cbn [andb].
      replace (p <? 5 + Z.of_nat (S i) + Z.of_nat (length es)) with (p <? 5 + Z.of_nat i + Z.of_nat (S (length es))) by lia.
      split_if; [|done]. replace (Z.to_nat (p - 5 - Z.of_nat i)) with (S (Z.to_nat (p - 5 - Z.of_nat (S i)))) by lia.
      done.
Qed.

(** *** The branches against the decoded change *)

Section branches.
Context (pads : nat -> bytes) (gp : governance_params) (vns : vns_state) (db : policy_db) (height : Z)
  (rec : proposal_record) (Hinv : policy_inv db) (Hh : 0 <= height) (Hp : forall i, length (pads i) = 7%nat).

(** The change unless it is refused by the state. *)
Definition admissible (c : policy_change) : option policy_change :=
  if no_op gp (in_force db height) c || held vns c then None else Some c.

Lemma parse_tier_nonneg blob p : parse_all read_extension_update blob = Some p -> 0 <= eup_tier p.
Proof.
  unfold parse_all, read_extension_update. intros H.
  destruct (read_varint 8 blob) as [[v d]|]; [cbn in H|done].
  destruct (read_archive_string d) as [[e d1]|]; [cbn in H|done].
  destruct (read_varint 8 d1) as [[t d2]|] eqn:E; [cbn in H|done].
  destruct d2; [|done]. injection H as <-. by eapply read_varint_nonneg.
Qed.

Lemma parse_exact_tier_nonneg blob p :
  parse_all (read_exact_domain_tier_update trap_bool) blob = Some p -> 0 <= etu_tier p.
Proof.
  unfold parse_all, read_exact_domain_tier_update. intros H.
  destruct (read_varint 8 blob) as [[v d]|]; [cbn in H|done].
  destruct (read_archive_string d) as [[e d1]|]; [cbn in H|done].
  destruct (read_bool trap_bool d1) as [[b d2]|]; [cbn in H|done].
  destruct (read_varint 8 d2) as [[t d3]|] eqn:E; [cbn in H|done].
  destruct d3; [|done]. injection H as <-. by eapply read_varint_nonneg.
Qed.

(** The rule in force, read from the records or from the abstract state. *)
Lemma current_flag_in_force n (found : option (flag_policy_record n)) dflt :
  current_flag found dflt = default dflt (fl_flag <$> found).
Proof. by destruct found. Qed.

Lemma exec_tier_fees_spec blob :
  refines db height (exec_tier_fees pads db height rec blob) (decode_tier_fees blob ≫= admissible).
Proof.
  unfold exec_tier_fees, decode_tier_fees. destruct (parse_all _ _) as [p|]; [cbn [mbind option_bind]|done].
  destruct (pup_version p =? 1); [cbn [negb orb andb]|done].
  destruct (zlen (pup_entries p) =? 6) eqn:L; [cbn [negb andb]|done].
  destruct (entries_ok 0 (pup_entries p)) eqn:O; [cbn|done]. apply Z.eqb_eq in L.
  intros F. destruct (add_entries_spec pads height rec Hh Hp (pup_entries p) 0 db Hinv) as (t & -> & I & G);
    [unfold zlen in L; lia|done|intros q Hq; apply F; lia|].
  eexists. split; [done|]. constructor; try done. intros h.
  destruct (Z.ltb_spec h height) as [Lh|Lh]; constructor; try done; intros q; (etrans; [apply G|]).
  - by rewrite (proj2 (Z.leb_gt _ _)) by lia.
  - rewrite (proj2 (Z.leb_le _ _)) by lia. cbn [p_fee apply_change in_force andb].
    unfold upd_fees, zlen. rewrite length_map. cbn [Z.of_nat]. by rewrite Z.add_0_r, Z.sub_0_r.
Qed.

Lemma exec_extension_tier_spec blob :
  refines db height (exec_extension_tier db height rec blob) (decode_extension_tier blob ≫= admissible).
Proof.
  unfold exec_extension_tier, decode_extension_tier.
  destruct (parse_all _ _) as [p|] eqn:P; [cbn [mbind option_bind]|done]. apply parse_tier_nonneg in P.
  destruct (eup_version p =? 2); [cbn [negb orb andb]|done].
  destruct (Z.ltb_spec 5 (eup_tier p)); [by rewrite (proj2 (Z.leb_gt _ _)) by lia|].
  rewrite (proj2 (Z.leb_le _ _)) by lia. cbv zeta. cbn [andb].
  destruct (is_empty _) eqn:E; [done|]. cbn [negb mbind option_bind]. unfold admissible. cbn [no_op held orb].
  destruct (normalize_extension_no_nul (eup_extension p)). by apply refines_extension.
Qed.

(** The three branches on labels and extensions: guards, then the write. *)
Ltac label_branch norm_lemma :=
  unfold decode_label;
  destruct (parse_all _ _) as [p|]; [cbn [mbind option_bind]|done];
  destruct (lpu_version p =? _); [cbn [negb andb]; cbv zeta|done];
  destruct (norm_lemma (lpu_term p)) as [N L];
  destruct (is_empty _) eqn:?; [done|];
  rewrite (proj2 (Nat.leb_gt _ _)) by exact L; cbn [negb mbind option_bind];
  unfold admissible; cbn [no_op held]; rewrite orb_false_r, current_flag_in_force.

Lemma exec_premium_label_spec blob :
  refines db height (exec_premium_label trap_bool gp db height rec blob)
    (decode_label 3 normalize_vns_label change_premium blob ≫= admissible).
Proof.
  unfold exec_premium_label. label_branch normalize_label_no_nul. cbn [p_premium in_force].
  split_if; [done|]. apply refines_premium; try done. by apply memcpy_buf_key.
Qed.

Lemma exec_banned_label_spec blob :
  refines db height (exec_banned_label trap_bool gp db height rec blob)
    (decode_label 4 normalize_vns_label change_label_ban blob ≫= admissible).
Proof.
  unfold exec_banned_label. label_branch normalize_label_no_nul. cbn [p_label_ban in_force].
  split_if; [done|]. apply refines_label_ban; try done. by apply memcpy_buf_key.
Qed.

Lemma exec_banned_extension_spec blob :
  refines db height (exec_banned_extension trap_bool gp db height rec blob)
    (decode_label 5 normalize_vns_extension change_extension_ban blob ≫= admissible).
Proof.
  unfold exec_banned_extension. label_branch normalize_extension_no_nul. cbn [p_extension_ban in_force].
  split_if; [done|]. apply refines_extension_ban; try done. by apply memcpy_buf_key.
Qed.

(** The no-op test on overrides compares the override, not the stored tier. *)
Lemma exact_tier_no_op (en : bool) t (cur : option exact_domain_tier_policy_record) :
  (let '(has, ct) := match cur with Some r => (edt_has_tier_override r, edt_tier r) | None => (false, 0) end in
   eqb en has && (negb en || (t =? ct)))
  = bool_decide ((if en then Some t else None) = default None (override_of <$> cur)).
Proof.
  apply eq_true_iff_eq. rewrite bool_decide_eq_true.
  destruct cur as [r|]; cbn; [unfold override_of; destruct (edt_has_tier_override r)|];
    destruct en; cbn; rewrite ?Z.eqb_eq; split; congruence.
Qed.

Lemma exec_exact_tier_spec blob :
  refines db height (exec_exact_tier trap_bool db height rec blob) (decode_exact_tier blob ≫= admissible).
Proof.
  unfold exec_exact_tier, decode_exact_tier.
  destruct (parse_all _ _) as [p|] eqn:P; [cbn [mbind option_bind]|done]. apply parse_exact_tier_nonneg in P.
  destruct (etu_version p =? 6); [cbn [negb orb andb]|done].
  destruct (Z.ltb_spec 5 (etu_tier p)); [by rewrite (proj2 (Z.leb_gt _ _)) by lia|].
  rewrite (proj2 (Z.leb_le _ _)) by lia. cbv zeta. cbn [andb].
  destruct (normalize_no_nul (etu_domain p)) as [N L].
  destruct (is_empty _) eqn:E; [done|]. cbn [negb mbind option_bind].
  rewrite (proj2 (Nat.leb_gt _ _)) by exact L. unfold admissible. cbn [no_op held]. rewrite orb_false_r.
  cbn [p_exact_tier in_force]. rewrite <- exact_tier_no_op.
  destruct (match get_exact_domain_tier_policy _ _ _ with Some _ => _ | None => _ end) as [has ct].
  split_if; [done|]. by apply refines_exact_tier.
Qed.

Lemma exec_exact_ban_spec blob :
  refines db height (exec_exact_ban trap_bool vns db height rec blob) (decode_exact_ban blob ≫= admissible).
Proof.
  unfold exec_exact_ban, decode_exact_ban.
  destruct (parse_all _ _) as [p|]; [cbn [mbind option_bind]|done].
  destruct (ebu_version p =? 7); [cbn [negb andb]; cbv zeta|done].
  destruct (normalize_no_nul (ebu_domain p)) as [N L].
  destruct (is_empty _) eqn:E; [done|]. cbn [negb mbind option_bind].
  rewrite (proj2 (Nat.leb_gt _ _)) by exact L. unfold admissible. cbn [no_op held p_exact_ban in_force].
  destruct (db_domains vns !! _) as [r|] eqn:D.
  - rewrite bool_decide_eq_true_2, orb_true_r by (by eexists). done.
  - rewrite bool_decide_eq_false_2, orb_false_r, current_flag_in_force by (by intros [? ?]).
    split_if; [done|]. apply refines_exact_ban; try done. by apply strncpy_buf_key.
Qed.

Lemma exec_payload_spec blob :
  refines db height (exec_payload trap_bool pads gp vns db height rec blob)
    (decode_change blob ≫= admissible).
Proof.
  unfold exec_payload, decode_change. destruct blob as [|v blob]; [done|].
  repeat split_if; [apply exec_tier_fees_spec|apply exec_extension_tier_spec|apply exec_premium_label_spec|
    apply exec_banned_label_spec|apply exec_banned_extension_spec|apply exec_exact_tier_spec|
    apply exec_exact_ban_spec|done].
Qed.

End branches.
End refinement.

(** ** Writes, one at a time *)

(** One record added at [height] to one of the tables. *)
Inductive one_write (height : Z) (db : policy_db) : policy_db -> Prop :=
| write_fee r t : add_record (governance_parameters db) r = Some t -> prm_activation_height r = height ->
    pr_sized r -> (5 <= prm_parameter r <= 10 -> MIN_DOMAIN_TIER_FEE <= prm_value r) ->
    one_write height db (set_governance_parameters db t)
| write_ext r t : add_record (extension_policy db) r = Some t -> ext_activation_height r = height ->
    pr_sized r -> 0 <= ext_tier r <= 5 -> one_write height db (set_extension_policy db t)
| write_prem (r : premium_label_policy_record) t :
    add_record (premium_label_policy db) r = Some t -> fl_activation_height r = height ->
    pr_sized r -> one_write height db (set_premium_label_policy db t)
| write_label_ban (r : banned_label_policy_record) t :
    add_record (banned_label_policy db) r = Some t -> fl_activation_height r = height ->
    pr_sized r -> one_write height db (set_banned_label_policy db t)
| write_ext_ban (r : banned_extension_policy_record) t :
    add_record (banned_extension_policy db) r = Some t -> fl_activation_height r = height ->
    pr_sized r -> one_write height db (set_banned_extension_policy db t)
| write_exact_ban (r : exact_domain_ban_policy_record) t :
    add_record (exact_domain_ban_policy db) r = Some t -> fl_activation_height r = height ->
    pr_sized r -> one_write height db (set_exact_domain_ban_policy db t)
| write_exact_tier r t : add_record (exact_domain_tier_policy db) r = Some t ->
    edt_activation_height r = height -> pr_sized r -> 0 <= edt_tier r <= 5 ->
    one_write height db (set_exact_domain_tier_policy db t).

Lemma put_done db r db' : put db r = exec_done db' -> r = Some db'.
Proof. destruct r; cbn; congruence. Qed.

Section writes.
Context (trap_bool : Z -> bool) (pads : nat -> bytes) (gp : governance_params) (vns : vns_state)
  (height : Z) (rec : proposal_record) (Hp : forall i, length (pads i) = 7%nat).

Lemma add_entries_writes es : forall i db db',
  entries_ok i es = true -> add_entries pads height rec i es db = exec_done db' ->
  rtc (one_write height) db db'.
Proof.
  induction es as [|e es IH]; intros i db db' O H; [by injection H as <-|].
  cbn [entries_ok] in O. split_if_in O; [done|]. split_if_in O; [done|].
  cbn [add_entries] in H. unfold add_parameter_record in H.
  destruct (add_record _ _) as [t|] eqn:A; [cbn in H|done].
  eapply rtc_l; [|by eapply IH]. eapply write_fee; [exact A|done|apply Hp|]. cbn. to_prop. lia.
Qed.

(** Take the guards of a branch apart in [H], keeping what they say. *)
Ltac guards H :=
  repeat first
    [ match type of H with context [match parse_all ?r ?d with _ => _ end] =>
        destruct (parse_all r d) as [p|] eqn:P; [|done] end
    | split_if_in H; [done|] | progress cbv zeta in H ].

(** A branch ends in one write. *)
Ltac one_write_branch H :=
  apply put_done in H;
  unfold add_extension_policy_record, add_premium_label_policy_record, add_banned_label_policy_record,
    add_banned_extension_policy_record, add_exact_domain_tier_policy_record,
    add_exact_domain_ban_policy_record in H;
  match type of H with _ <$> add_record ?t ?r = _ => destruct (add_record t r) as [t'|] eqn:A; [|done] end;
  injection H as <-; apply rtc_once.

Lemma exec_payload_writes blob db db' :
  exec_payload trap_bool pads gp vns db height rec blob = exec_done db' -> rtc (one_write height) db db'.
Proof.
  unfold exec_payload. destruct blob as [|v blob]; [done|]. repeat split_if; try done; intros H.
  - unfold exec_tier_fees in H. guards H. eapply add_entries_writes; [|exact H].
    by apply negb_false_iff.
  - unfold exec_extension_tier in H. guards H. apply parse_tier_nonneg in P. to_prop.
    one_write_branch H. eapply write_ext; [exact A|done|by apply length_strncpy_buf; lia|cbn; lia].
  - unfold exec_premium_label in H. guards H. one_write_branch H.
    eapply write_prem; [exact A|done|]. cbn. apply memcpy_buf_key; apply normalize_label_no_nul.
  - unfold exec_banned_label in H. guards H. one_write_branch H.
    eapply write_label_ban; [exact A|done|]. cbn. apply memcpy_buf_key; apply normalize_label_no_nul.
  - unfold exec_banned_extension in H. guards H. one_write_branch H.
    eapply write_ext_ban; [exact A|done|]. cbn. apply memcpy_buf_key; apply normalize_extension_no_nul.
  - unfold exec_exact_tier in H. guards H. apply parse_exact_tier_nonneg in P.
    destruct (match get_exact_domain_tier_policy _ _ _ with Some _ => _ | None => _ end) as [has ct].
    guards H. to_prop. one_write_branch H.
    eapply write_exact_tier; [exact A|done|by apply length_strncpy_buf; lia|cbn; lia].
  - unfold exec_exact_ban in H. guards H. destruct (db_domains vns !! _); [done|]. guards H.
    one_write_branch H. eapply write_exact_ban; [exact A|done|by apply length_strncpy_buf; lia].
Qed.
End writes.

(** *** What a write preserves and what undoes it *)

Lemma one_write_inv height db db' : 0 <= height -> one_write height db db' -> policy_inv db -> policy_inv db'.
Proof.
  intros Hh W []. destruct W as [r t A <- S O|r t A <- S O|r t A <- S|r t A <- S|r t A <- S|r t A <- S|r t A <- S O];
    constructor; try done; (eapply (table_inv_add _ _ r); [| | | |exact A]); try done.
Qed.

Lemma writes_inv height db db' : 0 <= height -> rtc (one_write height) db db' -> policy_inv db -> policy_inv db'.
Proof. intros Hh. induction 1; eauto using one_write_inv. Qed.

Lemma remove_added {R K} `{PolicyRow R K} (t t' : list R) r :
  add_record t r = Some t' -> remove_by_height t' (pr_activation r) = remove_by_height t (pr_activation r).
Proof. intros ->%add_record_inv. unfold remove_by_height. apply filter_insert_row. auto. Qed.

(** The rollback filters every table. *)
Lemma parameters_rollback_eq db h :
  parameters_rollback_block db h =
  {| governance_parameters := remove_by_height (governance_parameters db) h;
     extension_policy := remove_by_height (extension_policy db) h;
     premium_label_policy := remove_by_height (premium_label_policy db) h;
     banned_label_policy := remove_by_height (banned_label_policy db) h;
     banned_extension_policy := remove_by_height (banned_extension_policy db) h;
     exact_domain_ban_policy := remove_by_height (exact_domain_ban_policy db) h;
     exact_domain_tier_policy := remove_by_height (exact_domain_tier_policy db) h;
     pending_domain_policy := pending_domain_policy db; proposals := proposals db;
     proposal_data := proposal_data db; proposal_executions := proposal_executions db |}.
Proof. reflexivity. Qed.

Lemma writes_rollback height db db' :
  rtc (one_write height) db db' -> parameters_rollback_block db' height = parameters_rollback_block db height.
Proof.
  induction 1 as [|db db1 db2 W _ IH]; [done|]. rewrite IH. clear IH.
  destruct W as [r t A <-|r t A <-|r t A <-|r t A <-|r t A <-|r t A <-|r t A <-]; apply remove_added in A;
    rewrite !parameters_rollback_eq; cbn [governance_parameters extension_policy premium_label_policy
      banned_label_policy banned_extension_policy exact_domain_ban_policy exact_domain_tier_policy
      set_governance_parameters set_extension_policy set_premium_label_policy set_banned_label_policy
      set_banned_extension_policy set_exact_domain_ban_policy set_exact_domain_tier_policy];
    f_equal; exact A.
Qed.

(** No table has a record of this height. *)
Record no_records_at (height : Z) (db : policy_db) : Prop := {
  nr_fees : Forall (fun r => prm_activation_height r <> height) (governance_parameters db);
  nr_ext : Forall (fun r => ext_activation_height r <> height) (extension_policy db);
  nr_prem : Forall (fun r => fl_activation_height r <> height) (premium_label_policy db);
  nr_lab : Forall (fun r => fl_activation_height r <> height) (banned_label_policy db);
  nr_bext : Forall (fun r => fl_activation_height r <> height) (banned_extension_policy db);
  nr_ban : Forall (fun r => fl_activation_height r <> height) (exact_domain_ban_policy db);
  nr_tier : Forall (fun r => edt_activation_height r <> height) (exact_domain_tier_policy db);
}.

Lemma rollback_nothing height db : no_records_at height db -> parameters_rollback_block db height = db.
Proof.
  intros [F1 F2 F3 F4 F5 F6 F7]. destruct db. cbn in *.
  rewrite parameters_rollback_eq. cbn. f_equal; by apply filter_all.
Qed.

(** *** Answers about earlier heights *)

(** The records found for any key agree. *)
Record same_answers (h : Z) (db db' : policy_db) : Prop := {
  sa_fee : forall k, get_parameter_record db' k h = get_parameter_record db k h;
  sa_ext : forall k, get_extension_policy db' k h = get_extension_policy db k h;
  sa_prem : forall k, get_premium_label_policy db' k h = get_premium_label_policy db k h;
  sa_lab : forall k, get_banned_label_policy db' k h = get_banned_label_policy db k h;
  sa_bext : forall k, get_banned_extension_policy db' k h = get_banned_extension_policy db k h;
  sa_ban : forall k, get_exact_domain_ban_policy db' k h = get_exact_domain_ban_policy db k h;
  sa_tier : forall k, get_exact_domain_tier_policy db' k h = get_exact_domain_tier_policy db k h;
}.

Lemma get_policy_later {R K} `{PolicyRow R K} (t t' : list R) r k h :
  wf_table t -> 0 <= pr_activation r -> add_record t r = Some t' -> h < pr_activation r ->
  get_policy t' k h = get_policy t k h.
Proof.
  intros W Hr ->%add_record_inv L. rewrite !get_policy_last by (try apply insert_row_wf; done).
  rewrite filter_insert_row; [done|]. intros [_ ?]. lia.
Qed.

Lemma one_write_same_answers height h db db' :
  0 <= height -> h < height -> policy_inv db -> one_write height db db' -> same_answers h db db'.
Proof.
  intros Hh L [[] [] [] [] [] [] []] W.
  destruct W as [r t A <-|r t A <-|r t A <-|r t A <-|r t A <-|r t A <-|r t A <-];
    constructor; intros k; try reflexivity; by eapply get_policy_later.
Qed.

Lemma writes_same_answers height h db db' :
  0 <= height -> h < height -> rtc (one_write height) db db' -> policy_inv db -> same_answers h db db'.
Proof.
  intros Hh L. induction 1 as [|db db1 db2 W _ IH]; intros I; [by constructor|].
  pose proof (one_write_same_answers _ _ _ _ Hh L I W) as [].
  destruct (IH (one_write_inv _ _ _ Hh W I)). constructor; intros k; etrans; eauto.
Qed.

(** The resolver depends on the tables through these answers and the lock. *)
Lemma resolve_same_answers gp db db' h d :
  same_answers h db db' ->
  pending_lock db' (normalize_vns_domain d) = pending_lock db (normalize_vns_domain d) ->
  resolve_domain_policy gp db' h d = resolve_domain_policy gp db h d.
Proof.
  intros [F E P L X B T] K. unfold resolve_domain_policy. rewrite K.
  unfold exact_ban, global_ban, base_tier, tier_fee. rewrite B, T.
  repeat (first [reflexivity | rewrite F | rewrite E | rewrite P | rewrite L | rewrite X | case_match]).
Qed.

(** ** Theorems *)

Section theorems.
Context (trap_bool : Z -> bool) (pads : nat -> bytes) (gp : governance_params) (vns : vns_state)
  (db : policy_db) (height : Z) (id : hash).

(** An accepted execution, taken apart. *)
Lemma execution_inv db' :
  process_parameter_execution trap_bool pads gp vns db height id = exec_done db' ->
  exists rec blob db1,
    proposals db !! id = Some rec /\ proposal_data db !! id = Some blob /\ ptype rec = 1 /\
    status rec = PROPOSAL_STATUS_PASSED /\ executed rec = false /\
    u64 (voting_end_height rec + get_governance_parameter db execution_delay height) <= height /\
    exec_payload trap_bool pads gp vns db height rec blob = exec_done db1 /\
    db' = mark_executed db1 rec height.
Proof.
  unfold process_parameter_execution. destruct (proposals db !! id) as [rec|]; [|done].
  split_if; [done|]. cbv zeta. split_if; [done|]. destruct (proposal_data db !! id) as [blob|]; [|done].
  destruct (exec_payload _ _ _ _ _ _ _ _) as [| |db1] eqn:X; try done. intros [= <-].
  exists rec, blob, db1. to_prop. split_and!; try done; lia.
Qed.

Lemma writes_other_tables db1 : rtc (one_write height) db db1 ->
  proposals db1 = proposals db /\ proposal_executions db1 = proposal_executions db /\
  proposal_data db1 = proposal_data db /\ pending_domain_policy db1 = pending_domain_policy db.
Proof. induction 1 as [|x y z W _ (I1 & I2 & I3 & I4)]; [done|]. rewrite I1, I2, I3, I4. by destruct W. Qed.

(** What an execution does, by what the proposal asks for. *)
Lemma execution_refines (Hinv : policy_inv db) (Hh : 0 <= height)
  (Hp : forall i, length (pads i) = 7%nat) :
  match executable trap_bool gp vns db height id with
  | None => process_parameter_execution trap_bool pads gp vns db height id = exec_refused
  | Some (rec, c) => change_fresh c db height -> exists db',
      process_parameter_execution trap_bool pads gp vns db height id = exec_done db' /\
      policy_inv db' /\
      (forall h, in_force db' h ≡ if h <? height then in_force db h else apply_change c (in_force db h)) /\
      proposals db' = <[id := with_status rec PROPOSAL_STATUS_EXECUTED true height]> (proposals db) /\
      per_pre_execution_status_height <$> proposal_executions db' !! id = Some (status_height rec)
  end.
Proof.
  unfold executable, process_parameter_execution.
  destruct (proposals db !! id) as [rec|] eqn:R; [cbn [mbind option_bind]|done].
  pose proof (pi_proposals db Hinv _ _ R) as Hid.
  destruct (ptype rec =? 1); [cbn [negb orb andb]|done].
  destruct (status rec =? PROPOSAL_STATUS_PASSED); [cbn [negb orb andb]|done].
  destruct (executed rec); [done|]. cbn [negb andb]. cbv zeta.
  destruct (Z.ltb_spec height (u64 (voting_end_height rec + get_governance_parameter db execution_delay height)));
    [by rewrite (proj2 (Z.leb_gt _ _)) by done|].
  rewrite (proj2 (Z.leb_le _ _)) by done.
  destruct (proposal_data db !! id) as [blob|]; [cbn [mbind option_bind]|done].
  pose proof (exec_payload_spec trap_bool pads gp vns db height rec Hinv Hh Hp blob) as S.
  destruct (decode_change trap_bool blob) as [c|]; [cbn [mbind option_bind] in *|by rewrite S].
  unfold admissible in S. split_if; [by rewrite S|]. intros F. destruct (S F) as (db1 & -> & []).
  eexists. split; [done|]. split_and!; [|done| |].
  - destruct ch_inv0. constructor; try done. cbn. intros i r. rewrite lookup_insert_Some.
    intros [[<- <-]|[? ?]]; [done|]. by apply pi_proposals0.
  - cbn. by rewrite ch_proposals0, Hid.
  - cbn. by rewrite Hid, lookup_insert_eq.
Qed.


(** A parameter proposal is executed at most once.  After an execution
    every further attempt, at whatever height, is refused, until the execution
    is rolled back. *)
Theorem executed_at_most_once (Hinv : policy_inv db) (db' : policy_db)
  (Hx : process_parameter_execution trap_bool pads gp vns db height id = exec_done db')
  (trap' : Z -> bool) (pads' : nat -> bytes) (gp' : governance_params) (vns' : vns_state) (height' : Z) :
  process_parameter_execution trap' pads' gp' vns' db' height' id = exec_refused.
Proof.
  apply execution_inv in Hx as (rec & blob & db1 & R & _ & _ & _ & _ & _ & _ & ->).
  pose proof (pi_proposals db Hinv _ _ R) as Hid. unfold process_parameter_execution.
  cbn. rewrite Hid, lookup_insert_eq. cbn. by rewrite orb_true_r.
Qed.

(** executing a parameter proposal never changes what was in force before:
    the resolver gives the same answer, provenance included, for every name at
    every earlier height, except that a name this very proposal had locked is
    unlocked. *)
Theorem execution_not_retroactive (Hinv : policy_inv db) (Hh : 0 <= height)
  (Hp : forall i, length (pads i) = 7%nat) (db' : policy_db)
  (Hx : process_parameter_execution trap_bool pads gp vns db height id = exec_done db')
  (h : Z) (Hlt : h < height) (d : bytes)
  (Hd : forall p, get_pending_domain_policy (pending_domain_policy db) (normalize_vns_domain d) = Some p ->
    pend_proposal_id p <> id) :
  resolve_domain_policy gp db' h d = resolve_domain_policy gp db h d.
Proof.
  apply execution_inv in Hx as (rec & blob & db1 & R & _ & _ & _ & _ & _ & X & ->).
  pose proof (pi_proposals db Hinv _ _ R) as Hid.
  apply exec_payload_writes in X; [|done]. apply resolve_same_answers.
  - pose proof (writes_same_answers _ _ _ _ Hh Hlt X Hinv) as []. by constructor.
  - apply writes_other_tables in X as (E1 & _ & _ & E4). unfold pending_lock. cbn. rewrite E4, E1, Hid.
    destruct (get_pending_domain_policy _ _) as [p|]; [|done].
    by rewrite lookup_insert_ne by (apply not_eq_sym; auto).
Qed.

(** popping the block takes the execution back.  When the height had no
    policy records before, the proposal no execution record and a status
    height, rolling back the execution and the parameters restores every table
    exactly. *)
Theorem execute_then_rollback (Hinv : policy_inv db) (Hp : forall i, length (pads i) = 7%nat)
  (Hn : no_records_at height db) (Hr : proposal_executions db !! id = None) (db' : policy_db)
  (Hx : process_parameter_execution trap_bool pads gp vns db height id = exec_done db')
  (Hs : forall rec, proposals db !! id = Some rec -> status_height rec <> 0) :
  parameters_rollback_block (execution_rollback db' id) height = db.
Proof.
  apply execution_inv in Hx as (rec & blob & db1 & R & _ & _ & Hst & Hex & _ & X & ->).
  pose proof (pi_proposals db Hinv _ _ R) as Hid. specialize (Hs _ R).
  apply exec_payload_writes in X; [|done].
  pose proof (writes_rollback _ _ _ X) as RB. rewrite (rollback_nothing _ _ Hn) in RB.
  apply writes_other_tables in X as (E1 & E2 & E3 & E4).
  unfold execution_rollback. cbn. rewrite Hid, !lookup_insert_eq. cbn.
  rewrite (proj2 (Z.eqb_neq _ _) Hs). etrans; [|exact RB]. rewrite !parameters_rollback_eq. cbn.
  f_equal; rewrite ?E1, ?E2, Hid.
  - rewrite insert_insert_eq, insert_id; [done|]. rewrite R. f_equal. by destruct rec; cbn in *; subst.
  - by rewrite delete_insert_id.
Qed.

End theorems.

(** ** The tables over time *)

(** What happens to the policy tables: a proposal is stored under its id
    ([GovernanceDB::store_proposal]), executed, rolled back. *)
Inductive policy_step : policy_db -> policy_db -> Prop :=
| step_store db rec : policy_step db (add_proposal_record db (proposal_id rec) rec)
| step_execute trap_bool pads gp vns db height id db' :
    0 <= height -> (forall i, length (pads i) = 7%nat) ->
    process_parameter_execution trap_bool pads gp vns db height id = exec_done db' -> policy_step db db'
| step_rollback_execution db id : policy_step db (execution_rollback db id)
| step_rollback_parameters db height : policy_step db (parameters_rollback_block db height).

Lemma store_inv db rec : policy_inv db -> policy_inv (add_proposal_record db (proposal_id rec) rec).
Proof.
  intros []. constructor; try done. cbn. intros i r. rewrite lookup_insert_Some.
  intros [[<- <-]|[_ ?]]; auto.
Qed.

Lemma executions_inv db m : policy_inv db -> policy_inv (set_proposal_executions db m).
Proof. intros []. by constructor. Qed.

Lemma policy_step_inv db db' : policy_step db db' -> policy_inv db -> policy_inv db'.
Proof.
  destruct 1 as [db rec|trap pads gp vns db height id db' Hh Hp X|db id|db height]; intros I.
  - by apply store_inv.
  - apply execution_inv in X as (rec & blob & db1 & _ & _ & _ & _ & _ & _ & X & ->).
    apply exec_payload_writes in X; [|done]. apply (writes_inv _ _ _ Hh X) in I.
    apply (store_inv _ (with_status rec PROPOSAL_STATUS_EXECUTED true height)). by apply executions_inv.
  - unfold execution_rollback. destruct (proposals db !! id) as [rec|]; [|done]. split_if; [|done]. cbv zeta.
    match goal with |- context [with_status rec ?a ?b ?c] =>
      pose proof (store_inv db (with_status rec a b c) I) as S end.
    case_match; [by apply executions_inv|done].
  - destruct I. rewrite parameters_rollback_eq. constructor; cbn; try done; by apply table_inv_remove.
Qed.

(** over every history of storing, executing and rolling back proposals
    the policy tables stay in cursor order with DAO tiers among the priced
    ones and DAO fees at least the minimum; hence, with a priced genesis map,
    the resolver keeps answering for every name that normalises, at every
    height. *)
Theorem policy_tables_invariant (db : policy_db) (Hr : rtc policy_step empty_policy_db db) :
  policy_inv db /\
  forall gp height d, (forall e, has_extension_tier_mapping gp e = true ->
      0 <= gp_get_tier_for_extension gp e <= 6) ->
    normalize_vns_domain d <> [] -> is_Some (resolve_domain_policy gp db height d).
Proof.
  assert (policy_inv db) as I.
  { remember empty_policy_db as db0 eqn:E. assert (policy_inv db0) as I0.
    { subst. by constructor; cbn; repeat constructor. }
    clear E. induction Hr; [done|]. eauto using policy_step_inv. }
  split; [done|]. intros gp height d Hm Hd. apply resolve_defined; [|done].
  destruct I. constructor; [apply pi_extension0|apply pi_exact_tier0|done].
Qed.

(** ** A concrete execution *)

Definition sample_id : hash := replicate 32 9.

Definition sample_proposal (st : Z) (ex : bool) (h : Z) : proposal_record :=
  {| proposal_id := sample_id; ptype := 1; title := []; description := []; recipient := []; amount := 0;
     voting_period_days := 14; submission_height := 10; voting_end_height := 100;
     tally_key_id := null_hash; submission_tx_hash := null_hash; executed := ex; status := st;
     status_height := h; recipient_view_public_key := []; is_subaddress := false |}.

Definition sample_ban_blob : bytes :=
  write_exact_domain_ban_update {| ebu_version := 7; ebu_domain := str "Spam..io"; ebu_enable := true |}.

(** A passed proposal to ban [spam..io]. *)
Definition sample_db : policy_db :=
  {| governance_parameters := []; extension_policy := []; premium_label_policy := [];
     banned_label_policy := []; banned_extension_policy := []; exact_domain_ban_policy := [];
     exact_domain_tier_policy := []; pending_domain_policy := ∅;
     proposals := {[ sample_id := sample_proposal PROPOSAL_STATUS_PASSED false 101 ]};
     proposal_data := {[ sample_id := sample_ban_blob ]}; proposal_executions := ∅ |}.

Definition sample_vns : vns_state :=
  {| m_vns_domain_registry := ∅; m_vns_extension_registry := ∅; db_domains := ∅; db_proofs := ∅;
     db_events := [] |}.

Definition sample_exec (db : policy_db) (height : Z) : exec_outcome :=
  process_parameter_execution (fun _ => false) (fun _ => replicate 7 0) sample_params sample_vns db height sample_id.

(** The tables after the execution at height 820. *)
Definition sample_executed : policy_db :=
  mark_executed (set_exact_domain_ban_policy sample_db
    [flag_record 820 (sample_proposal PROPOSAL_STATUS_PASSED false 101) 64 (strncpy_buf 64 (str "spam..io")) true])
    (sample_proposal PROPOSAL_STATUS_PASSED false 101) 820.

Lemma sample_inv : policy_inv sample_db.
Proof.
  constructor; try (by repeat constructor). intros i r. cbn [proposals sample_db].
  rewrite lookup_singleton_Some. by intros [<- <-].
Qed.

Lemma sample_run : sample_exec sample_db 820 = exec_done sample_executed.
Proof. vm_compute. reflexivity. Qed.


Lemma executed_at_most_once_witness : sample_exec sample_executed 2000 = exec_refused.
Proof. exact (executed_at_most_once _ _ _ _ _ _ _ sample_inv _ sample_run _ _ _ _ 2000). Defined.

Lemma execution_not_retroactive_witness :
  resolve_domain_policy sample_params sample_executed 819 (str "spam..io")
  = resolve_domain_policy sample_params sample_db 819 (str "spam..io").
Proof.
  apply (execution_not_retroactive (fun _ => false) (fun _ => replicate 7 0) sample_params sample_vns
    sample_db 820 sample_id sample_inv ltac:(lia) (fun _ => eq_refl) _ sample_run);
    [lia|intros p Hp; vm_compute in Hp; discriminate].
Defined.

Lemma execute_then_rollback_witness :
  parameters_rollback_block (execution_rollback sample_executed sample_id) 820 = sample_db.
Proof.
  apply (execute_then_rollback (fun _ => false) (fun _ => replicate 7 0) sample_params sample_vns
    sample_db 820 sample_id sample_inv (fun _ => eq_refl)) with (db' := sample_executed).
  - by repeat constructor.
  - reflexivity.
  - exact sample_run.
  - intros rec. cbn [proposals sample_db]. rewrite lookup_singleton_Some. by intros [_ <-].
Defined.

Lemma policy_tables_invariant_witness :
  policy_inv (add_proposal_record empty_policy_db sample_id (sample_proposal PROPOSAL_STATUS_PASSED false 101)).
Proof.
  apply policy_tables_invariant. apply rtc_once.
  exact (step_store empty_policy_db (sample_proposal PROPOSAL_STATUS_PASSED false 101)).
Defined.
