(* ===== verification/TxExtra.v ===== *)
(** * The extra field of a transaction

    [cryptonote_basic/tx_extra.h], [parse_tx_extra] and [sort_tx_extra] of
    [cryptonote_basic/cryptonote_format_utils.cpp], the variants of
    [serialization/variant.h], and the wire forms of the objects the fields
    carry: [governance/governance_payload.h], [vote_proof.h] and
    [vote_proof_v2.h]. *)

From stdpp Require Import base list.
From Stdlib Require Import ZArith Lia.
From S2P Require Import Prelude Archive.
Open Scope Z_scope.

(** ** The objects *)

(** The values of [governance_object]. *)
Definition GO_PROPOSAL : Z := 0.
Definition GO_VOTE : Z := 1.
Definition GO_EXECUTION : Z := 2.
Definition GO_VOTE_V2 : Z := 3.
Definition GO_TALLY_RESULT : Z := 4.
Definition GO_DKG_KEY_ACTIVATION : Z := 5.
Definition GO_NODE_READY : Z := 6.

Record governance_payload := { gp_type : Z; gp_data : bytes }.

Record vote_proof := {
  vp_version : Z;
  vp_proposal_id : hash;
  vp_direction_yes : bool;
  vp_snapshot_height : Z;
  vp_participation_balance : Z;
  vp_voting_weight : Z;
  vp_voting_nullifiers : list hash;
  vp_output_heights : list Z;
  vp_balance_commitment : bytes;
  vp_weight_commitment : bytes;
  vp_aggregate_proof : bytes;
}.

(** [rct::clsag]. *)
Record clsag := { cl_s : list bytes; cl_c1 : bytes; cl_I : bytes; cl_D : bytes }.

Record vote_input_v2 := {
  vi_key_offsets : list Z;
  vi_weight_commitment : bytes;
  vi_weight_signature : clsag;
  vi_balance_commitment : bytes;
  vi_balance_signature : clsag;
}.

Record dao_consistency_proof := {
  cp_A_C : bytes; cp_A_P : bytes; cp_e : bytes; cp_z_m : bytes; cp_z_r : bytes; cp_z_rho : bytes;
}.

Record dao_vote_or_proof := { or_c_yes : bytes; or_s_yes : bytes; or_c_no : bytes; or_s_no : bytes }.

Record vote_proof_v2 := {
  v2_version : Z;
  v2_proposal_id : hash;
  v2_vote_height : Z;
  v2_tally_key_id : hash;
  v2_inputs : list vote_input_v2;
  v2_nullifiers : list hash;
  C_W : bytes; C_S : bytes; C_B : bytes;
  E_W : bytes; E_S : bytes; E_B : bytes;
  proof_W : dao_consistency_proof; proof_S : dao_consistency_proof; proof_B : dao_consistency_proof;
  direction_proof : dao_vote_or_proof;
  transcript_hash : hash;
}.

Record grant_payout_info := { gpi_proposal_id : hash; gpi_recipient : bytes; gpi_amount : Z }.

Inductive tx_extra_field :=
| tx_extra_padding (size : Z)
| tx_extra_pub_key (pub_key : bytes)
| tx_extra_nonce (nonce : bytes)
| tx_extra_merge_mining_tag (depth : Z) (merkle_root : hash)
| tx_extra_additional_pub_keys (data : list bytes)
| tx_extra_mysterious_minergate (data : bytes)
| tx_extra_fingerprint (fingerprint : hash)
| tx_extra_grant_payouts (payouts : list grant_payout_info)
| tx_extra_dao_vote (proof : vote_proof)
| tx_extra_governance_payload (payload : governance_payload).

Definition TX_EXTRA_PADDING_MAX_COUNT : Z := 255.
Definition TX_EXTRA_NONCE_MAX_COUNT : Z := 255.
Definition TX_EXTRA_TAG_PADDING : Z := 0.
Definition TX_EXTRA_TAG_PUBKEY : Z := 1.
Definition TX_EXTRA_NONCE : Z := 2.
Definition TX_EXTRA_MERGE_MINING_TAG : Z := 3.
Definition TX_EXTRA_TAG_ADDITIONAL_PUBKEYS : Z := 4.
Definition TX_EXTRA_TAG_FINGERPRINT : Z := 7.
Definition TX_EXTRA_TAG_GRANT_PAYOUTS : Z := 8.
Definition TX_EXTRA_TAG_DAO_VOTE : Z := 9.
Definition TX_EXTRA_GOVERNANCE : Z := 64.
Definition TX_EXTRA_MYSTERIOUS_MINERGATE_TAG : Z := 222.

(** ** Writing *)

(** A [std::vector<uint8_t>]. *)
Definition write_byte_vector (l : bytes) : bytes := write_container (fun c => [c]) l.

Definition write_governance_payload (gp : governance_payload) : bytes :=
  write_varint (gp_type gp) ++ write_byte_vector (gp_data gp).

Definition write_vote_proof (vp : vote_proof) : bytes :=
  [vp_version vp] ++ vp_proposal_id vp ++ write_bool (vp_direction_yes vp) ++
  write_varint (vp_snapshot_height vp) ++ write_varint (vp_participation_balance vp) ++
  write_varint (vp_voting_weight vp) ++ write_container (fun h => h) (vp_voting_nullifiers vp) ++
  write_container write_varint (vp_output_heights vp) ++ vp_balance_commitment vp ++
  vp_weight_commitment vp ++ write_archive_string (vp_aggregate_proof vp).

Definition write_clsag (c : clsag) : bytes :=
  write_container (fun k => k) (cl_s c) ++ cl_c1 c ++ cl_I c ++ cl_D c.

Definition write_vote_input_v2 (i : vote_input_v2) : bytes :=
  write_container write_varint (vi_key_offsets i) ++ vi_weight_commitment i ++
  write_clsag (vi_weight_signature i) ++ vi_balance_commitment i ++ write_clsag (vi_balance_signature i).

Definition write_dao_consistency_proof (p : dao_consistency_proof) : bytes :=
  cp_A_C p ++ write_byte_vector (cp_A_P p) ++ write_byte_vector (cp_e p) ++ write_byte_vector (cp_z_m p) ++
  write_byte_vector (cp_z_r p) ++ write_byte_vector (cp_z_rho p).

Definition write_dao_vote_or_proof (p : dao_vote_or_proof) : bytes :=
  or_c_yes p ++ or_s_yes p ++ or_c_no p ++ or_s_no p.

Definition write_vote_proof_v2 (v : vote_proof_v2) : bytes :=
  [v2_version v] ++ v2_proposal_id v ++ write_varint (v2_vote_height v) ++ v2_tally_key_id v ++
  write_container write_vote_input_v2 (v2_inputs v) ++ write_container (fun h => h) (v2_nullifiers v) ++
  C_W v ++ C_S v ++ C_B v ++ E_W v ++ E_S v ++ E_B v ++
  write_dao_consistency_proof (proof_W v) ++ write_dao_consistency_proof (proof_S v) ++
  write_dao_consistency_proof (proof_B v) ++ write_dao_vote_or_proof (direction_proof v) ++ transcript_hash v.

Definition write_grant_payout (p : grant_payout_info) : bytes :=
  gpi_proposal_id p ++ gpi_recipient p ++ write_varint (gpi_amount p).

Definition write_merge_mining (depth : Z) (merkle_root : hash) : bytes := write_varint depth ++ merkle_root.

(** The tag and the field; the writer refuses padding and nonces that are too
    long, which [field_wf] excludes. *)
Definition write_field (f : tx_extra_field) : bytes :=
  match f with
  | tx_extra_padding size => TX_EXTRA_TAG_PADDING :: replicate (Z.to_nat (size - 1)) 0
  | tx_extra_pub_key pub_key => TX_EXTRA_TAG_PUBKEY :: pub_key
  | tx_extra_nonce nonce => TX_EXTRA_NONCE :: write_archive_string nonce
  | tx_extra_merge_mining_tag depth merkle_root =>
      TX_EXTRA_MERGE_MINING_TAG :: write_archive_string (write_merge_mining depth merkle_root)
  | tx_extra_additional_pub_keys data => TX_EXTRA_TAG_ADDITIONAL_PUBKEYS :: write_container (fun k => k) data
  | tx_extra_mysterious_minergate data => TX_EXTRA_MYSTERIOUS_MINERGATE_TAG :: write_archive_string data
  | tx_extra_fingerprint fingerprint => TX_EXTRA_TAG_FINGERPRINT :: fingerprint
  | tx_extra_grant_payouts payouts => TX_EXTRA_TAG_GRANT_PAYOUTS :: write_container write_grant_payout payouts
  | tx_extra_dao_vote proof => TX_EXTRA_TAG_DAO_VOTE :: write_vote_proof proof
  | tx_extra_governance_payload payload => TX_EXTRA_GOVERNANCE :: write_governance_payload payload
  end.

Definition write_fields (l : list tx_extra_field) : bytes := concat (map write_field l).

(** ** Reading *)

Section reading.
Context (trap_bool : Z -> bool).

Definition read_byte_vector : reader bytes := read_container (read_le 1).

Definition read_governance_payload : reader governance_payload := fun d =>
  '(t, d) ← read_varint 8 d; '(l, d) ← read_byte_vector d;
  Some ({| gp_type := t; gp_data := l |}, d).

Definition read_vote_proof : reader vote_proof := fun d =>
  '(v, d) ← read_le 1 d; '(pid, d) ← read_raw 32 d; '(dir, d) ← read_bool trap_bool d;
  '(sh, d) ← read_varint 64 d; '(bal, d) ← read_varint 64 d; '(w, d) ← read_varint 64 d;
  '(nfs, d) ← read_container (read_raw 32) d; '(ohs, d) ← read_container (read_varint 64) d;
  '(bc, d) ← read_raw 32 d; '(wc, d) ← read_raw 32 d; '(ap, d) ← read_archive_string d;
  Some ({| vp_version := v; vp_proposal_id := pid; vp_direction_yes := dir;
           vp_snapshot_height := sh; vp_participation_balance := bal; vp_voting_weight := w;
           vp_voting_nullifiers := nfs; vp_output_heights := ohs; vp_balance_commitment := bc;
           vp_weight_commitment := wc; vp_aggregate_proof := ap |}, d).

Definition read_clsag : reader clsag := fun d =>
  '(s, d) ← read_container (read_raw 32) d; '(c1, d) ← read_raw 32 d; '(i, d) ← read_raw 32 d;
  '(dd, d) ← read_raw 32 d; Some ({| cl_s := s; cl_c1 := c1; cl_I := i; cl_D := dd |}, d).

Definition read_vote_input_v2 : reader vote_input_v2 := fun d =>
  '(ko, d) ← read_container (read_varint 64) d; '(wc, d) ← read_raw 32 d; '(ws, d) ← read_clsag d;
  '(bc, d) ← read_raw 32 d; '(bs, d) ← read_clsag d;
  Some ({| vi_key_offsets := ko; vi_weight_commitment := wc; vi_weight_signature := ws;
           vi_balance_commitment := bc; vi_balance_signature := bs |}, d).

Definition read_dao_consistency_proof : reader dao_consistency_proof := fun d =>
  '(ac, d) ← read_raw 32 d; '(ap, d) ← read_byte_vector d; '(e, d) ← read_byte_vector d;
  '(zm, d) ← read_byte_vector d; '(zr, d) ← read_byte_vector d; '(zrho, d) ← read_byte_vector d;
  Some ({| cp_A_C := ac; cp_A_P := ap; cp_e := e; cp_z_m := zm; cp_z_r := zr; cp_z_rho := zrho |}, d).

Definition read_dao_vote_or_proof : reader dao_vote_or_proof := fun d =>
  '(cy, d) ← read_raw 32 d; '(sy, d) ← read_raw 32 d; '(cn, d) ← read_raw 32 d; '(sn, d) ← read_raw 32 d;
  Some ({| or_c_yes := cy; or_s_yes := sy; or_c_no := cn; or_s_no := sn |}, d).

Definition read_vote_proof_v2 : reader vote_proof_v2 := fun d =>
  '(v, d) ← read_le 1 d; '(pid, d) ← read_raw 32 d; '(h, d) ← read_varint 64 d; '(kid, d) ← read_raw 32 d;
  '(ins, d) ← read_container read_vote_input_v2 d; '(nfs, d) ← read_container (read_raw 32) d;
  '(cw, d) ← read_raw 32 d; '(cs, d) ← read_raw 32 d; '(cb, d) ← read_raw 32 d;
  '(ew, d) ← read_raw 512 d; '(es, d) ← read_raw 512 d; '(eb, d) ← read_raw 512 d;
  '(pw, d) ← read_dao_consistency_proof d; '(ps, d) ← read_dao_consistency_proof d;
  '(pb, d) ← read_dao_consistency_proof d; '(dp, d) ← read_dao_vote_or_proof d; '(th, d) ← read_raw 32 d;
  Some ({| v2_version := v; v2_proposal_id := pid; v2_vote_height := h; v2_tally_key_id := kid;
           v2_inputs := ins; v2_nullifiers := nfs; C_W := cw; C_S := cs; C_B := cb;
           E_W := ew; E_S := es; E_B := eb; proof_W := pw; proof_S := ps; proof_B := pb;
           direction_proof := dp; transcript_hash := th |}, d).

Definition read_grant_payout : reader grant_payout_info := fun d =>
  '(pid, d) ← read_raw 32 d; '(r, d) ← read_raw 64 d; '(a, d) ← read_varint 64 d;
  Some ({| gpi_proposal_id := pid; gpi_recipient := r; gpi_amount := a |}, d).

(** Zeros up to the end of the extra. *)
Fixpoint padding_loop (size : Z) (d : bytes) : option Z :=
  if TX_EXTRA_PADDING_MAX_COUNT <? size then None else
  match d with
  | [] => Some size
  | c :: d => if c =? 0 then padding_loop (size + 1) d else None
  end.

Definition read_padding : reader tx_extra_field := fun d =>
  size ← padding_loop 1 d; Some (tx_extra_padding size, []).

Definition read_nonce : reader bytes := fun d =>
  '(nonce, d) ← read_archive_string d;
  if TX_EXTRA_NONCE_MAX_COUNT <? zlen nonce then None else Some (nonce, d).

Definition read_merge_mining : reader (Z * hash) := fun d =>
  '(depth, d) ← read_varint 64 d; '(root, d) ← read_raw 32 d; Some ((depth, root), d).

(** A field inside a string of its own, which it must fill. *)
Definition read_merge_mining_tag : reader (Z * hash) := fun d =>
  '(field, d) ← read_archive_string d; mm ← parse_all read_merge_mining field; Some (mm, d).

Definition as_field {A} (k : A -> tx_extra_field) (r : reader A) : reader tx_extra_field := fun d =>
  '(x, d) ← r d; Some (k x, d).

(** The alternatives of the variant by their tags. *)
Definition read_tagged (t : Z) : reader tx_extra_field :=
  if t =? TX_EXTRA_TAG_PADDING then read_padding
  else if t =? TX_EXTRA_TAG_PUBKEY then as_field tx_extra_pub_key (read_raw 32)
  else if t =? TX_EXTRA_NONCE then as_field tx_extra_nonce read_nonce
  else if t =? TX_EXTRA_MERGE_MINING_TAG then
    as_field (fun mm => tx_extra_merge_mining_tag mm.1 mm.2) read_merge_mining_tag
  else if t =? TX_EXTRA_TAG_ADDITIONAL_PUBKEYS then
    as_field tx_extra_additional_pub_keys (read_container (read_raw 32))
  else if t =? TX_EXTRA_MYSTERIOUS_MINERGATE_TAG then as_field tx_extra_mysterious_minergate read_archive_string
  else if t =? TX_EXTRA_TAG_FINGERPRINT then as_field tx_extra_fingerprint (read_raw 32)
  else if t =? TX_EXTRA_TAG_GRANT_PAYOUTS then
    as_field tx_extra_grant_payouts (read_container read_grant_payout)
  else if t =? TX_EXTRA_TAG_DAO_VOTE then as_field tx_extra_dao_vote read_vote_proof
  else if t =? TX_EXTRA_GOVERNANCE then as_field tx_extra_governance_payload read_governance_payload
  else fun _ => None.

Definition read_field : reader tx_extra_field := fun d => '(t, d) ← read_le 1 d; read_tagged t d.

(** The loop runs once per field, and a field has its tag at least. *)
Fixpoint parse_fields (fuel : nat) (d : bytes) : option (list tx_extra_field) :=
  match fuel with
  | O => None
  | S fuel =>
      '(f, d) ← read_field d;
      if is_empty d then Some [f] else l ← parse_fields fuel d; Some (f :: l)
  end.

Definition parse_tx_extra (tx_extra : bytes) : option (list tx_extra_field) :=
  if is_empty tx_extra then Some [] else parse_fields (length tx_extra) tx_extra.

(** ** Sorting *)

(** The loop of [sort_tx_extra]: the fields read and what is left when one
    cannot be read. *)
Fixpoint sort_loop (fuel : nat) (d : bytes) : list tx_extra_field * bytes :=
  match fuel with
  | O => ([], d)
  | S fuel =>
      match read_field d with
      | None => ([], d)
      | Some (f, d) => if is_empty d then ([f], d) else let '(l, d) := sort_loop fuel d in (f :: l, d)
      end
  end.

Definition field_tag (f : tx_extra_field) : Z :=
  match f with
  | tx_extra_padding _ => TX_EXTRA_TAG_PADDING
  | tx_extra_pub_key _ => TX_EXTRA_TAG_PUBKEY
  | tx_extra_nonce _ => TX_EXTRA_NONCE
  | tx_extra_merge_mining_tag _ _ => TX_EXTRA_MERGE_MINING_TAG
  | tx_extra_additional_pub_keys _ => TX_EXTRA_TAG_ADDITIONAL_PUBKEYS
  | tx_extra_mysterious_minergate _ => TX_EXTRA_MYSTERIOUS_MINERGATE_TAG
  | tx_extra_fingerprint _ => TX_EXTRA_TAG_FINGERPRINT
  | tx_extra_grant_payouts _ => TX_EXTRA_TAG_GRANT_PAYOUTS
  | tx_extra_dao_vote _ => TX_EXTRA_TAG_DAO_VOTE
  | tx_extra_governance_payload _ => TX_EXTRA_GOVERNANCE
  end.

(** [pick<T>] writes the fields of one type, in their order, and takes them
    out. *)
Definition pick (tag : Z) (st : bytes * list tx_extra_field) : bytes * list tx_extra_field :=
  (st.1 ++ write_fields (filter (fun f => field_tag f = tag) st.2), filter (fun f => field_tag f <> tag) st.2).

Definition sort_order : list Z :=
  [TX_EXTRA_TAG_PUBKEY; TX_EXTRA_TAG_ADDITIONAL_PUBKEYS; TX_EXTRA_NONCE; TX_EXTRA_MERGE_MINING_TAG;
   TX_EXTRA_MYSTERIOUS_MINERGATE_TAG; TX_EXTRA_TAG_PADDING; TX_EXTRA_TAG_GRANT_PAYOUTS;
   TX_EXTRA_TAG_DAO_VOTE; TX_EXTRA_GOVERNANCE].

Definition sort_tx_extra (tx_extra : bytes) (allow_partial : bool) : option bytes :=
  if is_empty tx_extra then Some [] else
  let '(fields, unparsed) := sort_loop (length tx_extra) tx_extra in
  if negb (is_empty unparsed) && negb allow_partial then None else
  let '(sorted, remaining) := fold_left (fun st tag => pick tag st) sort_order ([], fields) in
  if negb (is_empty remaining) then None else Some (sorted ++ unparsed).

End reading.

(** ** Well-formed fields *)

Definition keys_ok (n : nat) (l : list bytes) : Prop := Forall (fun k => length k = n) l /\ zlen l < 2 ^ 64.

Definition payload_ok (gp : governance_payload) : Prop := 0 <= gp_type gp < 2 ^ 8 /\ zlen (gp_data gp) < 2 ^ 64.

Record vote_v1_ok (vp : vote_proof) : Prop := {
  vok_pid : length (vp_proposal_id vp) = 32%nat;
  vok_snapshot : 0 <= vp_snapshot_height vp < 2 ^ 64;
  vok_balance : 0 <= vp_participation_balance vp < 2 ^ 64;
  vok_weight : 0 <= vp_voting_weight vp < 2 ^ 64;
  vok_nullifiers : keys_ok 32 (vp_voting_nullifiers vp);
  vok_heights : Forall (fun h => 0 <= h < 2 ^ 64) (vp_output_heights vp) /\ zlen (vp_output_heights vp) < 2 ^ 64;
  vok_bc : length (vp_balance_commitment vp) = 32%nat;
  vok_wc : length (vp_weight_commitment vp) = 32%nat;
  vok_proof : zlen (vp_aggregate_proof vp) < 2 ^ 64;
}.

Definition payout_ok (p : grant_payout_info) : Prop :=
  length (gpi_proposal_id p) = 32%nat /\ length (gpi_recipient p) = 64%nat /\ 0 <= gpi_amount p < 2 ^ 64.

Definition field_ok (f : tx_extra_field) : Prop :=
  match f with
  | tx_extra_padding size => 1 <= size <= TX_EXTRA_PADDING_MAX_COUNT
  | tx_extra_pub_key k | tx_extra_fingerprint k => length k = 32%nat
  | tx_extra_nonce n => zlen n <= TX_EXTRA_NONCE_MAX_COUNT
  | tx_extra_merge_mining_tag depth root => 0 <= depth < 2 ^ 64 /\ length root = 32%nat
  | tx_extra_additional_pub_keys l => keys_ok 32 l
  | tx_extra_mysterious_minergate l => zlen l < 2 ^ 64
  | tx_extra_grant_payouts l => Forall payout_ok l /\ zlen l < 2 ^ 64
  | tx_extra_dao_vote vp => vote_v1_ok vp
  | tx_extra_governance_payload gp => payload_ok gp
  end.

Definition is_padding (f : tx_extra_field) : bool := match f with tx_extra_padding _ => true | _ => false end.

(** Padding can only end the extra. *)
Fixpoint padding_last (l : list tx_extra_field) : Prop :=
  match l with
  | [] | [_] => True
  | f :: l => is_padding f = false /\ padding_last l
  end.

(** The fields [l] follow each other in [d] and fill it. *)
Inductive fields_of (trap_bool : Z -> bool) : bytes -> list tx_extra_field -> Prop :=
| fo_nil : fields_of trap_bool [] []
| fo_cons d f d' l : read_field trap_bool d = Some (f, d') -> fields_of trap_bool d' l ->
    fields_of trap_bool d (f :: l).

(** *** Reading back the objects *)

Lemma reads_byte_vector l : zlen l < 2 ^ 64 -> reads read_byte_vector (write_byte_vector l) l.
Proof. intros. apply reads_container; [done|]. apply Forall_true. intros c. split; [apply reads_byte|done]. Qed.

Lemma reads_keys n l : (0 < n)%nat -> keys_ok n l -> reads (read_container (read_raw n)) (write_container (fun k => k) l) l.
Proof.
  intros Hn [F L]. apply reads_container; [done|]. eapply Forall_impl; [exact F|]. intros k <-.
  split; [by apply reads_raw|]. intros ->. cbn in Hn. lia.
Qed.

Lemma write_varint_nonempty v : write_varint v <> [].
Proof. unfold write_varint. cbn [write_varint_loop]. by destruct (128 <=? v). Qed.

Lemma reads_varints l : Forall (fun h => 0 <= h < 2 ^ 64) l /\ zlen l < 2 ^ 64 ->
  reads (read_container (read_varint 64)) (write_container write_varint l) l.
Proof.
  intros [F L]. apply reads_container; [done|]. eapply Forall_impl; [exact F|]. intros v Hv.
  split; [by apply reads_varint|apply write_varint_nonempty].
Qed.
#[export] Hint Resolve reads_byte_vector reads_keys reads_varints : codec.

Lemma reads_governance_payload gp : payload_ok gp -> reads read_governance_payload (write_governance_payload gp) gp.
Proof.
  intros [Ht Hd] rest. unfold read_governance_payload, write_governance_payload. read_back. by destruct gp.
Qed.

Lemma reads_vote_proof trap vp : vote_v1_ok vp -> reads (read_vote_proof trap) (write_vote_proof vp) vp.
Proof. intros [] rest. unfold read_vote_proof, write_vote_proof. read_back. by destruct vp. Qed.

Lemma reads_grant_payout p : payout_ok p -> reads read_grant_payout (write_grant_payout p) p.
Proof. intros (? & ? & ?) rest. unfold read_grant_payout, write_grant_payout. read_back. by destruct p. Qed.

Lemma reads_merge_mining depth root : 0 <= depth < 2 ^ 64 -> length root = 32%nat ->
  reads read_merge_mining (write_merge_mining depth root) (depth, root).
Proof. intros ? ? rest. unfold read_merge_mining, write_merge_mining. by read_back. Qed.
#[export] Hint Resolve reads_governance_payload reads_vote_proof reads_grant_payout reads_merge_mining : codec.

(** *** Reading back an encrypted vote *)

Record clsag_ok (c : clsag) : Prop := {
  cok_s : keys_ok 32 (cl_s c);
  cok_c1 : length (cl_c1 c) = 32%nat;
  cok_I : length (cl_I c) = 32%nat;
  cok_D : length (cl_D c) = 32%nat;
}.

Record input_ok (i : vote_input_v2) : Prop := {
  iok_offsets : Forall (fun o => 0 <= o < 2 ^ 64) (vi_key_offsets i) /\ zlen (vi_key_offsets i) < 2 ^ 64;
  iok_wc : length (vi_weight_commitment i) = 32%nat;
  iok_ws : clsag_ok (vi_weight_signature i);
  iok_bc : length (vi_balance_commitment i) = 32%nat;
  iok_bs : clsag_ok (vi_balance_signature i);
}.

Record consistency_ok (p : dao_consistency_proof) : Prop := {
  pok_A_C : length (cp_A_C p) = 32%nat;
  pok_A_P : zlen (cp_A_P p) < 2 ^ 64;
  pok_e : zlen (cp_e p) < 2 ^ 64;
  pok_z_m : zlen (cp_z_m p) < 2 ^ 64;
  pok_z_r : zlen (cp_z_r p) < 2 ^ 64;
  pok_z_rho : zlen (cp_z_rho p) < 2 ^ 64;
}.

Record direction_ok (p : dao_vote_or_proof) : Prop := {
  dok_c_yes : length (or_c_yes p) = 32%nat;
  dok_s_yes : length (or_s_yes p) = 32%nat;
  dok_c_no : length (or_c_no p) = 32%nat;
  dok_s_no : length (or_s_no p) = 32%nat;
}.

Record vote_v2_ok (v : vote_proof_v2) : Prop := {
  v2ok_pid : length (v2_proposal_id v) = 32%nat;
  v2ok_height : 0 <= v2_vote_height v < 2 ^ 64;
  v2ok_key : length (v2_tally_key_id v) = 32%nat;
  v2ok_inputs : Forall input_ok (v2_inputs v) /\ zlen (v2_inputs v) < 2 ^ 64;
  v2ok_nullifiers : keys_ok 32 (v2_nullifiers v);
  v2ok_CW : length (C_W v) = 32%nat; v2ok_CS : length (C_S v) = 32%nat; v2ok_CB : length (C_B v) = 32%nat;
  v2ok_EW : length (E_W v) = 512%nat; v2ok_ES : length (E_S v) = 512%nat; v2ok_EB : length (E_B v) = 512%nat;
  v2ok_pW : consistency_ok (proof_W v); v2ok_pS : consistency_ok (proof_S v); v2ok_pB : consistency_ok (proof_B v);
  v2ok_direction : direction_ok (direction_proof v);
  v2ok_transcript : length (transcript_hash v) = 32%nat;
}.

Lemma reads_clsag c : clsag_ok c -> reads read_clsag (write_clsag c) c.
Proof. intros [] rest. unfold read_clsag, write_clsag. read_back. by destruct c. Qed.
#[export] Hint Resolve reads_clsag : codec.

Lemma reads_vote_input_v2 i : input_ok i -> reads read_vote_input_v2 (write_vote_input_v2 i) i.
Proof. intros [] rest. unfold read_vote_input_v2, write_vote_input_v2. read_back. by destruct i. Qed.

Lemma reads_consistency_proof p : consistency_ok p ->
  reads read_dao_consistency_proof (write_dao_consistency_proof p) p.
Proof. intros [] rest. unfold read_dao_consistency_proof, write_dao_consistency_proof. read_back. by destruct p. Qed.

Lemma reads_direction_proof p : direction_ok p -> reads read_dao_vote_or_proof (write_dao_vote_or_proof p) p.
Proof. intros [] rest. unfold read_dao_vote_or_proof, write_dao_vote_or_proof. read_back. by destruct p. Qed.

Lemma reads_inputs l : Forall input_ok l /\ zlen l < 2 ^ 64 ->
  reads (read_container read_vote_input_v2) (write_container write_vote_input_v2 l) l.
Proof.
  intros [F L]. apply reads_container; [done|]. eapply Forall_impl; [exact F|]. intros i Hi.
  split; [by apply reads_vote_input_v2|]. unfold write_vote_input_v2, write_container.
  intros [[E _]%app_nil _]%app_nil. by apply write_varint_nonempty in E.
Qed.
#[export] Hint Resolve reads_consistency_proof reads_direction_proof reads_inputs : codec.

Lemma reads_vote_proof_v2 v : vote_v2_ok v -> reads read_vote_proof_v2 (write_vote_proof_v2 v) v.
Proof. intros [] rest. unfold read_vote_proof_v2, write_vote_proof_v2. read_back. by destruct v. Qed.

(** *** Reading back the fields *)

Lemma padding_zeros n size : 1 <= size -> size + Z.of_nat n <= TX_EXTRA_PADDING_MAX_COUNT ->
  padding_loop size (replicate n 0) = Some (size + Z.of_nat n).
Proof.
  revert size. induction n as [|n IH]; intros size H1 H2; cbn [replicate padding_loop].
  - rewrite (proj2 (Z.ltb_ge _ _)) by lia. f_equal. lia.
  - rewrite (proj2 (Z.ltb_ge _ _)) by lia. cbn [Z.eqb]. rewrite IH by lia. f_equal. lia.
Qed.

Section fields.
Context (trap_bool : Z -> bool).
Notation read_field := (read_field trap_bool).
Notation parse_fields := (parse_fields trap_bool).
Notation parse_tx_extra := (parse_tx_extra trap_bool).
Notation fields_of := (fields_of trap_bool).

Lemma read_field_cons t d : read_field (t :: d) = read_tagged trap_bool t d.
Proof. unfold TxExtra.read_field. by rewrite read_byte_cons. Qed.

Lemma read_write_padding size : field_ok (tx_extra_padding size) ->
  read_field (write_field (tx_extra_padding size)) = Some (tx_extra_padding size, []).
Proof.
  intros H. cbn [field_ok] in H. unfold write_field. rewrite read_field_cons.
  change (read_tagged trap_bool TX_EXTRA_TAG_PADDING) with read_padding. unfold read_padding.
  rewrite padding_zeros by (cbn in *; lia). cbn. do 3 f_equal. lia.
Qed.

Lemma reads_field f : field_ok f -> is_padding f = false -> reads read_field (write_field f) f.
Proof.
  intros Hf Hp rest. destruct f as [|k|n|depth root|l|l|k|l|vp|gp]; [done| | | | | | | | |]; cbn [field_ok] in Hf;
    unfold write_field; rewrite <- app_comm_cons, read_field_cons; unfold read_tagged; cbn [Z.eqb Pos.eqb
      TX_EXTRA_TAG_PADDING TX_EXTRA_TAG_PUBKEY TX_EXTRA_NONCE TX_EXTRA_MERGE_MINING_TAG
      TX_EXTRA_TAG_ADDITIONAL_PUBKEYS TX_EXTRA_MYSTERIOUS_MINERGATE_TAG TX_EXTRA_TAG_FINGERPRINT
      TX_EXTRA_TAG_GRANT_PAYOUTS TX_EXTRA_TAG_DAO_VOTE TX_EXTRA_GOVERNANCE]; unfold as_field.
  - by read_back.
  - unfold read_nonce. unfold TX_EXTRA_NONCE_MAX_COUNT in *. rewrite reads_archive_string by lia.
    cbn [mbind option_bind]. rewrite (proj2 (Z.ltb_ge _ _)) by lia. done.
  - destruct Hf as [Hd Hr]. unfold read_merge_mining_tag.
    assert (zlen (write_merge_mining depth root) < 2 ^ 64).
    { unfold write_merge_mining. rewrite zlen_app. unfold zlen at 2. rewrite Hr. unfold zlen.
      pose proof (length_write_varint depth). lia. }
    rewrite reads_archive_string by done. cbn [mbind option_bind].
    by rewrite (parse_all_reads _ _ _ (reads_merge_mining depth root Hd Hr)).
  - by rewrite (reads_keys 32 l ltac:(lia) Hf).
  - by read_back.
  - by read_back.
  - destruct Hf as [F L]. rewrite (reads_container read_grant_payout write_grant_payout l L); [done|].
    eapply Forall_impl; [exact F|]. intros p Hp'. split; [by apply reads_grant_payout|].
    destruct Hp' as (H32 & _). unfold write_grant_payout. intros E. apply app_nil in E as [E _].
    rewrite E in H32. done.
  - by rewrite (reads_vote_proof trap_bool vp Hf).
  - by rewrite (reads_governance_payload gp Hf).
Qed.

(** *** What reading leaves and returns *)

Lemma shrinks_governance_payload : shrinks read_governance_payload.
Proof.
  intros d x d' H. unfold read_governance_payload, read_byte_vector in H. fields_shrink H. injection H as _ <-. lia.
Qed.
Lemma shrinks_vote_proof : shrinks (read_vote_proof trap_bool).
Proof. intros d x d' H. unfold read_vote_proof in H. fields_shrink H. injection H as _ <-. lia. Qed.
Lemma shrinks_grant_payout : shrinks read_grant_payout.
Proof. intros d x d' H. unfold read_grant_payout in H. fields_shrink H. injection H as _ <-. lia. Qed.
Lemma shrinks_nonce : shrinks read_nonce.
Proof. intros d x d' H. unfold read_nonce in H. fields_shrink H. split_if_in H; [done|]. injection H as _ <-. lia. Qed.
Lemma shrinks_merge_mining_tag : shrinks read_merge_mining_tag.
Proof.
  intros d x d' H. unfold read_merge_mining_tag in H. fields_shrink H.
  destruct (parse_all _ _); [|done]. injection H as _ <-. lia.
Qed.
Hint Resolve shrinks_governance_payload shrinks_vote_proof shrinks_grant_payout shrinks_nonce
  shrinks_merge_mining_tag : codec.

Lemma shrinks_as_field {A} (k : A -> tx_extra_field) r : shrinks r -> shrinks (as_field k r).
Proof. intros Hr d x d' H. unfold as_field in H. bind_inv H. injection H as _ <-. by apply Hr in E. Qed.

Lemma shrinks_tagged t : shrinks (read_tagged trap_bool t).
Proof.
  unfold read_tagged. repeat (split_if; [try (apply shrinks_as_field; eauto with codec; done)|]).
  - intros d x d' H. unfold read_padding in H. destruct (padding_loop 1 d); [|done]. injection H as _ <-. cbn. lia.
  - done.
Qed.

Lemma read_field_shorter d f d' : read_field d = Some (f, d') -> (length d' < length d)%nat.
Proof. destruct d as [|t d]; [done|]. rewrite read_field_cons. intros H. apply shrinks_tagged in H. cbn. lia. Qed.

(** The fuel is enough. *)
Lemma parse_fields_of n : forall d l, (length d <= n)%nat -> d <> [] ->
  parse_fields n d = Some l <-> fields_of d l.
Proof.
  induction n as [|n IH]; intros d l Hn Hd; [destruct d; [done|cbn in Hn; lia]|]. cbn [TxExtra.parse_fields].
  destruct (read_field d) as [[f d']|] eqn:E; cbn [mbind option_bind].
  - pose proof (read_field_shorter _ _ _ E) as Hs. destruct d' as [|c d']; cbn [is_empty].
    + split; [intros [= <-]; by repeat econstructor|]. inversion 1 as [|? ? ? ? E' F]; subst; [done|].
      rewrite E in E'. injection E' as <- <-. inversion F as [|? ? ? ? E'']; subst; [done|done].
    + destruct (parse_fields n (c :: d')) as [l'|] eqn:P; cbn.
      * apply IH in P; [|lia|done]. split; [intros [= <-]; by econstructor|].
        inversion 1 as [|? ? ? l'' E' F]; subst; [done|]. rewrite E in E'. injection E' as <- <-.
        apply IH in F; [|lia|done]. apply IH in P; [|lia|done]. rewrite F in P. by injection P as ->.
      * split; [done|]. inversion 1 as [|? ? ? l'' E' F]; subst; [done|]. rewrite E in E'. injection E' as <- <-.
        apply IH in F; [|lia|done]. by rewrite F in P.
  - split; [done|]. inversion 1; subst; [done|]. congruence.
Qed.

Lemma parse_tx_extra_iff d l : parse_tx_extra d = Some l <-> fields_of d l.
Proof.
  unfold TxExtra.parse_tx_extra. destruct d as [|c d]; cbn [is_empty].
  - split; [intros [= <-]; constructor|]. inversion 1 as [|? ? ? ? E]; subst; done.
  - by apply parse_fields_of.
Qed.

Lemma write_fields_parse l : Forall field_ok l -> padding_last l -> parse_tx_extra (write_fields l) = Some l.
Proof.
  intros F P. apply parse_tx_extra_iff. induction F as [|f l Hf F IH]; [constructor|].
  unfold write_fields in *. cbn [map concat]. destruct l as [|g l].
  - cbn. rewrite app_nil_r. destruct (is_padding f) eqn:Ep.
    + destruct f; try done. econstructor; [by apply read_write_padding|constructor].
    + econstructor; [|constructor]. pose proof (reads_field f Hf Ep []) as R. by rewrite app_nil_r in R.
  - destruct P as [Ep P]. econstructor; [by apply reads_field|by apply IH].
Qed.


Lemma sound_byte_vector : sound read_byte_vector (fun l => zlen l < 2 ^ 64).
Proof. intros d x d' B H. apply (sound_container _ _ (sound_le 1)) in H as [[_ ?] ?]; done. Qed.
Lemma sound_keys n : sound (read_container (read_raw n)) (keys_ok n).
Proof.
  intros d x d' B H. apply (sound_container _ _ (sound_raw n)) in H as [[F L] ?]; [|done]. split; [|done].
  split; [|done]. eapply Forall_impl; [exact F|]. by intros k [? _].
Qed.
Hint Resolve sound_byte_vector sound_keys : codec.

Lemma sound_governance_payload : sound read_governance_payload payload_ok.
Proof. intros d x d' B H. unfold read_governance_payload in H. fields_sound H B. by injection H as <- <-. Qed.
Lemma sound_vote_proof : sound (read_vote_proof trap_bool) vote_v1_ok.
Proof.
  intros d x d' B H. unfold read_vote_proof in H. fields_sound H B. injection H as <- <-.
  split; [|done]. split; cbn; tauto.
Qed.
Lemma sound_grant_payout : sound read_grant_payout payout_ok.
Proof. intros d x d' B H. unfold read_grant_payout in H. fields_sound H B. injection H as <- <-. unfold payout_ok. cbn. tauto. Qed.
Lemma sound_nonce : sound read_nonce (fun n => zlen n <= TX_EXTRA_NONCE_MAX_COUNT).
Proof.
  intros d x d' B H. unfold read_nonce in H. fields_sound H B. split_if_in H; [done|]. injection H as <- <-.
  split; [by to_prop|done].
Qed.
Lemma sound_merge_mining : sound read_merge_mining (fun m => 0 <= m.1 < 2 ^ 64 /\ length m.2 = 32%nat).
Proof. intros d x d' B H. unfold read_merge_mining in H. fields_sound H B. injection H as <- <-. cbn. tauto. Qed.
Lemma sound_merge_mining_tag : sound read_merge_mining_tag (fun m => 0 <= m.1 < 2 ^ 64 /\ length m.2 = 32%nat).
Proof.
  intros d x d' B H. unfold read_merge_mining_tag in H. fields_sound H B. unfold parse_all in H.
  destruct (read_merge_mining _) as [[m r]|] eqn:E'; [|done]. destruct r; [|done]. injection H as <- <-.
  apply sound_merge_mining in E' as [? _]; tauto.
Qed.
Lemma sound_as_field {A} (k : A -> tx_extra_field) r P :
  sound r P -> (forall x, P x -> field_ok (k x) /\ is_padding (k x) = false) ->
  sound (as_field k r) (fun f => field_ok f /\ is_padding f = false).
Proof.
  intros Hr Hk d x d' B H. unfold as_field in H. bind_inv H. injection H as <- <-.
  apply Hr in E as [? ?]; [|done]. split; [by apply Hk|done].
Qed.

Lemma padding_loop_range d : forall size v, 1 <= size -> padding_loop size d = Some v ->
  1 <= v <= TX_EXTRA_PADDING_MAX_COUNT.
Proof.
  induction d as [|c d IH]; intros size v Hs H; cbn [padding_loop] in H; (split_if_in H; [done|]); to_prop.
  - injection H as <-. lia.
  - split_if_in H; [|done]. by apply IH in H; [|lia].
Qed.

Hint Resolve sound_governance_payload sound_vote_proof sound_grant_payout sound_nonce sound_merge_mining_tag : codec.

(** A field read is well formed; padding takes everything behind it. *)
Lemma read_field_ok d f d' : Forall is_byte d -> read_field d = Some (f, d') ->
  field_ok f /\ Forall is_byte d' /\ (is_padding f = true -> d' = []).
Proof.
  destruct d as [|t d]; [done|]. intros B H. rewrite read_field_cons in H. apply Forall_cons in B as [_ B].
  revert H. unfold read_tagged. split_if.
  { unfold read_padding. destruct (padding_loop 1 d) as [v|] eqn:Ep; [|done]. intros [= <- <-].
    apply padding_loop_range in Ep; [|lia]. done. }
  intros H. eassert (sound _ (fun f => field_ok f /\ is_padding f = false)) as S.
  2: { apply S in H as [[? ->] ?]; [|done]. done. }
  clear. repeat (split_if; [eapply sound_as_field; [eauto with codec|cbn; tauto]|]). done.
Qed.

Lemma fields_of_ok d l : fields_of d l -> Forall is_byte d -> Forall field_ok l /\ padding_last l.
Proof.
  induction 1 as [|d f d' l E F IH]; intros B; [done|]. destruct (read_field_ok _ _ _ B E) as (Hf & B' & Hp).
  destruct (IH B') as [Fl Pl]. split; [by constructor|]. destruct l as [|g l]; [done|]. split; [|done].
  destruct (is_padding f); [|done]. rewrite (Hp eq_refl) in F. inversion F as [|? ? ? ? E']; subst. done.
Qed.

(** *** Sorting *)

Lemma sort_loop_fields n : forall d l, (length d <= n)%nat -> d <> [] -> fields_of d l ->
  sort_loop trap_bool n d = (l, []).
Proof.
  induction n as [|n IH]; intros d l Hn Hd F; [destruct d; [done|cbn in Hn; lia]|].
  inversion F as [|? f d' l' E F']; subst; [done|]. cbn [sort_loop]. rewrite E.
  pose proof (read_field_shorter _ _ _ E). destruct d' as [|c d']; cbn [is_empty].
  - inversion F' as [|? ? ? ? E']; subst; done.
  - by rewrite (IH _ l') by (done || lia).
Qed.
End fields.

Definition by_tags (tags : list Z) (l : list tx_extra_field) : list tx_extra_field :=
  concat (map (fun t => filter (fun f => field_tag f = t) l) tags).

Lemma write_fields_app l l' : write_fields (l ++ l') = write_fields l ++ write_fields l'.
Proof. unfold write_fields. by rewrite map_app, concat_app. Qed.

Lemma by_tags_skip t tags l : t ∉ tags -> by_tags tags (filter (fun f => field_tag f <> t) l) = by_tags tags l.
Proof.
  intros Ht. unfold by_tags. f_equal. apply map_ext_in. intros u Hu. rewrite list_filter_filter.
  apply list_filter_iff. intros f. split; [tauto|]. intros E. split; [done|]. intros E'.
  apply Ht. rewrite <- E', E. by apply list_elem_of_In.
Qed.

Lemma pick_all tags : NoDup tags -> forall w l,
  fold_left (fun st tag => pick tag st) tags (w, l) =
  (w ++ write_fields (by_tags tags l), filter (fun f => field_tag f ∉ tags) l).
Proof.
  induction 1 as [|t tags Ht _ IH]; intros w l; cbn [fold_left].
  - cbn. rewrite app_nil_r. f_equal. symmetry. apply filter_all, Forall_true. intros f. apply not_elem_of_nil.
  - unfold pick at 2. cbn [fst snd]. rewrite IH, by_tags_skip by done. f_equal.
    + unfold by_tags. cbn [map concat]. by rewrite write_fields_app, app_assoc.
    + rewrite list_filter_filter. apply list_filter_iff. intros f. rewrite not_elem_of_cons. tauto.
Qed.

Lemma by_tags_perm tags l : NoDup tags -> by_tags tags l ≡ₚ filter (fun f => field_tag f ∈ tags) l.
Proof.
  induction 1 as [|t tags Ht _ IH]; unfold by_tags in *; cbn [map concat].
  - rewrite list_filter_none; [done|]. apply Forall_true. intros f. apply not_elem_of_nil.
  - rewrite IH. clear IH. induction l as [|f l IH]; [done|]. rewrite !filter_cons.
    destruct (decide (field_tag f = t)) as [<-|N].
    + rewrite decide_False, decide_True by (done || left). by rewrite <- IH.
    + destruct (decide (field_tag f ∈ tags)) as [Hin|Hn].
      * rewrite decide_True by by right. by rewrite <- IH, Permutation_middle.
      * rewrite decide_False by (rewrite not_elem_of_cons; done). exact IH.
Qed.

Lemma by_tags_filter t tags l : NoDup tags ->
  filter (fun f => field_tag f = t) (by_tags tags l) =
  if decide (t ∈ tags) then filter (fun f => field_tag f = t) l else [].
Proof.
  induction 1 as [|u tags Hu _ IH]; unfold by_tags in *; cbn [map concat]; [done|].
  rewrite filter_app, IH, list_filter_filter. destruct (decide (t = u)) as [->|N].
  - destruct (decide (u ∈ tags)); [done|]. destruct (decide (u ∈ u :: tags)) as [_|H]; [|destruct H; left].
    rewrite app_nil_r. apply list_filter_iff. intros f. tauto.
  - rewrite (list_filter_none (fun f => field_tag f = t /\ field_tag f = u)) by (apply Forall_true; intros f [? ?]; congruence).
    cbn [app]. destruct (decide (t ∈ tags)) as [Hin|Hn], (decide (t ∈ u :: tags)) as [H|H]; try done.
    + destruct H. by right.
    + apply elem_of_cons in H as [?|?]; done.
Qed.

Lemma by_tags_idem tags l : NoDup tags -> by_tags tags (by_tags tags l) = by_tags tags l.
Proof.
  intros ND. unfold by_tags at 1 3. f_equal. apply map_ext_in. intros t Ht.
  rewrite by_tags_filter by done. by rewrite decide_True by by apply list_elem_of_In.
Qed.

Lemma sort_fields trap partial d l : fields_of trap d l ->
  Forall (fun f => field_tag f ∈ sort_order) l ->
  sort_tx_extra trap d partial = Some (write_fields (by_tags sort_order l)).
Proof.
  intros F T. unfold sort_tx_extra. destruct d as [|c d]; cbn [is_empty].
  { inversion F as [|? ? ? ? E]; subst; [done|done]. }
  rewrite (sort_loop_fields trap (length (c :: d)) (c :: d) l) by done. cbn [is_empty negb andb].
  rewrite pick_all by (apply (bool_decide_unpack _); by vm_compute).
  rewrite list_filter_none by (eapply Forall_impl; [exact T|]; intros f ? ?; done).
  cbn [is_empty negb app]. by rewrite app_nil_r.
Qed.

Lemma no_padding_last l : Forall (fun f => is_padding f = false) l -> padding_last l.
Proof. induction 1 as [|f l Hf F IH]; [done|]. destruct l; [done|]. by split. Qed.

(** C37: The extra field is parsed into exactly the fields that follow each other
    in it; every field parsed is well formed and only the last can be padding;
    and any such list of fields is parsed back from the bytes written for it. *)
Theorem tx_extra_codec trap d l : Forall is_byte d ->
  (parse_tx_extra trap d = Some l <-> fields_of trap d l) /\
  (parse_tx_extra trap d = Some l -> Forall field_ok l /\ padding_last l) /\
  (forall l', Forall field_ok l' -> padding_last l' -> parse_tx_extra trap (write_fields l') = Some l').
Proof.
  intros B. split; [apply parse_tx_extra_iff|]. split; [|apply write_fields_parse].
  intros H. apply parse_tx_extra_iff in H. by apply (fields_of_ok trap d).
Qed.

(** Sorting an extra field that parses and has neither padding nor a
    fingerprint keeps its fields, keeps the order among fields of one type, and
    changes nothing when it is applied again. *)
Theorem sort_keeps_fields trap partial d l : Forall is_byte d -> parse_tx_extra trap d = Some l ->
  Forall (fun f => field_tag f <> TX_EXTRA_TAG_PADDING /\ field_tag f <> TX_EXTRA_TAG_FINGERPRINT) l ->
  exists sorted l', sort_tx_extra trap d partial = Some sorted /\ parse_tx_extra trap sorted = Some l' /\
    l' ≡ₚ l /\ (forall t, filter (fun f => field_tag f = t) l' = filter (fun f => field_tag f = t) l) /\
    sort_tx_extra trap sorted partial = Some sorted.
Proof.
  intros B P F. apply parse_tx_extra_iff in P. destruct (fields_of_ok trap d l P B) as [Fok _].
  assert (forall f, field_tag f <> TX_EXTRA_TAG_PADDING /\ field_tag f <> TX_EXTRA_TAG_FINGERPRINT ->
    field_tag f ∈ sort_order /\ is_padding f = false) as Htag.
  { intros f [N1 N2]. split; [|by destruct f]. destruct f; cbn [field_tag] in *; try done;
      apply (bool_decide_unpack _); by vm_compute. }
  assert (NoDup sort_order) as ND by (apply (bool_decide_unpack _); by vm_compute).
  assert (Forall (fun f => field_tag f ∈ sort_order) l) as Fin by (eapply Forall_impl; [exact F|apply Htag]).
  assert (by_tags sort_order l ≡ₚ l) as Perm by (rewrite by_tags_perm, filter_all by done; done).
  assert (fields_of trap (write_fields (by_tags sort_order l)) (by_tags sort_order l)) as Ps.
  { apply parse_tx_extra_iff, write_fields_parse; [by rewrite Perm|]. apply no_padding_last. rewrite Perm.
    eapply Forall_impl; [exact F|]. intros f Hf. by apply Htag. }
  exists (write_fields (by_tags sort_order l)), (by_tags sort_order l).
  split; [by apply sort_fields|]. split; [by apply parse_tx_extra_iff|]. split; [done|]. split.
  - intros t. rewrite by_tags_filter by done. destruct (decide (t ∈ sort_order)) as [_|Hn]; [done|].
    symmetry. apply list_filter_none. eapply Forall_impl; [exact Fin|]. cbn. by intros f Hf <-.
  - rewrite (sort_fields trap partial _ _ Ps) by by rewrite Perm. by rewrite by_tags_idem.
Qed.

(** ** Samples *)

Definition sample_key_field : tx_extra_field := tx_extra_pub_key (replicate 32 7).
Definition sample_execution : tx_extra_field :=
  tx_extra_governance_payload {| gp_type := GO_EXECUTION; gp_data := 1 :: replicate 32 9 |}.
Definition sample_nonce : tx_extra_field := tx_extra_nonce [1; 2; 3].

Lemma tx_extra_codec_witness :
  parse_tx_extra (fun _ => true) (write_fields [sample_execution; sample_nonce; tx_extra_padding 4])
  = Some [sample_execution; sample_nonce; tx_extra_padding 4].
Proof.
  apply (tx_extra_codec (fun _ => true) [] []); [constructor| |done].
  repeat constructor; cbn; (lia || done).
Defined.

Lemma sort_keeps_fields_witness : exists sorted,
  sort_tx_extra (fun _ => true) (write_fields [sample_execution; sample_nonce; sample_key_field]) false = Some sorted /\
  sorted = write_fields [sample_key_field; sample_nonce; sample_execution].
Proof.
  destruct (sort_keeps_fields (fun _ => true) false
    (write_fields [sample_execution; sample_nonce; sample_key_field]) [sample_execution; sample_nonce; sample_key_field])
    as (sorted & _ & E & _).
  - vm_compute. repeat (apply Forall_cons; split; [split; discriminate || done|]). constructor.
  - by vm_compute.
  - by repeat constructor.
  - exists sorted. split; [exact E|]. vm_compute in E. injection E as <-. by vm_compute.
Defined.

(** ** Where sorting goes wrong *)

(** Padding is written before the governance fields, where it is not the last
    field any more, so the sorted extra does not parse. *)
Lemma sort_buries_padding : exists sorted,
  parse_tx_extra (fun _ => true) (write_fields [sample_execution; tx_extra_padding 4]) <> None /\
  sort_tx_extra (fun _ => true) (write_fields [sample_execution; tx_extra_padding 4]) false = Some sorted /\
  parse_tx_extra (fun _ => true) sorted = None.
Proof. eexists. split; [by vm_compute|]. split; [vm_compute; reflexivity|]. by vm_compute. Qed.

(** No case of the sorting takes a fingerprint, so an extra with one is refused. *)
Lemma sort_refuses_fingerprint h partial : length h = 32%nat ->
  sort_tx_extra (fun _ => true) (write_fields [tx_extra_fingerprint h]) partial = None.
Proof.
  intros L. assert (fields_of (fun _ => true) (write_fields [tx_extra_fingerprint h]) [tx_extra_fingerprint h]) as F.
  { apply parse_tx_extra_iff, write_fields_parse; [by repeat constructor|done]. }
  unfold sort_tx_extra. erewrite (sort_loop_fields _ _ (write_fields [tx_extra_fingerprint h])); [|done|done|exact F]. by destruct partial.
Qed.
