(* ===== verification/Curve.v ===== *)
(** * The curve

    What the governance code uses of [ringct/rctOps.cpp] and
    [crypto/crypto-ops.c]: points as 32-byte keys, scalars as 32-byte
    little-endian numbers.  The operations are classes; their laws are the
    documented behaviour of the arithmetic: the points are the group
    [Z/ell x Z/8], and scalars are integers modulo [ell]. *)

From stdpp Require Import base list.
From Stdlib Require Import ZArith Lia.
From S2P Require Import Prelude.
Open Scope Z_scope.

(** The order of the base point. *)
Definition ell : Z := 2 ^ 252 + 27742317777372353535851937790883648493.

(** ** Operations *)

(** [None] is the exception on bytes that are no point. *)
Class CurveOps := {
  rct_identity : bytes;
  addKeys : bytes -> bytes -> option bytes;
  subKeys : bytes -> bytes -> option bytes;
  isInMainSubgroup : bytes -> bool;
}.

(** [sc_check a] is [sc_check(a) == 0]; [sc_muladd a b c] is [ab + c] and
    [sc_mulsub a b c] is [c - ab].  [map_to_point] is
    [ge_fromfe_frombytes_vartime] followed by [ge_mul8].  The precomputation of
    tables ([precomp]) is part of the operations that use them. *)
Class RctOps `{CurveOps} := {
  scalarmultBase : bytes -> bytes;
  scalarmultKey : bytes -> bytes -> option bytes;
  scalarmult8 : bytes -> option bytes;
  addKeys2 : bytes -> bytes -> bytes -> option bytes;
  addKeys_aGbBcC : bytes -> bytes -> bytes -> bytes -> bytes -> option bytes;
  addKeys_aAbBcC : bytes -> bytes -> bytes -> bytes -> bytes -> bytes -> option bytes;
  rct_H : bytes;
  INV_EIGHT : bytes;
  map_to_point : bytes -> bytes;
  sc_reduce32 : bytes -> bytes;
  sc_add : bytes -> bytes -> bytes;
  sc_sub : bytes -> bytes -> bytes;
  sc_mul : bytes -> bytes -> bytes;
  sc_muladd : bytes -> bytes -> bytes -> bytes;
  sc_mulsub : bytes -> bytes -> bytes -> bytes;
  sc_check : bytes -> bool;
  keccak : bytes -> hash;
  SHA256 : bytes -> hash;
}.

(** [rct::hash_to_scalar(const keyV&)]. *)
Definition hash_to_scalar `{RctOps} (keys : list bytes) : bytes := sc_reduce32 (keccak (concat keys)).

(** [rct::commit]: mask times the base point plus amount times [H].  [d2h] writes
    the amount as a scalar. *)
Definition d2h (amount : Z) : bytes := le_bytes 8 amount ++ replicate 24 0.
Definition commit `{RctOps} (amount : Z) (mask : bytes) : option bytes := addKeys2 mask (d2h amount) rct_H.

(** ** Laws *)

(** The points of the main subgroup form an abelian group. *)
Class CurveLaws `{CurveOps} := {
  main_identity : isInMainSubgroup rct_identity = true;
  addKeys_main a b : isInMainSubgroup a = true -> isInMainSubgroup b = true ->
    exists c, addKeys a b = Some c /\ isInMainSubgroup c = true;
  addKeys_identity a : isInMainSubgroup a = true -> addKeys rct_identity a = Some a;
  addKeys_comm a b : isInMainSubgroup a = true -> isInMainSubgroup b = true -> addKeys a b = addKeys b a;
  addKeys_assoc a b c ab bc : addKeys a b = Some ab -> addKeys b c = Some bc ->
    isInMainSubgroup a = true -> isInMainSubgroup b = true -> isInMainSubgroup c = true ->
    addKeys ab c = addKeys a bc;
  subKeys_addKeys a b c : isInMainSubgroup a = true -> isInMainSubgroup b = true ->
    addKeys a b = Some c -> subKeys c b = Some a;
}.

(** A canonical scalar. *)
Definition scalar (a : bytes) : Prop := length a = 32%nat /\ Forall is_byte a /\ le_val a < ell.

(** [point x t] is [x] times the base point plus [t] times a point of order 8. *)
Class RctLaws `{RctOps} := {
  point : Z -> Z -> bytes;
  point_eq x t y u : point x t = point y u <-> x mod ell = y mod ell /\ t mod 8 = u mod 8;
  length_point x t : length (point x t) = 32%nat;
  identity_point : rct_identity = point 0 0;
  addKeys_point x t y u : addKeys (point x t) (point y u) = Some (point (x + y) (t + u));
  subKeys_point x t y u : subKeys (point x t) (point y u) = Some (point (x - y) (t - u));
  main_point p : isInMainSubgroup p = true <-> exists x, p = point x 0;
  scalarmultBase_point a : length a = 32%nat -> Forall is_byte a -> scalarmultBase a = point (le_val a) 0;
  scalarmultKey_point x t a : scalar a -> scalarmultKey (point x t) a = Some (point (le_val a * x) (le_val a * t));
  scalarmult8_point x t : scalarmult8 (point x t) = Some (point (8 * x) 0);
  addKeys2_point a b x t : scalar a -> scalar b ->
    addKeys2 a b (point x t) = Some (point (le_val a + le_val b * x) (le_val b * t));
  aGbBcC_point a b x t c y u : scalar a -> scalar b -> scalar c ->
    addKeys_aGbBcC a b (point x t) c (point y u) =
    Some (point (le_val a + le_val b * x + le_val c * y) (le_val b * t + le_val c * u));
  aAbBcC_point a w v b x t c y u : scalar a -> scalar b -> scalar c ->
    addKeys_aAbBcC a (point w v) b (point x t) c (point y u) =
    Some (point (le_val a * w + le_val b * x + le_val c * y) (le_val a * v + le_val b * t + le_val c * u));
  log_H : Z;
  H_point : rct_H = point log_H 0;
  INV_EIGHT_scalar : scalar INV_EIGHT;
  INV_EIGHT_inverse : (8 * le_val INV_EIGHT) mod ell = 1;
  log_hash : bytes -> Z;
  map_to_point_main h : map_to_point h = point (log_hash h) 0;
  sc_reduce32_val a : length a = 32%nat -> Forall is_byte a ->
    scalar (sc_reduce32 a) /\ le_val (sc_reduce32 a) = le_val a mod ell;
  sc_add_val a b : scalar a -> scalar b -> scalar (sc_add a b) /\ le_val (sc_add a b) = (le_val a + le_val b) mod ell;
  sc_sub_val a b : scalar a -> scalar b -> scalar (sc_sub a b) /\ le_val (sc_sub a b) = (le_val a - le_val b) mod ell;
  sc_mul_val a b : scalar a -> scalar b -> scalar (sc_mul a b) /\ le_val (sc_mul a b) = (le_val a * le_val b) mod ell;
  sc_muladd_val a b c : scalar a -> scalar b -> scalar c ->
    scalar (sc_muladd a b c) /\ le_val (sc_muladd a b c) = (le_val a * le_val b + le_val c) mod ell;
  sc_mulsub_val a b c : scalar a -> scalar b -> scalar c ->
    scalar (sc_mulsub a b c) /\ le_val (sc_mulsub a b c) = (le_val c - le_val a * le_val b) mod ell;
  sc_check_true a : scalar a -> sc_check a = true;
  sc_check_scalar a : length a = 32%nat -> Forall is_byte a -> sc_check a = true -> le_val a < ell;
  keccak_bytes m : length (keccak m) = 32%nat /\ Forall is_byte (keccak m);
  SHA256_bytes m : length (SHA256 m) = 32%nat /\ Forall is_byte (SHA256 m);
}.

(** The main subgroup satisfies the laws of a group. *)
Lemma rct_curve_laws `{RctLaws} : CurveLaws.
Proof.
  split.
  - rewrite identity_point. apply main_point. by exists 0.
  - intros a b (x & ->)%main_point (y & ->)%main_point. eexists. split; [apply addKeys_point|].
    apply main_point. by eexists.
  - intros a (x & ->)%main_point. by rewrite identity_point, addKeys_point.
  - intros a b (x & ->)%main_point (y & ->)%main_point. by rewrite !addKeys_point, Z.add_comm.
  - intros a b c ab bc E1 E2 (x & ->)%main_point (y & ->)%main_point (z & ->)%main_point.
    rewrite addKeys_point in E1, E2. simplify_eq. by rewrite !addKeys_point, !Z.add_assoc.
  - intros a b c (x & ->)%main_point (y & ->)%main_point E. rewrite addKeys_point in E. simplify_eq.
    rewrite subKeys_point. do 2 f_equal; lia.
Qed.
