(* ===== verification/CurveModel.v ===== *)
(** * A model of the curve

    A concrete group that satisfies the laws of [Curve]: a point is the 32-byte
    number [x + 2^253 * t], with [x] below the order of the base point and [t]
    below 8.  The witnesses of the theorems over the curve run in it. *)

From stdpp Require Import base list.
From Stdlib Require Import ZArith Lia.
From S2P Require Import Prelude Curve.
Open Scope Z_scope.

Definition model_point (x t : Z) : bytes := le_bytes 32 (x mod ell + 2 ^ 253 * (t mod 8)).

Definition model_log (a : bytes) : option (Z * Z) :=
  let v := le_val a in
  if (length a =? 32)%nat && forallb (fun b => (0 <=? b) && (b <? 256)) a && (v mod 2 ^ 253 <? ell)
  then Some (v mod 2 ^ 253, v / 2 ^ 253) else None.

Definition model_scalar (v : Z) : bytes := le_bytes 32 (v mod ell).
Definition model_digest (m : bytes) : hash := le_bytes 32 (fold_left Z.add m 1).

#[export] Instance model_curve : CurveOps := {
  rct_identity := model_point 0 0;
  addKeys a b := '(x, t) ← model_log a; '(y, u) ← model_log b; Some (model_point (x + y) (t + u));
  subKeys a b := '(x, t) ← model_log a; '(y, u) ← model_log b; Some (model_point (x - y) (t - u));
  isInMainSubgroup a := match model_log a with Some (_, t) => t =? 0 | None => false end;
}.

#[export] Instance model_rct : RctOps := {
  scalarmultBase a := model_point (le_val a) 0;
  scalarmultKey p a := '(x, t) ← model_log p; Some (model_point (le_val a * x) (le_val a * t));
  scalarmult8 p := '(x, t) ← model_log p; Some (model_point (8 * x) (8 * t));
  addKeys2 a b p := '(x, t) ← model_log p; Some (model_point (le_val a + le_val b * x) (le_val b * t));
  addKeys_aGbBcC a b p c q := '(x, t) ← model_log p; '(y, u) ← model_log q;
    Some (model_point (le_val a + le_val b * x + le_val c * y) (le_val b * t + le_val c * u));
  addKeys_aAbBcC a o b p c q := '(w, v) ← model_log o; '(x, t) ← model_log p; '(y, u) ← model_log q;
    Some (model_point (le_val a * w + le_val b * x + le_val c * y) (le_val a * v + le_val b * t + le_val c * u));
  rct_H := model_point 5 0;
  INV_EIGHT := model_scalar 2713877091499598330239944961141122840321418634767465352250731601857045344121;
  map_to_point h := model_point (le_val h) 0;
  sc_reduce32 a := model_scalar (le_val a);
  sc_add a b := model_scalar (le_val a + le_val b);
  sc_sub a b := model_scalar (le_val a - le_val b);
  sc_mul a b := model_scalar (le_val a * le_val b);
  sc_muladd a b c := model_scalar (le_val a * le_val b + le_val c);
  sc_mulsub a b c := model_scalar (le_val c - le_val a * le_val b);
  sc_check a := le_val a <? ell;
  keccak := model_digest;
  SHA256 := model_digest;
}.

Lemma ell_bounds : 0 < ell < 2 ^ 253.
Proof. split; vm_compute; reflexivity. Qed.

Lemma model_point_range x t : 0 <= x mod ell + 2 ^ 253 * (t mod 8) < 256 ^ 32.
Proof.
  pose proof ell_bounds. pose proof (Z.mod_pos_bound x ell). pose proof (Z.mod_pos_bound t 8).
  change (256 ^ 32) with (2 ^ 253 * 8). lia.
Qed.

Lemma model_point_parts x t :
  (x mod ell + 2 ^ 253 * (t mod 8)) mod 2 ^ 253 = x mod ell /\
  (x mod ell + 2 ^ 253 * (t mod 8)) / 2 ^ 253 = t mod 8.
Proof.
  pose proof ell_bounds. pose proof (Z.mod_pos_bound x ell).
  rewrite (Z.mul_comm (2 ^ 253)), Z.mod_add, Z.div_add, (Z.mod_small (x mod ell)), Z.div_small by lia. lia.
Qed.

Lemma model_log_point x t : model_log (model_point x t) = Some (x mod ell, t mod 8).
Proof.
  unfold model_log, model_point. pose proof ell_bounds. rewrite le_val_le_bytes_id by apply model_point_range.
  destruct (model_point_parts x t) as [-> ->]. rewrite length_le_bytes. cbn [Nat.eqb andb].
  assert (forallb (fun b => (0 <=? b) && (b <? 256)) (le_bytes 32 (x mod ell + 2 ^ 253 * (t mod 8))) = true) as ->.
  { apply Is_true_eq_true, forallb_True. eapply Forall_impl; [apply le_bytes_byte|].
    intros b Hb. unfold is_byte in Hb. apply Is_true_eq_left, andb_true_iff. lia. }
  pose proof (Z.mod_pos_bound x ell). by rewrite (proj2 (Z.ltb_lt _ _)) by lia.
Qed.

Lemma model_log_inv a x t : model_log a = Some (x, t) -> a = model_point x t.
Proof.
  unfold model_log. case_match eqn:E; [|done]. intros [= <- <-].
  apply andb_true_iff in E as [E Hx]. apply andb_true_iff in E as [Hl Hb].
  apply Nat.eqb_eq in Hl. apply Z.ltb_lt in Hx.
  assert (Forall is_byte a) as B.
  { apply Is_true_eq_left, forallb_True in Hb. eapply Forall_impl; [exact Hb|].
    intros b H%Is_true_eq_true. unfold is_byte. lia. }
  pose proof (le_val_range a B) as R. unfold zlen in R. rewrite Hl in R. change (256 ^ Z.of_nat 32) with (2 ^ 253 * 8) in R.
  unfold model_point. rewrite <- (le_bytes_le_val a B) at 1. rewrite Hl. f_equal.
  pose proof (Z.mod_pos_bound (le_val a) (2 ^ 253)).
  assert (0 <= le_val a / 2 ^ 253 < 8).
  { split; [apply Z.div_pos; lia|]. apply Z.div_lt_upper_bound; lia. }
  rewrite (Z.mod_small (le_val a mod _)), (Z.mod_small (le_val a / _)) by lia.
  pose proof (Z.div_mod (le_val a) (2 ^ 253)). lia.
Qed.

Lemma model_scalar_ok v : scalar (model_scalar v) /\ le_val (model_scalar v) = v mod ell.
Proof.
  pose proof ell_bounds. pose proof (Z.mod_pos_bound v ell). unfold model_scalar, scalar.
  rewrite le_val_le_bytes_id by (change (256 ^ Z.of_nat 32) with (2 ^ 253 * 8); lia).
  rewrite length_le_bytes. split_and!; auto with vns; lia.
Qed.

Lemma model_point_congr x t y u : x mod ell = y mod ell -> t mod 8 = u mod 8 -> model_point x t = model_point y u.
Proof. intros E F. unfold model_point. by rewrite E, F. Qed.

(** Reads the points, computes, and compares modulo the two orders. *)
Ltac model_op :=
  intros; cbn [addKeys subKeys isInMainSubgroup rct_identity model_curve scalarmultBase scalarmultKey scalarmult8
    addKeys2 addKeys_aGbBcC addKeys_aAbBcC model_rct];
  rewrite ?model_log_point; cbn [mbind option_bind]; f_equal; apply model_point_congr;
  apply congr_elim; congr_ring.

#[export] Instance model_laws : RctLaws.
Proof.
  refine {| point := model_point; log_H := 5; log_hash := le_val |}.
  - intros x t y u. split; [|intros [? ?]; by apply model_point_congr].
    intros E. assert (model_log (model_point x t) = model_log (model_point y u)) as F by by rewrite E.
    rewrite !model_log_point in F. by simplify_eq.
  - intros. apply length_le_bytes.
  - done.
  - model_op.
  - model_op.
  - intros p. cbn [isInMainSubgroup model_curve]. split.
    + destruct (model_log p) as [[x t]|] eqn:E; [|done]. intros ->%Z.eqb_eq. exists x. by apply model_log_inv.
    + intros (x & ->). by rewrite model_log_point.
  - done.
  - model_op.
  - intros. cbn [scalarmult8 model_rct]. rewrite model_log_point. cbn [mbind option_bind]. f_equal. apply model_point_congr.
    + apply Zmult_mod_idemp_r.
    + by rewrite Z.mul_comm, Z_mod_mult.
  - model_op.
  - model_op.
  - model_op.
  - done.
  - apply model_scalar_ok.
  - by vm_compute.
  - done.
  - intros. apply model_scalar_ok.
  - intros. apply model_scalar_ok.
  - intros. apply model_scalar_ok.
  - intros. apply model_scalar_ok.
  - intros. apply model_scalar_ok.
  - intros. apply model_scalar_ok.
  - intros a (_ & _ & Ha). by apply Z.ltb_lt.
  - intros a _ _ Ha. by apply Z.ltb_lt.
  - intros. split; [apply length_le_bytes|apply le_bytes_byte].
  - intros. split; [apply length_le_bytes|apply le_bytes_byte].
Defined.

#[export] Instance model_group : CurveLaws := rct_curve_laws.
