(* ===== verification/Treasury.v ===== *)
(** * The treasury ([src/cryptonote_core/blockchain.cpp], [src/blockchain_db/lmdb/db_lmdb.cpp])

    Treasury outputs and the balance kept beside them: what connecting a block
    credits, spends and grants, how grants are built and validated, and what
    popping the block takes back. *)

From stdpp Require Import sorting.
From S2P Require Import Prelude GovParams GovStore Registry ParamExecution.

(** ** Data *)

Record treasury_output := {
  output_id : Z;
  to_amount : Z;
  to_height : Z;
  spent : bool;
}.

Record txin_treasury := { ti_proposal_id : hash; ti_output_id : Z }.

(** The parts of a transaction the treasury reads: its treasury inputs in
    order, its outputs, and the proposal it executes if it is a parameter
    execution ([is_parameter_execution_tx]). *)
Record treasury_tx := {
  tt_inputs : list txin_treasury;
  tt_vout : list tx_out;
  tt_param : option hash;
}.

(** The table of outputs with the counter row it also holds, the balance of
    the properties table, and the governance tables. *)
Record treasury_state := {
  t_outputs : gmap Z treasury_output;
  t_counter : option Z;
  t_balance : Z;
  t_gov : policy_db;
}.

Definition TREASURY_FORK_HEIGHT : Z := 22000.

Definition set_outputs (s : treasury_state) (m : gmap Z treasury_output) : treasury_state :=
  {| t_outputs := m; t_counter := t_counter s; t_balance := t_balance s; t_gov := t_gov s |}.

(** [set_treasury_balance_in_txn] *)
Definition set_balance (s : treasury_state) (b : Z) : treasury_state :=
  {| t_outputs := t_outputs s; t_counter := t_counter s; t_balance := b; t_gov := t_gov s |}.

Definition set_gov (s : treasury_state) (g : policy_db) : treasury_state :=
  {| t_outputs := t_outputs s; t_counter := t_counter s; t_balance := t_balance s; t_gov := g |}.

(** ** The table of outputs *)

Definition add_treasury_output (s : treasury_state) (amount height : Z) : treasury_state :=
  let next_id := u64 (default 0 (t_counter s) + 1) in
  {| t_outputs := <[next_id := {| output_id := next_id; to_amount := amount; to_height := height;
                                  spent := false |}]> (t_outputs s);
     t_counter := Some next_id; t_balance := t_balance s; t_gov := t_gov s |}.

Definition get_treasury_output (s : treasury_state) (id : Z) : option treasury_output := t_outputs s !! id.

Definition set_spent (x : bool) (o : treasury_output) : treasury_output :=
  {| output_id := output_id o; to_amount := to_amount o; to_height := to_height o; spent := x |}.

Definition mark_treasury_output_spent (s : treasury_state) (id : Z) (x : bool) : treasury_state :=
  match t_outputs s !! id with
  | Some o => set_outputs s (<[id := set_spent x o]> (t_outputs s))
  | None => s
  end.

(** The loop casts every row to a [treasury_output], the eight bytes of the
    counter row too: [counter_height] is what it reads there as the height. *)
Definition remove_treasury_outputs_by_height (counter_height : Z) (s : treasury_state) (height : Z)
    : treasury_state :=
  {| t_outputs := filter (fun kv => to_height kv.2 <> height) (t_outputs s);
     t_counter := if counter_height =? height then None else t_counter s;
     t_balance := t_balance s; t_gov := t_gov s |}.

Definition get_unspent_treasury_outputs (s : treasury_state) : list treasury_output :=
  filter (fun o => spent o = false) (map snd (map_to_list (t_outputs s))).

(** ** Validating a grant *)

(** [Blockchain::validate_treasury_input] *)
Definition validate_treasury_input (s : treasury_state) (input : txin_treasury) (height : Z) : bool :=
  match get_treasury_output s (ti_output_id input) with
  | None => false
  | Some out =>
      if spent out then false else
      match proposals (t_gov s) !! ti_proposal_id input with
      | None => false
      | Some rec =>
          if negb (status rec =? PROPOSAL_STATUS_PASSED) then false
          else if height <? u64 (voting_end_height rec + 1) then false
          else true
      end
  end.

(** The sum of the spent outputs' amounts; [None] if one is missing. *)
Fixpoint total_in (s : treasury_state) (ins : list txin_treasury) (acc : Z) : option Z :=
  match ins with
  | [] => Some acc
  | i :: ins =>
      match get_treasury_output s (ti_output_id i) with
      | None => None
      | Some out => total_in s ins (u64 (acc + to_amount out))
      end
  end.

(** The sum of the change outputs; [None] if one is not a treasury output. *)
Fixpoint total_change (outs : list tx_out) (acc : Z) : option Z :=
  match outs with
  | [] => Some acc
  | o :: outs =>
      if bool_decide (out_target o = txout_treasury) then total_change outs (u64 (acc + out_amount o)) else None
  end.

(** The treasury block of [check_tx_inputs].  [pays rec out] stands for its
    last part: the recipient's address parses and the output's key is the
    one-time key derived for it. *)
Definition treasury_tx_valid (pays : proposal_record -> tx_out -> bool) (s : treasury_state)
    (tx : treasury_tx) (height : Z) : bool :=
  match tt_inputs tx with
  | [] => true
  | first :: _ =>
      if negb (forallb (fun i => validate_treasury_input s i height) (tt_inputs tx)) then false
      else if negb (forallb (fun i => beq (ti_proposal_id i) (ti_proposal_id first)) (tt_inputs tx)) then false
      else
      match proposals (t_gov s) !! ti_proposal_id first with
      | None => false
      | Some rec =>
          match total_in s (tt_inputs tx) 0, tt_vout tx with
          | None, _ | _, [] => false
          | Some total, out :: change =>
              if negb (out_amount out =? amount rec) then false
              else match total_change change 0 with
                   | None => false
                   | Some total_ch =>
                       (total =? u64 (amount rec + total_ch)) &&
                       bool_decide (out_target out = txout_to_key \/ out_target out = txout_to_tagged_key) &&
                       pays rec out
                   end
          end
      end
  end.

(** The block-level check for duplicates: [None] is a rejected block. *)
Fixpoint dedup_inputs (ins : list txin_treasury) (ids : gset Z) (pid : option hash)
    : option (gset Z * option hash) :=
  match ins with
  | [] => Some (ids, pid)
  | i :: ins =>
      if bool_decide (ti_output_id i ∈ ids) then None
      else match pid with
           | Some p => if beq (ti_proposal_id i) p
                       then dedup_inputs ins ({[ti_output_id i]} ∪ ids) (Some (ti_proposal_id i)) else None
           | None => dedup_inputs ins ({[ti_output_id i]} ∪ ids) (Some (ti_proposal_id i))
           end
  end.

Fixpoint treasury_dedup (txs : list treasury_tx) (ids : gset Z) (pids : gset hash) : bool :=
  match txs with
  | [] => true
  | tx :: txs =>
      match dedup_inputs (tt_inputs tx) ids None with
      | None => false
      | Some (ids, None) => treasury_dedup txs ids pids
      | Some (ids, Some p) =>
          if bool_decide (p ∈ pids) then false else treasury_dedup txs ids ({[p]} ∪ pids)
      end
  end.

(** ** Connecting a block *)

(** The block is accepted, rejected ([return false]) or an exception leaves
    the function; the writes made so far are part of each. *)
Inductive connect_result :=
| connected (s : treasury_state)
| rejected (s : treasury_state)
| threw (s : treasury_state).

Section connect.
Context (run_param : policy_db -> hash -> exec_outcome)  (* [process_parameter_execution] at this height *)
  (new_height : Z).

(** Outputs of the coinbase: stored and credited. *)
Definition credit_output (s : treasury_state) (out : tx_out) : treasury_state :=
  if bool_decide (out_target out = txout_treasury) then
    let s := add_treasury_output s (out_amount out) new_height in
    set_balance s (u64 (t_balance s + out_amount out))
  else s.

(** Change outputs: stored only. *)
Definition store_output (s : treasury_state) (out : tx_out) : treasury_state :=
  if bool_decide (out_target out = txout_treasury)
  then add_treasury_output s (out_amount out) new_height else s.

(** Phase 1 of a transaction: mark the inputs spent. *)
Fixpoint spend_inputs (ins : list txin_treasury) (first : option hash) (s : treasury_state)
    : (option hash * treasury_state) + treasury_state :=
  match ins with
  | [] => inl (first, s)
  | i :: ins =>
      match first with
      | Some p =>
          if beq (ti_proposal_id i) p
          then spend_inputs ins first (mark_treasury_output_spent s (ti_output_id i) true)
          else inr s
      | None => spend_inputs ins (Some (ti_proposal_id i)) (mark_treasury_output_spent s (ti_output_id i) true)
      end
  end.

(** Phase 2: the grant is deducted once and the proposal marked executed. *)
Definition grant (s : treasury_state) (id : hash) : treasury_state + treasury_state :=
  match proposals (t_gov s) !! id with
  | None => inr s
  | Some rec =>
      if negb (status rec =? PROPOSAL_STATUS_PASSED) || executed rec then inr s else
      let s := set_balance s (u64 (t_balance s - amount rec)) in
      let per := {| per_proposal_id := id; per_execution_height := new_height;
                    per_execution_tx_hash := null_hash;
                    per_pre_execution_status_height := status_height rec |} in
      let g := add_proposal_execution_record (t_gov s) per in
      inl (set_gov s (add_proposal_record g id (with_status rec PROPOSAL_STATUS_EXECUTED true new_height)))
  end.

(** One round of the loop over the block's transactions. *)
Definition connect_tx (s : treasury_state) (tx : treasury_tx) : connect_result :=
  match spend_inputs (tt_inputs tx) None s with
  | inr s => rejected s
  | inl (first, s) =>
      match (match first with Some id => grant s id | None => inl s end) with
      | inr s => rejected s
      | inl s =>
          let s := fold_left store_output (tt_vout tx) s in
          match tt_param tx with
          | None => connected s
          | Some id =>
              match run_param (t_gov s) id with
              | exec_refused => rejected s
              | exec_threw g => threw (set_gov s g)
              | exec_done g => connected (set_gov s g)
              end
          end
      end
  end.

Fixpoint connect_txs (txs : list treasury_tx) (s : treasury_state) : connect_result :=
  match txs with
  | [] => connected s
  | tx :: txs =>
      match connect_tx s tx with
      | connected s => connect_txs txs s
      | r => r
      end
  end.

Definition is_execution (tx : treasury_tx) : bool := negb (is_empty (tt_inputs tx)).

(** The donation loop: ordinary transactions' treasury outputs, stored and credited. *)
Definition credit_donations (s : treasury_state) (tx : treasury_tx) : treasury_state :=
  if is_execution tx then s else fold_left credit_output (tt_vout tx) s.

Definition connect_block (miner_vout : list tx_out) (txs : list treasury_tx) (s : treasury_state)
    : connect_result :=
  let s := fold_left credit_output miner_vout s in
  match connect_txs txs s with
  | connected s => connected (fold_left credit_donations txs s)
  | r => r
  end.

End connect.

(** ** Popping a block *)

(** The sum of the treasury outputs of a transaction, as the rollback
    accumulates it. *)
Definition sub_outputs (delta : Z) (outs : list tx_out) : Z :=
  fold_left (fun d o => if bool_decide (out_target o = txout_treasury) then u64 (d - out_amount o) else d) outs delta.

(** The loop over an execution's inputs: the grant is added back while no
    proposal id has been seen; [None] is the exception on a missing proposal. *)
Fixpoint delta_inputs (g : policy_db) (ins : list txin_treasury) (first_proposal_id : hash) (delta : Z) : option Z :=
  match ins with
  | [] => Some delta
  | i :: ins =>
      if beq first_proposal_id null_hash then
        match proposals g !! ti_proposal_id i with
        | Some rec => delta_inputs g ins (ti_proposal_id i) (u64 (delta + amount rec))
        | None => None
        end
      else delta_inputs g ins first_proposal_id delta
  end.

Definition delta_tx (g : policy_db) (delta : Z) (tx : treasury_tx) : option Z :=
  if is_execution tx then delta_inputs g (tt_inputs tx) null_hash delta
  else Some (sub_outputs delta (tt_vout tx)).

Fixpoint delta_txs (g : policy_db) (txs : list treasury_tx) (delta : Z) : option Z :=
  match txs with
  | [] => Some delta
  | tx :: txs => delta ← delta_tx g delta tx; delta_txs g txs delta
  end.

(** The treasury part of [BlockchainLMDB::pop_block]; [popped_height] is
    [height()] after the pop.  The first output of the coinbase is skipped. *)
Definition db_pop_treasury (miner_vout : list tx_out) (txs : list treasury_tx) (popped_height : Z)
    (s : treasury_state) : option treasury_state :=
  if popped_height <? TREASURY_FORK_HEIGHT then Some s else
  let delta := sub_outputs 0 (tail miner_vout) in
  treasury_delta ← delta_txs (t_gov s) txs delta;
  if treasury_delta =? 0 then Some s else
  let current := t_balance s in
  (* [treasury_delta] is unsigned, so the first alternative is always taken *)
  if (if 0 <? treasury_delta then true else u64 (- treasury_delta) <=? current)
  then Some (set_balance s (u64 (current + treasury_delta))) else None.

(** The parts of [pop_block_from_blockchain] that follow it: executions of the
    popped transactions are rolled back, outputs of the height removed and
    the spent inputs restored; [new_height] is [m_db->height() + 1]. *)
Definition pop_treasury (counter_height : Z) (txs : list treasury_tx) (new_height : Z)
    (s : treasury_state) : treasury_state :=
  let ins := concat (map tt_inputs txs) in
  let s := fold_left (fun s i => set_gov s (execution_rollback (t_gov s) (ti_proposal_id i))) ins s in
  let s := remove_treasury_outputs_by_height counter_height s new_height in
  fold_left (fun s i => mark_treasury_output_spent s (ti_output_id i) false) ins s.

Definition pop_block_treasury (counter_height : Z) (miner_vout : list tx_out) (txs : list treasury_tx)
    (new_height : Z) (s : treasury_state) : option treasury_state :=
  pop_treasury counter_height txs new_height <$> db_pop_treasury miner_vout txs (new_height - 1) s.

(** ** Building a grant *)

(** The order of the candidate outputs. *)
Definition output_le (a c : treasury_output) : Prop :=
  to_height a < to_height c \/ (to_height a = to_height c /\ output_id a <= output_id c).

#[export] Instance output_le_dec a c : Decision (output_le a c).
Proof. unfold output_le. apply _. Defined.

(** Collect unreserved outputs until the amount is reached. *)
Fixpoint collect (amount : Z) (id : hash) (outs : list treasury_output) (reserved : gset Z)
    (vin : list txin_treasury) (collected : Z) : list txin_treasury * gset Z * Z :=
  match outs with
  | [] => (vin, reserved, collected)
  | out :: outs =>
      if bool_decide (output_id out ∈ reserved) then collect amount id outs reserved vin collected else
      let vin := vin ++ [{| ti_proposal_id := id; ti_output_id := output_id out |}] in
      let reserved := {[output_id out]} ∪ reserved in
      let collected := u64 (collected + to_amount out) in
      if amount <=? collected then (vin, reserved, collected)
      else collect amount id outs reserved vin collected
  end.

(** [build_execution_transaction]; [payment] is the target of the payment, or
    [None] if the recipient's address does not parse or the derivation of its
    one-time key fails.  Returns the transaction and the outputs reserved so
    far; on failure the caller's reservations stay as they are. *)
Definition build_execution_transaction (s : treasury_state) (rec : proposal_record)
    (payment : option txout_target) (reserved : gset Z) : option (treasury_tx * gset Z) :=
  if ptype rec =? 1
  then Some ({| tt_inputs := []; tt_vout := []; tt_param := Some (proposal_id rec) |}, reserved) else
  let sorted := merge_sort output_le (get_unspent_treasury_outputs s) in
  let '(vin, candidate_reserved, collected) := collect (amount rec) (proposal_id rec) sorted reserved [] 0 in
  if collected <? amount rec then None else
  match payment with
  | None => None
  | Some target =>
      let vout := [{| out_amount := amount rec; out_target := target |}] in
      let vout := if amount rec <? collected
                  then vout ++ [{| out_amount := u64 (collected - amount rec); out_target := txout_treasury |}]
                  else vout in
      Some ({| tt_inputs := vin; tt_vout := vout; tt_param := None |}, candidate_reserved)
  end.

(** ** Executions of a block template *)

(** [GovernanceManager::get_ready_executions]; [rows] are the proposals in the
    order [for_all_proposals] visits them. *)
Definition get_ready_executions (g : policy_db) (rows : list proposal_record) (current_height : Z)
    : list proposal_record :=
  let exec_delay := default 720 (get_parameter g execution_delay current_height) in
  filter (fun rec => negb (executed rec || negb (status rec =? PROPOSAL_STATUS_PASSED)) &&
                     (u64 (voting_end_height rec + exec_delay) <=? current_height)) rows.

(** The loop of [create_block_template]: a proposal whose transaction cannot
    be built is passed over. *)
Fixpoint build_executions (payment : proposal_record -> option txout_target) (s : treasury_state)
    (ready : list proposal_record) (reserved : gset Z) : list treasury_tx :=
  match ready with
  | [] => []
  | rec :: ready =>
      match build_execution_transaction s rec (payment rec) reserved with
      | None => build_executions payment s ready reserved
      | Some (tx, reserved) => tx :: build_executions payment s ready reserved
      end
  end.

Definition template_executions (payment : proposal_record -> option txout_target) (s : treasury_state)
    (rows : list proposal_record) (height : Z) : list treasury_tx :=
  build_executions payment s (get_ready_executions (t_gov s) rows height) ∅.
