(* ===== verification/TreasuryProofs.v ===== *)
(** * Correctness of the treasury

    The balance equals the value of the unspent outputs, popping a block undoes
    its effects, and the grants the node builds are those it validates. *)

From stdpp Require Import sorting.
From S2P Require Import Prelude GovParams GovStore DomainPolicy Registry ParamExecution ParamExecutionProofs Treasury.

(** ** The value of the unspent outputs *)

Definition worth (o : treasury_output) : Z := if spent o then 0 else to_amount o.

Definition total_worth (m : gmap Z treasury_output) : Z := map_fold (fun _ o acc => worth o + acc) 0 m.

Definition unspent_total (s : treasury_state) : Z := total_worth (t_outputs s).

Lemma total_worth_insert m k o : m !! k = None -> total_worth (<[k := o]> m) = worth o + total_worth m.
Proof.
  intros. unfold total_worth. apply (map_fold_insert_L (fun _ o acc => worth o + acc)); [|done].
  intros. lia.
Qed.

Lemma total_worth_update m k o o' :
  m !! k = Some o -> total_worth (<[k := o']> m) = worth o' - worth o + total_worth m.
Proof.
  intros Hk. rewrite <- insert_delete_eq, total_worth_insert by apply lookup_delete_eq.
  rewrite <- (insert_delete_id m k o Hk) at 2. rewrite total_worth_insert by apply lookup_delete_eq. lia.
Qed.

(** ** Arithmetic modulo the word size *)

Lemma u64_add_l x y : u64 (u64 x + y) = u64 (x + y).
Proof. unfold u64. apply Z.add_mod_idemp_l. lia. Qed.

Lemma u64_add_r x y : u64 (x + u64 y) = u64 (x + y).
Proof. unfold u64. apply Z.add_mod_idemp_r. lia. Qed.

Lemma u64_sub_l x y : u64 (u64 x - y) = u64 (x - y).
Proof. unfold u64. apply Zminus_mod_idemp_l. Qed.

(** ** Ids of outputs *)

Definition counter (s : treasury_state) : Z := default 0 (t_counter s).

(** Every output has an id between 1 and the counter, and stores it. *)
Record ids_ok (s : treasury_state) : Prop := {
  io_counter : 0 <= counter s < 2 ^ 64;
  io_ids : forall k o, t_outputs s !! k = Some o -> 1 <= k <= counter s /\ output_id o = k;
}.

Lemma next_id_fresh s : ids_ok s -> counter s + 1 < 2 ^ 64 ->
  u64 (counter s + 1) = counter s + 1 /\ t_outputs s !! (counter s + 1) = None.
Proof.
  intros [C I] L. split; [apply u64_id; lia|]. destruct (t_outputs s !! (counter s + 1)) eqn:E; [|done].
  apply I in E. lia.
Qed.

(** The output [add_treasury_output] stores, seen as a state. *)
Definition added (s : treasury_state) (amount height : Z) : treasury_state :=
  {| t_outputs := <[counter s + 1 := {| output_id := counter s + 1; to_amount := amount;
       to_height := height; spent := false |}]> (t_outputs s);
     t_counter := Some (counter s + 1); t_balance := t_balance s; t_gov := t_gov s |}.

Lemma add_treasury_output_eq s amount height :
  ids_ok s -> counter s + 1 < 2 ^ 64 -> add_treasury_output s amount height = added s amount height.
Proof. intros I L. unfold add_treasury_output, added. fold (counter s). by destruct (next_id_fresh s I L) as [-> _]. Qed.

Lemma added_ids_ok s amount height : ids_ok s -> counter s + 1 < 2 ^ 64 -> ids_ok (added s amount height).
Proof.
  intros [C I] L. constructor; cbn; [lia|]. intros k o. rewrite lookup_insert_Some.
  intros [[<- <-]|[_ E]]; [cbn; lia|]. apply I in E. lia.
Qed.

Lemma added_total s amount height : ids_ok s -> counter s + 1 < 2 ^ 64 ->
  unspent_total (added s amount height) = amount + unspent_total s.
Proof.
  intros I L. unfold unspent_total, added. cbn. destruct (next_id_fresh s I L) as [_ N].
  by rewrite total_worth_insert.
Qed.

(** ** Sums over outputs *)

Definition treasury_outs (outs : list tx_out) : list tx_out :=
  filter (fun o => out_target o = txout_treasury) outs.

Definition out_sum (outs : list tx_out) : Z := foldr (fun o acc => out_amount o + acc) 0 (treasury_outs outs).

Lemma out_sum_cons o outs :
  out_sum (o :: outs) = (if bool_decide (out_target o = txout_treasury) then out_amount o else 0) + out_sum outs.
Proof.
  unfold out_sum, treasury_outs. rewrite filter_cons.
  destruct (decide (out_target o = txout_treasury)).
  - by rewrite bool_decide_eq_true_2.
  - by rewrite bool_decide_eq_false_2.
Qed.

(** How far a state is from another after storing outputs of height [h]:
    outputs up to the first state's counter are unchanged, later ones are
    unspent and of that height. *)
Record grown (h : Z) (s s' : treasury_state) : Prop := {
  gr_ids : ids_ok s';
  gr_counter : counter s <= counter s';
  gr_old : forall k, k <= counter s -> t_outputs s' !! k = t_outputs s !! k;
  gr_new : forall k o, counter s < k -> t_outputs s' !! k = Some o -> to_height o = h;
  gr_gov : t_gov s' = t_gov s;
}.

Lemma grown_refl h s : ids_ok s -> grown h s s.
Proof. intros I. constructor; try done. intros k o Hk E. apply (io_ids s I) in E. lia. Qed.

Lemma grown_trans h s1 s2 s3 : grown h s1 s2 -> grown h s2 s3 -> grown h s1 s3.
Proof.
  intros [] []. constructor; try done; [lia| | |congruence].
  - intros k Hk. rewrite gr_old1 by lia. auto.
  - intros k o Hk E. destruct (Z.le_gt_cases k (counter s2)); [|eauto].
    rewrite gr_old1 in E by lia. eauto.
Qed.

Lemma grown_added h s amount : ids_ok s -> counter s + 1 < 2 ^ 64 -> grown h s (added s amount h).
Proof.
  intros I L. constructor; [by apply added_ids_ok|cbn; lia| | |done].
  - intros k Hk. cbn. by rewrite lookup_insert_ne by lia.
  - intros k o Hk. cbn. rewrite lookup_insert_Some. intros [[<- <-]|[_ E]]; [done|].
    apply (io_ids s I) in E. lia.
Qed.

Lemma set_balance_grown h s s' c : grown h s s' -> grown h s (set_balance s' c).
Proof. intros [[] ? ? ? ?]. by constructor. Qed.

Section fold_outputs.
Context (h : Z).

Definition treasury_amount (o : tx_out) : Z :=
  if bool_decide (out_target o = txout_treasury) then out_amount o else 0.

Lemma store_output_step s o : ids_ok s -> counter s + 1 < 2 ^ 64 ->
  let s' := store_output h s o in
  grown h s s' /\ counter s' <= counter s + 1 /\
  unspent_total s' = treasury_amount o + unspent_total s /\ t_balance s' = t_balance s.
Proof.
  intros I L. unfold store_output, treasury_amount. case_bool_decide.
  - rewrite add_treasury_output_eq by done. cbv zeta.
    split_and!; [by apply grown_added|cbn; lia|by apply added_total|done].
  - split_and!; [by apply grown_refl|lia|done|done].
Qed.

Lemma store_outputs_spec outs : forall s, ids_ok s -> counter s + zlen outs < 2 ^ 64 ->
  let s' := fold_left (store_output h) outs s in
  grown h s s' /\ counter s' <= counter s + zlen outs /\
  unspent_total s' = out_sum outs + unspent_total s /\ t_balance s' = t_balance s.
Proof.
  induction outs as [|o outs IH]; intros s I L; cbv zeta; cbn [fold_left].
  - unfold zlen. cbn. split_and!; [by apply grown_refl|lia|done|done].
  - rewrite zlen_cons in *. pose proof (zlen_nonneg outs). rewrite out_sum_cons.
    destruct (store_output_step s o I ltac:(lia)) as (G1 & C1 & U1 & B1).
    destruct (IH (store_output h s o) (gr_ids _ _ _ G1) ltac:(lia)) as (G & C & U & B).
    fold (treasury_amount o). split_and!; [by eapply grown_trans|lia|lia|congruence].
Qed.

Lemma credit_output_step s o : ids_ok s -> counter s + 1 < 2 ^ 64 ->
  let s' := credit_output h s o in
  grown h s s' /\ counter s' <= counter s + 1 /\
  unspent_total s' = treasury_amount o + unspent_total s /\
  u64 (t_balance s') = u64 (t_balance s + treasury_amount o) /\
  (0 <= t_balance s < 2 ^ 64 -> 0 <= t_balance s' < 2 ^ 64).
Proof.
  intros I L. unfold credit_output, treasury_amount. case_bool_decide.
  - rewrite add_treasury_output_eq by done. cbv zeta. split_and!.
    + by apply set_balance_grown, grown_added.
    + cbn. lia.
    + by apply added_total.
    + apply u64_u64.
    + intros _. apply u64_range.
  - rewrite Z.add_0_r. split_and!; [by apply grown_refl|lia|done|done|done].
Qed.

Lemma credit_outputs_spec outs : forall s, ids_ok s -> counter s + zlen outs < 2 ^ 64 ->
  let s' := fold_left (credit_output h) outs s in
  grown h s s' /\ counter s' <= counter s + zlen outs /\
  unspent_total s' = out_sum outs + unspent_total s /\ u64 (t_balance s') = u64 (t_balance s + out_sum outs) /\
  (0 <= t_balance s < 2 ^ 64 -> 0 <= t_balance s' < 2 ^ 64).
Proof.
  induction outs as [|o outs IH]; intros s I L; cbv zeta; cbn [fold_left].
  - change (out_sum []) with 0. change (zlen (A:=tx_out) []) with 0. rewrite !Z.add_0_r.
    split_and!; [by apply grown_refl|lia|lia|done|done].
  - rewrite zlen_cons in *. pose proof (zlen_nonneg outs). rewrite out_sum_cons.
    destruct (credit_output_step s o I ltac:(lia)) as (G1 & C1 & U1 & B1 & R1).
    destruct (IH (credit_output h s o) (gr_ids _ _ _ G1) ltac:(lia)) as (G & C & U & B & R).
    fold (treasury_amount o). split_and!; [by eapply grown_trans|lia|lia| |auto].
    rewrite B, <- u64_add_l, B1, u64_add_l. f_equal. lia.
Qed.
End fold_outputs.

(** ** What the treasury needs of parameter executions *)

Definition keys_ok (g : policy_db) : Prop :=
  forall id rec, proposals g !! id = Some rec -> proposal_id rec = id.

(** A parameter execution does not change what a proposal grants. *)
Class ParamRunner (run : policy_db -> hash -> exec_outcome) : Prop := {
  runner_keeps : forall g id g', keys_ok g -> run g id = exec_done g' ->
    keys_ok g' /\ forall p, amount <$> proposals g' !! p = amount <$> proposals g !! p;
}.

#[export] Instance process_parameter_execution_runner trap_bool pads gp vns height
    (Hp : forall i, length (pads i) = 7%nat) :
  ParamRunner (fun g id => process_parameter_execution trap_bool pads gp vns g height id).
Proof.
  constructor. intros g id g' K X.
  apply execution_inv in X as (rec & blob & g1 & R & _ & _ & _ & _ & _ & X & ->).
  apply exec_payload_writes in X; [|done]. apply writes_other_tables in X as (E & _).
  pose proof (K _ _ R) as Hid. unfold keys_ok. cbn. rewrite E, Hid. split.
  - intros i r. rewrite lookup_insert_Some. intros [[<- <-]|[_ ?]]; [done|by apply K].
  - intros p. destruct (decide (p = id)) as [->|N].
    + by rewrite lookup_insert_eq, R.
    + by rewrite lookup_insert_ne.
Qed.

(** ** A block in progress *)

(** The state [s] reached from [s0] within the block of height [h], the
    outputs [used] having been spent. *)
Record in_block (h : Z) (s0 : treasury_state) (used : gset Z) (s : treasury_state) : Prop := {
  ib_ids : ids_ok s;
  ib_counter : counter s0 <= counter s;
  ib_old : forall k, k <= counter s0 ->
    t_outputs s !! k = (if decide (k ∈ used) then set_spent true else id) <$> t_outputs s0 !! k;
  ib_new : forall k o, counter s0 < k -> t_outputs s !! k = Some o -> to_height o = h;
  ib_keys : keys_ok (t_gov s);
  ib_amounts : forall p, amount <$> proposals (t_gov s) !! p = amount <$> proposals (t_gov s0) !! p;
}.

Lemma in_block_start h s : ids_ok s -> keys_ok (t_gov s) -> in_block h s ∅ s.
Proof.
  intros I K. constructor; try done.
  - intros k _. rewrite decide_False by set_solver. by destruct (t_outputs s !! k).
  - intros k o Hk E. apply (io_ids s I) in E. lia.
Qed.

Lemma in_block_grown h s0 used s s' :
  in_block h s0 used s -> grown h s s' -> in_block h s0 used s'.
Proof.
  intros [] []. constructor; try done; [lia| | |by rewrite gr_gov0|by rewrite gr_gov0].
  - intros k Hk. rewrite gr_old0 by lia. auto.
  - intros k o Hk E. destruct (Z.le_gt_cases k (counter s)); [|eauto].
    rewrite gr_old0 in E by lia. eauto.
Qed.

Lemma in_block_gov h s0 used s g :
  in_block h s0 used s -> keys_ok g ->
  (forall p, amount <$> proposals g !! p = amount <$> proposals (t_gov s) !! p) ->
  in_block h s0 used (set_gov s g).
Proof.
  intros [[] ? ? ? ? ?] K A. constructor; try done. cbn. intros p. rewrite A. auto.
Qed.

Lemma in_block_balance h s0 used s c : in_block h s0 used s -> in_block h s0 used (set_balance s c).
Proof. intros [[] ? ? ? ? ?]. by constructor. Qed.

(** Spending one output. *)
Lemma in_block_spend h s0 used s i o :
  ids_ok s0 -> in_block h s0 used s -> i ∉ used -> t_outputs s0 !! i = Some o -> spent o = false ->
  let s' := mark_treasury_output_spent s i true in
  in_block h s0 ({[i]} ∪ used) s' /\ unspent_total s' = unspent_total s - to_amount o /\
  t_balance s' = t_balance s /\ t_gov s' = t_gov s /\ counter s' = counter s.
Proof.
  intros I0 B Hi Ho Hs. pose proof (io_ids _ I0 _ _ Ho) as [Hr _].
  assert (t_outputs s !! i = Some o) as E.
  { rewrite (ib_old _ _ _ _ B) by lia. rewrite decide_False by done. by rewrite Ho. }
  unfold mark_treasury_output_spent. rewrite E. cbv zeta. split_and!; try done.
  - destruct B as [[C I] ? Old New ? ?]. constructor; try done.
    + constructor; [done|]. cbn. intros k x. rewrite lookup_insert_Some.
      intros [[<- <-]|[_ Ek]]; [by apply I in E|by apply I].
    + intros k Hk. cbn. destruct (decide (k = i)) as [->|N].
      * rewrite lookup_insert_eq, decide_True by set_solver. by rewrite Ho.
      * rewrite lookup_insert_ne, Old by done. destruct (decide (k ∈ used)).
        -- by rewrite decide_True by set_solver.
        -- by rewrite decide_False by set_solver.
    + intros k x Hk. cbn. rewrite lookup_insert_Some. intros [[<- <-]|[_ Ek]]; [lia|eauto].
  - unfold unspent_total. cbn. rewrite (total_worth_update _ _ _ _ E). unfold worth. cbn. rewrite Hs. lia.
Qed.

(** ** Inputs of a grant *)

Definition in_amount (s0 : treasury_state) (i : txin_treasury) : Z :=
  match t_outputs s0 !! ti_output_id i with Some o => to_amount o | None => 0 end.

Definition in_sum (s0 : treasury_state) (ins : list txin_treasury) : Z :=
  foldr (fun i acc => in_amount s0 i + acc) 0 ins.

Lemma in_sum_cons s0 i ins : in_sum s0 (i :: ins) = in_amount s0 i + in_sum s0 ins.
Proof. reflexivity. Qed.

Definition in_ids (ins : list txin_treasury) : gset Z := list_to_set (map ti_output_id ins).

(** The input exists and is not spent. *)
Definition spendable (s0 : treasury_state) (i : txin_treasury) : Prop :=
  exists o, t_outputs s0 !! ti_output_id i = Some o /\ spent o = false.

Lemma total_in_sum s0 ins : forall acc t, 0 <= acc < 2 ^ 64 ->
  total_in s0 ins acc = Some t -> t = u64 (acc + in_sum s0 ins).
Proof.
  induction ins as [|i ins IH]; intros acc t Ha; cbn [total_in].
  - intros [= <-]. change (in_sum s0 []) with 0. rewrite Z.add_0_r. by rewrite u64_id.
  - rewrite in_sum_cons. unfold get_treasury_output, in_amount. destruct (t_outputs s0 !! _); [|done].
    intros ->%IH; [|apply u64_range]. rewrite u64_add_l. f_equal. lia.
Qed.

Lemma total_change_sum outs : forall acc t, 0 <= acc < 2 ^ 64 ->
  total_change outs acc = Some t -> t = u64 (acc + out_sum outs).
Proof.
  induction outs as [|o outs IH]; intros acc t Ha; cbn [total_change].
  - intros [= <-]. change (out_sum []) with 0. rewrite Z.add_0_r. by rewrite u64_id.
  - rewrite out_sum_cons. case_bool_decide; [|done]. intros ->%IH; [|apply u64_range].
    rewrite u64_add_l. f_equal. lia.
Qed.

(** Phase 1 on the inputs of one valid grant. *)
Lemma spend_inputs_spec h s0 p ins : ids_ok s0 -> forall used first s,
  in_block h s0 used s -> Forall (spendable s0) ins -> Forall (fun i => ti_proposal_id i = p) ins ->
  NoDup (map ti_output_id ins) -> in_ids ins ## used -> first = None \/ first = Some p ->
  exists s', spend_inputs ins first s = inl (if is_empty ins then first else Some p, s') /\
    in_block h s0 (in_ids ins ∪ used) s' /\ unspent_total s' = unspent_total s - in_sum s0 ins /\
    t_balance s' = t_balance s /\ t_gov s' = t_gov s /\ counter s' = counter s.
Proof.
  intros I0. induction ins as [|i ins IH]; intros used first s B F P N D Hf.
  - exists s. cbn. unfold in_ids. cbn. rewrite union_empty_l_L, Z.sub_0_r. done.
  - apply Forall_cons in F as [(o & Ho & Hs) F]. apply Forall_cons in P as [<- P].
    cbn [map] in N. apply NoDup_cons in N as [Ni N]. unfold in_ids in D. cbn [map list_to_set] in D.
    destruct (in_block_spend h s0 used s (ti_output_id i) o I0 B) as (B' & U & Ba & G & C); [set_solver|done..|].
    destruct (IH ({[ti_output_id i]} ∪ used) (Some (ti_proposal_id i)) _ B' F P N) as (s' & E & B2 & U2 & Ba2 & G2 & C2).
    { unfold in_ids. apply elem_of_disjoint. intros x X Y. apply elem_of_union in Y as [->%elem_of_singleton|Y].
      - apply elem_of_list_to_set in X. done.
      - set_solver. }
    { by right. }
    exists s'. split_and!; try congruence.
    + cbn [spend_inputs is_empty]. destruct Hf as [-> | ->].
      * rewrite E. by destruct (is_empty ins).
      * rewrite beq_refl, E. by destruct (is_empty ins).
    + unfold in_ids. cbn [map list_to_set]. unfold in_ids in B2.
      replace ({[ti_output_id i]} ∪ list_to_set (map ti_output_id ins) ∪ used)
        with (list_to_set (map ti_output_id ins) ∪ ({[ti_output_id i]} ∪ used)); [done|set_solver].
    + rewrite U2, U, in_sum_cons. unfold in_amount. rewrite Ho. lia.
Qed.

(** ** Valid grants *)

(** What validation says of a grant, in exact sums. *)
Lemma treasury_tx_valid_inv pays s tx h :
  treasury_tx_valid pays s tx h = true -> tt_inputs tx <> [] ->
  exists p rec out change,
    Forall (spendable s) (tt_inputs tx) /\ Forall (fun i => ti_proposal_id i = p) (tt_inputs tx) /\
    proposals (t_gov s) !! p = Some rec /\ status rec = PROPOSAL_STATUS_PASSED /\
    tt_vout tx = out :: change /\ out_target out <> txout_treasury /\
    u64 (in_sum s (tt_inputs tx)) = u64 (amount rec + out_sum change).
Proof.
  unfold treasury_tx_valid. destruct (tt_inputs tx) as [|i0 ins] eqn:Ei; [done|]. rewrite <- Ei. intros H _.
  split_if_in H; [done|]. split_if_in H; [done|].
  apply negb_false_iff in E, E0. rewrite forallb_forall in E, E0.
  destruct (proposals (t_gov s) !! ti_proposal_id i0) as [rec|] eqn:R; [|done].
  destruct (total_in s (tt_inputs tx) 0) as [t|] eqn:T; [|done].
  destruct (tt_vout tx) as [|out change] eqn:V; [done|]. split_if_in H; [done|].
  destruct (total_change change 0) as [c|] eqn:C; [|done].
  apply andb_true_iff in H as [[H1 H2]%andb_true_iff _]. apply bool_decide_eq_true in H2. apply Z.eqb_eq in H1.
  apply total_in_sum in T; [|lia]. apply total_change_sum in C; [|lia]. rewrite Z.add_0_l in T, C. subst t c.
  exists (ti_proposal_id i0), rec, out, change.
  assert (forall i, i ∈ tt_inputs tx -> validate_treasury_input s i h = true) as Val.
  { intros i Hi%list_elem_of_In. auto. }
  assert (i0 ∈ tt_inputs tx) as Hi0 by (rewrite Ei; left).
  split_and!; try done.
  - apply Forall_forall. intros i Hi%Val. unfold validate_treasury_input in Hi.
    unfold spendable. unfold get_treasury_output in Hi. destruct (t_outputs s !! _) as [o|]; [|done].
    exists o. split; [done|]. by destruct (spent o).
  - apply Forall_forall. intros i Hi. apply beq_true. by apply E0, list_elem_of_In.
  - apply Val in Hi0. unfold validate_treasury_input in Hi0. destruct (get_treasury_output _ _) as [o|]; [|done].
    destruct (spent o); [done|]. rewrite R in Hi0. split_if_in Hi0; [done|]. to_prop. done.
  - by destruct H2 as [-> | ->].
  - rewrite H1. apply u64_add_r.
Qed.

Lemma dedup_inputs_spec ins : forall ids pid ids' pid',
  dedup_inputs ins ids pid = Some (ids', pid') ->
  ids' = in_ids ins ∪ ids /\ NoDup (map ti_output_id ins) /\ in_ids ins ## ids.
Proof.
  induction ins as [|i ins IH]; intros ids pid ids' pid'; cbn [dedup_inputs].
  - intros [= <- <-]. unfold in_ids. cbn. split_and!; [set_solver|constructor|set_solver].
  - case_bool_decide as Hi; [done|]. intros H.
    assert (exists q, dedup_inputs ins ({[ti_output_id i]} ∪ ids) q = Some (ids', pid')) as [q Hq].
    { destruct pid; [split_if_in H; [|done]|]; eauto. }
    apply IH in Hq as (-> & N & D). unfold in_ids in *. cbn [map list_to_set]. split_and!; [set_solver| |set_solver].
    constructor; [|done]. intros X. apply (elem_of_disjoint _ _) in D. eapply D; [by apply elem_of_list_to_set|set_solver].
Qed.

Lemma treasury_dedup_cons tx txs ids pids :
  treasury_dedup (tx :: txs) ids pids = true ->
  NoDup (map ti_output_id (tt_inputs tx)) /\ in_ids (tt_inputs tx) ## ids /\
  exists pids', treasury_dedup txs (in_ids (tt_inputs tx) ∪ ids) pids' = true.
Proof.
  cbn [treasury_dedup]. destruct (dedup_inputs _ _ _) as [[ids' pid']|] eqn:D; [|done].
  apply dedup_inputs_spec in D as (-> & N & D). destruct pid'; [case_bool_decide; [done|]|]; eauto.
Qed.

(** ** The balance follows the outputs *)

Definition balanced (s : treasury_state) : Prop := t_balance s = u64 (unspent_total s).

Lemma grant_spec h s0 used s p rec0 s' :
  in_block h s0 used s -> proposals (t_gov s0) !! p = Some rec0 -> grant h s p = inl s' ->
  in_block h s0 used s' /\ t_balance s' = u64 (t_balance s - amount rec0) /\
  unspent_total s' = unspent_total s /\ counter s' = counter s.
Proof.
  intros B R. unfold grant. destruct (proposals (t_gov s) !! p) as [rec|] eqn:E; [|done].
  split_if; [done|]. intros [= <-]. pose proof (ib_amounts _ _ _ _ B p) as A. rewrite E, R in A.
  injection A as A. split_and!; [|by rewrite <- A|done|done].
  apply in_block_gov; [by apply in_block_balance| |].
  - pose proof (ib_keys _ _ _ _ B) as K. unfold keys_ok. cbn. intros i r. rewrite lookup_insert_Some.
    intros [[<- <-]|[_ ?]]; [exact (K _ _ E)|by apply K].
  - intros q. cbn. destruct (decide (q = p)) as [->|N].
    + by rewrite lookup_insert_eq, E.
    + by rewrite lookup_insert_ne.
Qed.

(** Ordinary transactions do not pay into the treasury. *)
Definition no_donation (tx : treasury_tx) : Prop :=
  is_execution tx = false -> treasury_outs (tt_vout tx) = [].

Section connect_proofs.
Context (run : policy_db -> hash -> exec_outcome) `{!ParamRunner run} (h vh : Z)
  (pays : proposal_record -> tx_out -> bool) (s0 : treasury_state) (I0 : ids_ok s0).

(** The inputs and the grant of a transaction. *)
Lemma connect_spends tx used s sp :
  in_block h s0 used s -> balanced s -> treasury_tx_valid pays s0 tx vh = true ->
  NoDup (map ti_output_id (tt_inputs tx)) -> in_ids (tt_inputs tx) ## used -> no_donation tx ->
  match spend_inputs (tt_inputs tx) None s with
  | inr s => inr s
  | inl (first, s) => match first with Some id => grant h s id | None => inl s end
  end = inl sp ->
  in_block h s0 (in_ids (tt_inputs tx) ∪ used) sp /\ counter sp = counter s /\
  t_balance sp = u64 (unspent_total sp + out_sum (tt_vout tx)).
Proof.
  intros B Bal V N D ND H. destruct (decide (tt_inputs tx = [])) as [Ei|Ei].
  - rewrite Ei in H |- *. cbn in H. injection H as <-. unfold in_ids. cbn. rewrite union_empty_l_L.
    unfold out_sum. rewrite ND by (unfold is_execution; by rewrite Ei). cbn. rewrite Z.add_0_r. done.
  - destruct (treasury_tx_valid_inv _ _ _ _ V Ei) as (p & rec & out & change & F & P & R & _ & Ev & To & Eq).
    destruct (spend_inputs_spec h s0 p _ I0 used None s B F P N D (or_introl eq_refl)) as (s1 & E & B1 & U1 & Ba1 & G1 & C1).
    rewrite E in H. destruct (is_empty (tt_inputs tx)) eqn:Z; [by destruct (tt_inputs tx)|].
    destruct (grant_spec _ _ _ _ _ _ _ B1 R H) as (B2 & Ba2 & U2 & C2).
    split_and!; [done|congruence|]. rewrite Ba2, Ba1, U2, U1, Ev, out_sum_cons, bool_decide_eq_false_2 by done.
    rewrite Bal, u64_sub_l. unfold u64 in *.
    replace (unspent_total s - in_sum s0 (tt_inputs tx) + (0 + out_sum change))
      with (unspent_total s + out_sum change - in_sum s0 (tt_inputs tx)) by lia.
    rewrite (Zminus_mod _ (in_sum _ _)), Eq, <- Zminus_mod. f_equal. lia.
Qed.

Lemma connect_tx_spec tx used s s' :
  in_block h s0 used s -> balanced s -> treasury_tx_valid pays s0 tx vh = true ->
  NoDup (map ti_output_id (tt_inputs tx)) -> in_ids (tt_inputs tx) ## used -> no_donation tx ->
  counter s + zlen (tt_vout tx) < 2 ^ 64 -> connect_tx run h s tx = connected s' ->
  in_block h s0 (in_ids (tt_inputs tx) ∪ used) s' /\ balanced s' /\ counter s' <= counter s + zlen (tt_vout tx).
Proof.
  intros B Bal V N D ND L H. pose proof (connect_spends tx used s) as Sp. unfold connect_tx in H.
  destruct (spend_inputs (tt_inputs tx) None s) as [[first s1]|]; [|done].
  destruct (match first with Some _ => _ | None => _ end) as [s2|] eqn:G; [|done].
  destruct (Sp s2 B Bal V N D ND eq_refl) as (B2 & C2 & Ba2).
  destruct (store_outputs_spec h (tt_vout tx) s2 (ib_ids _ _ _ _ B2) ltac:(lia)) as (Gr & C3 & U3 & Ba3).
  pose proof (in_block_grown _ _ _ _ _ B2 Gr) as B3. set (s3 := fold_left (store_output h) (tt_vout tx) s2) in *.
  assert (balanced s3) as Bal3 by (unfold balanced; rewrite Ba3, Ba2, U3; f_equal; lia).
  destruct (tt_param tx) as [q|]; [|injection H as <-; split_and!; [done..|lia]].
  destruct (run (t_gov s3) q) as [| |g] eqn:X; try done. injection H as <-.
  destruct (runner_keeps _ _ _ (ib_keys _ _ _ _ B3) X) as [K A].
  split_and!; [by apply in_block_gov|done|change (counter (set_gov s3 g)) with (counter s3); lia].
Qed.

Definition n_outs (txs : list treasury_tx) : Z := foldr (fun tx acc => zlen (tt_vout tx) + acc) 0 txs.

Lemma n_outs_nonneg txs : 0 <= n_outs txs.
Proof. induction txs; cbn; [lia|]. pose proof (zlen_nonneg (tt_vout a)). unfold n_outs in *. lia. Qed.

Lemma connect_txs_spec txs : forall used pids s s',
  in_block h s0 used s -> balanced s -> Forall (fun tx => treasury_tx_valid pays s0 tx vh = true) txs ->
  treasury_dedup txs used pids = true -> Forall no_donation txs -> counter s + n_outs txs < 2 ^ 64 ->
  connect_txs run h txs s = connected s' ->
  exists used', in_block h s0 used' s' /\ balanced s' /\ counter s' <= counter s + n_outs txs.
Proof.
  induction txs as [|tx txs IH]; intros used pids s s' B Bal V D ND L H; cbn in H.
  - injection H as <-. exists used. unfold n_outs. cbn. split_and!; [done..|lia].
  - apply Forall_cons in V as [V1 V], ND as [ND1 ND]. change (n_outs (tx :: txs)) with (zlen (tt_vout tx) + n_outs txs) in *.
    apply treasury_dedup_cons in D as (N & Dj & pids' & D). pose proof (n_outs_nonneg txs).
    destruct (connect_tx run h s tx) as [s1| |] eqn:X; try done.
    apply (connect_tx_spec _ used) in X as (B1 & Bal1 & C1); try done; [|lia].
    destruct (IH _ _ _ _ B1 Bal1 V D ND ltac:(lia) H) as (u & ? & ? & ?). exists u. split_and!; [done..|lia].
Qed.

Lemma no_donations_credit txs s : Forall no_donation txs -> fold_left (credit_donations h) txs s = s.
Proof.
  induction 1 as [|tx txs ND _ IH]; [done|]. cbn [fold_left]. replace (credit_donations h s tx) with s; [done|].
  unfold credit_donations. destruct (is_execution tx) eqn:E; [done|]. specialize (ND E).
  clear IH. induction (tt_vout tx) as [|o l IH]; [done|]. unfold treasury_outs in ND. rewrite filter_cons in ND.
  case_decide; [done|]. cbn [fold_left]. unfold credit_output at 2. rewrite bool_decide_eq_false_2 by done. by apply IH.
Qed.

End connect_proofs.

(** C19: the treasury balance is the value of the unspent treasury outputs.  If
    it is before a block, whose grants passed validation and the duplicate
    check and whose ordinary transactions pay nothing into the treasury, it
    still is after the block, coinbase share, grants, change and parameter
    executions included. *)
Theorem treasury_solvent (run : policy_db -> hash -> exec_outcome) (Hrun : ParamRunner run)
  (pays : proposal_record -> tx_out -> bool) (height new_height : Z) (miner_vout : list tx_out)
  (txs : list treasury_tx) (s s' : treasury_state)
  (Hids : ids_ok s) (Hkeys : keys_ok (t_gov s))
  (Hroom : counter s + zlen miner_vout + n_outs txs < 2 ^ 64)
  (Hvalid : Forall (fun tx => treasury_tx_valid pays s tx height = true) txs)
  (Hdedup : treasury_dedup txs ∅ ∅ = true) (Hnd : Forall no_donation txs)
  (Hc : connect_block run new_height miner_vout txs s = connected s')
  (Hb : t_balance s = u64 (unspent_total s)) :
  t_balance s' = u64 (unspent_total s') /\ ids_ok s' /\ keys_ok (t_gov s').
Proof.
  unfold connect_block in Hc. pose proof (n_outs_nonneg txs). pose proof (zlen_nonneg miner_vout).
  destruct (credit_outputs_spec new_height miner_vout s Hids ltac:(lia)) as (G & C & U & B & R).
  set (s1 := fold_left (credit_output new_height) miner_vout s) in *.
  assert (0 <= t_balance s1 < 2 ^ 64) as R1 by (apply R; rewrite Hb; apply u64_range).
  assert (balanced s1) as B1.
  { unfold balanced. rewrite <- (u64_id _ R1), B, Hb, u64_add_l, U. f_equal. lia. }
  pose proof (in_block_grown _ _ _ _ _ (in_block_start new_height s Hids Hkeys) G) as I1.
  destruct (connect_txs run new_height txs s1) as [s2| |] eqn:X; try done.
  destruct (connect_txs_spec run new_height height pays s Hids txs ∅ ∅ s1 s2 I1 B1 Hvalid Hdedup Hnd ltac:(lia) X)
    as (used & [] & B2 & _).
  rewrite no_donations_credit in Hc by done. injection Hc as <-. done.
Qed.

(** ** Executions within a block *)

Definition execution_of (h : Z) (id : hash) (rec : proposal_record) : proposal_execution_record :=
  {| per_proposal_id := id; per_execution_height := h; per_execution_tx_hash := null_hash;
     per_pre_execution_status_height := status_height rec |}.

(** The governance tables [g] differ from [g0] by the execution of [done]. *)
Record executed_in (h : Z) (g0 : policy_db) (done : gset hash) (g : policy_db) : Prop := {
  ei_rest : g = set_proposals (set_proposal_executions g0 (proposal_executions g)) (proposals g);
  ei_proposals : forall p, proposals g !! p =
    (if decide (p ∈ done) then fun r => with_status r PROPOSAL_STATUS_EXECUTED true h else id) <$> proposals g0 !! p;
  ei_executions : forall p, proposal_executions g !! p =
    (if decide (p ∈ done) then execution_of h p <$> proposals g0 !! p else proposal_executions g0 !! p);
}.

Lemma executed_in_start h g : executed_in h g ∅ g.
Proof.
  constructor; [by destruct g| |]; intros p; rewrite decide_False by set_solver; [|done].
  by destruct (proposals g !! p).
Qed.

(** The tables an execution adds to. *)
Lemma executed_in_grant h g0 done g p rec :
  executed_in h g0 done g -> p ∉ done -> proposals g0 !! p = Some rec ->
  executed_in h g0 ({[p]} ∪ done)
    (add_proposal_record (add_proposal_execution_record g (execution_of h p rec)) p
      (with_status rec PROPOSAL_STATUS_EXECUTED true h)).
Proof.
  intros [Er Ep Ee] Hp R. constructor; [by rewrite Er| |]; intros q; cbn.
  - destruct (decide (q = p)) as [->|N].
    + by rewrite lookup_insert_eq, decide_True, R by set_solver.
    + rewrite lookup_insert_ne, Ep by done. destruct (decide (q ∈ done)).
      * by rewrite decide_True by set_solver.
      * by rewrite decide_False by set_solver.
  - destruct (decide (q = p)) as [->|N].
    + by rewrite lookup_insert_eq, decide_True, R by set_solver.
    + rewrite lookup_insert_ne, Ee by done. destruct (decide (q ∈ done)).
      * by rewrite decide_True by set_solver.
      * by rewrite decide_False by set_solver.
Qed.

(** The proposal a transaction executes. *)
Definition tx_pids (tx : treasury_tx) : gset hash :=
  match tt_inputs tx with [] => ∅ | i :: _ => {[ti_proposal_id i]} end.

(** What a transaction adds to the balance. *)
Definition net (g0 : policy_db) (tx : treasury_tx) : Z :=
  match tt_inputs tx with
  | [] => out_sum (tt_vout tx)
  | i :: _ => match proposals g0 !! ti_proposal_id i with Some rec => - amount rec | None => 0 end
  end.

Lemma dedup_inputs_pid ins : forall ids pid ids' pid',
  dedup_inputs ins ids pid = Some (ids', pid') ->
  match ins, pid with
  | [], _ => pid' = pid
  | i :: _, None => pid' = Some (ti_proposal_id i)
  | _, Some p => pid' = Some p
  end.
Proof.
  induction ins as [|i ins IH]; intros ids pid ids' pid'; cbn [dedup_inputs]; [by intros [= <- <-]|].
  case_bool_decide; [done|]. intros X. destruct pid as [p|].
  - split_if_in X; [|done]. apply beq_true in E. rewrite E in X. apply IH in X. by destruct ins.
  - apply IH in X. by destruct ins.
Qed.

Lemma treasury_dedup_pids tx txs ids pids :
  treasury_dedup (tx :: txs) ids pids = true ->
  NoDup (map ti_output_id (tt_inputs tx)) /\ in_ids (tt_inputs tx) ## ids /\ tx_pids tx ## pids /\
  treasury_dedup txs (in_ids (tt_inputs tx) ∪ ids) (tx_pids tx ∪ pids) = true.
Proof.
  cbn [treasury_dedup]. unfold tx_pids. destruct (dedup_inputs _ _ _) as [[ids' pid']|] eqn:D; [|done].
  pose proof (dedup_inputs_pid _ _ _ _ _ D) as P. apply dedup_inputs_spec in D as (-> & N & Dj).
  destruct (tt_inputs tx) as [|i ins]; subst pid'; intros H.
  - split_and!; [done|done|set_solver|]. by rewrite union_empty_l_L.
  - case_bool_decide; [done|]. split_and!; [done|done|set_solver|done].
Qed.

(** ** A block of grants, exactly *)

Lemma with_status_amount r st e h : amount (with_status r st e h) = amount r.
Proof. reflexivity. Qed.

Lemma net_range_step b x y : u64 (u64 (b + x) + y) = u64 (b + (x + y)).
Proof. rewrite u64_add_l. f_equal. lia. Qed.

Definition all_inputs (txs : list treasury_tx) : list txin_treasury := concat (map tt_inputs txs).

Definition all_pids (txs : list treasury_tx) : gset hash := ⋃ map tx_pids txs.

Definition grants_net (g0 : policy_db) (txs : list treasury_tx) : Z :=
  foldr (fun tx acc => (if is_execution tx then net g0 tx else 0) + acc) 0 txs.

Definition donations_net (g0 : policy_db) (txs : list treasury_tx) : Z :=
  foldr (fun tx acc => (if is_execution tx then 0 else net g0 tx) + acc) 0 txs.

Lemma union_swap `{Countable A} (X Y Z : gset A) : X ∪ Y ∪ Z = Y ∪ (X ∪ Z).
Proof. set_solver. Qed.

Lemma in_ids_app l k : in_ids (l ++ k) = in_ids l ∪ in_ids k.
Proof. unfold in_ids. by rewrite map_app, list_to_set_app_L. Qed.

Section exact.
Context (run : policy_db -> hash -> exec_outcome) (h vh : Z)
  (pays : proposal_record -> tx_out -> bool) (s0 : treasury_state) (I0 : ids_ok s0)
  (Hopen : forall p rec, proposals (t_gov s0) !! p = Some rec ->
     status rec = PROPOSAL_STATUS_PASSED -> executed rec = false).

(** A valid grant is connected, and executes its proposal. *)
Lemma grant_exact used done s p rec :
  in_block h s0 used s -> executed_in h (t_gov s0) done (t_gov s) -> p ∉ done ->
  proposals (t_gov s0) !! p = Some rec -> status rec = PROPOSAL_STATUS_PASSED ->
  exists s', grant h s p = inl s' /\ in_block h s0 used s' /\
    executed_in h (t_gov s0) ({[p]} ∪ done) (t_gov s') /\
    t_balance s' = u64 (t_balance s - amount rec) /\ counter s' = counter s.
Proof.
  intros B Ex Hp R St. assert (proposals (t_gov s) !! p = Some rec) as E.
  { rewrite (ei_proposals _ _ _ _ Ex), decide_False by done. by rewrite R. }
  assert (exists s', grant h s p = inl s' /\ t_gov s' =
    add_proposal_record (add_proposal_execution_record (t_gov s) (execution_of h p rec)) p
      (with_status rec PROPOSAL_STATUS_EXECUTED true h)) as (s' & G & Eg).
  { unfold grant. rewrite E, St, (Hopen _ _ R St). eexists. split; reflexivity. }
  destruct (grant_spec _ _ _ _ _ _ _ B R G) as (B' & Ba & _ & C).
  exists s'. split_and!; try done. rewrite Eg. by apply executed_in_grant.
Qed.

Lemma connect_tx_exact tx used done s :
  in_block h s0 used s -> executed_in h (t_gov s0) done (t_gov s) -> treasury_tx_valid pays s0 tx vh = true ->
  NoDup (map ti_output_id (tt_inputs tx)) -> in_ids (tt_inputs tx) ## used -> tx_pids tx ## done ->
  tt_param tx = None -> counter s + zlen (tt_vout tx) < 2 ^ 64 ->
  exists s', connect_tx run h s tx = connected s' /\ in_block h s0 (in_ids (tt_inputs tx) ∪ used) s' /\
    executed_in h (t_gov s0) (tx_pids tx ∪ done) (t_gov s') /\ counter s' <= counter s + zlen (tt_vout tx) /\
    u64 (t_balance s') = u64 (t_balance s + (if is_execution tx then net (t_gov s0) tx else 0)) /\
    (0 <= t_balance s < 2 ^ 64 -> 0 <= t_balance s' < 2 ^ 64).
Proof.
  intros B Ex V N D Dp Hp L. unfold connect_tx. rewrite Hp.
  assert (exists first s1 s2, spend_inputs (tt_inputs tx) None s = inl (first, s1) /\
    match first with Some id => grant h s1 id | None => inl s1 end = inl s2 /\
    in_block h s0 (in_ids (tt_inputs tx) ∪ used) s2 /\ executed_in h (t_gov s0) (tx_pids tx ∪ done) (t_gov s2) /\
    counter s2 = counter s /\
    u64 (t_balance s2) = u64 (t_balance s + (if is_execution tx then net (t_gov s0) tx else 0)) /\
    (0 <= t_balance s < 2 ^ 64 -> 0 <= t_balance s2 < 2 ^ 64))
    as (first & s1 & s2 & -> & -> & B2 & Ex2 & C2 & Ba2 & R2).
  { unfold tx_pids, net, is_execution in *. destruct (tt_inputs tx) as [|i ins] eqn:Ei.
    - exists None, s, s. unfold in_ids. cbn. rewrite !union_empty_l_L, Z.add_0_r. done.
    - rewrite <- Ei. assert (tt_inputs tx <> []) as Ne by by rewrite Ei.
      destruct (treasury_tx_valid_inv _ _ _ _ V Ne) as (p & rec & out & change & F & P & R & St & _).
      assert (ti_proposal_id i = p) as Hi by (rewrite Ei in P; by apply Forall_cons in P as [? _]).
      rewrite Hi in Dp. rewrite Hi. rewrite <- Ei in N, D.
      destruct (spend_inputs_spec h s0 p _ I0 used None s B F P N D (or_introl eq_refl)) as (s1 & E & B1 & _ & Ba1 & G1 & C1).
      rewrite <- G1 in Ex. assert (p ∉ done) as Np by set_solver.
      destruct (grant_exact _ _ _ p rec B1 Ex Np R St) as (s2 & G & B2 & Ex2 & Ba2 & C2).
      replace (is_empty (tt_inputs tx)) with false in * by by rewrite Ei.
      exists (Some p), s1, s2. rewrite R. cbn [negb]. split_and!; try done; [congruence| |].
      + rewrite Ba2, u64_u64, Ba1. f_equal.
      + intros _. rewrite Ba2. apply u64_range. }
  destruct (store_outputs_spec h (tt_vout tx) s2 (ib_ids _ _ _ _ B2) ltac:(lia)) as (Gr & C3 & _ & Ba3).
  eexists. split; [reflexivity|]. rewrite Ba3, (gr_gov _ _ _ Gr). rewrite C2 in C3.
  split_and!; [by eapply in_block_grown|done|done|done|done].
Qed.

Lemma connect_txs_exact txs : forall used done s,
  in_block h s0 used s -> executed_in h (t_gov s0) done (t_gov s) ->
  Forall (fun tx => treasury_tx_valid pays s0 tx vh = true) txs -> treasury_dedup txs used done = true ->
  Forall (fun tx => tt_param tx = None) txs -> counter s + n_outs txs < 2 ^ 64 ->
  exists s', connect_txs run h txs s = connected s' /\ in_block h s0 (in_ids (all_inputs txs) ∪ used) s' /\
    executed_in h (t_gov s0) (all_pids txs ∪ done) (t_gov s') /\ counter s' <= counter s + n_outs txs /\
    u64 (t_balance s') = u64 (t_balance s + grants_net (t_gov s0) txs) /\
    (0 <= t_balance s < 2 ^ 64 -> 0 <= t_balance s' < 2 ^ 64).
Proof.
  induction txs as [|tx txs IH]; intros used done s B Ex V D P L.
  - exists s. unfold all_inputs, all_pids, n_outs, in_ids. cbn. rewrite !union_empty_l_L, !Z.add_0_r.
    split_and!; [done..|lia|done|done].
  - apply Forall_cons in V as [V1 V], P as [P1 P].
    change (n_outs (tx :: txs)) with (zlen (tt_vout tx) + n_outs txs) in *. pose proof (n_outs_nonneg txs).
    apply treasury_dedup_pids in D as (N & Dj & Dp & D).
    destruct (connect_tx_exact tx used done s B Ex V1 N Dj Dp P1 ltac:(lia)) as (s1 & E1 & B1 & Ex1 & C1 & Ba1 & R1).
    destruct (IH _ _ s1 B1 Ex1 V D P ltac:(lia)) as (s' & E & B' & Ex' & C' & Ba' & R').
    exists s'. cbn [connect_txs]. rewrite E1, E. unfold all_inputs, all_pids in *. cbn [map concat union_list].
    rewrite in_ids_app. split_and!; [done| | |lia| |auto].
    + by rewrite union_swap.
    + cbn [foldr]. by rewrite union_swap.
    + rewrite Ba', <- u64_add_l, Ba1, u64_add_l. cbn. f_equal. unfold grants_net. lia.
Qed.
End exact.

Lemma credit_donations_exact h g0 txs : forall s, ids_ok s -> counter s + n_outs txs < 2 ^ 64 ->
  let s' := fold_left (credit_donations h) txs s in
  grown h s s' /\ u64 (t_balance s') = u64 (t_balance s + donations_net g0 txs) /\
  (0 <= t_balance s < 2 ^ 64 -> 0 <= t_balance s' < 2 ^ 64).
Proof.
  induction txs as [|tx txs IH]; intros s I L; cbv zeta; cbn [fold_left].
  - unfold donations_net. cbn. rewrite Z.add_0_r. split_and!; [by apply grown_refl|done|done].
  - change (n_outs (tx :: txs)) with (zlen (tt_vout tx) + n_outs txs) in *. pose proof (n_outs_nonneg txs).
    pose proof (zlen_nonneg (tt_vout tx)).
    assert (grown h s (credit_donations h s tx) /\ counter (credit_donations h s tx) <= counter s + zlen (tt_vout tx) /\
      u64 (t_balance (credit_donations h s tx)) =
        u64 (t_balance s + if is_execution tx then 0 else net g0 tx) /\
      (0 <= t_balance s < 2 ^ 64 -> 0 <= t_balance (credit_donations h s tx) < 2 ^ 64)) as (G1 & C1 & B1 & R1).
    { unfold credit_donations, net, is_execution. destruct (tt_inputs tx); cbn.
      - destruct (credit_outputs_spec h (tt_vout tx) s I ltac:(lia)) as (? & ? & ? & ? & ?). done.
      - rewrite Z.add_0_r. split_and!; [by apply grown_refl|lia|done|done]. }
    destruct (IH _ (gr_ids _ _ _ G1) ltac:(lia)) as (G & B & R). split_and!; [by eapply grown_trans| |auto].
    rewrite B, <- u64_add_l, B1, u64_add_l. cbn. f_equal. unfold donations_net. lia.
Qed.

(** ** Popping the block *)

Lemma sub_outputs_sum outs : forall d, 0 <= d < 2 ^ 64 -> sub_outputs d outs = u64 (d - out_sum outs).
Proof.
  unfold sub_outputs. induction outs as [|o outs IH]; intros d Hd; cbn [fold_left].
  - change (out_sum []) with 0. by rewrite Z.sub_0_r, u64_id.
  - rewrite out_sum_cons. case_bool_decide.
    + rewrite IH by apply u64_range. rewrite u64_sub_l. f_equal. lia.
    + by rewrite IH.
Qed.

Definition total_net (g0 : policy_db) (txs : list treasury_tx) : Z := foldr (fun tx acc => net g0 tx + acc) 0 txs.

Lemma total_net_split g0 txs : total_net g0 txs = grants_net g0 txs + donations_net g0 txs.
Proof.
  induction txs as [|tx txs IH]; [done|]. unfold total_net, grants_net, donations_net in *. cbn.
  destruct (is_execution tx); lia.
Qed.

Lemma total_net_perm g0 txs txs' : txs ≡ₚ txs' -> total_net g0 txs = total_net g0 txs'.
Proof. unfold total_net. induction 1; cbn; lia. Qed.

Lemma all_inputs_perm txs txs' : txs ≡ₚ txs' -> all_inputs txs ≡ₚ all_inputs txs'.
Proof. unfold all_inputs. intros P. by rewrite P. Qed.

Lemma all_pids_inputs txs p : p ∈ all_pids txs -> exists i, i ∈ all_inputs txs /\ ti_proposal_id i = p.
Proof.
  unfold all_pids, all_inputs. intros (X & HX & Hp)%elem_of_union_list.
  apply list_elem_of_fmap in HX as (tx & -> & Htx). unfold tx_pids in Hp. destruct (tt_inputs tx) as [|i ins] eqn:E; [set_solver|].
  apply elem_of_singleton in Hp as ->. exists i. split; [|done].
  apply list_elem_of_In, in_concat. exists (tt_inputs tx). split; [|rewrite E; by left].
  by apply in_map, list_elem_of_In.
Qed.

Lemma delta_inputs_seen g ins p d : p <> null_hash -> delta_inputs g ins p d = Some d.
Proof.
  intros N. induction ins as [|i ins IH]; [done|]. cbn [delta_inputs].
  destruct (beq p null_hash) eqn:E; [by apply beq_true in E|done].
Qed.

(** The first input of a grant names a proposal, whose id is not the null hash. *)
Definition pays_proposal (g0 : policy_db) (tx : treasury_tx) : Prop :=
  match tt_inputs tx with [] => True | i :: _ => is_Some (proposals g0 !! ti_proposal_id i) end.

Section delta.
Context (g0 g : policy_db) (Hnull : proposals g0 !! null_hash = None)
  (Ha : forall p, amount <$> proposals g !! p = amount <$> proposals g0 !! p).

Lemma delta_tx_net tx d : pays_proposal g0 tx -> 0 <= d < 2 ^ 64 -> delta_tx g d tx = Some (u64 (d - net g0 tx)).
Proof.
  unfold pays_proposal, delta_tx, net, is_execution. destruct (tt_inputs tx) as [|i ins]; cbn [is_empty negb].
  - intros _ Hd. by rewrite sub_outputs_sum.
  - intros [rec R] Hd. cbn [delta_inputs]. rewrite beq_refl. specialize (Ha (ti_proposal_id i)).
    rewrite R in Ha |- *. destruct (proposals g !! ti_proposal_id i) as [r|]; [|done]. injection Ha as ->.
    rewrite delta_inputs_seen by congruence. do 2 f_equal. lia.
Qed.

Lemma delta_txs_net txs : forall d, Forall (pays_proposal g0) txs -> 0 <= d < 2 ^ 64 ->
  delta_txs g txs d = Some (u64 (d - total_net g0 txs)).
Proof.
  induction txs as [|tx txs IH]; intros d F Hd; cbn [delta_txs].
  - cbn. by rewrite Z.sub_0_r, u64_id.
  - apply Forall_cons in F as [F1 F]. rewrite delta_tx_net by done. cbn [mbind option_bind].
    rewrite IH by (done || apply u64_range). rewrite u64_sub_l. do 2 f_equal. cbn. unfold total_net. lia.
Qed.
End delta.

(** The balance returns to what it was. *)
Lemma db_pop_restores g0 miner txs h s b0 :
  proposals g0 !! null_hash = None -> (forall p, amount <$> proposals (t_gov s) !! p = amount <$> proposals g0 !! p) ->
  Forall (pays_proposal g0) txs -> TREASURY_FORK_HEIGHT <= h -> 0 <= b0 < 2 ^ 64 -> 0 <= t_balance s < 2 ^ 64 ->
  t_balance s = u64 (b0 + out_sum (tail miner) + total_net g0 txs) ->
  db_pop_treasury miner txs h s = Some (set_balance s b0).
Proof.
  intros Hn Ha F Hh R0 R B. unfold db_pop_treasury. rewrite (proj2 (Z.ltb_ge _ _)) by done.
  rewrite sub_outputs_sum by lia. rewrite (delta_txs_net g0 _ Hn Ha) by (done || apply u64_range).
  cbn [mbind option_bind]. rewrite u64_sub_l.
  set (x := 0 - out_sum (tail miner) - total_net g0 txs).
  assert (u64 (t_balance s + u64 x) = b0) as E.
  { rewrite u64_add_r, B, u64_add_l. etrans; [|by apply u64_id]. f_equal. unfold x. lia. }
  pose proof (u64_range x). destruct (u64 x =? 0) eqn:X; to_prop.
  - rewrite X, Z.add_0_r, u64_id in E by done. rewrite <- E. by destruct s.
  - rewrite (proj2 (Z.ltb_lt 0 _)) by lia. by rewrite E.
Qed.

(** Executions are rolled back one input at a time; inputs of a proposal that
    was rolled back already change nothing. *)
Section rollback.
Context (h : Z) (g0 : policy_db) (Hk : keys_ok g0).

Definition was_open (p : hash) : Prop :=
  exists rec, proposals g0 !! p = Some rec /\ status rec = PROPOSAL_STATUS_PASSED /\ executed rec = false /\
    status_height rec <> 0 /\ proposal_executions g0 !! p = None.

Lemma rollback_one done g p :
  executed_in h g0 done g -> was_open p -> executed_in h g0 (done ∖ {[p]}) (execution_rollback g p).
Proof.
  intros Ex (rec & R & St & Xe & Sh & Ne). pose proof (ei_proposals _ _ _ _ Ex p) as Ep.
  pose proof (ei_executions _ _ _ _ Ex p) as Ee. rewrite R in Ep, Ee. unfold execution_rollback. rewrite Ep.
  destruct (decide (p ∈ done)) as [Hp|Hp]; cbn.
  - rewrite Ee. cbn. rewrite (proj2 (Z.eqb_neq _ _) Sh), (Hk _ _ R). destruct Ex as [Er Eps Ees].
    replace (with_status _ _ _ _) with rec by (destruct rec; cbn in *; by subst).
    constructor; [by rewrite Er| |]; intros q; cbn; destruct (decide (q = p)) as [->|N].
    + rewrite lookup_insert_eq, decide_False by set_solver. by rewrite R.
    + rewrite lookup_insert_ne, Eps by done. destruct (decide (q ∈ done)).
      * by rewrite decide_True by set_solver.
      * by rewrite decide_False by set_solver.
    + rewrite lookup_delete_eq, decide_False by set_solver. done.
    + rewrite lookup_delete_ne, Ees by done. destruct (decide (q ∈ done)).
      * by rewrite decide_True by set_solver.
      * by rewrite decide_False by set_solver.
  - rewrite St. cbn. by replace (done ∖ {[p]}) with done by set_solver.
Qed.

Lemma executed_in_none g : executed_in h g0 ∅ g -> g = g0.
Proof.
  intros [Er Ep Ee]. rewrite Er. destruct g0. unfold set_proposals, set_proposal_executions. cbn in *.
  f_equal; apply map_eq; intros p; [rewrite Ep|rewrite Ee]; rewrite decide_False by set_solver; [|done].
  by destruct (_ !! p).
Qed.

Lemma rollback_all ins : forall done s,
  executed_in h g0 done (t_gov s) -> (forall p, p ∈ done -> p ∈ map ti_proposal_id ins) ->
  Forall (fun i => was_open (ti_proposal_id i)) ins ->
  fold_left (fun s i => set_gov s (execution_rollback (t_gov s) (ti_proposal_id i))) ins s = set_gov s g0.
Proof.
  induction ins as [|i ins IH]; intros done s Ex Hd F; cbn [fold_left].
  - replace done with (∅ : gset hash) in Ex by set_solver. apply executed_in_none in Ex. rewrite <- Ex. by destruct s.
  - apply Forall_cons in F as [F1 F]. pose proof (rollback_one _ _ _ Ex F1) as Ex1.
    rewrite (IH (done ∖ {[ti_proposal_id i]})); [done|done| |done].
    intros p [Hp Hn]%elem_of_difference. apply Hd in Hp. cbn [map] in Hp.
    apply elem_of_cons in Hp as [->|Hp]; [set_solver|done].
Qed.
End rollback.

(** Restoring the spent outputs. *)
Lemma unspend_lookup ins : forall s k,
  t_outputs (fold_left (fun s i => mark_treasury_output_spent s (ti_output_id i) false) ins s) !! k =
  (if decide (k ∈ map ti_output_id ins) then set_spent false else id) <$> t_outputs s !! k.
Proof.
  induction ins as [|i ins IH]; intros s k; cbn [fold_left map].
  - rewrite decide_False by (intros X; by inversion X). by destruct (t_outputs s !! k).
  - rewrite IH. unfold mark_treasury_output_spent. destruct (t_outputs s !! ti_output_id i) as [o|] eqn:E; cbn.
    + destruct (decide (k = ti_output_id i)) as [->|N].
      * rewrite lookup_insert_eq, E, (decide_True _ _ (list_elem_of_here _ _)). by destruct (decide _).
      * rewrite lookup_insert_ne by done. destruct (decide (k ∈ map ti_output_id ins)).
        -- by rewrite decide_True by by right.
        -- rewrite decide_False; [done|]. intros [->|?]%elem_of_cons; done.
    + destruct (decide (k ∈ map ti_output_id ins)).
      * by rewrite decide_True by by right.
      * destruct (decide (k = ti_output_id i)) as [->|N]; [by rewrite E|].
        rewrite decide_False; [done|]. intros [->|?]%elem_of_cons; done.
Qed.

Lemma unspend_rest ins : forall s,
  let s' := fold_left (fun s i => mark_treasury_output_spent s (ti_output_id i) false) ins s in
  t_balance s' = t_balance s /\ t_gov s' = t_gov s /\ t_counter s' = t_counter s.
Proof.
  induction ins as [|i ins IH]; intros s; [done|]. cbv zeta in *. cbn [fold_left].
  destruct (IH (mark_treasury_output_spent s (ti_output_id i) false)) as (-> & -> & ->).
  unfold mark_treasury_output_spent. by destruct (t_outputs s !! ti_output_id i).
Qed.

(** A proposal that has passed is not executed, was dated and has no execution
    record. *)
Definition passed_is_open (g : policy_db) : Prop :=
  forall p rec, proposals g !! p = Some rec -> status rec = PROPOSAL_STATUS_PASSED ->
    executed rec = false /\ status_height rec <> 0 /\ proposal_executions g !! p = None.

Lemma valid_inputs_open pays s vh txs :
  passed_is_open (t_gov s) -> Forall (fun tx => treasury_tx_valid pays s tx vh = true) txs ->
  Forall (fun i => was_open (t_gov s) (ti_proposal_id i)) (all_inputs txs).
Proof.
  intros Ho. induction 1 as [|tx txs V F IH]; [constructor|]. apply Forall_app. split; [|done].
  destruct (decide (tt_inputs tx = [])) as [->|Ne]; [constructor|].
  destruct (treasury_tx_valid_inv _ _ _ _ V Ne) as (p & rec & _ & _ & _ & P & R & St & _).
  eapply Forall_impl; [exact P|]. intros i ->. destruct (Ho _ _ R St) as (? & ? & ?). by exists rec.
Qed.

Lemma valid_pays_proposal pays s vh tx : treasury_tx_valid pays s tx vh = true -> pays_proposal (t_gov s) tx.
Proof.
  intros V. unfold pays_proposal. destruct (tt_inputs tx) as [|i ins] eqn:E; [done|].
  destruct (treasury_tx_valid_inv _ _ _ _ V ltac:(by rewrite E)) as (p & rec & _ & _ & _ & P & R & _).
  rewrite E in P. apply Forall_cons in P as [-> _]. by eexists.
Qed.

Lemma valid_inputs_spendable pays s vh txs :
  Forall (fun tx => treasury_tx_valid pays s tx vh = true) txs -> Forall (spendable s) (all_inputs txs).
Proof.
  induction 1 as [|tx txs V F IH]; [constructor|]. apply Forall_app. split; [|done].
  destruct (decide (tt_inputs tx = [])) as [->|Ne]; [constructor|].
  by destruct (treasury_tx_valid_inv _ _ _ _ V Ne) as (p & rec & ? & ? & ? & _).
Qed.

(** Removing the block's outputs and restoring the spent ones. *)
Lemma pop_outputs_restore h c s s' ins ins' : ids_ok s -> in_block h s (in_ids ins ∪ ∅) s' -> ins' ≡ₚ ins ->
  (forall k o, t_outputs s !! k = Some o -> to_height o <> h) -> Forall (spendable s) ins ->
  t_outputs (fold_left (fun s i => mark_treasury_output_spent s (ti_output_id i) false) ins'
    (remove_treasury_outputs_by_height c s' h)) = t_outputs s.
Proof.
  intros I B P Hh F. apply map_eq. intros k. rewrite unspend_lookup. cbn [t_outputs remove_treasury_outputs_by_height].
  destruct (Z.le_gt_cases k (counter s)) as [L|L].
  - pose proof (ib_old _ _ _ _ B k L) as Old. destruct (t_outputs s !! k) as [o|] eqn:E.
    + assert (k ∈ in_ids ins ∪ ∅ <-> k ∈ map ti_output_id ins') as Iff.
      { unfold in_ids. rewrite union_empty_r_L, elem_of_list_to_set, P. done. }
      rewrite (map_lookup_filter_Some_2 _ _ _ ((if decide (k ∈ in_ids ins ∪ ∅) then set_spent true else id) o));
        [|exact Old|cbn; specialize (Hh _ _ E); by destruct (decide _)].
      destruct (decide (k ∈ map ti_output_id ins')) as [Hk|Hk].
      * rewrite decide_True by by apply Iff. cbn. f_equal. rewrite P in Hk.
        apply list_elem_of_fmap in Hk as (i & -> & Hi). rewrite Forall_forall in F. destruct (F _ Hi) as (o' & E' & Sp).
        rewrite E in E'. injection E' as <-. by destruct o; cbn in *; subst.
      * rewrite decide_False by by rewrite Iff. done.
    + rewrite map_lookup_filter_None_2; [done|by left].
  - destruct (t_outputs s !! k) as [o|] eqn:E; [apply (io_ids _ I) in E; lia|].
    rewrite map_lookup_filter_None_2; [done|]. right. intros o Ho Hx. apply Hx. by eapply ib_new.
Qed.

(** C22: a block that pays valid grants connects, and popping it takes back
    every effect on the treasury.  The outputs, the balance and the governance
    tables are those from before, in whatever order the database returns the
    popped transactions: coinbase share, donations, grants and change
    included.  (Only the counter of output ids keeps its new value.) *)
Theorem connect_then_pop (run : policy_db -> hash -> exec_outcome) (pays : proposal_record -> tx_out -> bool)
  (height new_height counter_height : Z) (miner_vout : list tx_out) (txs popped : list treasury_tx)
  (s : treasury_state) (Hids : ids_ok s) (Hkeys : keys_ok (t_gov s)) (Hbal : 0 <= t_balance s < 2 ^ 64)
  (Hroom : counter s + zlen miner_vout + 2 * n_outs txs < 2 ^ 64)
  (Hvalid : Forall (fun tx => treasury_tx_valid pays s tx height = true) txs)
  (Hdedup : treasury_dedup txs ∅ ∅ = true) (Hparam : Forall (fun tx => tt_param tx = None) txs)
  (Hopen : passed_is_open (t_gov s)) (Hnull : proposals (t_gov s) !! null_hash = None)
  (Hcoin : forall o, head miner_vout = Some o -> out_target o <> txout_treasury)
  (Hnew : forall k o, t_outputs s !! k = Some o -> to_height o <> new_height)
  (Hfork : TREASURY_FORK_HEIGHT <= new_height - 1) (Hpop : popped ≡ₚ txs) :
  exists s1 s2, connect_block run new_height miner_vout txs s = connected s1 /\
    pop_block_treasury counter_height miner_vout popped new_height s1 = Some s2 /\
    t_outputs s2 = t_outputs s /\ t_balance s2 = t_balance s /\ t_gov s2 = t_gov s.
Proof.
  unfold connect_block. pose proof (n_outs_nonneg txs). pose proof (zlen_nonneg miner_vout).
  destruct (credit_outputs_spec new_height miner_vout s Hids ltac:(lia)) as (G & C & _ & B & R).
  set (sm := fold_left (credit_output new_height) miner_vout s) in *.
  pose proof (in_block_grown _ _ _ _ _ (in_block_start new_height s Hids Hkeys) G) as Im.
  assert (executed_in new_height (t_gov s) ∅ (t_gov sm)) as Em by (rewrite (gr_gov _ _ _ G); apply executed_in_start).
  destruct (connect_txs_exact run new_height height pays s Hids ltac:(intros p rec Rp Sp; by destruct (Hopen p rec Rp Sp))
    txs ∅ ∅ sm Im Em Hvalid Hdedup Hparam ltac:(lia)) as (sx & -> & Ix & Ex & Cx & Bx & Rx).
  destruct (credit_donations_exact new_height (t_gov s) txs sx (ib_ids _ _ _ _ Ix) ltac:(lia)) as (Gd & Bd & Rd).
  set (s1 := fold_left (credit_donations new_height) txs sx) in *.
  pose proof (in_block_grown _ _ _ _ _ Ix Gd) as I1. rewrite <- (gr_gov _ _ _ Gd) in Ex.
  assert (out_sum miner_vout = out_sum (tail miner_vout)) as Hs.
  { destruct miner_vout as [|o outs]; [done|]. rewrite out_sum_cons, bool_decide_eq_false_2 by by apply Hcoin. done. }
  assert (t_balance s1 = u64 (t_balance s + out_sum (tail miner_vout) + total_net (t_gov s) popped)) as Eb.
  { rewrite <- (u64_id (t_balance s1)) by auto. rewrite Bd, <- u64_add_l, Bx, u64_add_l.
    rewrite <- Z.add_assoc, <- u64_add_l, B, u64_add_l, Hs, (total_net_perm _ _ _ Hpop), total_net_split. f_equal; lia. }
  assert (Forall (pays_proposal (t_gov s)) popped) as Hpays.
  { rewrite Hpop. eapply Forall_impl; [exact Hvalid|]. intros tx. apply valid_pays_proposal. }
  exists s1. unfold pop_block_treasury.
  rewrite (db_pop_restores (t_gov s) _ _ _ _ (t_balance s) Hnull (ib_amounts _ _ _ _ I1)) by auto.
  cbn [fmap option_fmap option_map]. eexists. split; [done|]. split; [done|]. unfold pop_treasury.
  fold (all_inputs popped). pose proof (all_inputs_perm _ _ Hpop) as Pi.
  rewrite (rollback_all new_height (t_gov s) Hkeys _ (all_pids txs ∪ ∅)); [|done| |].
  - destruct (unspend_rest (all_inputs popped) (remove_treasury_outputs_by_height counter_height
      (set_gov (set_balance s1 (t_balance s)) (t_gov s)) new_height)) as (-> & -> & _). split; [|done].
    eapply pop_outputs_restore; [done| |exact Pi|done|by eapply valid_inputs_spendable].
    apply in_block_gov; [by apply in_block_balance|done|]. intros p. cbn. symmetry. apply (ib_amounts _ _ _ _ I1).
  - intros p. rewrite union_empty_r_L. intros (i & Hi & <-)%all_pids_inputs. rewrite Pi. by apply list_elem_of_fmap_2.
  - rewrite Pi. by eapply valid_inputs_open.
Qed.

(** ** A concrete block *)

Definition sample_grant (st : Z) (ex : bool) (h : Z) : proposal_record :=
  {| proposal_id := sample_id; ptype := 0; title := []; description := []; recipient := str "addr"; amount := 120;
     voting_period_days := 14; submission_height := 10; voting_end_height := 100;
     tally_key_id := null_hash; submission_tx_hash := null_hash; executed := ex; status := st;
     status_height := h; recipient_view_public_key := []; is_subaddress := false |}.

Definition sample_gov : policy_db :=
  {| governance_parameters := []; extension_policy := []; premium_label_policy := [];
     banned_label_policy := []; banned_extension_policy := []; exact_domain_ban_policy := [];
     exact_domain_tier_policy := []; pending_domain_policy := ∅;
     proposals := {[ sample_id := sample_grant PROPOSAL_STATUS_PASSED false 101 ]};
     proposal_data := ∅; proposal_executions := ∅ |}.

(** Two unspent outputs, worth 150, and a passed grant of 120. *)
Definition sample_treasury : treasury_state :=
  {| t_outputs := <[1 := {| output_id := 1; to_amount := 100; to_height := 22001; spent := false |}]>
       {[ 2 := {| output_id := 2; to_amount := 50; to_height := 22002; spent := false |} ]};
     t_counter := Some 2; t_balance := 150; t_gov := sample_gov |}.

Definition sample_tx : treasury_tx :=
  {| tt_inputs := [{| ti_proposal_id := sample_id; ti_output_id := 1 |};
                   {| ti_proposal_id := sample_id; ti_output_id := 2 |}];
     tt_vout := [{| out_amount := 120; out_target := txout_to_tagged_key |};
                 {| out_amount := 30; out_target := txout_treasury |}];
     tt_param := None |}.

Definition sample_coinbase : list tx_out :=
  [{| out_amount := 900; out_target := txout_to_tagged_key |}; {| out_amount := 25; out_target := txout_treasury |}].

Definition sample_donation : treasury_tx :=
  {| tt_inputs := []; tt_vout := [{| out_amount := 7; out_target := txout_treasury |}]; tt_param := None |}.

Definition sample_runner (g : policy_db) (id : hash) : exec_outcome :=
  process_parameter_execution (fun _ => false) (fun _ => replicate 7 0) sample_params sample_vns g 22500 id.

Lemma sample_ids : ids_ok sample_treasury.
Proof.
  constructor; [cbn; lia|]. intros k o. unfold sample_treasury. cbn [t_outputs].
  rewrite lookup_insert_Some, lookup_singleton_Some. intros [[<- <-]|[_ [<- <-]]]; cbn; lia.
Qed.

Lemma sample_keys : keys_ok (t_gov sample_treasury).
Proof.
  unfold keys_ok. intros i r. cbn [t_gov sample_treasury proposals sample_gov]. rewrite lookup_singleton_Some.
  by intros [<- <-].
Qed.

(** The state after the block: the grant spent both outputs, the coinbase
    share and the change are stored. *)
Definition after (r : connect_result) : treasury_state :=
  match r with connected s | rejected s | threw s => s end.

Lemma treasury_solvent_witness :
  let s' := after (connect_block sample_runner 22500 sample_coinbase [sample_tx] sample_treasury) in
  t_balance s' = 55 /\ t_balance s' = u64 (unspent_total s').
Proof.
  split; [vm_compute; reflexivity|].
  apply (treasury_solvent sample_runner (process_parameter_execution_runner _ (fun _ => replicate 7 0) _ _ _ (fun _ => eq_refl))
    (fun _ _ => true) 22500 22500 sample_coinbase [sample_tx] sample_treasury).
  - exact sample_ids.
  - exact sample_keys.
  - vm_compute. reflexivity.
  - repeat constructor.
  - vm_compute. reflexivity.
  - by repeat constructor.
  - vm_compute. reflexivity.
  - vm_compute. reflexivity.
Defined.

Lemma connect_then_pop_witness :
  exists s1 s2, connect_block sample_runner 22500 sample_coinbase [sample_tx; sample_donation] sample_treasury = connected s1 /\
    pop_block_treasury 0 sample_coinbase [sample_donation; sample_tx] 22500 s1 = Some s2 /\
    t_outputs s2 = t_outputs sample_treasury /\ t_balance s2 = 150 /\ t_gov s2 = sample_gov.
Proof.
  apply (connect_then_pop sample_runner (fun _ _ => true) 22500 22500 0 sample_coinbase [sample_tx; sample_donation]
    [sample_donation; sample_tx] sample_treasury).
  - exact sample_ids.
  - exact sample_keys.
  - cbn. lia.
  - vm_compute. reflexivity.
  - repeat constructor.
  - vm_compute. reflexivity.
  - by repeat constructor.
  - intros p rec. cbn [t_gov sample_treasury proposals sample_gov]. rewrite lookup_singleton_Some.
    intros [<- <-] _. split_and!; [done|cbn; lia|done].
  - vm_compute. reflexivity.
  - by intros o [= <-].
  - intros k o. unfold sample_treasury. cbn [t_outputs].
    rewrite lookup_insert_Some, lookup_singleton_Some. intros [[<- <-]|[_ [<- <-]]]; cbn; lia.
  - unfold TREASURY_FORK_HEIGHT. lia.
  - constructor.
Defined.

(** ** What the rules above leave out *)

(** A donation is stored twice: by the loop for change outputs and by the
    donation loop.  The balance counts it once. *)
Lemma donation_stored_twice :
  let s' := after (connect_block sample_runner 22500 [] [sample_donation] sample_treasury) in
  t_balance s' = 157 /\ unspent_total s' = 164.
Proof. vm_compute. split; reflexivity. Qed.

(** Ids of outputs depend on the node's history: a node that connected and
    popped a block stores the next output under another id than a node that
    never saw that block. *)
Lemma output_ids_depend_on_history :
  let fresh := after (connect_block sample_runner 22500 sample_coinbase [] sample_treasury) in
  let reorganised :=
    match pop_block_treasury 0 sample_coinbase [] 22500 fresh with
    | Some s => after (connect_block sample_runner 22500 sample_coinbase [] s)
    | None => sample_treasury
    end in
  is_Some (get_treasury_output fresh 3) /\ get_treasury_output reorganised 3 = None /\
  is_Some (get_treasury_output reorganised 4).
Proof. vm_compute. split_and!; eauto. Qed.

(** The underflow check of the rollback never fails: popping a block that
    credited more than the balance wraps around. *)
Lemma pop_underflow_unchecked :
  t_balance <$> db_pop_treasury sample_coinbase [] 22500 (set_balance sample_treasury 24) = Some (2 ^ 64 - 1).
Proof. vm_compute. reflexivity. Qed.
