(* ===== verification/TreasuryTemplate.v ===== *)
(** * Grants of a block template

    The execution transactions a miner's template carries are those the block
    validation accepts. *)

From stdpp Require Import sorting.
From S2P Require Import Prelude GovParams GovStore DomainPolicy Registry ParamExecution ParamExecutionProofs Treasury TreasuryProofs.

(** ** Unspent outputs *)

Definition sum_amounts (l : list treasury_output) : Z := foldr (fun o acc => to_amount o + acc) 0 l.

(** The outputs no other execution of the template has reserved. *)
Definition free (reserved : gset Z) (l : list treasury_output) : list treasury_output :=
  filter (fun o => output_id o ∉ reserved) l.

Lemma sum_amounts_cons o l : sum_amounts (o :: l) = to_amount o + sum_amounts l.
Proof. reflexivity. Qed.

Lemma sum_amounts_perm l k : l ≡ₚ k -> sum_amounts l = sum_amounts k.
Proof. unfold sum_amounts. induction 1; cbn; lia. Qed.

Lemma sum_amounts_nonneg l : Forall (fun o => 0 <= to_amount o) l -> 0 <= sum_amounts l.
Proof. induction 1; cbn; [lia|]. unfold sum_amounts in *. lia. Qed.

Lemma sum_free_nonneg reserved l : Forall (fun o => 0 <= to_amount o) l -> 0 <= sum_amounts (free reserved l).
Proof.
  unfold free. induction 1 as [|o l Ho F IH]; [done|]. rewrite filter_cons.
  destruct (decide (output_id o ∉ reserved)); rewrite ?sum_amounts_cons; lia.
Qed.

Lemma sum_free_le reserved l :
  Forall (fun o => 0 <= to_amount o) l -> sum_amounts (free reserved l) <= sum_amounts l.
Proof.
  unfold free. induction 1 as [|o l Ho F IH]; [done|]. rewrite filter_cons.
  destruct (decide (output_id o ∉ reserved)); rewrite !sum_amounts_cons; lia.
Qed.

Lemma elem_unspent s o :
  o ∈ get_unspent_treasury_outputs s <-> spent o = false /\ exists k, t_outputs s !! k = Some o.
Proof.
  unfold get_unspent_treasury_outputs. rewrite list_elem_of_filter, list_elem_of_fmap. split.
  - intros (Hs & [k x] & -> & E%elem_of_map_to_list). eauto.
  - intros (Hs & k & E). split; [done|]. exists (k, o). split; [done|]. by apply elem_of_map_to_list.
Qed.

Lemma unspent_ids_nodup s : ids_ok s -> NoDup (map output_id (get_unspent_treasury_outputs s)).
Proof.
  intros I. apply (sublist_NoDup _ (map fst (map_to_list (t_outputs s)))); [apply NoDup_fst_map_to_list|].
  replace (map fst (map_to_list (t_outputs s))) with (map output_id (map snd (map_to_list (t_outputs s)))).
  - apply fmap_sublist, sublist_filter.
  - rewrite map_map. apply map_ext_in. intros [k o] Hko. apply list_elem_of_In, elem_of_map_to_list in Hko.
    by apply (io_ids s I) in Hko as [_ ?].
Qed.

(** Amounts are not negative, and all of them together fit in a word. *)
Record amounts_ok (s : treasury_state) : Prop := {
  ao_nonneg : forall k o, t_outputs s !! k = Some o -> 0 <= to_amount o;
  ao_total : unspent_total s < 2 ^ 64;
}.

Lemma unspent_sum s : sum_amounts (get_unspent_treasury_outputs s) = unspent_total s.
Proof.
  unfold unspent_total, total_worth, get_unspent_treasury_outputs. rewrite map_fold_foldr.
  induction (map_to_list (t_outputs s)) as [|[k o] l IH]; [done|]. cbn [map snd foldr uncurry]. rewrite filter_cons.
  unfold worth at 1. destruct (spent o) eqn:E; [rewrite decide_False by done|rewrite decide_True by done];
    rewrite ?sum_amounts_cons, IH; lia.
Qed.

(** ** Collecting outputs *)

Definition mk_input (id : hash) (o : treasury_output) : txin_treasury :=
  {| ti_proposal_id := id; ti_output_id := output_id o |}.

Definition out_ids (l : list treasury_output) : gset Z := list_to_set (map output_id l).

Lemma free_insert i reserved l : i ∉ map output_id l -> free ({[i]} ∪ reserved) l = free reserved l.
Proof.
  induction l as [|o l IH]; [done|]. cbn [map]. intros [N1 N2]%not_elem_of_cons. unfold free in *.
  rewrite !filter_cons, IH by done. destruct (decide (output_id o ∉ reserved)).
  - by rewrite decide_True by set_solver.
  - by rewrite decide_False by set_solver.
Qed.

(** The loop takes unreserved outputs until the amount is reached, or all of them. *)
Lemma collect_spec a id outs : forall reserved vin c,
  NoDup (map output_id outs) -> Forall (fun o => 0 <= to_amount o) outs -> 0 <= c -> c + sum_amounts outs < 2 ^ 64 ->
  exists taken, collect a id outs reserved vin c
      = (vin ++ map (mk_input id) taken, out_ids taken ∪ reserved, c + sum_amounts taken) /\
    sublist taken outs /\ Forall (fun o => output_id o ∉ reserved) taken /\
    (c + sum_amounts taken < a -> sum_amounts taken = sum_amounts (free reserved outs)) /\
    sum_amounts taken <= sum_amounts (free reserved outs).
Proof.
  induction outs as [|o outs IH]; intros reserved vin c N F Hc L; cbn [collect].
  - exists []. unfold out_ids. cbn. rewrite app_nil_r, union_empty_l_L, Z.add_0_r. split_and!; by try constructor.
  - cbn [map] in N. apply NoDup_cons in N as [N1 N]. apply Forall_cons in F as [F1 F]. rewrite sum_amounts_cons in L.
    pose proof (sum_amounts_nonneg _ F). unfold free. rewrite filter_cons. case_bool_decide as Hr.
    + destruct (IH reserved vin c N F Hc ltac:(lia)) as (taken & -> & S & Fr & Full & Le).
      exists taken. rewrite decide_False by (intros X; by apply X). split_and!; [done|by apply sublist_cons|done..].
    + rewrite decide_True by done. rewrite u64_id by lia. fold (mk_input id o). fold (free reserved outs).
      pose proof (sum_free_nonneg reserved _ F).
      split_if; to_prop.
      * exists [o]. unfold out_ids. cbn [map list_to_set]. rewrite union_empty_r_L, !sum_amounts_cons.
        change (sum_amounts []) with 0. rewrite Z.add_0_r.
        split_and!; [done|by apply sublist_skip, sublist_nil_l|by repeat constructor|lia|lia].
      * destruct (IH ({[output_id o]} ∪ reserved) (vin ++ [mk_input id o]) (c + to_amount o) N F ltac:(lia) ltac:(lia))
          as (taken & -> & S & Fr & Full & Le).
        rewrite free_insert in Full, Le by done. exists (o :: taken). rewrite !sum_amounts_cons.
        split_and!; [|by apply sublist_skip| |lia|lia].
        -- rewrite <- app_assoc. unfold out_ids. cbn [map list_to_set]. rewrite union_swap, Z.add_assoc. done.
        -- constructor; [done|]. eapply Forall_impl; [exact Fr|]. intros x Hx. set_solver.
Qed.

(** ** One grant *)

Lemma total_in_taken s id l : forall acc, 0 <= acc -> Forall (fun o => 0 <= to_amount o) l -> acc + sum_amounts l < 2 ^ 64 ->
  Forall (fun o => t_outputs s !! output_id o = Some o) l ->
  total_in s (map (mk_input id) l) acc = Some (acc + sum_amounts l).
Proof.
  induction l as [|o l IH]; intros acc Ha N L F; cbn [map total_in].
  - change (sum_amounts []) with 0. by rewrite Z.add_0_r.
  - apply Forall_cons in F as [F1 F], N as [N1 N]. unfold get_treasury_output. cbn [mk_input ti_output_id]. rewrite F1.
    rewrite sum_amounts_cons in *. pose proof (sum_amounts_nonneg _ N). rewrite u64_id, IH by (done || lia).
    f_equal. lia.
Qed.

Lemma dedup_taken id l : forall ids pid, NoDup (map output_id l) -> Forall (fun o => output_id o ∉ ids) l ->
  pid = None \/ pid = Some id ->
  dedup_inputs (map (mk_input id) l) ids pid = Some (out_ids l ∪ ids, if is_empty l then pid else Some id).
Proof.
  induction l as [|o l IH]; intros ids pid N F P; cbn [map dedup_inputs mk_input ti_output_id ti_proposal_id].
  - unfold out_ids. cbn. by rewrite union_empty_l_L.
  - apply NoDup_cons in N as [N1 N]. apply Forall_cons in F as [F1 F]. rewrite bool_decide_eq_false_2 by done.
    assert (dedup_inputs (map (mk_input id) l) ({[output_id o]} ∪ ids) (Some id)
      = Some (out_ids (o :: l) ∪ ids, Some id)) as E.
    { rewrite IH; [|done| |by right].
      - unfold out_ids. cbn [map list_to_set]. rewrite union_swap. by destruct (is_empty l).
      - apply Forall_forall. intros x Hx. rewrite Forall_forall in F. intros [X%elem_of_singleton|X]%elem_of_union; [|by eapply F].
        apply N1. rewrite <- X. by apply list_elem_of_fmap_2. }
    cbn [is_empty]. destruct P as [-> | ->]; [done|]. by rewrite beq_refl.
Qed.

(** What the builder promises of a transaction for [rec]: the validator
    accepts it, and it spends unreserved outputs, each once, for [rec] only. *)
Record built_for (pays : proposal_record -> tx_out -> bool) (s : treasury_state) (height : Z)
    (rec : proposal_record) (reserved reserved' : gset Z) (tx : treasury_tx) : Prop := {
  bf_valid : treasury_tx_valid pays s tx height = true;
  bf_dedup : forall ids, ids ⊆ reserved -> exists pid,
    dedup_inputs (tt_inputs tx) ids None = Some (in_ids (tt_inputs tx) ∪ ids, pid) /\
    (pid = None \/ pid = Some (proposal_id rec));
  bf_reserved : reserved' = in_ids (tt_inputs tx) ∪ reserved;
}.

Section builder.
Context (pays : proposal_record -> tx_out -> bool) (s : treasury_state) (height : Z)
  (Hids : ids_ok s) (Ham : amounts_ok s).

(** A grant that is due by the validator's clock. *)
Definition due (rec : proposal_record) : Prop :=
  proposals (t_gov s) !! proposal_id rec = Some rec /\ status rec = PROPOSAL_STATUS_PASSED /\
  u64 (voting_end_height rec + 1) <= height /\ 0 <= amount rec < 2 ^ 64.

(** The derived target is a key output the validator derives as well. *)
Definition payable (rec : proposal_record) (target : txout_target) : Prop :=
  (target = txout_to_key \/ target = txout_to_tagged_key) /\
  pays rec {| out_amount := amount rec; out_target := target |} = true.

Definition candidates : list treasury_output := merge_sort output_le (get_unspent_treasury_outputs s).

Lemma candidates_perm : candidates ≡ₚ get_unspent_treasury_outputs s.
Proof. apply merge_sort_Permutation. Qed.

Lemma candidate_ok o : o ∈ candidates -> t_outputs s !! output_id o = Some o /\ spent o = false /\ 0 <= to_amount o.
Proof.
  rewrite candidates_perm, elem_unspent. intros (Hs & k & E). pose proof (io_ids _ Hids _ _ E) as [_ Hk].
  rewrite Hk. split_and!; [done..|]. by eapply (ao_nonneg _ Ham).
Qed.

Lemma candidates_spec a id reserved :
  exists taken, collect a id candidates reserved [] 0 = (map (mk_input id) taken, out_ids taken ∪ reserved, sum_amounts taken) /\
    NoDup (map output_id taken) /\ Forall (fun o => o ∈ candidates) taken /\
    Forall (fun o => output_id o ∉ reserved) taken /\ 0 <= sum_amounts taken < 2 ^ 64 /\
    (sum_amounts taken < a <-> sum_amounts (free reserved candidates) < a).
Proof.
  assert (NoDup (map output_id candidates)) as N by (rewrite candidates_perm; by apply unspent_ids_nodup).
  assert (Forall (fun o => 0 <= to_amount o) candidates) as F.
  { apply Forall_forall. intros o Ho. by apply candidate_ok. }
  pose proof (ao_total _ Ham) as T. rewrite <- unspent_sum, <- (sum_amounts_perm _ _ candidates_perm) in T.
  destruct (collect_spec a id candidates reserved [] 0 N F ltac:(lia) ltac:(lia)) as (taken & E & S & Fr & Full & Le).
  exists taken. rewrite E, Z.add_0_l in *. assert (Forall (fun o => o ∈ candidates) taken) as Ft.
  { apply Forall_forall. intros o Ho. by eapply elem_of_sublist. }
  pose proof (sum_amounts_nonneg taken) as P1. pose proof (sum_free_nonneg reserved _ F).
  assert (0 <= sum_amounts taken) by (apply P1; eapply Forall_impl; [exact Ft|]; intros o Ho; by apply candidate_ok).
  assert (sum_amounts (free reserved candidates) <= sum_amounts candidates) by (apply sum_free_le; exact F).
  split_and!; [done| |done|done|lia|lia|lia].
  eapply sublist_NoDup; [exact N|]. by apply fmap_sublist.
Qed.

Lemma in_ids_taken id l : in_ids (map (mk_input id) l) = out_ids l.
Proof. unfold in_ids, out_ids. by rewrite map_map. Qed.

(** The transaction built from the outputs taken. *)
Lemma taken_valid rec target taken change : due rec -> payable rec target -> NoDup (map output_id taken) ->
  Forall (fun o => o ∈ candidates) taken -> 0 <= sum_amounts taken < 2 ^ 64 -> amount rec <= sum_amounts taken ->
  change = (if amount rec <? sum_amounts taken
            then [{| out_amount := u64 (sum_amounts taken - amount rec); out_target := txout_treasury |}] else []) ->
  treasury_tx_valid pays s {| tt_inputs := map (mk_input (proposal_id rec)) taken;
    tt_vout := {| out_amount := amount rec; out_target := target |} :: change; tt_param := None |} height = true.
Proof.
  intros (R & St & Hh & Ha) (Ht & Hpay) N F Hs Hle ->. unfold treasury_tx_valid. cbn [tt_inputs tt_vout].
  destruct taken as [|o taken]; [done|]. set (l := o :: taken) in *.
  assert (forallb (fun i => validate_treasury_input s i height) (map (mk_input (proposal_id rec)) l) = true) as ->.
  { apply forallb_forall. intros i (x & <- & Hx)%in_map_iff. apply list_elem_of_In in Hx. rewrite Forall_forall in F.
    destruct (candidate_ok _ (F _ Hx)) as (E & Sp & _). unfold validate_treasury_input, get_treasury_output.
    cbn [mk_input ti_output_id ti_proposal_id]. rewrite E, Sp, R, St, Z.eqb_refl. by rewrite (proj2 (Z.ltb_ge _ _)). }
  assert (forallb (fun i => beq (ti_proposal_id i) (proposal_id rec)) (map (mk_input (proposal_id rec)) l) = true) as Hp.
  { apply forallb_forall. intros i (x & <- & Hx)%in_map_iff. apply beq_refl. }
  rewrite (total_in_taken s (proposal_id rec) l 0); [|lia| |lia|].
  - cbn [map mk_input ti_proposal_id l]. cbn [map mk_input l] in Hp. rewrite Hp, R. cbn [negb].
    fold l. cbn [out_amount out_target]. rewrite Z.eqb_refl, (bool_decide_eq_true_2 _ Ht), Hpay. cbn [negb].
    rewrite Z.add_0_l. split_if; to_prop; cbn [total_change out_target].
    + rewrite bool_decide_eq_true_2 by done. cbn [total_change out_amount]. rewrite !andb_true_r, Z.add_0_l, u64_u64, u64_add_r.
      apply Z.eqb_eq. rewrite u64_id by lia. lia.
    + rewrite !andb_true_r, Z.add_0_r, u64_id by lia. apply Z.eqb_eq. lia.
  - eapply Forall_impl; [exact F|]. intros x Hx. by apply candidate_ok.
  - eapply Forall_impl; [exact F|]. intros x Hx. by apply candidate_ok.
Qed.

Lemma build_grant rec reserved target : due rec -> ptype rec <> 1 -> payable rec target ->
  if sum_amounts (free reserved candidates) <? amount rec
  then build_execution_transaction s rec (Some target) reserved = None
  else exists tx reserved', build_execution_transaction s rec (Some target) reserved = Some (tx, reserved') /\
    built_for pays s height rec reserved reserved' tx /\ in_ids (tt_inputs tx) ## reserved.
Proof.
  intros D Ty P. unfold build_execution_transaction. rewrite (proj2 (Z.eqb_neq _ _) Ty). fold candidates.
  destruct (candidates_spec (amount rec) (proposal_id rec) reserved) as (taken & -> & N & F & Fr & Hs & Iff).
  destruct (Z.ltb_spec (sum_amounts (free reserved candidates)) (amount rec)) as [L|L].
  - by rewrite (proj2 (Z.ltb_lt _ _)) by by apply Iff.
  - rewrite (proj2 (Z.ltb_ge (sum_amounts taken) _)) by lia. eexists _, _. split; [reflexivity|]. split.
    + constructor; cbn [tt_inputs].
      * etrans; [|apply (taken_valid rec target taken _ D P N F Hs ltac:(lia) eq_refl)]. do 2 f_equal. by destruct (_ <? _).
      * intros ids Hi. rewrite in_ids_taken, dedup_taken; [|done| |by left].
        -- eexists. split; [done|]. destruct (is_empty taken); auto.
        -- eapply Forall_impl; [exact Fr|]. cbn. set_solver.
      * by rewrite in_ids_taken.
    + cbn [tt_inputs]. rewrite in_ids_taken. apply elem_of_disjoint. intros x X Y. unfold out_ids in X.
      apply elem_of_list_to_set, list_elem_of_fmap in X as (o & -> & Ho). rewrite Forall_forall in Fr. by eapply Fr.
Qed.

(** A parameter execution reserves nothing. *)
Lemma build_parameter rec reserved payment tx reserved' : ptype rec = 1 ->
  build_execution_transaction s rec payment reserved = Some (tx, reserved') ->
  built_for pays s height rec reserved reserved' tx.
Proof.
  intros Ty. unfold build_execution_transaction. rewrite Ty. intros [= <- <-]. constructor; [done| |].
  - intros ids _. exists None. unfold in_ids. cbn. rewrite union_empty_l_L. auto.
  - unfold in_ids. cbn. by rewrite union_empty_l_L.
Qed.

Lemma build_any rec reserved payment tx reserved' : due rec -> (forall t, payment = Some t -> payable rec t) ->
  build_execution_transaction s rec payment reserved = Some (tx, reserved') ->
  built_for pays s height rec reserved reserved' tx.
Proof.
  intros D P H. destruct (decide (ptype rec = 1)) as [Ty|Ty]; [by eapply build_parameter|].
  destruct payment as [t|].
  - pose proof (build_grant rec reserved t D Ty (P t eq_refl)) as G. rewrite H in G.
    split_if_in G; [done|]. destruct G as (? & ? & [= <- <-] & ? & _). done.
  - unfold build_execution_transaction in H. rewrite (proj2 (Z.eqb_neq _ _) Ty) in H.
    destruct (collect _ _ _ _ _ _) as [[? ?] ?]. by split_if_in H.
Qed.

(** ** The whole template *)

Lemma build_executions_ok payment ready : forall reserved ids pids,
  Forall due ready -> Forall (fun rec => forall t, payment rec = Some t -> payable rec t) ready ->
  NoDup (map proposal_id ready) -> ids ⊆ reserved -> Forall (fun rec => proposal_id rec ∉ pids) ready ->
  Forall (fun tx => treasury_tx_valid pays s tx height = true) (build_executions payment s ready reserved) /\
  treasury_dedup (build_executions payment s ready reserved) ids pids = true.
Proof.
  induction ready as [|rec ready IH]; intros reserved ids pids D P N Hi Hp; cbn [build_executions]; [done|].
  apply Forall_cons in D as [D1 D], P as [P1 P], Hp as [Hp1 Hp]. cbn [map] in N. apply NoDup_cons in N as [N1 N].
  destruct (build_execution_transaction s rec (payment rec) reserved) as [[tx reserved']|] eqn:E; [|by apply IH].
  destruct (build_any _ _ _ _ _ D1 P1 E) as [V Dd ->]. destruct (Dd ids Hi) as (pid & Ed & Hpid).
  cbn [treasury_dedup]. rewrite Ed.
  assert (forall pids', Forall (fun rec => proposal_id rec ∉ pids') ready ->
    Forall (fun tx => treasury_tx_valid pays s tx height = true)
      (build_executions payment s ready (in_ids (tt_inputs tx) ∪ reserved)) /\
    treasury_dedup (build_executions payment s ready (in_ids (tt_inputs tx) ∪ reserved))
      (in_ids (tt_inputs tx) ∪ ids) pids' = true) as Rest by (intros; apply IH; [done..|set_solver|done]).
  destruct Hpid as [-> | ->].
  - destruct (Rest pids Hp). split; [by constructor|done].
  - rewrite bool_decide_eq_false_2 by done. destruct (Rest ({[proposal_id rec]} ∪ pids)); [|by split; [constructor|]].
    apply Forall_forall. intros r Hr. rewrite Forall_forall in Hp.
    intros [X%elem_of_singleton|X]%elem_of_union; [|by eapply Hp]. apply N1. rewrite <- X. by apply list_elem_of_fmap_2.
Qed.
End builder.

(** a grant is built exactly when the unspent outputs no other execution
    of the template has reserved cover its amount; the transaction then passes
    validation, spends none of the reserved outputs and reserves those it
    spends. *)
Theorem grant_built_iff_funded (pays : proposal_record -> tx_out -> bool) (s : treasury_state) (height : Z)
  (rec : proposal_record) (target : txout_target) (reserved : gset Z)
  (Hids : ids_ok s) (Ham : amounts_ok s) (Hdue : due s height rec) (Hgrant : ptype rec <> 1)
  (Hpay : payable pays rec target) :
  let available := sum_amounts (free reserved (get_unspent_treasury_outputs s)) in
  (available < amount rec -> build_execution_transaction s rec (Some target) reserved = None) /\
  (amount rec <= available -> exists tx reserved',
     build_execution_transaction s rec (Some target) reserved = Some (tx, reserved') /\
     treasury_tx_valid pays s tx height = true /\
     in_ids (tt_inputs tx) ## reserved /\ reserved' = in_ids (tt_inputs tx) ∪ reserved).
Proof.
  cbv zeta. pose proof (build_grant pays s height Hids Ham rec reserved target Hdue Hgrant Hpay) as B.
  assert (sum_amounts (free reserved (candidates s)) = sum_amounts (free reserved (get_unspent_treasury_outputs s))) as E.
  { apply sum_amounts_perm. unfold free. by rewrite candidates_perm. }
  rewrite E in B. split; intros L.
  - by rewrite (proj2 (Z.ltb_lt _ _)) in B.
  - rewrite (proj2 (Z.ltb_ge _ _)) in B by done. destruct B as (tx & r & ? & [] & ?). by exists tx, r.
Qed.

Lemma ready_due s rows height :
  keys_ok (t_gov s) -> rows ≡ₚ map snd (map_to_list (proposals (t_gov s))) ->
  (forall rec, rec ∈ rows -> 0 <= amount rec < 2 ^ 64 /\ 0 <= voting_end_height rec /\
     voting_end_height rec + default 720 (get_parameter (t_gov s) execution_delay height) < 2 ^ 64) ->
  1 <= default 720 (get_parameter (t_gov s) execution_delay height) ->
  Forall (due s height) (get_ready_executions (t_gov s) rows height) /\
  NoDup (map proposal_id (get_ready_executions (t_gov s) rows height)).
Proof.
  intros K P B D. assert (map proposal_id (map snd (map_to_list (proposals (t_gov s)))) = map fst (map_to_list (proposals (t_gov s)))) as E.
  { rewrite map_map. apply map_ext_in. intros [k r] H%list_elem_of_In%elem_of_map_to_list. by apply K. }
  split.
  - apply Forall_forall. intros rec [C Hr]%list_elem_of_filter. destruct (B _ Hr) as (Ha & Hv & Hw).
    apply Is_true_true, andb_true_iff in C as [C1 C2]. to_prop. rewrite u64_id in C2 by lia.
    rewrite P in Hr. apply list_elem_of_fmap in Hr as ([k r] & -> & Hk%elem_of_map_to_list). cbn in *.
    pose proof (K _ _ Hk) as Hid. unfold due. rewrite Hid. split_and!; [done|done|rewrite u64_id; lia|lia|lia].
  - apply (sublist_NoDup _ (map proposal_id rows)); [|apply fmap_sublist, sublist_filter]. rewrite P, E. apply NoDup_fst_map_to_list.
Qed.

(** every execution a block template carries is accepted by the block
    validation: whatever proposals are ready, each transaction of the template
    passes the input check against the state the template was made from, and
    together they pass the duplicate check of outputs and proposals.  (The
    execution delay must be positive.) *)
Theorem template_accepted (pays : proposal_record -> tx_out -> bool)
  (payment : proposal_record -> option txout_target) (s : treasury_state) (rows : list proposal_record) (height : Z)
  (Hids : ids_ok s) (Ham : amounts_ok s) (Hkeys : keys_ok (t_gov s))
  (Hrows : rows ≡ₚ map snd (map_to_list (proposals (t_gov s))))
  (Hpay : forall rec t, payment rec = Some t -> payable pays rec t)
  (Hrange : forall rec, rec ∈ rows -> 0 <= amount rec < 2 ^ 64 /\ 0 <= voting_end_height rec /\
     voting_end_height rec + default 720 (get_parameter (t_gov s) execution_delay height) < 2 ^ 64)
  (Hdelay : 1 <= default 720 (get_parameter (t_gov s) execution_delay height)) :
  Forall (fun tx => treasury_tx_valid pays s tx height = true) (template_executions payment s rows height) /\
  treasury_dedup (template_executions payment s rows height) ∅ ∅ = true.
Proof.
  destruct (ready_due s rows height Hkeys Hrows Hrange Hdelay) as [D N].
  apply build_executions_ok; [done..| |done|set_solver|].
  - apply Forall_forall. auto.
  - apply Forall_forall. set_solver.
Qed.

(** ** A concrete template *)

Lemma sample_amounts : amounts_ok sample_treasury.
Proof.
  constructor; [|vm_compute; reflexivity]. intros k o. unfold sample_treasury. cbn [t_outputs].
  rewrite lookup_insert_Some, lookup_singleton_Some. intros [[<- <-]|[_ [<- <-]]]; cbn; lia.
Qed.

Lemma grant_built_iff_funded_witness :
  let rec := sample_grant PROPOSAL_STATUS_PASSED false 101 in
  build_execution_transaction sample_treasury rec (Some txout_to_tagged_key) {[2]} = None /\
  exists tx reserved', build_execution_transaction sample_treasury rec (Some txout_to_tagged_key) ∅ = Some (tx, reserved') /\
    treasury_tx_valid (fun _ _ => true) sample_treasury tx 22500 = true.
Proof.
  assert (due sample_treasury 22500 (sample_grant PROPOSAL_STATUS_PASSED false 101)) as D.
  { unfold due. split_and!; [vm_compute; reflexivity|done|vm_compute; discriminate|cbn; lia|cbn; lia]. }
  split.
  - apply (grant_built_iff_funded (fun _ _ => true) sample_treasury 22500); [exact sample_ids|exact sample_amounts|exact D|done| |].
    + split; [by right|done].
    + vm_compute. reflexivity.
  - destruct (grant_built_iff_funded (fun _ _ => true) sample_treasury 22500 (sample_grant PROPOSAL_STATUS_PASSED false 101)
      txout_to_tagged_key ∅ sample_ids sample_amounts D ltac:(done) ltac:(split; [by right|done])) as [_ H].
    destruct (H ltac:(vm_compute; discriminate)) as (tx & r & E & V & _). by exists tx, r.
Defined.

Lemma template_accepted_witness :
  let txs := template_executions (fun _ => Some txout_to_tagged_key) sample_treasury
    [sample_grant PROPOSAL_STATUS_PASSED false 101] 22500 in
  txs = [sample_tx] /\ Forall (fun tx => treasury_tx_valid (fun _ _ => true) sample_treasury tx 22500 = true) txs.
Proof.
  split; [vm_compute; reflexivity|].
  apply (template_accepted (fun _ _ => true) (fun _ => Some txout_to_tagged_key) sample_treasury _ 22500 sample_ids sample_amounts sample_keys).
  - vm_compute. reflexivity.
  - intros rec t [= <-]. split; [by right|done].
  - intros rec ->%list_elem_of_singleton. vm_compute. split_and!; done.
  - vm_compute. discriminate.
Defined.

(** With an execution delay of zero the template carries a grant at the height
    the vote ends, one block before validation accepts it. *)
Definition zero_delay : treasury_state :=
  set_gov sample_treasury
    (set_governance_parameters sample_gov [{| prm_parameter := execution_delay; prm_pad := replicate 7 0; prm_value := 0;
       prm_activation_height := 50; prm_proposal_height := 50; prm_proposal_id := null_hash |}]).

Lemma zero_delay_template_rejected :
  let txs := template_executions (fun _ => Some txout_to_tagged_key) zero_delay
    [sample_grant PROPOSAL_STATUS_PASSED false 101] 100 in
  txs = [sample_tx] /\ treasury_tx_valid (fun _ _ => true) zero_delay sample_tx 100 = false.
Proof. vm_compute. split; reflexivity. Qed.
