(* ===== verification/NodeScripts.v ===== *)
(** * The Node.js scripts vendored with the tree

    [external/ixwebsocket/ws/broadcast-server.js], a relay between WebSocket
    clients, and [external/rapidjson/include_dirs.js], which prints where the
    headers are.  The package [ws] is a parameter with its documented
    behaviour; Node's [path] module is modelled as far as the script uses it. *)

From S2P Require Import Prelude.

Module Relay.

(** ** The [ws] package *)

(** A socket object, by identity, and the data of a message. *)
Abbreviation socket := Z.
Abbreviation message := bytes.

(** What the script uses of [ws], on a state [W] of the library: the set
    [wss.clients] in insertion order, [readyState], [WebSocket.OPEN] and
    [send], where [None] is an exception.  [outbox] is what has been handed to
    the sockets for transmission, in order. *)
Class WsLib (W : Type) := {
  clients : W -> list socket;
  readyState : W -> socket -> Z;
  OPEN : Z;
  send : W -> socket -> message -> option W;
  outbox : W -> list (socket * message);
}.

(** Documented behaviour: on an open connection [send] enqueues the data and
    returns; connections come, go and change state only between callbacks. *)
Class WsLaws (W : Type) `{WsLib W} : Prop := {
  send_open : forall w c d, readyState w c = OPEN -> exists w', send w c d = Some w' /\
    outbox w' = outbox w ++ [(c, d)] /\ clients w' = clients w /\
    forall c', readyState w' c' = readyState w c';
  clients_nodup : forall w, NoDup (clients w);
}.

Section script.
Context {W : Type} `{WsLib W}.

Record server_options := { port : Z; perMessageDeflate : bool }.

Definition wss_options : server_options := {| port := 8080; perMessageDeflate := true |}.

(** [Set.prototype.forEach]; an exception of the callback ends it. *)
Fixpoint forEach (l : list socket) (each : W -> socket -> option W) (w : W) : option W :=
  match l with
  | [] => Some w
  | c :: l => w ← each w c; forEach l each w
  end.

Definition each_broadcast (data : message) (w : W) (client : socket) : option W :=
  if readyState w client =? OPEN then send w client data else Some w.

Definition broadcast (w : W) (data : message) : option W :=
  forEach (clients w) (each_broadcast data) w.

Definition each_incoming (ws : socket) (data : message) (w : W) (client : socket) : option W :=
  if negb (client =? ws) && (readyState w client =? OPEN) then send w client data else Some w.

Definition incoming (ws : socket) (w : W) (data : message) : option W :=
  forEach (clients w) (each_incoming ws data) w.

(** The process: the library's state and, per socket, how many [message]
    listeners the script has added. *)
Record process := { world : W; listeners : gmap socket nat }.

(** The [connection] callback. *)
Definition connection (p : process) (ws : socket) : process :=
  {| world := world p; listeners := <[ws := S (default O (listeners p !! ws))]> (listeners p) |}.

(** A [message] event on [ws] calls its listeners in turn. *)
Definition emit_message (p : process) (ws : socket) (data : message) : option process :=
  w ← Nat.iter (default O (listeners p !! ws)) (fun ow => w ← ow; incoming ws w data) (Some (world p));
  Some {| world := w; listeners := listeners p |}.

(** ** What happens to the process *)

Inductive label :=
| joined (c : socket)
| changed (c : socket) (state : Z)
| left (c : socket)
| said (c : socket) (d : message).

(** The library accepts a connection (a new object) and emits [connection];
    a connection changes state; it is removed from the set; a client in the
    set sends a message. *)
Inductive step : process -> label -> process -> Prop :=
| step_join p w' c :
    listeners p !! c = None -> clients w' = clients (world p) ++ [c] -> readyState w' c = OPEN ->
    (forall c', c' <> c -> readyState w' c' = readyState (world p) c') -> outbox w' = outbox (world p) ->
    step p (joined c) (connection {| world := w'; listeners := listeners p |} c)
| step_change p w' c r :
    c ∈ clients (world p) -> clients w' = clients (world p) -> readyState w' c = r ->
    (forall c', c' <> c -> readyState w' c' = readyState (world p) c') -> outbox w' = outbox (world p) ->
    step p (changed c r) {| world := w'; listeners := listeners p |}
| step_leave p w' c :
    clients w' = filter (fun x => x <> c) (clients (world p)) ->
    (forall c', readyState w' c' = readyState (world p) c') -> outbox w' = outbox (world p) ->
    step p (left c) {| world := w'; listeners := listeners p |}
| step_say p p' c d :
    c ∈ clients (world p) -> emit_message p c d = Some p' -> step p (said c d) p'.

Inductive steps : process -> list label -> process -> Prop :=
| steps_nil p : steps p [] p
| steps_snoc p l p1 e p2 : steps p l p1 -> step p1 e p2 -> steps p (l ++ [e]) p2.

(** ** The promise: a room

    Its members in the order they joined, each open or not; what one says
    is delivered once to every other open member. *)
Record room := { members : list socket; open : gset socket; delivered : list (socket * message) }.

Definition others (r : room) (c : socket) : list socket :=
  filter (fun m => m <> c /\ m ∈ open r) (members r).

Definition room_step (r : room) (e : label) : room :=
  match e with
  | joined c => {| members := members r ++ [c]; open := {[c]} ∪ open r; delivered := delivered r |}
  | changed c s =>
      {| members := members r; open := if s =? OPEN then {[c]} ∪ open r else open r ∖ {[c]};
         delivered := delivered r |}
  | left c => {| members := filter (fun x => x <> c) (members r); open := open r ∖ {[c]}; delivered := delivered r |}
  | said c d => {| members := members r; open := open r;
                   delivered := delivered r ++ map (fun m => (m, d)) (others r c) |}
  end.

Definition run_room (l : list label) : room :=
  fold_left room_step l {| members := []; open := ∅; delivered := [] |}.

End script.
Arguments process W : clear implicits.

(** ** Proofs *)

Section proofs.
Context {W : Type} `{Hlib : WsLib W} `{!WsLaws W}.
Implicit Types (w : W) (p : process W).

(** Two states of the library with the same connections. *)
Definition same_sockets (w w' : W) : Prop :=
  clients w' = clients w /\ forall c, readyState w' c = readyState w c.

Lemma filter_iff_in {A} (P Q : A -> Prop) `{forall x, Decision (P x), forall x, Decision (Q x)} (l : list A) :
  (forall x, x ∈ l -> P x <-> Q x) -> filter P l = filter Q l.
Proof.
  induction l as [|a l IH]; intros E; [done|]. rewrite !filter_cons, IH by (intros x Hx; apply E; by right).
  specialize (E a (list_elem_of_here _ _)). destruct (decide (P a)), (decide (Q a)); tauto.
Qed.

(** A loop that sends to the open sockets satisfying a test. *)
Lemma forEach_sends (pick : socket -> bool) d l : forall w,
  exists w', forEach l (fun w c => if pick c && (readyState w c =? OPEN) then send w c d else Some w) w = Some w' /\
    outbox w' = outbox w ++ map (fun c => (c, d)) (filter (fun c => pick c /\ readyState w c = OPEN) l) /\
    same_sockets w w'.
Proof.
  induction l as [|c l IH]; intros w; cbn [forEach].
  - exists w. rewrite app_nil_r. by repeat split.
  - rewrite filter_cons. destruct (pick c && (readyState w c =? OPEN)) eqn:E.
    + apply andb_true_iff in E as [Hp Ho%Z.eqb_eq].
      destruct (send_open w c d Ho) as (w1 & -> & O1 & C1 & R1). cbn [mbind option_bind].
      destruct (IH w1) as (w' & -> & O2 & C2 & R2). exists w'.
      rewrite decide_True by (by rewrite Hp). split_and!; [done| |split; [congruence|intros x; by rewrite R2]].
      rewrite O2, O1, <- app_assoc. cbn. do 3 f_equal. apply list_filter_iff. intros x. by rewrite R1.
    + cbn [mbind option_bind]. destruct (IH w) as (w' & -> & O2 & S2). exists w'. split_and!; [done| |done].
      rewrite O2, decide_False; [done|]. intros [Hp%Is_true_true Ho]. rewrite Hp, Ho, Z.eqb_refl in E. done.
Qed.

Lemma incoming_sends ws w d : exists w', incoming ws w d = Some w' /\
  outbox w' = outbox w ++ map (fun c => (c, d)) (filter (fun c => c <> ws /\ readyState w c = OPEN) (clients w)) /\
  same_sockets w w'.
Proof.
  destruct (forEach_sends (fun c => negb (c =? ws)) d (clients w) w) as (w' & E & O & S).
  exists w'. split_and!; [exact E| |done]. rewrite O. do 2 f_equal. apply list_filter_iff.
  intros c. rewrite negb_True, Is_true_true, Z.eqb_eq. done.
Qed.

(** C34: the relay's [incoming] handler returns, and hands the message to every
    other open client exactly once, in the order of [wss.clients], and to
    nobody else; the connections are untouched.  [broadcast] does the same
    with the sender included. *)
Theorem incoming_delivers (ws : socket) (w : W) (data : message) :
  exists w' wb, incoming ws w data = Some w' /\ broadcast w data = Some wb /\
    same_sockets w w' /\ same_sockets w wb /\
    (exists sent, outbox w' = outbox w ++ sent /\ NoDup sent /\
       forall c d, (c, d) ∈ sent <-> d = data /\ c ∈ clients w /\ c <> ws /\ readyState w c = OPEN) /\
    (exists sent, outbox wb = outbox w ++ sent /\ NoDup sent /\
       forall c d, (c, d) ∈ sent <-> d = data /\ c ∈ clients w /\ readyState w c = OPEN).
Proof.
  destruct (incoming_sends ws w data) as (w' & E1 & O1 & S1).
  destruct (forEach_sends (fun _ => true) data (clients w) w) as (wb & E2 & O2 & S2).
  exists w', wb. split_and!; [done|exact E2|done|done| |]; eexists; (split_and!; [eassumption| |]).
  - apply NoDup_fmap_2; [intros ? ? [=]; done|]. apply NoDup_filter, clients_nodup.
  - intros c d. rewrite list_elem_of_fmap. setoid_rewrite list_elem_of_filter. naive_solver.
  - apply NoDup_fmap_2; [intros ? ? [=]; done|]. apply NoDup_filter, clients_nodup.
  - intros c d. rewrite list_elem_of_fmap. setoid_rewrite list_elem_of_filter. naive_solver.
Qed.

(** ** Refinement of the room *)

Record in_room (p : process W) (o0 : list (socket * message)) (r : room) : Prop := {
  ir_members : clients (world p) = members r;
  ir_open : forall c, c ∈ members r -> c ∈ open r <-> readyState (world p) c = OPEN;
  ir_delivered : outbox (world p) = o0 ++ delivered r;
  ir_listeners : forall c, c ∈ members r -> listeners p !! c = Some 1%nat;
}.

Lemma emit_room p o0 r c d : in_room p o0 r -> c ∈ members r ->
  exists p', emit_message p c d = Some p' /\ in_room p' o0 (room_step r (said c d)).
Proof.
  intros [M O D L] Hc. unfold emit_message. rewrite (L c Hc). cbn.
  destruct (incoming_sends c (world p) d) as (w' & E & Out & C & R). rewrite E. cbn.
  eexists. split; [reflexivity|]. constructor; cbn; [congruence| | |done].
  - intros x Hx. rewrite R. by apply O.
  - rewrite Out, D, M, <- app_assoc. do 3 f_equal. unfold others. apply filter_iff_in.
    intros x Hx. by rewrite (O x Hx).
Qed.

Lemma step_room p o0 r e p' : in_room p o0 r -> step p e p' -> in_room p' o0 (room_step r e).
Proof.
  intros I St. destruct St as [p w' c N C Ho R Out|p w' c s Hc C Hs R Out|p w' c C R Out|p p' c d Hc E].
  - assert (c ∉ members r) as Nc by (intros X; apply (ir_listeners _ _ _ I) in X; congruence).
    destruct I as [M O D L]. constructor; cbn; [congruence| |congruence|].
    + intros x Hx. destruct (decide (x = c)) as [->|Ne]; [split; [done|set_solver]|].
      rewrite R by done. rewrite <- O by set_solver. set_solver.
    + intros x Hx. destruct (decide (x = c)) as [->|Ne]; [by rewrite lookup_insert_eq, N|].
      rewrite lookup_insert_ne by done. apply L. set_solver.
  - destruct I as [M O D L]. constructor; cbn; [congruence| |congruence|done].
    intros x Hx. destruct (decide (x = c)) as [->|Ne].
    + rewrite Hs. destruct (Z.eqb_spec s OPEN); set_solver.
    + rewrite R by done. rewrite <- O by done. destruct (s =? OPEN); set_solver.
  - destruct I as [M O D L]. constructor; cbn; [congruence| |congruence|].
    + intros x [Ne Hx]%list_elem_of_filter. rewrite R, <- O by done. set_solver.
    + intros x [Ne Hx]%list_elem_of_filter. by apply L.
  - destruct (emit_room p o0 r c d I) as (p1 & E1 & I1); [by rewrite <- (ir_members _ _ _ I)|].
    rewrite E in E1. by injection E1 as <-.
Qed.

Lemma steps_room p0 l p : clients (world p0) = [] -> listeners p0 = ∅ -> steps p0 l p ->
  in_room p (outbox (world p0)) (run_room l).
Proof.
  intros C L St. induction St as [p|p l p1 e p2 St IH S].
  - constructor; cbn; [done|intros x Hx; by inversion Hx|by rewrite app_nil_r|intros x Hx; by inversion Hx].
  - unfold run_room. rewrite fold_left_app. cbn. eapply step_room; [by apply IH|done].
Qed.

(** C33: the server implements the room.  Over every sequence of joins, state
    changes, departures and messages, from an empty server, what has been
    handed to the sockets is what the room delivers, each message once to every
    other open member; a member can always say something and be heard. *)
Theorem relay_refines_room (p0 p : process W) (l : list label)
  (Hclients : clients (world p0) = []) (Hlisteners : listeners p0 = ∅) (Hsteps : steps p0 l p) :
  clients (world p) = members (run_room l) /\
  outbox (world p) = outbox (world p0) ++ delivered (run_room l) /\
  forall c d, c ∈ members (run_room l) -> exists p', step p (said c d) p' /\
    outbox (world p') = outbox (world p) ++ map (fun m => (m, d)) (others (run_room l) c).
Proof.
  pose proof (steps_room p0 l p Hclients Hlisteners Hsteps) as I. split_and!; [apply I|apply I|].
  intros c d Hc. destruct (emit_room _ _ _ c d I Hc) as (p' & E & I'). exists p'. split.
  - constructor; [by rewrite (ir_members _ _ _ I)|done].
  - rewrite (ir_delivered _ _ _ I'), (ir_delivered _ _ _ I). cbn. by rewrite app_assoc.
Qed.
End proofs.

(** ** A concrete library *)

(** Sockets that are all open unless listed as closed. *)
Record toy := { toy_clients : list Z; toy_closed : list Z; toy_out : list (Z * bytes) }.

#[local] Instance toy_lib : WsLib toy := {
  clients w := remove_dups (toy_clients w);
  readyState w c := if bool_decide (c ∈ toy_closed w) then 3 else 1;
  OPEN := 1;
  send w c d := Some {| toy_clients := toy_clients w; toy_closed := toy_closed w; toy_out := toy_out w ++ [(c, d)] |};
  outbox := toy_out;
}.

#[local] Instance toy_laws : WsLaws toy.
Proof. constructor; [intros w c d _; eexists; by repeat split|intros w; apply NoDup_remove_dups]. Qed.

Lemma incoming_delivers_witness :
  exists w, incoming 1 {| toy_clients := [1; 2; 3]; toy_closed := [3]; toy_out := [] |} (str "hi") = Some w /\
    toy_out w = [(2, str "hi")].
Proof.
  destruct (incoming_delivers 1 {| toy_clients := [1; 2; 3]; toy_closed := [3]; toy_out := [] |} (str "hi"))
    as (w & _ & E & _). exists w. split; [exact E|]. vm_compute in E. by injection E as <-.
Defined.

Lemma relay_refines_room_witness :
  let p := {| world := {| toy_clients := [1; 2]; toy_closed := []; toy_out := [(2, str "hi")] |};
              listeners := <[2 := 1%nat]> (<[1 := 1%nat]> ∅) |} in
  outbox (world p) = delivered (run_room [joined 1; joined 2; said 1 (str "hi")]).
Proof.
  intros p. set (p0 := {| world := {| toy_clients := []; toy_closed := []; toy_out := [] |}; listeners := ∅ |}).
  assert (steps p0 ((([] ++ [joined 1]) ++ [joined 2]) ++ [said 1 (str "hi")]) p) as St.
  { eapply steps_snoc; [eapply steps_snoc; [eapply steps_snoc; [apply steps_nil|]|]|].
    - apply (step_join _ {| toy_clients := [1]; toy_closed := []; toy_out := [] |}); done.
    - apply (step_join _ {| toy_clients := [1; 2]; toy_closed := []; toy_out := [] |}); done.
    - apply step_say; [by left|]. vm_compute. reflexivity. }
  destruct (@relay_refines_room toy toy_lib toy_laws p0 p _ eq_refl eq_refl St) as (_ & E & _). exact E.
Defined.
End Relay.

Module IncludeDirs.

(** ** Paths of Node's [path] module (POSIX)

    A path is the list of its segments; an absolute one starts at the root. *)
Abbreviation segment := bytes.

Definition DOT : segment := str ".".
Definition DOTDOT : segment := str "..".

(** [normalizeString]: one pass with the segments kept so far, last first.
    [above] allows a path to climb above where it starts. *)
Fixpoint normalize (above : bool) (l acc : list segment) : list segment :=
  match l with
  | [] => rev acc
  | s :: l =>
      if is_empty s || beq s DOT then normalize above l acc
      else if beq s DOTDOT then
        match acc with
        | top :: acc' => if beq top DOTDOT then normalize above l (DOTDOT :: acc) else normalize above l acc'
        | [] => normalize above l (if above then [DOTDOT] else [])
        end
      else normalize above l (s :: acc)
  end.

(** [path.resolve(cwd, p)] for a relative [p]. *)
Definition resolve (cwd p : list segment) : list segment := normalize false (cwd ++ p) [].

(** [path.relative] of two resolved paths: drop the common prefix, climb out of
    the rest of the first, descend into the rest of the second. *)
Fixpoint relative_from (from to : list segment) : list segment :=
  match from, to with
  | a :: from', c :: to' => if beq a c then relative_from from' to' else map (fun _ => DOTDOT) from ++ to
  | _, _ => map (fun _ => DOTDOT) from ++ to
  end.

Definition relative (cwd from to : list segment) : list segment :=
  relative_from (resolve cwd from) (normalize false to []).

(** [path.join(a, b)] of relative paths. *)
Definition join (a c : list segment) : list segment := normalize true (a ++ c) [].

(** [path.join(path.relative('.', __dirname), 'include')] *)
Definition include_dirs (cwd dirname : list segment) : list segment :=
  join (relative cwd [DOT] dirname) [str "include"].

(** ** Proofs *)

(** A segment that names a directory entry. *)
Definition plain (s : segment) : Prop := s <> [] /\ s <> DOT /\ s <> DOTDOT.

Lemma plain_tests s : plain s -> is_empty s || beq s DOT = false /\ beq s DOTDOT = false.
Proof.
  intros (H1 & H2 & H3). split; [|by apply beq_false]. apply orb_false_iff. split; [by apply is_empty_false|by apply beq_false].
Qed.

Lemma dotdot_tests : is_empty DOTDOT || beq DOTDOT DOT = false /\ beq DOTDOT DOTDOT = true.
Proof. split; reflexivity. Qed.

Lemma normalize_plain above l : Forall plain l -> forall k acc,
  normalize above (l ++ k) acc = normalize above k (rev l ++ acc).
Proof.
  induction 1 as [|s l Hs F IH]; intros k acc; [done|]. cbn [app normalize].
  destruct (plain_tests s Hs) as [-> ->]. rewrite IH. cbn [rev]. by rewrite <- app_assoc.
Qed.

(** Climbing as far as there are plain segments. *)
Lemma normalize_climb above n : forall k acc, Forall plain (take n acc) -> (n <= length acc)%nat ->
  normalize above (replicate n DOTDOT ++ k) acc = normalize above k (drop n acc).
Proof.
  induction n as [|n IH]; intros k acc F L; [done|]. destruct acc as [|s acc]; [cbn in L; lia|].
  cbn [take] in F. apply Forall_cons in F as [Hs F]. cbn [replicate app normalize drop].
  destruct (plain_tests s Hs) as [_ ->], dotdot_tests as [-> ->]. apply IH; [done|cbn in L; lia].
Qed.

(** Climbing from nothing keeps the climb. *)
Lemma normalize_ups n : forall k m,
  normalize true (replicate n DOTDOT ++ k) (replicate m DOTDOT) = normalize true k (replicate (n + m) DOTDOT).
Proof.
  induction n as [|n IH]; intros k m; [done|]. cbn [replicate app normalize]. destruct dotdot_tests as [-> E]. rewrite E.
  destruct m as [|m]; cbn [replicate]; [change [DOTDOT] with (replicate 1 DOTDOT); rewrite IH; by rewrite Nat.add_succ_r|]. rewrite E.
  change (DOTDOT :: DOTDOT :: replicate m DOTDOT) with (replicate (S (S m)) DOTDOT). rewrite IH. by rewrite Nat.add_succ_r.
Qed.

(** The shape of a relative path. *)
Lemma relative_from_shape from : forall to, exists common from' to',
  from = common ++ from' /\ to = common ++ to' /\ relative_from from to = replicate (length from') DOTDOT ++ to'.
Proof.
  induction from as [|a from IH]; intros to; [by exists [], [], to|].
  assert (forall l : list segment, map (fun _ => DOTDOT) l = replicate (length l) DOTDOT) as Hm
    by (intros l; induction l as [|x l IHl]; [done|]; cbn [map length replicate]; by rewrite IHl).
  destruct to as [|c to]; cbn [relative_from].
  - exists [], (a :: from), []. by rewrite Hm.
  - split_if.
    + apply beq_true in E as ->. destruct (IH to) as (co & f & t & -> & -> & ->). by exists (c :: co), f, t.
    + exists [], (a :: from), (c :: to). by rewrite Hm.
Qed.

(** C40: the path [include_dirs.js] prints, resolved in the directory the
    script is run from, is the [include] directory beside the script. *)
Theorem include_dirs_resolves (cwd dirname : list segment)
  (Hcwd : Forall plain cwd) (Hdir : Forall plain dirname) :
  resolve cwd (include_dirs cwd dirname) = dirname ++ [str "include"].
Proof.
  unfold include_dirs, relative, join.
  assert (forall above l, Forall plain l -> normalize above l [] = l) as Nid.
  { intros above l F. rewrite <- (app_nil_r l) at 1. rewrite normalize_plain by done. cbn [normalize].
    by rewrite app_nil_r, rev_involutive. }
  assert (resolve cwd [DOT] = cwd) as ->.
  { unfold resolve. rewrite normalize_plain by done.
    change (normalize false [DOT] (rev cwd ++ [])) with (rev (rev cwd ++ [])). by rewrite app_nil_r, rev_involutive. }
  rewrite (Nid false dirname Hdir). destruct (relative_from_shape cwd dirname) as (co & f & t & -> & -> & ->).
  apply Forall_app in Hcwd as [Hco Hf], Hdir as [_ Ht].
  assert (Forall plain [str "include"]) as Hi by (repeat constructor; done).
  assert (normalize true ((replicate (length f) DOTDOT ++ t) ++ [str "include"]) [] =
    replicate (length f) DOTDOT ++ t ++ [str "include"]) as ->.
  { rewrite <- app_assoc. pose proof (normalize_ups (length f) (t ++ [str "include"]) 0) as N. cbn [replicate] in N.
    rewrite N, Nat.add_0_r. rewrite <- (app_nil_r (t ++ _)) at 1.
    rewrite normalize_plain by (by apply Forall_app). cbn [normalize].
    rewrite rev_app_distr, rev_involutive. f_equal. generalize (length f). intros n.
    induction n as [|n IHn]; [done|]. cbn [replicate rev]. rewrite IHn. symmetry. apply replicate_cons_app. }
  unfold resolve. rewrite <- app_assoc, normalize_plain by done. rewrite normalize_plain by done.
  rewrite normalize_climb.
  - rewrite drop_app_length' by (by rewrite length_rev). rewrite <- (app_nil_r (t ++ _)).
    rewrite normalize_plain by (by apply Forall_app). cbn [normalize].
    rewrite app_nil_r, rev_app_distr, !rev_involutive. by rewrite app_assoc.
  - rewrite take_app_length' by (by rewrite length_rev). by apply Forall_rev.
  - rewrite length_app, length_rev. lia.
Qed.

Lemma include_dirs_resolves_witness :
  include_dirs [str "home"; str "me"; str "app"] [str "home"; str "me"; str "rapidjson"] =
    [str ".."; str "rapidjson"; str "include"] /\
  resolve [str "home"; str "me"; str "app"] [str ".."; str "rapidjson"; str "include"] =
    [str "home"; str "me"; str "rapidjson"; str "include"].
Proof.
  split; [vm_compute; reflexivity|].
  apply (include_dirs_resolves [str "home"; str "me"; str "app"] [str "home"; str "me"; str "rapidjson"]);
    repeat constructor; discriminate.
Defined.
End IncludeDirs.
