(* ===== verification/Emission.v ===== *)
(** * Emission and supply ([src/cryptonote_basic/cryptonote_basic_impl.cpp],
      [src/cryptonote_core/cryptonote_tx_utils.cpp], [src/governance/dao_supply.h])

    The block subsidy under the supply cap, the coinbase the template builds
    and the one validation accepts, the generated supply over a chain, and the
    snapshots of the circulating supply. *)

From S2P Require Import Prelude Registry.

(** ** The subsidy *)

Definition COIN : Z := 1000000000000.
Definition VNS_MAX_SUPPLY : Z := 20000000.
Definition VNS_MAX_SUPPLY_ATOMIC : Z := VNS_MAX_SUPPLY * COIN.
Definition VNS_BLOCK_SUBSIDY : Z := (COIN * 65) / 100.
Definition HF_VERSION_VNS_TREASURY : Z := 3.
Definition BASE_REWARD_CLAMP_THRESHOLD : Z := 100000000.

Definition get_block_reward (already_generated_coins : Z) : option Z :=
  if VNS_MAX_SUPPLY_ATOMIC <? already_generated_coins then None else
  let remaining := u128 (VNS_MAX_SUPPLY_ATOMIC - already_generated_coins) in
  Some (if remaining <? VNS_BLOCK_SUBSIDY then u64 remaining else VNS_BLOCK_SUBSIDY).

(** ** The coinbase of a template *)

(** [block_reward * treasury_ratio / 100] in 64 bits. *)
Definition treasury_share (block_reward treasury_ratio : Z) : Z := u64 (block_reward * treasury_ratio) / 100.

Definition clamp_reward (hard_fork_version block_reward : Z) : Z :=
  if (2 <=? hard_fork_version) && (hard_fork_version <? 4)
  then block_reward - block_reward mod BASE_REWARD_CLAMP_THRESHOLD else block_reward.

Section construct.
(** [target] is what [set_tx_out] makes of the derived one-time key, [None] if
    a derivation fails; [extra_ok] and [payouts_ok] are the success of writing
    the nonce and the payouts to [tx.extra]. *)
Context (target : option txout_target) (extra_ok payouts_ok : bool) (max_outs : Z).

(** The branch from the treasury fork on. *)
Definition treasury_coinbase (block_reward treasury_ratio : Z) (grant_payouts : list Z) : option (list tx_out) :=
  let treasury_amount := treasury_share block_reward treasury_ratio in
  let miner_amount := u64 (block_reward - treasury_amount) in
  if miner_amount =? 0 then None else
  match target with
  | None => None
  | Some t =>
      let vout := [{| out_amount := miner_amount; out_target := t |};
                   {| out_amount := treasury_amount; out_target := txout_treasury |}] ++
                  map (fun grant_amount => {| out_amount := grant_amount; out_target := t |}) grant_payouts in
      if negb payouts_ok && negb (is_empty grant_payouts) then None
      else if negb (u64 (miner_amount + treasury_amount) =? block_reward) then None
      else Some vout
  end.

(** The branch before it: two key outputs. *)
Definition legacy_coinbase (block_reward treasury_ratio : Z) : option (list tx_out) :=
  let treasury_amount := treasury_share block_reward treasury_ratio in
  let miner_amount := u64 (block_reward - treasury_amount) in
  if (miner_amount =? 0) && (treasury_amount =? 0) then None else
  let out_amounts := (if 0 <? miner_amount then [miner_amount] else []) ++
                     (if 0 <? treasury_amount then [treasury_amount] else []) in
  if max_outs <? zlen out_amounts then None else
  match target with
  | None => None
  | Some t =>
      if negb (fold_left (fun acc a => u64 (acc + a)) out_amounts 0 =? block_reward) then None
      else Some (map (fun a => {| out_amount := a; out_target := t |}) out_amounts)
  end.

(** [construct_miner_tx], up to the outputs it creates. *)
Definition construct_miner_tx (already_generated_coins hard_fork_version treasury_ratio : Z)
    (grant_payouts : list Z) : option (list tx_out) :=
  if negb extra_ok then None else
  match get_block_reward already_generated_coins with
  | None => None
  | Some block_reward =>
      let block_reward := clamp_reward hard_fork_version block_reward in
      if HF_VERSION_VNS_TREASURY <=? hard_fork_version
      then treasury_coinbase block_reward treasury_ratio grant_payouts
      else legacy_coinbase block_reward treasury_ratio
  end.
End construct.

(** ** Validation of a coinbase *)

(** The loop that looks for the treasury output: [None] is a rejection. *)
Fixpoint find_treasury (treasury_reward : Z) (vout : list tx_out) (found : bool) : option bool :=
  match vout with
  | [] => Some found
  | out :: vout =>
      if bool_decide (out_target out = txout_treasury) then
        if found then None
        else if negb (out_amount out =? treasury_reward) then None
        else find_treasury treasury_reward vout true
      else find_treasury treasury_reward vout found
  end.

Definition money_in_use (vout : list tx_out) : Z := fold_left (fun acc o => u128 (acc + out_amount o)) vout 0.

(** [validate_miner_transaction]: the base reward of an accepted coinbase.
    [ratio] is the governance parameter at the height of the database. *)
Definition validate_miner_transaction (already_generated_coins version ratio : Z) (vout : list tx_out) : option Z :=
  match get_block_reward already_generated_coins with
  | None => None
  | Some base_reward =>
      let treasury_reward :=
        if HF_VERSION_VNS_TREASURY <=? version then treasury_share base_reward ratio else 0 in
      match find_treasury treasury_reward vout false with
      | None => None
      | Some found_treasury =>
          if (HF_VERSION_VNS_TREASURY <=? version) && (0 <? treasury_reward) && negb found_treasury then None
          else if negb (money_in_use vout =? base_reward) then None
          else Some base_reward
      end
  end.

(** What a block adds to the generated supply. *)
Definition add_supply (already_generated_coins base_reward : Z) : Z :=
  let sum := u128 (already_generated_coins + base_reward) in
  if VNS_MAX_SUPPLY_ATOMIC <? sum then VNS_MAX_SUPPLY_ATOMIC else sum.

(** A chain of coinbases, each with the version and ratio of its block. *)
Fixpoint connect_coinbases (blocks : list (Z * Z * list tx_out)) (already_generated_coins : Z) : option Z :=
  match blocks with
  | [] => Some already_generated_coins
  | (version, ratio, vout) :: blocks =>
      base_reward ← validate_miner_transaction already_generated_coins version ratio vout;
      connect_coinbases blocks (add_supply already_generated_coins base_reward)
  end.

(** [vns_supply_to_decimal]: digits from the last to the first.  Thirty-nine
    rounds are enough for 128 bits. *)
Fixpoint supply_digits (fuel : nat) (value : Z) (result : bytes) : bytes :=
  match fuel with
  | O => result
  | S fuel =>
      let result := (48 + value mod 10) :: result in
      let value := value / 10 in
      if value =? 0 then result else supply_digits fuel value result
  end.

Definition vns_supply_to_decimal (value : Z) : bytes := supply_digits 39 value [].

(** ** Snapshots of the circulating supply *)

Record dao_supply_snapshot := {
  snap_height : Z; snap_minted : Z; snap_treasury : Z; snap_burned : Z; snap_circulating : Z;
}.

(** [put_u128]: sixteen bytes, most significant first. *)
Definition put_u128 (v : Z) : bytes := rev (le_bytes 16 v).

(** [take_u128] *)
Definition take_u128 (l : bytes) : option (Z * bytes) :=
  if (length l <? 16)%nat then None
  else Some (fold_left (fun acc x => u128 (Z.lor (Z.shiftl acc 8) x)) (take 16 l) 0, drop 16 l).

Definition snapshot_serialize (s : dao_supply_snapshot) : bytes :=
  le_bytes 8 (snap_height s) ++ put_u128 (snap_minted s) ++ put_u128 (snap_treasury s) ++
  put_u128 (snap_burned s) ++ put_u128 (snap_circulating s).

Definition snapshot_deserialize (l : bytes) : option dao_supply_snapshot :=
  if negb (length l =? 72)%nat then None else
  let h := le_val (take 8 l) in
  '(m, r) ← take_u128 (drop 8 l); '(t, r) ← take_u128 r; '(b, r) ← take_u128 r; '(c, _) ← take_u128 r;
  Some {| snap_height := h; snap_minted := m; snap_treasury := t; snap_burned := b; snap_circulating := c |}.

Definition compute_circulating (minted treasury burned : Z) : option Z :=
  if minted <? treasury then None else
  let m1 := minted - treasury in
  if m1 <? burned then None else Some (m1 - burned).

(** The end of [handle_block_to_main_chain]: [None] is a rejected block. *)
Definition record_snapshot (history : gmap Z dao_supply_snapshot) (new_height minted treasury burned : Z)
    : option (gmap Z dao_supply_snapshot) :=
  circulating ← compute_circulating minted treasury burned;
  Some (<[new_height := {| snap_height := new_height; snap_minted := minted; snap_treasury := treasury;
                           snap_burned := burned; snap_circulating := circulating |}]> history).

(** ** Proofs *)

Lemma subsidy_value : VNS_BLOCK_SUBSIDY = 650000000000.
Proof. reflexivity. Qed.

Lemma max_supply_value : VNS_MAX_SUPPLY_ATOMIC = 20000000000000000000.
Proof. reflexivity. Qed.

(** The subsidy in exact arithmetic. *)
Lemma get_block_reward_spec a : 0 <= a ->
  get_block_reward a = if VNS_MAX_SUPPLY_ATOMIC <? a then None
                       else Some (Z.min VNS_BLOCK_SUBSIDY (VNS_MAX_SUPPLY_ATOMIC - a)).
Proof.
  intros Ha. unfold get_block_reward. pose proof subsidy_value. pose proof max_supply_value.
  split_if; [done|]. to_prop. rewrite u128_id by lia. f_equal.
  destruct (Z.ltb_spec (VNS_MAX_SUPPLY_ATOMIC - a) VNS_BLOCK_SUBSIDY); [rewrite u64_id|]; lia.
Qed.

Definition paid (vout : list tx_out) : Z := foldr (fun o acc => out_amount o + acc) 0 vout.

(** Outputs as the wire format carries them: 64-bit amounts, and fewer than
    [2 ^ 64] of them. *)
Definition wire_outs (vout : list tx_out) : Prop :=
  Forall (fun o => 0 <= out_amount o < 2 ^ 64) vout /\ zlen vout < 2 ^ 64.

Lemma paid_range vout : Forall (fun o => 0 <= out_amount o < 2 ^ 64) vout -> 0 <= paid vout <= zlen vout * 2 ^ 64.
Proof.
  induction 1 as [|o vout Ho F IH]; [done|]. rewrite zlen_cons. change (paid (o :: vout)) with (out_amount o + paid vout). lia.
Qed.

Lemma money_in_use_paid vout : wire_outs vout -> money_in_use vout = paid vout.
Proof.
  intros [F L]. assert (forall acc, 0 <= acc -> acc + paid vout < 2 ^ 128 ->
    fold_left (fun acc o => u128 (acc + out_amount o)) vout acc = acc + paid vout) as G.
  { clear L. induction F as [|o vout Ho F IH]; intros acc Ha Hb; cbn [fold_left]; [cbn; lia|].
    change (paid (o :: vout)) with (out_amount o + paid vout) in *. pose proof (paid_range _ F).
    rewrite u128_id by lia. rewrite IH by lia. lia. }
  pose proof (paid_range _ F). unfold money_in_use. rewrite G; [lia|lia|].
  pose proof (zlen_nonneg vout). nia.
Qed.

(** An accepted coinbase pays exactly the base reward. *)
Lemma validate_pays a version ratio vout base : wire_outs vout ->
  validate_miner_transaction a version ratio vout = Some base ->
  get_block_reward a = Some base /\ paid vout = base.
Proof.
  intros Wo. unfold validate_miner_transaction. destruct (get_block_reward a) as [r|]; [|done].
  destruct (find_treasury _ _ _) as [found|]; [|done]. split_if; [done|]. split_if; [done|]. intros [= <-].
  to_prop. by rewrite <- money_in_use_paid.
Qed.

Definition total_paid (blocks : list (Z * Z * list tx_out)) : Z := foldr (fun x acc => paid x.2 + acc) 0 blocks.

Lemma connect_coinbases_spec blocks : forall a s, 0 <= a <= VNS_MAX_SUPPLY_ATOMIC ->
  Forall (fun x => wire_outs x.2) blocks -> connect_coinbases blocks a = Some s ->
  s = Z.min (a + zlen blocks * VNS_BLOCK_SUBSIDY) VNS_MAX_SUPPLY_ATOMIC /\ a + total_paid blocks = s.
Proof.
  pose proof subsidy_value as Es. pose proof max_supply_value as Em.
  induction blocks as [|[[version ratio] vout] blocks IH]; intros a s Ha F; cbn [connect_coinbases].
  - intros [= <-]. unfold total_paid, zlen. cbn. lia.
  - apply Forall_cons in F as [F1 F]. cbn in F1. intros H.
    destruct (validate_miner_transaction a version ratio vout) as [base|] eqn:V; [|done]. cbn in H.
    apply validate_pays in V as [R P]; [|done]. rewrite get_block_reward_spec in R by lia.
    split_if_in R; [done|]. to_prop. injection R as R.
    assert (add_supply a base = Z.min (a + VNS_BLOCK_SUBSIDY) VNS_MAX_SUPPLY_ATOMIC) as A.
    { unfold add_supply. rewrite u128_id by lia. split_if; to_prop; lia. }
    rewrite A in H. apply IH in H as [-> T]; [|lia|done]. rewrite zlen_cons.
    change (total_paid (((version, ratio), vout) :: blocks)) with (paid vout + total_paid blocks).
    rewrite Es, Em in *. pose proof (zlen_nonneg blocks). lia.
Qed.

(** C24: the emission schedule.  Over any chain of accepted coinbases, whatever
    versions, treasury ratios and outputs they have, the generated supply after
    [n] blocks is [n] subsidies, up to the cap, and it is exactly what the
    coinbases paid out. *)
Theorem emission_schedule (blocks : list (Z * Z * list tx_out)) (supply : Z)
  (Hwire : Forall (fun x => wire_outs x.2) blocks) (Hc : connect_coinbases blocks 0 = Some supply) :
  supply = Z.min (zlen blocks * VNS_BLOCK_SUBSIDY) VNS_MAX_SUPPLY_ATOMIC /\ total_paid blocks = supply.
Proof.
  pose proof max_supply_value. destruct (connect_coinbases_spec blocks 0 supply ltac:(lia) Hwire Hc) as [E T].
  rewrite Z.add_0_l in E, T. done.
Qed.

Definition sample_miner_tx (miner treasury : Z) : list tx_out :=
  [{| out_amount := miner; out_target := txout_to_tagged_key |};
   {| out_amount := treasury; out_target := txout_treasury |}].

Lemma emission_schedule_witness :
  let blocks := [(15, 18, sample_miner_tx 533000000000 117000000000); (15, 20, sample_miner_tx 520000000000 130000000000)] in
  connect_coinbases blocks 0 = Some 1300000000000 /\ total_paid blocks = 1300000000000.
Proof.
  split; [vm_compute; reflexivity|].
  apply (emission_schedule [(15, 18, sample_miner_tx 533000000000 117000000000); (15, 20, sample_miner_tx 520000000000 130000000000)]).
  - repeat constructor; cbn; lia.
  - vm_compute. reflexivity.
Defined.

(** ** The coinbase of a template is accepted *)

Lemma share_small r ratio : 0 <= r <= VNS_BLOCK_SUBSIDY -> 0 <= ratio <= 100 ->
  treasury_share r ratio = r * ratio / 100 /\ 0 <= treasury_share r ratio <= r.
Proof.
  intros Hr Hq. pose proof subsidy_value. unfold treasury_share. rewrite u64_id by nia. split; [done|].
  split; [apply Z.div_pos; nia|]. apply Z.div_le_upper_bound; nia.
Qed.

Lemma clamp_full hf a r : get_block_reward a = Some r -> 0 <= a ->
  4 <= hf \/ a + VNS_BLOCK_SUBSIDY <= VNS_MAX_SUPPLY_ATOMIC -> clamp_reward hf r = r.
Proof.
  intros R Ha Hc. unfold clamp_reward. destruct ((2 <=? hf) && (hf <? 4)) eqn:E; [|done]. to_prop.
  rewrite get_block_reward_spec in R by done. split_if_in R; [done|]. injection R as <-.
  replace (Z.min VNS_BLOCK_SUBSIDY (VNS_MAX_SUPPLY_ATOMIC - a)) with VNS_BLOCK_SUBSIDY by lia. reflexivity.
Qed.



(** Once the supply is exhausted no template can be built, though validation
    would accept a coinbase that pays nothing. *)
Lemma exhausted_supply_no_template target extra_ok payouts_ok max_outs hf ratio grants :
  construct_miner_tx target extra_ok payouts_ok max_outs VNS_MAX_SUPPLY_ATOMIC hf ratio grants = None /\
  validate_miner_transaction VNS_MAX_SUPPLY_ATOMIC 15 18 [] = Some 0.
Proof.
  split; [|reflexivity]. unfold construct_miner_tx. destruct extra_ok; [|done]. cbn [negb].
  change (get_block_reward VNS_MAX_SUPPLY_ATOMIC) with (Some 0). cbv beta iota.
  assert (clamp_reward hf 0 = 0) as -> by (unfold clamp_reward; by split_if).
  unfold treasury_coinbase, legacy_coinbase, treasury_share. rewrite Z.mul_0_l. by split_if.
Qed.

(** ** Snapshots *)

Lemma be_val l : Forall is_byte l -> (length l <= 16)%nat ->
  foldr (fun x acc => u128 (Z.lor (Z.shiftl acc 8) x)) 0 l = le_val l.
Proof.
  induction 1 as [|x l Hx F IH]; intros L; cbn [foldr le_val]; [done|]. cbn [length] in L. rewrite IH by lia.
  pose proof (le_val_range l F) as R. unfold is_byte in Hx.
  rewrite Z.lor_comm, lor_shift by (cbn; lia). rewrite u128_id; [change (2 ^ 8) with 256; lia|].
  assert (256 ^ zlen l <= 256 ^ 15) by (apply Z.pow_le_mono_r; unfold zlen; lia).
  change (2 ^ 8) with 256. change (2 ^ 128) with (256 * 256 ^ 15). nia.
Qed.

Lemma take_u128_rev l rest : Forall is_byte l -> length l = 16%nat -> take_u128 (rev l ++ rest) = Some (le_val l, rest).
Proof.
  intros F L. unfold take_u128. rewrite length_app, length_rev, L. cbn [Nat.add Nat.ltb Nat.leb].
  rewrite take_app_len, drop_app_len by (by rewrite length_rev).
  rewrite <- (be_val l F) by lia. do 2 f_equal.
  by rewrite <- (fold_left_rev_right (fun x acc => u128 (Z.lor (Z.shiftl acc 8) x)) (rev l) 0), rev_involutive.
Qed.

Lemma take_put_u128 v rest : 0 <= v < 2 ^ 128 -> take_u128 (put_u128 v ++ rest) = Some (v, rest).
Proof.
  intros Hv. unfold put_u128. rewrite take_u128_rev by auto with vns. by rewrite le_val_le_bytes_id.
Qed.

(** What a list of bytes denotes determines it. *)
Lemma take_u128_inv l v r : Forall is_byte l -> take_u128 l = Some (v, r) ->
  l = put_u128 v ++ r /\ 0 <= v < 2 ^ 128 /\ Forall is_byte r.
Proof.
  intros F H. assert (16 <= length l)%nat as L by (unfold take_u128 in H; split_if_in H; to_prop; [done|lia]).
  set (k := rev (take 16 l)). assert (Forall is_byte k) as Fk by (by apply Forall_rev, Forall_take).
  assert (length k = 16%nat) as Lk by (unfold k; rewrite length_rev, length_take; lia).
  rewrite <- (take_drop 16 l) in H |- *. replace (take 16 l) with (rev k) in * by (unfold k; apply rev_involutive).
  rewrite take_u128_rev in H by done. injection H as <- <-. split_and!.
  - assert (le_bytes 16 (le_val k) = k) as Ek by (rewrite <- Lk; by apply le_bytes_le_val).
    unfold put_u128. by rewrite Ek.
  - pose proof (le_val_range k Fk) as R. unfold zlen in R. rewrite Lk in R. apply R.
  - pose proof (le_val_range k Fk) as R. unfold zlen in R. rewrite Lk in R. apply R.
  - by apply Forall_drop.
Qed.

Record snapshot_ok (s : dao_supply_snapshot) : Prop := {
  so_height : 0 <= snap_height s < 2 ^ 64; so_minted : 0 <= snap_minted s < 2 ^ 128;
  so_treasury : 0 <= snap_treasury s < 2 ^ 128; so_burned : 0 <= snap_burned s < 2 ^ 128;
  so_circulating : 0 <= snap_circulating s < 2 ^ 128;
}.

(** Snapshots of the supply are stored in one way only.  Reading is the
    inverse of writing: every snapshot is read back, and any bytes that are
    accepted are exactly the encoding of the snapshot returned. *)
Theorem snapshot_bijection (s : dao_supply_snapshot) (l : bytes) (Hl : Forall is_byte l) :
  (snapshot_ok s -> snapshot_deserialize (snapshot_serialize s) = Some s) /\
  (snapshot_deserialize l = Some s -> snapshot_serialize s = l /\ snapshot_ok s).
Proof.
  split.
  - intros []. unfold snapshot_deserialize, snapshot_serialize, put_u128.
    rewrite !length_app, !length_rev, !length_le_bytes. cbn [Nat.add Nat.eqb negb].
    rewrite take_app_len, drop_app_len by auto with vns. fold (put_u128 (snap_minted s)) (put_u128 (snap_treasury s))
      (put_u128 (snap_burned s)) (put_u128 (snap_circulating s)).
    do 3 (rewrite take_put_u128 by done; cbn [mbind option_bind]).
    rewrite <- (app_nil_r (put_u128 (snap_circulating s))), take_put_u128 by done. cbn [mbind option_bind].
    rewrite le_val_le_bytes_id by done. by destruct s.
  - unfold snapshot_deserialize. split_if; [done|]. to_prop.
    destruct (take_u128 (drop 8 l)) as [[m r]|] eqn:E1; [|done]. cbn.
    apply take_u128_inv in E1 as (D & Rm & F1); [|by apply Forall_drop].
    destruct (take_u128 r) as [[t r2]|] eqn:E2; [|done]. cbn. apply take_u128_inv in E2 as (-> & Rt & F2); [|done].
    destruct (take_u128 r2) as [[u r3]|] eqn:E3; [|done]. cbn. apply take_u128_inv in E3 as (-> & Ru & F3); [|done].
    destruct (take_u128 r3) as [[c r4]|] eqn:E4; [|done]. cbn. apply take_u128_inv in E4 as (-> & Rc & F4); [|done].
    intros Hs. apply (inj Some) in Hs. subst s. assert (length (take 8 l) = 8%nat) as L8 by (rewrite length_take; lia).
    pose proof (Forall_take _ 8 _ Hl) as Ft. assert (r4 = []) as ->.
    { apply nil_length_inv. apply (f_equal length) in D. unfold put_u128 in D.
      rewrite length_drop, !length_app, !length_rev, !length_le_bytes in D. lia. }
    split.
    + rewrite app_nil_r in D. pose proof (le_bytes_le_val _ Ft) as E8. rewrite L8 in E8.
      transitivity (take 8 l ++ drop 8 l); [|apply take_drop]. rewrite D.
      transitivity (le_bytes 8 (le_val (take 8 l)) ++ put_u128 m ++ put_u128 t ++ put_u128 u ++ put_u128 c); [reflexivity|].
      by rewrite E8.
    + constructor; cbn; try done. pose proof (le_val_range _ Ft) as R. unfold zlen in R. by rewrite L8 in R.
Qed.

Lemma snapshot_bijection_witness :
  let s := {| snap_height := 720; snap_minted := 2 ^ 70; snap_treasury := 5; snap_burned := 6; snap_circulating := 2 ^ 70 - 11 |} in
  snapshot_deserialize (snapshot_serialize s) = Some s.
Proof.
  apply (snapshot_bijection {| snap_height := 720; snap_minted := 2 ^ 70; snap_treasury := 5; snap_burned := 6;
    snap_circulating := 2 ^ 70 - 11 |} []); [constructor|]. constructor; cbn; lia.
Defined.

(** The circulating supply of a recorded snapshot is exact, and a block whose
    treasury and burnt fees exceed the minted coins is rejected. *)
Lemma compute_circulating_spec minted treasury burned : 0 <= treasury -> 0 <= burned ->
  compute_circulating minted treasury burned =
  if treasury + burned <=? minted then Some (minted - treasury - burned) else None.
Proof.
  intros. unfold compute_circulating. repeat split_if; to_prop; try done; lia.
Qed.
