(* ===== verification/Paillier.v ===== *)
(** * Paillier encryption of vote weights

    [governance/dao_paillier.cpp]: the public key operations on 512-byte
    ciphertexts, key derivation and decryption, and the encoding of weights and
    signed vote values as plaintexts.  OpenSSL's big numbers are integers; a
    failed allocation is not modelled.

    The ciphertexts of a modulus [N] are the units modulo [N * N]; the theorems
    relate the code to the group [Zstar (N * N)] of the standard library through
    [unit_of]. *)

From Stdlib Require Import Zpow_facts Zcong.
From Stdlib Require Import Zmod Zstar.
From S2P Require Import Prelude.

(** ** Big numbers *)

Definition BN_bin2bn (l : bytes) : Z := le_val (rev l).

(** Big-endian, zero padded to [n] bytes; fails when the value does not fit. *)
Definition BN_bn2binpad (v : Z) (n : nat) : option bytes :=
  if Z.abs v <? 256 ^ Z.of_nat n then Some (rev (le_bytes n (Z.abs v))) else None.

Definition BN_num_bytes (v : Z) : nat := if v =? 0 then O else Z.to_nat (Z.log2 (Z.abs v) / 8 + 1).
Definition BN_bn2bin (v : Z) : bytes := rev (le_bytes (BN_num_bytes v) (Z.abs v)).

(** The bytes stay zero when the value does not fit. *)
Definition binpad (v : Z) (n : nat) : bytes := default (replicate n 0) (BN_bn2binpad v n).

(** The sign of the exponent is ignored. *)
Definition BN_mod_exp (a e m : Z) : Z := Zpow_mod a (Z.abs e) m.

Definition BN_mod_inverse (a n : Z) : option Z :=
  if Z.gcd a n =? 1 then Some (Z.invmod a n) else None.

(** ** Public key *)

Definition PAILLIER_MODULUS_BYTES : nat := 256.
Definition PAILLIER_CT_BYTES : nat := 512.

Record PaillierPublicKey := { pk_N : Z; pk_N2 : Z }.

Definition set_modulus (n : Z) : option PaillierPublicKey :=
  if n <? 0 then None else
  if n =? 0 then None else
  if n =? 1 then None else
  Some {| pk_N := n; pk_N2 := n * n |}.

Definition deserialize_modulus (inp : bytes) : option PaillierPublicKey :=
  if negb (length inp =? PAILLIER_MODULUS_BYTES)%nat then None
  else set_modulus (BN_bin2bn inp).

Definition serialize_modulus (pk : PaillierPublicKey) : option bytes :=
  BN_bn2binpad (pk_N pk) PAILLIER_MODULUS_BYTES.

Definition encrypt_with (n n2 m r : Z) : Z :=
  let mN := (m * n) mod n2 in
  let one_mN := mN + 1 in
  let one_mN := if n2 <=? one_mN then one_mN mod n2 else one_mN in
  let rN := BN_mod_exp r n n2 in
  (one_mN * rN) mod n2.

Definition encrypt (pk : PaillierPublicKey) (m r : Z) : option bytes :=
  if (m <? 0) || (r <? 0) then None else
  if pk_N pk <=? m then None else
  if r =? 0 then None else
  if negb (Z.gcd r (pk_N pk) =? 1) then None else
  BN_bn2binpad (encrypt_with (pk_N pk) (pk_N2 pk) m r) PAILLIER_CT_BYTES.

Definition is_valid_ciphertext (pk : PaillierPublicKey) (c : bytes) : bool :=
  if negb (length c =? PAILLIER_CT_BYTES)%nat then false else
  let bn := BN_bin2bn c in
  if pk_N2 pk <=? bn then false else
  if bn =? 0 then false else
  Z.gcd bn (pk_N pk) =? 1.

Definition add (pk : PaillierPublicKey) (c1 c2 : bytes) : option bytes :=
  if negb (is_valid_ciphertext pk c1) || negb (is_valid_ciphertext pk c2) then None
  else BN_bn2binpad ((BN_bin2bn c1 * BN_bin2bn c2) mod pk_N2 pk) PAILLIER_CT_BYTES.

Definition inverse (pk : PaillierPublicKey) (c : bytes) : option bytes :=
  if negb (is_valid_ciphertext pk c) then None else
  match BN_mod_inverse (BN_bin2bn c) (pk_N2 pk) with
  | None => None
  | Some inv => BN_bn2binpad inv PAILLIER_CT_BYTES
  end.

Definition scalar_mul (pk : PaillierPublicKey) (c : bytes) (k : Z) : option bytes :=
  if negb (is_valid_ciphertext pk c) then None else
  BN_bn2binpad (BN_mod_exp (BN_bin2bn c) k (pk_N2 pk)) PAILLIER_CT_BYTES.

(** ** Private key *)

Record PaillierPrivateKey := {
  sk_N : Z; sk_N2 : Z; sk_lambda : Z; sk_mu : Z; sk_p : Z; sk_q : Z;
}.

(** [generate_for_testing] after the two primes have been drawn. *)
Definition generate_from_primes (p q : Z) : option PaillierPrivateKey :=
  if p =? q then None else
  let n := p * q in
  let n2 := n * n in
  let p1 := p - 1 in
  let q1 := q - 1 in
  let lambda := Z.quot (p1 * q1) (Z.gcd p1 q1) in
  let gl := BN_mod_exp (n + 1) lambda n2 in
  let L := Z.quot (gl - 1) n in
  match BN_mod_inverse L n with
  | None => None
  | Some mu => Some {| sk_N := n; sk_N2 := n2; sk_lambda := lambda; sk_mu := mu;
                       sk_p := p; sk_q := q |}
  end.

Definition public_key (sk : PaillierPrivateKey) : option PaillierPublicKey :=
  set_modulus (sk_N sk).

(** The exponentiation in constant time is OpenSSL's Montgomery routine, which
    refuses an even modulus. *)
Definition decrypt (sk : PaillierPrivateKey) (ct : bytes) : option Z :=
  if negb (length ct =? PAILLIER_CT_BYTES)%nat then None else
  let c := BN_bin2bn ct in
  if (sk_N2 sk <=? c) || negb (Z.gcd c (sk_N sk) =? 1) then None else
  if Z.even (sk_N2 sk) then None else
  let u := BN_mod_exp c (sk_lambda sk) (sk_N2 sk) in
  let L := Z.quot (u - 1) (sk_N sk) in
  Some ((L * sk_mu sk) mod sk_N sk).

(** ** Plaintext encodings *)

Definition governance_w_max : Z := 240000000000000000000.

Definition bn_to_int128 (v : Z) : option Z :=
  if v <? 0 then None else
  if 2 ^ 127 <=? v then None else Some v.

Definition encode_unsigned_weight (w n : Z) : option Z :=
  if governance_w_max <? w then None else
  if n <=? w then None else Some w.

Definition encode_signed_value (s n : Z) : option Z :=
  if 0 <=? s then if s <? n then Some s else None
  else
    let pos := - s in
    if n <=? pos then None else Some (n - pos).

Definition decode_signed_value (m n : Z) : option Z :=
  if (m <? 0) || (n <? 0) then None else
  if n <=? m then None else
  let half := Z.shiftr n 1 in
  if m <=? half then bn_to_int128 m
  else match bn_to_int128 (n - m) with
       | Some pos => Some (- pos)
       | None => None
       end.

(** ** Big numbers as bytes *)

Lemma length_BN_bn2binpad v n l : BN_bn2binpad v n = Some l -> length l = n.
Proof.
  unfold BN_bn2binpad. case_match; [|done]. intros [= <-].
  by rewrite length_rev, length_le_bytes.
Qed.

Lemma BN_bin2bn_bn2binpad v n l : 0 <= v -> BN_bn2binpad v n = Some l -> BN_bin2bn l = v.
Proof.
  unfold BN_bn2binpad, BN_bin2bn. intros Hv. case_match; [|done]. intros [= <-].
  to_prop. rewrite rev_involutive, Z.abs_eq in * by lia. by apply le_val_le_bytes_id.
Qed.

Lemma BN_bn2binpad_fits v n : 0 <= v < 256 ^ Z.of_nat n -> exists l, BN_bn2binpad v n = Some l.
Proof.
  intros Hv. unfold BN_bn2binpad. rewrite Z.abs_eq by lia.
  rewrite (proj2 (Z.ltb_lt _ _)) by lia. eauto.
Qed.

Lemma length_binpad v n : length (binpad v n) = n.
Proof.
  unfold binpad. destruct (BN_bn2binpad v n) eqn:E; [by apply length_BN_bn2binpad in E|apply length_replicate].
Qed.

Lemma bin2bn_binpad v n : 0 <= v < 256 ^ Z.of_nat n -> BN_bin2bn (binpad v n) = v.
Proof.
  intros Hv. unfold binpad. destruct (BN_bn2binpad_fits v n Hv) as [l E]. rewrite E.
  by apply (BN_bin2bn_bn2binpad v n l); [lia|].
Qed.

Lemma rev_le_bytes_byte n v : Forall is_byte (rev (le_bytes n v)).
Proof. rewrite rev_alt. apply Forall_reverse, le_bytes_byte. Qed.

(** The bytes of fixed length are determined by the number they spell. *)
Lemma BN_bn2binpad_bin2bn l :
  Forall is_byte l -> BN_bn2binpad (BN_bin2bn l) (length l) = Some l.
Proof.
  intros Hl. unfold BN_bn2binpad, BN_bin2bn.
  assert (Forall is_byte (rev l)) as Hr by (rewrite rev_alt; by apply Forall_reverse).
  pose proof (le_val_range _ Hr) as Hv. unfold zlen in Hv. rewrite length_rev in Hv.
  rewrite Z.abs_eq, (proj2 (Z.ltb_lt _ _)) by lia.
  by rewrite <- length_rev, le_bytes_le_val, rev_involutive by done.
Qed.

Lemma BN_mod_exp_spec a e m : 0 <= e -> m <> 0 -> BN_mod_exp a e m = a ^ e mod m.
Proof. intros He Hm. unfold BN_mod_exp. rewrite Z.abs_eq by done. by apply Zpow_mod_correct. Qed.

(** ** Residues as units *)

(** The unit of [Z / M] that [x] represents. *)
Definition unit_of (M x : Z) : Zstar.Zstar M := Zstar.of_Zmod (Zmod.of_Z M x).
Definition unit_val {M} (x : Zstar.Zstar M) : Z := Zmod.to_Z (Zstar.to_Zmod x).

Lemma unit_val_of M x : Z.coprime x M -> unit_val (unit_of M x) = x mod M.
Proof.
  intros Hx. unfold unit_val, unit_of. rewrite Zstar.to_Zmod_of_Zmod; [apply Zmod.to_Z_of_Z|].
  rewrite Zmod.to_Z_of_Z. by apply Z.coprime_mod_l_iff.
Qed.

Lemma unit_val_inj {M} (x y : Zstar.Zstar M) : unit_val x = unit_val y -> x = y.
Proof. intros Hxy. apply Zstar.to_Zmod_inj, Zmod.to_Z_inj, Hxy. Qed.

Lemma unit_val_mul {M} (x y : Zstar.Zstar M) :
  unit_val (Zstar.mul x y) = (unit_val x * unit_val y) mod M.
Proof. unfold unit_val. by rewrite Zstar.to_Zmod_mul, Zmod.to_Z_mul. Qed.

Lemma unit_val_one M : unit_val (@Zstar.one M) = 1 mod M.
Proof. unfold unit_val. by rewrite Zstar.to_Zmod_1, Zmod.to_Z_1. Qed.

Lemma unit_val_range {M} (x : Zstar.Zstar M) : 0 < M -> 0 <= unit_val x < M.
Proof. intros HM. unfold unit_val. pose proof (Zmod.to_Z_range (Zstar.to_Zmod x)). lia. Qed.

Lemma unit_val_coprime {M} (x : Zstar.Zstar M) : Z.coprime (unit_val x) M.
Proof. apply Zstar.coprime_to_Zmod. Qed.

Lemma unit_of_val {M} (x : Zstar.Zstar M) : unit_of M (unit_val x) = x.
Proof.
  apply unit_val_inj. rewrite unit_val_of by apply unit_val_coprime.
  unfold unit_val. apply Zmod.mod_to_Z.
Qed.

Lemma unit_of_eq M x y : Z.coprime x M -> x mod M = y mod M -> unit_of M x = unit_of M y.
Proof.
  intros Hx Hxy. apply unit_val_inj. rewrite !unit_val_of; [done| |done].
  by rewrite <- Z.coprime_mod_l_iff, <- Hxy, Z.coprime_mod_l_iff.
Qed.

Lemma unit_of_mod M x : unit_of M (x mod M) = unit_of M x.
Proof. unfold unit_of. by rewrite Zmod.of_Z_mod. Qed.

Lemma unit_of_mul M x y : Z.coprime x M -> Z.coprime y M ->
  unit_of M (x * y) = Zstar.mul (unit_of M x) (unit_of M y).
Proof.
  intros Hx Hy. apply unit_val_inj.
  rewrite unit_val_mul, !unit_val_of by (try apply Z.coprime_mul_l; done).
  apply Zmult_mod.
Qed.

Lemma unit_of_one M : unit_of M 1 = Zstar.one.
Proof. done. Qed.

Lemma unit_of_pow M x e : Z.coprime x M -> 0 <= e -> unit_of M (x ^ e) = Zstar.pow (unit_of M x) e.
Proof.
  intros Hx. revert e. apply natlike_ind.
  - by rewrite Z.pow_0_r, unit_of_one, Zstar.pow_0_r.
  - intros e He IH. rewrite Z.pow_succ_r, Zstar.pow_succ_r, unit_of_mul, IH; try done.
    by apply Z.coprime_pow_l.
Qed.

Lemma unit_of_inv M x : Z.coprime x M -> unit_of M (Z.invmod x M) = Zstar.inv (unit_of M x).
Proof.
  intros Hx. symmetry. apply Zstar.eq_inv_iff.
  rewrite <- unit_of_mul, Z.mul_comm by (try apply Z.coprime_invmod; done).
  rewrite <- unit_of_mod, Z.invmod_coprime', unit_of_mod by done. apply unit_of_one.
Qed.

#[export] Hint Resolve unit_val_coprime Z.coprime_1_l Z.coprime_mul_l : vns.

Lemma coprime_square x n : Z.coprime x (n * n) <-> Z.coprime x n.
Proof.
  split; [|intros Hx; by apply Z.coprime_mul_r].
  rewrite !Z.Bezout_coprime_iff. intros (a & b & Hab). exists a, (b * n). lia.
Qed.

(** ** Ciphertexts as units *)

Definition pk_ok (pk : PaillierPublicKey) : Prop :=
  1 < pk_N pk < 256 ^ 256 /\ pk_N2 pk = pk_N pk * pk_N pk.

Definition is_ct (pk : PaillierPublicKey) (c : bytes) : Prop :=
  is_valid_ciphertext pk c = true /\ Forall is_byte c.

Definition ct_unit (pk : PaillierPublicKey) (c : bytes) : Zstar.Zstar (pk_N2 pk) :=
  unit_of (pk_N2 pk) (BN_bin2bn c).

Definition ct_bytes (pk : PaillierPublicKey) (u : Zstar.Zstar (pk_N2 pk)) : bytes :=
  rev (le_bytes PAILLIER_CT_BYTES (unit_val u)).

(** Encryption as a group element: [(1 + N)^m * r^N]. *)
Definition enc (pk : PaillierPublicKey) (m r : Z) : Zstar.Zstar (pk_N2 pk) :=
  Zstar.mul (Zstar.pow (unit_of (pk_N2 pk) (1 + pk_N pk)) m)
            (Zstar.pow (unit_of (pk_N2 pk) r) (pk_N pk)).

Lemma set_modulus_ok n pk : n < 256 ^ 256 -> set_modulus n = Some pk -> pk_ok pk /\ pk_N pk = n.
Proof.
  intros Hn. unfold set_modulus. repeat (case_match; [done|]). to_prop.
  intros [= <-]. unfold pk_ok. cbn [pk_N pk_N2]. split; [|done]. split; [lia|done].
Qed.

Lemma deserialize_modulus_ok inp pk :
  Forall is_byte inp -> deserialize_modulus inp = Some pk -> pk_ok pk.
Proof.
  intros Hb. unfold deserialize_modulus. case_match eqn:Hl; [done|]. to_prop.
  intros H. apply set_modulus_ok in H as [? _]; [done|]. unfold BN_bin2bn.
  pose proof (le_val_range (rev inp)) as Hr. unfold zlen in Hr.
  rewrite length_rev, Hl in Hr. apply Hr. rewrite rev_alt. by apply Forall_reverse.
Qed.

Section units.
Context (pk : PaillierPublicKey) (Hpk : pk_ok pk).

Lemma pk_N2_pos : 1 < pk_N2 pk.
Proof using Hpk. destruct Hpk as [? ->]. nia. Qed.

Lemma pk_N2_fits : pk_N2 pk < 256 ^ Z.of_nat PAILLIER_CT_BYTES.
Proof using Hpk.
  destruct Hpk as [[H1 H2] ->]. change (Z.of_nat PAILLIER_CT_BYTES) with (256 + 256).
  rewrite Z.pow_add_r by lia. apply Z.mul_lt_mono_nonneg; lia.
Qed.

Lemma coprime_N2 x : Z.coprime x (pk_N2 pk) <-> Z.coprime x (pk_N pk).
Proof using Hpk. destruct Hpk as [_ ->]. apply coprime_square. Qed.

Lemma is_valid_ciphertext_true c : is_valid_ciphertext pk c = true <->
  length c = PAILLIER_CT_BYTES /\ BN_bin2bn c < pk_N2 pk /\ BN_bin2bn c <> 0 /\
  Z.coprime (BN_bin2bn c) (pk_N2 pk).
Proof using Hpk.
  rewrite coprime_N2. unfold is_valid_ciphertext, Z.coprime.
  repeat (case_match; to_prop; [naive_solver lia|]). to_prop. naive_solver lia.
Qed.

Lemma bn2binpad_unit (u : Zstar.Zstar (pk_N2 pk)) :
  BN_bn2binpad (unit_val u) PAILLIER_CT_BYTES = Some (ct_bytes pk u).
Proof using Hpk.
  pose proof pk_N2_fits. pose proof pk_N2_pos. pose proof (unit_val_range u ltac:(lia)).
  unfold BN_bn2binpad, ct_bytes. rewrite Z.abs_eq, (proj2 (Z.ltb_lt _ _)) by lia. done.
Qed.

Lemma bin2bn_ct_bytes u : BN_bin2bn (ct_bytes pk u) = unit_val u.
Proof using Hpk.
  pose proof pk_N2_pos. pose proof (unit_val_range u ltac:(lia)).
  eapply BN_bin2bn_bn2binpad; [lia|]. apply bn2binpad_unit.
Qed.

Lemma is_ct_bytes u : is_ct pk (ct_bytes pk u).
Proof using Hpk.
  pose proof pk_N2_pos. pose proof (unit_val_range u ltac:(lia)). split.
  - apply is_valid_ciphertext_true. rewrite bin2bn_ct_bytes. split; [|split; [lia|split]].
    + unfold ct_bytes. by rewrite length_rev, length_le_bytes.
    + intros Hz. apply (Zstar.to_Z_nz u); [lia|done].
    + apply unit_val_coprime.
  - apply rev_le_bytes_byte.
Qed.

Lemma length_ct_bytes u : length (ct_bytes pk u) = PAILLIER_CT_BYTES.
Proof using Hpk. by destruct (is_ct_bytes u) as [(? & _)%is_valid_ciphertext_true _]. Qed.

Lemma binpad_unit (u : Zstar.Zstar (pk_N2 pk)) : binpad (unit_val u) PAILLIER_CT_BYTES = ct_bytes pk u.
Proof using Hpk. unfold binpad. by rewrite bn2binpad_unit. Qed.

Lemma ct_unit_bytes u : ct_unit pk (ct_bytes pk u) = u.
Proof using Hpk. unfold ct_unit. rewrite bin2bn_ct_bytes. apply unit_of_val. Qed.

Lemma ct_coprime c : is_ct pk c -> Z.coprime (BN_bin2bn c) (pk_N2 pk).
Proof using Hpk. intros [Hv _]. by apply is_valid_ciphertext_true in Hv as (?&?&?&?). Qed.

Lemma bin2bn_nonneg c : Forall is_byte c -> 0 <= BN_bin2bn c.
Proof.
  intros Hc. apply le_val_range. rewrite rev_alt. by apply Forall_reverse.
Qed.

Lemma unit_val_ct c : is_ct pk c -> unit_val (ct_unit pk c) = BN_bin2bn c.
Proof using Hpk.
  intros Hc. unfold ct_unit. rewrite unit_val_of by by apply ct_coprime.
  destruct Hc as [Hv Hb]. apply is_valid_ciphertext_true in Hv as (?&?&?&?).
  apply Z.mod_small. pose proof (bin2bn_nonneg c Hb). lia.
Qed.

Lemma ct_bytes_unit c : is_ct pk c -> ct_bytes pk (ct_unit pk c) = c.
Proof using Hpk.
  intros Hc. apply (inj Some). rewrite <- bn2binpad_unit, unit_val_ct by done.
  destruct Hc as [Hv Hb]. apply is_valid_ciphertext_true in Hv as (Hl&?&?&?).
  rewrite <- Hl. by apply BN_bn2binpad_bin2bn.
Qed.

Lemma add_spec c1 c2 : is_ct pk c1 -> is_ct pk c2 ->
  add pk c1 c2 = Some (ct_bytes pk (Zstar.mul (ct_unit pk c1) (ct_unit pk c2))).
Proof using Hpk.
  intros H1 H2. unfold add. rewrite (proj1 H1), (proj1 H2). cbn [negb orb].
  by rewrite <- bn2binpad_unit, unit_val_mul, !unit_val_ct.
Qed.

Lemma inverse_spec c : is_ct pk c ->
  inverse pk c = Some (ct_bytes pk (Zstar.inv (ct_unit pk c))).
Proof using Hpk.
  intros Hc. unfold inverse, BN_mod_inverse. rewrite (proj1 Hc). cbn [negb].
  pose proof (ct_coprime c Hc) as Hg. rewrite (proj2 (Z.eqb_eq _ _) Hg).
  rewrite <- bn2binpad_unit. unfold ct_unit. rewrite <- unit_of_inv by done.
  rewrite unit_val_of by by apply Z.coprime_invmod. by rewrite Z.mod_invmod.
Qed.

(** The powers of [1 + N] are the [1 + N * k]. *)
Lemma coprime_1N : Z.coprime (1 + pk_N pk) (pk_N2 pk).
Proof using Hpk.
  rewrite coprime_N2, Z.Bezout_coprime_iff. exists 1, (-1). lia.
Qed.

Lemma coprime_1kN k : Z.coprime (1 + k * pk_N pk) (pk_N2 pk).
Proof using Hpk.
  rewrite coprime_N2, Z.Bezout_coprime_iff. exists 1, (-k). lia.
Qed.

Lemma unit_1kN_mul k l :
  unit_of (pk_N2 pk) (1 + (k + l) * pk_N pk) =
  Zstar.mul (unit_of (pk_N2 pk) (1 + k * pk_N pk)) (unit_of (pk_N2 pk) (1 + l * pk_N pk)).
Proof using Hpk.
  rewrite <- unit_of_mul by apply coprime_1kN. apply unit_of_eq; [apply coprime_1kN|].
  destruct Hpk as [_ ->].
  replace ((1 + k * pk_N pk) * (1 + l * pk_N pk))
    with (1 + (k + l) * pk_N pk + (k * l) * (pk_N pk * pk_N pk)) by ring.
  by rewrite Z_mod_plus_full.
Qed.

Lemma pow_1kN k e :
  Zstar.pow (unit_of (pk_N2 pk) (1 + k * pk_N pk)) e = unit_of (pk_N2 pk) (1 + k * e * pk_N pk).
Proof using Hpk.
  induction e as [|e IH|e IH] using Z.peano_ind.
  - rewrite Zstar.pow_0_r, Z.mul_0_r, Z.mul_0_l, Z.add_0_r. by rewrite unit_of_one.
  - rewrite Zstar.pow_succ_r, IH, <- unit_1kN_mul. do 2 f_equal. ring.
  - rewrite Zstar.pow_pred_r, IH.
    apply (Zstar.mul_cancel_l (unit_of (pk_N2 pk) (1 + k * pk_N pk))).
    rewrite Zstar.mul_div_r_same_r, <- unit_1kN_mul. do 2 f_equal. rewrite <- Z.sub_1_r. ring.
Qed.

Lemma pow_1N e :
  Zstar.pow (unit_of (pk_N2 pk) (1 + pk_N pk)) e = unit_of (pk_N2 pk) (1 + e * pk_N pk).
Proof using Hpk.
  rewrite <- (Z.mul_1_l (pk_N pk)) at 1. rewrite pow_1kN. by rewrite Z.mul_1_l.
Qed.

Lemma unit_val_1kN k : unit_val (unit_of (pk_N2 pk) (1 + k * pk_N pk)) = 1 + pk_N pk * (k mod pk_N pk).
Proof using Hpk.
  rewrite unit_val_of by apply coprime_1kN. destruct Hpk as [[Hn _] ->].
  pose proof (Z.mod_pos_bound k (pk_N pk)).
  symmetry. apply (Z.mod_unique_pos _ _ (k / pk_N pk)); [nia|].
  rewrite (Z.div_mod k (pk_N pk)) at 1 by lia. ring.
Qed.

(** [L (x) = (x - 1) / N] reads the exponent back. *)
Lemma L_1kN k : Z.quot (unit_val (unit_of (pk_N2 pk) (1 + k * pk_N pk)) - 1) (pk_N pk) = k mod pk_N pk.
Proof using Hpk.
  rewrite unit_val_1kN. destruct Hpk as [[Hn _] _].
  replace (1 + pk_N pk * (k mod pk_N pk) - 1) with ((k mod pk_N pk) * pk_N pk) by ring.
  apply Z.quot_mul. lia.
Qed.

Lemma encrypt_spec m r : 0 <= m < pk_N pk -> 0 < r -> Z.coprime r (pk_N pk) ->
  encrypt pk m r = Some (ct_bytes pk (enc pk m r)).
Proof using Hpk.
  intros Hm Hr Hg. pose proof pk_N2_pos as Hp. destruct (proj1 Hpk) as [Hn _].
  unfold encrypt. rewrite !(proj2 (Z.ltb_ge _ _)), (proj2 (Z.leb_gt _ _)) by lia.
  rewrite (proj2 (Z.eqb_neq _ _)), (proj2 (Z.eqb_eq _ _) Hg) by lia. cbn [negb orb].
  rewrite <- bn2binpad_unit. do 2 f_equal.
  assert (Z.coprime r (pk_N2 pk)) as Hg2 by by apply coprime_N2.
  unfold enc. rewrite unit_val_mul, pow_1N, <- unit_of_pow by (done || lia).
  rewrite !unit_val_of by (try apply coprime_1kN; try apply Z.coprime_pow_l; done || lia).
  unfold encrypt_with. rewrite BN_mod_exp_spec by lia. f_equal. f_equal.
  rewrite <- (Zplus_mod_idemp_r (m * pk_N pk)), Z.add_comm.
  pose proof (Z.mod_pos_bound (m * pk_N pk) (pk_N2 pk)).
  case_match; to_prop; [done|]. symmetry. apply Z.mod_small. lia.
Qed.

Lemma enc_mul m1 r1 m2 r2 : Z.coprime r1 (pk_N pk) -> Z.coprime r2 (pk_N pk) ->
  Zstar.mul (enc pk m1 r1) (enc pk m2 r2) = enc pk (m1 + m2) (r1 * r2).
Proof using Hpk.
  intros H1 H2. unfold enc.
  rewrite unit_of_mul, Zstar.pow_mul_l, Zstar.pow_add_r by by apply coprime_N2.
  rewrite <- !Zstar.mul_assoc. f_equal.
  rewrite !Zstar.mul_assoc. f_equal. apply Zstar.mul_comm.
Qed.

Lemma enc_mod m r : enc pk (m mod pk_N pk) r = enc pk m r.
Proof using Hpk.
  unfold enc. f_equal. rewrite !pow_1N. apply unit_val_inj. rewrite !unit_val_1kN.
  by rewrite Zmod_mod.
Qed.

(** [r^d = 1] modulo [N] for every unit [r]. *)
Definition kills (n d : Z) : Prop :=
  forall r, Z.coprime r n -> (r ^ Z.abs d) mod n = 1 mod n.

Lemma kills_abs d r : kills (pk_N pk) d -> Z.coprime r (pk_N pk) ->
  Zstar.pow (unit_of (pk_N2 pk) r) (pk_N pk * Z.abs d) = Zstar.one.
Proof using Hpk.
  intros Hd Hr. specialize (Hd r Hr). destruct (proj1 Hpk) as [Hn _].
  rewrite Z.mul_comm, Zstar.pow_mul_r, <- unit_of_pow by (try apply coprime_N2; done || lia).
  rewrite (Z.mod_small 1) in Hd by lia.
  pose proof (Z.div_mod (r ^ Z.abs d) (pk_N pk) ltac:(lia)) as He. rewrite Hd in He.
  rewrite He, Z.add_comm, Z.mul_comm, pow_1kN.
  apply unit_val_inj. rewrite unit_val_1kN, unit_val_one, Z_mod_mult, Z.mul_0_r.
  pose proof pk_N2_pos. rewrite Z.mod_small; lia.
Qed.

Lemma kills_pow d e r : kills (pk_N pk) d -> Z.coprime r (pk_N pk) ->
  Zstar.pow (unit_of (pk_N2 pk) r) (pk_N pk * (d * e)) = Zstar.one.
Proof using Hpk.
  intros Hd Hr. rewrite Z.mul_assoc, Zstar.pow_mul_r.
  transitivity (Zstar.pow (@Zstar.one (pk_N2 pk)) e); [f_equal|apply Zstar.pow_1_l].
  pose proof (kills_abs d r Hd Hr) as Ha.
  destruct (Z.abs_spec d) as [[_ He]|[_ He]]; rewrite He in Ha; [done|].
  rewrite Z.mul_opp_r, Zstar.pow_opp_r in Ha.
  by rewrite <- (Zstar.inv_inv (Zstar.pow _ _)), Ha, Zstar.inv_1.
Qed.

(** Raising a ciphertext to a multiple of a killing exponent leaves the
    plaintext. *)
Lemma enc_pow d e m r : kills (pk_N pk) d -> Z.coprime r (pk_N pk) ->
  Zstar.pow (enc pk m r) (d * e) = unit_of (pk_N2 pk) (1 + m * (d * e) * pk_N pk).
Proof using Hpk.
  intros Hd Hr. unfold enc.
  rewrite Zstar.pow_mul_l, <- (Zstar.pow_mul_r (unit_of _ r)), kills_pow, Zstar.mul_1_r by done.
  by rewrite pow_1N, pow_1kN.
Qed.

End units.

#[global] Opaque ct_bytes.

Lemma coprime_N_mul p q x : Z.coprime x (p * q) -> Z.coprime x p /\ Z.coprime x q.
Proof.
  rewrite !Z.Bezout_coprime_iff. intros (a & b & Hab).
  split; [exists a, (b * q)|exists a, (b * p)]; lia.
Qed.

Lemma fermat_Z p r e : Z.prime p -> Z.coprime r p -> 0 <= e -> (p - 1 | e) -> (r ^ e) mod p = 1 mod p.
Proof.
  intros Hp Hr He [k ->]. pose proof (Z.prime_ge_2 p Hp).
  rewrite <- unit_val_of by by apply Z.coprime_pow_l.
  rewrite unit_of_pow, Z.mul_comm, Zstar.pow_mul_r by done.
  rewrite Z.sub_1_r, Zstar.fermat, Zstar.pow_1_l by done. apply unit_val_one.
Qed.

Lemma primes_kill p q d : Z.prime p -> Z.prime q -> p <> q ->
  (p - 1 | d) -> (q - 1 | d) -> kills (p * q) d.
Proof.
  intros Hp Hq Hpq H1 H2 r [Hr1 Hr2]%coprime_N_mul.
  pose proof (Z.prime_ge_2 p Hp). pose proof (Z.prime_ge_2 q Hq).
  pose proof (fermat_Z p r (Z.abs d) Hp Hr1 ltac:(lia) (proj2 (Z.divide_abs_r _ _) H1)) as E1.
  pose proof (fermat_Z q r (Z.abs d) Hq Hr2 ltac:(lia) (proj2 (Z.divide_abs_r _ _) H2)) as E2.
  apply Z.cong_iff_0 in E1, E2. apply Z.cong_iff_0.
  rewrite Z.mod_divide in * by nia. destruct E1 as [k Hk]. rewrite Hk in E2 |- *.
  destruct (proj1 (Z.divide_prime_mul _ _ _ Hq) E2) as [[j ->]|E3].
  - exists j. ring.
  - by destruct Hpq; symmetry; apply Z.divide_prime_prime.
Qed.

Lemma odd_prime p : Z.prime p -> 2 < p -> Z.even p = false.
Proof.
  intros Hp H2. apply not_true_is_false. rewrite Z.even_spec. intros [k Hk].
  apply (proj2 Hp 2); [lia|]. exists k. lia.
Qed.

(** ** Decryption *)

Lemma lambda_spec p q : 2 < p -> 2 < q ->
  let l := Z.quot ((p - 1) * (q - 1)) (Z.gcd (p - 1) (q - 1)) in
  0 <= l /\ (p - 1 | l) /\ (q - 1 | l).
Proof.
  intros Hp2 Hq2. cbv zeta. assert (0 < Z.gcd (p - 1) (q - 1)) as Hg.
  { pose proof (Z.gcd_nonneg (p - 1) (q - 1)).
    enough (Z.gcd (p - 1) (q - 1) <> 0) by lia. rewrite Z.gcd_eq_0. lia. }
  destruct (Z.gcd_divide_l (p - 1) (q - 1)) as [a Ha].
  destruct (Z.gcd_divide_r (p - 1) (q - 1)) as [b Hb].
  set (g := Z.gcd (p - 1) (q - 1)) in *.
  assert ((p - 1) * (q - 1) = (a * b * g) * g) as -> by (rewrite Ha, Hb; ring).
  rewrite Z.quot_mul, Ha, Hb by lia. split; [nia|].
  split; [exists b|exists a]; ring.
Qed.

Section decryption.
Context (p q : Z) (sk : PaillierPrivateKey) (pk : PaillierPublicKey).
Context (Hp : Z.prime p) (Hq : Z.prime q) (Hp2 : 2 < p) (Hq2 : 2 < q).
Context (Hsk : generate_from_primes p q = Some sk) (Hpk : public_key sk = Some pk).
Context (Hfit : p * q < 256 ^ 256).

Lemma generated_key : pk_ok pk /\ pk_N pk = p * q /\ sk_N sk = pk_N pk /\ sk_N2 sk = pk_N2 pk /\
  0 <= sk_lambda sk /\ kills (pk_N pk) (sk_lambda sk) /\
  (sk_lambda sk * sk_mu sk) mod pk_N pk = 1.
Proof using All.
  unfold generate_from_primes in Hsk. case_match eqn:Hpq; [done|]. to_prop.
  destruct (lambda_spec p q Hp2 Hq2) as (Hl & Hl1 & Hl2).
  set (l := Z.quot ((p - 1) * (q - 1)) (Z.gcd (p - 1) (q - 1))) in *. clearbody l.
  unfold BN_mod_inverse in Hsk. destruct (Z.gcd _ _ =? 1) eqn:Hg; [|done].
  injection Hsk as <-. unfold public_key in Hpk. cbn [sk_N sk_N2 sk_lambda sk_mu] in *.
  destruct (set_modulus_ok _ _ Hfit Hpk) as [Hok HN].
  split; [done|]. rewrite HN. split; [done|]. split; [done|].
  assert (pk_N2 pk = p * q * (p * q)) as HN2 by (destruct Hok as [_ ->]; by rewrite HN).
  split; [done|]. split; [done|]. split; [by apply primes_kill|].
  assert (Z.quot (BN_mod_exp (p * q + 1) l (p * q * (p * q)) - 1) (p * q) = l mod (p * q)) as HL.
  { rewrite <- HN, <- HN2 at 1. pose proof (L_1kN pk Hok l) as E. rewrite HN in E.
    rewrite <- E. do 2 f_equal.
    rewrite <- HN, <- pow_1N, <- unit_of_pow, unit_val_of, BN_mod_exp_spec, (Z.add_comm 1);
      try done; try (apply Z.coprime_pow_l; [done|]); try (by apply coprime_1N).
    rewrite HN2. nia. }
  rewrite HL in Hg |- *. to_prop.
  rewrite Z.invmod_mod_l, Z.mul_comm. apply Z.invmod_coprime; [nia|].
  by apply Z.coprime_mod_l_iff.
Qed.

Lemma decrypt_enc m r : 0 <= m < pk_N pk -> Z.coprime r (pk_N pk) ->
  decrypt sk (ct_bytes pk (enc pk m r)) = Some m.
Proof using All.
  intros Hm Hr. destruct generated_key as (Hok & HN & HsN & HsN2 & Hl & Hk & Hmu).
  pose proof (pk_N2_pos pk Hok) as Hpos.
  assert (is_ct pk (ct_bytes pk (enc pk m r))) as [Hv _] by by apply is_ct_bytes.
  apply is_valid_ciphertext_true in Hv as (Hlen & Hlt & Hnz & Hg); [|done].
  rewrite bin2bn_ct_bytes in Hlt, Hg by done.
  unfold decrypt. rewrite Hlen, bin2bn_ct_bytes, HsN, HsN2 by done.
  rewrite (proj2 (Z.leb_gt _ _)), (proj2 (Z.eqb_eq _ 1)) by (by apply coprime_N2 || done).
  cbn [negb orb Nat.eqb PAILLIER_CT_BYTES]. change (512 =? 512)%nat with true. cbn [negb].
  assert (Z.even (pk_N2 pk) = false) as ->.
  { destruct Hok as [_ ->]. rewrite HN, !Z.even_mul, !odd_prime; done. }
  f_equal.
  rewrite BN_mod_exp_spec by (clear -Hl Hpos; lia).
  rewrite <- (unit_val_of _ (_ ^ _)), unit_of_pow, unit_of_val
    by (exact Hg || exact Hl || (apply Z.coprime_pow_l; assumption)).
  rewrite <- (Z.mul_1_r (sk_lambda sk)), enc_pow, L_1kN by done.
  rewrite Z.mul_1_r, Zmult_mod_idemp_l, <- Z.mul_assoc, <- Zmult_mod_idemp_r, Hmu, Z.mul_1_r.
  apply Z.mod_small. lia.
Qed.

End decryption.

Lemma encrypt_inv pk m r c : pk_ok pk -> 0 <= m -> encrypt pk m r = Some c ->
  m < pk_N pk /\ Z.coprime r (pk_N pk) /\ c = ct_bytes pk (enc pk m r).
Proof.
  intros Hok Hm Hc. assert (m < pk_N pk /\ 0 < r /\ Z.coprime r (pk_N pk)) as (? & ? & ?).
  { unfold encrypt in Hc. repeat (case_match; [done|]). to_prop. unfold Z.coprime. lia. }
  rewrite encrypt_spec in Hc by (assumption || lia). apply (inj Some) in Hc. auto.
Qed.

(** The product the aggregation computes is an encryption of the sum: the
    ciphertexts of two plaintexts combine to the ciphertext of their sum modulo
    [N], under the product of the random factors. *)
Theorem add_homomorphic pk m1 r1 m2 r2 : pk_ok pk ->
  0 <= m1 < pk_N pk -> 0 < r1 -> Z.coprime r1 (pk_N pk) ->
  0 <= m2 < pk_N pk -> 0 < r2 -> Z.coprime r2 (pk_N pk) ->
  exists c1 c2, encrypt pk m1 r1 = Some c1 /\ encrypt pk m2 r2 = Some c2 /\
    add pk c1 c2 = encrypt pk ((m1 + m2) mod pk_N pk) (r1 * r2).
Proof.
  intros Hok Hm1 Hr1 Hg1 Hm2 Hr2 Hg2. do 2 eexists.
  split; [by apply encrypt_spec|]. split; [by apply encrypt_spec|].
  rewrite add_spec, !ct_unit_bytes, enc_mul by (assumption || (apply is_ct_bytes; assumption)).
  rewrite encrypt_spec, enc_mod; [done..| |nia|by apply Z.coprime_mul_l].
  apply Z.mod_pos_bound. lia.
Qed.

(** Decryption undoes encryption, for every key derived from two distinct
    odd primes and every plaintext below the modulus. *)
Theorem decrypt_encrypt p q sk pk m r c : Z.prime p -> Z.prime q -> 2 < p -> 2 < q ->
  p * q < 256 ^ 256 -> generate_from_primes p q = Some sk -> public_key sk = Some pk ->
  0 <= m -> encrypt pk m r = Some c -> decrypt sk c = Some m.
Proof.
  intros Hp Hq Hp2 Hq2 Hfit Hsk Hpk Hm Hc.
  destruct (generated_key p q sk pk) as (Hok & _); try done.
  apply encrypt_inv in Hc as (? & ? & ->); [|assumption..].
  apply (decrypt_enc p q sk pk); assumption || lia.
Qed.

(** A signed value whose magnitude is below half the modulus is decoded as
    encoded. *)
Lemma signed_value_roundtrip s n : 2 * Z.abs s < n -> Z.abs s < 2 ^ 127 ->
  exists m, encode_signed_value s n = Some m /\ 0 <= m < n /\ m = s mod n /\
    decode_signed_value m n = Some s.
Proof.
  intros Hn H127. unfold encode_signed_value, decode_signed_value, bn_to_int128.
  rewrite Z.shiftr_div_pow2, Z.pow_1_r by lia.
  pose proof (Z.div_mod n 2 ltac:(lia)). pose proof (Z.mod_pos_bound n 2 ltac:(lia)).
  destruct (0 <=? s) eqn:Hs; to_prop.
  - rewrite (proj2 (Z.ltb_lt _ _)) by lia. eexists. split; [done|]. split; [lia|].
    split; [symmetry; apply Z.mod_small; lia|].
    rewrite !(proj2 (Z.ltb_ge _ _)), (proj2 (Z.leb_gt n _)), (proj2 (Z.leb_le _ _)) by lia.
    cbn [orb]. by rewrite (proj2 (Z.leb_gt _ _)) by lia.
  - rewrite (proj2 (Z.leb_gt _ _)) by lia. eexists. split; [done|]. split; [lia|]. split.
    { apply Z.mod_unique_pos with (-1); lia. }
    rewrite !(proj2 (Z.ltb_ge _ _)), !(proj2 (Z.leb_gt _ _)) by lia.
    cbn [orb]. f_equal. lia.
Qed.

(** ** Witnesses *)

Definition pk15 : PaillierPublicKey := {| pk_N := 15; pk_N2 := 225 |}.
Definition sk15 : PaillierPrivateKey :=
  {| sk_N := 15; sk_N2 := 225; sk_lambda := 4; sk_mu := 4; sk_p := 3; sk_q := 5 |}.

Lemma pk15_ok : pk_ok pk15.
Proof. by vm_compute. Qed.

Lemma prime_5 : Z.prime 5.
Proof. split; [lia|]. intros n Hn [k Hk]. assert (n = 2 \/ n = 3 \/ n = 4) as [-> | [-> | ->]] by lia; lia. Qed.

Lemma add_homomorphic_witness :
  exists c1 c2, encrypt pk15 7 2 = Some c1 /\ encrypt pk15 11 4 = Some c2 /\
    add pk15 c1 c2 = encrypt pk15 3 8.
Proof.
  exact (add_homomorphic pk15 7 2 11 4 pk15_ok (conj (Zle_bool_imp_le 0 7 eq_refl) eq_refl)
           eq_refl eq_refl (conj (Zle_bool_imp_le 0 11 eq_refl) eq_refl) eq_refl eq_refl).
Defined.

Lemma decrypt_encrypt_witness : exists c, encrypt pk15 7 2 = Some c /\ decrypt sk15 c = Some 7.
Proof.
  exists (default [] (encrypt pk15 7 2)).
  assert (encrypt pk15 7 2 = Some (default [] (encrypt pk15 7 2))) as Hc by by vm_compute.
  split; [exact Hc|].
  refine (decrypt_encrypt 3 5 sk15 pk15 7 2 _ Z.prime_3 prime_5 _ _ _ _ _ _ Hc); by vm_compute.
Defined.
