(* ===== verification/Threshold.v ===== *)
(** * Threshold decryption of the tally

    [governance/dao_threshold.cpp]: integer Lagrange multipliers, partial
    decryption by the members of the committee, combination of their partial
    decryptions and the final normalisation.  The theorem is that any large
    enough subset of the committee recovers the plaintext. *)

From Stdlib Require Import Zcong.
From Stdlib Require Import Zmod Zstar.
From S2P Require Import Prelude Paillier.

Definition DAO_DKG_MIN_COMMITTEE_SIZE : Z := 3.
Definition DAO_DKG_MAX_COMMITTEE_SIZE : Z := 16.

Definition dao_dkg_expected_threshold (n : Z) : Z :=
  if (n <? DAO_DKG_MIN_COMMITTEE_SIZE) || (DAO_DKG_MAX_COMMITTEE_SIZE <? n)
  then 0 else (n + 1) / 2.

Definition dao_dkg_delta : Z := 20922789888000.

Definition modexp_signed (base exp_signed modulus : Z) : option Z :=
  if negb (exp_signed <? 0) then Some (BN_mod_exp base exp_signed modulus) else
  match BN_mod_inverse base modulus with
  | None => None
  | Some base_inv => Some (BN_mod_exp base_inv (Z.abs exp_signed) modulus)
  end.

Definition inverse_mod_signed (a n : Z) : option Z :=
  match BN_mod_inverse (Z.abs a) n with
  | None => None
  | Some inv => Some ((if a <? 0 then - inv else inv) mod n)
  end.

(** The loop over the subset: numerator and denominator. *)
Fixpoint lagrange_loop (i : Z) (subset : list Z) (num den : Z) : Z * Z :=
  match subset with
  | [] => (num, den)
  | j :: rest =>
      if j =? i then lagrange_loop i rest num den
      else lagrange_loop i rest (- (num * j)) (den * (i - j))
  end.

Definition dao_dkg_lagrange_mu (subset : list Z) (i : Z) : option Z :=
  if (length subset <? 2)%nat then None else
  if negb (existsb (fun s => s =? i) subset) then None else
  let '(num, den) := lagrange_loop i subset dao_dkg_delta 1 in
  if den =? 0 then None else
  if Z.rem num den =? 0 then Some (Z.quot num den) else None.

Definition dao_threshold_partial_decrypt
    (pk : PaillierPublicKey) (c_bytes : bytes) (share : Z) : option bytes :=
  if negb (length c_bytes =? PAILLIER_CT_BYTES)%nat then None else
  let c := BN_bin2bn c_bytes in
  let exp := share * dao_dkg_delta * 2 in
  match modexp_signed c exp (pk_N2 pk) with
  | None => None
  | Some result => BN_bn2binpad result PAILLIER_CT_BYTES
  end.

(** One round of the loop of [dao_threshold_combine]. *)
Definition combine_step (pk : PaillierPublicKey) (subset : list Z)
    (acc : option Z) (x : Z * bytes) : option Z :=
  match acc with
  | None => None
  | Some C =>
      let '(i, p) := x in
      if negb (length p =? PAILLIER_CT_BYTES)%nat then None else
      match dao_dkg_lagrange_mu subset i with
      | None => None
      | Some mu =>
          match modexp_signed (BN_bin2bn p) (mu * 2) (pk_N2 pk) with
          | None => None
          | Some term => Some ((C * term) mod pk_N2 pk)
          end
      end
  end.

Definition dao_threshold_combine (pk : PaillierPublicKey) (subset : list Z)
    (partials : list bytes) (threshold : Z) : option bytes :=
  if negb (length subset =? length partials)%nat then None else
  if threshold =? 0 then None else
  if zlen subset <? threshold then None else
  match fold_left (combine_step pk subset) (zip subset partials) (Some 1) with
  | None => None
  | Some C => BN_bn2binpad C PAILLIER_CT_BYTES
  end.

Definition dao_threshold_finalize
    (pk : PaillierPublicKey) (C_bytes : bytes) (theta_prime : Z) : option Z :=
  if negb (length C_bytes =? PAILLIER_CT_BYTES)%nat then None else
  let C := BN_bin2bn C_bytes in
  let L := Z.quot (C - 1) (pk_N pk) in
  let four_D2 := dao_dkg_delta * dao_dkg_delta * 4 in
  let coeff := - Z.abs (four_D2 * theta_prime) in
  match inverse_mod_signed coeff (pk_N pk) with
  | None => None
  | Some coeff_inv => Some ((L * coeff_inv) mod pk_N pk)
  end.

(** ** Interpolation over the integers *)

(** Functions given by a polynomial of degree below [n]. *)
Fixpoint poly (n : nat) (g : Z -> Z) : Prop :=
  match n with
  | O => forall x, g x = 0
  | S n' => exists c h, poly n' h /\ forall x, g x = c + x * h x
  end.

Lemma poly_ext n g g' : (forall x, g x = g' x) -> poly n g -> poly n g'.
Proof.
  destruct n as [|n]; cbn [poly]; intros He.
  - intros H x. by rewrite <- He.
  - intros (c & h & Hh & H). exists c, h. split; [done|]. intros x. by rewrite <- He.
Qed.

Lemma poly_zero n : poly n (fun _ => 0).
Proof. induction n; cbn [poly]; [done|]. exists 0, (fun _ => 0). split; [done|]. intros; lia. Qed.

Lemma poly_S n g : poly n g -> poly (S n) g.
Proof.
  revert g. induction n as [|n IH]; intros g.
  - intros H. apply (poly_ext _ (fun _ => 0)); [done|]. apply poly_zero.
  - intros (c & h & Hh & H). exists c, h. auto.
Qed.

Lemma poly_le n m g : (n <= m)%nat -> poly n g -> poly m g.
Proof. induction 1; auto using poly_S. Qed.

Lemma poly_add n g g' : poly n g -> poly n g' -> poly n (fun x => g x + g' x).
Proof.
  revert g g'. induction n as [|n IH]; cbn [poly]; intros g g'.
  - intros H1 H2 x. by rewrite H1, H2.
  - intros (c & h & Hh & H) (c' & h' & Hh' & H').
    exists (c + c'), (fun x => h x + h' x). split; [by apply IH|].
    intros x. rewrite H, H'. ring.
Qed.

Lemma poly_scale n a g : poly n g -> poly n (fun x => a * g x).
Proof.
  revert g. induction n as [|n IH]; cbn [poly]; intros g.
  - intros H x. rewrite H. ring.
  - intros (c & h & Hh & H). exists (a * c), (fun x => a * h x). split; [by apply IH|].
    intros x. rewrite H. ring.
Qed.

Lemma poly_root n a g : poly n g -> poly (S n) (fun x => (x - a) * g x).
Proof.
  intros Hg. apply (poly_ext _ (fun x => x * g x + (- a) * g x)); [intros; ring|].
  apply poly_add; [|by apply poly_S, poly_scale].
  exists 0, g. split; [done|]. intros; ring.
Qed.

(** Division by [x - a]. *)
Lemma poly_divide n g a : poly (S n) g ->
  exists h, poly n h /\ forall x, g x = g a + (x - a) * h x.
Proof.
  revert g. induction n as [|n IH]; intros g (c & h & Hh & H).
  - exists (fun _ => 0). split; [done|]. intros x. rewrite !H, !Hh. ring.
  - destruct (IH h Hh) as (k & Hk & Hx). exists (fun x => h x + a * k x).
    split; [apply poly_add; [done|by apply poly_S, poly_scale]|].
    intros x. rewrite !H. pose proof (Hx x). nia.
Qed.

Lemma poly_roots n g l : poly n g -> NoDup l -> length l = n ->
  (forall a, a ∈ l -> g a = 0) -> forall x, g x = 0.
Proof.
  revert g l. induction n as [|n IH]; intros g l Hg Hl Hn Hr; [done|].
  destruct l as [|a l]; [done|]. apply NoDup_cons in Hl as [Ha Hl].
  destruct (poly_divide n g a Hg) as (h & Hh & Hx). rewrite (Hr a) in Hx by left.
  intros x. rewrite Hx, (IH h l Hh Hl); [ring|by injection Hn|].
  intros b Hb. pose proof (Hr b ltac:(by right)) as Hg0. rewrite Hx in Hg0.
  assert (b <> a) by (by intros ->). nia.
Qed.

(** ** Lagrange multipliers *)

(** The product of [x - j] over the members [j] other than [i]. *)
Fixpoint basis (i : Z) (subset : list Z) (x : Z) : Z :=
  match subset with
  | [] => 1
  | j :: rest => if j =? i then basis i rest x else (x - j) * basis i rest x
  end.

Lemma lagrange_loop_spec i subset num den :
  lagrange_loop i subset num den = (num * basis i subset 0, den * basis i subset i).
Proof.
  revert num den. induction subset as [|j r IH]; intros num den; cbn [lagrange_loop basis].
  - by rewrite !Z.mul_1_r.
  - case_match; rewrite IH; [done|]. f_equal; ring.
Qed.

Lemma basis_poly i subset : poly (S (length subset)) (basis i subset).
Proof.
  induction subset as [|j r IH]; cbn [basis length].
  - exists 1, (fun _ => 0). split; [done|]. intros; ring.
  - case_match; [by apply poly_S|by apply poly_root].
Qed.

Lemma basis_poly_in i subset : i ∈ subset -> poly (length subset) (basis i subset).
Proof.
  induction subset as [|j r IH]; intros Hi; [by apply elem_of_nil in Hi|].
  cbn [basis length]. case_match eqn:Hj; to_prop.
  - apply basis_poly.
  - apply poly_root, IH. apply elem_of_cons in Hi as [->|]; [lia|done].
Qed.

Lemma basis_zero i k subset : k ∈ subset -> k <> i -> basis i subset k = 0.
Proof.
  induction subset as [|j r IH]; intros Hk Hi; [by apply elem_of_nil in Hk|].
  cbn [basis]. apply elem_of_cons in Hk as [->|Hk].
  - rewrite (proj2 (Z.eqb_neq _ _) Hi). lia.
  - rewrite (IH Hk Hi). case_match; lia.
Qed.

Lemma basis_nonzero i subset : basis i subset i <> 0.
Proof. induction subset as [|j r IH]; cbn [basis]; [done|]. case_match; to_prop; [done|nia]. Qed.

Lemma basis_app i l k x : basis i (l ++ k) x = basis i l x * basis i k x.
Proof. induction l as [|j r IH]; cbn [basis app]; [ring|]. case_match; rewrite IH; ring. Qed.

#[export] Instance basis_perm i : Proper ((≡ₚ) ==> eq ==> eq) (basis i).
Proof.
  intros l k Hlk x ? <-. induction Hlk; cbn [basis]; try congruence.
  - by rewrite IHHlk.
  - repeat case_match; ring.
Qed.

Definition committee : list Z := seqZ 1 DAO_DKG_MAX_COMMITTEE_SIZE.

Definition basis_table_ok : bool :=
  forallb (fun i => dao_dkg_delta mod basis i committee i =? 0) committee.

Lemma basis_divides_delta i subset :
  NoDup subset -> subset ⊆ committee -> i ∈ subset -> (basis i subset i | dao_dkg_delta).
Proof.
  intros Hd Hs Hi. apply NoDup_submseteq in Hs; [|done].
  apply submseteq_Permutation in Hs as [k Hk].
  assert ((basis i committee i | dao_dkg_delta)) as Hdiv.
  { assert (basis_table_ok = true) as Ht by by vm_compute.
    unfold basis_table_ok in Ht. rewrite forallb_Forall, Forall_forall in Ht.
    specialize (Ht i). rewrite Z.eqb_eq in Ht.
    apply Z.mod_divide; [apply basis_nonzero|]. apply Ht. rewrite Hk. apply elem_of_app. by left. }
  rewrite Hk, basis_app in Hdiv. destruct Hdiv as [e ->].
  exists (e * basis i k i). ring.
Qed.

Definition zsum (l : list Z) : Z := foldr Z.add 0 l.

Lemma poly_zsum {A} n (g : A -> Z -> Z) l :
  (forall a, a ∈ l -> poly n (g a)) -> poly n (fun x => zsum ((fun a => g a x) <$> l)).
Proof.
  induction l as [|a l IH]; intros H; [apply poly_zero|].
  apply (poly_ext n (fun x => g a x + zsum ((fun a => g a x) <$> l))); [done|]. apply poly_add.
  - apply H. left.
  - apply IH. intros b Hb. apply H. by right.
Qed.

Lemma zsum_pick (g : Z -> Z) k l : NoDup l -> k ∈ l -> (forall a, a ∈ l -> a <> k -> g a = 0) ->
  zsum (g <$> l) = g k.
Proof.
  induction l as [|a l IH]; intros Hd Hk Hz; [by apply elem_of_nil in Hk|].
  apply NoDup_cons in Hd as [Ha Hd]. change (g a + zsum (g <$> l) = g k).
  apply elem_of_cons in Hk as [->|Hk].
  - enough (zsum (g <$> l) = 0) by lia. clear IH Hd. induction l as [|b l IHl]; [done|].
    change (g b + zsum (g <$> l) = 0). rewrite IHl, (Hz b); [done|set_solver..].
  - rewrite (IH Hd Hk), (Hz a); [done|left|by intros ->|]. intros b Hb. apply Hz. by right.
Qed.

Section subset.
Context (subset : list Z).
Context (Hdup : NoDup subset) (Hsub : subset ⊆ committee) (Hlen : (2 <= length subset)%nat).

Definition cofactor (i : Z) : Z := dao_dkg_delta / basis i subset i.

Lemma cofactor_spec i : i ∈ subset -> cofactor i * basis i subset i = dao_dkg_delta.
Proof using Hdup Hsub.
  intros Hi. destruct (basis_divides_delta i subset Hdup Hsub Hi) as [e He].
  unfold cofactor. rewrite He, Z.div_mul; [done|]. apply basis_nonzero.
Qed.

(** The division is exact for every member of the subset. *)
Lemma lagrange_mu_spec i : i ∈ subset ->
  dao_dkg_lagrange_mu subset i = Some (cofactor i * basis i subset 0).
Proof using Hdup Hsub Hlen.
  intros Hi. unfold dao_dkg_lagrange_mu. rewrite (proj2 (Nat.ltb_ge _ _) Hlen).
  assert (existsb (fun s => s =? i) subset = true) as ->.
  { apply existsb_Exists, Exists_exists. exists i. rewrite Z.eqb_eq. done. }
  cbn [negb]. rewrite lagrange_loop_spec, Z.mul_1_l.
  rewrite (proj2 (Z.eqb_neq _ _) (basis_nonzero i subset)).
  rewrite <- (cofactor_spec i Hi).
  replace (cofactor i * basis i subset i * basis i subset 0)
    with (cofactor i * basis i subset 0 * basis i subset i) by ring.
  rewrite Z.rem_mul, Z.quot_mul by apply basis_nonzero. done.
Qed.

(** The multipliers evaluate every polynomial of degree below the size of the
    subset at 0. *)
Lemma lagrange_interpolation (f : Z -> Z) : poly (length subset) f ->
  zsum ((fun i => cofactor i * basis i subset 0 * f i) <$> subset) = dao_dkg_delta * f 0.
Proof using Hdup Hsub.
  clear Hlen. intros Hf.
  set (g := fun x => zsum ((fun i => f i * cofactor i * basis i subset x) <$> subset)
                     + (- dao_dkg_delta) * f x).
  assert (g 0 = 0) as Hg.
  { apply (poly_roots (length subset) g subset); [|done..|].
    - apply poly_add; [|by apply poly_scale].
      apply (poly_zsum _ (fun i x => f i * cofactor i * basis i subset x)).
      intros i Hi. by apply poly_scale, basis_poly_in.
    - intros k Hk. unfold g. rewrite (zsum_pick _ k subset Hdup Hk).
      + rewrite <- (cofactor_spec k Hk). ring.
      + intros i Hi Hik. rewrite basis_zero; [ring|done|congruence]. }
  unfold g in Hg.
  erewrite list_fmap_ext; [|intros ? i _; instantiate (1 := fun i => f i * cofactor i * basis i subset 0); cbn; ring].
  lia.
Qed.

End subset.

(** ** Combination *)

Lemma modexp_signed_spec b e M : 1 < M -> Z.coprime b M ->
  modexp_signed b e M = Some (unit_val (Zstar.pow (unit_of M b) e)).
Proof.
  intros HM Hb. unfold modexp_signed, BN_mod_inverse. destruct (e <? 0) eqn:He; to_prop; cbn [negb].
  - rewrite (proj2 (Z.eqb_eq _ _) Hb), BN_mod_exp_spec by lia. f_equal.
    rewrite <- unit_val_of by (apply Z.coprime_pow_l; [lia|by apply Z.coprime_invmod]).
    rewrite unit_of_pow, unit_of_inv by (by apply Z.coprime_invmod || done || lia). f_equal.
    rewrite <- (Zstar.pow_1_r (unit_of M b)) at 1.
    rewrite <- Zstar.pow_opp_r, <- Zstar.pow_mul_r. f_equal. lia.
  - rewrite BN_mod_exp_spec, <- unit_val_of, unit_of_pow
      by (lia || done || by apply Z.coprime_pow_l). done.
Qed.

Section threshold.
Context (pk : PaillierPublicKey) (Hpk : pk_ok pk).

Lemma partial_decrypt_spec c share : is_ct pk c ->
  dao_threshold_partial_decrypt pk c share =
  Some (ct_bytes pk (Zstar.pow (ct_unit pk c) (share * dao_dkg_delta * 2))).
Proof using Hpk.
  intros Hc. unfold dao_threshold_partial_decrypt.
  pose proof (proj1 (is_valid_ciphertext_true pk Hpk c) (proj1 Hc)) as (Hl & _ & _ & Hg).
  rewrite Hl, Nat.eqb_refl, modexp_signed_spec by (exact Hg || exact (pk_N2_pos pk Hpk)).
  by apply bn2binpad_unit.
Qed.

Lemma combine_step_spec subset acc i u mu : dao_dkg_lagrange_mu subset i = Some mu ->
  combine_step pk subset (Some (unit_val acc)) (i, ct_bytes pk u) =
  Some (unit_val (Zstar.mul acc (Zstar.pow u (mu * 2)))).
Proof using Hpk.
  intros Hmu. unfold combine_step.
  pose proof (proj1 (is_valid_ciphertext_true pk Hpk _) (proj1 (is_ct_bytes pk Hpk u)))
    as (Hl & _ & _ & Hg).
  rewrite Hl, Nat.eqb_refl, Hmu, modexp_signed_spec by (exact Hg || exact (pk_N2_pos pk Hpk)).
  fold (ct_unit pk (ct_bytes pk u)). by rewrite ct_unit_bytes, unit_val_mul.
Qed.

Lemma combine_fold (f : Z -> Z) (mu : Z -> Z) u subset l acc :
  (forall i, i ∈ l -> dao_dkg_lagrange_mu subset i = Some (mu i)) ->
  fold_left (combine_step pk subset)
    (zip l ((fun i => ct_bytes pk (Zstar.pow u (f i * dao_dkg_delta * 2))) <$> l))
    (Some (unit_val acc)) =
  Some (unit_val (Zstar.mul acc
    (Zstar.pow u (4 * dao_dkg_delta * zsum ((fun i => mu i * f i) <$> l))))).
Proof using Hpk.
  revert acc. induction l as [|i l IH]; intros acc Hmu.
  - cbn [zip zip_with fold_left fmap list_fmap zsum foldr].
    by rewrite Z.mul_0_r, Zstar.pow_0_r, Zstar.mul_1_r.
  - cbn [zip zip_with fold_left fmap list_fmap].
    rewrite (combine_step_spec _ _ _ _ (mu i) (Hmu i ltac:(left))).
    rewrite IH by (intros j Hj; apply Hmu; by right). do 2 f_equal.
    rewrite <- Zstar.mul_assoc, <- Zstar.pow_mul_r, <- Zstar.pow_add_r. do 2 f_equal.
    change (zsum (mu i * f i :: ((fun i => mu i * f i) <$> l)))
      with (mu i * f i + zsum ((fun i => mu i * f i) <$> l)). ring.
Qed.

Lemma combine_spec (f : Z -> Z) c subset T : is_ct pk c ->
  NoDup subset -> subset ⊆ committee -> (2 <= length subset)%nat ->
  0 < T <= zlen subset -> poly (Z.to_nat T) f ->
  dao_threshold_combine pk subset
    ((fun i => ct_bytes pk (Zstar.pow (ct_unit pk c) (f i * dao_dkg_delta * 2))) <$> subset) T =
  Some (ct_bytes pk (Zstar.pow (ct_unit pk c) (f 0 * (4 * (dao_dkg_delta * dao_dkg_delta))))).
Proof using Hpk.
  intros Hc Hd Hs Hl HT Hf. unfold dao_threshold_combine.
  rewrite length_fmap, Nat.eqb_refl, (proj2 (Z.eqb_neq T 0)), (proj2 (Z.ltb_ge _ _)) by lia.
  cbn [negb]. pose proof (pk_N2_pos pk Hpk).
  assert (1 = unit_val (@Zstar.one (pk_N2 pk))) as H1 by (rewrite unit_val_one, Z.mod_small; lia).
  rewrite H1 at 1.
  rewrite (combine_fold f (fun i => cofactor subset i * basis i subset 0))
    by (intros; by apply lagrange_mu_spec).
  rewrite bn2binpad_unit, Zstar.mul_1_l by done. do 3 f_equal.
  rewrite lagrange_interpolation; [ring|done..|].
  apply (poly_le (Z.to_nat T)); [unfold zlen in HT; lia|done].
Qed.

Lemma finalize_spec m d theta : 0 <= theta ->
  (d + theta) mod pk_N pk = 0 -> 0 <= m < pk_N pk ->
  Z.coprime (dao_dkg_delta * dao_dkg_delta * 4 * theta) (pk_N pk) ->
  dao_threshold_finalize pk
    (ct_bytes pk (unit_of (pk_N2 pk) (1 + m * (d * (4 * (dao_dkg_delta * dao_dkg_delta))) * pk_N pk)))
    theta = Some m.
Proof using Hpk.
  intros Ht Hd Hm Hg. destruct (proj1 Hpk) as [HN _]. unfold dao_threshold_finalize.
  pose proof (proj1 (is_valid_ciphertext_true pk Hpk _) (proj1 (is_ct_bytes pk Hpk
    (unit_of (pk_N2 pk) (1 + m * (d * (4 * (dao_dkg_delta * dao_dkg_delta))) * pk_N pk)))))
    as (Hl & _).
  rewrite Hl, Nat.eqb_refl. cbn [negb]. clear Hl. rewrite bin2bn_ct_bytes, L_1kN by done.
  set (D := dao_dkg_delta * dao_dkg_delta) in *.
  assert (0 < D) by by vm_compute. clearbody D.
  unfold inverse_mod_signed, BN_mod_inverse.
  rewrite Z.abs_opp, !Z.abs_eq, (proj2 (Z.eqb_eq _ _) Hg) by nia.
  assert (0 < theta).
  { enough (theta <> 0) by lia. intros ->. rewrite Z.mul_0_r in Hg.
    rewrite Z.coprime_0_l_iff in Hg. lia. }
  rewrite (proj2 (Z.ltb_lt _ _)) by nia. f_equal.
  rewrite <- Zmult_mod, Z.mul_opp_r, <- Z.mul_opp_l.
  pose proof (Z.invmod_coprime _ (pk_N pk) ltac:(lia) Hg) as Hi.
  set (v := Z.invmod (D * 4 * theta) (pk_N pk)) in *.
  apply Z.mod_divide in Hd as [e He]; [|lia].
  replace (- (m * (d * (4 * D))) * v)
    with (m * (v * (D * 4 * theta)) + (- (m * e * 4 * D * v)) * pk_N pk) by nia.
  rewrite Z_mod_plus_full, <- Zmult_mod_idemp_r, Hi, Z.mul_1_r. by apply Z.mod_small.
Qed.

End threshold.

(** What key generation promises: integer shares on a polynomial of degree below
    the threshold, whose value at 0 kills the units of the modulus and is the
    negative of the public normalisation parameter. *)
Record threshold_key (pk : PaillierPublicKey) (f : Z -> Z) (T theta : Z) : Prop := {
  tk_pk : pk_ok pk;
  tk_poly : poly (Z.to_nat T) f;
  tk_kills : kills (pk_N pk) (f 0);
  tk_theta : 0 <= theta /\ (f 0 + theta) mod pk_N pk = 0;
  tk_unit : Z.coprime (dao_dkg_delta * dao_dkg_delta * 4 * theta) (pk_N pk);
}.

(** A quorum of the committee. *)
Definition quorum (T : Z) (subset : list Z) : Prop :=
  NoDup subset /\ subset ⊆ committee /\ (2 <= length subset)%nat /\ 0 < T <= zlen subset.

Lemma mapM_partials pk (f : Z -> Z) c subset : pk_ok pk -> is_ct pk c ->
  mapM (fun i => dao_threshold_partial_decrypt pk c (f i)) subset =
  Some ((fun i => ct_bytes pk (Zstar.pow (ct_unit pk c) (f i * dao_dkg_delta * 2))) <$> subset).
Proof.
  intros Hpk Hc. apply mapM_Some. apply Forall2_fmap_r, Forall_Forall2_diag, Forall_true.
  intros i. by apply partial_decrypt_spec.
Qed.

Lemma threshold_recover pk f T theta m r subset :
  threshold_key pk f T theta -> quorum T subset ->
  0 <= m < pk_N pk -> Z.coprime r (pk_N pk) ->
  exists partials C,
    mapM (fun i => dao_threshold_partial_decrypt pk (ct_bytes pk (enc pk m r)) (f i)) subset
      = Some partials /\
    dao_threshold_combine pk subset partials T = Some C /\
    dao_threshold_finalize pk C theta = Some m.
Proof.
  intros [Hpk Hf Hk [Ht Hth] Hu] (Hd & Hs & Hl & HT) Hm Hr.
  pose proof (is_ct_bytes pk Hpk (enc pk m r)) as Hc.
  do 2 eexists. split; [|split].
  - apply mapM_partials; done.
  - by apply combine_spec.
  - rewrite ct_unit_bytes, enc_pow by done. by apply finalize_spec.
Qed.

(** C18: Any quorum of the committee decrypts: from an encryption of a plaintext
    below the modulus, the partial decryptions of any threshold many distinct
    members, combined and normalised, give the plaintext back. *)
Theorem threshold_decryption pk f T theta m r c subset :
  threshold_key pk f T theta -> quorum T subset ->
  0 <= m -> encrypt pk m r = Some c ->
  exists partials C,
    mapM (fun i => dao_threshold_partial_decrypt pk c (f i)) subset = Some partials /\
    dao_threshold_combine pk subset partials T = Some C /\
    dao_threshold_finalize pk C theta = Some m.
Proof.
  intros Hk Hq Hm Hc. pose proof (tk_pk _ _ _ _ Hk) as Hpk.
  apply encrypt_inv in Hc as (Hlt & Hr & ->); [|assumption..].
  by apply threshold_recover.
Qed.

(** ** Witness: a committee of three with modulus 17 * 19 *)

Definition pk323 : PaillierPublicKey := {| pk_N := 323; pk_N2 := 104329 |}.
Definition share323 (i : Z) : Z := 144 - 5 * i.
Definition theta323 : Z := 179.

Lemma prime_17 : Z.prime 17.
Proof.
  split; [lia|]. intros n Hn Hd. apply Z.mod_divide in Hd; [|lia].
  assert (forallb (fun n => negb (17 mod n =? 0)) (seqZ 2 15) = true) as Ht by by vm_compute.
  rewrite forallb_Forall, Forall_forall in Ht. specialize (Ht n).
  rewrite elem_of_seqZ, Hd in Ht. discriminate Ht. lia.
Qed.

Lemma prime_19 : Z.prime 19.
Proof.
  split; [lia|]. intros n Hn Hd. apply Z.mod_divide in Hd; [|lia].
  assert (forallb (fun n => negb (19 mod n =? 0)) (seqZ 2 17) = true) as Ht by by vm_compute.
  rewrite forallb_Forall, Forall_forall in Ht. specialize (Ht n).
  rewrite elem_of_seqZ, Hd in Ht. discriminate Ht. lia.
Qed.

Lemma key323 : threshold_key pk323 share323 2 theta323.
Proof.
  split.
  - by vm_compute.
  - exists 144, (fun _ => -5). split; [|intros; unfold share323; lia].
    exists (-5), (fun _ => 0). split; [done|]. intros; lia.
  - apply (primes_kill 17 19); [apply prime_17|apply prime_19|lia|by exists 9|by exists 8].
  - by vm_compute.
  - by vm_compute.
Qed.

Lemma quorum323 : quorum 2 [1; 3].
Proof.
  split; [apply (bool_decide_unpack (NoDup [1; 3])); by vm_compute|].
  split; [|split; [cbn; lia|vm_compute; split; congruence]].
  intros i. rewrite !elem_of_cons, elem_of_nil. unfold committee, DAO_DKG_MAX_COMMITTEE_SIZE.
  rewrite elem_of_seqZ. lia.
Qed.

Lemma threshold_decryption_witness : exists c partials C,
  encrypt pk323 42 5 = Some c /\
  mapM (fun i => dao_threshold_partial_decrypt pk323 c (share323 i)) [1; 3] = Some partials /\
  dao_threshold_combine pk323 [1; 3] partials 2 = Some C /\
  dao_threshold_finalize pk323 C theta323 = Some 42.
Proof.
  assert (encrypt pk323 42 5 = Some (default [] (encrypt pk323 42 5))) as Hc by by vm_compute.
  destruct (threshold_decryption pk323 share323 2 theta323 42 5 _ [1; 3] key323 quorum323
    (Zle_bool_imp_le 0 42 eq_refl) Hc) as (partials & C & H).
  exists (default [] (encrypt pk323 42 5)), partials, C. split; [exact Hc|exact H].
Defined.
