(* ===== verification/DkgProofs.v ===== *)
(** * Proofs of the key committee

    [governance/dao_dkg.cpp]: the verification keys of the members, the proof that
    a partial decryption was made with a member's share, and the range proof over
    a Pedersen group.  Random numbers are arguments.  The digests of OpenSSL are
    the class [Digests]. *)

From stdpp Require Import base list.
From Stdlib Require Import ZArith Lia Zcong.
From Stdlib Require Import Zmod Zstar.
From S2P Require Import Prelude Archive Paillier Threshold.
Open Scope Z_scope.

(** [shake256] gives 16 bytes. *)
Class Digests := { sha256 : bytes -> hash; shake256 : bytes -> bytes }.

Class DigestLaws `{Digests} := {
  length_sha256 m : length (sha256 m) = 32%nat;
  sha256_byte m : Forall is_byte (sha256 m);
}.

(** ** Signed numbers of fixed width *)

(** A sign byte, then the magnitude in [n] bytes. *)
Definition signed_pad (v : Z) (n : nat) : option bytes :=
  m ← BN_bn2binpad (Z.abs v) n;
  Some ((if v <? 0 then 1 else 0) :: m).

Definition signed_unpad (l : bytes) : option Z :=
  match l with
  | [] => None
  | s :: m =>
      if negb (s =? 0) && negb (s =? 1) then None else
      Some (if s =? 1 then - BN_bin2bn m else BN_bin2bn m)
  end.

Lemma signed_pad_length v n l : signed_pad v n = Some l -> length l = S n.
Proof.
  unfold signed_pad. intros E. apply bind_Some in E as (m & E & [= <-]). cbn. f_equal. by apply length_BN_bn2binpad in E.
Qed.

Lemma signed_unpad_pad v n l : signed_pad v n = Some l -> signed_unpad l = Some v.
Proof.
  unfold signed_pad. intros E. apply bind_Some in E as (m & E & [= <-]). apply BN_bin2bn_bn2binpad in E; [|lia].
  unfold signed_unpad. rewrite E. destruct (Z.ltb_spec v 0); cbn; f_equal; lia.
Qed.

Lemma signed_pad_fits v n : Z.abs v < 256 ^ Z.of_nat n -> exists l, signed_pad v n = Some l.
Proof.
  intros Hv. destruct (BN_bn2binpad_fits (Z.abs v) n) as [m E]; [lia|]. unfold signed_pad. rewrite E. by eexists.
Qed.

(** ** Partial decryptions *)

Definition DAO_DKG_PARTIAL_PROOF_Z_BYTES : nat := 1200.

Record dao_partial_decryption_proof := {
  pp_member_index : Z; pp_E : bytes; pp_Z : bytes;
}.

(** The sign of the exponent is ignored. *)
Definition dao_derive_verification_key (pk : PaillierPublicKey) (V_K : bytes) (share : Z) : option bytes :=
  if negb (length V_K =? PAILLIER_CT_BYTES)%nat then None else
  Some (binpad (BN_mod_exp (BN_bin2bn V_K) (dao_dkg_delta * share) (pk_N2 pk)) PAILLIER_CT_BYTES).

Section partial.
Context `{Digests}.

Definition challenge_hash (a b c4 ci2 : bytes) : Z := BN_bin2bn (sha256 (a ++ b ++ c4 ++ ci2)).

Definition dao_partial_decryption_prove (pk : PaillierPublicKey) (V_K V_K_i : bytes) (member_index : Z)
    (c_bytes c_i_bytes : bytes) (share randomness : Z) : option dao_partial_decryption_proof :=
  if negb (length c_bytes =? PAILLIER_CT_BYTES)%nat then None else
  if negb (length c_i_bytes =? PAILLIER_CT_BYTES)%nat then None else
  if negb (length V_K =? PAILLIER_CT_BYTES)%nat then None else
  if negb (length V_K_i =? PAILLIER_CT_BYTES)%nat then None else
  let N2 := pk_N2 pk in
  let c4 := BN_mod_exp (BN_bin2bn c_bytes) 4 N2 in
  let ci2 := (BN_bin2bn c_i_bytes * BN_bin2bn c_i_bytes) mod N2 in
  let a := BN_mod_exp c4 randomness N2 in
  let b := BN_mod_exp (BN_bin2bn V_K) randomness N2 in
  let E := challenge_hash (binpad a PAILLIER_CT_BYTES) (binpad b PAILLIER_CT_BYTES)
             (binpad c4 PAILLIER_CT_BYTES) (binpad ci2 PAILLIER_CT_BYTES) in
  let Zr := randomness + E * dao_dkg_delta * share in
  z ← signed_pad Zr (DAO_DKG_PARTIAL_PROOF_Z_BYTES - 1);
  Some {| pp_member_index := member_index; pp_E := binpad E 32; pp_Z := z |}.

Definition dao_partial_decryption_verify (pk : PaillierPublicKey) (V_K V_K_i : bytes) (member_index : Z)
    (c_bytes c_i_bytes : bytes) (proof : dao_partial_decryption_proof) : bool :=
  if negb (pp_member_index proof =? member_index) then false else
  if negb (length (pp_E proof) =? 32)%nat then false else
  if negb (length (pp_Z proof) =? DAO_DKG_PARTIAL_PROOF_Z_BYTES)%nat then false else
  if negb (length V_K =? PAILLIER_CT_BYTES)%nat then false else
  if negb (length V_K_i =? PAILLIER_CT_BYTES)%nat then false else
  match signed_unpad (pp_Z proof) with
  | None => false
  | Some Zr =>
    let N2 := pk_N2 pk in
    let E := BN_bin2bn (pp_E proof) in
    let c4 := BN_mod_exp (BN_bin2bn c_bytes) 4 N2 in
    let ci2 := (BN_bin2bn c_i_bytes * BN_bin2bn c_i_bytes) mod N2 in
    match modexp_signed c4 Zr N2, modexp_signed ci2 (- E) N2,
          modexp_signed (BN_bin2bn V_K) Zr N2, modexp_signed (BN_bin2bn V_K_i) (- E) N2 with
    | Some a1, Some a2, Some b1, Some b2 =>
        E =? challenge_hash (binpad ((a1 * a2) mod N2) PAILLIER_CT_BYTES) (binpad ((b1 * b2) mod N2) PAILLIER_CT_BYTES)
               (binpad c4 PAILLIER_CT_BYTES) (binpad ci2 PAILLIER_CT_BYTES)
    | _, _, _, _ => false
    end
  end.

End partial.

(** ** Arithmetic of the code on the units of a modulus *)

Section modulus.
Context (M : Z) (HM : 1 < M).
Implicit Types (u v : Zstar.Zstar M).

Lemma mod_exp_of b e : Z.coprime b M -> 0 <= e -> BN_mod_exp b e M = unit_val (Zstar.pow (unit_of M b) e).
Proof using HM.
  intros Hb He. rewrite BN_mod_exp_spec, <- unit_of_pow by (done || lia).
  symmetry. apply unit_val_of. by apply Z.coprime_pow_l.
Qed.

Lemma mod_exp_unit u e : 0 <= e -> BN_mod_exp (unit_val u) e M = unit_val (Zstar.pow u e).
Proof using HM. intros He. rewrite mod_exp_of by (done || apply unit_val_coprime). by rewrite unit_of_val. Qed.

Lemma modexp_unit u e : modexp_signed (unit_val u) e M = Some (unit_val (Zstar.pow u e)).
Proof using HM. rewrite modexp_signed_spec by (done || apply unit_val_coprime). by rewrite unit_of_val. Qed.

Lemma mod_inverse_unit u : BN_mod_inverse (unit_val u) M = Some (unit_val (Zstar.inv u)).
Proof using HM.
  unfold BN_mod_inverse. pose proof (unit_val_coprime u) as Hu. rewrite (proj2 (Z.eqb_eq _ _) Hu). f_equal.
  rewrite <- (unit_of_val u) at 2. rewrite <- unit_of_inv, unit_val_of by (done || by apply Z.coprime_invmod).
  by rewrite Z.mod_invmod.
Qed.

Lemma mul_self u : Zstar.mul u u = Zstar.pow u 2.
Proof. change 2 with (1 + 1). by rewrite Zstar.pow_add_r, !Zstar.pow_1_r. Qed.

End modulus.

(** Products of powers of one unit. *)
Ltac one_base :=
  rewrite ?mul_self, <- ?Zstar.pow_opp_r, <- ?Zstar.pow_mul_r, <- ?Zstar.pow_add_r; f_equal; ring.

(** *** A member's proof is accepted *)

Section partial_complete.
Context `{DigestLaws} (pk : PaillierPublicKey) (Hpk : pk_ok pk).

Lemma challenge_hash_range a b c d : 0 <= challenge_hash a b c d < 256 ^ Z.of_nat 32.
Proof.
  unfold challenge_hash, BN_bin2bn. set (m := a ++ b ++ c ++ d). rewrite rev_alt.
  pose proof (le_val_range _ (proj2 (Forall_reverse _ _) (sha256_byte m))) as R. unfold zlen in R.
  by rewrite length_reverse, length_sha256 in R.
Qed.

(** The verification key of a share, of either sign. *)
Definition verification_key (V : bytes) (share : Z) : bytes := ct_bytes pk (Zstar.pow (ct_unit pk V) (dao_dkg_delta * share)).

Lemma derive_verification_key_spec V share : is_ct pk V -> 0 <= share ->
  dao_derive_verification_key pk V share = Some (verification_key V share).
Proof using Hpk.
  intros HV Hs. pose proof (proj1 (is_valid_ciphertext_true pk Hpk V) (proj1 HV)) as (Hl & _).
  unfold dao_derive_verification_key. rewrite Hl, Nat.eqb_refl. cbn [negb]. f_equal.
  rewrite <- (unit_val_ct pk Hpk V HV), mod_exp_unit by (apply pk_N2_pos, Hpk || unfold dao_dkg_delta; lia). by apply binpad_unit.
Qed.

Lemma partial_proof_complete V i c ci share r : is_ct pk V -> is_ct pk c -> 0 <= r ->
  dao_threshold_partial_decrypt pk c share = Some ci ->
  (forall E, 0 <= E < 256 ^ 32 -> Z.abs (r + E * dao_dkg_delta * share) < 256 ^ 1199) ->
  exists proof, dao_partial_decryption_prove pk V (verification_key V share) i c ci share r = Some proof /\
    pp_member_index proof = i /\
    dao_partial_decryption_verify pk V (verification_key V share) i c ci proof = true.
Proof using All.
  intros HV Hc Hr Eci Hz. rewrite (partial_decrypt_spec pk Hpk) in Eci by done. injection Eci as <-.
  pose proof (pk_N2_pos pk Hpk) as HM. set (v := ct_unit pk V). set (u := ct_unit pk c).
  pose proof (proj1 (is_valid_ciphertext_true pk Hpk V) (proj1 HV)) as (HlV & _).
  pose proof (proj1 (is_valid_ciphertext_true pk Hpk c) (proj1 Hc)) as (Hlc & _).
  pose proof (unit_val_ct pk Hpk V HV) as EV. pose proof (unit_val_ct pk Hpk c Hc) as Ec. fold v in EV. fold u in Ec.
  unfold dao_partial_decryption_prove, verification_key. fold v.
  rewrite HlV, Hlc, !(length_ct_bytes pk Hpk), !Nat.eqb_refl. cbn [negb].
  rewrite <- EV, <- Ec, !(bin2bn_ct_bytes pk Hpk), <- unit_val_mul, (mod_exp_unit _ HM u 4) by lia.
  rewrite !(mod_exp_unit _ HM) by done. rewrite !(binpad_unit pk Hpk).
  match goal with |- context [challenge_hash ?a ?b ?c ?d] =>
    pose proof (challenge_hash_range a b c d) as HE; set (E := challenge_hash a b c d) in * end.
  destruct (signed_pad_fits (r + E * dao_dkg_delta * share) (DAO_DKG_PARTIAL_PROOF_Z_BYTES - 1)) as [z Ez]; [by apply Hz|].
  rewrite Ez. cbn [mbind option_bind]. eexists. split; [done|]. split; [done|].
  unfold dao_partial_decryption_verify. cbn [pp_member_index pp_E pp_Z].
  rewrite Z.eqb_refl, length_binpad, (signed_pad_length _ _ _ Ez), HlV, (length_ct_bytes pk Hpk), !Nat.eqb_refl.
  change (S (DAO_DKG_PARTIAL_PROOF_Z_BYTES - 1) =? DAO_DKG_PARTIAL_PROOF_Z_BYTES)%nat with true. cbn [negb].
  rewrite (signed_unpad_pad _ _ _ Ez), (bin2bn_binpad E 32) by exact HE.
  rewrite <- EV, <- Ec, !(bin2bn_ct_bytes pk Hpk), <- unit_val_mul, (mod_exp_unit _ HM u 4) by lia.
  rewrite !(modexp_unit _ HM), <- !unit_val_mul, !(binpad_unit pk Hpk).
  apply Z.eqb_eq. subst E. do 2 f_equal; one_base.
Qed.

End partial_complete.

(** ** A model of the digests, and a base for the keys of the example *)

#[export] Instance toy_digests : Digests := { sha256 m := le_bytes 32 (zsum m); shake256 m := le_bytes 16 (zsum m) }.

#[export] Instance toy_digest_laws : DigestLaws.
Proof. split; intros m; [apply length_le_bytes|apply le_bytes_byte]. Qed.

Lemma is_ct_dec pk c : is_valid_ciphertext pk c && bool_decide (Forall is_byte c) = true -> is_ct pk c.
Proof. rewrite andb_true_iff, bool_decide_eq_true. done. Qed.

Definition V323 : bytes := rev (le_bytes PAILLIER_CT_BYTES 4).

Lemma V323_ct : is_ct pk323 V323.
Proof. apply is_ct_dec. vm_compute. reflexivity. Qed.
