(* ===== verification/Pedersen.v ===== *)
(** * Pedersen commitments of the key committee

    [governance/dao_dkg.cpp]: secret sharing with Pedersen commitments
    ([dao_vss_deal], [dao_vss_verify_share]) and the proof that a committed value
    lies in a range ([dao_range_prove], [dao_range_verify]), with its encoding.
    A secret that is dealt is always dealt successfully and every share verifies;
    an honest range proof is accepted. *)

From Stdlib Require Import Zcong.
From Stdlib Require Import Zmod Zstar.
From S2P Require Import Prelude Archive Paillier Threshold DkgProofs.

(** ** The group *)

(** [valid()] holds: no pointer is null. *)
Record dao_vss_group := { vss_P : Z; vss_P_prime : Z; vss_g : Z; vss_h : Z }.

Definition BN_num_bits (v : Z) : Z := if v =? 0 then 0 else Z.log2 (Z.abs v) + 1.

(** [g^a h^b]. *)
Definition commit (grp : dao_vss_group) (a b : Z) : Z :=
  (BN_mod_exp (vss_g grp) a (vss_P grp) * BN_mod_exp (vss_h grp) b (vss_P grp)) mod vss_P grp.

(** ** Sharing a secret *)

(** The product of the commitments, to the powers of [i]. *)
Fixpoint vss_rhs (grp : dao_vss_group) (i : Z) (C : list bytes) (rhs pow : Z) : Z :=
  match C with
  | [] => rhs
  | C_k :: rest =>
      vss_rhs grp i rest ((rhs * BN_mod_exp (BN_bin2bn C_k) pow (vss_P grp)) mod vss_P grp)
        ((pow * i) mod vss_P_prime grp)
  end.

Definition dao_vss_verify_share (grp : dao_vss_group) (C : list bytes) (n i share blinding : Z) : bool :=
  if (i =? 0) || (n <? i) then false else
  if is_empty C then false else
  commit grp share blinding =? vss_rhs grp i C 1 1.

(** [n + n^2 + ... + n^t]. *)
Fixpoint sum_pow (n : Z) (t : nat) : Z :=
  match t with
  | O => 0
  | S t' => sum_pow n t' + n ^ Z.of_nat t
  end.

Definition vss_a_limit (grp : dao_vss_group) (secret n : Z) (t : nat) : Z :=
  if (t =? 0)%nat || (sum_pow n t =? 0) then 0
  else Z.quot (vss_P_prime grp - 1 - secret) (sum_pow n t).

Definition vss_b_limit (grp : dao_vss_group) (n : Z) (t : nat) : Z :=
  Z.quot (vss_P_prime grp - 1) (sum_pow n t + 1).

(** The value at [i] of the polynomial with these coefficients. *)
Fixpoint evaluate (coeffs : list Z) (i pow : Z) : Z :=
  match coeffs with
  | [] => 0
  | a :: rest => a * pow + evaluate rest i (pow * i)
  end.

Record vss_dealt := {
  vd_C : list bytes;
  vd_shares : list Z;
  vd_blindings : list Z;
  vd_constant_blinding : Z;
}.

(** [a] are the coefficients 1 to [degree] drawn up to the limit [vss_a_limit],
    [b] the [degree + 1] blinding coefficients drawn up to [vss_b_limit].  The
    exponentiation in constant time refuses an even modulus. *)
Definition dao_vss_deal (grp : dao_vss_group) (secret n : Z) (a b : list Z) : option vss_dealt :=
  let degree := length a in
  if n <? Z.of_nat degree + 1 then None else
  if secret <? 0 then None else
  if vss_P_prime grp <=? secret then None else
  if Z.even (vss_P grp) then None else
  let a := secret :: a in
  let C := zip_with (fun x y => binpad (commit grp x y) (BN_num_bytes (vss_P grp))) a b in
  let points := seqZ 1 n in
  let shares := (fun i => evaluate a i 1) <$> points in
  let blindings := (fun i => evaluate b i 1) <$> points in
  if existsb (fun s => vss_P_prime grp <=? s) (shares ++ blindings) then None else
  if negb (forallb (fun x => dao_vss_verify_share grp C n (fst x) (fst (snd x)) (snd (snd x)))
             (zip points (zip shares blindings))) then None else
  Some {| vd_C := C; vd_shares := shares; vd_blindings := blindings; vd_constant_blinding := nth 0 b 0 |}.

(** ** Range proofs *)

Record dao_bit_or_proof := {
  br_A_0 : bytes; br_A_1 : bytes; br_c_0 : bytes; br_c_1 : bytes; br_z_0 : bytes; br_z_1 : bytes;
}.

Record dao_range_proof := {
  rp_bits : Z;
  rp_bit_commitments : list bytes;
  rp_bit_proofs : list dao_bit_or_proof;
  rp_link_a : bytes;
  rp_link_z : bytes;
}.

(** What the prover draws for a bit. *)
Record bit_random := { bit_rho : Z; bit_a : Z; bit_c : Z; bit_z : Z }.

(** [bytes_to_bn]: no number for no bytes. *)
Definition bytes_to_bn (l : bytes) : option Z := if is_empty l then None else Some (BN_bin2bn l).

Definition u32be (x : Z) : bytes := rev (le_bytes 4 x).

Section range.
Context `{Digests} (grp : dao_vss_group).
Let P := vss_P grp.
Let P' := vss_P_prime grp.
Let P_bytes := BN_num_bytes (vss_P grp).
Let Pp_bytes := BN_num_bytes (vss_P_prime grp).

Definition fs_challenge_bn (input : bytes) : Z := BN_bin2bn (sha256 input) mod P'.

Definition bit_challenge (party_id value_tag C_x j B A0 A1 : Z) : Z :=
  fs_challenge_bn (str "VeilRoot-DAO-DKG-RANGE-BIT-V1" ++ u32be party_id ++ u32be value_tag ++
    binpad C_x P_bytes ++ u32be j ++ binpad B P_bytes ++ binpad A0 P_bytes ++ binpad A1 P_bytes).

Definition link_challenge (party_id value_tag C_x : Z) (B : list Z) (D A : Z) : Z :=
  fs_challenge_bn (str "VeilRoot-DAO-DKG-RANGE-LINK-V1" ++ u32be party_id ++ u32be value_tag ++
    binpad C_x P_bytes ++ concat (map (fun b => binpad b P_bytes) B) ++ binpad D P_bytes ++ binpad A P_bytes).

(** The product of the bit commitments, the commitment of bit [j] to the power
    [2^j]. *)
Fixpoint bit_product (j : Z) (B : list Z) (prod : Z) : Z :=
  match B with
  | [] => prod
  | b :: rest => bit_product (j + 1) rest ((prod * BN_mod_exp b (Z.shiftl 1 j) P) mod P)
  end.

Fixpoint link_delta (j : Z) (rhos : list Z) (delta : Z) : Z :=
  match rhos with
  | [] => delta
  | r :: rest => link_delta (j + 1) rest ((delta - (r * Z.shiftl 1 j) mod P') mod P')
  end.

(** The commitment to a bit of [x]. *)
Definition bit_commitment (x j rho : Z) : Z :=
  ((if Z.testbit x j then vss_g grp else 1) * BN_mod_exp (vss_h grp) rho P) mod P.

(** The proof that the commitment [B] is to 0 or to 1; [b] is the bit.  The
    inverses are not checked by the code: they exist for an honest group. *)
Definition prove_bit (party_id value_tag C_x j B : Z) (b : bool) (r : bit_random) : option dao_bit_or_proof :=
  g_inv ← BN_mod_inverse (vss_g grp) P;
  let X0 := B in
  let X1 := (B * g_inv) mod P in
  let A_real := BN_mod_exp (vss_h grp) (bit_a r) P in
  let X_false := if b then X0 else X1 in
  Xf_c_inv ← BN_mod_inverse (BN_mod_exp X_false (bit_c r) P) P;
  let A_false := (BN_mod_exp (vss_h grp) (bit_z r) P * Xf_c_inv) mod P in
  let A0 := if b then A_false else A_real in
  let A1 := if b then A_real else A_false in
  let e := bit_challenge party_id value_tag C_x j B A0 A1 in
  let c_real := (e - bit_c r) mod P' in
  let z_real := (bit_a r + (c_real * bit_rho r) mod P') mod P' in
  let c0 := if b then bit_c r else c_real in
  let c1 := if b then c_real else bit_c r in
  let z0 := if b then bit_z r else z_real in
  let z1 := if b then z_real else bit_z r in
  Some {| br_A_0 := binpad A0 P_bytes; br_A_1 := binpad A1 P_bytes; br_c_0 := binpad c0 Pp_bytes;
          br_c_1 := binpad c1 Pp_bytes; br_z_0 := binpad z0 Pp_bytes; br_z_1 := binpad z1 Pp_bytes |}.

(** [rnd j] is drawn for bit [j], [u] for the link. *)
Definition dao_range_prove (party_id value_tag x rho_x C_x bits : Z) (rnd : nat -> bit_random) (u : Z)
    : option dao_range_proof :=
  if (bits =? 0) || (4096 <? bits) then None else
  if (x <? 0) || (rho_x <? 0) then None else
  if bits <? BN_num_bits x then None else
  if Z.even P then None else
  let js := seq 0 (Z.to_nat bits) in
  let B := map (fun j => bit_commitment x (Z.of_nat j) (bit_rho (rnd j))) js in
  prod_inv ← BN_mod_inverse (bit_product 0 B 1) P;
  let D := (C_x * prod_inv) mod P in
  let delta := link_delta 0 (map (fun j => bit_rho (rnd j)) js) rho_x in
  bit_proofs ← mapM (fun j => prove_bit party_id value_tag C_x (Z.of_nat j)
      (bit_commitment x (Z.of_nat j) (bit_rho (rnd j))) (Z.testbit x (Z.of_nat j)) (rnd j)) js;
  let A_link := BN_mod_exp (vss_h grp) u P in
  let e_link := link_challenge party_id value_tag C_x B D A_link in
  let z_link := (u + (e_link * delta) mod P') mod P' in
  Some {| rp_bits := bits; rp_bit_commitments := map (fun b => binpad b P_bytes) B; rp_bit_proofs := bit_proofs;
          rp_link_a := binpad A_link P_bytes; rp_link_z := binpad z_link Pp_bytes |}.

Definition or_branch_ok (z c A X : Z) : bool := BN_mod_exp (vss_h grp) z P =? (A * BN_mod_exp X c P) mod P.

Definition verify_bit (party_id value_tag C_x j B : Z) (bp : dao_bit_or_proof) : bool :=
  match bytes_to_bn (br_A_0 bp), bytes_to_bn (br_A_1 bp), bytes_to_bn (br_c_0 bp), bytes_to_bn (br_c_1 bp),
        bytes_to_bn (br_z_0 bp), bytes_to_bn (br_z_1 bp), BN_mod_inverse (vss_g grp) P with
  | Some A0, Some A1, Some c0, Some c1, Some z0, Some z1, Some g_inv =>
      let X1 := (B * g_inv) mod P in
      ((c0 + c1) mod P' =? bit_challenge party_id value_tag C_x j B A0 A1) &&
      or_branch_ok z0 c0 A0 B && or_branch_ok z1 c1 A1 X1
  | _, _, _, _, _, _, _ => false
  end.

Definition dao_range_verify (party_id value_tag C_x : Z) (proof : dao_range_proof) : bool :=
  if (rp_bits proof =? 0) || (4096 <? rp_bits proof) then false else
  if negb (zlen (rp_bit_commitments proof) =? rp_bits proof) then false else
  if negb (zlen (rp_bit_proofs proof) =? rp_bits proof) then false else
  match mapM bytes_to_bn (rp_bit_commitments proof) with
  | None => false
  | Some B =>
      if negb (forallb (fun x => verify_bit party_id value_tag C_x (Z.of_nat (fst x)) (fst (snd x)) (snd (snd x)))
                 (zip (seq 0 (length B)) (zip B (rp_bit_proofs proof)))) then false else
      match BN_mod_inverse (bit_product 0 B 1) P, bytes_to_bn (rp_link_a proof), bytes_to_bn (rp_link_z proof) with
      | Some prod_inv, Some A_link, Some z_link =>
          let D := (C_x * prod_inv) mod P in
          or_branch_ok z_link (link_challenge party_id value_tag C_x B D A_link) A_link D
      | _, _, _ => false
      end
  end.

End range.

(** *** Encoding *)

Definition push_bytes (l : bytes) : bytes := le_bytes 4 (zlen l) ++ l.

Definition pull_bytes : reader bytes := fun d =>
  '(n, d) ← read_le 4 d; read_raw (Z.to_nat n) d.

Definition write_bit_proof (p : dao_bit_or_proof) : bytes :=
  push_bytes (br_A_0 p) ++ push_bytes (br_A_1 p) ++ push_bytes (br_c_0 p) ++ push_bytes (br_c_1 p) ++
  push_bytes (br_z_0 p) ++ push_bytes (br_z_1 p).

Definition range_proof_serialize (p : dao_range_proof) : bytes :=
  le_bytes 4 (rp_bits p) ++ le_bytes 4 (zlen (rp_bit_commitments p)) ++ concat (map push_bytes (rp_bit_commitments p)) ++
  le_bytes 4 (zlen (rp_bit_proofs p)) ++ concat (map write_bit_proof (rp_bit_proofs p)) ++
  push_bytes (rp_link_a p) ++ push_bytes (rp_link_z p).

Definition read_bit_proof : reader dao_bit_or_proof := fun d =>
  '(A0, d) ← pull_bytes d; '(A1, d) ← pull_bytes d; '(c0, d) ← pull_bytes d; '(c1, d) ← pull_bytes d;
  '(z0, d) ← pull_bytes d; '(z1, d) ← pull_bytes d;
  Some ({| br_A_0 := A0; br_A_1 := A1; br_c_0 := c0; br_c_1 := c1; br_z_0 := z0; br_z_1 := z1 |}, d).

Definition read_range_proof : reader dao_range_proof := fun d =>
  '(b, d) ← read_le 4 d;
  if (b =? 0) || (4096 <? b) then None else
  '(nc, d) ← read_le 4 d;
  if negb (nc =? b) then None else
  '(cs, d) ← read_n pull_bytes (Z.to_nat nc) d;
  '(np, d) ← read_le 4 d;
  if negb (np =? b) then None else
  '(ps, d) ← read_n read_bit_proof (Z.to_nat np) d;
  '(la, d) ← pull_bytes d; '(lz, d) ← pull_bytes d;
  Some ({| rp_bits := b; rp_bit_commitments := cs; rp_bit_proofs := ps; rp_link_a := la; rp_link_z := lz |}, d).

Definition range_proof_deserialize (inp : bytes) : option dao_range_proof := parse_all read_range_proof inp.

(** ** Arithmetic of commitments *)

Lemma num_bytes_fit v : Z.abs v < 256 ^ Z.of_nat (BN_num_bytes v).
Proof.
  unfold BN_num_bytes. case_match; to_prop; [by subst|]. pose proof (Z.log2_nonneg (Z.abs v)).
  rewrite Z2Nat.id by (pose proof (Z.div_pos (Z.log2 (Z.abs v)) 8); lia).
  change 256 with (2 ^ 8). rewrite <- Z.pow_mul_r by (try lia; pose proof (Z.div_pos (Z.log2 (Z.abs v)) 8); lia).
  apply Z.lt_le_trans with (2 ^ Z.succ (Z.log2 (Z.abs v))); [apply Z.log2_spec; lia|].
  apply Z.pow_le_mono_r; [lia|]. pose proof (Z.mod_pos_bound (Z.log2 (Z.abs v)) 8).
  pose proof (Z_div_mod_eq_full (Z.log2 (Z.abs v)) 8). lia.
Qed.

Lemma num_bytes_pos v : v <> 0 -> (0 < BN_num_bytes v)%nat.
Proof.
  intros Hv. unfold BN_num_bytes. rewrite (proj2 (Z.eqb_neq _ _) Hv).
  pose proof (Z.div_pos (Z.log2 (Z.abs v)) 8 (Z.log2_nonneg _)). lia.
Qed.

(** What group generation promises. *)
Record vss_ok (grp : dao_vss_group) : Prop := {
  vok_P_prime : 1 < vss_P_prime grp;
  vok_safe : vss_P grp = 2 * vss_P_prime grp + 1;
  vok_g : Z.coprime (vss_g grp) (vss_P grp);
  vok_h : Z.coprime (vss_h grp) (vss_P grp);
  vok_g_order : Zstar.pow (unit_of (vss_P grp) (vss_g grp)) (vss_P_prime grp) = Zstar.one;
  vok_h_order : Zstar.pow (unit_of (vss_P grp) (vss_h grp)) (vss_P_prime grp) = Zstar.one;
}.

Lemma vok_P grp : vss_ok grp -> 1 < vss_P grp.
Proof. intros [? ? _]. lia. Qed.

Lemma vok_odd grp : vss_ok grp -> Z.even (vss_P grp) = false.
Proof. intros [_ -> _ _ _ _]. by rewrite Z.even_add, Z.even_mul. Qed.

Section commitments.
Context (grp : dao_vss_group) (Hg : vss_ok grp).
Notation P := (vss_P grp).
Notation P' := (vss_P_prime grp).

Definition ped (a b : Z) : Zstar.Zstar P := Zstar.mul (Zstar.pow (unit_of P (vss_g grp)) a) (Zstar.pow (unit_of P (vss_h grp)) b).

Lemma ped_mul a b c d : Zstar.mul (ped a b) (ped c d) = ped (a + c) (b + d).
Proof.
  unfold ped. rewrite !Zstar.pow_add_r, <- !Zstar.mul_assoc. f_equal.
  rewrite !Zstar.mul_assoc. f_equal. apply Zstar.mul_comm.
Qed.

Lemma ped_pow a b e : Zstar.pow (ped a b) e = ped (a * e) (b * e).
Proof. unfold ped. by rewrite Zstar.pow_mul_l, <- !Zstar.pow_mul_r. Qed.

Lemma ped_one : Zstar.one = ped 0 0.
Proof. unfold ped. by rewrite !Zstar.pow_0_r, Zstar.mul_1_r. Qed.

Lemma ped_inv a b : Zstar.inv (ped a b) = ped (- a) (- b).
Proof. apply Zstar.eq_inv_iff. rewrite ped_mul, ped_one. f_equal; ring. Qed.

(** Exponents count modulo the order. *)
Lemma pow_order {M} (u : Zstar.Zstar M) n a b : Zstar.pow u n = Zstar.one -> a ≡[n] b -> Zstar.pow u a = Zstar.pow u b.
Proof.
  intros Hu [E]. rewrite (Z_div_mod_eq_full a n), (Z_div_mod_eq_full b n), E.
  by rewrite !Zstar.pow_add_r, !Zstar.pow_mul_r, Hu, !Zstar.pow_1_l.
Qed.

Lemma ped_eq a b c d : a ≡[P'] c -> b ≡[P'] d -> ped a b = ped c d.
Proof using Hg. intros Ha Hb. unfold ped. f_equal; apply (pow_order _ P'); try done; apply Hg. Qed.

Lemma pval_mul a b c d : (unit_val (ped a b) * unit_val (ped c d)) mod P = unit_val (ped (a + c) (b + d)).
Proof. by rewrite <- unit_val_mul, ped_mul. Qed.

Lemma pval_exp a b e : 0 <= e -> BN_mod_exp (unit_val (ped a b)) e P = unit_val (ped (a * e) (b * e)).
Proof using Hg. intros He. rewrite mod_exp_unit, ped_pow by (apply vok_P, Hg || done). done. Qed.

Lemma pval_inverse a b : BN_mod_inverse (unit_val (ped a b)) P = Some (unit_val (ped (- a) (- b))).
Proof using Hg. rewrite mod_inverse_unit, ped_inv by apply vok_P, Hg. done. Qed.

Lemma g_exp a : 0 <= a -> BN_mod_exp (vss_g grp) a P = unit_val (ped a 0).
Proof using Hg.
  intros Ha. rewrite mod_exp_of by (apply vok_P, Hg || apply Hg || done). unfold ped. by rewrite Zstar.pow_0_r, Zstar.mul_1_r.
Qed.

Lemma h_exp b : 0 <= b -> BN_mod_exp (vss_h grp) b P = unit_val (ped 0 b).
Proof using Hg.
  intros Hb. rewrite mod_exp_of by (apply vok_P, Hg || apply Hg || done). unfold ped. by rewrite Zstar.pow_0_r, Zstar.mul_1_l.
Qed.

Lemma g_mod : vss_g grp mod P = unit_val (ped 1 0).
Proof using Hg. unfold ped. rewrite Zstar.pow_1_r, Zstar.pow_0_r, Zstar.mul_1_r. symmetry. apply unit_val_of, Hg. Qed.

Lemma g_inverse : exists i, BN_mod_inverse (vss_g grp) P = Some i /\ i mod P = unit_val (ped (-1) 0).
Proof using Hg.
  unfold BN_mod_inverse. rewrite (proj2 (Z.eqb_eq _ _) (vok_g _ Hg)). eexists. split; [done|].
  rewrite <- unit_val_of by apply Z.coprime_invmod, Hg. rewrite unit_of_inv by apply Hg.
  unfold ped. change (-1) with (- (1)). by rewrite Zstar.pow_opp_r, Zstar.pow_1_r, Zstar.pow_0_r, Zstar.mul_1_r.
Qed.

Lemma commit_spec a b : 0 <= a -> 0 <= b -> commit grp a b = unit_val (ped a b).
Proof using Hg.
  intros Ha Hb. unfold commit. rewrite g_exp, h_exp by done. rewrite pval_mul. f_equal. f_equal; ring.
Qed.

(** An element of the group as bytes. *)
Lemma pval_range a b : 0 <= unit_val (ped a b) < P.
Proof using Hg. apply unit_val_range. pose proof (vok_P _ Hg). lia. Qed.

Lemma pval_bytes a b : BN_bin2bn (binpad (unit_val (ped a b)) (BN_num_bytes P)) = unit_val (ped a b).
Proof using Hg. apply bin2bn_binpad. pose proof (pval_range a b). pose proof (num_bytes_fit P). lia. Qed.

Lemma scalar_bytes z : 0 <= z < P' -> BN_bin2bn (binpad z (BN_num_bytes P')) = z.
Proof. intros Hz. apply bin2bn_binpad. pose proof (num_bytes_fit P'). lia. Qed.

Lemma to_bn_binpad v n : (0 < n)%nat -> bytes_to_bn (binpad v n) = Some (BN_bin2bn (binpad v n)).
Proof.
  intros Hn. unfold bytes_to_bn. rewrite (proj2 (is_empty_false _)); [done|].
  intros E. pose proof (length_binpad v n) as L. rewrite E in L. cbn in L. lia.
Qed.

Lemma to_bn_pval a b : bytes_to_bn (binpad (unit_val (ped a b)) (BN_num_bytes P)) = Some (unit_val (ped a b)).
Proof using Hg. rewrite to_bn_binpad, pval_bytes by (apply num_bytes_pos; pose proof (vok_P _ Hg); lia). done. Qed.

Lemma to_bn_scalar z : 0 <= z < P' -> bytes_to_bn (binpad z (BN_num_bytes P')) = Some z.
Proof using Hg.
  intros Hz. rewrite to_bn_binpad, scalar_bytes by (done || apply num_bytes_pos; pose proof (vok_P_prime _ Hg); lia). done.
Qed.

Lemma mod_order z : 0 <= z mod P' < P'.
Proof using Hg. apply Z.mod_pos_bound. pose proof (vok_P_prime _ Hg). lia. Qed.

End commitments.

(** ** A dealt secret *)

Lemma evaluate_app l k i p : evaluate (l ++ k) i p = evaluate l i p + evaluate k i (p * i ^ zlen l).
Proof.
  revert p. induction l as [|a l IH]; intros p; cbn [evaluate app].
  - by rewrite Z.mul_1_r.
  - rewrite IH, zlen_cons, Z.pow_add_r by (lia || apply zlen_nonneg). rewrite Z.pow_1_r, !Z.mul_assoc. ring.
Qed.

Lemma sum_pow_evaluate n t : evaluate (replicate t 1) n n = sum_pow n t.
Proof.
  induction t as [|t IH]; [done|]. rewrite replicate_S_end, evaluate_app, IH. cbn [sum_pow evaluate].
  unfold zlen. rewrite length_replicate, Nat2Z.inj_succ, Z.pow_succ_r by lia. ring.
Qed.

Lemma evaluate_bound L l i n p q : Forall (fun a => 0 <= a <= L) l -> 0 <= i <= n -> 0 <= p <= q -> 0 <= L ->
  0 <= evaluate l i p <= L * evaluate (replicate (length l) 1) n q.
Proof.
  intros F Hi. revert p q. induction F as [|a l Ha F IH]; intros p q Hp HL; cbn [evaluate length replicate]; [lia|].
  specialize (IH (p * i) (q * n) ltac:(nia) HL). nia.
Qed.

Lemma evaluate_scale l i p c : evaluate l i (c * p) = c * evaluate l i p.
Proof.
  revert p. induction l as [|a l IH]; intros p; cbn [evaluate]; [ring|].
  replace (c * p * i) with (c * (p * i)) by ring. rewrite IH. ring.
Qed.

Lemma evaluate_poly l : poly (length l) (fun i => evaluate l i 1).
Proof.
  induction l as [|a l IH]; cbn [poly length]; [done|]. exists a, (fun i => evaluate l i 1). split; [done|].
  intros i. cbn [evaluate]. replace (1 * i) with (i * 1) by ring. rewrite evaluate_scale. ring.
Qed.

(** The multipliers the code computes. *)
Lemma multipliers_interpolate subset (f mu : Z -> Z) : NoDup subset -> subset ⊆ committee ->
  (2 <= length subset)%nat -> poly (length subset) f ->
  (forall i, i ∈ subset -> dao_dkg_lagrange_mu subset i = Some (mu i)) ->
  zsum ((fun i => mu i * f i) <$> subset) = dao_dkg_delta * f 0.
Proof.
  intros Hd Hs Hl Hf Hmu. rewrite <- (lagrange_interpolation subset Hd Hs f Hf). f_equal.
  apply list_fmap_ext. intros k i Hi. apply list_elem_of_lookup_2 in Hi. f_equal.
  specialize (Hmu i Hi). rewrite (lagrange_mu_spec subset Hd Hs Hl i Hi) in Hmu. congruence.
Qed.

Section deal.
Context (grp : dao_vss_group) (Hg : vss_ok grp).
Notation P := (vss_P grp).
Notation P' := (vss_P_prime grp).

Lemma vss_rhs_spec a b i pow p x y : Forall (fun v => 0 <= v) a -> Forall (fun v => 0 <= v) b -> length b = length a ->
  0 <= pow -> pow ≡[P'] p ->
  vss_rhs grp i (zip_with (fun x y => binpad (commit grp x y) (BN_num_bytes P)) a b) (unit_val (ped grp x y)) pow =
  unit_val (ped grp (x + evaluate a i p) (y + evaluate b i p)).
Proof using Hg.
  intros Fa. revert b pow p x y. induction Fa as [|v a Hv Fa IH]; intros [|w b] pow p x y Fb Hl Hp Hc; try done; cbn [zip_with vss_rhs evaluate].
  - by rewrite !Z.add_0_r.
  - apply Forall_cons in Fb as [Hw Fb]. rewrite commit_spec, (pval_bytes grp Hg) by done.
    rewrite (pval_exp grp Hg), pval_mul by done.
    injection Hl as Hl. rewrite (IH b _ (p * i)); [|done|done|apply mod_order, Hg|rewrite congr_mod, Hc; reflexivity].
    f_equal. apply (ped_eq grp Hg); rewrite Hc; congr_ring.
Qed.

Lemma verify_dealt a b n i : Forall (fun v => 0 <= v) a -> Forall (fun v => 0 <= v) b -> length b = length a ->
  a <> [] -> 1 <= i <= n ->
  dao_vss_verify_share grp (zip_with (fun x y => binpad (commit grp x y) (BN_num_bytes P)) a b) n i
    (evaluate a i 1) (evaluate b i 1) = true.
Proof using Hg.
  intros Fa Fb Hl Hne Hi. unfold dao_vss_verify_share. destruct a as [|v a]; [done|]. destruct b as [|w b]; [done|].
  rewrite (proj2 (Z.eqb_neq i 0)), (proj2 (Z.ltb_ge _ _)) by lia.
  set (C := zip_with _ (v :: a) (w :: b)). cbn [orb]. change (is_empty C) with false. cbv iota.
  apply Z.eqb_eq. unfold C.
  assert (forall l, Forall (fun v => 0 <= v) l -> 0 <= evaluate l i 1) as Hnn.
  { intros l F. assert (forall p, 0 <= p -> 0 <= evaluate l i p) as Hp; [|apply Hp; lia].
    clear -F Hi. induction F as [|c l Hc F IH]; intros p Hp; cbn [evaluate]; [lia|]. specialize (IH (p * i)). nia. }
  rewrite commit_spec by (done || by apply Hnn).
  replace 1 with (unit_val (ped grp 0 0)) at 3 by (rewrite <- ped_one, unit_val_one; apply Z.mod_small; pose proof (vok_P _ Hg); lia).
  by rewrite (vss_rhs_spec _ _ i 1 1 0 0).
Qed.

Lemma sum_pow_pos n t : 1 <= n -> (0 < t)%nat -> 0 < sum_pow n t.
Proof.
  intros Hn. induction t as [|t IH]; intros Ht; [lia|]. cbn [sum_pow].
  assert (0 < n ^ Z.of_nat (S t)) by (apply Z.pow_pos_nonneg; lia). destruct t; [cbn; lia|]. specialize (IH ltac:(lia)). lia.
Qed.

Lemma share_bound secret n a i : 0 <= secret < P' ->
  Forall (fun x => 0 <= x <= vss_a_limit grp secret n (length a)) a -> 1 <= i <= n ->
  0 <= evaluate (secret :: a) i 1 < P'.
Proof.
  intros Hs F Hi. cbn [evaluate]. rewrite Z.mul_1_l, Z.mul_1_r. destruct (decide (a = [])) as [->|Ha]; [cbn; lia|].
  assert (0 < length a)%nat as Hl by (destruct a; [done|cbn; lia]).
  pose proof (sum_pow_pos n (length a) ltac:(lia) Hl) as Hsp. unfold vss_a_limit in F.
  rewrite (proj2 (Nat.eqb_neq _ _)), (proj2 (Z.eqb_neq _ _)) in F by lia. cbn [orb] in F.
  set (L := Z.quot _ _) in F. assert (0 <= L) as HL by (apply Z.quot_pos; lia).
  assert (sum_pow n (length a) * L <= P' - 1 - secret) by (apply Z.mul_quot_le; lia).
  pose proof (evaluate_bound L a i n i n F ltac:(lia) ltac:(lia) HL) as B. rewrite sum_pow_evaluate in B. lia.
Qed.

Lemma blinding_bound n t b i : 1 < P' -> length b = S t -> Forall (fun x => 0 <= x <= vss_b_limit grp n t) b -> 1 <= i <= n ->
  evaluate b i 1 < P'.
Proof.
  intros HP Hl F Hi. unfold vss_b_limit in F.
  assert (0 <= sum_pow n t) as Hsp by (destruct t; [done|]; pose proof (sum_pow_pos n (S t)); lia).
  set (L := Z.quot _ _) in F. assert (0 <= L) as HL by (apply Z.quot_pos; lia).
  assert ((sum_pow n t + 1) * L <= P' - 1) by (apply Z.mul_quot_le; lia).
  pose proof (evaluate_bound L b i n 1 1 F ltac:(lia) ltac:(lia) HL) as B. rewrite Hl in B. cbn [replicate evaluate] in B.
  rewrite !Z.mul_1_l, sum_pow_evaluate in B. lia.
Qed.

End deal.

(** Dealing a secret with coefficients drawn within the limits succeeds: no
    evaluation reaches the group order, every share verifies, and any more shares
    than the degree interpolate to the secret. *)
Theorem vss_deal_correct grp secret n a b : vss_ok grp -> 0 <= secret < vss_P_prime grp ->
  zlen a + 1 <= n <= DAO_DKG_MAX_COMMITTEE_SIZE -> length b = S (length a) ->
  Forall (fun x => 0 <= x <= vss_a_limit grp secret n (length a)) a ->
  Forall (fun x => 0 <= x <= vss_b_limit grp n (length a)) b ->
  exists d, dao_vss_deal grp secret n a b = Some d /\ zlen (vd_shares d) = n /\
    (forall i share blinding, vd_shares d !! i = Some share -> vd_blindings d !! i = Some blinding ->
      0 <= share < vss_P_prime grp /\
      dao_vss_verify_share grp (vd_C d) n (Z.of_nat i + 1) share blinding = true) /\
    (forall subset mu, NoDup subset -> Forall (fun i => 1 <= i <= n) subset -> zlen a + 1 <= zlen subset ->
      (2 <= length subset)%nat -> (forall i, i ∈ subset -> dao_dkg_lagrange_mu subset i = Some (mu i)) ->
      zsum ((fun i => mu i * nth (Z.to_nat (i - 1)) (vd_shares d) 0) <$> subset) = dao_dkg_delta * secret).
Proof.
  intros Hg Hs Hn Hl Fa Fb. pose proof (vok_P_prime _ Hg) as HP. unfold zlen in Hn.
  assert (Forall (fun v => 0 <= v) (secret :: a)) as Na by (constructor; [lia|]; eapply Forall_impl; [exact Fa|]; cbn; lia).
  assert (Forall (fun v => 0 <= v) b) as Nb by (eapply Forall_impl; [exact Fb|]; cbn; lia).
  assert (forall i, 1 <= i <= n -> 0 <= evaluate (secret :: a) i 1 < vss_P_prime grp) as Ba by (intros; by apply (share_bound grp secret n)).
  assert (forall i, 1 <= i <= n -> evaluate b i 1 < vss_P_prime grp) as Bb by (intros; by apply (blinding_bound grp n (length a))).
  pose proof (fun i => verify_dealt grp Hg (secret :: a) b n i Na Nb Hl ltac:(done)) as Hv.
  unfold dao_vss_deal.
  rewrite (proj2 (Z.ltb_ge _ _)), (proj2 (Z.ltb_ge _ _)), (proj2 (Z.leb_gt _ _)), (vok_odd _ Hg) by lia.
  set (C := zip_with _ _ _) in *. set (shares := _ <$> _). set (blindings := _ <$> _).
  assert (existsb (fun s => vss_P_prime grp <=? s) (shares ++ blindings) = false) as ->.
  { apply not_true_iff_false. rewrite existsb_Exists, Exists_app, !Exists_exists.
    intros [(s & (i & -> & Hi%elem_of_seqZ)%list_elem_of_fmap & E)|(s & (i & -> & Hi%elem_of_seqZ)%list_elem_of_fmap & E)]; to_prop.
    - specialize (Ba i). lia.
    - specialize (Bb i). lia. }
  assert (forall i, (i < Z.to_nat n)%nat -> shares !! i = Some (evaluate (secret :: a) (Z.of_nat i + 1) 1) /\
    blindings !! i = Some (evaluate b (Z.of_nat i + 1) 1)) as At.
  { intros i Hi. unfold shares, blindings. rewrite !list_lookup_fmap, lookup_seqZ_lt by lia. cbn [fmap option_fmap option_map].
    by rewrite (Z.add_comm 1). }
  assert (length shares = Z.to_nat n) as Ls by (unfold shares; by rewrite length_fmap, length_seqZ).
  rewrite (proj2 (forallb_Forall _ _)).
  2: { apply Forall_lookup. intros k (i & s & t) Hk. apply lookup_zip_Some in Hk as [K1 K2].
       apply lookup_zip_Some in K2 as [K2 K3]. apply lookup_seqZ in K1 as [-> K1]. destruct (At k) as [A1 A2]; [lia|].
       simplify_eq. cbn [fst snd]. rewrite (Z.add_comm 1). apply Hv. lia. }
  eexists. split; [done|]. cbn [vd_shares vd_blindings vd_C]. split; [unfold zlen; lia|]. split.
  - intros i s t Hi Ht. pose proof (lookup_lt_Some _ _ _ Hi). destruct (At i) as [A1 A2]; [lia|].
    simplify_eq. split; [apply Ba; lia|apply Hv; lia].
  - intros subset mu Hd Hr Hsz H2 Hmu.
    replace (dao_dkg_delta * secret) with (dao_dkg_delta * evaluate (secret :: a) 0 1).
    2: { cbn [evaluate]. rewrite Z.mul_0_r. change 0 with (0 * 1). rewrite evaluate_scale. lia. }
    rewrite <- (multipliers_interpolate subset (fun i => evaluate (secret :: a) i 1) mu); [|done| |done| |done].
    + f_equal. apply list_fmap_ext. intros k i Hi. f_equal. apply list_elem_of_lookup_2 in Hi.
      rewrite Forall_forall in Hr. specialize (Hr i Hi). apply nth_lookup_Some.
      destruct (At (Z.to_nat (i - 1))) as [-> _]; [lia|]. do 2 f_equal. lia.
    + intros i Hi. rewrite Forall_forall in Hr. specialize (Hr i Hi). apply elem_of_seqZ. unfold DAO_DKG_MAX_COMMITTEE_SIZE in *. lia.
    + apply (poly_le (length (secret :: a))); [unfold zlen in Hsz; cbn [length]; lia|]. apply evaluate_poly.
Qed.

(** ** An honest range proof *)

(** [sum of l_k 2^(j+k)]. *)
Fixpoint weighted (j : Z) (l : list Z) : Z :=
  match l with
  | [] => 0
  | x :: rest => x * Z.shiftl 1 j + weighted (j + 1) rest
  end.

Lemma weighted_app j l k : weighted j (l ++ k) = weighted j l + weighted (j + zlen l) k.
Proof.
  revert j. induction l as [|x l IH]; intros j; cbn [weighted app]; [by rewrite Z.add_0_r|].
  rewrite IH, zlen_cons. replace (j + 1 + zlen l) with (j + (1 + zlen l)) by ring. ring.
Qed.

Lemma weighted_bits x n : weighted 0 (map (fun j => Z.b2z (Z.testbit x (Z.of_nat j))) (seq 0 n)) = x mod 2 ^ Z.of_nat n.
Proof.
  induction n as [|n IH]; [cbn; by rewrite Z.mod_1_r|]. rewrite seq_S, map_app, weighted_app, IH. cbn [map weighted].
  unfold zlen. rewrite length_map, length_seq, Z.add_0_r, Z.shiftl_1_l, Nat2Z.inj_succ, Z.pow_succ_r by lia.
  rewrite (Z.mul_comm 2), Z.rem_mul_r by (try apply Z.pow_nonzero; lia).
  rewrite Z.testbit_spec', Z.add_0_l, Nat.add_0_l by lia. ring.
Qed.

Section range_complete.
Context `{DigestLaws} (grp : dao_vss_group) (Hg : vss_ok grp).
Notation P := (vss_P grp).
Notation P' := (vss_P_prime grp).

Definition drawn (r : bit_random) : Prop :=
  0 <= bit_rho r < P' /\ 0 <= bit_a r < P' /\ 0 <= bit_c r < P' /\ 0 <= bit_z r < P'.

Lemma bit_commitment_spec x j rho : 0 <= rho -> bit_commitment grp x j rho = unit_val (ped grp (Z.b2z (Z.testbit x j)) rho).
Proof using Hg.
  intros Hr. unfold bit_commitment. rewrite (h_exp grp Hg) by done. destruct (Z.testbit x j); cbn [Z.b2z].
  - rewrite <- Z.mul_mod_idemp_l, (g_mod grp Hg), pval_mul by (pose proof (vok_P _ Hg); lia). done.
  - rewrite Z.mul_1_l, Z.mod_small by apply pval_range, Hg. done.
Qed.

Lemma bit_product_spec (b r : nat -> Z) js j x y : 0 <= j ->
  bit_product grp j (map (fun k => unit_val (ped grp (b k) (r k))) js) (unit_val (ped grp x y)) =
  unit_val (ped grp (x + weighted j (map b js)) (y + weighted j (map r js))).
Proof using Hg.
  revert j x y. induction js as [|k js IH]; intros j x y Hj; cbn [map bit_product weighted]; [by rewrite !Z.add_0_r|].
  rewrite (pval_exp grp Hg), pval_mul, IH by (lia || apply Z.shiftl_nonneg; lia). by rewrite !Z.add_assoc.
Qed.

Lemma link_delta_spec rhos j delta : link_delta grp j rhos delta ≡[P'] delta - weighted j rhos.
Proof.
  revert j delta. induction rhos as [|r rhos IH]; intros j delta; cbn [link_delta weighted]; [by rewrite Z.sub_0_r|].
  rewrite IH. congr_ring.
Qed.

Lemma fs_challenge_range input : 0 <= fs_challenge_bn grp input < P'.
Proof using Hg. apply mod_order, Hg. Qed.

(** The two equations of a branch: of the real one and of the simulated one. *)
Lemma real_branch c rho a z X A : 0 <= c -> 0 <= z -> z ≡[P'] a + c * rho -> X = unit_val (ped grp 0 rho) ->
  A = unit_val (ped grp 0 a) -> or_branch_ok grp z c A X = true.
Proof using Hg.
  intros Hc Hz E -> ->. unfold or_branch_ok. rewrite (h_exp grp Hg), (pval_exp grp Hg), pval_mul by done.
  apply Z.eqb_eq. f_equal. apply (ped_eq grp Hg); [congr_ring|]. rewrite E. congr_ring.
Qed.

Lemma false_branch c z X A u v : 0 <= c -> 0 <= z -> X = unit_val (ped grp u v) ->
  A = unit_val (ped grp (- u * c) (z - v * c)) -> or_branch_ok grp z c A X = true.
Proof using Hg.
  intros Hc Hz -> ->. unfold or_branch_ok. rewrite (h_exp grp Hg), (pval_exp grp Hg), pval_mul by done.
  apply Z.eqb_eq. do 2 f_equal; ring.
Qed.

Lemma bit_complete party tag C_x j (b : bool) r : drawn r ->
  exists bp, prove_bit grp party tag C_x j (unit_val (ped grp (Z.b2z b) (bit_rho r))) b r = Some bp /\
    verify_bit grp party tag C_x j (unit_val (ped grp (Z.b2z b) (bit_rho r))) bp = true.
Proof using Hg.
  intros (Hrho & Ha & Hc & Hz). destruct (g_inverse grp Hg) as (gi & Egi & Mgi).
  unfold prove_bit. rewrite Egi. cbn [mbind option_bind].
  assert ((unit_val (ped grp (Z.b2z b) (bit_rho r)) * gi) mod P = unit_val (ped grp (Z.b2z b - 1) (bit_rho r))) as EX.
  { rewrite <- Z.mul_mod_idemp_r, Mgi, pval_mul by (pose proof (vok_P _ Hg); lia). f_equal. f_equal; ring. }
  rewrite EX. rewrite (h_exp grp Hg (bit_a r)), (h_exp grp Hg (bit_z r)) by lia.
  destruct b; cbn [Z.b2z] in *.
  all: rewrite (pval_exp grp Hg), (pval_inverse grp Hg) by lia; cbn [mbind option_bind]; rewrite pval_mul;
    match goal with |- context [bit_challenge ?g ?p ?t ?c ?j ?B ?A0 ?A1] => set (e := bit_challenge g p t c j B A0 A1) end;
    eexists; (split; [reflexivity|]); unfold verify_bit; cbn [br_A_0 br_A_1 br_c_0 br_c_1 br_z_0 br_z_1];
    rewrite !(to_bn_pval grp Hg), !(to_bn_scalar grp Hg) by (apply mod_order, Hg || lia); rewrite Egi; cbv zeta; rewrite EX; fold e;
    rewrite !andb_true_iff; split_and!.
  - apply Z.eqb_eq. rewrite <- (Z.mod_small e P') by apply fs_challenge_range. apply congr_elim. congr_ring.
  - eapply false_branch; [lia|lia|reflexivity|]. f_equal. f_equal; ring.
  - apply (real_branch _ (bit_rho r) (bit_a r)); [apply mod_order, Hg..| |done|done]. congr_ring.
  - apply Z.eqb_eq. rewrite <- (Z.mod_small e P') by apply fs_challenge_range. apply congr_elim. congr_ring.
  - apply (real_branch _ (bit_rho r) (bit_a r)); [apply mod_order, Hg..| |done|done]. congr_ring.
  - eapply false_branch; [lia|lia|reflexivity|]. f_equal. f_equal; ring.
Qed.

Lemma num_bits_fit x bits : 0 <= x -> BN_num_bits x <= bits -> x < 2 ^ bits.
Proof.
  intros Hx. unfold BN_num_bits. case_match; to_prop; intros Hb; [subst; by apply Z.pow_pos_nonneg|].
  rewrite Z.abs_eq in Hb by done. pose proof (Z.log2_nonneg x).
  apply Z.lt_le_trans with (2 ^ Z.succ (Z.log2 x)); [apply Z.log2_spec; lia|]. apply Z.pow_le_mono_r; lia.
Qed.

Lemma num_bits_le x bits : 0 <= x < 2 ^ bits -> 0 < bits -> BN_num_bits x <= bits.
Proof.
  intros Hx Hb. unfold BN_num_bits. case_match; to_prop; [lia|]. rewrite Z.abs_eq by lia.
  assert (Z.log2 x < bits) by (apply Z.log2_lt_pow2; lia). lia.
Qed.

Lemma mapM_bit_proofs party tag C_x (b : nat -> bool) (rnd : nat -> bit_random) js : (forall j, drawn (rnd j)) ->
  exists bps, mapM (fun j => prove_bit grp party tag C_x (Z.of_nat j)
      (unit_val (ped grp (Z.b2z (b j)) (bit_rho (rnd j)))) (b j) (rnd j)) js = Some bps /\
    length bps = length js /\
    forall k j bp, js !! k = Some j -> bps !! k = Some bp ->
      verify_bit grp party tag C_x (Z.of_nat j) (unit_val (ped grp (Z.b2z (b j)) (bit_rho (rnd j)))) bp = true.
Proof using Hg.
  intros Hr. induction js as [|j js (bps & E & L & IH)]; [by exists []|].
  destruct (bit_complete party tag C_x (Z.of_nat j) (b j) (rnd j) (Hr j)) as (bp & Ep & Ev).
  exists (bp :: bps). cbn [mapM]. rewrite Ep. cbn [mbind option_bind]. rewrite E. split; [done|]. split; [cbn; lia|].
  intros [|k] i bp'; cbn; [by intros [= <-] [= <-]|]. apply IH.
Qed.

Lemma range_complete party tag x rho_x bits rnd u : 0 < bits <= 4096 -> 0 <= x < 2 ^ bits -> 0 <= rho_x ->
  (forall j, drawn (rnd j)) -> 0 <= u < P' ->
  exists proof, dao_range_prove grp party tag x rho_x (commit grp x rho_x) bits rnd u = Some proof /\
    dao_range_verify grp party tag (commit grp x rho_x) proof = true.
Proof using Hg.
  intros Hb Hx Hrho Hr Hu. rewrite (commit_spec grp Hg) by lia. unfold dao_range_prove.
  rewrite (proj2 (Z.eqb_neq bits 0)), (proj2 (Z.ltb_ge 4096 bits)), (proj2 (Z.ltb_ge x 0)), (proj2 (Z.ltb_ge rho_x 0)),
    (proj2 (Z.ltb_ge _ _) (num_bits_le x bits Hx (proj1 Hb))) by lia. cbn [orb].
  rewrite (vok_odd _ Hg). set (js := seq 0 (Z.to_nat bits)). set (bit := fun j => Z.testbit x (Z.of_nat j)).
  set (rho := fun j => bit_rho (rnd j)).
  assert (forall l, map (fun j => bit_commitment grp x (Z.of_nat j) (bit_rho (rnd j))) l =
    map (fun j => unit_val (ped grp (Z.b2z (bit j)) (rho j))) l) as EB.
  { intros l. apply map_ext. intros j. apply bit_commitment_spec, (Hr j). }
  rewrite !EB.
  destruct (mapM_bit_proofs party tag (unit_val (ped grp x rho_x)) bit rnd js Hr) as (bps & Ebps & Lbps & Vbps).
  rewrite (mapM_ext _ (fun j => prove_bit grp party tag (unit_val (ped grp x rho_x)) (Z.of_nat j)
    (unit_val (ped grp (Z.b2z (bit j)) (bit_rho (rnd j)))) (bit j) (rnd j))).
  2: { intros j. rewrite bit_commitment_spec by apply (Hr j). done. }
  rewrite Ebps. set (B := map _ js).
  assert (bit_product grp 0 B 1 = unit_val (ped grp x (weighted 0 (map rho js)))) as EP.
  { replace 1 with (unit_val (ped grp 0 0)) by (rewrite <- ped_one, unit_val_one; apply Z.mod_small; pose proof (vok_P _ Hg); lia).
    unfold B. rewrite (bit_product_spec (fun j => Z.b2z (bit j)) rho) by lia. unfold bit, js.
    rewrite weighted_bits, Z2Nat.id, Z.mod_small by lia. done. }
  rewrite EP, (pval_inverse grp Hg). cbn [mbind option_bind]. rewrite pval_mul, (h_exp grp Hg) by lia.
  replace (x + - x) with 0 by ring. set (D := unit_val (ped grp 0 (rho_x + - _))).
  match goal with |- context [link_challenge ?a ?b ?c ?d ?e ?f ?g] => set (el := link_challenge a b c d e f g) end.
  eexists. split; [reflexivity|].
  unfold dao_range_verify. cbn [rp_bits rp_bit_commitments rp_bit_proofs rp_link_a rp_link_z].
  assert (length B = length js) as LB by apply length_map. assert (length js = Z.to_nat bits) as Ljs by apply length_seq.
  unfold zlen. rewrite length_map, LB, Lbps, Ljs, Z2Nat.id, Z.eqb_refl by lia.
  rewrite (proj2 (Z.eqb_neq bits 0)), (proj2 (Z.ltb_ge 4096 bits)) by lia. cbn [orb negb].
  assert (mapM bytes_to_bn (map (fun b => binpad b (BN_num_bytes P)) B) = Some B) as ->.
  { apply mapM_Some, Forall2_fmap_l, Forall_Forall2_diag, Forall_map, Forall_true. intros j. by apply to_bn_pval. }
  rewrite (proj2 (forallb_Forall _ _)).
  2: { apply Forall_lookup. intros k (i & b & bp) Hk. apply lookup_zip_Some in Hk as [K1 K2].
       apply lookup_zip_Some in K2 as [K2 K3]. rewrite LB, Ljs in K1. fold js in K1. cbn [fst snd].
       unfold B in K2. change (map ?f js) with (f <$> js) in K2. rewrite list_lookup_fmap, K1 in K2. injection K2 as <-. by apply (Vbps k). }
  cbn [negb]. rewrite EP, (pval_inverse grp Hg), (to_bn_pval grp Hg), (to_bn_scalar grp Hg), pval_mul by apply mod_order, Hg.
  replace (x + - x) with 0 by ring. fold D. fold el. apply (real_branch _ (rho_x + - weighted 0 (map rho js)) u); [|apply mod_order, Hg| |done|done].
  - apply fs_challenge_range.
  - rewrite congr_mod, (congr_mod _ (el * _)), link_delta_spec. congr_ring.
Qed.

End range_complete.

(** ** The encoding of a range proof *)

Lemma reads_bytes l : zlen l < 2 ^ 32 -> reads pull_bytes (push_bytes l) l.
Proof.
  intros Hl rest. unfold pull_bytes, push_bytes. pose proof (zlen_nonneg l). rewrite <- app_assoc.
  rewrite (reads_le 4 (zlen l)) by (change (256 ^ Z.of_nat 4) with (2 ^ 32); lia). cbn [mbind option_bind].
  rewrite to_nat_zlen. by apply reads_raw.
Qed.

Definition bit_proof_wf (p : dao_bit_or_proof) : Prop :=
  zlen (br_A_0 p) < 2 ^ 32 /\ zlen (br_A_1 p) < 2 ^ 32 /\ zlen (br_c_0 p) < 2 ^ 32 /\ zlen (br_c_1 p) < 2 ^ 32 /\
  zlen (br_z_0 p) < 2 ^ 32 /\ zlen (br_z_1 p) < 2 ^ 32.

Lemma reads_bit_proof p : bit_proof_wf p -> reads read_bit_proof (write_bit_proof p) p.
Proof.
  intros (W0 & W1 & W2 & W3 & W4 & W5) rest. unfold read_bit_proof, write_bit_proof. rewrite <- !app_assoc.
  do 6 (rewrite reads_bytes by done; cbn [mbind option_bind]). by destruct p.
Qed.

Definition range_proof_wf (p : dao_range_proof) : Prop :=
  0 < rp_bits p <= 4096 /\ zlen (rp_bit_commitments p) = rp_bits p /\ zlen (rp_bit_proofs p) = rp_bits p /\
  Forall (fun l => zlen l < 2 ^ 32) (rp_bit_commitments p) /\ Forall bit_proof_wf (rp_bit_proofs p) /\
  zlen (rp_link_a p) < 2 ^ 32 /\ zlen (rp_link_z p) < 2 ^ 32.

(** Reading back a counted list. *)
Lemma reads_list {A} (r : reader A) (e : A -> bytes) (W : A -> Prop) l n : zlen l = n ->
  (forall x, W x -> reads r (e x) x) -> Forall W l -> reads (read_n r (Z.to_nat n)) (concat (map e l)) l.
Proof. intros <- Hr F. rewrite to_nat_zlen. apply reads_n. eapply Forall_impl; [exact F|done]. Qed.

Lemma range_proof_roundtrip p : range_proof_wf p -> range_proof_deserialize (range_proof_serialize p) = Some p.
Proof.
  intros (Hb & Hc & Hp & Fc & Fp & Ha & Hz). apply parse_all_reads. intros rest.
  unfold read_range_proof, range_proof_serialize. rewrite <- !app_assoc, Hc, Hp.
  assert (0 <= rp_bits p < 256 ^ Z.of_nat 4) as Hb4 by (change (256 ^ Z.of_nat 4) with (2 ^ 32); lia).
  rewrite (reads_le 4 _ Hb4). cbn [mbind option_bind]. rewrite (proj2 (Z.eqb_neq _ 0)), (proj2 (Z.ltb_ge _ _)) by lia. cbn [orb].
  rewrite (reads_le 4 _ Hb4). cbn [mbind option_bind]. rewrite Z.eqb_refl. cbn [negb].
  rewrite (reads_list _ _ _ _ _ Hc reads_bytes Fc). cbn [mbind option_bind].
  rewrite (reads_le 4 _ Hb4). cbn [mbind option_bind]. rewrite Z.eqb_refl. cbn [negb].
  rewrite (reads_list _ _ _ _ _ Hp reads_bit_proof Fp). cbn [mbind option_bind].
  rewrite (reads_bytes _ Ha). cbn [mbind option_bind]. rewrite (reads_bytes _ Hz). by destruct p.
Qed.

(** The proofs of the code have fields of the size of the group. *)
Lemma prove_bit_wf `{Digests} grp party tag C_x j B b r bp :
  Z.of_nat (BN_num_bytes (vss_P grp)) < 2 ^ 32 -> Z.of_nat (BN_num_bytes (vss_P_prime grp)) < 2 ^ 32 ->
  prove_bit grp party tag C_x j B b r = Some bp -> bit_proof_wf bp.
Proof.
  intros HP HP' E. unfold prove_bit in E. apply bind_Some in E as (gi & _ & E). apply bind_Some in E as (xi & _ & [= <-]).
  unfold bit_proof_wf, zlen. cbn [br_A_0 br_A_1 br_c_0 br_c_1 br_z_0 br_z_1]. rewrite !length_binpad. done.
Qed.

Lemma range_prove_wf `{Digests} grp party tag x rho C_x bits rnd u p :
  Z.of_nat (BN_num_bytes (vss_P grp)) < 2 ^ 32 -> Z.of_nat (BN_num_bytes (vss_P_prime grp)) < 2 ^ 32 ->
  0 <= bits -> dao_range_prove grp party tag x rho C_x bits rnd u = Some p -> range_proof_wf p.
Proof.
  intros HP HP' Hb E. unfold dao_range_prove in E. do 4 (split_if_in E; [done|]). to_prop.
  apply bind_Some in E as (pi & _ & E). apply bind_Some in E as (bps & E1 & [= <-]).
  unfold range_proof_wf, zlen. cbn [rp_bits rp_bit_commitments rp_bit_proofs rp_link_a rp_link_z].
  rewrite !length_map, !length_binpad, length_seq. pose proof (length_mapM _ _ _ E1) as L. rewrite length_seq in L.
  split; [lia|]. split; [lia|]. split; [lia|]. split; [|split; [|done]].
  - apply Forall_map, Forall_map, Forall_true. intros j. by rewrite length_binpad.
  - apply mapM_Some_1 in E1. clear -E1 HP HP'. induction E1 as [|j bp js bps E _ IH]; constructor; [|done]. by eapply prove_bit_wf.
Qed.
