(* ===== verification/Reshare.v ===== *)
(** * Resharing the tally key

    [governance/dao_reshare_proof.cpp], [dao_reshare_coeff_link.cpp],
    [dao_reshare_vss.cpp] and [dao_reshare_pipeline.cpp]: a committee hands the
    tally key to a new one.  Each contributor shares its multiplied share over the
    integers, commits to the coefficients in the group of the ciphertexts, and
    proves that the constant is its own share and that the other coefficients are
    in range; a new member checks the contributions, adds up what it was dealt and
    divides by [Delta].  Random numbers are arguments. *)

From Stdlib Require Import Zcong.
From Stdlib Require Import Zmod Zstar.
From S2P Require Import Prelude Archive Paillier Threshold DkgProofs Pedersen.

(** ** The common exponent of two powers *)

Definition REPS : nat := 128.
Definition SCALAR_BYTES : nat := 1267.
Definition WITNESS_BITS : Z := 10000.
Definition STATISTICAL_BITS : Z := 128.

Record dao_reshare_link_proof := { lp_A : list bytes; lp_B : list bytes; lp_Z : list bytes }.

Record dao_reshare_link_context := {
  lc_genesis_block_hash : hash;
  lc_stable_key_record_hash : bytes;
  lc_share_set_id : Z;
  lc_contributor_pubkey : bytes;
  lc_original_index : Z;
  lc_contributor_subset : list Z;
  lc_N : bytes; lc_V : bytes; lc_VK_i : bytes; lc_C_i0 : bytes;
  lc_Delta : bytes; lc_mu_i : bytes;
}.

Definition bn_from_signed (l : bytes) : option Z :=
  if negb (length l =? 513)%nat then None else signed_unpad l.

Definition link_transcript (ctx : dao_reshare_link_context) (A B : list bytes) : bytes :=
  str "VeilRoot-DAO-RESHARE-LINK-V1" ++ lc_genesis_block_hash ctx ++ push_bytes (lc_stable_key_record_hash ctx) ++
  le_bytes 8 (lc_share_set_id ctx) ++ push_bytes (lc_contributor_pubkey ctx) ++ le_bytes 4 (lc_original_index ctx) ++
  le_bytes 4 (zlen (lc_contributor_subset ctx)) ++ concat (map (le_bytes 4) (lc_contributor_subset ctx)) ++
  push_bytes (lc_Delta ctx) ++ push_bytes (lc_mu_i ctx) ++ push_bytes (lc_N ctx) ++ push_bytes (lc_V ctx) ++
  push_bytes (lc_VK_i ctx) ++ push_bytes (lc_C_i0 ctx) ++ concat A ++ concat B.

(** The most significant bit of a byte comes first. *)
Definition bit_at (b : bytes) (l : nat) : bool := Z.testbit (nth (l / 8) b 0) (7 - Z.of_nat (l mod 8)).

Section link.
Context `{Digests}.

(** [derive_challenge_bits] *)
Definition challenge_bits (transcript : bytes) : bytes := shake256 transcript.

(** The two bases of a context, with its modulus; OpenSSL refuses to reduce
    modulo zero. *)
Definition link_bases (ctx : dao_reshare_link_context) : option (Z * Z * Z) :=
  mu ← bn_from_signed (lc_mu_i ctx);
  let N2 := BN_bin2bn (lc_N ctx) * BN_bin2bn (lc_N ctx) in
  if N2 =? 0 then None else
  g1 ← modexp_signed (BN_bin2bn (lc_V ctx)) (BN_bin2bn (lc_Delta ctx)) N2;
  g2 ← modexp_signed (BN_bin2bn (lc_V ctx)) mu N2;
  Some (N2, g1, g2).

(** [rs l] is drawn below [2^(WITNESS_BITS + STATISTICAL_BITS)], with a random
    sign. *)
Definition dao_reshare_link_prove (ctx : dao_reshare_link_context) (s_i : Z) (rs : nat -> Z)
    : option dao_reshare_link_proof :=
  if negb (length (lc_N ctx) =? PAILLIER_MODULUS_BYTES)%nat then None else
  if negb (length (lc_V ctx) =? PAILLIER_CT_BYTES)%nat then None else
  if negb (length (lc_VK_i ctx) =? PAILLIER_CT_BYTES)%nat then None else
  if negb (length (lc_C_i0 ctx) =? PAILLIER_CT_BYTES)%nat then None else
  '(N2, g1, g2) ← link_bases ctx;
  A ← mapM (fun l => a ← modexp_signed g1 (rs l) N2; BN_bn2binpad a PAILLIER_CT_BYTES) (seq 0 REPS);
  B ← mapM (fun l => b ← modexp_signed g2 (rs l) N2; BN_bn2binpad b PAILLIER_CT_BYTES) (seq 0 REPS);
  let bits := challenge_bits (link_transcript ctx A B) in
  Zs ← mapM (fun l => signed_pad (if bit_at bits l then rs l + s_i else rs l) SCALAR_BYTES) (seq 0 REPS);
  Some {| lp_A := A; lp_B := B; lp_Z := Zs |}.

(** [rhs = A] or [rhs = A * K], against [g^z]. *)
Definition link_equation (N2 g z A K : Z) (e : bool) : bool :=
  match modexp_signed g z N2 with
  | None => false
  | Some lhs => lhs =? (if e then (A * K) mod N2 else A)
  end.

Definition link_round_ok (N2 g1 g2 VK C0 : Z) (e : bool) (A B z : bytes) : bool :=
  if negb (length A =? PAILLIER_CT_BYTES)%nat then false else
  if negb (length B =? PAILLIER_CT_BYTES)%nat then false else
  if negb (length z =? 1 + SCALAR_BYTES)%nat then false else
  match signed_unpad z with
  | None => false
  | Some z => link_equation N2 g1 z (BN_bin2bn A) VK e && link_equation N2 g2 z (BN_bin2bn B) C0 e
  end.

Definition dao_reshare_link_verify (ctx : dao_reshare_link_context) (proof : dao_reshare_link_proof) : bool :=
  if negb (length (lp_A proof) =? REPS)%nat || negb (length (lp_B proof) =? REPS)%nat ||
     negb (length (lp_Z proof) =? REPS)%nat then false else
  if negb (length (lc_N ctx) =? PAILLIER_MODULUS_BYTES)%nat then false else
  match link_bases ctx with
  | None => false
  | Some (N2, g1, g2) =>
      let bits := challenge_bits (link_transcript ctx (lp_A proof) (lp_B proof)) in
      forallb (fun l => link_round_ok N2 g1 g2 (BN_bin2bn (lc_VK_i ctx)) (BN_bin2bn (lc_C_i0 ctx)) (bit_at bits l)
                 (nth l (lp_A proof) []) (nth l (lp_B proof) []) (nth l (lp_Z proof) [])) (seq 0 REPS)
  end.

End link.

Definition sign_ok (z : bytes) : bool := (nth 0 z 0 =? 0) || (nth 0 z 0 =? 1).

Definition link_round_bytes (p : bytes * bytes * bytes) : bytes := let '(a, b, z) := p in a ++ b ++ z.

Definition link_proof_serialize (p : dao_reshare_link_proof) : option bytes :=
  if negb (length (lp_A p) =? REPS)%nat || negb (length (lp_B p) =? REPS)%nat || negb (length (lp_Z p) =? REPS)%nat
  then None else
  let rounds := zip (zip (lp_A p) (lp_B p)) (lp_Z p) in
  if negb (forallb (fun r => let '(a, b, z) := r in
             (length a =? PAILLIER_CT_BYTES)%nat && (length b =? PAILLIER_CT_BYTES)%nat &&
             (length z =? 1 + SCALAR_BYTES)%nat && sign_ok z) rounds) then None else
  Some (le_bytes 4 (Z.of_nat REPS) ++ concat (map link_round_bytes rounds)).

Definition read_link_round : reader (bytes * bytes * bytes) := fun d =>
  '(a, d) ← read_raw PAILLIER_CT_BYTES d; '(b, d) ← read_raw PAILLIER_CT_BYTES d;
  '(z, d) ← read_raw (1 + SCALAR_BYTES) d;
  if negb (sign_ok z) then None else Some (a, b, z, d).

Definition link_proof_deserialize (inp : bytes) : option dao_reshare_link_proof :=
  '(reps, d) ← read_le 4 inp;
  if negb (reps =? Z.of_nat REPS) then None else
  if negb (length d =? REPS * (2 * PAILLIER_CT_BYTES + 1 + SCALAR_BYTES))%nat then None else
  '(rounds, _) ← read_n read_link_round REPS d;
  Some {| lp_A := map (fun r => fst (fst r)) rounds; lp_B := map (fun r => snd (fst r)) rounds; lp_Z := map snd rounds |}.

(** ** A coefficient in two groups *)

Definition ZX_BYTES : nat := 32.

Record dao_reshare_coeff_link_proof := {
  cl_A_paillier : list bytes; cl_A_vss : list bytes; cl_Z_x : list bytes; cl_Z_rho : list bytes;
}.

Record dao_reshare_coeff_link_context := {
  cc_genesis_block_hash : hash;
  cc_stable_key_record_hash : bytes;
  cc_share_set_id : Z;
  cc_contributor_pubkey : bytes;
  cc_contributor_index : Z;
  cc_coefficient_index : Z;
  cc_G : bytes; cc_C_ik : bytes; cc_Y : bytes; cc_D_x : bytes;
  cc_range_proof_hash : hash;
}.

Definition coeff_transcript (ctx : dao_reshare_coeff_link_context) (Ap Av : list bytes) : bytes :=
  str "VeilRoot-DAO-RESHARE-COEFF-LINK-V1" ++ cc_genesis_block_hash ctx ++ push_bytes (cc_stable_key_record_hash ctx) ++
  le_bytes 8 (cc_share_set_id ctx) ++ push_bytes (cc_contributor_pubkey ctx) ++ le_bytes 4 (cc_contributor_index ctx) ++
  le_bytes 4 (cc_coefficient_index ctx) ++ push_bytes (cc_G ctx) ++ push_bytes (cc_C_ik ctx) ++ push_bytes (cc_Y ctx) ++
  push_bytes (cc_D_x ctx) ++ push_bytes (cc_range_proof_hash ctx) ++ concat Ap ++ concat Av.

Section coeff_link.
Context `{Digests} (pk : PaillierPublicKey) (grp : dao_vss_group).
Let N2 := pk_N2 pk.
Let vss_element_bytes := BN_num_bytes (vss_P grp).

(** [a l] is drawn with 193 bits, [u l] below the group order. *)
Definition dao_reshare_coeff_link_prove (ctx : dao_reshare_coeff_link_context) (x rho : Z) (a u : nat -> Z)
    : option dao_reshare_coeff_link_proof :=
  if (x <? 0) || (rho <? 0) then None else
  if negb (length (cc_G ctx) =? PAILLIER_CT_BYTES)%nat then None else
  if negb (length (cc_C_ik ctx) =? PAILLIER_CT_BYTES)%nat then None else
  if negb (length (cc_Y ctx) =? PAILLIER_CT_BYTES)%nat then None else
  if negb (length (cc_D_x ctx) =? vss_element_bytes)%nat then None else
  Ap ← mapM (fun l => BN_bn2binpad (BN_mod_exp (BN_bin2bn (cc_G ctx)) (a l) N2) PAILLIER_CT_BYTES) (seq 0 REPS);
  Av ← mapM (fun l => BN_bn2binpad (commit grp (a l) (u l)) vss_element_bytes) (seq 0 REPS);
  let bits := challenge_bits (coeff_transcript ctx Ap Av) in
  Zx ← mapM (fun l => BN_bn2binpad (if bit_at bits l then a l + x else a l) ZX_BYTES) (seq 0 REPS);
  Zr ← mapM (fun l => BN_bn2binpad ((if bit_at bits l then u l + rho else u l) mod vss_P_prime grp) vss_element_bytes)
         (seq 0 REPS);
  Some {| cl_A_paillier := Ap; cl_A_vss := Av; cl_Z_x := Zx; cl_Z_rho := Zr |}.

Definition is_unit_mod (x m : Z) : bool := Z.gcd x m =? 1.

Definition coeff_round_ok (G Y Dx : Z) (e : bool) (Ap Av zx zr : bytes) : bool :=
  if negb (length Ap =? PAILLIER_CT_BYTES)%nat then false else
  if negb (length Av =? vss_element_bytes)%nat then false else
  if negb (length zx =? ZX_BYTES)%nat then false else
  if negb (length zr =? vss_element_bytes)%nat then false else
  let Ap := BN_bin2bn Ap in
  let Av := BN_bin2bn Av in
  let zx := BN_bin2bn zx in
  let zr := BN_bin2bn zr in
  if 2 ^ 194 <=? zx then false else
  (BN_mod_exp G zx N2 =? (if e then (Ap * Y) mod N2 else Ap)) &&
  (commit grp zx zr =? (if e then (Av * Dx) mod vss_P grp else Av)).

Definition dao_reshare_coeff_link_verify (ctx : dao_reshare_coeff_link_context) (proof : dao_reshare_coeff_link_proof)
    : bool :=
  if negb (length (cl_A_paillier proof) =? REPS)%nat then false else
  if negb (length (cl_A_vss proof) =? REPS)%nat then false else
  if negb (length (cl_Z_x proof) =? REPS)%nat then false else
  if negb (length (cl_Z_rho proof) =? REPS)%nat then false else
  if negb (length (cc_G ctx) =? PAILLIER_CT_BYTES)%nat then false else
  if negb (length (cc_C_ik ctx) =? PAILLIER_CT_BYTES)%nat then false else
  if negb (length (cc_Y ctx) =? PAILLIER_CT_BYTES)%nat then false else
  if negb (length (cc_D_x ctx) =? vss_element_bytes)%nat then false else
  let G := BN_bin2bn (cc_G ctx) in
  let Y := BN_bin2bn (cc_Y ctx) in
  if negb (is_unit_mod G N2) || negb (is_unit_mod Y N2) then false else
  let bits := challenge_bits (coeff_transcript ctx (cl_A_paillier proof) (cl_A_vss proof)) in
  forallb (fun l => coeff_round_ok G Y (BN_bin2bn (cc_D_x ctx)) (bit_at bits l)
             (nth l (cl_A_paillier proof) []) (nth l (cl_A_vss proof) []) (nth l (cl_Z_x proof) [])
             (nth l (cl_Z_rho proof) [])) (seq 0 REPS).

End coeff_link.

Definition coeff_round_bytes (p : bytes * bytes * bytes * bytes) : bytes := let '(a, v, x, r) := p in a ++ v ++ x ++ r.

Definition coeff_proof_serialize (p : dao_reshare_coeff_link_proof) (veb : nat) : option bytes :=
  if negb (length (cl_A_paillier p) =? REPS)%nat || negb (length (cl_A_vss p) =? REPS)%nat ||
     negb (length (cl_Z_x p) =? REPS)%nat || negb (length (cl_Z_rho p) =? REPS)%nat then None else
  if (veb =? 0)%nat || (1024 <? veb)%nat then None else
  let rounds := zip (zip (zip (cl_A_paillier p) (cl_A_vss p)) (cl_Z_x p)) (cl_Z_rho p) in
  if negb (forallb (fun r => let '(a, v, x, r) := r in
             (length a =? PAILLIER_CT_BYTES)%nat && (length v =? veb)%nat && (length x =? ZX_BYTES)%nat &&
             (length r =? veb)%nat) rounds) then None else
  Some (le_bytes 4 (Z.of_nat REPS) ++ le_bytes 4 (Z.of_nat veb) ++ concat (map coeff_round_bytes rounds)).

Definition read_coeff_round (veb : nat) : reader (bytes * bytes * bytes * bytes) := fun d =>
  '(a, d) ← read_raw PAILLIER_CT_BYTES d; '(v, d) ← read_raw veb d; '(x, d) ← read_raw ZX_BYTES d;
  '(r, d) ← read_raw veb d;
  Some (a, v, x, r, d).

Definition coeff_proof_deserialize (inp : bytes) (veb : nat) : option dao_reshare_coeff_link_proof :=
  if (veb =? 0)%nat || (1024 <? veb)%nat then None else
  '(reps, d) ← read_le 4 inp;
  '(v, d) ← read_le 4 d;
  if negb (reps =? Z.of_nat REPS) then None else
  if negb (v =? Z.of_nat veb) then None else
  if negb (length d =? REPS * (PAILLIER_CT_BYTES + veb + ZX_BYTES + veb))%nat then None else
  '(rounds, _) ← read_n (read_coeff_round veb) REPS d;
  Some {| cl_A_paillier := map (fun r => fst (fst (fst r))) rounds; cl_A_vss := map (fun r => snd (fst (fst r))) rounds;
          cl_Z_x := map (fun r => snd (fst r)) rounds; cl_Z_rho := map snd rounds |}.

(** ** Sharing a share *)

Definition DAO_RESHARE_COEFF_BITS : Z := 64.
Definition DAO_RESHARE_COEFF_SCALE_BITS : Z := 8281.
Definition DAO_RESHARE_SIGNED_BYTES : nat := 1268 + 1053.

Definition dao_reshare_serialize_signed (x : Z) : option bytes := signed_pad x (DAO_RESHARE_SIGNED_BYTES - 1).

Definition dao_reshare_deserialize_signed (l : bytes) : option Z :=
  if negb (length l =? DAO_RESHARE_SIGNED_BYTES)%nat then None else signed_unpad l.

Record dao_reshare_vss_commitments := { vc_t_new : Z; vc_C_0 : bytes; vc_C_k : list bytes }.

Definition commitments_serialize (c : dao_reshare_vss_commitments) : option bytes :=
  if negb (length (vc_C_0 c) =? PAILLIER_CT_BYTES)%nat then None else
  if negb (zlen (vc_C_k c) =? vc_t_new c) then None else
  if negb (forallb (fun l => length l =? PAILLIER_CT_BYTES)%nat (vc_C_k c)) then None else
  Some (le_bytes 4 (vc_t_new c) ++ vc_C_0 c ++ concat (vc_C_k c)).

Definition commitments_deserialize (inp : bytes) : option dao_reshare_vss_commitments :=
  '(t_new, d) ← read_le 4 inp;
  if (t_new =? 0) || (256 <? t_new) then None else
  if negb (zlen d =? Z.of_nat PAILLIER_CT_BYTES * (1 + t_new)) then None else
  '(c0, d) ← read_raw PAILLIER_CT_BYTES d;
  '(ck, _) ← read_n (read_raw PAILLIER_CT_BYTES) (Z.to_nat t_new) d;
  Some {| vc_t_new := t_new; vc_C_0 := c0; vc_C_k := ck |}.

Record dao_reshare_vss_share := { sh_j : Z; sh_q_i_j : bytes }.

Record dao_reshare_vss_coeff_proofs := {
  cp_range_commitments : list bytes;
  cp_range_proofs : list bytes;
  cp_link_proofs : list dao_reshare_coeff_link_proof;
}.

(** What a contributor draws for a coefficient. *)
Record coeff_random := {
  cr_x : Z;                       (* below 2^65 *)
  cr_rho : Z;                     (* below the group order *)
  cr_bits : nat -> bit_random;    (* for the range proof *)
  cr_range_link : Z;
  cr_a : nat -> Z;                (* for the link proof *)
  cr_u : nat -> Z;
}.

(** One coefficient: its commitment, the commitment to [x], the range proof and
    the link proof. *)
Record dealt_coeff := {
  dc_C_k : bytes; dc_range_commitment : bytes; dc_range_proof : bytes; dc_link_proof : dao_reshare_coeff_link_proof;
}.

Definition coeff_scale : Z := Z.shiftl 1 DAO_RESHARE_COEFF_SCALE_BITS.
Definition coeff_half : Z := Z.shiftl 1 DAO_RESHARE_COEFF_BITS.

(** The coefficient [b] that [x] stands for. *)
Definition coeff_value (r : coeff_random) : Z := cr_x r - coeff_half.

Section vss.
Context `{Digests} (pk : PaillierPublicKey) (grp : dao_vss_group) (V_bytes : bytes).
Let N2 := pk_N2 pk.
Let V := BN_bin2bn V_bytes.
Let vss_bytes := BN_num_bytes (vss_P grp).

(** The context of the link proof of coefficient [k], from 1. *)
Definition coeff_context (ctx : dao_reshare_link_context) (k G Y : Z) (C_ik D_x range_proof : bytes)
    : dao_reshare_coeff_link_context :=
  {| cc_genesis_block_hash := lc_genesis_block_hash ctx; cc_stable_key_record_hash := lc_stable_key_record_hash ctx;
     cc_share_set_id := lc_share_set_id ctx; cc_contributor_pubkey := lc_contributor_pubkey ctx;
     cc_contributor_index := lc_original_index ctx; cc_coefficient_index := k;
     cc_G := binpad G PAILLIER_CT_BYTES; cc_C_ik := C_ik; cc_Y := binpad Y PAILLIER_CT_BYTES; cc_D_x := D_x;
     cc_range_proof_hash := sha256 range_proof |}.

Definition deal_coeff (ctx : dao_reshare_link_context) (delta G k : Z) (r : coeff_random) : option dealt_coeff :=
  Ck ← modexp_signed V (delta * coeff_scale * coeff_value r) N2;
  C_k ← BN_bn2binpad Ck PAILLIER_CT_BYTES;
  let Y := (BN_mod_exp G coeff_half N2 * Ck) mod N2 in
  let D_x := commit grp (cr_x r) (cr_rho r) in
  rp ← dao_range_prove grp (lc_original_index ctx) k (cr_x r) (cr_rho r) D_x (DAO_RESHARE_COEFF_BITS + 1)
         (cr_bits r) (cr_range_link r);
  D ← BN_bn2binpad D_x vss_bytes;
  let range_proof := range_proof_serialize rp in
  lp ← dao_reshare_coeff_link_prove pk grp (coeff_context ctx k G Y C_k D range_proof) (cr_x r) (cr_rho r) (cr_a r) (cr_u r);
  Some {| dc_C_k := C_k; dc_range_commitment := D; dc_range_proof := range_proof; dc_link_proof := lp |}.

Definition with_constant (ctx : dao_reshare_link_context) (C_0 mu : bytes) : dao_reshare_link_context :=
  {| lc_genesis_block_hash := lc_genesis_block_hash ctx; lc_stable_key_record_hash := lc_stable_key_record_hash ctx;
     lc_share_set_id := lc_share_set_id ctx; lc_contributor_pubkey := lc_contributor_pubkey ctx;
     lc_original_index := lc_original_index ctx; lc_contributor_subset := lc_contributor_subset ctx;
     lc_N := lc_N ctx; lc_V := lc_V ctx; lc_VK_i := lc_VK_i ctx; lc_C_i0 := C_0; lc_Delta := lc_Delta ctx; lc_mu_i := mu |}.

(** [q_i(j)]: the constant and the scaled coefficients at the powers of [j]. *)
Definition deal_share (s_i mu_i delta j : Z) (coeffs : list coeff_random) : option dao_reshare_vss_share :=
  let q := mu_i * s_i + evaluate (map (fun r => delta * coeff_scale * coeff_value r) coeffs) j j in
  l ← dao_reshare_serialize_signed q;
  Some {| sh_j := j; sh_q_i_j := l |}.

(** The coefficients are as many as [t_new]. *)
Definition dao_reshare_vss_deal (s_i mu_i delta : Z) (new_indices : list Z) (ctx : dao_reshare_link_context)
    (rs : nat -> Z) (coeffs : list coeff_random)
    : option (dao_reshare_link_proof * dao_reshare_vss_commitments * dao_reshare_vss_coeff_proofs *
              list dao_reshare_vss_share) :=
  let t_new := zlen coeffs in
  if (t_new =? 0) || (256 <? t_new) then None else
  if is_empty new_indices then None else
  if negb (length V_bytes =? PAILLIER_CT_BYTES)%nat then None else
  C0 ← modexp_signed V (mu_i * s_i) N2;
  C_0 ← BN_bn2binpad C0 PAILLIER_CT_BYTES;
  mu ← signed_pad mu_i 512;
  let ctx := with_constant ctx C_0 mu in
  link_proof ← dao_reshare_link_prove ctx s_i rs;
  let G := BN_mod_exp V (delta * coeff_scale) N2 in
  dealt ← mapM (fun kr => deal_coeff ctx delta G (Z.of_nat (fst kr) + 1) (snd kr)) (zip (seq 0 (length coeffs)) coeffs);
  shares ← mapM (fun j => deal_share s_i mu_i delta j coeffs) new_indices;
  Some (link_proof, {| vc_t_new := t_new; vc_C_0 := C_0; vc_C_k := map dc_C_k dealt |},
        {| cp_range_commitments := map dc_range_commitment dealt; cp_range_proofs := map dc_range_proof dealt;
           cp_link_proofs := map dc_link_proof dealt |}, shares).

Definition coeff_ok (ctx : dao_reshare_link_context) (k : Z) (C_k D range_proof : bytes)
    (lp : dao_reshare_coeff_link_proof) : bool :=
  if negb (length D =? vss_bytes)%nat then false else
  match range_proof_deserialize range_proof with
  | None => false
  | Some rp =>
      if negb (dao_range_verify grp (lc_original_index ctx) k (BN_bin2bn D) rp) then false else
      let G := BN_mod_exp V (dao_dkg_delta * coeff_scale) N2 in
      let Y := (BN_mod_exp G coeff_half N2 * BN_bin2bn C_k) mod N2 in
      dao_reshare_coeff_link_verify pk grp (coeff_context ctx k G Y C_k D range_proof) lp
  end.

(** What [dao_reshare_vss_verify] and [dao_reshare_vss_verify_public] check of
    the coefficients. *)
Definition coeffs_ok (ctx : dao_reshare_link_context) (commits : dao_reshare_vss_commitments)
    (cps : dao_reshare_vss_coeff_proofs) : bool :=
  if negb (zlen (cp_range_commitments cps) =? vc_t_new commits) then false else
  if negb (zlen (cp_range_proofs cps) =? vc_t_new commits) then false else
  if negb (zlen (cp_link_proofs cps) =? vc_t_new commits) then false else
  forallb (fun x => let '(k, (D, (rp, lp))) := x in
             coeff_ok ctx (Z.of_nat k + 1) (nth k (vc_C_k commits) []) D rp lp)
    (zip (seq 0 (Z.to_nat (vc_t_new commits)))
         (zip (cp_range_commitments cps) (zip (cp_range_proofs cps) (cp_link_proofs cps)))).

Definition dao_reshare_vss_verify_public (ctx : dao_reshare_link_context) (link_proof : dao_reshare_link_proof)
    (commits : dao_reshare_vss_commitments) (cps : dao_reshare_vss_coeff_proofs) : bool :=
  if negb (coeffs_ok ctx commits cps) then false else
  if negb (length (lc_C_i0 ctx) =? PAILLIER_CT_BYTES)%nat then false else
  if negb (beq (lc_C_i0 ctx) (vc_C_0 commits)) then false else
  dao_reshare_link_verify ctx link_proof.

(** [C_0] times the product of the [C_k] to the powers of [j]. *)
Fixpoint commitments_at (j : Z) (C_k : list bytes) (rhs jpow : Z) : Z :=
  match C_k with
  | [] => rhs
  | c :: rest =>
      let jpow := jpow * j in
      commitments_at j rest ((rhs * BN_mod_exp (BN_bin2bn c) jpow N2) mod N2) jpow
  end.

Definition dao_reshare_vss_verify (ctx : dao_reshare_link_context) (link_proof : dao_reshare_link_proof)
    (commits : dao_reshare_vss_commitments) (cps : dao_reshare_vss_coeff_proofs) (j : Z) (q_i_j : bytes) : bool :=
  if negb (coeffs_ok ctx commits cps) then false else
  if negb (length (lc_C_i0 ctx) =? PAILLIER_CT_BYTES)%nat then false else
  if negb (beq (lc_C_i0 ctx) (vc_C_0 commits)) then false else
  if negb (dao_reshare_link_verify ctx link_proof) then false else
  if negb (length V_bytes =? PAILLIER_CT_BYTES)%nat then false else
  if negb (length (vc_C_0 commits) =? PAILLIER_CT_BYTES)%nat then false else
  if negb (zlen (vc_C_k commits) =? vc_t_new commits) then false else
  if j =? 0 then false else
  match dao_reshare_deserialize_signed q_i_j with
  | None => false
  | Some q =>
      match modexp_signed V q N2 with
      | None => false
      | Some lhs => lhs =? commitments_at j (vc_C_k commits) (BN_bin2bn (vc_C_0 commits)) 1
      end
  end.

Fixpoint compute_vk_loop (j : Z) (all_commits : list dao_reshare_vss_commitments) (acc : Z) : option Z :=
  match all_commits with
  | [] => Some acc
  | c :: rest =>
      if negb (length (vc_C_0 c) =? PAILLIER_CT_BYTES)%nat then None else
      if negb (zlen (vc_C_k c) =? vc_t_new c) then None else
      compute_vk_loop j rest ((acc * commitments_at j (vc_C_k c) (BN_bin2bn (vc_C_0 c)) 1) mod N2)
  end.

Definition dao_reshare_vss_compute_vk (all_commits : list dao_reshare_vss_commitments) (j : Z) : option bytes :=
  if is_empty all_commits then None else
  if j =? 0 then None else
  acc ← compute_vk_loop j all_commits 1;
  BN_bn2binpad acc PAILLIER_CT_BYTES.

End vss.

(** ** Contributions *)

Record dao_reshare_contribution := {
  ct_contributor_index : Z;
  ct_contributor_pubkey : bytes;
  ct_link_ctx : dao_reshare_link_context;
  ct_link_proof : dao_reshare_link_proof;
  ct_commits : dao_reshare_vss_commitments;
  ct_coeff_proofs : dao_reshare_vss_coeff_proofs;
  ct_shares : list dao_reshare_vss_share;
}.

Record dao_reshare_new_share := { ns_j : Z; ns_share_signed : bytes; ns_VK_j : bytes }.

Section pipeline.
Context `{Digests} (pk : PaillierPublicKey) (grp : dao_vss_group) (V_bytes : bytes).

Definition dao_reshare_make_contribution (s_i mu_i delta : Z) (new_indices : list Z) (ctx : dao_reshare_link_context)
    (rs : nat -> Z) (coeffs : list coeff_random) : option dao_reshare_contribution :=
  if is_empty new_indices then None else
  '(lp, commits, cps, shares) ← dao_reshare_vss_deal pk grp V_bytes s_i mu_i delta new_indices ctx rs coeffs;
  mu ← signed_pad mu_i 512;
  Some {| ct_contributor_index := lc_original_index ctx; ct_contributor_pubkey := lc_contributor_pubkey ctx;
          ct_link_ctx := with_constant ctx (vc_C_0 commits) mu; ct_link_proof := lp; ct_commits := commits;
          ct_coeff_proofs := cps; ct_shares := shares |}.

(** A contribution's share for new member [j], if it verifies. *)
Definition verified_share (c : dao_reshare_contribution) (j : Z) (sh : dao_reshare_vss_share) : option Z :=
  if negb (dao_reshare_vss_verify pk grp V_bytes (ct_link_ctx c) (ct_link_proof c) (ct_commits c) (ct_coeff_proofs c)
             j (sh_q_i_j sh)) then None else
  dao_reshare_deserialize_signed (sh_q_i_j sh).

(** The sum divided by [Delta], the verification key, and the cross-check. *)
Definition finish_share (delta j s_prime : Z) (all_commits : list dao_reshare_vss_commitments)
    : option dao_reshare_new_share :=
  if delta =? 0 then None else
  if negb (Z.rem s_prime delta =? 0) then None else
  let s_j := Z.quot s_prime delta in
  VK_j ← dao_reshare_vss_compute_vk pk all_commits j;
  VK_calc ← modexp_signed (BN_bin2bn V_bytes) (s_j * delta) (pk_N2 pk);
  if negb (beq (binpad VK_calc PAILLIER_CT_BYTES) VK_j) then None else
  l ← dao_reshare_serialize_signed s_j;
  Some {| ns_j := j; ns_share_signed := l; ns_VK_j := VK_j |}.

Fixpoint sum_shares (k : nat) (j : Z) (contributions : list dao_reshare_contribution) (s_prime : Z) : option Z :=
  match contributions with
  | [] => Some s_prime
  | c :: rest =>
      sh ← ct_shares c !! k;
      if negb (sh_j sh =? j) then None else
      q ← verified_share c j sh;
      sum_shares k j rest (s_prime + q)
  end.

Definition dao_reshare_combine (contributions : list dao_reshare_contribution) (new_indices : list Z)
    (threshold delta : Z) : option (list dao_reshare_new_share) :=
  if zlen contributions <? threshold then None else
  if threshold =? 0 then None else
  if existsb (fun c => negb (length (ct_shares c) =? length new_indices)%nat) contributions then None else
  mapM (fun kj => s_prime ← sum_shares (fst kj) (snd kj) contributions 0;
                  finish_share delta (snd kj) s_prime (map ct_commits contributions))
    (zip (seq 0 (length new_indices)) new_indices).

(** The loop of [dao_reshare_combine_one]: [subset] is the subset of the first
    contribution, once there is one. *)
Fixpoint combine_one_loop (target_index threshold : Z) (subset : option (list Z)) (seen : list Z) (s_prime : Z)
    (used : list dao_reshare_vss_commitments) (contributions : list dao_reshare_contribution)
    : option (Z * list dao_reshare_vss_commitments) :=
  if threshold <=? zlen used then Some (s_prime, used) else
  match contributions with
  | [] => None
  | c :: rest =>
      let mine := lc_contributor_subset (ct_link_ctx c) in
      first_subset ← match subset with
                     | None => if negb (zlen mine =? threshold) then None else Some mine
                     | Some s => if negb (bool_decide (mine = s)) then None else Some s
                     end;
      if negb (existsb (fun s => s =? ct_contributor_index c) first_subset) then None else
      if existsb (fun s => s =? ct_contributor_index c) seen then None else
      target ← list_find (fun sh => sh_j sh = target_index) (ct_shares c);
      q ← verified_share c target_index (snd target);
      combine_one_loop target_index threshold (Some first_subset) (ct_contributor_index c :: seen) (s_prime + q)
        (used ++ [ct_commits c]) rest
  end.

Definition dao_reshare_combine_one (contributions : list dao_reshare_contribution) (new_indices : list Z)
    (recipient_position : nat) (threshold delta : Z) : option dao_reshare_new_share :=
  if threshold =? 0 then None else
  if zlen contributions <? threshold then None else
  target_index ← new_indices !! recipient_position;
  '(s_prime, all_commits) ← combine_one_loop target_index threshold None [] 0 [] contributions;
  finish_share delta target_index s_prime all_commits.

Definition dao_reshare_compute_all_vks (contributions : list dao_reshare_contribution) (new_indices : list Z)
    : option (list bytes) :=
  if is_empty contributions then None else
  mapM (dao_reshare_vss_compute_vk pk (map ct_commits contributions)) new_indices.

End pipeline.

(** ** Encodings *)

Definition push_list {A} (e : A -> bytes) (l : list A) : bytes := le_bytes 4 (zlen l) ++ concat (map e l).

Definition write_link_context (ctx : dao_reshare_link_context) : bytes :=
  lc_genesis_block_hash ctx ++ push_bytes (lc_stable_key_record_hash ctx) ++ le_bytes 8 (lc_share_set_id ctx) ++
  push_bytes (lc_contributor_pubkey ctx) ++ le_bytes 4 (lc_original_index ctx) ++
  push_list (le_bytes 4) (lc_contributor_subset ctx) ++ push_bytes (lc_N ctx) ++ push_bytes (lc_V ctx) ++
  push_bytes (lc_VK_i ctx) ++ push_bytes (lc_C_i0 ctx) ++ push_bytes (lc_Delta ctx) ++ push_bytes (lc_mu_i ctx).

Definition dao_reshare_serialize_public (c : dao_reshare_contribution) : option bytes :=
  lp ← link_proof_serialize (ct_link_proof c);
  cb ← commitments_serialize (ct_commits c);
  let cp := ct_coeff_proofs c in
  let veb := match cp_range_commitments cp with [] => O | rc :: _ => length rc end in
  if (veb =? 0)%nat then None else
  lbs ← mapM (fun l => coeff_proof_serialize l veb) (cp_link_proofs cp);
  Some (le_bytes 4 (ct_contributor_index c) ++ push_bytes (ct_contributor_pubkey c) ++ write_link_context (ct_link_ctx c) ++
        push_bytes lp ++ push_bytes cb ++ push_list push_bytes (cp_range_commitments cp) ++
        push_list push_bytes (cp_range_proofs cp) ++ push_list push_bytes lbs).

Definition read_link_context : reader dao_reshare_link_context := fun d =>
  '(gen, d) ← read_raw 32 d; '(skr, d) ← pull_bytes d; '(ssid, d) ← read_le 8 d; '(pub, d) ← pull_bytes d;
  '(oi, d) ← read_le 4 d; '(ns, d) ← read_le 4 d;
  if 32 <? ns then None else
  '(subset, d) ← read_n (read_le 4) (Z.to_nat ns) d;
  '(n, d) ← pull_bytes d; '(v, d) ← pull_bytes d; '(vk, d) ← pull_bytes d; '(c0, d) ← pull_bytes d;
  '(dl, d) ← pull_bytes d; '(mu, d) ← pull_bytes d;
  Some ({| lc_genesis_block_hash := gen; lc_stable_key_record_hash := skr; lc_share_set_id := ssid;
           lc_contributor_pubkey := pub; lc_original_index := oi; lc_contributor_subset := subset; lc_N := n; lc_V := v;
           lc_VK_i := vk; lc_C_i0 := c0; lc_Delta := dl; lc_mu_i := mu |}, d).

(** The shares are not part of the public encoding. *)
Definition read_contribution : reader dao_reshare_contribution := fun d =>
  '(ci, d) ← read_le 4 d; '(pub, d) ← pull_bytes d; '(ctx, d) ← read_link_context d;
  '(lpb, d) ← pull_bytes d; lp ← link_proof_deserialize lpb;
  '(cb, d) ← pull_bytes d; commits ← commitments_deserialize cb;
  '(nrc, d) ← read_le 4 d;
  if (nrc =? 0) || (256 <? nrc) then None else
  '(rcs, d) ← read_n pull_bytes (Z.to_nat nrc) d;
  '(nrp, d) ← read_le 4 d;
  if negb (nrp =? nrc) then None else
  '(rps, d) ← read_n pull_bytes (Z.to_nat nrp) d;
  '(nlp, d) ← read_le 4 d;
  if negb (nlp =? nrc) then None else
  let veb := length (nth 0 rcs []) in
  if (veb =? 0)%nat then None else
  '(lbs, d) ← read_n pull_bytes (Z.to_nat nlp) d;
  lps ← mapM (fun b => coeff_proof_deserialize b veb) lbs;
  Some ({| ct_contributor_index := ci; ct_contributor_pubkey := pub; ct_link_ctx := ctx; ct_link_proof := lp;
           ct_commits := commits;
           ct_coeff_proofs := {| cp_range_commitments := rcs; cp_range_proofs := rps; cp_link_proofs := lps |};
           ct_shares := [] |}, d).

Definition dao_reshare_deserialize_public (inp : bytes) : option dao_reshare_contribution :=
  parse_all read_contribution inp.

Definition dao_reshare_serialize_share (sh : dao_reshare_vss_share) : bytes :=
  le_bytes 4 (sh_j sh) ++ push_bytes (sh_q_i_j sh).

Definition read_share : reader dao_reshare_vss_share := fun d =>
  '(j, d) ← read_le 4 d; '(q, d) ← pull_bytes d; Some ({| sh_j := j; sh_q_i_j := q |}, d).

Definition dao_reshare_deserialize_share (inp : bytes) : option dao_reshare_vss_share := parse_all read_share inp.

Record dao_reshare_msg := {
  rm_version : Z; rm_old_share_set_id : Z; rm_new_share_set_id : Z; rm_sender_index : Z; rm_type : Z;
  rm_public_blob : bytes; rm_recipient_indices : list Z; rm_recipient_payloads : list bytes; rm_record_blob : bytes;
}.

Definition msg_serialize (m : dao_reshare_msg) : bytes :=
  le_bytes 4 (rm_version m) ++ le_bytes 8 (rm_old_share_set_id m) ++ le_bytes 8 (rm_new_share_set_id m) ++
  le_bytes 4 (rm_sender_index m) ++ [rm_type m] ++ push_bytes (rm_public_blob m) ++
  push_list (le_bytes 4) (rm_recipient_indices m) ++ push_list push_bytes (rm_recipient_payloads m) ++
  push_bytes (rm_record_blob m).

Definition read_msg : reader dao_reshare_msg := fun d =>
  '(v, d) ← read_le 4 d;
  if negb (v =? 1) then None else
  '(old, d) ← read_le 8 d; '(new, d) ← read_le 8 d; '(si, d) ← read_le 4 d; '(t, d) ← read_le 1 d;
  if negb (t =? 0) && negb (t =? 1) then None else
  '(pub, d) ← pull_bytes d; '(nr, d) ← read_le 4 d;
  if 1024 <? nr then None else
  '(ri, d) ← read_n (read_le 4) (Z.to_nat nr) d; '(np, d) ← read_le 4 d;
  if negb (np =? nr) then None else
  '(rp, d) ← read_n pull_bytes (Z.to_nat np) d; '(rec, d) ← pull_bytes d;
  Some ({| rm_version := v; rm_old_share_set_id := old; rm_new_share_set_id := new; rm_sender_index := si; rm_type := t;
           rm_public_blob := pub; rm_recipient_indices := ri; rm_recipient_payloads := rp; rm_record_blob := rec |}, d).

Definition msg_deserialize (inp : bytes) : option dao_reshare_msg := parse_all read_msg inp.

Record dao_reshare_share_bundle := { sb_old_share_set_id : Z; sb_sender_index : Z; sb_share_bytes : bytes }.

Definition bundle_serialize (b : dao_reshare_share_bundle) : bytes :=
  le_bytes 8 (sb_old_share_set_id b) ++ le_bytes 4 (sb_sender_index b) ++ push_bytes (sb_share_bytes b).

Definition read_bundle : reader dao_reshare_share_bundle := fun d =>
  '(old, d) ← read_le 8 d; '(si, d) ← read_le 4 d; '(sb, d) ← pull_bytes d;
  Some ({| sb_old_share_set_id := old; sb_sender_index := si; sb_share_bytes := sb |}, d).

Definition bundle_deserialize (inp : bytes) : option dao_reshare_share_bundle := parse_all read_bundle inp.

(** ** The new share set *)

Record dao_share_set_record := {
  ss_version : Z; ss_share_set_id : Z; ss_height : Z; ss_threshold : Z;
  ss_key_id : bytes; ss_committee_id_hash : bytes;
  ss_committee_members : list bytes; ss_VK_i : list bytes;
  ss_base_share_set_id : Z; ss_contributions : list bytes;
  ss_contributor_indices : list Z; ss_contributor_vk : list bytes;
}.

Definition dao_reshare_build_share_set `{Digests} (share_set_id height : Z) (key_id : bytes) (new_members : list bytes)
    (new_shares : list dao_reshare_new_share) (threshold : Z) : option dao_share_set_record :=
  if negb (length key_id =? 32)%nat then None else
  if negb (length new_members =? length new_shares)%nat then None else
  if is_empty new_members then None else
  if (threshold =? 0) || (zlen new_members <? threshold) then None else
  Some {| ss_version := 1; ss_share_set_id := share_set_id; ss_height := height; ss_threshold := threshold;
          ss_key_id := key_id;
          ss_committee_id_hash :=
            sha256 (str "VeilRoot-DAO-SHARE-SET-V1" ++ rev (le_bytes 8 share_set_id) ++ concat new_members);
          ss_committee_members := new_members; ss_VK_i := map ns_VK_j new_shares;
          ss_base_share_set_id := 0; ss_contributions := []; ss_contributor_indices := []; ss_contributor_vk := [] |}.

Definition share_set_serialize (r : dao_share_set_record) : option bytes :=
  if negb (length (ss_key_id r) =? 32)%nat then None else
  if negb (length (ss_committee_id_hash r) =? 32)%nat then None else
  if is_empty (ss_committee_members r) then None else
  if negb (length (ss_committee_members r) =? length (ss_VK_i r))%nat then None else
  if (ss_threshold r =? 0) || (zlen (ss_committee_members r) <? ss_threshold r) then None else
  if negb (forallb (fun m => length m =? 32)%nat (ss_committee_members r)) then None else
  if negb (forallb (fun m => length m =? PAILLIER_CT_BYTES)%nat (ss_VK_i r)) then None else
  Some (le_bytes 4 2 ++ le_bytes 8 (ss_share_set_id r) ++ le_bytes 8 (ss_height r) ++ le_bytes 4 (ss_threshold r) ++
        push_bytes (ss_key_id r) ++ push_bytes (ss_committee_id_hash r) ++
        push_list push_bytes (ss_committee_members r) ++ concat (map push_bytes (ss_VK_i r)) ++
        le_bytes 8 (ss_base_share_set_id r) ++ push_list push_bytes (ss_contributions r) ++
        push_list (le_bytes 4) (ss_contributor_indices r) ++ push_list push_bytes (ss_contributor_vk r)).

(** A counted list of at most [m] elements. *)
Definition pull_list {A} (m : Z) (r : reader A) : reader (list A) := fun d =>
  '(n, d) ← read_le 4 d;
  if m <? n then None else read_n r (Z.to_nat n) d.

Definition pull_sized (n : nat) : reader bytes := fun d =>
  '(l, d) ← pull_bytes d;
  if negb (length l =? n)%nat then None else Some (l, d).

(** Version 1 has no evidence. *)
Definition read_share_set : reader dao_share_set_record := fun d =>
  '(v, d) ← read_le 4 d;
  if negb (v =? 1) && negb (v =? 2) then None else
  '(ssid, d) ← read_le 8 d; '(ht, d) ← read_le 8 d; '(thr, d) ← read_le 4 d;
  '(kid, d) ← pull_sized 32 d; '(cih, d) ← pull_sized 32 d; '(n, d) ← read_le 4 d;
  if (n =? 0) || (DAO_DKG_MAX_COMMITTEE_SIZE <? n) then None else
  if (thr =? 0) || (n <? thr) then None else
  '(members, d) ← read_n (pull_sized 32) (Z.to_nat n) d;
  '(vks, d) ← read_n (pull_sized PAILLIER_CT_BYTES) (Z.to_nat n) d;
  '(base, cs, cis, cvks, d) ←
     (if v =? 2 then
        '(base, d) ← read_le 8 d;
        '(cs, d) ← pull_list DAO_DKG_MAX_COMMITTEE_SIZE pull_bytes d;
        '(cis, d) ← pull_list DAO_DKG_MAX_COMMITTEE_SIZE (read_le 4) d;
        '(cvks, d) ← pull_list DAO_DKG_MAX_COMMITTEE_SIZE pull_bytes d;
        Some (base, cs, cis, cvks, d)
      else Some (0, [], [], [], d));
  Some ({| ss_version := v; ss_share_set_id := ssid; ss_height := ht; ss_threshold := thr; ss_key_id := kid;
           ss_committee_id_hash := cih; ss_committee_members := members; ss_VK_i := vks; ss_base_share_set_id := base;
           ss_contributions := cs; ss_contributor_indices := cis; ss_contributor_vk := cvks |}, d).

Definition share_set_deserialize (inp : bytes) : option dao_share_set_record := parse_all read_share_set inp.
