(* ===== verification/ReshareProofs.v ===== *)
(** * A contribution to a resharing is accepted

    What an honest contributor produces passes every check of a new member and of
    the public verifier, and survives its encoding. *)

From Stdlib Require Import Zcong.
From Stdlib Require Import Zmod Zstar.
From S2P Require Import Prelude Archive Paillier Threshold DkgProofs Pedersen Reshare.

(** ** Lists built round by round *)

Lemma mapM_total {A B} (f : A -> option B) (g : A -> B) l : (forall x, x ∈ l -> f x = Some (g x)) -> mapM f l = Some (map g l).
Proof.
  intros Hf. apply mapM_Some. induction l as [|x l IH]; constructor; [apply Hf; left|].
  apply IH. intros y Hy. apply Hf. by right.
Qed.

Lemma nth_map_seq {A} (g : nat -> A) n l d : (l < n)%nat -> nth l (map g (seq 0 n)) d = g l.
Proof. intros Hl. rewrite (nth_indep _ d (g 0%nat)) by (by rewrite length_map, length_seq). rewrite map_nth, seq_nth; [done|done]. Qed.

Lemma forallb_rounds (p : nat -> bool) n : (forall l, (l < n)%nat -> p l = true) -> forallb p (seq 0 n) = true.
Proof. intros Hp. apply forallb_forall. intros l Hl%in_seq. apply Hp. lia. Qed.

Lemma signed_pad_default v n : Z.abs v < 256 ^ Z.of_nat n -> signed_pad v n = Some (default [] (signed_pad v n)).
Proof. intros [l ->]%signed_pad_fits. done. Qed.

Lemma binpad_fits v n : 0 <= v < 256 ^ Z.of_nat n -> BN_bn2binpad v n = Some (binpad v n).
Proof. intros Hv. unfold binpad. by destruct (BN_bn2binpad_fits v n Hv) as [l ->]. Qed.

Section contributor.
Context `{DigestLaws} (pk : PaillierPublicKey) (Hpk : pk_ok pk) (V : bytes) (HV : is_ct pk V).
Notation N2 := (pk_N2 pk).
Notation v := (ct_unit pk V).

Lemma V_value : BN_bin2bn V = unit_val v.
Proof using Hpk HV. symmetry. by apply unit_val_ct. Qed.

Lemma V_length : length V = PAILLIER_CT_BYTES.
Proof using Hpk HV. by destruct (proj1 (is_valid_ciphertext_true pk Hpk V) (proj1 HV)). Qed.

Lemma V_modexp e : modexp_signed (BN_bin2bn V) e N2 = Some (unit_val (Zstar.pow v e)).
Proof using Hpk HV. rewrite V_value. apply modexp_unit. by apply pk_N2_pos. Qed.

Lemma V_mod_exp e : 0 <= e -> BN_mod_exp (BN_bin2bn V) e N2 = unit_val (Zstar.pow v e).
Proof using Hpk HV. intros He. rewrite V_value. apply mod_exp_unit; [by apply pk_N2_pos|done]. Qed.

(** ** The link proof *)

Record link_ok (ctx : dao_reshare_link_context) (s mu : Z) : Prop := {
  lk_N : BN_bin2bn (lc_N ctx) = pk_N pk;
  lk_N_length : length (lc_N ctx) = PAILLIER_MODULUS_BYTES;
  lk_V : lc_V ctx = V;
  lk_VK : lc_VK_i ctx = verification_key pk V s;
  lk_C : lc_C_i0 ctx = ct_bytes pk (Zstar.pow v (mu * s));
  lk_Delta : BN_bin2bn (lc_Delta ctx) = dao_dkg_delta;
  lk_mu : bn_from_signed (lc_mu_i ctx) = Some mu;
}.

Lemma link_bases_spec ctx s mu : link_ok ctx s mu ->
  link_bases ctx = Some (N2, unit_val (Zstar.pow v dao_dkg_delta), unit_val (Zstar.pow v mu)).
Proof using Hpk HV.
  intros [EN _ EV _ _ ED Emu]. unfold link_bases. rewrite Emu. cbn [mbind option_bind]. rewrite EN, EV, ED.
  pose proof (pk_N2_pos pk Hpk). rewrite <- (proj2 Hpk).
  rewrite (proj2 (Z.eqb_neq _ _)) by lia. rewrite !V_modexp. done.
Qed.

(** One round: [z = r] or [z = r + s]. *)
Lemma link_equation_ok (g : Zstar.Zstar N2) r s (e : bool) : link_equation N2 (unit_val g) (if e then r + s else r)
  (unit_val (Zstar.pow g r)) (unit_val (Zstar.pow g s)) e = true.
Proof using Hpk.
  unfold link_equation. rewrite modexp_unit by (by apply pk_N2_pos). apply Z.eqb_eq. destruct e; [|done].
  by rewrite <- unit_val_mul, <- Zstar.pow_add_r.
Qed.

Definition link_wf (p : dao_reshare_link_proof) : Prop :=
  length (lp_A p) = REPS /\ length (lp_B p) = REPS /\ length (lp_Z p) = REPS /\
  Forall (fun a => length a = PAILLIER_CT_BYTES) (lp_A p) /\ Forall (fun a => length a = PAILLIER_CT_BYTES) (lp_B p) /\
  Forall (fun z => length z = (1 + SCALAR_BYTES)%nat /\ sign_ok z = true) (lp_Z p).

Lemma sign_ok_pad x n z : signed_pad x n = Some z -> sign_ok z = true.
Proof. unfold signed_pad. intros E. apply bind_Some in E as (m & _ & [= <-]). unfold sign_ok. cbn. by case_match. Qed.

Lemma link_complete ctx s mu rs : link_ok ctx s mu -> Z.abs s < 2 ^ WITNESS_BITS ->
  (forall l, Z.abs (rs l) < 2 ^ (WITNESS_BITS + STATISTICAL_BITS)) ->
  exists p, dao_reshare_link_prove ctx s rs = Some p /\ dao_reshare_link_verify ctx p = true /\ link_wf p.
Proof using Hpk HV.
  intros Hl Hs Hr. pose proof (link_bases_spec ctx s mu Hl) as Eb. destruct Hl as [EN LN EV EVK EC ED Emu].
  pose proof (pk_N2_pos pk Hpk) as HM.
  assert (forall (b : bool) l, Z.abs (if b then rs l + s else rs l) < 256 ^ Z.of_nat SCALAR_BYTES) as Hz.
  { intros b l. specialize (Hr l). change (256 ^ Z.of_nat SCALAR_BYTES) with ((2 ^ 8) ^ 1267). rewrite <- Z.pow_mul_r by lia.
    apply Z.lt_le_trans with (2 ^ (WITNESS_BITS + STATISTICAL_BITS) + 2 ^ WITNESS_BITS); [destruct b; lia|].
    apply Z.le_trans with (2 ^ (WITNESS_BITS + STATISTICAL_BITS) + 2 ^ (WITNESS_BITS + STATISTICAL_BITS)).
    - apply Z.add_le_mono_l, Z.pow_le_mono_r; done.
    - replace (2 ^ (WITNESS_BITS + STATISTICAL_BITS) + 2 ^ (WITNESS_BITS + STATISTICAL_BITS)) with (2 ^ Z.succ (WITNESS_BITS + STATISTICAL_BITS))
        by (rewrite Z.pow_succ_r by done; ring). apply Z.pow_le_mono_r; done. }
  unfold dao_reshare_link_prove. rewrite LN, EV, V_length, EVK, EC. unfold verification_key.
  rewrite !(length_ct_bytes pk Hpk), !Nat.eqb_refl. cbn [negb]. rewrite Eb. cbn [mbind option_bind].
  set (u1 := Zstar.pow v dao_dkg_delta). set (u2 := Zstar.pow v mu).
  rewrite (mapM_total _ (fun l => ct_bytes pk (Zstar.pow u2 (rs l)))).
  2: { intros l _. rewrite modexp_unit by done. cbn [mbind option_bind]. by apply bn2binpad_unit. }
  rewrite (mapM_total _ (fun l => ct_bytes pk (Zstar.pow u1 (rs l)))).
  2: { intros l _. rewrite modexp_unit by done. cbn [mbind option_bind]. by apply bn2binpad_unit. }
  cbn [mbind option_bind]. set (bits := challenge_bits _).
  rewrite (mapM_total _ (fun l => default [] (signed_pad (if bit_at bits l then rs l + s else rs l) SCALAR_BYTES))).
  2: { intros l _. apply signed_pad_default, Hz. }
  cbn [mbind option_bind]. eexists. split; [reflexivity|]. split.
  - unfold dao_reshare_link_verify. cbn [lp_A lp_B lp_Z]. rewrite !length_map, length_seq, LN, Eb, !Nat.eqb_refl. cbn [negb orb].
    fold bits. apply forallb_rounds. intros l Hl. rewrite !nth_map_seq by done. unfold link_round_ok.
    pose proof (signed_pad_default _ _ (Hz (bit_at bits l) l)) as Ez.
    rewrite !(length_ct_bytes pk Hpk), (signed_pad_length _ _ _ Ez), !Nat.eqb_refl. cbn [negb].
    rewrite (signed_unpad_pad _ _ _ Ez), EVK, EC. unfold verification_key.
    rewrite !(bin2bn_ct_bytes pk Hpk), !Zstar.pow_mul_r. apply andb_true_intro. split; apply link_equation_ok.
  - unfold link_wf. cbn [lp_A lp_B lp_Z]. rewrite !length_map, length_seq. do 3 (split; [done|]).
    split_and!; apply Forall_map, Forall_true; intros l; [by apply length_ct_bytes..|].
    pose proof (signed_pad_default _ _ (Hz (bit_at bits l) l)) as Ez.
    split; [apply (signed_pad_length _ _ _ Ez)|apply (sign_ok_pad _ _ _ Ez)].
Qed.

(** ** The link of a coefficient *)

Context (grp : dao_vss_group) (Hg : vss_ok grp).
Notation veb := (BN_num_bytes (vss_P grp)).

Definition coeff_link_wf (p : dao_reshare_coeff_link_proof) : Prop :=
  length (cl_A_paillier p) = REPS /\ length (cl_A_vss p) = REPS /\ length (cl_Z_x p) = REPS /\ length (cl_Z_rho p) = REPS /\
  Forall (fun a => length a = PAILLIER_CT_BYTES) (cl_A_paillier p) /\ Forall (fun a => length a = veb) (cl_A_vss p) /\
  Forall (fun a => length a = ZX_BYTES) (cl_Z_x p) /\ Forall (fun a => length a = veb) (cl_Z_rho p).

(** One round in the group of the commitments. *)
Lemma coeff_equation_ok a u x rho (e : bool) : 0 <= a -> 0 <= u -> 0 <= x -> 0 <= rho ->
  commit grp (if e then a + x else a) ((if e then u + rho else u) mod vss_P_prime grp) =
  if e then (unit_val (ped grp a u) * commit grp x rho) mod vss_P grp else unit_val (ped grp a u).
Proof using Hg.
  intros Ha Hu Hx Hr. rewrite (commit_spec grp Hg x) by done. rewrite commit_spec; [|done|destruct e; lia|apply mod_order, Hg].
  destruct e; [rewrite pval_mul|]; f_equal; apply (ped_eq grp Hg); congr_ring || reflexivity.
Qed.

Lemma scalar_fits z : BN_bn2binpad (z mod vss_P_prime grp) veb = Some (binpad (z mod vss_P_prime grp) veb).
Proof using Hg.
  apply binpad_fits. pose proof (mod_order grp Hg z). pose proof (num_bytes_fit (vss_P grp)).
  pose proof (vok_safe _ Hg). pose proof (vok_P_prime _ Hg). lia.
Qed.

Lemma element_fits a b : BN_bn2binpad (unit_val (ped grp a b)) veb = Some (binpad (unit_val (ped grp a b)) veb).
Proof using Hg. apply binpad_fits. pose proof (pval_range grp Hg a b). pose proof (num_bytes_fit (vss_P grp)). lia. Qed.

Lemma commit_fits x rho : 0 <= x -> 0 <= rho -> 0 <= commit grp x rho < 256 ^ Z.of_nat veb.
Proof using Hg.
  intros Hx Hr. rewrite commit_spec by done. pose proof (pval_range grp Hg x rho). pose proof (num_bytes_fit (vss_P grp)). lia.
Qed.

Lemma coeff_link_complete ctx (G : Zstar.Zstar N2) x rho a u : cc_G ctx = ct_bytes pk G -> cc_Y ctx = ct_bytes pk (Zstar.pow G x) ->
  length (cc_C_ik ctx) = PAILLIER_CT_BYTES -> cc_D_x ctx = binpad (commit grp x rho) veb ->
  0 <= x < 2 ^ 65 -> 0 <= rho -> (forall l, 0 <= a l < 2 ^ 193) -> (forall l, 0 <= u l) ->
  exists p, dao_reshare_coeff_link_prove pk grp ctx x rho a u = Some p /\
    dao_reshare_coeff_link_verify pk grp ctx p = true /\ coeff_link_wf p.
Proof using Hpk Hg.
  intros EG EY LC ED Hx Hr Ha Hu. pose proof (pk_N2_pos pk Hpk) as HM.
  assert (forall (b : bool) l, 0 <= (if b then a l + x else a l) < 2 ^ 194) as Hz by (intros b l; specialize (Ha l); destruct b; lia).
  assert (forall (b : bool) l, BN_bn2binpad (if b then a l + x else a l) ZX_BYTES = Some (binpad (if b then a l + x else a l) ZX_BYTES)) as Fz.
  { intros b l. apply binpad_fits. specialize (Hz b l). change (256 ^ Z.of_nat ZX_BYTES) with (2 ^ 256). lia. }
  unfold dao_reshare_coeff_link_prove. rewrite (proj2 (Z.ltb_ge x 0)), (proj2 (Z.ltb_ge rho 0)) by lia. cbn [orb].
  rewrite EG, LC, EY, ED, !(length_ct_bytes pk Hpk), length_binpad, !Nat.eqb_refl, (bin2bn_ct_bytes pk Hpk). cbn [negb].
  rewrite (mapM_total _ (fun l => binpad (unit_val (ped grp (a l) (u l))) veb)).
  2: { intros l _. rewrite commit_spec by (done || apply Ha || apply Hu). apply element_fits. }
  rewrite (mapM_total _ (fun l => ct_bytes pk (Zstar.pow G (a l)))).
  2: { intros l _. rewrite mod_exp_unit by (done || apply Ha). by apply bn2binpad_unit. }
  cbn [mbind option_bind]. set (bits := challenge_bits _).
  rewrite (mapM_total _ (fun l => binpad ((if bit_at bits l then u l + rho else u l) mod vss_P_prime grp) veb)) by (intros; apply scalar_fits).
  rewrite (mapM_total _ (fun l => binpad (if bit_at bits l then a l + x else a l) ZX_BYTES)) by (intros; apply Fz).
  cbn [mbind option_bind]. eexists. split; [reflexivity|]. split.
  - unfold dao_reshare_coeff_link_verify. cbn [cl_A_paillier cl_A_vss cl_Z_x cl_Z_rho].
    rewrite !length_map, length_seq, EG, LC, EY, ED, !(length_ct_bytes pk Hpk), length_binpad, !Nat.eqb_refl, !(bin2bn_ct_bytes pk Hpk).
    cbn [negb]. unfold is_unit_mod.
    rewrite !(proj2 (Z.eqb_eq (Z.gcd _ _) 1)) by apply unit_val_coprime. cbn [negb orb].
    fold bits. apply forallb_rounds. intros l Hl. rewrite !nth_map_seq by done. unfold coeff_round_ok.
    rewrite !length_binpad, !(length_ct_bytes pk Hpk), !Nat.eqb_refl. cbn [negb]. set (e := bit_at bits l).
    rewrite (bin2bn_ct_bytes pk Hpk), (pval_bytes grp Hg), (bin2bn_binpad (if e then _ else _) ZX_BYTES)
      by (specialize (Hz e l); change (256 ^ Z.of_nat ZX_BYTES) with (2 ^ 256); lia).
    rewrite (proj2 (Z.leb_gt _ _)) by apply Hz. apply andb_true_intro. split; apply Z.eqb_eq.
    + rewrite mod_exp_unit by (done || apply Hz). destruct e; [|done]. by rewrite <- unit_val_mul, <- Zstar.pow_add_r.
    + rewrite bin2bn_binpad, (bin2bn_binpad (commit grp x rho)).
      * apply coeff_equation_ok; [apply Ha|apply Hu|lia|done].
      * apply commit_fits; lia.
      * pose proof (mod_order grp Hg (if e then u l + rho else u l)). pose proof (num_bytes_fit (vss_P grp)).
        pose proof (vok_safe _ Hg). pose proof (vok_P_prime _ Hg). lia.
  - unfold coeff_link_wf. cbn [cl_A_paillier cl_A_vss cl_Z_x cl_Z_rho]. rewrite !length_map, length_seq. do 4 (split; [done|]).
    split_and!; apply Forall_map, Forall_true; intros l; apply length_binpad || by apply length_ct_bytes.
Qed.

(** ** Dealing *)

Context (Hsize : (veb <= 1024)%nat).

Record coeff_drawn (r : coeff_random) : Prop := {
  cd_x : 0 <= cr_x r < 2 ^ (DAO_RESHARE_COEFF_BITS + 1);
  cd_rho : 0 <= cr_rho r < vss_P_prime grp;
  cd_bits : forall j, drawn grp (cr_bits r j);
  cd_link : 0 <= cr_range_link r < vss_P_prime grp;
  cd_a : forall l, 0 <= cr_a r l < 2 ^ 193;
  cd_u : forall l, 0 <= cr_u r l < vss_P_prime grp;
}.

(** The exponent of the commitment to a coefficient. *)
Definition coeff_exponent (r : coeff_random) : Z := dao_dkg_delta * coeff_scale * coeff_value r.

Record coeff_dealt (r : coeff_random) (d : dealt_coeff) : Prop := {
  dd_C : dc_C_k d = ct_bytes pk (Zstar.pow v (coeff_exponent r));
  dd_commitment : length (dc_range_commitment d) = veb;
  dd_range : zlen (dc_range_proof d) < 2 ^ 20;
  dd_link : coeff_link_wf (dc_link_proof d);
}.

Lemma scale_nonneg : 0 <= dao_dkg_delta * coeff_scale.
Proof. apply Z.mul_nonneg_nonneg; [done|]. by apply Z.shiftl_nonneg. Qed.

Lemma length_concat_le {A} (e : A -> bytes) (l : list A) n : Forall (fun x => (length (e x) <= n)%nat) l ->
  (length (concat (map e l)) <= n * length l)%nat.
Proof. induction 1 as [|x l Hx _ IH]; cbn [map concat length]; [lia|]. rewrite length_app. lia. Qed.

Lemma length_push_bytes l : length (push_bytes l) = (4 + length l)%nat.
Proof. unfold push_bytes. by rewrite length_app, length_le_bytes. Qed.

Lemma P_prime_bytes : (BN_num_bytes (vss_P_prime grp) <= 1024)%nat.
Proof using Hg Hsize.
  etransitivity; [|exact Hsize]. unfold BN_num_bytes. pose proof (vok_safe _ Hg). pose proof (vok_P_prime _ Hg).
  rewrite !(proj2 (Z.eqb_neq _ 0)) by lia. apply Z2Nat.inj_le; try (pose proof (Z.div_pos (Z.log2 (Z.abs (vss_P grp))) 8 (Z.log2_nonneg _)); pose proof (Z.div_pos (Z.log2 (Z.abs (vss_P_prime grp))) 8 (Z.log2_nonneg _)); lia).
  apply Z.add_le_mono_r, Z.div_le_mono; [lia|]. apply Z.log2_le_mono. lia.
Qed.

Lemma range_proof_size party tag x rho C_x bits rnd u p : 0 <= bits <= DAO_RESHARE_COEFF_BITS + 1 ->
  dao_range_prove grp party tag x rho C_x bits rnd u = Some p -> zlen (range_proof_serialize p) < 2 ^ 20.
Proof using Hg Hsize.
  intros Hb E. pose proof P_prime_bytes as HP'. unfold dao_range_prove in E. do 4 (split_if_in E; [done|]).
  apply bind_Some in E as (pi & _ & E). apply bind_Some in E as (bps & Eb & [= <-]).
  unfold range_proof_serialize, zlen. cbn [rp_bits rp_bit_commitments rp_bit_proofs rp_link_a rp_link_z].
  rewrite !length_app, !length_push_bytes, !length_le_bytes, !length_binpad.
  pose proof (length_mapM _ _ _ Eb) as L. rewrite length_seq in L. apply mapM_Some_1 in Eb.
  assert (Forall (fun bp => (length (write_bit_proof bp) <= 6 * 1028)%nat) bps) as F1.
  { clear L. induction Eb as [|j bp js bps E _ IH]; constructor; [|done]. unfold prove_bit in E.
    apply bind_Some in E as (gi & _ & E). apply bind_Some in E as (xi & _ & [= <-]). unfold write_bit_proof.
    rewrite !length_app, !length_push_bytes. cbn [br_A_0 br_A_1 br_c_0 br_c_1 br_z_0 br_z_1]. rewrite !length_binpad. lia. }
  apply length_concat_le in F1. match goal with |- context [concat (map push_bytes ?l)] => pose proof (length_concat_le push_bytes l 1028) as F2 end.
  rewrite !length_map, length_seq in F2. unfold DAO_RESHARE_COEFF_BITS in Hb.
  specialize (F2 ltac:(apply Forall_map, Forall_map, Forall_true; intros j; rewrite length_push_bytes, length_binpad; lia)). lia.
Qed.

Lemma deal_coeff_complete ctx k r : coeff_drawn r ->
  exists d, deal_coeff pk grp V ctx dao_dkg_delta (BN_mod_exp (BN_bin2bn V) (dao_dkg_delta * coeff_scale) N2) k r = Some d /\
    coeff_dealt r d /\
    coeff_ok pk grp V ctx k (dc_C_k d) (dc_range_commitment d) (dc_range_proof d) (dc_link_proof d) = true.
Proof using Hpk HV Hg Hsize.
  intros [Hx Hrho Hbits Hlink Ha Hu]. pose proof (pk_N2_pos pk Hpk) as HM. pose proof scale_nonneg as Hsc.
  unfold deal_coeff. rewrite V_modexp. cbn [mbind option_bind]. rewrite (bn2binpad_unit pk Hpk). cbn [mbind option_bind].
  fold (coeff_exponent r). set (G := Zstar.pow v (dao_dkg_delta * coeff_scale)).
  assert (BN_mod_exp (BN_bin2bn V) (dao_dkg_delta * coeff_scale) N2 = unit_val G) as EG by (by apply V_mod_exp). rewrite EG.
  assert ((BN_mod_exp (unit_val G) coeff_half N2 * unit_val (Zstar.pow v (coeff_exponent r))) mod N2 = unit_val (Zstar.pow G (cr_x r))) as EY.
  { rewrite mod_exp_unit, <- unit_val_mul by (done || by apply Z.shiftl_nonneg). f_equal. unfold G, coeff_exponent, coeff_value. one_base. }
  rewrite EY.
  destruct (range_complete grp Hg (lc_original_index ctx) k (cr_x r) (cr_rho r) (DAO_RESHARE_COEFF_BITS + 1) (cr_bits r) (cr_range_link r))
    as (rp & Erp & Vrp); [unfold DAO_RESHARE_COEFF_BITS; lia|exact Hx|lia|exact Hbits|exact Hlink|].
  rewrite Erp. cbn [mbind option_bind]. rewrite (commit_spec grp Hg) by lia. rewrite element_fits. cbn [mbind option_bind].
  rewrite <- (commit_spec grp Hg) by lia. set (D := binpad (commit _ _ _) veb). set (rpb := range_proof_serialize rp).
  destruct (coeff_link_complete (coeff_context ctx k (unit_val G) (unit_val (Zstar.pow G (cr_x r)))
      (ct_bytes pk (Zstar.pow v (coeff_exponent r))) D rpb) G (cr_x r) (cr_rho r) (cr_a r) (cr_u r)) as (lp & Elp & Vlp & Wlp);
    [by apply binpad_unit|by apply binpad_unit|by apply length_ct_bytes|reflexivity|exact Hx|lia|exact Ha|apply Hu|].
  rewrite Elp. cbn [mbind option_bind]. eexists. split; [reflexivity|]. split.
  - split; [done|apply length_binpad| |done]. refine (range_proof_size _ _ _ _ _ _ _ _ _ _ Erp). split; [done|reflexivity].
  - unfold coeff_ok. cbn [dc_C_k dc_range_commitment dc_range_proof dc_link_proof]. unfold D at 1. rewrite length_binpad, Nat.eqb_refl. cbn [negb].
    unfold rpb at 1. rewrite range_proof_roundtrip by (eapply range_prove_wf; [| | |exact Erp]; pose proof P_prime_bytes; unfold DAO_RESHARE_COEFF_BITS; lia).
    unfold D at 1. rewrite bin2bn_binpad by (apply commit_fits; lia).
    rewrite Vrp, EG, (bin2bn_ct_bytes pk Hpk), EY. exact Vlp.
Qed.

(** ** Commitments at a member's index *)

Lemma commitments_at_spec es j acc jpow : 0 <= j -> 0 <= jpow ->
  commitments_at pk j (map (fun e => ct_bytes pk (Zstar.pow v e)) es) (unit_val (Zstar.pow v acc)) jpow =
  unit_val (Zstar.pow v (acc + evaluate es j (jpow * j))).
Proof using Hpk.
  clear Hsize. intros Hj. revert acc jpow. induction es as [|e es IH]; intros acc jpow Hp; cbn [map commitments_at evaluate].
  - by rewrite Z.add_0_r.
  - rewrite (bin2bn_ct_bytes pk Hpk), mod_exp_unit, <- unit_val_mul by (by apply pk_N2_pos || nia).
    rewrite <- Zstar.pow_mul_r, <- Zstar.pow_add_r, IH by nia. do 2 f_equal. ring.
Qed.

(** What a contributor deals to new member [j]. *)
Definition dealt_value (s mu : Z) (coeffs : list coeff_random) (j : Z) : Z :=
  mu * s + evaluate (map coeff_exponent coeffs) j j.

Lemma evaluate_abs l L i p : Forall (fun a => Z.abs a <= L) l -> 0 <= i -> 0 <= p -> 0 <= L ->
  Z.abs (evaluate l i p) <= L * evaluate (replicate (length l) 1) i p.
Proof.
  intros F Hi. revert p. induction F as [|a l Ha F IH]; intros p Hp HL; cbn [evaluate length replicate]; [lia|].
  specialize (IH (p * i) ltac:(nia) HL).
  assert (Z.abs (a * p) <= L * p) by (rewrite Z.abs_mul, (Z.abs_eq p) by done; by apply Z.mul_le_mono_nonneg_r). lia.
Qed.

Lemma powers_bound b n i p a : 0 <= b -> 0 <= i <= 2 ^ b -> 0 <= p <= 2 ^ a -> 0 <= a ->
  0 <= evaluate (replicate n 1) i p <= Z.of_nat n * 2 ^ (a + b * Z.of_nat n).
Proof.
  intros Hb Hi. revert p a. induction n as [|n IH]; intros p a Hp Ha; cbn [evaluate replicate]; [lia|].
  assert (0 <= p * i <= 2 ^ (a + b)) as Hpi by (rewrite Z.pow_add_r by lia; split; [nia|apply Z.mul_le_mono_nonneg; lia]).
  specialize (IH (p * i) (a + b) Hpi ltac:(lia)).
  replace (a + b + b * Z.of_nat n) with (a + b * Z.of_nat (S n)) in IH by lia.
  assert (2 ^ a <= 2 ^ (a + b * Z.of_nat (S n))) by (apply Z.pow_le_mono_r; nia). lia.
Qed.

Lemma coeff_exponent_bound r : coeff_drawn r -> Z.abs (coeff_exponent r) <= 2 ^ (45 + 8281 + 64).
Proof.
  intros [Hx _ _ _ _ _]. unfold coeff_exponent, coeff_value. rewrite !Z.abs_mul.
  unfold coeff_half, coeff_scale, DAO_RESHARE_COEFF_SCALE_BITS. rewrite !Z.shiftl_1_l. rewrite !Z.pow_add_r by lia.
  rewrite (Z.abs_eq (2 ^ 8281)) by (apply Z.pow_nonneg; lia).
  apply Z.mul_le_mono_nonneg; [apply Z.mul_nonneg_nonneg; [lia|apply Z.pow_nonneg; lia]| |lia|].
  - apply Z.mul_le_mono_nonneg_r; [apply Z.pow_nonneg; lia|done].
  - unfold DAO_RESHARE_COEFF_BITS in *. lia.
Qed.

Lemma coeffs_value_bound b n coeffs j : 0 <= b -> Forall coeff_drawn coeffs -> zlen coeffs <= n <= 256 -> 0 <= j <= 2 ^ b ->
  Z.abs (evaluate (map coeff_exponent coeffs) j j) <= 2 ^ (45 + 8281 + 64 + (8 + (b + b * n))).
Proof.
  intros Hb F Hn Hj. pose proof (powers_bound b (length coeffs) j j b Hb Hj Hj Hb) as B.
  assert (evaluate (replicate (length coeffs) 1) j j <= 2 ^ (8 + (b + b * n))) as B2.
  { unfold zlen in Hn. rewrite (Z.pow_add_r 2 8) by nia. etransitivity; [apply B|].
    apply Z.mul_le_mono_nonneg; [lia|lia|apply Z.pow_nonneg; lia|apply Z.pow_le_mono_r; nia]. }
  apply proj1 in B. etransitivity; [apply (evaluate_abs _ (2 ^ (45 + 8281 + 64)))|].
  - apply Forall_map. eapply Forall_impl; [exact F|]. apply coeff_exponent_bound.
  - apply Hj.
  - apply Hj.
  - by apply Z.pow_nonneg.
  - rewrite length_map, (Z.pow_add_r 2 (45 + 8281 + 64)) by (done || (unfold zlen in Hn; nia)).
    apply Z.mul_le_mono_nonneg_l; [by apply Z.pow_nonneg|exact B2].
Qed.

Lemma dealt_value_bound s mu coeffs j : Z.abs s < 2 ^ WITNESS_BITS -> Z.abs mu < 256 ^ 512 -> Forall coeff_drawn coeffs ->
  zlen coeffs <= 256 -> 0 <= j < 2 ^ 32 -> Z.abs (dealt_value s mu coeffs j) < 2 ^ 16700.
Proof.
  intros Hs Hmu F Hn Hj. unfold dealt_value. apply (abs_add_pow _ _ (45 + 8281 + 64 + (8 + (32 + 32 * 256)))); [done|done| |].
  - change (256 ^ 512) with ((2 ^ 8) ^ 512) in Hmu. rewrite <- Z.pow_mul_r in Hmu by done.
    etransitivity; [apply (abs_mul_pow _ _ (8 * 512) WITNESS_BITS); [done|done|by apply Z.lt_le_incl..]|]. by apply Z.pow_le_mono_r.
  - apply (coeffs_value_bound 32 256); [done|done|done|]. split; [apply Hj|apply Z.lt_le_incl, Hj].
Qed.

Lemma dealt_value_fits s mu coeffs j : Z.abs s < 2 ^ WITNESS_BITS -> Z.abs mu < 256 ^ 512 -> Forall coeff_drawn coeffs ->
  zlen coeffs <= 256 -> 0 <= j < 2 ^ 32 ->
  Z.abs (dealt_value s mu coeffs j) < 256 ^ Z.of_nat (DAO_RESHARE_SIGNED_BYTES - 1).
Proof.
  intros Hs Hmu F Hn Hj. change (256 ^ Z.of_nat (DAO_RESHARE_SIGNED_BYTES - 1)) with ((2 ^ 8) ^ 2320).
  rewrite <- Z.pow_mul_r by done. eapply Z.lt_le_trans; [by apply dealt_value_bound|by apply Z.pow_le_mono_r].
Qed.

(** ** The contribution *)

(** What a contributor with share [s] and multiplier [mu] starts from. *)
Record contributor_ready (ctx : dao_reshare_link_context) (s mu : Z) (rs : nat -> Z) (coeffs : list coeff_random) : Prop := {
  cy_N : BN_bin2bn (lc_N ctx) = pk_N pk;
  cy_N_length : length (lc_N ctx) = PAILLIER_MODULUS_BYTES;
  cy_V : lc_V ctx = V;
  cy_VK : lc_VK_i ctx = verification_key pk V s;
  cy_Delta : BN_bin2bn (lc_Delta ctx) = dao_dkg_delta;
  cy_mu : Z.abs mu < 256 ^ 512;
  cy_s : Z.abs s < 2 ^ WITNESS_BITS;
  cy_rs : forall l, Z.abs (rs l) < 2 ^ (WITNESS_BITS + STATISTICAL_BITS);
  cy_degree : 0 < zlen coeffs <= 256;
  cy_coeffs : Forall coeff_drawn coeffs;
}.

Lemma ready_link ctx s mu rs coeffs m : contributor_ready ctx s mu rs coeffs -> signed_pad mu 512 = Some m ->
  link_ok (with_constant ctx (ct_bytes pk (Zstar.pow v (mu * s))) m) s mu.
Proof.
  intros [] Em. split; cbn [with_constant lc_N lc_V lc_VK_i lc_C_i0 lc_Delta lc_mu_i]; try done.
  unfold bn_from_signed. rewrite (signed_pad_length _ _ _ Em). change (negb (513 =? 513)%nat) with false. cbn [negb].
  apply (signed_unpad_pad _ _ _ Em).
Qed.

Lemma deal_coeffs_complete ctx krs : Forall (fun kr => coeff_drawn (snd kr)) krs ->
  exists dealt, mapM (fun kr : nat * coeff_random => deal_coeff pk grp V ctx dao_dkg_delta
      (BN_mod_exp (BN_bin2bn V) (dao_dkg_delta * coeff_scale) N2) (Z.of_nat (fst kr) + 1) (snd kr)) krs = Some dealt /\
    Forall2 (fun kr d => coeff_dealt (snd kr) d /\
      coeff_ok pk grp V ctx (Z.of_nat (fst kr) + 1) (dc_C_k d) (dc_range_commitment d) (dc_range_proof d) (dc_link_proof d) = true)
      krs dealt.
Proof using Hpk HV Hg Hsize.
  induction 1 as [|kr krs Hr _ (dealt & E & F)]; [by exists []|].
  destruct (deal_coeff_complete ctx (Z.of_nat (fst kr) + 1) (snd kr) Hr) as (d & Ed & Hd & Ok).
  exists (d :: dealt). cbn [mapM]. rewrite Ed. cbn [mbind option_bind]. rewrite E. split; [done|]. by constructor.
Qed.

Lemma dealt_coeffs_ok ctx coeffs dealt C_0 :
  Forall2 (fun kr d => coeff_dealt (snd kr) d /\
    coeff_ok pk grp V ctx (Z.of_nat (fst kr) + 1) (dc_C_k d) (dc_range_commitment d) (dc_range_proof d) (dc_link_proof d) = true)
    (zip (seq 0 (length coeffs)) coeffs) dealt ->
  coeffs_ok pk grp V ctx {| vc_t_new := zlen coeffs; vc_C_0 := C_0; vc_C_k := map dc_C_k dealt |}
    {| cp_range_commitments := map dc_range_commitment dealt; cp_range_proofs := map dc_range_proof dealt;
       cp_link_proofs := map dc_link_proof dealt |} = true.
Proof.
  intros F. pose proof (Forall2_length _ _ _ F) as L. rewrite length_zip, length_seq, Nat.min_id in L.
  unfold coeffs_ok. cbn [vc_t_new vc_C_k cp_range_commitments cp_range_proofs cp_link_proofs].
  unfold zlen. rewrite !length_map, <- L, Z.eqb_refl, Nat2Z.id. cbn [negb].
  apply forallb_Forall, Forall_lookup. intros i (k & D & rp & lp) Hi.
  apply lookup_zip_Some in Hi as [H1 Hi]. apply lookup_zip_Some in Hi as [H2 Hi]. apply lookup_zip_Some in Hi as [H3 H4].
  apply lookup_seq in H1 as [-> Hi]. cbn in Hi.
  destruct (lookup_lt_is_Some_2 dealt i) as [d Hd]; [lia|]. destruct (lookup_lt_is_Some_2 coeffs i) as [r Hr]; [lia|].
  rewrite lookup_map, Hd in H2. rewrite lookup_map, Hd in H3. rewrite lookup_map, Hd in H4. cbn in H2, H3, H4. simplify_eq.
  rewrite Nat.add_0_l, (nth_lookup_Some _ _ _ (dc_C_k d)) by (by rewrite lookup_map, Hd).
  destruct (Forall2_lookup_lr _ _ _ i (i, r) d F) as [_ Ok]; [|done|done].
  apply lookup_zip_Some. split; [|done]. by apply lookup_seq.
Qed.

Definition dealt_share (s mu : Z) (coeffs : list coeff_random) (j : Z) : dao_reshare_vss_share :=
  {| sh_j := j; sh_q_i_j := default [] (dao_reshare_serialize_signed (dealt_value s mu coeffs j)) |}.

Record contribution_made (ctx : dao_reshare_link_context) (s mu : Z) (coeffs : list coeff_random) (new_indices : list Z)
    (c : dao_reshare_contribution) : Prop := {
  cm_index : ct_contributor_index c = lc_original_index ctx;
  cm_pubkey : ct_contributor_pubkey c = lc_contributor_pubkey ctx;
  cm_ctx : exists m, signed_pad mu 512 = Some m /\ ct_link_ctx c = with_constant ctx (ct_bytes pk (Zstar.pow v (mu * s))) m;
  cm_degree : vc_t_new (ct_commits c) = zlen coeffs;
  cm_C_0 : vc_C_0 (ct_commits c) = ct_bytes pk (Zstar.pow v (mu * s));
  cm_C_k : vc_C_k (ct_commits c) = map (fun e => ct_bytes pk (Zstar.pow v e)) (map coeff_exponent coeffs);
  cm_shares : ct_shares c = map (dealt_share s mu coeffs) new_indices;
  cm_coeffs : coeffs_ok pk grp V (ct_link_ctx c) (ct_commits c) (ct_coeff_proofs c) = true;
  cm_link : dao_reshare_link_verify (ct_link_ctx c) (ct_link_proof c) = true;
  cm_link_wf : link_wf (ct_link_proof c);
  cm_range_commitments : Forall (fun l => length l = veb) (cp_range_commitments (ct_coeff_proofs c));
  cm_range_proofs : Forall (fun l => zlen l < 2 ^ 20) (cp_range_proofs (ct_coeff_proofs c));
  cm_link_proofs : Forall coeff_link_wf (cp_link_proofs (ct_coeff_proofs c));
}.

Lemma signed_share s mu coeffs j : Z.abs s < 2 ^ WITNESS_BITS -> Z.abs mu < 256 ^ 512 -> Forall coeff_drawn coeffs ->
  zlen coeffs <= 256 -> 0 <= j < 2 ^ 32 ->
  dao_reshare_serialize_signed (dealt_value s mu coeffs j) = Some (sh_q_i_j (dealt_share s mu coeffs j)).
Proof. intros. apply signed_pad_default. by apply dealt_value_fits. Qed.

Lemma deal_share_spec s mu coeffs j : Z.abs s < 2 ^ WITNESS_BITS -> Z.abs mu < 256 ^ 512 -> Forall coeff_drawn coeffs ->
  zlen coeffs <= 256 -> 0 <= j < 2 ^ 32 -> deal_share s mu dao_dkg_delta j coeffs = Some (dealt_share s mu coeffs j).
Proof.
  intros Hs Hmu F Hn Hj. unfold deal_share. change (mu * s + evaluate _ j j) with (dealt_value s mu coeffs j). by rewrite signed_share.
Qed.

Lemma contribution_complete ctx s mu rs coeffs new_indices : contributor_ready ctx s mu rs coeffs ->
  new_indices <> [] -> Forall (fun j => 0 <= j < 2 ^ 32) new_indices ->
  exists c, dao_reshare_make_contribution pk grp V s mu dao_dkg_delta new_indices ctx rs coeffs = Some c /\
    contribution_made ctx s mu coeffs new_indices c.
Proof using Hpk HV Hg Hsize.
  intros Hy Hne Hj. assert (exists m, signed_pad mu 512 = Some m) as [m Em] by (apply signed_pad_fits, Hy).
  pose proof (ready_link ctx s mu rs coeffs m Hy Em) as Hl. destruct Hy as [EN LN EV EVK ED Hmu Hs Hrs Hd Hcs].
  destruct (link_complete _ s mu rs Hl Hs Hrs) as (lp & Elp & Vlp & Wlp).
  set (ctx' := with_constant ctx _ m) in *.
  destruct (deal_coeffs_complete ctx' (zip (seq 0 (length coeffs)) coeffs)) as (dealt & Edealt & Fdealt).
  { apply Forall_lookup. intros i [k r] Hi. apply lookup_zip_Some in Hi as [_ Hi]. by eapply Forall_lookup in Hcs. }
  unfold dao_reshare_make_contribution. rewrite (proj2 (is_empty_false new_indices) Hne).
  unfold dao_reshare_vss_deal. rewrite (proj2 (Z.eqb_neq _ _)), (proj2 (Z.ltb_ge _ _)) by lia. cbn [orb].
  rewrite (proj2 (is_empty_false new_indices) Hne), V_length, Nat.eqb_refl. cbn [negb].
  rewrite V_modexp. cbn [mbind option_bind]. rewrite (bn2binpad_unit pk Hpk). cbn [mbind option_bind].
  rewrite Em. cbn [mbind option_bind]. fold ctx'. rewrite Elp. cbn [mbind option_bind]. rewrite Edealt. cbn [mbind option_bind].
  rewrite (mapM_total _ (dealt_share s mu coeffs)).
  2: { intros j Hin. apply deal_share_spec; try done; [lia|]. by rewrite Forall_forall in Hj; apply Hj. }
  cbn [mbind option_bind vc_C_0]. fold ctx'. eexists. split; [reflexivity|].
  split; cbn [ct_contributor_index ct_contributor_pubkey ct_link_ctx ct_link_proof ct_commits ct_coeff_proofs ct_shares
              vc_t_new vc_C_0 vc_C_k cp_range_commitments cp_range_proofs cp_link_proofs]; try done.
  - by exists m.
  - rewrite map_map. pose proof (Forall2_length _ _ _ Fdealt) as L. rewrite length_zip, length_seq, Nat.min_id in L.
    replace coeffs with (map snd (zip (seq 0 (length coeffs)) coeffs)) at 1 by (apply snd_zip; by rewrite length_seq).
    rewrite map_map. clear -Fdealt. induction Fdealt as [|kr d krs dealt [[EC _ _ _] _] _ IH]; cbn [map]; [done|]. by rewrite EC, IH.
  - by apply dealt_coeffs_ok.
  - apply Forall_map. clear -Fdealt. induction Fdealt as [|kr d krs dealt [[] _] _ IH]; by constructor.
  - apply Forall_map. clear -Fdealt. induction Fdealt as [|kr d krs dealt [[] _] _ IH]; by constructor.
  - apply Forall_map. clear -Fdealt. induction Fdealt as [|kr d krs dealt [[] _] _ IH]; by constructor.
Qed.

(** ** Its verification *)

Lemma made_public ctx s mu coeffs new_indices c : contribution_made ctx s mu coeffs new_indices c ->
  dao_reshare_vss_verify_public pk grp V (ct_link_ctx c) (ct_link_proof c) (ct_commits c) (ct_coeff_proofs c) = true.
Proof using Hpk.
  intros Hc. destruct Hc as [_ _ (m & _ & Ec) _ E0 _ _ Ok Lk _ _ _ _]. unfold dao_reshare_vss_verify_public.
  rewrite Ok, E0, Ec. cbn [with_constant lc_C_i0]. rewrite (length_ct_bytes pk Hpk), Nat.eqb_refl, beq_refl. cbn [negb].
  by rewrite Ec in Lk.
Qed.

Lemma made_commitments ctx s mu coeffs new_indices c j : contribution_made ctx s mu coeffs new_indices c -> 0 <= j ->
  commitments_at pk j (vc_C_k (ct_commits c)) (BN_bin2bn (vc_C_0 (ct_commits c))) 1 =
  unit_val (Zstar.pow v (dealt_value s mu coeffs j)).
Proof using Hpk.
  intros Hc Hj. rewrite (cm_C_0 _ _ _ _ _ _ Hc), (cm_C_k _ _ _ _ _ _ Hc), (bin2bn_ct_bytes pk Hpk), commitments_at_spec by (done || lia).
  by rewrite Z.mul_1_l.
Qed.

Lemma made_share ctx s mu rs coeffs new_indices c j : contributor_ready ctx s mu rs coeffs ->
  contribution_made ctx s mu coeffs new_indices c -> 1 <= j < 2 ^ 32 ->
  verified_share pk grp V c j (dealt_share s mu coeffs j) = Some (dealt_value s mu coeffs j).
Proof using Hpk HV Hsize.
  intros Hy Hc Hj. pose proof (made_commitments _ _ _ _ _ _ j Hc ltac:(lia)) as EC.
  pose proof (signed_share s mu coeffs j (cy_s _ _ _ _ _ Hy) (cy_mu _ _ _ _ _ Hy) (cy_coeffs _ _ _ _ _ Hy)
    (proj2 (cy_degree _ _ _ _ _ Hy)) ltac:(lia)) as Es.
  destruct Hc as [_ _ (m & _ & Ec) Ed E0 Ek _ Ok Lk _ _ _ _].
  assert (dao_reshare_deserialize_signed (sh_q_i_j (dealt_share s mu coeffs j)) = Some (dealt_value s mu coeffs j)) as Eq.
  { unfold dao_reshare_deserialize_signed. rewrite (signed_pad_length _ _ _ Es).
    change (negb (S (DAO_RESHARE_SIGNED_BYTES - 1) =? DAO_RESHARE_SIGNED_BYTES)%nat) with false.
    apply (signed_unpad_pad _ _ _ Es). }
  unfold verified_share. enough (dao_reshare_vss_verify pk grp V (ct_link_ctx c) (ct_link_proof c) (ct_commits c) (ct_coeff_proofs c)
    j (sh_q_i_j (dealt_share s mu coeffs j)) = true) as -> by done.
  unfold dao_reshare_vss_verify. rewrite Ok, Lk, V_length, Eq, V_modexp, EC, E0, Ed, Ek, Ec. cbn [negb with_constant lc_C_i0].
  unfold zlen. rewrite (length_ct_bytes pk Hpk), !length_map, !Nat.eqb_refl, beq_refl, !Z.eqb_refl, (proj2 (Z.eqb_neq j 0)) by lia. done.
Qed.

End contributor.
