(* ===== verification/ReshareCodec.v ===== *)
(** * The encodings of a resharing

    Contributions, shares, bundles, messages and share sets are read back as they
    were written. *)

From S2P Require Import Prelude Archive Paillier Threshold DkgProofs Pedersen Reshare ReshareProofs.

(** ** Counted lists *)

Lemma reads_u32 v : 0 <= v < 2 ^ 32 -> reads (read_le 4) (le_bytes 4 v) v.
Proof. apply (reads_le 4). Qed.

Lemma reads_u64 v : 0 <= v < 2 ^ 64 -> reads (read_le 8) (le_bytes 8 v) v.
Proof. apply (reads_le 8). Qed.

Definition u32_ok (v : Z) : Prop := 0 <= v < 2 ^ 32.
Definition u64_ok (v : Z) : Prop := 0 <= v < 2 ^ 64.
Definition blob_ok (l : bytes) : Prop := zlen l < 2 ^ 32.

(** A part of a contribution: the whole then has a length in 32 bits. *)
Definition piece_ok (l : bytes) : Prop := zlen l < 2 ^ 20.

Lemma piece_blob l : piece_ok l -> blob_ok l.
Proof. unfold piece_ok, blob_ok. lia. Qed.

(** One step of a reader on what was written. *)
Ltac read_step :=
  first [rewrite reads_u32 by assumption | rewrite reads_u64 by assumption
        | rewrite reads_bytes by (assumption || (apply piece_blob; assumption))];
  cbn [mbind option_bind].

Lemma length_concat_same {A} (e : A -> bytes) (l : list A) n : Forall (fun x => length (e x) = n) l -> length (concat (map e l)) = (n * length l)%nat.
Proof. induction 1 as [|x l Hx _ IH]; cbn [map concat length]; [lia|]. rewrite length_app. lia. Qed.

(** ** Link proofs *)

Lemma reads_link_round a b z : length a = PAILLIER_CT_BYTES -> length b = PAILLIER_CT_BYTES -> length z = (1 + SCALAR_BYTES)%nat ->
  sign_ok z = true -> reads read_link_round (link_round_bytes (a, b, z)) (a, b, z).
Proof.
  intros La Lb Lz Sz rest. unfold read_link_round, link_round_bytes. rewrite <- !app_assoc.
  rewrite (reads_raw _ _ La). cbn [mbind option_bind]. rewrite (reads_raw _ _ Lb). cbn [mbind option_bind].
  rewrite (reads_raw _ _ Lz). cbn [mbind option_bind]. by rewrite Sz.
Qed.

Definition round_wf (r : bytes * bytes * bytes) : Prop :=
  length (fst (fst r)) = PAILLIER_CT_BYTES /\ length (snd (fst r)) = PAILLIER_CT_BYTES /\
  length (snd r) = (1 + SCALAR_BYTES)%nat /\ sign_ok (snd r) = true.

Lemma link_rounds_wf p : link_wf p -> let rounds := zip (zip (lp_A p) (lp_B p)) (lp_Z p) in
  length rounds = REPS /\ Forall round_wf rounds /\ map (fun r => fst (fst r)) rounds = lp_A p /\
  map (fun r => snd (fst r)) rounds = lp_B p /\ map snd rounds = lp_Z p.
Proof.
  intros (LA & LB & LZ & FA & FB & FZ). cbv zeta. split; [rewrite !length_zip; lia|]. split.
  - apply Forall_lookup. intros i [[a b] z] Hi. apply lookup_zip_Some in Hi as [Hi Hz]. apply lookup_zip_Some in Hi as [Ha Hb].
    rewrite Forall_lookup in FA, FB, FZ. destruct (FZ _ _ Hz). split_and!; [by eapply FA|by eapply FB|done|done].
  - rewrite <- (map_map fst fst), <- (map_map fst snd). rewrite (fst_zip (zip _ _)) by (rewrite length_zip; lia).
    rewrite fst_zip, !snd_zip by (rewrite ?length_zip; lia). done.
Qed.

Lemma link_proof_roundtrip p : link_wf p ->
  exists l, link_proof_serialize p = Some l /\ piece_ok l /\ link_proof_deserialize l = Some p.
Proof.
  intros Wp. destruct (link_rounds_wf p Wp) as (LR & FR & EA & EB & EZ). destruct Wp as (LA & LB & LZ & _).
  unfold link_proof_serialize. rewrite LA, LB, LZ, !Nat.eqb_refl. cbn [negb orb]. set (rounds := zip _ _) in *.
  rewrite (proj2 (forallb_Forall _ _)).
  2: { eapply Forall_impl; [exact FR|]. intros [[a b] z] (E1 & E2 & E3 & E4). cbn [fst snd] in *. by rewrite E1, E2, E3, E4, !Nat.eqb_refl. }
  cbn [negb]. eexists. split; [reflexivity|].
  assert (length (concat (map link_round_bytes rounds)) = (REPS * (2 * PAILLIER_CT_BYTES + 1 + SCALAR_BYTES))%nat) as LC.
  { rewrite (length_concat_same _ _ (2 * PAILLIER_CT_BYTES + 1 + SCALAR_BYTES)); [by rewrite LR, Nat.mul_comm|].
    eapply Forall_impl; [exact FR|]. intros [[a b] z] (E1 & E2 & E3 & _). cbn [fst snd] in *. cbn [link_round_bytes]. rewrite !length_app. lia. }
  split.
  { unfold piece_ok, zlen. rewrite length_app, length_le_bytes, LC. by vm_compute. }
  unfold link_proof_deserialize. rewrite (reads_u32 (Z.of_nat REPS)) by done. cbn [mbind option_bind].
  rewrite Z.eqb_refl, LC, Nat.eqb_refl. cbn [negb].
  assert (reads (read_n read_link_round REPS) (concat (map link_round_bytes rounds)) rounds) as Rd.
  { rewrite <- LR. apply reads_n. eapply Forall_impl; [exact FR|]. intros [[a b] z] (? & ? & ? & ?). by apply reads_link_round. }
  specialize (Rd []). rewrite app_nil_r in Rd. rewrite Rd. cbn [mbind option_bind]. rewrite EA, EB, EZ. by destruct p.
Qed.

(** ** Coefficient proofs *)

Definition coeff_round_wf (veb : nat) (r : bytes * bytes * bytes * bytes) : Prop :=
  length (fst (fst (fst r))) = PAILLIER_CT_BYTES /\ length (snd (fst (fst r))) = veb /\ length (snd (fst r)) = ZX_BYTES /\
  length (snd r) = veb.

Lemma reads_coeff_round veb r : coeff_round_wf veb r -> reads (read_coeff_round veb) (coeff_round_bytes r) r.
Proof.
  destruct r as [[[a w] x] r]. intros (La & Lw & Lx & Lr) rest. cbn [fst snd] in *. unfold read_coeff_round, coeff_round_bytes.
  rewrite <- !app_assoc. rewrite (reads_raw _ _ La). cbn [mbind option_bind]. rewrite (reads_raw _ _ Lw). cbn [mbind option_bind].
  rewrite (reads_raw _ _ Lx). cbn [mbind option_bind]. by rewrite (reads_raw _ _ Lr).
Qed.

Lemma coeff_rounds_wf grp p : coeff_link_wf grp p -> let veb := BN_num_bytes (vss_P grp) in
  let rounds := zip (zip (zip (cl_A_paillier p) (cl_A_vss p)) (cl_Z_x p)) (cl_Z_rho p) in
  length rounds = REPS /\ Forall (coeff_round_wf veb) rounds /\ map (fun r => fst (fst (fst r))) rounds = cl_A_paillier p /\
  map (fun r => snd (fst (fst r))) rounds = cl_A_vss p /\ map (fun r => snd (fst r)) rounds = cl_Z_x p /\ map snd rounds = cl_Z_rho p.
Proof.
  intros (L1 & L2 & L3 & L4 & F1 & F2 & F3 & F4). cbv zeta. split; [rewrite !length_zip; lia|]. split.
  - apply Forall_lookup. intros i [[[a w] x] r] Hi. apply lookup_zip_Some in Hi as [Hi H4].
    apply lookup_zip_Some in Hi as [Hi H3]. apply lookup_zip_Some in Hi as [H1 H2].
    rewrite Forall_lookup in F1, F2, F3, F4. split_and!; [by eapply F1|by eapply F2|by eapply F3|by eapply F4].
  - rewrite <- (map_map (fun r => fst (fst r)) fst), <- (map_map (fun r => fst (fst r)) snd), <- (map_map fst fst), <- (map_map fst snd).
    rewrite (fst_zip (zip (zip _ _) _)) by (rewrite !length_zip; lia). rewrite (fst_zip (zip _ _)) by (rewrite !length_zip; lia).
    rewrite fst_zip, !snd_zip by (rewrite ?length_zip; lia). done.
Qed.

Lemma coeff_proof_roundtrip grp p : let veb := BN_num_bytes (vss_P grp) in (0 < veb <= 1024)%nat -> coeff_link_wf grp p ->
  exists l, coeff_proof_serialize p veb = Some l /\ piece_ok l /\ coeff_proof_deserialize l veb = Some p.
Proof.
  intros veb Hv Wp. destruct (coeff_rounds_wf grp p Wp) as (LR & FR & E1 & E2 & E3 & E4). destruct Wp as (L1 & L2 & L3 & L4 & _).
  unfold coeff_proof_serialize. rewrite L1, L2, L3, L4, !Nat.eqb_refl. cbn [negb orb]. set (rounds := zip _ _) in *. fold veb in FR.
  rewrite (proj2 (Nat.eqb_neq _ _)), (proj2 (Nat.ltb_ge _ _)) by lia. cbn [orb].
  rewrite (proj2 (forallb_Forall _ _)).
  2: { eapply Forall_impl; [exact FR|]. intros [[[a w] x] r] (W1 & W2 & W3 & W4). cbn [fst snd] in *. by rewrite W1, W2, W3, W4, !Nat.eqb_refl. }
  cbn [negb]. eexists. split; [reflexivity|].
  assert (length (concat (map coeff_round_bytes rounds)) = (REPS * (PAILLIER_CT_BYTES + veb + ZX_BYTES + veb))%nat) as LC.
  { rewrite (length_concat_same _ _ (PAILLIER_CT_BYTES + veb + ZX_BYTES + veb)); [by rewrite LR, Nat.mul_comm|].
    eapply Forall_impl; [exact FR|]. intros [[[a w] x] r] (W1 & W2 & W3 & W4). cbn [fst snd] in *. cbn [coeff_round_bytes]. rewrite !length_app. lia. }
  split.
  { unfold piece_ok, zlen. rewrite !length_app, !length_le_bytes, LC. unfold REPS, PAILLIER_CT_BYTES, ZX_BYTES. lia. }
  unfold coeff_proof_deserialize. rewrite (proj2 (Nat.eqb_neq _ _)), (proj2 (Nat.ltb_ge _ _)) by lia. cbn [orb].
  rewrite (reads_u32 (Z.of_nat REPS)) by done. cbn [mbind option_bind]. rewrite (reads_u32 (Z.of_nat veb)) by lia. cbn [mbind option_bind].
  rewrite !Z.eqb_refl, LC, Nat.eqb_refl. cbn [negb].
  assert (reads (read_n (read_coeff_round veb) REPS) (concat (map coeff_round_bytes rounds)) rounds) as Rd.
  { rewrite <- LR. apply reads_n. eapply Forall_impl; [exact FR|]. apply reads_coeff_round. }
  specialize (Rd []). rewrite app_nil_r in Rd. rewrite Rd. cbn [mbind option_bind]. rewrite E1, E2, E3, E4. by destruct p.
Qed.

(** ** Commitments *)

Lemma commitments_roundtrip c : length (vc_C_0 c) = PAILLIER_CT_BYTES -> zlen (vc_C_k c) = vc_t_new c -> 0 < vc_t_new c <= 256 ->
  Forall (fun l => length l = PAILLIER_CT_BYTES) (vc_C_k c) ->
  exists l, commitments_serialize c = Some l /\ piece_ok l /\ commitments_deserialize l = Some c.
Proof.
  intros L0 Lk Ht Fk. unfold commitments_serialize. rewrite L0, Lk, Nat.eqb_refl, Z.eqb_refl. cbn [negb].
  rewrite (proj2 (forallb_Forall _ _)) by (eapply Forall_impl; [exact Fk|]; intros l; apply Nat.eqb_eq). cbn [negb].
  eexists. split; [reflexivity|].
  assert (length (concat (vc_C_k c)) = (PAILLIER_CT_BYTES * Z.to_nat (vc_t_new c))%nat) as LC.
  { rewrite <- (map_id (vc_C_k c)), (length_concat_same _ _ PAILLIER_CT_BYTES) by done. unfold zlen in Lk. lia. }
  split.
  { unfold piece_ok, zlen. rewrite !length_app, length_le_bytes, L0, LC. unfold PAILLIER_CT_BYTES. lia. }
  unfold commitments_deserialize. rewrite reads_u32 by lia. cbn [mbind option_bind].
  rewrite (proj2 (Z.eqb_neq _ 0)), (proj2 (Z.ltb_ge _ _)) by lia. cbn [orb].
  unfold zlen at 1. rewrite length_app, L0, LC. rewrite (proj2 (Z.eqb_eq _ _)) by lia. cbn [negb].
  rewrite (reads_raw _ _ L0). cbn [mbind option_bind].
  assert (reads (read_n (read_raw PAILLIER_CT_BYTES) (Z.to_nat (vc_t_new c))) (concat (vc_C_k c)) (vc_C_k c)) as Rd.
  { rewrite <- Lk, to_nat_zlen. pose proof (reads_n (read_raw PAILLIER_CT_BYTES) id (vc_C_k c)) as R. rewrite map_id in R.
    apply R. eapply Forall_impl; [exact Fk|]. intros l. apply reads_raw. }
  specialize (Rd []). rewrite app_nil_r in Rd. rewrite Rd. by destruct c.
Qed.

(** ** Contributions *)

Record context_wf (ctx : dao_reshare_link_context) : Prop := {
  cw_genesis : length (lc_genesis_block_hash ctx) = 32%nat;
  cw_record : piece_ok (lc_stable_key_record_hash ctx);
  cw_set : u64_ok (lc_share_set_id ctx);
  cw_pubkey : piece_ok (lc_contributor_pubkey ctx);
  cw_index : u32_ok (lc_original_index ctx);
  cw_subset : zlen (lc_contributor_subset ctx) <= 32;
  cw_members : Forall u32_ok (lc_contributor_subset ctx);
  cw_N : piece_ok (lc_N ctx); cw_V : piece_ok (lc_V ctx); cw_VK : piece_ok (lc_VK_i ctx); cw_C : piece_ok (lc_C_i0 ctx);
  cw_Delta : piece_ok (lc_Delta ctx); cw_mu : piece_ok (lc_mu_i ctx);
}.

Lemma reads_context ctx : context_wf ctx -> reads read_link_context (write_link_context ctx) ctx.
Proof.
  intros [] rest. unfold read_link_context, write_link_context, push_list. rewrite <- !app_assoc.
  rewrite (reads_raw 32) by done. cbn [mbind option_bind]. do 4 read_step.
  assert (u32_ok (zlen (lc_contributor_subset ctx))) by (unfold u32_ok; pose proof (zlen_nonneg (lc_contributor_subset ctx)); lia).
  read_step. rewrite (proj2 (Z.ltb_ge _ _)) by done.
  rewrite (reads_list _ _ u32_ok _ _ eq_refl reads_u32) by done. cbn [mbind option_bind]. do 6 read_step. by destruct ctx.
Qed.

(** *** Sizes *)

Lemma zlen_le_bytes n v : zlen (le_bytes n v) = Z.of_nat n.
Proof. unfold zlen. by rewrite length_le_bytes. Qed.

Lemma zlen_push_bytes l : zlen (push_bytes l) = 4 + zlen l.
Proof. unfold push_bytes. by rewrite zlen_app, zlen_le_bytes. Qed.

Lemma push_list_size {A} (e : A -> bytes) l n b : Forall (fun x => zlen (e x) <= b) l -> zlen l <= n -> 0 <= b ->
  zlen (push_list e l) <= 4 + n * b.
Proof.
  intros F Hn Hb. unfold push_list. rewrite zlen_app, zlen_le_bytes. assert (zlen (concat (map e l)) <= zlen l * b) as B.
  { clear Hn. induction F as [|x l Hx _ IH]; [done|]. cbn [map concat]. rewrite zlen_app, zlen_cons. lia. }
  nia.
Qed.

Lemma pieces_size l n : Forall piece_ok l -> zlen l <= n -> zlen (push_list push_bytes l) <= 4 + n * (2 ^ 20 + 4).
Proof.
  intros F Hn. apply push_list_size; [|done|done]. eapply Forall_impl; [exact F|]. intros x Hx. rewrite zlen_push_bytes. unfold piece_ok in Hx. lia.
Qed.

Lemma context_size ctx : context_wf ctx -> zlen (write_link_context ctx) < 2 ^ 24.
Proof.
  intros [Hg]. unfold write_link_context, piece_ok in *. assert (zlen (lc_genesis_block_hash ctx) = 32) by (unfold zlen; lia).
  assert (zlen (push_list (le_bytes 4) (lc_contributor_subset ctx)) <= 4 + 32 * 4).
  { apply push_list_size; [|done|done]. apply Forall_true. intros v. by rewrite zlen_le_bytes. }
  rewrite !zlen_app, !zlen_push_bytes, !zlen_le_bytes. lia.
Qed.

Definition without_shares (c : dao_reshare_contribution) : dao_reshare_contribution :=
  {| ct_contributor_index := ct_contributor_index c; ct_contributor_pubkey := ct_contributor_pubkey c; ct_link_ctx := ct_link_ctx c;
     ct_link_proof := ct_link_proof c; ct_commits := ct_commits c; ct_coeff_proofs := ct_coeff_proofs c; ct_shares := [] |}.

Record contribution_wf (grp : dao_vss_group) (c : dao_reshare_contribution) : Prop := {
  fw_index : u32_ok (ct_contributor_index c);
  fw_pubkey : piece_ok (ct_contributor_pubkey c);
  fw_ctx : context_wf (ct_link_ctx c);
  fw_link : link_wf (ct_link_proof c);
  fw_C_0 : length (vc_C_0 (ct_commits c)) = PAILLIER_CT_BYTES;
  fw_degree : 0 < vc_t_new (ct_commits c) <= 256;
  fw_C_k : zlen (vc_C_k (ct_commits c)) = vc_t_new (ct_commits c);
  fw_C_k_size : Forall (fun l => length l = PAILLIER_CT_BYTES) (vc_C_k (ct_commits c));
  fw_rcs : zlen (cp_range_commitments (ct_coeff_proofs c)) = vc_t_new (ct_commits c);
  fw_rcs_size : Forall (fun l => length l = BN_num_bytes (vss_P grp)) (cp_range_commitments (ct_coeff_proofs c));
  fw_rps : zlen (cp_range_proofs (ct_coeff_proofs c)) = vc_t_new (ct_commits c);
  fw_rps_size : Forall piece_ok (cp_range_proofs (ct_coeff_proofs c));
  fw_lps : zlen (cp_link_proofs (ct_coeff_proofs c)) = vc_t_new (ct_commits c);
  fw_lps_size : Forall (coeff_link_wf grp) (cp_link_proofs (ct_coeff_proofs c));
}.

Lemma coeff_proofs_roundtrip grp lps : let veb := BN_num_bytes (vss_P grp) in (0 < veb <= 1024)%nat -> Forall (coeff_link_wf grp) lps ->
  exists lbs, mapM (fun l => coeff_proof_serialize l veb) lps = Some lbs /\ Forall piece_ok lbs /\ length lbs = length lps /\
    mapM (fun b => coeff_proof_deserialize b veb) lbs = Some lps.
Proof.
  intros veb Hv. induction 1 as [|p lps Wp _ (lbs & E & F & L & D)]; [by exists []|].
  destruct (coeff_proof_roundtrip grp p Hv Wp) as (l & El & Bl & Dl). fold veb in El, Dl.
  exists (l :: lbs). cbn [mapM]. rewrite El. cbn [mbind option_bind]. rewrite E. split; [done|]. split; [by constructor|]. split; [cbn; lia|].
  rewrite Dl. cbn [mbind option_bind]. by rewrite D.
Qed.

Lemma contribution_roundtrip grp c : (0 < BN_num_bytes (vss_P grp) <= 1024)%nat -> contribution_wf grp c ->
  exists l, dao_reshare_serialize_public c = Some l /\ blob_ok l /\ dao_reshare_deserialize_public l = Some (without_shares c).
Proof.
  intros Hv [Wi Wp Wc Wl W0 Wd Wk Fk Wr Fr Ws Fs Wt Ft].
  destruct (link_proof_roundtrip _ Wl) as (lp & Elp & Blp & Dlp).
  destruct (commitments_roundtrip _ W0 Wk Wd Fk) as (cb & Ecb & Bcb & Dcb).
  destruct (coeff_proofs_roundtrip grp _ Hv Ft) as (lbs & Elbs & Blbs & Llbs & Dlbs).
  pose proof (Forall_impl _ _ _ Fs piece_blob) as Fs'. pose proof (Forall_impl _ _ _ Blbs piece_blob) as Blbs'.
  unfold dao_reshare_serialize_public. rewrite Elp, Ecb. cbn [mbind option_bind].
  assert (exists rc rcs, cp_range_commitments (ct_coeff_proofs c) = rc :: rcs /\ length rc = BN_num_bytes (vss_P grp)) as (rc & rcs & Erc & Lrc).
  { clear -Wr Fr Wd. destruct (cp_range_commitments (ct_coeff_proofs c)) as [|rc rcs] eqn:E; [unfold zlen in Wr; cbn in Wr; lia|].
    apply Forall_cons in Fr as [? _]. by eauto. }
  rewrite Erc, Lrc, (proj2 (Nat.eqb_neq _ _)) by lia. rewrite Elbs, <- Erc. cbn [mbind option_bind]. eexists. split; [reflexivity|]. split.
  { assert (Forall piece_ok (cp_range_commitments (ct_coeff_proofs c))) as Fr' by (eapply Forall_impl; [exact Fr|]; unfold piece_ok, zlen; cbn; lia).
    pose proof (pieces_size _ 256 Fr' ltac:(lia)). pose proof (pieces_size _ 256 Fs ltac:(lia)).
    pose proof (pieces_size _ 256 Blbs ltac:(unfold zlen in *; lia)). pose proof (context_size _ Wc).
    unfold blob_ok, piece_ok in *. rewrite !zlen_app, !zlen_push_bytes, zlen_le_bytes. lia. }
  apply parse_all_reads. intros rest. unfold read_contribution, push_list. rewrite <- !app_assoc. do 2 read_step.
  rewrite (reads_context _ Wc). cbn [mbind option_bind]. read_step. rewrite Dlp. cbn [mbind option_bind]. read_step. rewrite Dcb. cbn [mbind option_bind].
  assert (u32_ok (vc_t_new (ct_commits c))) by (unfold u32_ok; lia).
  assert (zlen lbs = vc_t_new (ct_commits c)) as Wlb by (unfold zlen in *; lia).
  assert (Forall blob_ok (cp_range_commitments (ct_coeff_proofs c))) by (eapply Forall_impl; [exact Fr|]; unfold blob_ok, zlen; cbn; lia).
  rewrite Wr, Ws, Wlb. read_step. rewrite (proj2 (Z.eqb_neq _ 0)), (proj2 (Z.ltb_ge _ _)) by lia. cbn [orb].
  rewrite (reads_list _ _ blob_ok _ _ Wr reads_bytes) by done. cbn [mbind option_bind]. read_step. rewrite Z.eqb_refl. cbn [negb].
  rewrite (reads_list _ _ blob_ok _ _ Ws reads_bytes) by done. cbn [mbind option_bind]. read_step. rewrite Z.eqb_refl. cbn [negb].
  assert (nth 0 (cp_range_commitments (ct_coeff_proofs c)) [] = rc) as -> by (by rewrite Erc).
  rewrite Lrc, (proj2 (Nat.eqb_neq _ _)) by lia.
  rewrite (reads_list _ _ blob_ok _ _ Wlb reads_bytes) by done. cbn [mbind option_bind]. rewrite Dlbs. cbn [mbind option_bind].
  unfold without_shares. by destruct (ct_coeff_proofs c).
Qed.

(** What an honest contributor makes can be encoded. *)
Lemma made_wf `{DigestLaws} pk V grp ctx s mu coeffs new_indices c : pk_ok pk -> context_wf ctx -> 0 < zlen coeffs <= 256 ->
  contribution_made pk V grp ctx s mu coeffs new_indices c -> contribution_wf grp c.
Proof.
  intros Hpk [] Hd [Ei Ep (m & Em & Ec) Et E0 Ek _ Ok _ Lw Fr Fs Fl].
  unfold coeffs_ok in Ok. do 3 (split_if_in Ok; [done|]). to_prop.
  split; rewrite ?Ei, ?Ep; try assumption; try congruence.
  - rewrite Ec. split; cbn [with_constant lc_genesis_block_hash lc_stable_key_record_hash lc_share_set_id lc_contributor_pubkey
      lc_original_index lc_contributor_subset lc_N lc_V lc_VK_i lc_C_i0 lc_Delta lc_mu_i]; try assumption; unfold piece_ok, zlen.
    + by rewrite (length_ct_bytes pk Hpk).
    + by rewrite (signed_pad_length _ _ _ Em).
  - rewrite E0. by apply length_ct_bytes.
  - rewrite Et, Ek. unfold zlen. by rewrite !length_map.
  - rewrite Ek. apply Forall_map, Forall_true. intros e. by apply length_ct_bytes.
Qed.

(** ** Shares, bundles, messages and share sets *)

Theorem share_roundtrip sh : u32_ok (sh_j sh) -> blob_ok (sh_q_i_j sh) ->
  dao_reshare_deserialize_share (dao_reshare_serialize_share sh) = Some sh.
Proof.
  intros Hj Hq. apply parse_all_reads. intros rest. unfold read_share, dao_reshare_serialize_share. rewrite <- !app_assoc.
  do 2 read_step. by destruct sh.
Qed.

Theorem bundle_roundtrip b : u64_ok (sb_old_share_set_id b) -> u32_ok (sb_sender_index b) -> blob_ok (sb_share_bytes b) ->
  bundle_deserialize (bundle_serialize b) = Some b.
Proof.
  intros H1 H2 H3. apply parse_all_reads. intros rest. unfold read_bundle, bundle_serialize. rewrite <- !app_assoc.
  do 3 read_step. by destruct b.
Qed.

Record msg_wf (m : dao_reshare_msg) : Prop := {
  mw_version : rm_version m = 1;
  mw_old : u64_ok (rm_old_share_set_id m); mw_new : u64_ok (rm_new_share_set_id m); mw_sender : u32_ok (rm_sender_index m);
  mw_type : rm_type m = 0 \/ rm_type m = 1;
  mw_public : blob_ok (rm_public_blob m); mw_record : blob_ok (rm_record_blob m);
  mw_count : zlen (rm_recipient_indices m) <= 1024;
  mw_indices : Forall u32_ok (rm_recipient_indices m);
  mw_payload_count : length (rm_recipient_payloads m) = length (rm_recipient_indices m);
  mw_payloads : Forall blob_ok (rm_recipient_payloads m);
}.

Lemma u32_count {A} (l : list A) m : zlen l <= m -> m < 2 ^ 32 -> u32_ok (zlen l).
Proof. intros Hl Hm. pose proof (zlen_nonneg l). unfold u32_ok. lia. Qed.

Theorem msg_roundtrip m : msg_wf m -> msg_deserialize (msg_serialize m) = Some m.
Proof.
  intros [Hv Ho Hn Hs Ht Hp Hr Hc Fi Hpc Fp]. apply parse_all_reads. intros rest. unfold read_msg, msg_serialize, push_list.
  assert (u32_ok (rm_version m)) by (rewrite Hv; done). rewrite <- !app_assoc. read_step. rewrite Hv at 1. cbn [Z.eqb Pos.eqb negb].
  do 3 read_step. rewrite (reads_byte (rm_type m)). cbn [mbind option_bind].
  assert (negb (rm_type m =? 0) && negb (rm_type m =? 1) = false) as -> by (destruct Ht as [-> | ->]; done).
  read_step. assert (zlen (rm_recipient_payloads m) = zlen (rm_recipient_indices m)) as Ec by (unfold zlen; lia). rewrite Ec.
  pose proof (u32_count _ _ Hc ltac:(lia)). read_step. rewrite (proj2 (Z.ltb_ge _ _)) by done.
  rewrite (reads_list _ _ u32_ok _ _ eq_refl reads_u32) by done. cbn [mbind option_bind]. read_step. rewrite Z.eqb_refl. cbn [negb].
  rewrite (reads_list _ _ blob_ok _ _ Ec reads_bytes) by done. cbn [mbind option_bind]. read_step. by destruct m.
Qed.

Record share_set_wf (r : dao_share_set_record) : Prop := {
  sw_version : ss_version r = 2;
  sw_id : u64_ok (ss_share_set_id r); sw_height : u64_ok (ss_height r);
  sw_members : 0 < zlen (ss_committee_members r) <= DAO_DKG_MAX_COMMITTEE_SIZE;
  sw_threshold : 0 < ss_threshold r <= zlen (ss_committee_members r);
  sw_key : length (ss_key_id r) = 32%nat; sw_hash : length (ss_committee_id_hash r) = 32%nat;
  sw_member_size : Forall (fun m => length m = 32%nat) (ss_committee_members r);
  sw_vks : length (ss_VK_i r) = length (ss_committee_members r);
  sw_vk_size : Forall (fun m => length m = PAILLIER_CT_BYTES) (ss_VK_i r);
  sw_base : u64_ok (ss_base_share_set_id r);
  sw_contributions : zlen (ss_contributions r) <= DAO_DKG_MAX_COMMITTEE_SIZE /\ Forall blob_ok (ss_contributions r);
  sw_indices : zlen (ss_contributor_indices r) <= DAO_DKG_MAX_COMMITTEE_SIZE /\ Forall u32_ok (ss_contributor_indices r);
  sw_base_vks : zlen (ss_contributor_vk r) <= DAO_DKG_MAX_COMMITTEE_SIZE /\ Forall blob_ok (ss_contributor_vk r);
}.

Lemma reads_sized n l : (n <= 1024)%nat -> length l = n -> reads (pull_sized n) (push_bytes l) l.
Proof.
  intros Hn Hl rest. unfold pull_sized. rewrite reads_bytes by (unfold zlen; lia). cbn [mbind option_bind].
  by rewrite Hl, Nat.eqb_refl.
Qed.

Lemma reads_pull_list {A} (r : reader A) (e : A -> bytes) (W : A -> Prop) m l : (forall x, W x -> reads r (e x) x) ->
  zlen l <= m -> m < 2 ^ 32 -> Forall W l -> reads (pull_list m r) (push_list e l) l.
Proof.
  intros Hr Hl Hm F rest. unfold pull_list, push_list. pose proof (u32_count _ _ Hl Hm). rewrite <- app_assoc. read_step.
  rewrite (proj2 (Z.ltb_ge _ _)) by done. by rewrite (reads_list _ _ W _ _ eq_refl Hr).
Qed.

(** A share set is read back as version 2, whatever version it was built with. *)
Theorem share_set_roundtrip r : share_set_wf r ->
  exists l, share_set_serialize r = Some l /\ share_set_deserialize l = Some r.
Proof.
  intros [Hv Hi Hh Hm Ht Hk Hc Fm Hvk Fvk Hb [Lc Fc] [Li Fi] [Lv Fv]]. unfold share_set_serialize, DAO_DKG_MAX_COMMITTEE_SIZE in *.
  assert (ss_committee_members r <> []) as Hne by (intros E; rewrite E in Hm; unfold zlen in Hm; cbn in Hm; lia).
  rewrite Hk, Hc, Hvk, !Nat.eqb_refl, (proj2 (is_empty_false _) Hne). cbn [negb].
  rewrite (proj2 (Z.eqb_neq (ss_threshold r) 0)), (proj2 (Z.ltb_ge _ _)) by lia. cbn [orb].
  rewrite !(proj2 (forallb_Forall _ _)) by (eapply Forall_impl; [eassumption|]; intros l; apply Nat.eqb_eq). cbn [negb].
  eexists. split; [reflexivity|]. apply parse_all_reads. intros rest. unfold read_share_set. rewrite <- !app_assoc.
  rewrite (reads_u32 2) by done. cbn [mbind option_bind Z.eqb Pos.eqb negb andb].
  assert (u32_ok (ss_threshold r)) by (unfold u32_ok; lia). do 3 read_step.
  rewrite (reads_sized 32) by (done || lia). cbn [mbind option_bind]. rewrite (reads_sized 32) by (done || lia). cbn [mbind option_bind].
  unfold push_list at 1. rewrite <- !app_assoc. pose proof (u32_count _ 16 (proj2 Hm) ltac:(lia)). read_step. unfold DAO_DKG_MAX_COMMITTEE_SIZE.
  rewrite (proj2 (Z.eqb_neq _ 0)), (proj2 (Z.ltb_ge _ _)), (proj2 (Z.eqb_neq _ 0)), (proj2 (Z.ltb_ge _ _)) by lia. cbn [orb].
  rewrite (reads_list _ _ _ _ _ eq_refl (fun x => reads_sized 32 x ltac:(lia))) by done. cbn [mbind option_bind].
  assert (zlen (ss_VK_i r) = zlen (ss_committee_members r)) as Ez by (unfold zlen; lia).
  rewrite (reads_list _ _ _ _ _ Ez (fun x => reads_sized PAILLIER_CT_BYTES x ltac:(unfold PAILLIER_CT_BYTES; lia))) by done. cbn [mbind option_bind].
  read_step. rewrite (reads_pull_list _ _ blob_ok _ _ reads_bytes Lc) by done. cbn [mbind option_bind].
  rewrite (reads_pull_list _ _ u32_ok _ _ reads_u32 Li) by done. cbn [mbind option_bind].
  rewrite (reads_pull_list _ _ blob_ok _ _ reads_bytes Lv) by done. destruct r. cbn in Hv. by subst.
Qed.
