(* ===== verification/ReshareCorrect.v ===== *)
(** * Resharing keeps the key

    When a quorum of the old committee contributes honestly, every new member
    obtains the value at its index of one polynomial whose value at 0 is that of
    the old shares: the new committee holds the same tally key, with its own
    threshold, and the verification keys that everyone computes from the
    contributions are those of the new shares. *)

From Stdlib Require Import Zcong.
From Stdlib Require Import Zmod Zstar.
From S2P Require Import Prelude Archive Paillier Threshold DkgProofs Pedersen Reshare ReshareProofs ReshareCodec.

(** What a contributor brings. *)
Record contributor := {
  co_index : Z; co_ctx : dao_reshare_link_context; co_rs : nat -> Z; co_coeffs : list coeff_random;
}.

(** The polynomial of the new shares. *)
Definition reshared (f : Z -> Z) (cs : list contributor) (x : Z) : Z :=
  f 0 + coeff_scale * zsum ((fun c => evaluate (map coeff_value (co_coeffs c)) x x) <$> cs).

Lemma committee_bound (l : list Z) : NoDup l -> l ⊆ committee -> zlen l <= DAO_DKG_MAX_COMMITTEE_SIZE.
Proof.
  intros Hd Hs. apply NoDup_submseteq in Hs; [|done]. apply submseteq_length in Hs. unfold committee in Hs.
  rewrite length_seqZ in Hs. unfold zlen, DAO_DKG_MAX_COMMITTEE_SIZE in *. lia.
Qed.

Lemma abs_delta_le x B : Z.abs (dao_dkg_delta * x) <= B -> Z.abs x <= B.
Proof. rewrite Z.abs_mul. unfold dao_dkg_delta. lia. Qed.

Section resharing.
Context `{DigestLaws} (pk : PaillierPublicKey) (V : bytes) (grp : dao_vss_group) (f mu : Z -> Z).

(** Honest contributors with shares [f] and multipliers [mu]. *)
Record resharing (cs : list contributor) (T t : Z) : Prop := {
  rs_size : zlen cs = T;
  rs_threshold : 2 <= T;
  rs_degree : 0 < t <= 256;
  rs_distinct : NoDup (map co_index cs);
  rs_members : map co_index cs ⊆ committee;
  rs_mu : forall i, i ∈ map co_index cs -> dao_dkg_lagrange_mu (map co_index cs) i = Some (mu i);
  rs_ready : Forall (fun c => contributor_ready pk V grp (co_ctx c) (f (co_index c)) (mu (co_index c)) (co_rs c) (co_coeffs c)) cs;
  rs_coeffs : Forall (fun c => zlen (co_coeffs c) = t) cs;
  rs_index : Forall (fun c => lc_original_index (co_ctx c) = co_index c) cs;
  rs_subset : Forall (fun c => lc_contributor_subset (co_ctx c) = map co_index cs) cs;
}.

Definition value_for (j : Z) (c : contributor) : Z := dealt_value (f (co_index c)) (mu (co_index c)) (co_coeffs c) j.

Lemma exponent_value l i p : evaluate (map coeff_exponent l) i p = dao_dkg_delta * coeff_scale * evaluate (map coeff_value l) i p.
Proof.
  revert p. induction l as [|r l IH]; intros p; cbn [map evaluate]; [ring|]. rewrite IH. unfold coeff_exponent. ring.
Qed.

Lemma zsum_fmap_add {A} (g h : A -> Z) l : zsum ((fun x => g x + h x) <$> l) = zsum (g <$> l) + zsum (h <$> l).
Proof. induction l as [|x l IH]; [done|]. change (g x + h x + zsum ((fun x => g x + h x) <$> l) = g x + zsum (g <$> l) + (h x + zsum (h <$> l))). lia. Qed.

Lemma zsum_fmap_mul {A} a (g : A -> Z) l : zsum ((fun x => a * g x) <$> l) = a * zsum (g <$> l).
Proof. induction l as [|x l IH]; [cbn; ring|]. change (a * g x + zsum ((fun x => a * g x) <$> l) = a * (g x + zsum (g <$> l))). lia. Qed.

(** The values dealt to [j] add up to [Delta] times its new share. *)
Lemma values_sum cs T t j : resharing cs T t -> poly (Z.to_nat T) f ->
  zsum (value_for j <$> cs) = dao_dkg_delta * reshared f cs j.
Proof.
  intros [Hs HT _ Hd Hm Hmu _ _ _ _] Hf. unfold value_for, dealt_value. rewrite zsum_fmap_add.
  change ((fun c => mu (co_index c) * f (co_index c)) <$> cs) with ((fun c => (fun i => mu i * f i) (co_index c)) <$> cs).
  rewrite (list_fmap_compose co_index (fun i => mu i * f i)). change (co_index <$> cs) with (map co_index cs). unfold zlen in Hs.
  rewrite (multipliers_interpolate (map co_index cs) f mu); [|done|done|rewrite length_map; lia| |done].
  2: { rewrite length_map. apply (poly_le (Z.to_nat T)); [lia|done]. }
  unfold reshared. rewrite Z.mul_add_distr_l, Z.mul_assoc, <- zsum_fmap_mul. f_equal. f_equal.
  apply list_fmap_ext. intros k c _. apply exponent_value.
Qed.

Lemma reshared_poly cs t : 0 < t -> Forall (fun c => zlen (co_coeffs c) = t) cs -> poly (Z.to_nat (t + 1)) (reshared f cs).
Proof.
  intros Ht F. replace (Z.to_nat (t + 1)) with (S (Z.to_nat t)) by lia. unfold reshared.
  exists (f 0), (fun x => coeff_scale * zsum ((fun c => evaluate (map coeff_value (co_coeffs c)) x 1) <$> cs)). split.
  - apply poly_scale, poly_zsum. intros c Hc. rewrite Forall_forall in F. specialize (F c Hc).
    replace (Z.to_nat t) with (length (map coeff_value (co_coeffs c))) by (rewrite length_map; unfold zlen in F; lia). apply evaluate_poly.
  - intros x. f_equal. rewrite Z.mul_assoc, (Z.mul_comm x), <- Z.mul_assoc. f_equal. rewrite <- zsum_fmap_mul. f_equal.
    apply list_fmap_ext. intros k c _. by rewrite <- evaluate_scale, Z.mul_1_r.
Qed.

(** The new shares are shares of the same key. *)
Lemma reshared_key cs T t theta : resharing cs T t -> threshold_key pk f T theta ->
  threshold_key pk (reshared f cs) (t + 1) theta.
Proof.
  intros Hr [Hpk Hf Hk Hth Hu]. assert (reshared f cs 0 = f 0) as E0.
  { unfold reshared. rewrite (list_fmap_ext _ (fun _ => 0 * 0)), zsum_fmap_mul; [ring|].
    intros k c _. exact (evaluate_scale (map coeff_value (co_coeffs c)) 0 0 0). }
  split; [done|apply reshared_poly; apply Hr|by rewrite E0|by rewrite E0|done].
Qed.

(** ** What the new members compute *)

Context (Hpk : pk_ok pk) (HV : is_ct pk V) (Hg : vss_ok grp) (Hsize : (BN_num_bytes (vss_P grp) <= 1024)%nat).
Notation v := (ct_unit pk V).

Definition contribute (new_indices : list Z) (c : contributor) : option dao_reshare_contribution :=
  dao_reshare_make_contribution pk grp V (f (co_index c)) (mu (co_index c)) dao_dkg_delta new_indices (co_ctx c) (co_rs c) (co_coeffs c).

Definition made (new_indices : list Z) (co : contributor) (c : dao_reshare_contribution) : Prop :=
  contributor_ready pk V grp (co_ctx co) (f (co_index co)) (mu (co_index co)) (co_rs co) (co_coeffs co) /\
  contribution_made pk V grp (co_ctx co) (f (co_index co)) (mu (co_index co)) (co_coeffs co) new_indices c.

Lemma contributions_made new_indices cs : new_indices <> [] -> Forall (fun j => 0 <= j < 2 ^ 32) new_indices ->
  Forall (fun c => contributor_ready pk V grp (co_ctx c) (f (co_index c)) (mu (co_index c)) (co_rs c) (co_coeffs c)) cs ->
  exists contributions, mapM (contribute new_indices) cs = Some contributions /\ Forall2 (made new_indices) cs contributions.
Proof using All.
  intros Hne Hj. induction 1 as [|co cs Hy _ (cs' & E & F)]; [by exists []|].
  destruct (contribution_complete pk Hpk V HV grp Hg Hsize _ _ _ _ _ new_indices Hy Hne Hj) as (c & Ec & Hc).
  fold (contribute new_indices co) in Ec. exists (c :: cs'). cbn [mapM]. rewrite Ec. cbn [mbind option_bind]. rewrite E. split; [done|]. by constructor.
Qed.

Lemma compute_vk_loop_spec new_indices cs contributions j acc : 0 <= j -> Forall2 (made new_indices) cs contributions ->
  compute_vk_loop pk j (map ct_commits contributions) (unit_val (Zstar.pow v acc)) =
  Some (unit_val (Zstar.pow v (acc + zsum (value_for j <$> cs)))).
Proof using All.
  intros Hj F. revert acc. induction F as [|co c cs cs' [Hy Hc] F IH]; intros acc; [by rewrite Z.add_0_r|]. cbn [map compute_vk_loop].
  rewrite (cm_degree _ _ _ _ _ _ _ _ _ Hc), (made_commitments pk Hpk V grp _ _ _ _ _ _ j Hc Hj), (cm_C_0 _ _ _ _ _ _ _ _ _ Hc),
    (cm_C_k _ _ _ _ _ _ _ _ _ Hc), (length_ct_bytes pk Hpk).
  unfold zlen. rewrite !length_map, Nat.eqb_refl, Z.eqb_refl. cbn [negb]. rewrite <- unit_val_mul, <- Zstar.pow_add_r, IH.
  change (zsum (value_for j <$> co :: cs)) with (value_for j co + zsum (value_for j <$> cs)). do 3 f_equal. unfold value_for. ring.
Qed.

Lemma compute_vk_spec new_indices cs contributions j T t : 1 <= j -> resharing cs T t -> poly (Z.to_nat T) f ->
  Forall2 (made new_indices) cs contributions ->
  dao_reshare_vss_compute_vk pk (map ct_commits contributions) j = Some (verification_key pk V (reshared f cs j)).
Proof using All.
  intros Hj Hr Hf F. unfold dao_reshare_vss_compute_vk.
  assert (contributions <> []) as Hne.
  { intros ->. apply Forall2_length in F. cbn in F. destruct Hr as [Hs HT _ _ _ _ _ _ _ _]. unfold zlen in Hs. lia. }
  rewrite (proj2 (is_empty_false _)) by (by destruct contributions). rewrite (proj2 (Z.eqb_neq j 0)) by lia.
  replace 1 with (unit_val (Zstar.pow v 0)) by (rewrite Zstar.pow_0_r, unit_val_one; apply Z.mod_small; pose proof (pk_N2_pos pk Hpk); lia).
  rewrite (compute_vk_loop_spec new_indices cs) by (done || lia). cbn [mbind option_bind].
  rewrite (values_sum cs T t j Hr Hf). by apply bn2binpad_unit.
Qed.

(** The share a new member ends up with. *)
Definition new_share (cs : list contributor) (j : Z) : dao_reshare_new_share :=
  {| ns_j := j; ns_share_signed := default [] (dao_reshare_serialize_signed (reshared f cs j));
     ns_VK_j := verification_key pk V (reshared f cs j) |}.

Lemma zsum_abs {A} (g : A -> Z) B l : Forall (fun x => Z.abs (g x) <= B) l -> Z.abs (zsum (g <$> l)) <= zlen l * B.
Proof.
  induction 1 as [|x l Hx _ IH]; [done|]. change (Z.abs (g x + zsum (g <$> l)) <= zlen (x :: l) * B). rewrite zlen_cons. lia.
Qed.

Lemma new_share_bound cs T t j : resharing cs T t -> poly (Z.to_nat T) f -> 1 <= j < 2 ^ 32 ->
  Z.abs (reshared f cs j) <= 2 ^ 4 * 2 ^ 16700.
Proof.
  intros Hr Hf Hj. apply abs_delta_le. rewrite <- (values_sum cs T t j Hr Hf).
  assert (zlen cs <= 2 ^ 4) as H16.
  { pose proof (committee_bound _ (rs_distinct _ _ _ Hr) (rs_members _ _ _ Hr)) as B. unfold zlen in *. by rewrite length_map in B. }
  etransitivity; [apply (zsum_abs _ (2 ^ 16700))|by apply Z.mul_le_mono_nonneg_r; [apply Z.pow_nonneg|]].
  apply Forall_lookup. intros k c Hk. pose proof (rs_ready _ _ _ Hr) as F. rewrite Forall_lookup in F. specialize (F k c Hk).
  apply Z.lt_le_incl, (dealt_value_bound grp Hsize); [apply F..|]. clear -Hj. lia.
Qed.

Lemma new_share_fits cs T t j : resharing cs T t -> poly (Z.to_nat T) f -> 1 <= j < 2 ^ 32 ->
  dao_reshare_serialize_signed (reshared f cs j) = Some (ns_share_signed (new_share cs j)).
Proof.
  intros Hr Hf Hj. apply signed_pad_default. change (256 ^ Z.of_nat (DAO_RESHARE_SIGNED_BYTES - 1)) with ((2 ^ 8) ^ 2320).
  rewrite <- Z.pow_mul_r by done. eapply Z.le_lt_trans; [by eapply new_share_bound|]. rewrite <- Z.pow_add_r by done. by apply Z.pow_lt_mono_r.
Qed.

Lemma finish_share_spec new_indices cs contributions j T t : 1 <= j < 2 ^ 32 -> resharing cs T t -> poly (Z.to_nat T) f ->
  Forall2 (made new_indices) cs contributions ->
  finish_share pk V dao_dkg_delta j (zsum (value_for j <$> cs)) (map ct_commits contributions) = Some (new_share cs j).
Proof using All.
  intros Hj Hr Hf F. unfold finish_share. rewrite (values_sum cs T t j Hr Hf), Z.mul_comm.
  change (dao_dkg_delta =? 0) with false. rewrite Z.rem_mul, Z.quot_mul by done. cbn [Z.eqb negb].
  rewrite (compute_vk_spec new_indices cs contributions j T t) by (done || lia). cbn [mbind option_bind].
  rewrite (V_modexp pk Hpk V HV). cbn [mbind option_bind]. rewrite (binpad_unit pk Hpk), Z.mul_comm.
  fold (verification_key pk V (reshared f cs j)). rewrite beq_refl. cbn [negb].
  by rewrite (new_share_fits cs T t j Hr Hf Hj).
Qed.

Lemma sum_shares_spec new_indices cs contributions k j acc : new_indices !! k = Some j -> 1 <= j < 2 ^ 32 ->
  Forall2 (made new_indices) cs contributions ->
  sum_shares pk grp V k j contributions acc = Some (acc + zsum (value_for j <$> cs)).
Proof using All.
  intros Hk Hj F. revert acc. induction F as [|co c cs cs' [Hy Hc] F IH]; intros acc; [by rewrite Z.add_0_r|]. cbn [sum_shares].
  rewrite (cm_shares _ _ _ _ _ _ _ _ _ Hc), lookup_map, Hk. cbn [mbind option_bind fmap option_fmap option_map].
  cbn [dealt_share sh_j]. rewrite Z.eqb_refl. cbn [negb]. fold (dealt_share (f (co_index co)) (mu (co_index co)) (co_coeffs co) j).
  rewrite (made_share pk Hpk V HV grp Hsize _ _ _ _ _ _ _ j Hy Hc Hj). cbn [mbind option_bind]. rewrite IH.
  change (zsum (list_fmap contributor Z (value_for j) (co :: cs))) with (value_for j co + zsum (value_for j <$> cs)). by rewrite Z.add_assoc.
Qed.

Lemma combine_spec_all new_indices cs contributions T t : Forall (fun j => 1 <= j < 2 ^ 32) new_indices ->
  resharing cs T t -> poly (Z.to_nat T) f -> Forall2 (made new_indices) cs contributions ->
  dao_reshare_combine pk grp V contributions new_indices T dao_dkg_delta = Some (map (new_share cs) new_indices).
Proof using All.
  intros Hj Hr Hf F. unfold dao_reshare_combine. pose proof (Forall2_length _ _ _ F) as L.
  assert (zlen contributions = T) as LT by (pose proof (rs_size _ _ _ Hr); unfold zlen in *; lia). pose proof (rs_threshold _ _ _ Hr).
  rewrite LT, (proj2 (Z.ltb_ge _ _)), (proj2 (Z.eqb_neq _ _)) by lia.
  assert (existsb (fun c => negb (length (ct_shares c) =? length new_indices)%nat) contributions = false) as ->.
  { clear -F. induction F as [|co c cs cs' [_ Hc] F IH]; [done|]. cbn [existsb].
    rewrite (cm_shares _ _ _ _ _ _ _ _ _ Hc), length_map, Nat.eqb_refl. by rewrite IH. }
  rewrite (mapM_total _ (fun kj => new_share cs (snd kj))).
  - rewrite <- (map_map snd (new_share cs)), snd_zip; [done|]. by rewrite length_seq.
  - intros [k j] Hin. apply list_elem_of_lookup in Hin as [n Hn]. apply lookup_zip_Some in Hn as [Hs Hl]. apply lookup_seq in Hs as [-> _].
    cbn [fst snd]. rewrite Forall_lookup in Hj. rewrite (sum_shares_spec new_indices cs) by (done || by eapply Hj). cbn [mbind option_bind].
    rewrite Z.add_0_l. eapply finish_share_spec; [by eapply Hj|done..].
Qed.

(** *** One member alone *)

Lemma find_share s m coeffs j new_indices : j ∈ new_indices ->
  exists k, list_find (fun sh => sh_j sh = j) (map (dealt_share s m coeffs) new_indices) = Some (k, dealt_share s m coeffs j).
Proof.
  induction new_indices as [|i l IH]; intros Hj; [by apply elem_of_nil in Hj|]. cbn [map list_find].
  destruct (decide (i = j)) as [->|Hne].
  - exists 0%nat. rewrite decide_True; done.
  - apply elem_of_cons in Hj as [->|Hj]; [done|]. destruct (IH Hj) as [k E]. exists (S k). rewrite decide_False by done. by rewrite E.
Qed.

Lemma combine_one_loop_spec new_indices S T j cs contributions subset seen s used :
  j ∈ new_indices -> 1 <= j < 2 ^ 32 -> zlen S = T -> (subset = None \/ subset = Some S) ->
  Forall2 (made new_indices) cs contributions -> zlen used + zlen cs = T ->
  Forall (fun c => lc_original_index (co_ctx c) = co_index c /\ lc_contributor_subset (co_ctx c) = S /\ co_index c ∈ S) cs ->
  NoDup (map co_index cs) -> (forall i, i ∈ map co_index cs -> i ∉ seen) ->
  combine_one_loop pk grp V j T subset seen s used contributions =
  Some (s + zsum (value_for j <$> cs), used ++ map ct_commits contributions).
Proof using All.
  intros Hin Hj HS Hsub F. revert subset seen s used Hsub.
  induction F as [|co c cs cs' [Hy Hc] F IH]; intros subset seen s used Hsub Hlen Hok Hnd Hseen; unfold zlen in Hlen; cbn [length] in Hlen.
  - cbn [combine_one_loop map]. rewrite (proj2 (Z.leb_le _ _)) by (unfold zlen; lia). by rewrite Z.add_0_r, app_nil_r.
  - apply Forall_cons in Hok as [(Ei & Es & Em) Hok]. cbn [map] in Hnd, Hseen. apply NoDup_cons in Hnd as [Hni Hnd].
    cbn [combine_one_loop]. rewrite (proj2 (Z.leb_gt _ _)) by (unfold zlen; lia).
    pose proof (cm_index _ _ _ _ _ _ _ _ _ Hc) as Ec. rewrite Ei in Ec. destruct (cm_ctx _ _ _ _ _ _ _ _ _ Hc) as (m & _ & Ectx).
    rewrite Ectx. cbn [with_constant lc_contributor_subset]. rewrite Es, Ec.
    assert (match subset with None => if negb (zlen S =? T) then None else Some S
            | Some s0 => if negb (bool_decide (S = s0)) then None else Some s0 end = Some S) as ->.
    { destruct Hsub as [-> | ->]; [by rewrite HS, Z.eqb_refl|by rewrite bool_decide_eq_true_2]. }
    cbn [mbind option_bind].
    rewrite (proj2 (existsb_Exists _ S)) by (apply Exists_exists; exists (co_index co); by rewrite Z.eqb_refl). cbn [negb].
    assert (existsb (fun s0 => s0 =? co_index co) seen = false) as ->.
    { apply not_true_iff_false. rewrite existsb_Exists, Exists_exists. intros (i & Hi & E). to_prop. subst. apply (Hseen (co_index co)); [left|done]. }
    rewrite (cm_shares _ _ _ _ _ _ _ _ _ Hc).
    destruct (find_share (f (co_index co)) (mu (co_index co)) (co_coeffs co) j new_indices Hin) as [k ->]. cbn [mbind option_bind snd].
    rewrite (made_share pk Hpk V HV grp Hsize _ _ _ _ _ _ _ j Hy Hc Hj). cbn [mbind option_bind].
    rewrite IH; [|by right| |done|done|].
    + change (zsum (value_for j <$> co :: cs)) with (value_for j co + zsum (value_for j <$> cs)). rewrite Z.add_assoc, <- app_assoc. done.
    + unfold zlen. rewrite length_app. cbn [length]. lia.
    + intros i Hi. apply not_elem_of_cons. split; [by intros ->|]. apply Hseen. by right.
Qed.

Lemma combine_one_spec dealt new_indices cs contributions T t pos j : new_indices !! pos = Some j -> j ∈ dealt -> 1 <= j < 2 ^ 32 ->
  resharing cs T t -> poly (Z.to_nat T) f -> Forall2 (made dealt) cs contributions ->
  dao_reshare_combine_one pk grp V contributions new_indices pos T dao_dkg_delta = Some (new_share cs j).
Proof using All.
  intros Hp Hin Hj Hr Hf F. unfold dao_reshare_combine_one. pose proof (Forall2_length _ _ _ F) as L.
  assert (zlen contributions = T) as LT by (pose proof (rs_size _ _ _ Hr); unfold zlen in *; lia). pose proof (rs_threshold _ _ _ Hr).
  rewrite LT, (proj2 (Z.eqb_neq _ _)), (proj2 (Z.ltb_ge _ _)), Hp by lia. cbn [mbind option_bind].
  rewrite (combine_one_loop_spec dealt (map co_index cs) T j cs contributions None [] 0 []); try done.
  - cbn [mbind option_bind app]. rewrite Z.add_0_l. by eapply finish_share_spec.
  - pose proof (rs_size _ _ _ Hr). unfold zlen in *. by rewrite length_map.
  - by left.
  - pose proof (rs_size _ _ _ Hr). unfold zlen in *. cbn [length]. lia.
  - apply Forall_forall. intros c Hc. pose proof (rs_index _ _ _ Hr) as F1. pose proof (rs_subset _ _ _ Hr) as F2.
    rewrite Forall_forall in F1, F2. split_and!; [by apply F1|by apply F2|]. by apply list_elem_of_fmap_2.
  - apply Hr.
  - intros i _. apply not_elem_of_nil.
Qed.

Lemma all_vks_spec dealt new_indices cs contributions T t : Forall (fun j => 1 <= j < 2 ^ 32) new_indices ->
  resharing cs T t -> poly (Z.to_nat T) f -> Forall2 (made dealt) cs contributions ->
  dao_reshare_compute_all_vks pk contributions new_indices = Some (map (fun j => verification_key pk V (reshared f cs j)) new_indices).
Proof using All.
  intros Hj Hr Hf F. unfold dao_reshare_compute_all_vks. rewrite (proj2 (is_empty_false _)).
  - apply mapM_total. intros j Hin. rewrite Forall_forall in Hj. specialize (Hj j Hin). eapply compute_vk_spec; [lia|done..].
  - intros ->. apply Forall2_length in F. pose proof (rs_size _ _ _ Hr). pose proof (rs_threshold _ _ _ Hr). unfold zlen in *. cbn in F. lia.
Qed.

End resharing.
