(* ===== verification/ReshareRunner.v ===== *)
(** * Running a resharing

    [governance/dao_dkg.cpp] ([encrypt_dkg_private_payload] to
    [decrypt_dkg_private_payload]): the envelope of a message to one member;
    [dao_reshare_runner] of [governance/dao_reshare_pipeline.cpp]: the state
    machine by which a node deals its contribution, collects those of the others
    and derives the new share set. *)

From S2P Require Import Prelude Archive Crypto Paillier Threshold DkgProofs Pedersen Reshare.

(** ** Private payloads *)

(** The key agreement of [crypto/crypto.cpp] and AES-256-GCM of OpenSSL, which
    returns the ciphertext and its tag. *)
Class PrivateBox := {
  secret_key_to_public_key : bytes -> option bytes;
  check_key : bytes -> bool;
  generate_key_derivation : bytes -> bytes -> option bytes;
  gcm_encrypt : bytes -> bytes -> bytes -> bytes -> bytes * bytes;
  gcm_decrypt : bytes -> bytes -> bytes -> bytes -> bytes -> option bytes;
}.

Class PrivateBoxLaws `{PrivateBox} := {
  public_key_size e E : secret_key_to_public_key e = Some E -> length E = 32%nat /\ check_key E = true;
  derivation_agrees e E r R : secret_key_to_public_key e = Some E -> secret_key_to_public_key r = Some R ->
    exists d, generate_key_derivation R e = Some d /\ generate_key_derivation E r = Some d;
  gcm_sizes k a n p : length (fst (gcm_encrypt k a n p)) = length p /\ length (snd (gcm_encrypt k a n p)) = 16%nat;
  gcm_inverse k a n p : gcm_decrypt k a n (fst (gcm_encrypt k a n p)) (snd (gcm_encrypt k a n p)) = Some p;
}.

Definition DAO_DKG_PRIVATE_MAGIC : bytes := str "VDKE".
Definition DAO_DKG_PRIVATE_VERSION : Z := 1.
Definition DAO_DKG_PRIVATE_NONCE_SIZE : nat := 12.
Definition DAO_DKG_PRIVATE_TAG_SIZE : nat := 16.

Definition dkg_private_magic_ok (payload : bytes) : bool :=
  (5 <=? length payload)%nat && beq (take 4 payload) DAO_DKG_PRIVATE_MAGIC && (nth 4 payload 0 =? DAO_DKG_PRIVATE_VERSION).

Definition dkg_private_make_aad (sender_pub recipient_pub ephemeral_pub : bytes) : bytes :=
  DAO_DKG_PRIVATE_MAGIC ++ [DAO_DKG_PRIVATE_VERSION] ++ sender_pub ++ recipient_pub ++ ephemeral_pub.

Definition dkg_private_derive_material (derivation recipient_pub ephemeral_pub : bytes) : bytes :=
  str "VeilRoot-DAO-DKG-PRIVATE-V1" ++ [0] ++ derivation ++ recipient_pub ++ ephemeral_pub.

Definition INT_MAX : Z := 2 ^ 31 - 1.

Section payload.
Context `{PrivateBox} `{Crypto}.

(** [ephemeral_priv] and [nonce] are drawn. *)
Definition encrypt_dkg_private_payload (plaintext sender_pub recipient_pub ephemeral_priv nonce : bytes) : option bytes :=
  ephemeral_pub ← secret_key_to_public_key ephemeral_priv;
  derivation ← generate_key_derivation recipient_pub ephemeral_priv;
  let key_hash := cn_fast_hash (dkg_private_derive_material derivation recipient_pub ephemeral_pub) in
  let aad := dkg_private_make_aad sender_pub recipient_pub ephemeral_pub in
  if INT_MAX <? zlen plaintext then None else
  let '(ciphertext, tag) := gcm_encrypt key_hash aad nonce plaintext in
  Some (DAO_DKG_PRIVATE_MAGIC ++ [DAO_DKG_PRIVATE_VERSION] ++ recipient_pub ++ ephemeral_pub ++ nonce ++
        le_bytes 4 (zlen ciphertext) ++ ciphertext ++ tag).

Definition is_dkg_private_payload (payload : bytes) : bool := dkg_private_magic_ok payload.

Definition decrypt_dkg_private_payload (envelope sender_pub recipient_priv : bytes) : option bytes :=
  if negb (dkg_private_magic_ok envelope) then None else
  if (length envelope <? 4 + 1 + 32 + 32 + DAO_DKG_PRIVATE_NONCE_SIZE + 4 + DAO_DKG_PRIVATE_TAG_SIZE)%nat then None else
  '(recipient_pub, d) ← read_raw 32 (drop 5 envelope);
  self_pub ← secret_key_to_public_key recipient_priv;
  if negb (beq self_pub recipient_pub) then None else
  '(ephemeral_pub, d) ← read_raw 32 d;
  if negb (check_key ephemeral_pub) then None else
  '(nonce, d) ← read_raw DAO_DKG_PRIVATE_NONCE_SIZE d;
  '(ciphertext_size, d) ← read_le 4 d;
  if negb (Z.of_nat (length d) =? ciphertext_size + Z.of_nat DAO_DKG_PRIVATE_TAG_SIZE) then None else
  let ciphertext := take (Z.to_nat ciphertext_size) d in
  let tag := drop (Z.to_nat ciphertext_size) d in
  derivation ← generate_key_derivation ephemeral_pub recipient_priv;
  let key_hash := cn_fast_hash (dkg_private_derive_material derivation recipient_pub ephemeral_pub) in
  if INT_MAX <? zlen ciphertext then None else
  gcm_decrypt key_hash (dkg_private_make_aad sender_pub recipient_pub ephemeral_pub) nonce ciphertext tag.

End payload.

(** ** The runner *)

(** [dao_reshare_runner::config]; [t_new] is the number of coefficients drawn. *)
Record runner_config := {
  rc_pk : PaillierPublicKey; rc_grp : dao_vss_group; rc_V_bytes : bytes; rc_delta : Z;
  rc_new_indices : list Z; rc_new_members : list bytes;
  rc_contributor_indices : list Z; rc_contributor_members : list bytes; rc_contributor_vk : list bytes;
  rc_old_share_set_id : Z; rc_new_share_set_id : Z; rc_height : Z; rc_threshold : Z; rc_key_id : bytes;
  rc_local_party_index : Z; rc_local_new_index : Z; rc_local_s_i : option Z; rc_local_mu_i : option Z;
  rc_local_pub : bytes; rc_local_priv : bytes; rc_link_ctx_base : dao_reshare_link_context;
  rc_contributor_threshold : Z;
}.

(** [rn_final] is the record once finalized; [rn_sent] is what has been
    broadcast. *)
Record runner := {
  rn_contributions : gmap Z dao_reshare_contribution;
  rn_final : option dao_share_set_record;
  rn_local_share : option bytes;
  rn_sent : list bytes;
}.

Definition new_runner : runner := {| rn_contributions := ∅; rn_final := None; rn_local_share := None; rn_sent := [] |}.

Section runner.
Context `{Digests} `{PrivateBox} `{Crypto} (cfg : runner_config).

Definition needed_contributions : Z :=
  if rc_contributor_threshold cfg =? 0 then rc_threshold cfg else rc_contributor_threshold cfg.

(** The contributions that are combined, in the order of the configuration, whose
    thresholds are positive. *)
Definition ordered_contributions (m : gmap Z dao_reshare_contribution) : list dao_reshare_contribution :=
  take (Z.to_nat needed_contributions) (omap (fun i => m !! i) (rc_contributor_indices cfg)).

(** One entry of the evidence: the public part of a contribution, its index, and
    the verification key of the base share set. *)
Definition evidence_entry (c : dao_reshare_contribution) : option (bytes * Z * bytes) :=
  blob ← dao_reshare_serialize_public c;
  k ← list_find (fun i => i = ct_contributor_index c) (rc_contributor_indices cfg);
  vk ← rc_contributor_vk cfg !! fst k;
  Some (blob, ct_contributor_index c, vk).

Definition with_evidence (rec : dao_share_set_record) (ordered : list dao_reshare_contribution) : dao_share_set_record :=
  if (length (rc_contributor_vk cfg) =? length (rc_contributor_indices cfg))%nat && negb (is_empty (rc_contributor_vk cfg)) &&
     (needed_contributions <=? zlen ordered)
  then match mapM evidence_entry ordered with
       | Some l =>
           {| ss_version := ss_version rec; ss_share_set_id := ss_share_set_id rec; ss_height := ss_height rec;
              ss_threshold := ss_threshold rec; ss_key_id := ss_key_id rec; ss_committee_id_hash := ss_committee_id_hash rec;
              ss_committee_members := ss_committee_members rec; ss_VK_i := ss_VK_i rec;
              ss_base_share_set_id := rc_old_share_set_id cfg; ss_contributions := map (fun x => fst (fst x)) l;
              ss_contributor_indices := map (fun x => snd (fst x)) l; ss_contributor_vk := map snd l |}
       | None => rec
       end
  else rec.

(** The message that announces a finished record. *)
Definition complete_msg (blob : bytes) : dao_reshare_msg :=
  {| rm_version := 1; rm_old_share_set_id := rc_old_share_set_id cfg; rm_new_share_set_id := rc_new_share_set_id cfg;
     rm_sender_index := rc_local_party_index cfg; rm_type := 1; rm_public_blob := []; rm_recipient_indices := [];
     rm_recipient_payloads := []; rm_record_blob := blob |}.

Definition try_finalize_locked (st : runner) : runner :=
  match rn_final st with
  | Some _ => st
  | None =>
    let ct := needed_contributions in
    if rc_local_new_index cfg =? 0 then st else
    if Z.of_nat (size (rn_contributions st)) <? ct then st else
    let ordered := ordered_contributions (rn_contributions st) in
    if zlen ordered <? ct then st else
    match dao_reshare_compute_all_vks (rc_pk cfg) ordered (rc_new_indices cfg) with
    | None => st
    | Some vks =>
        let pos := Z.to_nat (rc_local_new_index cfg - 1) in
        let mine := if rc_local_new_index cfg <=? zlen (rc_new_indices cfg)
                    then dao_reshare_combine_one (rc_pk cfg) (rc_grp cfg) (rc_V_bytes cfg) ordered (rc_new_indices cfg)
                           pos ct (rc_delta cfg)
                    else None in
        let new_shares := imap (fun k jv =>
          {| ns_j := fst jv; ns_VK_j := snd jv;
             ns_share_signed := match mine with Some m => if (k =? pos)%nat then ns_share_signed m else [] | None => [] end |})
          (zip (rc_new_indices cfg) vks) in
        let local_share := match mine with Some m => Some (ns_share_signed m) | None => rn_local_share st end in
        match dao_reshare_build_share_set (rc_new_share_set_id cfg) (rc_height cfg) (rc_key_id cfg) (rc_new_members cfg)
                new_shares (rc_threshold cfg) with
        | None =>
            {| rn_contributions := rn_contributions st; rn_final := None; rn_local_share := local_share; rn_sent := rn_sent st |}
        | Some rec =>
            let rec := with_evidence rec ordered in
            {| rn_contributions := rn_contributions st; rn_final := Some rec; rn_local_share := local_share;
               rn_sent := rn_sent st ++ match share_set_serialize rec with
                                        | Some blob => [msg_serialize (complete_msg blob)]
                                        | None => []
                                        end |}
        end
    end
  end.

Definition store (st : runner) (i : Z) (c : dao_reshare_contribution) : runner :=
  {| rn_contributions := <[i := c]> (rn_contributions st); rn_final := rn_final st; rn_local_share := rn_local_share st;
     rn_sent := rn_sent st |}.

Definition with_shares (c : dao_reshare_contribution) (shares : list dao_reshare_vss_share) : dao_reshare_contribution :=
  {| ct_contributor_index := ct_contributor_index c; ct_contributor_pubkey := ct_contributor_pubkey c;
     ct_link_ctx := ct_link_ctx c; ct_link_proof := ct_link_proof c; ct_commits := ct_commits c;
     ct_coeff_proofs := ct_coeff_proofs c; ct_shares := shares |}.

(** The envelope for one new member; [drawn] is its ephemeral key and nonce. *)
Definition share_payload (sh : dao_reshare_vss_share) (member : bytes) (drawn : bytes * bytes) : option bytes :=
  let bundle := {| sb_old_share_set_id := rc_old_share_set_id cfg; sb_sender_index := rc_local_party_index cfg;
                   sb_share_bytes := dao_reshare_serialize_share sh |} in
  encrypt_dkg_private_payload (bundle_serialize bundle) (rc_local_pub cfg) member (fst drawn) (snd drawn).

Definition deal_msg (contrib : dao_reshare_contribution) (drawn : list (bytes * bytes)) : option dao_reshare_msg :=
  blob ← dao_reshare_serialize_public contrib;
  payloads ← mapM (fun x => share_payload (fst (fst x)) (snd (fst x)) (snd x))
               (zip (zip (ct_shares contrib) (rc_new_members cfg)) drawn);
  Some {| rm_version := 1; rm_old_share_set_id := rc_old_share_set_id cfg; rm_new_share_set_id := rc_new_share_set_id cfg;
          rm_sender_index := rc_local_party_index cfg; rm_type := 0; rm_public_blob := blob;
          rm_recipient_indices := rc_new_indices cfg; rm_recipient_payloads := payloads; rm_record_blob := [] |}.

(** [start]: the node afterwards, and the result.  [rs], [coeffs] and [drawn] are
    what the contribution and the envelopes draw. *)
Definition start (rs : nat -> Z) (coeffs : list coeff_random) (drawn : list (bytes * bytes)) (st : runner) : runner * bool :=
  if rc_local_party_index cfg =? 0 then (st, true) else
  match rc_local_s_i cfg, rc_local_mu_i cfg with
  | Some s_i, Some mu_i =>
      match dao_reshare_make_contribution (rc_pk cfg) (rc_grp cfg) (rc_V_bytes cfg) s_i mu_i (rc_delta cfg)
              (rc_new_indices cfg) (rc_link_ctx_base cfg) rs coeffs with
      | None => (st, false)
      | Some contrib =>
          let st := if negb (rc_local_new_index cfg =? 0) && (rc_local_new_index cfg <=? zlen (ct_shares contrib))
                    then match ct_shares contrib !! Z.to_nat (rc_local_new_index cfg - 1) with
                         | Some mine => store st (rc_local_party_index cfg) (with_shares contrib [mine])
                         | None => st
                         end
                    else st in
          match deal_msg contrib drawn with
          | None => (st, false)
          | Some m =>
              (try_finalize_locked {| rn_contributions := rn_contributions st; rn_final := rn_final st;
                                      rn_local_share := rn_local_share st; rn_sent := rn_sent st ++ [msg_serialize m] |}, true)
          end
      end
  | _, _ => (st, false)
  end.

(** The share that a message carries for this node, from one of its payloads. *)
Definition read_payload (from : bytes) (m : dao_reshare_msg) (my_new_index : Z) (x : Z * bytes) : option dao_reshare_vss_share :=
  if negb (fst x =? my_new_index) then None else
  if negb (is_dkg_private_payload (snd x)) then None else
  plaintext ← decrypt_dkg_private_payload (snd x) from (rc_local_priv cfg);
  bundle ← bundle_deserialize plaintext;
  if negb (sb_old_share_set_id bundle =? rc_old_share_set_id cfg) then None else
  if negb (sb_sender_index bundle =? rm_sender_index m) then None else
  dao_reshare_deserialize_share (sb_share_bytes bundle).

Definition my_share (from : bytes) (m : dao_reshare_msg) : option dao_reshare_vss_share :=
  if (rc_local_new_index cfg =? 0) || (zlen (rc_new_indices cfg) <? rc_local_new_index cfg) then None else
  let my_new_index := nth (Z.to_nat (rc_local_new_index cfg - 1)) (rc_new_indices cfg) 0 in
  head (omap (read_payload from m my_new_index) (zip (rm_recipient_indices m) (rm_recipient_payloads m))).

(** Whether [from] is the contributor whose index the message names. *)
Definition sender_ok (from : bytes) (m : dao_reshare_msg) : bool :=
  if (rm_sender_index m =? 0) || negb (length (rc_contributor_indices cfg) =? length (rc_contributor_members cfg))%nat then false else
  match list_find (fun i => i = rm_sender_index m) (rc_contributor_indices cfg) with
  | None => false
  | Some (k, _) => match rc_contributor_members cfg !! k with Some member => beq member from | None => false end
  end.

(** A deal: the contribution that is stored, if any. *)
Definition accept_deal (from : bytes) (m : dao_reshare_msg) : option dao_reshare_contribution :=
  contrib ← dao_reshare_deserialize_public (rm_public_blob m);
  if negb (ct_contributor_index contrib =? rm_sender_index m) then None else
  if negb (beq (ct_contributor_pubkey contrib) from) then None else
  if negb (lc_share_set_id (ct_link_ctx contrib) =? rc_old_share_set_id cfg) then None else
  if negb (lc_original_index (ct_link_ctx contrib) =? rm_sender_index m) then None else
  match my_share from m with
  | None => if negb (rm_sender_index m =? rc_local_party_index cfg) then None else Some contrib
  | Some sh =>
      let contrib := with_shares contrib [sh] in
      if negb (dao_reshare_vss_verify (rc_pk cfg) (rc_grp cfg) (rc_V_bytes cfg) (ct_link_ctx contrib) (ct_link_proof contrib)
                 (ct_commits contrib) (ct_coeff_proofs contrib) (sh_j sh) (sh_q_i_j sh)) then None else
      Some contrib
  end.

Definition on_message (from : bytes) (m : dao_reshare_msg) (st : runner) : runner :=
  if negb (rm_version m =? 1) then st else
  if negb (rm_old_share_set_id m =? rc_old_share_set_id cfg) then st else
  if negb (rm_new_share_set_id m =? rc_new_share_set_id cfg) then st else
  if rm_type m =? 0 then
    if negb (sender_ok from m) then st else
    if bool_decide (is_Some (rn_contributions st !! rm_sender_index m)) then st else
    match accept_deal from m with
    | None => st
    | Some contrib => try_finalize_locked (store st (rm_sender_index m) contrib)
    end
  else if rm_type m =? 1 then
    match share_set_deserialize (rm_record_blob m) with
    | None => st
    | Some rec =>
        if negb (ss_share_set_id rec =? rc_new_share_set_id cfg) then st else
        if negb (bool_decide (ss_committee_members rec = rc_new_members cfg)) then st else
        match rn_final st with
        | Some _ => st
        | None =>
            {| rn_contributions := rn_contributions st; rn_final := Some rec; rn_local_share := rn_local_share st;
               rn_sent := rn_sent st |}
        end
    end
  else st.

(** [Blockchain::handle_dao_v2_reshare_msg], while a runner is there. *)
Definition handle_dao_v2_reshare_msg (from payload : bytes) (st : runner) : runner :=
  match msg_deserialize payload with
  | None => st
  | Some m => on_message from m st
  end.

End runner.
