(* ===== verification/ReshareRunnerProofs.v ===== *)
(** * A resharing that everyone takes part in completes

    The envelopes of the dealt shares open for their recipients; when the deals
    of all contributors reach a new member, in whatever order and however often,
    it finishes with its share of the same key, and with the share set that every
    other member derives. *)

From Stdlib Require Import Zcong.
From Stdlib Require Import Zmod Zstar.
From S2P Require Import Prelude Archive Crypto Paillier Threshold DkgProofs Pedersen Reshare ReshareProofs ReshareCodec ReshareCorrect ReshareRunner.

(** ** Envelopes *)

Section payloads.
Context `{PrivateBoxLaws} `{Crypto}.

(** What the recipient opens is what was put in. *)
Lemma private_payload_roundtrip plaintext sender_pub recipient_priv recipient_pub ephemeral_priv ephemeral_pub nonce :
  secret_key_to_public_key recipient_priv = Some recipient_pub -> secret_key_to_public_key ephemeral_priv = Some ephemeral_pub ->
  length nonce = DAO_DKG_PRIVATE_NONCE_SIZE -> zlen plaintext <= INT_MAX ->
  exists envelope, encrypt_dkg_private_payload plaintext sender_pub recipient_pub ephemeral_priv nonce = Some envelope /\
    zlen envelope = 101 + zlen plaintext /\ is_dkg_private_payload envelope = true /\
    decrypt_dkg_private_payload envelope sender_pub recipient_priv = Some plaintext.
Proof.
  intros Hr He Hn Hp. destruct (derivation_agrees _ _ _ _ He Hr) as (d & D1 & D2).
  destruct (public_key_size _ _ Hr) as [LR _]. destruct (public_key_size _ _ He) as [LE CE].
  unfold encrypt_dkg_private_payload. rewrite He. cbn [mbind option_bind]. rewrite D1. cbn [mbind option_bind].
  rewrite (proj2 (Z.ltb_ge _ _)) by done.
  set (key := cn_fast_hash _). set (aad := dkg_private_make_aad _ _ _).
  pose proof (gcm_sizes key aad nonce plaintext) as [LC LT]. pose proof (gcm_inverse key aad nonce plaintext) as Inv.
  destruct (gcm_encrypt key aad nonce plaintext) as [c t]. cbn [fst snd] in *.
  exists (DAO_DKG_PRIVATE_MAGIC ++ [DAO_DKG_PRIVATE_VERSION] ++ recipient_pub ++ ephemeral_pub ++ nonce ++ le_bytes 4 (zlen c) ++ c ++ t).
  split; [reflexivity|].
  assert (length (DAO_DKG_PRIVATE_MAGIC ++ [DAO_DKG_PRIVATE_VERSION] ++ recipient_pub ++ ephemeral_pub ++ nonce ++ le_bytes 4 (zlen c) ++ c ++ t)
          = (101 + length plaintext)%nat) as L.
  { rewrite !length_app, length_le_bytes, LR, LE, Hn, LC, LT. change (length DAO_DKG_PRIVATE_MAGIC) with 4%nat.
    unfold DAO_DKG_PRIVATE_NONCE_SIZE. cbn [length]. lia. }
  split; [unfold zlen at 1; rewrite L; unfold zlen; lia|].
  set (body := recipient_pub ++ ephemeral_pub ++ nonce ++ le_bytes 4 (zlen c) ++ c ++ t) in *.
  assert (dkg_private_magic_ok (DAO_DKG_PRIVATE_MAGIC ++ [DAO_DKG_PRIVATE_VERSION] ++ body) = true) as Hm.
  { unfold dkg_private_magic_ok. rewrite L. rewrite (proj2 (Nat.leb_le _ _)) by lia. reflexivity. }
  split; [exact Hm|]. unfold decrypt_dkg_private_payload. rewrite Hm, L. cbn [negb].
  rewrite (proj2 (Nat.ltb_ge _ _)) by (unfold DAO_DKG_PRIVATE_NONCE_SIZE, DAO_DKG_PRIVATE_TAG_SIZE; lia).
  change (drop 5 (DAO_DKG_PRIVATE_MAGIC ++ [DAO_DKG_PRIVATE_VERSION] ++ body)) with body. subst body.
  rewrite (reads_raw 32) by done. cbn [mbind option_bind]. rewrite Hr. cbn [mbind option_bind]. rewrite beq_refl. cbn [negb].
  rewrite (reads_raw 32) by done. cbn [mbind option_bind]. rewrite CE. cbn [negb].
  rewrite (reads_raw _ _ Hn). cbn [mbind option_bind]. unfold INT_MAX in Hp. pose proof (zlen_nonneg c).
  assert (zlen c = zlen plaintext) as Ec by (unfold zlen; by rewrite LC). rewrite reads_u32 by lia. cbn [mbind option_bind].
  rewrite length_app, LT. rewrite (proj2 (Z.eqb_eq _ _)) by (unfold zlen, DAO_DKG_PRIVATE_TAG_SIZE; lia). cbn [negb].
  rewrite D2. cbn [mbind option_bind]. rewrite to_nat_zlen, take_app_length, drop_app_length. fold key.
  rewrite (proj2 (Z.ltb_ge _ _)) by (unfold INT_MAX; lia). exact Inv.
Qed.

End payloads.

Lemma head_omap {A B} (g : A -> option B) l k x y : l !! k = Some x -> g x = Some y ->
  (forall i z, (i < k)%nat -> l !! i = Some z -> g z = None) -> head (omap g l) = Some y.
Proof.
  revert k. induction l as [|a l IH]; intros [|k] Hk Hg Hn; try done.
  - cbn in Hk. injection Hk as ->. cbn [omap list_omap]. by rewrite Hg.
  - cbn [omap list_omap]. rewrite (Hn 0%nat a) by (done || lia). apply (IH k); [done|done|]. intros i z Hi Hz. apply (Hn (S i) z); [lia|done].
Qed.

Lemma omap_lookup {A} (m : gmap Z A) ks vs : Forall2 (fun k v => m !! k = Some v) ks vs -> omap (fun k => m !! k) ks = vs.
Proof. induction 1 as [|k v ks vs E _ IH]; [done|]. cbn [omap list_omap]. rewrite E. by f_equal. Qed.

Lemma zlen_seqZ a k : 0 <= k -> zlen (seqZ a k) = k.
Proof. intros Hk. unfold zlen. rewrite length_seqZ. lia. Qed.

(** ** The parties *)

Section session.
Context `{DigestLaws} `{PrivateBoxLaws} `{Crypto}.
Context (cfg : runner_config) (f mu : Z -> Z) (cs : list contributor) (T t : Z).
Notation pk := (rc_pk cfg).
Notation grp := (rc_grp cfg).
Notation V := (rc_V_bytes cfg).
Notation n := (zlen (rc_new_members cfg)).

(** A new member's configuration for the resharing by [cs]. *)
Record session : Prop := {
  se_pk : pk_ok pk; se_V : is_ct pk V; se_grp : vss_ok grp;
  se_size : (0 < BN_num_bytes (vss_P grp) <= 1024)%nat;
  se_resharing : resharing pk V grp f mu cs T t;
  se_poly : poly (Z.to_nat T) f;
  se_delta : rc_delta cfg = dao_dkg_delta;
  se_members : n <= DAO_DKG_MAX_COMMITTEE_SIZE;
  se_member_keys : Forall (fun m => exists priv, secret_key_to_public_key priv = Some m) (rc_new_members cfg);
  se_indices : rc_new_indices cfg = seqZ 1 n;
  se_threshold : rc_threshold cfg = t + 1 /\ t + 1 <= n;
  se_contributors : rc_contributor_indices cfg = map co_index cs;
  se_contributor_members : rc_contributor_members cfg = map (fun c => lc_contributor_pubkey (co_ctx c)) cs;
  se_contributor_vk : rc_contributor_vk cfg = map (fun c => lc_VK_i (co_ctx c)) cs;
  se_contributor_threshold : rc_contributor_threshold cfg = T;
  se_key : length (rc_key_id cfg) = 32%nat;
  se_ids : u64_ok (rc_old_share_set_id cfg) /\ u64_ok (rc_new_share_set_id cfg);
  se_contexts : Forall (fun c => context_wf (co_ctx c) /\ lc_share_set_id (co_ctx c) = rc_old_share_set_id cfg) cs;
  se_local : 1 <= rc_local_new_index cfg <= n;
  se_local_key : secret_key_to_public_key (rc_local_priv cfg) = rc_new_members cfg !! Z.to_nat (rc_local_new_index cfg - 1);
}.

(** The configuration of a contributor, and the ephemeral keys and nonces it
    draws. *)
Record peer (co : contributor) (p : runner_config * list (bytes * bytes)) : Prop := {
  pe_params : rc_pk (fst p) = pk /\ rc_grp (fst p) = grp /\ rc_V_bytes (fst p) = V /\ rc_delta (fst p) = dao_dkg_delta;
  pe_new : rc_new_indices (fst p) = rc_new_indices cfg /\ rc_new_members (fst p) = rc_new_members cfg;
  pe_ids : rc_old_share_set_id (fst p) = rc_old_share_set_id cfg /\ rc_new_share_set_id (fst p) = rc_new_share_set_id cfg;
  pe_needed : rc_contributor_threshold (fst p) = T;
  pe_index : rc_local_party_index (fst p) = co_index co;
  pe_share : rc_local_s_i (fst p) = Some (f (co_index co)) /\ rc_local_mu_i (fst p) = Some (mu (co_index co));
  pe_ctx : rc_link_ctx_base (fst p) = co_ctx co;
  pe_pub : rc_local_pub (fst p) = lc_contributor_pubkey (co_ctx co);
  pe_drawn : length (snd p) = length (rc_new_members cfg);
  pe_keys : Forall (fun d => is_Some (secret_key_to_public_key (fst d)) /\ length (snd d) = DAO_DKG_PRIVATE_NONCE_SIZE) (snd p);
}.

Context (Hs : session).

Lemma ready co : co ∈ cs ->
  contributor_ready pk V grp (co_ctx co) (f (co_index co)) (mu (co_index co)) (co_rs co) (co_coeffs co).
Proof. intros Hco. pose proof (rs_ready _ _ _ _ _ _ _ _ (se_resharing Hs)) as F. rewrite Forall_forall in F. by apply F. Qed.

Notation dealt co := (dealt_share (f (co_index co)) (mu (co_index co)) (co_coeffs co)).

Lemma dealt_share_size co j : co ∈ cs -> 0 <= j < 2 ^ 32 -> length (sh_q_i_j (dealt co j)) = DAO_RESHARE_SIGNED_BYTES.
Proof.
  intros Hco Hj. pose proof (ready co Hco) as Hy.
  pose proof (signed_share grp (proj2 (se_size Hs)) _ _ _ j (cy_s _ _ _ _ _ _ _ _ Hy) (cy_mu _ _ _ _ _ _ _ _ Hy) (cy_coeffs _ _ _ _ _ _ _ _ Hy)
    (proj2 (cy_degree _ _ _ _ _ _ _ _ Hy)) Hj) as E.
  by apply signed_pad_length in E.
Qed.

(** *** What a contributor sends *)

Definition bundle_of (co : contributor) (sh : dao_reshare_vss_share) : dao_reshare_share_bundle :=
  {| sb_old_share_set_id := rc_old_share_set_id cfg; sb_sender_index := co_index co; sb_share_bytes := dao_reshare_serialize_share sh |}.

Lemma bundle_size co j : co ∈ cs -> 0 <= j < 2 ^ 32 -> zlen (bundle_serialize (bundle_of co (dealt co j))) = 2345.
Proof.
  intros Hco Hj. pose proof (dealt_share_size co j Hco Hj) as L. unfold bundle_serialize, bundle_of, dao_reshare_serialize_share.
  cbn [sb_old_share_set_id sb_sender_index sb_share_bytes]. rewrite !zlen_app, !zlen_le_bytes, !zlen_push_bytes, zlen_app, zlen_le_bytes, zlen_push_bytes.
  unfold zlen. rewrite L. reflexivity.
Qed.

(** The envelope for member [m] opens for [m] only with what is dealt to it. *)
Definition opens (co : contributor) (m pl : bytes) (j : Z) : Prop :=
  zlen pl = 2446 /\ is_dkg_private_payload pl = true /\
  forall priv, secret_key_to_public_key priv = Some m ->
    decrypt_dkg_private_payload pl (lc_contributor_pubkey (co_ctx co)) priv = Some (bundle_serialize (bundle_of co (dealt co j))).

Lemma share_payload_opens co p j m d : co ∈ cs -> peer co p -> 0 <= j < 2 ^ 32 -> (exists priv, secret_key_to_public_key priv = Some m) ->
  is_Some (secret_key_to_public_key (fst d)) -> length (snd d) = DAO_DKG_PRIVATE_NONCE_SIZE ->
  exists pl, share_payload (fst p) (dealt co j) m d = Some pl /\ opens co m pl j.
Proof.
  intros Hco Hp Hj [priv0 Hpriv0] [E HE] Hn. pose proof (bundle_size co j Hco Hj) as L. pose proof (proj1 (pe_ids _ _ Hp)) as Eo.
  unfold share_payload. rewrite (pe_index _ _ Hp), (pe_pub _ _ Hp), Eo. fold (bundle_of co (dealt co j)).
  destruct (private_payload_roundtrip (bundle_serialize (bundle_of co (dealt co j))) (lc_contributor_pubkey (co_ctx co)) priv0 m (fst d) E (snd d)
    Hpriv0 HE Hn ltac:(rewrite L; done)) as (pl & E1 & E2 & E3 & _).
  exists pl. split; [exact E1|]. split; [rewrite E2, L; done|]. split; [exact E3|]. intros priv Hpriv.
  destruct (private_payload_roundtrip (bundle_serialize (bundle_of co (dealt co j))) (lc_contributor_pubkey (co_ctx co)) priv m (fst d) E (snd d)
    Hpriv HE Hn ltac:(rewrite L; done)) as (pl' & E1' & _ & _ & E4).
  rewrite E1 in E1'. injection E1' as <-. exact E4.
Qed.

Lemma payloads_open co p : co ∈ cs -> peer co p ->
  exists pls, mapM (fun x => share_payload (fst p) (fst (fst x)) (snd (fst x)) (snd x))
      (zip (zip (map (dealt co) (seqZ 1 n)) (rc_new_members cfg)) (snd p)) = Some pls /\
    length pls = length (rc_new_members cfg) /\
    forall k m pl, rc_new_members cfg !! k = Some m -> pls !! k = Some pl -> opens co m pl (Z.of_nat k + 1).
Proof.
  intros Hco Hp. pose proof (pe_drawn _ _ Hp) as Ld. pose proof (pe_keys _ _ Hp) as Fd. pose proof (se_member_keys Hs) as Fm.
  assert (forall l a, (a + length l <= length (rc_new_members cfg))%nat -> forall ds, length ds = length l ->
    Forall (fun d => is_Some (secret_key_to_public_key (fst d)) /\ length (snd d) = DAO_DKG_PRIVATE_NONCE_SIZE) ds ->
    Forall (fun m => exists priv, secret_key_to_public_key priv = Some m) l ->
    exists pls, mapM (fun x => share_payload (fst p) (fst (fst x)) (snd (fst x)) (snd x))
        (zip (zip (map (dealt co) (seqZ (Z.of_nat a + 1) (zlen l))) l) ds) = Some pls /\ length pls = length l /\
      forall k m pl, l !! k = Some m -> pls !! k = Some pl -> opens co m pl (Z.of_nat (a + k) + 1)) as G.
  { pose proof (se_members Hs) as Hn. unfold zlen, DAO_DKG_MAX_COMMITTEE_SIZE in Hn.
    induction l as [|m l IH]; intros a Ha ds Hds Fds Fl; [by exists []|]. destruct ds as [|d ds]; [done|]. cbn [length] in Ha, Hds.
    apply Forall_cons in Fds as [[Hd1 Hd2] Fds]. apply Forall_cons in Fl as [Hm Fl].
    destruct (IH (S a) ltac:(lia) ds ltac:(lia) Fds Fl) as (pls & E & L & O).
    destruct (share_payload_opens co p (Z.of_nat a + 1) m d Hco Hp ltac:(lia) Hm Hd1 Hd2) as (pl & E1 & O1).
    exists (pl :: pls). rewrite zlen_cons, seqZ_cons by (pose proof (zlen_nonneg l); lia).
    replace (Z.succ (Z.of_nat a + 1)) with (Z.of_nat (S a) + 1) by lia. replace (Z.pred (1 + zlen l)) with (zlen l) by lia.
    cbn [map zip zip_with mapM fst snd]. rewrite E1. cbn [mbind option_bind]. rewrite E. split; [done|]. split; [cbn; lia|].
    intros [|k] m' pl' Hm' Hpl'; cbn in Hm', Hpl'.
    - simplify_eq. by rewrite Nat.add_0_r.
    - replace (a + S k)%nat with (S a + k)%nat by lia. by apply O. }
  destruct (G (rc_new_members cfg) 0%nat ltac:(lia) (snd p) Ld Fd Fm) as (pls & E & L & O). exists pls. split; [exact E|]. split; [exact L|].
  intros k m pl Hm Hpl. apply (O k m pl Hm Hpl).
Qed.

(** The deal that [co] makes of its contribution [c]. *)
Record deal_of (co : contributor) (c : dao_reshare_contribution) (m : dao_reshare_msg) : Prop := {
  do_header : rm_version m = 1 /\ rm_type m = 0 /\ rm_sender_index m = co_index co;
  do_ids : rm_old_share_set_id m = rc_old_share_set_id cfg /\ rm_new_share_set_id m = rc_new_share_set_id cfg;
  do_blob : dao_reshare_serialize_public c = Some (rm_public_blob m) /\
            dao_reshare_deserialize_public (rm_public_blob m) = Some (without_shares c);
  do_indices : rm_recipient_indices m = seqZ 1 n;
  do_payloads : length (rm_recipient_payloads m) = length (rc_new_members cfg) /\
    forall k mem pl, rc_new_members cfg !! k = Some mem -> rm_recipient_payloads m !! k = Some pl -> opens co mem pl (Z.of_nat k + 1);
}.

Notation made := (made pk V grp f mu).

Lemma context_ok co : co ∈ cs -> context_wf (co_ctx co) /\ lc_share_set_id (co_ctx co) = rc_old_share_set_id cfg.
Proof. intros Hco. pose proof (se_contexts Hs) as F. rewrite Forall_forall in F. by apply F. Qed.

Lemma made_encodes l co c : co ∈ cs -> made l co c ->
  exists blob, dao_reshare_serialize_public c = Some blob /\ blob_ok blob /\ dao_reshare_deserialize_public blob = Some (without_shares c).
Proof.
  intros Hco [Hy Hc]. apply (contribution_roundtrip grp); [exact (se_size Hs)|].
  eapply made_wf; [exact (se_pk Hs)|exact (proj1 (context_ok co Hco))|exact (cy_degree _ _ _ _ _ _ _ _ Hy)|exact Hc].
Qed.

Lemma index_range co : co ∈ cs -> 1 <= co_index co <= DAO_DKG_MAX_COMMITTEE_SIZE.
Proof.
  intros Hco. pose proof (rs_members _ _ _ _ _ _ _ _ (se_resharing Hs) (co_index co)) as Hin.
  assert (co_index co ∈ committee) as Hc by (apply Hin, list_elem_of_fmap_2, Hco). apply elem_of_seqZ in Hc. lia.
Qed.

Lemma n_range : 1 <= n <= DAO_DKG_MAX_COMMITTEE_SIZE.
Proof.
  pose proof (rs_degree _ _ _ _ _ _ _ _ (se_resharing Hs)). destruct (se_threshold Hs) as [_ Ht]. pose proof (se_members Hs). lia.
Qed.

Lemma deal_msg_ok co p c : co ∈ cs -> peer co p -> made (seqZ 1 n) co c ->
  exists m, deal_msg (fst p) c (snd p) = Some m /\ deal_of co c m /\ msg_wf m.
Proof.
  intros Hco Hp Hm. destruct (made_encodes _ _ _ Hco Hm) as (blob & E & Bb & D). destruct Hm as [Hy Hc].
  destruct (payloads_open co p Hco Hp) as (pls & Ep & Lp & Op). destruct (pe_new _ _ Hp) as [Ei Em]. destruct (pe_ids _ _ Hp) as [Eo En].
  unfold deal_msg. rewrite E. cbn [mbind option_bind]. rewrite (cm_shares _ _ _ _ _ _ _ _ _ Hc), Em, Ep. cbn [mbind option_bind].
  eexists. split; [reflexivity|]. pose proof (index_range co Hco) as Hi. pose proof n_range as Hn. unfold DAO_DKG_MAX_COMMITTEE_SIZE in Hi, Hn. split.
  - split; cbn [rm_version rm_type rm_sender_index rm_old_share_set_id rm_new_share_set_id rm_public_blob rm_recipient_indices rm_recipient_payloads].
    + split; [done|]. split; [done|]. exact (pe_index _ _ Hp).
    + by rewrite Eo, En.
    + by rewrite E.
    + by rewrite Ei, (se_indices Hs).
    + by split.
  - assert (length (seqZ 1 n) = length pls) as Ls by (rewrite length_seqZ, Lp; unfold zlen; lia).
    destruct (se_ids Hs) as [I1 I2]. split; cbn; rewrite ?Eo, ?En, ?Ei, ?(se_indices Hs), ?(pe_index _ _ Hp); try done.
    + unfold u32_ok. lia.
    + by left.
    + rewrite zlen_seqZ; lia.
    + apply Forall_forall. intros x Hx. apply elem_of_seqZ in Hx. unfold u32_ok. lia.
    + apply Forall_lookup. intros k pl Hk. destruct (lookup_lt_is_Some_2 (rc_new_members cfg) k) as [mem Hmem];
        [apply lookup_lt_Some in Hk; lia|]. destruct (Op k mem pl Hmem Hk) as (L & _). unfold blob_ok. lia.
Qed.

Lemma new_indices_ok : seqZ 1 n <> [] /\ Forall (fun j => 1 <= j < 2 ^ 32) (seqZ 1 n).
Proof.
  pose proof n_range as Hn. unfold DAO_DKG_MAX_COMMITTEE_SIZE in Hn. split.
  - intros E. apply (f_equal length) in E. rewrite length_seqZ in E. cbn in E. lia.
  - apply Forall_forall. intros j Hj. apply elem_of_seqZ in Hj. lia.
Qed.

Lemma T_range : 2 <= T.
Proof. exact (rs_threshold _ _ _ _ _ _ _ _ (se_resharing Hs)). Qed.

(** Too few contributions leave the runner as it is. *)
Lemma not_yet cfg' st : rc_contributor_threshold cfg' = T -> Z.of_nat (size (rn_contributions st)) < T -> try_finalize_locked cfg' st = st.
Proof.
  intros Et Hsz. pose proof T_range. unfold try_finalize_locked, needed_contributions. rewrite Et. destruct (rn_final st); [done|].
  rewrite (proj2 (Z.eqb_neq T 0)) by lia. destruct (rc_local_new_index cfg' =? 0); [done|]. by rewrite (proj2 (Z.ltb_lt _ _)).
Qed.

(** A contribution as a new member keeps it: with the share dealt to it. *)
Definition j_local : Z := rc_local_new_index cfg.
Definition received (co : contributor) (c : dao_reshare_contribution) : dao_reshare_contribution := with_shares c [dealt co j_local].

Lemma start_deals co p : co ∈ cs -> peer co p ->
  exists c m st, made (seqZ 1 n) co c /\ deal_of co c m /\ msg_wf m /\
    start (fst p) (co_rs co) (co_coeffs co) (snd p) new_runner = (st, true) /\ rn_sent st = [msg_serialize m] /\ rn_final st = None /\
    (fst p = cfg -> rn_contributions st = {[co_index co := received co c]}).
Proof.
  intros Hco Hp. pose proof (ready co Hco) as Hy. destruct new_indices_ok as [Hne Hj]. pose proof T_range as HT.
  destruct (contribution_complete pk (se_pk Hs) V (se_V Hs) grp (se_grp Hs) (proj2 (se_size Hs)) _ _ _ _ _ (seqZ 1 n) Hy Hne) as (c & Ec & Hc).
  { eapply Forall_impl; [exact Hj|]. intros j [Hj1 Hj2]. split; [clear -Hj1; lia|exact Hj2]. }
  assert (made (seqZ 1 n) co c) as Hm by (by split). destruct (deal_msg_ok co p c Hco Hp Hm) as (m & Em & Dm & Wm).
  destruct (pe_params _ _ Hp) as (P1 & P2 & P3 & P4). destruct (pe_share _ _ Hp) as [S1 S2]. destruct (pe_new _ _ Hp) as [Ei _].
  pose proof (index_range co Hco) as Hi.
  unfold start. rewrite (pe_index _ _ Hp), (proj2 (Z.eqb_neq (co_index co) 0)) by (clear -Hi; lia). rewrite S1, S2, P1, P2, P3, P4, (pe_ctx _ _ Hp), Ei, (se_indices Hs), Ec, Em.
  exists c, m. eexists. split; [exact Hm|]. split; [exact Dm|]. split; [exact Wm|]. split; [reflexivity|].
  set (st0 := if _ && _ then _ else new_runner).
  assert (size (rn_contributions st0) <= 1)%nat as Hsz.
  { subst st0. destruct (_ && _); [|cbn; rewrite map_size_empty; lia]. destruct (ct_shares c !! _); [|cbn; rewrite map_size_empty; lia].
    cbn [store rn_contributions new_runner]. rewrite insert_empty, map_size_singleton. lia. }
  assert (rn_sent st0 = [] /\ rn_final st0 = None) as [E1 E2] by (subst st0; destruct (_ && _); [destruct (ct_shares c !! _)|]; done).
  rewrite not_yet; [|exact (pe_needed _ _ Hp)|cbn [rn_contributions]; lia]. cbn [rn_sent rn_final rn_contributions]. rewrite E1, E2. split; [done|]. split; [done|].
  intros Ecfg. subst st0. pose proof (se_local Hs) as Hl. rewrite Ecfg, (cm_shares _ _ _ _ _ _ _ _ _ Hc).
  assert (zlen (map (dealt co) (seqZ 1 n)) = n) as -> by (unfold zlen at 1; rewrite length_map, length_seqZ; lia).
  rewrite (proj2 (Z.eqb_neq _ 0)), (proj2 (Z.leb_le _ _)) by lia. cbn [negb andb].
  rewrite lookup_map, lookup_seqZ_lt by lia. cbn [fmap option_fmap option_map]. cbn [store rn_contributions new_runner]. rewrite insert_empty.
  unfold received, j_local. do 4 f_equal. lia.
Qed.

(** *** What a new member makes of a deal *)

Notation pub co := (lc_contributor_pubkey (co_ctx co)).

Lemma local_index : nth (Z.to_nat (rc_local_new_index cfg - 1)) (rc_new_indices cfg) 0 = j_local /\ 1 <= j_local < 2 ^ 32 /\ j_local <= n.
Proof.
  pose proof (se_local Hs) as Hl. pose proof n_range as Hn. unfold DAO_DKG_MAX_COMMITTEE_SIZE in Hn. unfold j_local. split; [|lia].
  apply nth_lookup_Some. rewrite (se_indices Hs), lookup_seqZ_lt by lia. f_equal. lia.
Qed.

Lemma my_share_ok co c m : co ∈ cs -> deal_of co c m -> my_share cfg (pub co) m = Some (dealt co j_local).
Proof.
  intros Hco [(V1 & Ty & Si) (Io & In) _ Ri (Lp & Op)]. destruct local_index as (Ej & Hj & Hjn). pose proof (index_range co Hco) as Hi.
  unfold DAO_DKG_MAX_COMMITTEE_SIZE in Hi. pose proof (se_local Hs) as Hl. unfold my_share. fold j_local in Hl.
  assert (zlen (rc_new_indices cfg) = n) as -> by (rewrite (se_indices Hs); apply zlen_seqZ; lia). fold j_local.
  rewrite (proj2 (Z.eqb_neq j_local 0)), (proj2 (Z.ltb_ge _ _)) by lia. cbn [orb]. fold j_local in Ej. rewrite Ej, Ri.
  set (k := Z.to_nat (j_local - 1)). assert (k < length (rc_new_members cfg))%nat as Hk by (unfold zlen in Hjn; lia).
  destruct (lookup_lt_is_Some_2 _ _ Hk) as [mem Hmem]. destruct (lookup_lt_is_Some_2 (rm_recipient_payloads m) k) as [pl Hpl]; [lia|].
  destruct (Op k mem pl Hmem Hpl) as (_ & Pl & Dec). replace (Z.of_nat k + 1) with j_local in Dec by lia.
  apply (head_omap _ _ k (j_local, pl)).
  - apply lookup_zip_Some. split; [|done]. cbn [fst]. rewrite lookup_seqZ_lt by (unfold zlen; lia). f_equal. lia.
  - unfold read_payload. cbn [fst snd]. rewrite Z.eqb_refl, Pl. cbn [negb].
    rewrite Dec by (rewrite (se_local_key Hs); fold j_local; exact Hmem). cbn [mbind option_bind].
    pose proof (dealt_share_size co j_local Hco ltac:(lia)) as Lq.
    rewrite bundle_roundtrip; cbn [bundle_of sb_old_share_set_id sb_sender_index sb_share_bytes]; [|exact (proj1 (se_ids Hs))|unfold u32_ok; lia|].
    + cbn [mbind option_bind bundle_of sb_old_share_set_id sb_sender_index sb_share_bytes]. rewrite Z.eqb_refl, Si, Z.eqb_refl. cbn [negb].
      apply share_roundtrip; [exact ltac:(unfold u32_ok; cbn [dealt_share sh_j]; lia)|]. unfold blob_ok, zlen. rewrite Lq. done.
    + unfold blob_ok, dao_reshare_serialize_share. rewrite zlen_app, zlen_le_bytes, zlen_push_bytes. unfold zlen. rewrite Lq. done.
  - intros i [j' pl'] Hik Hz. apply lookup_zip_Some in Hz as [Hz _]. cbn [fst] in Hz. apply lookup_seqZ in Hz as [-> _].
    unfold read_payload. cbn [fst]. rewrite (proj2 (Z.eqb_neq _ _)) by lia. done.
Qed.

Lemma made_received co c : made (seqZ 1 n) co c -> made [j_local] co (received co c).
Proof. intros [Hy []]. split; [exact Hy|]. split; assumption || reflexivity. Qed.

Lemma accept_ok co c m : co ∈ cs -> made (seqZ 1 n) co c -> deal_of co c m -> accept_deal cfg (pub co) m = Some (received co c).
Proof.
  intros Hco Hm Dm. destruct local_index as (_ & Hj & _). unfold accept_deal. rewrite (my_share_ok co c m Hco Dm). destruct Dm as [(_ & _ & Si) _ [_ D] _ _].
  rewrite D. cbn [mbind option_bind]. destruct Hm as [Hy Hc]. destruct (cm_ctx _ _ _ _ _ _ _ _ _ Hc) as (mm & _ & Ec). pose proof (rs_index _ _ _ _ _ _ _ _ (se_resharing Hs)) as Fi.
  rewrite Forall_forall in Fi. pose proof (Fi co Hco) as Ei. destruct (context_ok co Hco) as [_ Eo].
  cbn [without_shares ct_contributor_index ct_contributor_pubkey ct_link_ctx]. rewrite (cm_index _ _ _ _ _ _ _ _ _ Hc), (cm_pubkey _ _ _ _ _ _ _ _ _ Hc), Ei, Si, Ec.
  cbn [with_constant lc_share_set_id lc_original_index]. rewrite Eo, Ei, beq_refl, !Z.eqb_refl. cbn [negb].
  pose proof (made_share pk (se_pk Hs) V (se_V Hs) grp (proj2 (se_size Hs)) _ _ _ _ _ _ _ j_local Hy Hc Hj) as Ev. unfold verified_share in Ev. rewrite Ec in Ev.
  cbn [with_shares without_shares ct_link_ctx ct_link_proof ct_commits ct_coeff_proofs]. rewrite Ec. change (sh_j (dealt co j_local)) with j_local.
  destruct (dao_reshare_vss_verify _ _ _ _ _ _ _ _ _); [|done]. cbn [negb]. reflexivity.
Qed.

Lemma sender_known k co m : cs !! k = Some co -> rm_sender_index m = co_index co -> sender_ok cfg (pub co) m = true.
Proof.
  intros Hk Si. assert (co ∈ cs) as Hco by (by apply list_elem_of_lookup_2 in Hk). pose proof (index_range co Hco) as Hi.
  unfold sender_ok. rewrite Si, (se_contributors Hs), (se_contributor_members Hs), !length_map, Nat.eqb_refl, (proj2 (Z.eqb_neq _ _)) by lia. cbn [orb negb].
  assert (list_find (fun i => i = co_index co) (map co_index cs) = Some (k, co_index co)) as ->.
  { apply list_find_Some. split; [by rewrite lookup_map, Hk|]. split; [done|]. intros i y Hy Hik ->.
    pose proof (rs_distinct _ _ _ _ _ _ _ _ (se_resharing Hs)) as Hd. assert (i = k); [|lia].
    apply (NoDup_lookup _ _ _ (co_index co) Hd); [exact Hy|by rewrite lookup_map, Hk]. }
  rewrite lookup_map, Hk. cbn [fmap option_fmap option_map]. apply beq_refl.
Qed.

Lemma on_deal k co c m st : cs !! k = Some co -> made (seqZ 1 n) co c -> deal_of co c m ->
  on_message cfg (pub co) m st =
  if bool_decide (is_Some (rn_contributions st !! co_index co)) then st
  else try_finalize_locked cfg (store st (co_index co) (received co c)).
Proof.
  intros Hk Hm Dm. assert (co ∈ cs) as Hco by (by apply list_elem_of_lookup_2 in Hk).
  pose proof (accept_ok co c m Hco Hm Dm) as Ea. pose proof (sender_known k co m Hk (proj2 (proj2 (do_header _ _ _ Dm)))) as Es.
  destruct Dm as [(V1 & Ty & Si) (Io & In) _ _ _]. unfold on_message. rewrite V1, Io, In, Ty, !Z.eqb_refl. cbn [negb Z.eqb].
  rewrite Es, Ea, Si. cbn [negb]. done.
Qed.

(** ** The new share set *)

Context (contribs : list dao_reshare_contribution) (Hmade : Forall2 (made (seqZ 1 n)) cs contribs).

Definition kept : list dao_reshare_contribution := zip_with received cs contribs.
Definition table : gmap Z dao_reshare_contribution := list_to_map (zip (map co_index cs) kept).

Definition new_vks : list bytes := map (fun j => verification_key pk V (reshared f cs j)) (seqZ 1 n).

Definition final_record (blobs : list bytes) : dao_share_set_record :=
  {| ss_version := 1; ss_share_set_id := rc_new_share_set_id cfg; ss_height := rc_height cfg; ss_threshold := t + 1;
     ss_key_id := rc_key_id cfg;
     ss_committee_id_hash := sha256 (str "VeilRoot-DAO-SHARE-SET-V1" ++ rev (le_bytes 8 (rc_new_share_set_id cfg)) ++ concat (rc_new_members cfg));
     ss_committee_members := rc_new_members cfg; ss_VK_i := new_vks; ss_base_share_set_id := rc_old_share_set_id cfg;
     ss_contributions := blobs; ss_contributor_indices := map co_index cs;
     ss_contributor_vk := map (fun c => lc_VK_i (co_ctx c)) cs |}.

Lemma kept_made : Forall2 (made [j_local]) cs kept.
Proof.
  unfold kept. pose proof made_received as Hr. revert Hr. clear -Hmade. intros Hr.
  induction Hmade as [|co c cs' cbs Hm Ht IH]; cbn [zip_with]; [constructor|]. constructor; [by apply Hr|exact (IH Ht)].
Qed.

Lemma kept_length : length kept = length cs.
Proof. symmetry. exact (Forall2_length _ _ _ kept_made). Qed.

Lemma cs_length : zlen cs = T.
Proof. exact (rs_size _ _ _ _ _ _ _ _ (se_resharing Hs)). Qed.

Lemma cs_distinct : NoDup (map co_index cs).
Proof. exact (rs_distinct _ _ _ _ _ _ _ _ (se_resharing Hs)). Qed.

Lemma table_lookup : Forall2 (fun k v => table !! k = Some v) (map co_index cs) kept.
Proof.
  apply Forall2_same_length_lookup_2; [by rewrite length_map, kept_length|]. intros i k v Hk Hv. apply elem_of_list_to_map_1.
  - rewrite fst_zip by (rewrite length_map, kept_length; lia). exact cs_distinct.
  - apply list_elem_of_lookup. exists i. apply lookup_zip_Some. done.
Qed.

Lemma table_size : Z.of_nat (size table) = T.
Proof.
  unfold table. rewrite map_size_list_to_map by (rewrite fst_zip by (rewrite length_map, kept_length; lia); exact cs_distinct).
  rewrite length_zip, length_map, kept_length, Nat.min_id. exact cs_length.
Qed.

Lemma needed_T : needed_contributions cfg = T.
Proof. pose proof T_range. unfold needed_contributions. rewrite (se_contributor_threshold Hs). by rewrite (proj2 (Z.eqb_neq T 0)) by lia. Qed.

Lemma ordered_table : ordered_contributions cfg table = kept.
Proof.
  unfold ordered_contributions. rewrite needed_T, (se_contributors Hs), (omap_lookup table _ _ table_lookup). apply take_ge.
  rewrite kept_length. pose proof cs_length. unfold zlen in *. lia.
Qed.

Lemma blobs_exist : exists blobs, mapM dao_reshare_serialize_public kept = Some blobs /\
  Forall2 (fun c blob => dao_reshare_serialize_public c = Some blob /\ blob_ok blob /\
    dao_reshare_deserialize_public blob = Some (without_shares c)) kept blobs.
Proof.
  pose proof kept_made as F. assert (Forall (fun co => co ∈ cs) cs) as Fc by (by apply Forall_forall).
  pose proof made_encodes as G. revert F Fc G. generalize kept. generalize cs at 1 3. intros l ks F. induction F as [|co c l ks Hm F IH]; intros Fc G; [by exists []|].
  apply Forall_cons in Fc as [Hco Fc]. destruct (IH Fc G) as (blobs & E & Fb). destruct (G _ _ _ Hco Hm) as (blob & E1 & E2 & E3).
  exists (blob :: blobs). cbn [mapM]. rewrite E1. cbn [mbind option_bind]. rewrite E. split; [done|]. by constructor.
Qed.

Lemma evidence_entries blobs : Forall2 (fun c blob => dao_reshare_serialize_public c = Some blob /\ blob_ok blob /\
    dao_reshare_deserialize_public blob = Some (without_shares c)) kept blobs ->
  mapM (evidence_entry cfg) kept = Some (zip (zip blobs (map co_index cs)) (map (fun c => lc_VK_i (co_ctx c)) cs)).
Proof.
  intros Fb. pose proof (Forall2_length _ _ _ Fb) as Lb. pose proof kept_length as Lk. apply mapM_Some, Forall2_same_length_lookup_2.
  { rewrite !length_zip, !length_map. lia. }
  intros i c [[blob ix] vk] Hc Hx. apply lookup_zip_Some in Hx as [Hx Hvk]. apply lookup_zip_Some in Hx as [Hb Hix]. cbn [fst snd] in *.
  rewrite lookup_map in Hix. rewrite lookup_map in Hvk. destruct (cs !! i) as [co|] eqn:Hco; [|done]. cbn in Hix, Hvk. injection Hix as <-. injection Hvk as <-.
  destruct (Forall2_lookup_lr _ _ _ i c blob Fb Hc Hb) as (E1 & _). pose proof (Forall2_lookup_lr _ _ _ i co c kept_made Hco Hc) as [_ Hm].
  unfold evidence_entry. rewrite E1. cbn [mbind option_bind]. rewrite (cm_index _ _ _ _ _ _ _ _ _ Hm).
  pose proof (rs_index _ _ _ _ _ _ _ _ (se_resharing Hs)) as Fi. rewrite Forall_lookup in Fi. rewrite (Fi i co Hco), (se_contributors Hs), (se_contributor_vk Hs).
  assert (list_find (fun k => k = co_index co) (map co_index cs) = Some (i, co_index co)) as ->.
  { apply list_find_Some. split; [by rewrite lookup_map, Hco|]. split; [done|]. intros k y Hy Hki ->. assert (k = i); [|lia].
    apply (NoDup_lookup _ _ _ (co_index co) cs_distinct); [exact Hy|by rewrite lookup_map, Hco]. }
  cbn [mbind option_bind fst]. rewrite lookup_map, Hco. done.
Qed.

Section blobs.
Context (blobs : list bytes).
Context (Hblobs : Forall2 (fun c blob => dao_reshare_serialize_public c = Some blob /\ blob_ok blob /\
    dao_reshare_deserialize_public blob = Some (without_shares c)) kept blobs).

Lemma vks_computed : dao_reshare_compute_all_vks pk kept (seqZ 1 n) = Some new_vks.
Proof.
  destruct new_indices_ok as [_ Hj].
  exact (all_vks_spec pk V grp f mu (se_pk Hs) (se_V Hs) (se_grp Hs) (proj2 (se_size Hs)) [j_local] (seqZ 1 n) cs kept T t Hj
    (se_resharing Hs) (se_poly Hs) kept_made).
Qed.

Lemma new_shares_vks sh : map ns_VK_j (imap (fun k jv => {| ns_j := fst jv; ns_VK_j := snd jv; ns_share_signed := sh k |}) (zip (seqZ 1 n) new_vks)) = new_vks.
Proof.
  apply list_eq. intros i. rewrite lookup_map, list_lookup_imap. destruct (new_vks !! i) as [v|] eqn:Ev.
  - assert (is_Some (seqZ 1 n !! i)) as [j Ej].
    { apply lookup_lt_is_Some_2. apply lookup_lt_Some in Ev. unfold new_vks in Ev. by rewrite length_map in Ev. }
    rewrite (proj2 (lookup_zip_Some _ _ _ j v)) by done. done.
  - destruct (zip (seqZ 1 n) new_vks !! i) as [[j v]|] eqn:Ez; [|done]. apply lookup_zip_Some in Ez as [_ Ez]. cbn in Ez. by rewrite Ez in Ev.
Qed.

Lemma finalizes st : rn_contributions st = table -> rn_final st = None ->
  let st' := try_finalize_locked cfg st in
  rn_contributions st' = table /\ rn_final st' = Some (final_record blobs) /\
  rn_local_share st' = Some (ns_share_signed (new_share pk V f cs j_local)).
Proof.
  intros Et En. destruct local_index as (_ & Hj & Hjn). pose proof n_range as Hn. pose proof cs_length as Lc. pose proof T_range as HT.
  assert (zlen kept = T) as Lk by (unfold zlen; rewrite kept_length; exact Lc).
  cbv zeta. unfold try_finalize_locked. rewrite En, Et, needed_T, ordered_table, (se_indices Hs), vks_computed. fold j_local.
  rewrite table_size, (proj2 (Z.ltb_ge T T)), (proj2 (Z.eqb_neq j_local 0)), Lk, (proj2 (Z.ltb_ge T T)), zlen_seqZ, (proj2 (Z.leb_le _ _)) by lia.
  rewrite (se_delta Hs), (combine_one_spec pk V grp f mu (se_pk Hs) (se_V Hs) (se_grp Hs) (proj2 (se_size Hs)) [j_local] (seqZ 1 n) cs kept T t
    (Z.to_nat (j_local - 1)) j_local); [| |by left|exact Hj|exact (se_resharing Hs)|exact (se_poly Hs)|exact kept_made].
  2: { rewrite lookup_seqZ_lt by lia. f_equal. lia. }
  assert (length (zip (seqZ 1 n) new_vks) = length (rc_new_members cfg)) as Lz.
  { rewrite length_zip. unfold new_vks. rewrite length_map, !length_seqZ. unfold zlen. lia. }
  unfold dao_reshare_build_share_set. rewrite (se_key Hs), length_imap, Lz, !Nat.eqb_refl. cbn [negb].
  assert (rc_new_members cfg <> []) as Hne by (intros E; rewrite E in Hn; unfold zlen in Hn; cbn [length] in Hn; lia). rewrite (proj2 (is_empty_false _) Hne).
  destruct (se_threshold Hs) as [Eth Hth]. pose proof (rs_degree _ _ _ _ _ _ _ _ (se_resharing Hs)) as Hdeg.
  rewrite Eth, (proj2 (Z.eqb_neq (t + 1) 0)), (proj2 (Z.ltb_ge _ _)) by lia. cbn [orb rn_contributions rn_final rn_local_share].
  split; [done|]. split; [|done]. f_equal. rewrite (new_shares_vks (fun k => if (k =? _)%nat then _ else [])).
  unfold with_evidence. rewrite (evidence_entries blobs Hblobs), needed_T, Lk, (se_contributors Hs), (se_contributor_vk Hs), !length_map, Nat.eqb_refl, Z.leb_refl.
  rewrite (proj2 (is_empty_false _)) by (intros E; apply (f_equal length) in E; rewrite length_map in E; unfold zlen in Lc; cbn in E; lia). cbn [negb andb].
  pose proof (Forall2_length _ _ _ Hblobs) as Lb. pose proof kept_length as Lk'.
  unfold final_record. cbn [ss_version ss_share_set_id ss_height ss_threshold ss_key_id ss_committee_id_hash ss_committee_members ss_VK_i]. f_equal.
  - rewrite <- (map_map fst fst), !fst_zip by (rewrite ?length_zip, ?length_map; lia). done.
  - rewrite <- (map_map fst snd), fst_zip, snd_zip by (rewrite ?length_zip, ?length_map; lia). done.
  - rewrite snd_zip by (rewrite length_zip, !length_map; lia). done.
Qed.

(** *** Progress *)

Definition finished (st : runner) : Prop :=
  rn_final st = Some (final_record blobs) /\ rn_local_share st = Some (ns_share_signed (new_share pk V f cs j_local)).

Definition progress (st : runner) : Prop :=
  rn_contributions st ⊆ table /\
  (rn_contributions st = table -> finished st) /\ (rn_contributions st <> table -> rn_final st = None).

Definition sends (co : contributor) (c : dao_reshare_contribution) (d : bytes) : Prop :=
  exists m, deal_of co c m /\ msg_wf m /\ d = msg_serialize m.

Lemma table_entry k co c : cs !! k = Some co -> contribs !! k = Some c -> table !! co_index co = Some (received co c).
Proof.
  intros Hco Hc. eapply (Forall2_lookup_lr _ _ _ k _ _ table_lookup).
  - by rewrite lookup_map, Hco.
  - unfold kept. rewrite lookup_zip_with, Hco. cbn [mbind option_bind]. by rewrite Hc.
Qed.

Lemma handle_deal k co c d st : cs !! k = Some co -> contribs !! k = Some c -> sends co c d -> progress st ->
  let st' := handle_dao_v2_reshare_msg cfg (pub co) d st in
  progress st' /\ is_Some (rn_contributions st' !! co_index co) /\ rn_contributions st ⊆ rn_contributions st'.
Proof.
  intros Hco Hc (m & Dm & Wm & ->) (Hsub & Hfin & Hnot). cbv zeta. unfold handle_dao_v2_reshare_msg. rewrite (msg_roundtrip m Wm).
  pose proof (Forall2_lookup_lr _ _ _ k co c Hmade Hco Hc) as Hm. rewrite (on_deal k co c m st Hco Hm Dm).
  destruct (bool_decide_reflect (is_Some (rn_contributions st !! co_index co))) as [Hin|Hout]; [by split_and!|].
  pose proof (table_entry k co c Hco Hc) as Ht. assert (rn_contributions st <> table) as Hne by (intros E; rewrite E, Ht in Hout; by apply Hout).
  apply eq_None_not_Some in Hout. specialize (Hnot Hne). set (st1 := store st (co_index co) (received co c)).
  assert (rn_contributions st1 ⊆ table) as Hsub1 by (by apply insert_subseteq_l).
  assert (rn_contributions st ⊆ rn_contributions st1) as Hgrow by (by apply insert_subseteq).
  assert (is_Some (rn_contributions st1 !! co_index co)) as Hnew by (cbn [st1 store rn_contributions]; rewrite lookup_insert_eq; by eexists).
  destruct (Z.lt_ge_cases (Z.of_nat (size (rn_contributions st1))) T) as [Hlt|Hge].
  - rewrite not_yet by (exact (se_contributor_threshold Hs) || exact Hlt). split; [|by split]. split; [exact Hsub1|]. split; [|done].
    intros E. rewrite E, table_size in Hlt. lia.
  - assert (rn_contributions st1 = table) as E by (apply map_subseteq_size_eq; [exact Hsub1|rewrite <- table_size in Hge; lia]).
    destruct (finalizes st1 E Hnot) as (F1 & F2 & F3). unfold progress, finished. rewrite F1, F2, F3, <- E. by split_and!.
Qed.

(** The deals reach the member in some order of contributors, with
    repetitions. *)
Definition deliver (deals : list bytes) (order : list nat) (st : runner) : runner :=
  fold_left (fun st i => match cs !! i, deals !! i with
                         | Some co, Some d => handle_dao_v2_reshare_msg cfg (pub co) d st
                         | _, _ => st
                         end) order st.

Lemma deliver_progress deals order st : Forall2 (fun x d => sends (fst x) (snd x) d) (zip cs contribs) deals -> progress st ->
  progress (deliver deals order st) /\ rn_contributions st ⊆ rn_contributions (deliver deals order st) /\
  forall k co, cs !! k = Some co -> k ∈ order -> is_Some (rn_contributions (deliver deals order st) !! co_index co).
Proof.
  intros Fd. revert st. induction order as [|i order IH]; intros st Hp.
  { split; [done|]. split; [done|]. intros k co _ Hk. by apply elem_of_nil in Hk. }
  unfold deliver. cbn [fold_left]. fold (deliver deals order). pose proof (Forall2_length _ _ _ Fd) as Ld. pose proof (Forall2_length _ _ _ Hmade) as Lm.
  rewrite length_zip in Ld. destruct (cs !! i) as [co|] eqn:Hco.
  - pose proof (lookup_lt_Some _ _ _ Hco) as Hi. destruct (lookup_lt_is_Some_2 contribs i) as [c Hc]; [lia|].
    destruct (lookup_lt_is_Some_2 deals i) as [d Hd]; [lia|]. rewrite Hd.
    pose proof (Forall2_lookup_lr _ _ _ i (co, c) d Fd (proj2 (lookup_zip_Some _ _ _ co c) (conj Hco Hc)) Hd) as Hsend. cbn [fst snd] in Hsend.
    destruct (handle_deal i co c d st Hco Hc Hsend Hp) as (P1 & P2 & P3). destruct (IH _ P1) as (Q1 & Q2 & Q3).
    split; [exact Q1|]. split; [by etransitivity|]. intros k co' Hk Hin. apply elem_of_cons in Hin as [->|Hin]; [|by eapply Q3].
    rewrite Hco in Hk. injection Hk as <-. destruct P2 as [v Hv]. exists v. by eapply lookup_weaken.
  - destruct (IH _ Hp) as (Q1 & Q2 & Q3). split; [exact Q1|]. split; [exact Q2|]. intros k co' Hk Hin.
    apply elem_of_cons in Hin as [->|Hin]; [congruence|]. by eapply Q3.
Qed.

Lemma all_there m : m ⊆ table -> (forall k co, cs !! k = Some co -> is_Some (m !! co_index co)) -> m = table.
Proof.
  intros Hm Hall. apply map_eq. intros i. destruct (table !! i) as [c|] eqn:Hi.
  - pose proof Hi as Hin. apply elem_of_list_to_map_2, list_elem_of_lookup in Hin as [k Hk]. apply lookup_zip_Some in Hk as [Hk _].
    rewrite lookup_map in Hk. destruct (cs !! k) as [co|] eqn:Hco; [|done]. cbn in Hk. injection Hk as <-.
    destruct (Hall k co Hco) as [v Hv]. pose proof (lookup_weaken _ _ _ _ Hv Hm) as Hv'. congruence.
  - destruct (m !! i) as [v|] eqn:Hv; [|done]. pose proof (lookup_weaken _ _ _ _ Hv Hm). congruence.
Qed.

End blobs.

End session.

(** ** A concrete instance of the envelopes *)

Definition toy_box : PrivateBox :=
  {| secret_key_to_public_key priv := if (length priv =? 32)%nat then Some priv else None;
     check_key K := (length K =? 32)%nat;
     generate_key_derivation K e := Some (zip_with Z.add K e);
     gcm_encrypt k a n p := (p, replicate 16 0);
     gcm_decrypt k a n c t := Some c |}.

Lemma toy_box_laws : @PrivateBoxLaws toy_box.
Proof.
  split.
  - intros e E. cbn. destruct (Nat.eqb_spec (length e) 32) as [L|]; [|done]. intros [= <-]. by rewrite L.
  - intros e E r R. cbn. destruct (length e =? 32)%nat; [|done]. destruct (length r =? 32)%nat; [|done]. intros [= <-] [= <-].
    eexists. split; [done|]. f_equal. revert e. induction r as [|x r IH]; intros [|y e]; cbn; try done. by rewrite IH, Z.add_comm.
  - done.
  - done.
Qed.
