(* ===== verification/VotingWeight.v ===== *)
(** * The weight of an output

    [governance/voting_weight.cpp]: amount times the logarithm of the age. *)

From S2P Require Import Prelude Paillier.

(** ** Voting weight *)

Definition DAO_BLOCKS_PER_DAY : Z := 720.
Definition DAO_AGE_MAX_DAYS : Z := 7300.

(** A 64-bit number is 0 after 64 shifts. *)
Fixpoint floor_log2_loop (fuel : nat) (n r : Z) : Z :=
  match fuel with
  | O => r
  | S fuel => if 1 <? n then floor_log2_loop fuel (Z.shiftr n 1) (r + 1) else r
  end.

Definition floor_log2 (n : Z) : Z := floor_log2_loop 64 n 0.

Definition calculate_voting_weight (amount output_height vote_height : Z) : option Z :=
  if vote_height <? output_height then None else
  let age_blocks := vote_height - output_height in
  let raw_age_days := age_blocks / DAO_BLOCKS_PER_DAY in
  let age_days := if DAO_AGE_MAX_DAYS <? raw_age_days then DAO_AGE_MAX_DAYS else raw_age_days in
  let age_factor := floor_log2 (age_days + 1) in
  let w := u128 (amount * age_factor) in
  if governance_w_max <? w then None else Some w.

(** ** Proofs *)

Lemma floor_log2_loop_spec fuel n r : 0 <= n < 2 ^ Z.of_nat fuel ->
  floor_log2_loop fuel n r = r + Z.log2 n.
Proof.
  revert n r. induction fuel as [|fuel IH]; intros n r Hn; cbn [floor_log2_loop].
  - assert (n = 0) as -> by lia. cbn. lia.
  - case_match; to_prop.
    + rewrite Nat2Z.inj_succ, Z.pow_succ_r in Hn by lia.
      rewrite Z.shiftr_div_pow2, Z.pow_1_r by lia. rewrite IH.
      * assert (Z.log2 n = Z.succ (Z.log2 (n / 2))) as ->; [|lia].
        pose proof (Z.div_mod n 2 ltac:(lia)). pose proof (Z.mod_pos_bound n 2 ltac:(lia)).
        rewrite (Z.div_mod n 2) at 1 by lia.
        assert (n mod 2 = 0 \/ n mod 2 = 1) as [-> | ->] by lia.
        -- rewrite Z.add_0_r. apply Z.log2_double. lia.
        -- apply Z.log2_succ_double. lia.
      * split; [apply Z.div_pos; lia|]. apply Z.div_lt_upper_bound; lia.
    + assert (n = 0 \/ n = 1) as [-> | ->] by lia; cbn; lia.
Qed.

(** The loop computes the logarithm of every 64-bit number. *)
Lemma floor_log2_spec n : 0 <= n < 2 ^ 64 -> floor_log2 n = Z.log2 n.
Proof. intros Hn. unfold floor_log2. by rewrite floor_log2_loop_spec. Qed.

Definition age_factor (output_height vote_height : Z) : Z :=
  Z.log2 (Z.min 7300 ((vote_height - output_height) / 720) + 1).

Lemma age_factor_range oh vh : oh <= vh -> 0 <= age_factor oh vh <= 12.
Proof.
  intros Hh. unfold age_factor. split; [apply Z.log2_nonneg|].
  assert (0 <= (vh - oh) / 720) by (apply Z.div_pos; lia).
  change 12 with (Z.log2 7301). apply Z.log2_le_mono. lia.
Qed.

Lemma voting_weight_gen amount oh vh :
  0 <= amount < 2 ^ 64 -> 0 <= oh < 2 ^ 64 -> 0 <= vh < 2 ^ 64 ->
  (vh < oh -> calculate_voting_weight amount oh vh = None) /\
  (oh <= vh -> calculate_voting_weight amount oh vh = Some (amount * age_factor oh vh) /\
               0 <= amount * age_factor oh vh <= governance_w_max).
Proof.
  intros Ha Ho Hv. unfold calculate_voting_weight. split; intros Hh.
  { by rewrite (proj2 (Z.ltb_lt _ _)) by lia. }
  rewrite (proj2 (Z.ltb_ge _ _)) by lia. unfold DAO_AGE_MAX_DAYS, DAO_BLOCKS_PER_DAY.
  pose proof (age_factor_range oh vh Hh) as Hf.
  assert (0 <= (vh - oh) / 720) by (apply Z.div_pos; lia).
  assert ((if 7300 <? (vh - oh) / 720 then 7300 else (vh - oh) / 720) =
          Z.min 7300 ((vh - oh) / 720)) as -> by (case_match; to_prop; lia).
  rewrite floor_log2_spec by lia. fold (age_factor oh vh). unfold governance_w_max.
  assert (0 <= amount * age_factor oh vh <= 240000000000000000000) by nia.
  assert (u128 (amount * age_factor oh vh) = amount * age_factor oh vh) as ->
    by (apply Z.mod_small; lia).
  by rewrite (proj2 (Z.ltb_ge _ _)) by lia.
Qed.

(** C32: The voting weight of an output is its amount times the logarithm of its
    age in days, the age capped at twenty years.  It is computed without overflow
    for every 64-bit amount, it never exceeds the maximal weight, so that check
    refuses nothing, and an output is refused exactly when it is newer than the
    vote. *)
Theorem voting_weight_spec amount oh vh :
  0 <= amount < 2 ^ 64 -> 0 <= oh < 2 ^ 64 -> 0 <= vh < 2 ^ 64 ->
  (vh < oh -> calculate_voting_weight amount oh vh = None) /\
  (oh <= vh -> calculate_voting_weight amount oh vh = Some (amount * age_factor oh vh) /\
               0 <= amount * age_factor oh vh <= governance_w_max).
Proof. apply voting_weight_gen. Qed.

Lemma voting_weight_spec_witness :
  calculate_voting_weight 5000 100 (100 + 720 * 31) = Some 25000.
Proof.
  exact (proj1 (proj2 (voting_weight_spec 5000 100 22420 ltac:(lia) ltac:(lia) ltac:(lia)) ltac:(lia))).
Defined.
