(* ===== verification/VoteV2.v ===== *)
(** * Encrypted votes

    The second version of DAO voting: [VoteManager::apply_dao_vote] and the V2
    half of [VoteManager::rollback_block] ([governance/vote_manager.cpp]), which
    keep per proposal the product of the encrypted weights and the sum of the
    commitments.

    The arithmetic of the curve is the class [CurveOps] of [Curve]. *)

From Stdlib Require Import Zcong.
From Stdlib Require Import Zmod Zstar.
From S2P Require Import Prelude TxExtra Curve Paillier Threshold Emission.

(** ** Stored records *)

Record dao_vote_record_v2 := {
  vr_proposal_id : hash;
  vr_vote_height : Z;
  vr_tx_hash : hash;
  vr_nullifiers : list hash;
}.

Record dao_proposal_aggregate := {
  aggregate_E_W : bytes;
  aggregate_E_S : bytes;
  aggregate_E_B : bytes;
  aggregate_C_W : bytes;
  aggregate_C_S : bytes;
  aggregate_C_B : bytes;
}.

(** [theta] is [tk_theta_bytes]. *)
Record dao_tally_key_record := {
  tk_version : Z; tk_committee_size : Z; tk_threshold : Z; tk_t : Z;
  tk_committee_id_hash : bytes;
  tk_committee_members : list bytes;
  tk_delta : bytes; tk_N : bytes; tk_G : bytes; tk_theta_bytes : bytes;
  tk_V : bytes; tk_V_K_i : list bytes;
  tk_vss_P : bytes; tk_vss_P_prime : bytes; tk_vss_g : bytes; tk_vss_h : bytes;
  tk_activation_height : Z; tk_dkg_transcript_hash : bytes; tk_key_id : bytes;
}.

(** The four tables; a nullifier is stored under proposal and nullifier. *)
Record dao_db := {
  tally_keys : gmap bytes dao_tally_key_record;
  aggregates : gmap hash dao_proposal_aggregate;
  vote_records : gmap hash dao_vote_record_v2;
  vote_nullifiers : gmap bytes unit;
}.

Definition set_aggregates (s : dao_db) (t : gmap hash dao_proposal_aggregate) : dao_db :=
  {| tally_keys := tally_keys s; aggregates := t;
     vote_records := vote_records s; vote_nullifiers := vote_nullifiers s |}.
Definition set_vote_records (s : dao_db) (t : gmap hash dao_vote_record_v2) : dao_db :=
  {| tally_keys := tally_keys s; aggregates := aggregates s;
     vote_records := t; vote_nullifiers := vote_nullifiers s |}.
Definition set_nullifiers (s : dao_db) (t : gmap bytes unit) : dao_db :=
  {| tally_keys := tally_keys s; aggregates := aggregates s;
     vote_records := vote_records s; vote_nullifiers := t |}.

Definition get_dao_tally_key_by_id (s : dao_db) (kid : bytes) : option dao_tally_key_record :=
  if negb (length kid =? 32)%nat then None else tally_keys s !! kid.

(** The table has no duplicate data, so the flag against duplicates has no
    effect and a present key is overwritten. *)
Definition add_vote_nullifier (s : dao_db) (pid nf : hash) : dao_db :=
  set_nullifiers s (<[pid ++ nf := tt]> (vote_nullifiers s)).
Definition has_vote_nullifier (s : dao_db) (pid nf : hash) : bool :=
  bool_decide (is_Some (vote_nullifiers s !! (pid ++ nf))).
Definition remove_vote_nullifier (s : dao_db) (pid nf : hash) : dao_db :=
  set_nullifiers s (delete (pid ++ nf) (vote_nullifiers s)).

Definition add_dao_proposal_aggregate (s : dao_db) (pid : hash) (a : dao_proposal_aggregate) : dao_db :=
  set_aggregates s (<[pid := a]> (aggregates s)).
Definition remove_dao_proposal_aggregate (s : dao_db) (pid : hash) : dao_db :=
  set_aggregates s (delete pid (aggregates s)).
Definition add_dao_vote_record_v2 (s : dao_db) (h : hash) (r : dao_vote_record_v2) : dao_db :=
  set_vote_records s (<[h := r]> (vote_records s)).
Definition remove_dao_vote_record_v2 (s : dao_db) (h : hash) : dao_db :=
  set_vote_records s (delete h (vote_records s)).

Inductive apply_result :=
| applied (s : dao_db)
| not_applied           (* [false] *)
| apply_threw.          (* a curve operation threw; nothing has been written *)

Section votes.
Context `{CurveOps}.

(** ** Applying a vote *)

Definition apply_dao_vote (proof : vote_proof_v2) (tx_hash : hash) (s : dao_db) : apply_result :=
  match get_dao_tally_key_by_id s (v2_tally_key_id proof) with
  | None => not_applied
  | Some key_rec =>
  match deserialize_modulus (tk_N key_rec) with
  | None => not_applied
  | Some pk =>
    let have_agg := aggregates s !! v2_proposal_id proof in
    let agg := match have_agg with
               | Some a => a
               | None => {| aggregate_E_W := []; aggregate_E_S := []; aggregate_E_B := [];
                            aggregate_C_W := rct_identity; aggregate_C_S := rct_identity;
                            aggregate_C_B := rct_identity |}
               end in
    let sums :=
      if bool_decide (is_Some have_agg) && negb (is_empty (aggregate_E_W agg)) &&
         negb (is_empty (aggregate_E_S agg)) && negb (is_empty (aggregate_E_B agg))
      then w ← add pk (aggregate_E_W agg) (E_W proof);
           x ← add pk (aggregate_E_S agg) (E_S proof);
           b ← add pk (aggregate_E_B agg) (E_B proof);
           Some (w, x, b)
      else Some (E_W proof, E_S proof, E_B proof) in
    match sums with
    | None => not_applied
    | Some (w, x, b) =>
      match addKeys (aggregate_C_W agg) (C_W proof), addKeys (aggregate_C_S agg) (C_S proof),
            addKeys (aggregate_C_B agg) (C_B proof) with
      | Some cw, Some cs, Some cb =>
          let s := add_dao_proposal_aggregate s (v2_proposal_id proof)
                     {| aggregate_E_W := w; aggregate_E_S := x; aggregate_E_B := b;
                        aggregate_C_W := cw; aggregate_C_S := cs; aggregate_C_B := cb |} in
          let s := add_dao_vote_record_v2 s tx_hash
                     {| vr_proposal_id := v2_proposal_id proof; vr_vote_height := v2_vote_height proof;
                        vr_tx_hash := tx_hash; vr_nullifiers := v2_nullifiers proof |} in
          applied (fold_left (fun s nf => add_vote_nullifier s (v2_proposal_id proof) nf)
                     (v2_nullifiers proof) s)
      | _, _, _ => apply_threw
      end
    end
  end
  end.

(** ** Rolling a vote back *)

Definition undo_channel (pk : PaillierPublicKey) (agg E : bytes) : option bytes :=
  if is_empty agg then Some agg else inv ← inverse pk E; add pk agg inv.

(** All bytes but the last are 0 and the last is 1. *)
Definition ct_identity (E : bytes) : bool :=
  forallb (fun c => c =? 0) (removelast E) && (is_empty E || (List.last E 0 =? 1)).

(** The aggregate's part; [None] is an exception. *)
Definition rollback_aggregate (pk : PaillierPublicKey) (proof : vote_proof_v2) (s : dao_db)
    : option dao_db :=
  match aggregates s !! v2_proposal_id proof with
  | None => Some s
  | Some agg =>
    match (w ← undo_channel pk (aggregate_E_W agg) (E_W proof);
           x ← undo_channel pk (aggregate_E_S agg) (E_S proof);
           b ← undo_channel pk (aggregate_E_B agg) (E_B proof);
           Some (w, x, b)) with
    | None => Some s
    | Some (w, x, b) =>
        cw ← subKeys (aggregate_C_W agg) (C_W proof);
        cs ← subKeys (aggregate_C_S agg) (C_S proof);
        cb ← subKeys (aggregate_C_B agg) (C_B proof);
        if beq cw rct_identity && beq cs rct_identity && beq cb rct_identity &&
           ct_identity w && ct_identity x && ct_identity b
        then Some (remove_dao_proposal_aggregate s (v2_proposal_id proof))
        else Some (add_dao_proposal_aggregate s (v2_proposal_id proof)
                     {| aggregate_E_W := w; aggregate_E_S := x; aggregate_E_B := b;
                        aggregate_C_W := cw; aggregate_C_S := cs; aggregate_C_B := cb |})
    end
  end.

(** One V2 transaction of [VoteManager::rollback_block]. *)
Definition rollback_dao_vote (proof : vote_proof_v2) (tx_hash : hash) (s : dao_db) : option dao_db :=
  match get_dao_tally_key_by_id s (v2_tally_key_id proof) with
  | None => Some s
  | Some key_rec =>
    if negb (length (tk_key_id key_rec) =? 32)%nat then Some s else
    if negb (beq (tk_key_id key_rec) (v2_tally_key_id proof)) then Some s else
    match deserialize_modulus (tk_N key_rec) with
    | None => Some s
    | Some pk =>
        s ← rollback_aggregate pk proof s;
        let s := remove_dao_vote_record_v2 s tx_hash in
        Some (fold_left (fun s nf => remove_vote_nullifier s (v2_proposal_id proof) nf)
                (v2_nullifiers proof) s)
    end
  end.

End votes.
