(* ===== verification/VoteProof.v ===== *)
(** * The proofs of an encrypted vote

    The ring signatures ([governance/dao_clsag.cpp]), the proofs that ciphertext
    and commitment hold the same value ([dao_consistency.cpp]), the proof of a
    hidden direction ([dao_vote_or_proof.cpp]), the verifier that puts them
    together ([vote_proof_verifier.cpp]) and the wallet that builds a vote
    ([dao_wallet_v2.cpp]).  Random numbers are arguments.  A prover's [None] is
    [false] or an exception; the verifier tells the two apart. *)

From stdpp Require Import base list gmap sorting.
From Stdlib Require Import ZArith Lia.
From S2P Require Import Prelude TxExtra Curve GovStore Paillier Threshold Emission VotingWeight VoteV2.
Open Scope Z_scope.

(** ** A small error monad

    A check passes with a value, refuses at a numbered step of the verifier, or
    throws. *)

Inductive check (A : Type) := pass (a : A) | refuse (step : Z) | throws.
Arguments pass {A} a.
Arguments refuse {A} step.
Arguments throws {A}.

Definition check_bind {A B} (m : check A) (k : A -> check B) : check B :=
  match m with pass a => k a | refuse n => refuse n | throws => throws end.

Notation "'let!' x ':=' m 'in' k" := (check_bind m (fun x => k))
  (at level 10, x pattern, m at level 100, k at level 200).

Definition ensure (b : bool) (step : Z) : check unit := if b then pass tt else refuse step.
Definition found {A} (o : option A) (step : Z) : check A := match o with Some a => pass a | None => refuse step end.
Definition no_throw {A} (o : option A) : check A := match o with Some a => pass a | None => throws end.

Fixpoint check_all {A} (f : A -> check unit) (l : list A) : check unit :=
  match l with
  | [] => pass tt
  | x :: l => let! _ := f x in check_all f l
  end.

Fixpoint check_map {A B} (f : A -> check B) (l : list A) : check (list B) :=
  match l with
  | [] => pass []
  | x :: l => let! y := f x in let! ys := check_map f l in pass (y :: ys)
  end.

(** ** Ring signatures *)

Record dao_clsag_context := {
  cc_proposal_id : hash;
  cc_submission_height : Z;
  cc_vote_height : Z;
  cc_tally_key_id : hash;
  cc_P : list bytes;
  cc_C : list bytes;
  cc_output_indices : list Z;
  cc_output_heights : list Z;
  cc_age_factors : list Z;
  cc_V : bytes;
}.

(** The values of a signature that every round uses. *)
Record clsag_env := {
  ce_proposal_id : hash;
  ce_prefix : list bytes;   (* hashed before [L] and [R] *)
  ce_mu_P : bytes;
  ce_mu_C : bytes;
  ce_I : bytes;
  ce_D : bytes;   (* eight times the [D] of the signature *)
}.

Section clsag.
Context `{RctOps}.

Definition dao_hash_to_point (P : bytes) (proposal_id : hash) : bytes :=
  map_to_point (keccak (str "VeilRoot-DAO-VOTE-V2" ++ proposal_id ++ P)).

Definition weighted_commitment (C : bytes) (f : Z) : option bytes :=
  if f =? 0 then Some rct_identity else scalarmultKey C (sc_reduce32 (f :: replicate 31 0)).

Definition compute_weighted_commitments (ctx : dao_clsag_context) : option (list bytes) :=
  mapM (fun '(C, f) => weighted_commitment C f) (zip (cc_C ctx) (cc_age_factors ctx)).

Definition context_well_formed (ctx : dao_clsag_context) (sig_n : nat) : bool :=
  let n := length (cc_P ctx) in
  negb (n <? 1)%nat && (sig_n =? n)%nat && (length (cc_C ctx) =? n)%nat && (length (cc_output_indices ctx) =? n)%nat &&
  (length (cc_output_heights ctx) =? n)%nat && (length (cc_age_factors ctx) =? n)%nat.

Definition ring_entry (x : Z * Z * bytes * bytes * Z) : bytes :=
  let '(idx, h, P, C, f) := x in le_bytes 8 idx ++ le_bytes 8 h ++ P ++ C ++ [f].

Definition dao_clsag_message (ctx : dao_clsag_context) (N V : bytes) : bytes :=
  let ring := le_bytes 4 (zlen (cc_P ctx)) ++
    concat (map ring_entry (zip (zip (zip (zip (cc_output_indices ctx) (cc_output_heights ctx)) (cc_P ctx)) (cc_C ctx))
      (cc_age_factors ctx))) in
  keccak (str "VeilRoot-DAO-CLSAG-V2-MSG" ++ [2] ++ cc_proposal_id ctx ++ le_bytes 8 (cc_submission_height ctx) ++
    le_bytes 8 (cc_vote_height ctx) ++ cc_tally_key_id ctx ++ keccak ring ++ N ++ V).

(** A domain string in a key of zeros. *)
Definition domain_key (s : bytes) : bytes := s ++ replicate (32 - length s) 0.

Definition clsag_setup (ctx : dao_clsag_context) (Q : list bytes) (I D D_full : bytes) : clsag_env :=
  let V := cc_V ctx in
  {| ce_proposal_id := cc_proposal_id ctx;
     ce_prefix := domain_key (str "CLSAG_round") :: cc_P ctx ++ Q ++ [V; dao_clsag_message ctx I V];
     ce_mu_P := hash_to_scalar (domain_key (str "CLSAG_agg_0") :: cc_P ctx ++ Q ++ [I; D; V]);
     ce_mu_C := hash_to_scalar (domain_key (str "CLSAG_agg_1") :: cc_P ctx ++ Q ++ [I; D; V]);
     ce_I := I; ce_D := D_full |}.

(** One round: the next challenge from the current one. *)
Definition clsag_round (e : clsag_env) (s P C' c : bytes) : option bytes :=
  let c_p := sc_mul (ce_mu_P e) c in
  let c_c := sc_mul (ce_mu_C e) c in
  L ← addKeys_aGbBcC s c_p P c_c C';
  R ← addKeys_aAbBcC s (dao_hash_to_point P (ce_proposal_id e)) c_p (ce_I e) c_c (ce_D e);
  Some (hash_to_scalar (ce_prefix e ++ [L; R])).

(** The loop of the signer from the member after the real one round to it; the
    challenge at member 0 is kept.  It runs once per other member. *)
Fixpoint gen_loop (e : clsag_env) (ss Ps Cs : list bytes) (n real : nat) (fuel i : nat) (c c1 : bytes)
    : option (bytes * bytes) :=
  match fuel with
  | O => None
  | S fuel =>
      if (i =? real)%nat then Some (c, c1) else
      s ← ss !! i; P ← Ps !! i; C' ← Cs !! i;
      c ← clsag_round e s P C' c;
      let i := ((i + 1) mod n)%nat in
      gen_loop e ss Ps Cs n real fuel i c (if (i =? 0)%nat then c else c1)
  end.

(** From the key image [N] and the points [D] to the responses; [ss] are the
    random responses, one per member, and [a] is the random nonce. *)
Definition clsag_sign (ctx : dao_clsag_context) (real_index : nat) (x z a : bytes) (ss Q C_prime : list bytes)
    (N D D_full aG aH : bytes) : option clsag :=
  let n := length (cc_P ctx) in
  let e := clsag_setup ctx Q N D D_full in
  let c := hash_to_scalar (ce_prefix e ++ [aG; aH]) in
  let i := ((real_index + 1) mod n)%nat in
  '(c, c1) ← gen_loop e ss (cc_P ctx) C_prime n real_index n i c (if (i =? 0)%nat then c else replicate 32 0);
  let sum := sc_muladd (ce_mu_C e) z (sc_mul (ce_mu_P e) x) in
  Some {| cl_s := <[real_index := sc_mulsub c sum a]> (take n ss); cl_c1 := c1; cl_I := N; cl_D := D |}.

Definition dao_clsag_generate (ctx : dao_clsag_context) (real_index : nat) (output_secret weight_blinding a : bytes)
    (ss : list bytes) : option clsag :=
  let n := length (cc_P ctx) in
  if negb (context_well_formed ctx n) then None else
  if (n <=? real_index)%nat then None else
  Q ← compute_weighted_commitments ctx;
  C_prime ← mapM (fun q => subKeys q (cc_V ctx)) Q;
  let z := sc_sub (replicate 32 0) weight_blinding in
  P_real ← cc_P ctx !! real_index;
  let H_l := dao_hash_to_point P_real (cc_proposal_id ctx) in
  N ← scalarmultKey H_l output_secret;
  D_full ← scalarmultKey H_l z;
  D ← scalarmultKey D_full INV_EIGHT;
  aH ← scalarmultKey H_l a;
  clsag_sign ctx real_index output_secret z a ss Q C_prime N D D_full (scalarmultBase a) aH.

Fixpoint verify_rounds (e : clsag_env) (l : list (bytes * bytes * bytes)) (c : bytes) : option bytes :=
  match l with
  | [] => Some c
  | (s, P, C') :: l => c ← clsag_round e s P C' c; verify_rounds e l c
  end.

Definition dao_clsag_verify (ctx : dao_clsag_context) (sig : clsag) : option bool :=
  if negb (context_well_formed ctx (length (cl_s sig))) then Some false else
  if negb (forallb sc_check (cl_s sig)) then Some false else
  if negb (sc_check (cl_c1 sig)) then Some false else
  if beq (cl_I sig) rct_identity then Some false else
  D_full ← scalarmult8 (cl_D sig);
  if beq D_full rct_identity then Some false else
  Q ← compute_weighted_commitments ctx;
  C_prime ← mapM (fun q => subKeys q (cc_V ctx)) Q;
  let e := clsag_setup ctx Q (cl_I sig) (cl_D sig) D_full in
  c ← verify_rounds e (zip (zip (cl_s sig) (cc_P ctx)) C_prime) (cl_c1 sig);
  Some (beq c (cl_c1 sig)).

End clsag.

(** ** Consistency of ciphertext and commitment *)

Definition bn_to_scalar_reduced (b : Z) : bytes := le_bytes 32 (b mod ell).

Definition bn_to_signed (b : Z) : bytes := (if b <? 0 then 1 else 0) :: BN_bn2bin b.

Definition bn_from_signed (l : bytes) : option Z :=
  match l with
  | [] => None
  | sign :: mag => Some (if negb (sign =? 0) then - BN_bin2bn mag else BN_bin2bn mag)
  end.

Record dao_consistency_context := {
  cx_domain : bytes;
  cx_version : Z;
  cx_proposal_id : hash;
  cx_vote_height : Z;
  cx_tally_key_id : hash;
  cx_transcript : bytes;
}.

Section consistency.
Context `{RctOps}.

Definition compute_challenge (ctx : dao_consistency_context) (N : Z) (E C A_C A_P : bytes) : Z :=
  BN_bin2bn (SHA256 (cx_domain ctx ++ [0] ++ [cx_version ctx] ++ cx_proposal_id ctx ++ le_bytes 8 (cx_vote_height ctx) ++
    cx_tally_key_id ctx ++ le_bytes 4 (zlen (cx_transcript ctx)) ++ cx_transcript ctx ++
    binpad N PAILLIER_MODULUS_BYTES ++ E ++ C ++ A_C ++ A_P)).

(** [a_m], [a_r] and [a_rho] are the random values. *)
Definition dao_consistency_prove (ctx : dao_consistency_context) (N : Z) (E C : bytes) (m r : Z) (rho : bytes)
    (a_m a_r : Z) (a_rho : bytes) : option dao_consistency_proof :=
  if negb (length E =? PAILLIER_CT_BYTES)%nat then None else
  if r <? 0 then None else
  let N2 := N * N in
  let A_P_bn := (BN_mod_exp (N + 1) a_m N2 * BN_mod_exp a_r N N2) mod N2 in
  let A_P := binpad A_P_bn PAILLIER_CT_BYTES in
  a_m_H ← scalarmultKey rct_H (bn_to_scalar_reduced a_m);
  A_C ← addKeys a_m_H (scalarmultBase a_rho);
  let e := compute_challenge ctx N E C A_C A_P in
  let z_m := e * m + a_m in
  let z_r := (a_r * BN_mod_exp r e N) mod N in
  let z_rho := sc_muladd (bn_to_scalar_reduced e) rho a_rho in
  Some {| cp_A_C := A_C; cp_A_P := A_P; cp_e := binpad e 32; cp_z_m := bn_to_signed z_m;
          cp_z_r := binpad z_r PAILLIER_CT_BYTES; cp_z_rho := z_rho |}.

Definition dao_consistency_verify (ctx : dao_consistency_context) (N : Z) (E C : bytes)
    (proof : dao_consistency_proof) : option bool :=
  if negb (length E =? PAILLIER_CT_BYTES)%nat then Some false else
  if negb (length (cp_A_P proof) =? PAILLIER_CT_BYTES)%nat then Some false else
  if negb (length (cp_e proof) =? 32)%nat then Some false else
  if negb (length (cp_z_r proof) =? PAILLIER_CT_BYTES)%nat then Some false else
  if negb (length (cp_z_rho proof) =? 32)%nat then Some false else
  if is_empty (cp_z_m proof) then Some false else
  let N2 := N * N in
  let e_check := compute_challenge ctx N E C (cp_A_C proof) (cp_A_P proof) in
  if negb (e_check =? BN_bin2bn (cp_e proof)) then Some false else
  match bn_from_signed (cp_z_m proof) with
  | None => Some false
  | Some z_m =>
    z_m_H ← scalarmultKey rct_H (bn_to_scalar_reduced z_m);
    lhs ← addKeys z_m_H (scalarmultBase (cp_z_rho proof));
    e_C ← scalarmultKey C (bn_to_scalar_reduced e_check);
    rhs ← addKeys (cp_A_C proof) e_C;
    if negb (beq lhs rhs) then Some false else
    let lhs_p := (BN_mod_exp (N + 1) (z_m mod N) N2 * BN_mod_exp (BN_bin2bn (cp_z_r proof)) N N2) mod N2 in
    let rhs_p := (BN_bin2bn (cp_A_P proof) * BN_mod_exp (BN_bin2bn E) e_check N2) mod N2 in
    Some (lhs_p =? rhs_p)
  end.

End consistency.

(** ** The hidden direction *)

Record dao_or_context := {
  oc_version : Z;
  oc_proposal_id : hash;
  oc_vote_height : Z;
  oc_nullifiers : list bytes;
  oc_key_offsets : list Z;
  oc_extra_binding : bytes;
  oc_C_W : bytes;
  oc_C_S : bytes;
}.

Section direction.
Context `{RctOps}.

(** The domain is copied with its terminating zero. *)
Definition compute_or_challenge (ctx : dao_or_context) (T0 T1 D0 D1 : bytes) : bytes :=
  sc_reduce32 (keccak (str "VeilRoot-DAO-OR-V2" ++ [0] ++ [oc_version ctx] ++ oc_proposal_id ctx ++
    le_bytes 8 (oc_vote_height ctx) ++
    le_bytes 4 (zlen (oc_nullifiers ctx)) ++ concat (oc_nullifiers ctx) ++
    le_bytes 4 (zlen (oc_key_offsets ctx)) ++ concat (map (le_bytes 8) (oc_key_offsets ctx)) ++
    le_bytes 4 (zlen (oc_extra_binding ctx)) ++ oc_extra_binding ctx ++
    oc_C_W ctx ++ oc_C_S ctx ++ T0 ++ T1 ++ D0 ++ D1)).

(** [k], [c_unknown] and [s_unknown] are the random values. *)
Definition dao_or_prove (ctx : dao_or_context) (direction_yes : bool) (R_S R_W k c_unknown s_unknown : bytes)
    : option dao_vote_or_proof :=
  D0 ← subKeys (oc_C_S ctx) (oc_C_W ctx);
  D1 ← addKeys (oc_C_S ctx) (oc_C_W ctx);
  if beq D0 rct_identity || beq D1 rct_identity then None else
  let r := if direction_yes then sc_sub R_S R_W else sc_add R_S R_W in
  let T_known := scalarmultBase k in
  cD ← scalarmultKey (if direction_yes then D1 else D0) c_unknown;
  T_unknown ← subKeys (scalarmultBase s_unknown) cD;
  let '(T0, T1) := if direction_yes then (T_known, T_unknown) else (T_unknown, T_known) in
  let c := compute_or_challenge ctx T0 T1 D0 D1 in
  let c_known := sc_sub c c_unknown in
  let s_known := sc_add k (sc_mul c_known r) in
  Some (if direction_yes
        then {| or_c_yes := c_known; or_s_yes := s_known; or_c_no := c_unknown; or_s_no := s_unknown |}
        else {| or_c_yes := c_unknown; or_s_yes := s_unknown; or_c_no := c_known; or_s_no := s_known |}).

Definition dao_or_verify (ctx : dao_or_context) (proof : dao_vote_or_proof) : option bool :=
  if negb (sc_check (or_c_yes proof)) then Some false else
  if negb (sc_check (or_c_no proof)) then Some false else
  if negb (sc_check (or_s_yes proof)) then Some false else
  if negb (sc_check (or_s_no proof)) then Some false else
  D0 ← subKeys (oc_C_S ctx) (oc_C_W ctx);
  D1 ← addKeys (oc_C_S ctx) (oc_C_W ctx);
  if beq D0 rct_identity || beq D1 rct_identity then Some false else
  cD_yes ← scalarmultKey D0 (or_c_yes proof);
  T0 ← subKeys (scalarmultBase (or_s_yes proof)) cD_yes;
  cD_no ← scalarmultKey D1 (or_c_no proof);
  T1 ← subKeys (scalarmultBase (or_s_no proof)) cD_no;
  let c := compute_or_challenge ctx T0 T1 D0 D1 in
  Some (beq (sc_add (or_c_yes proof) (or_c_no proof)) c).

End direction.

(** ** The transcript of a vote *)

Record dao_vote_transcript_input := {
  ti_version : Z;
  ti_proposal_id : hash;
  ti_submission_height : Z;
  ti_vote_height : Z;
  ti_tally_key_id : hash;
  ti_key_offsets : list (list Z);
  ti_absolute_indices : list (list Z);
  ti_P : list (list bytes);
  ti_C : list (list bytes);
  ti_output_heights : list (list Z);
  ti_age_factors : list (list Z);
  ti_nullifiers : list hash;
  ti_balance_commitments : list bytes;
  ti_C_W : bytes; ti_C_S : bytes; ti_C_B : bytes;
  ti_E_W : bytes; ti_E_S : bytes; ti_E_B : bytes;
}.

Definition same_lengths {A B} (l : list (list A)) (l' : list (list B)) : bool :=
  forallb (fun '(x, y) => (length x =? length y)%nat) (zip l l').

(** The lengths are below 2^32, which the size of a transaction ensures. *)
Definition tx_validate (ti : dao_vote_transcript_input) : bool :=
  let n := length (ti_key_offsets ti) in
  (length (ti_E_W ti) =? 512)%nat && (length (ti_E_S ti) =? 512)%nat && (length (ti_E_B ti) =? 512)%nat &&
  (length (ti_absolute_indices ti) =? n)%nat && (length (ti_P ti) =? n)%nat && (length (ti_C ti) =? n)%nat &&
  (length (ti_output_heights ti) =? n)%nat && (length (ti_age_factors ti) =? n)%nat &&
  (length (ti_nullifiers ti) =? n)%nat && (length (ti_balance_commitments ti) =? n)%nat &&
  (zlen (ti_key_offsets ti) <=? 4294967295) &&
  same_lengths (ti_absolute_indices ti) (ti_P ti) && same_lengths (ti_absolute_indices ti) (ti_C ti) &&
  same_lengths (ti_absolute_indices ti) (ti_output_heights ti) &&
  same_lengths (ti_absolute_indices ti) (ti_age_factors ti) &&
  forallb (fun l => zlen l <=? 4294967295) (ti_key_offsets ti) &&
  forallb (fun l => zlen l <=? 4294967295) (ti_absolute_indices ti).

Section transcript.
Context `{RctOps}.

Definition transcript_of_input (ti : dao_vote_transcript_input) (i : nat) : bytes :=
  let offsets := nth i (ti_key_offsets ti) [] in
  let indices := nth i (ti_absolute_indices ti) [] in
  le_bytes 4 (zlen offsets) ++ concat (map (le_bytes 8) offsets) ++
  le_bytes 4 (zlen indices) ++
  concat (map ring_entry (zip (zip (zip (zip indices (nth i (ti_output_heights ti) [])) (nth i (ti_P ti) []))
    (nth i (ti_C ti) [])) (nth i (ti_age_factors ti) []))) ++
  nth i (ti_nullifiers ti) [] ++ nth i (ti_balance_commitments ti) [].

Definition dao_vote_input_transcript (ti : dao_vote_transcript_input) : bytes :=
  if negb (tx_validate ti) then [] else
  SHA256 (str "VeilRoot-DAO-VOTE-INPUT-V2" ++ [0] ++ [ti_version ti] ++ ti_proposal_id ti ++
    le_bytes 8 (ti_submission_height ti) ++ le_bytes 8 (ti_vote_height ti) ++ ti_tally_key_id ti ++
    le_bytes 4 (zlen (ti_key_offsets ti)) ++
    concat (map (transcript_of_input ti) (seq 0 (length (ti_key_offsets ti)))) ++
    ti_C_W ti ++ ti_C_S ti ++ ti_C_B ti ++ ti_E_W ti ++ ti_E_S ti ++ ti_E_B ti).

Definition push_vec (v : bytes) : bytes := le_bytes 4 (zlen v) ++ v.

Definition dao_extra_binding (E_W E_S : bytes) (proof_W proof_S : dao_consistency_proof) : bytes :=
  SHA256 (str "VeilRoot-DAO-EXTRA-V1" ++ [0] ++ push_vec E_W ++ push_vec E_S ++
    push_vec (cp_e proof_W) ++ push_vec (cp_z_m proof_W) ++ push_vec (cp_z_r proof_W) ++ push_vec (cp_z_rho proof_W) ++
    push_vec (cp_e proof_S) ++ push_vec (cp_z_m proof_S) ++ push_vec (cp_z_r proof_S) ++ push_vec (cp_z_rho proof_S)).

End transcript.

(** ** The verifier *)

Record output_data_t := { od_pubkey : bytes; od_height : Z; od_commitment : bytes }.

(** Absolute indices from relative ones; [None] on overflow. *)
Fixpoint expand_offsets (acc : Z) (offs : list Z) : option (list Z) :=
  match offs with
  | [] => Some []
  | off :: offs =>
      if UINT64_MAX - off <? acc then None else
      l ← expand_offsets (acc + off) offs; Some (acc + off :: l)
  end.

Fixpoint adjacent_find (l : list Z) : bool :=
  match l with
  | x :: ((y :: _) as rest) => (x =? y) || adjacent_find rest
  | _ => false
  end.

Definition has_duplicate (l : list Z) : bool := adjacent_find (merge_sort Z.le l).

Definition check_ring (inp : vote_input_v2) : check (list Z) :=
  let n := length (vi_key_offsets inp) in
  let! _ := ensure (negb (n =? 0)%nat) 8 in
  let! _ := ensure (negb (n <? 2)%nat) 8 in
  let! _ := ensure (length (cl_s (vi_weight_signature inp)) =? n)%nat 8 in
  let! _ := ensure (length (cl_s (vi_balance_signature inp)) =? n)%nat 8 in
  let! abs := found (expand_offsets 0 (vi_key_offsets inp)) 8 in
  let! _ := ensure (negb (has_duplicate abs)) 8 in
  pass abs.

Fixpoint check_nullifiers (seen nfs : list hash) : check unit :=
  match nfs with
  | [] => pass tt
  | nf :: nfs =>
      let! _ := ensure (negb (forallb (Z.eqb 0) nf)) 13 in
      let! _ := ensure (negb (bool_decide (nf ∈ seen))) 13 in
      check_nullifiers (nf :: seen) nfs
  end.

(** Step 14: one member of a ring with its age factor. *)
Definition ring_member (outputs : Z -> option output_data_t) (vote_height idx : Z)
    : check (output_data_t * Z) :=
  let! od := found (outputs idx) 14 in
  let! _ := ensure (negb (vote_height <? od_height od)) 14 in
  let raw_age_days := (vote_height - od_height od) / 720 in
  let raw_age_days := if 7300 <? raw_age_days then 7300 else raw_age_days in
  let f := floor_log2 (raw_age_days + 1) in
  let! _ := ensure (negb (255 <? f)) 14 in
  pass (od, f).

Definition build_context (outputs : Z -> option output_data_t) (proof : vote_proof_v2) (prop : proposal_record)
    (inp : vote_input_v2) (abs : list Z) : check dao_clsag_context :=
  let! members := check_map (ring_member outputs (v2_vote_height proof)) abs in
  let! f_first := no_throw (head (map snd members)) in
  let! _ := ensure (forallb (fun '(_, f) => f =? f_first) members) 14 in
  pass {| cc_proposal_id := v2_proposal_id proof; cc_submission_height := submission_height prop;
          cc_vote_height := v2_vote_height proof; cc_tally_key_id := v2_tally_key_id proof;
          cc_P := map (fun '(od, _) => od_pubkey od) members; cc_C := map (fun '(od, _) => od_commitment od) members;
          cc_output_indices := abs; cc_output_heights := map (fun '(od, _) => od_height od) members;
          cc_age_factors := map snd members; cc_V := vi_weight_commitment inp |}.

Definition balance_context (ctx : dao_clsag_context) (inp : vote_input_v2) : dao_clsag_context :=
  {| cc_proposal_id := cc_proposal_id ctx; cc_submission_height := cc_submission_height ctx;
     cc_vote_height := cc_vote_height ctx; cc_tally_key_id := cc_tally_key_id ctx;
     cc_P := cc_P ctx; cc_C := cc_C ctx; cc_output_indices := cc_output_indices ctx;
     cc_output_heights := cc_output_heights ctx;
     cc_age_factors := replicate (length (vi_key_offsets inp)) 1; cc_V := vi_balance_commitment inp |}.

Definition valid_ct (N : Z) (raw : bytes) : bool :=
  let c := BN_bin2bn raw in
  (c <? N * N) && negb (c =? 0) && (Z.gcd c (N * N) =? 1).

Definition verifier_transcript (proof : vote_proof_v2) (prop : proposal_record) (key_rec : dao_tally_key_record)
    (ctxs : list dao_clsag_context) : dao_vote_transcript_input :=
  {| ti_version := v2_version proof; ti_proposal_id := v2_proposal_id proof;
     ti_submission_height := submission_height prop; ti_vote_height := v2_vote_height proof;
     ti_tally_key_id := tk_key_id key_rec; ti_key_offsets := map vi_key_offsets (v2_inputs proof);
     ti_absolute_indices := map cc_output_indices ctxs; ti_P := map cc_P ctxs; ti_C := map cc_C ctxs;
     ti_output_heights := map cc_output_heights ctxs; ti_age_factors := map cc_age_factors ctxs;
     ti_nullifiers := v2_nullifiers proof; ti_balance_commitments := map vi_balance_commitment (v2_inputs proof);
     ti_C_W := C_W proof; ti_C_S := C_S proof; ti_C_B := C_B proof;
     ti_E_W := E_W proof; ti_E_S := E_S proof; ti_E_B := E_B proof |}.

Definition verifier_consistency (proof : vote_proof_v2) (digest domain : bytes) : dao_consistency_context :=
  {| cx_domain := domain; cx_version := v2_version proof; cx_proposal_id := v2_proposal_id proof;
     cx_vote_height := v2_vote_height proof; cx_tally_key_id := v2_tally_key_id proof; cx_transcript := digest |}.

Section verifier.
Context `{RctOps}.

Definition verifier_direction (proof : vote_proof_v2) : dao_or_context :=
  {| oc_version := v2_version proof; oc_proposal_id := v2_proposal_id proof; oc_vote_height := v2_vote_height proof;
     oc_nullifiers := v2_nullifiers proof; oc_key_offsets := concat (map vi_key_offsets (v2_inputs proof));
     oc_extra_binding := dao_extra_binding (E_W proof) (E_S proof) (proof_W proof) (proof_S proof);
     oc_C_W := C_W proof; oc_C_S := C_S proof |}.

Definition holds (o : option bool) (step : Z) : check unit := let! ok := no_throw o in ensure ok step.

Fixpoint sum_keys (acc : bytes) (l : list bytes) : option bytes :=
  match l with
  | [] => Some acc
  | k :: l => acc ← addKeys acc k; sum_keys acc l
  end.

(** Steps 1 to 7: the vote belongs to an open proposal and its key. *)
Definition verify_proposal (proposals : gmap hash proposal_record) (d : dao_db) (proof : vote_proof_v2)
    (block_height : Z) : check (proposal_record * dao_tally_key_record) :=
  let! _ := ensure (length (v2_nullifiers proof) =? length (v2_inputs proof))%nat 1 in
  let! _ := ensure (v2_version proof =? 2) 2 in
  let! prop := found (proposals !! v2_proposal_id proof) 3 in
  let! _ := ensure (status prop =? PROPOSAL_STATUS_ACTIVE) 4 in
  let! _ := ensure (negb (block_height <? submission_height prop)) 4 in
  let! _ := ensure (negb (voting_end_height prop <? block_height)) 4 in
  let! _ := ensure (v2_vote_height proof =? block_height) 5 in
  let! _ := ensure (beq (v2_tally_key_id proof) (tally_key_id prop)) 6 in
  let! key_rec := found (get_dao_tally_key_by_id d (v2_tally_key_id proof)) 6 in
  let! _ := ensure (length (tk_key_id key_rec) =? 32)%nat 6 in
  let! _ := ensure (beq (tk_key_id key_rec) (v2_tally_key_id proof)) 6 in
  let! _ := ensure (negb (is_empty (v2_inputs proof))) 7 in
  pass (prop, key_rec).

(** Steps 8 to 19: rings, nullifiers, signatures and sums. *)
Definition verify_inputs (outputs : Z -> option output_data_t) (proof : vote_proof_v2) (prop : proposal_record)
    : check (list dao_clsag_context) :=
  let inputs := v2_inputs proof in
  let! rings := check_map check_ring inputs in
  let! _ := check_all (fun idx => let! _ := found (outputs idx) 9 in pass tt) (concat rings) in
  let! _ := check_nullifiers [] (v2_nullifiers proof) in
  let! ctxs := check_map (fun '(inp, abs) => build_context outputs proof prop inp abs) (zip inputs rings) in
  let! _ := check_all (fun '(ctx, inp) => holds (dao_clsag_verify ctx (vi_weight_signature inp)) 15)
              (zip ctxs inputs) in
  let! _ := check_all (fun '(ctx, inp) =>
              holds (dao_clsag_verify (balance_context ctx inp) (vi_balance_signature inp)) 16) (zip ctxs inputs) in
  let! _ := check_all (fun '(inp, nf) =>
              let! _ := ensure (beq (cl_I (vi_weight_signature inp)) (cl_I (vi_balance_signature inp))) 17 in
              ensure (beq nf (cl_I (vi_weight_signature inp))) 17) (zip inputs (v2_nullifiers proof)) in
  let! w := no_throw (sum_keys rct_identity (map vi_weight_commitment inputs)) in
  let! _ := ensure (beq w (C_W proof)) 18 in
  let! b := no_throw (sum_keys rct_identity (map vi_balance_commitment inputs)) in
  let! _ := ensure (beq b (C_B proof)) 19 in
  pass ctxs.

(** Steps 20 to 26: commitments, ciphertexts, and the proofs over them. *)
Definition verify_totals (proof : vote_proof_v2) (prop : proposal_record) (key_rec : dao_tally_key_record)
    (ctxs : list dao_clsag_context) : check unit :=
  let! _ := ensure (isInMainSubgroup (C_W proof)) 20 in
  let! _ := ensure (isInMainSubgroup (C_S proof)) 20 in
  let! _ := ensure (isInMainSubgroup (C_B proof)) 20 in
  let N := BN_bin2bn (tk_N key_rec) in
  let! _ := ensure ((length (E_W proof) =? PAILLIER_CT_BYTES)%nat && (length (E_S proof) =? PAILLIER_CT_BYTES)%nat &&
                    (length (E_B proof) =? PAILLIER_CT_BYTES)%nat) 21 in
  let! _ := ensure (valid_ct N (E_W proof)) 21 in
  let! _ := ensure (valid_ct N (E_S proof)) 21 in
  let! _ := ensure (valid_ct N (E_B proof)) 21 in
  let digest := dao_vote_input_transcript (verifier_transcript proof prop key_rec ctxs) in
  let! _ := ensure (length digest =? 32)%nat 26 in
  let cctx := verifier_consistency proof digest in
  let! _ := holds (dao_consistency_verify (cctx (str "C_W-Enc(W)")) N (E_W proof) (C_W proof) (proof_W proof)) 22 in
  let! _ := holds (dao_consistency_verify (cctx (str "C_S-Enc(S)")) N (E_S proof) (C_S proof) (proof_S proof)) 23 in
  let! _ := holds (dao_consistency_verify (cctx (str "C_B-Enc(B)")) N (E_B proof) (C_B proof) (proof_B proof)) 24 in
  let! _ := holds (dao_or_verify (verifier_direction proof) (direction_proof proof)) 25 in
  ensure (beq digest (transcript_hash proof)) 26.

Definition verify (outputs : Z -> option output_data_t) (proposals : gmap hash proposal_record) (d : dao_db)
    (proof : vote_proof_v2) (block_height : Z) (block_nullifiers : list hash) : check unit :=
  let! (prop, key_rec) := verify_proposal proposals d proof block_height in
  let! ctxs := verify_inputs outputs proof prop in
  let! _ := verify_totals proof prop key_rec ctxs in
  let! _ := check_all (fun nf => ensure (negb (has_vote_nullifier d (v2_proposal_id proof) nf)) 27)
              (v2_nullifiers proof) in
  check_all (fun nf => ensure (negb (bool_decide (nf ∈ block_nullifiers))) 28) (v2_nullifiers proof).

End verifier.

(** ** The wallet *)

Record dao_v2_ring_member_data := { rm_P : bytes; rm_C : bytes; rm_global_index : Z; rm_height : Z }.

Record dao_v2_vote_output := {
  vo_ring : list dao_v2_ring_member_data;
  vo_real_index : nat;
  vo_output_secret : bytes;
  vo_mask : bytes;
  vo_amount : Z;
}.

Record dao_v2_vote_source := {
  vs_P : list bytes;
  vs_C : list bytes;
  vs_output_indices : list Z;
  vs_output_heights : list Z;
  vs_key_offsets : list Z;
  vs_real_index : nat;
  vs_real_spend_secret : bytes;
  vs_real_mask : bytes;
  vs_real_amount : Z;
}.

(** The random values drawn for one output and for the vote. *)
Record input_randomness := {
  ir_rho_W : bytes; ir_rho_B : bytes;
  ir_a_W : bytes; ir_ss_W : list bytes;
  ir_a_B : bytes; ir_ss_B : list bytes;
}.

Record consistency_randomness := { cr_r : Z; cr_a_m : Z; cr_a_r : Z; cr_a_rho : bytes }.

Record vote_randomness := {
  rnd_inputs : list input_randomness;
  rnd_R_S : bytes;
  rnd_W : consistency_randomness; rnd_S : consistency_randomness; rnd_B : consistency_randomness;
  rnd_k : bytes; rnd_c_unknown : bytes; rnd_s_unknown : bytes;
}.

Definition age_factor_from_height (vote_height output_height : Z) : Z :=
  if vote_height <? output_height then 0 else
  let raw := (vote_height - output_height) / 720 in
  let raw := if 7300 <? raw then 7300 else raw in
  let f := floor_log2 (raw + 1) in
  if 255 <? f then 255 else f.

Definition scalar_from_u64 (v : Z) : bytes := le_bytes 8 v ++ replicate 24 0.

(** Offsets of a ring in 64-bit arithmetic. *)
Fixpoint relative_offsets (prev : Z) (ring : list Z) : list Z :=
  match ring with
  | [] => []
  | i :: ring => u64 (i - prev) :: relative_offsets i ring
  end.

Definition prepare_dao_v2_vote_source (o : dao_v2_vote_output) : option dao_v2_vote_source :=
  if is_empty (vo_ring o) then None else
  if (length (vo_ring o) <=? vo_real_index o)%nat then None else
  Some {| vs_P := map rm_P (vo_ring o); vs_C := map rm_C (vo_ring o);
          vs_output_indices := map rm_global_index (vo_ring o); vs_output_heights := map rm_height (vo_ring o);
          vs_key_offsets := relative_offsets 0 (map rm_global_index (vo_ring o));
          vs_real_index := vo_real_index o; vs_real_spend_secret := vo_output_secret o;
          vs_real_mask := vo_mask o; vs_real_amount := vo_amount o |}.

Definition source_well_formed (s : dao_v2_vote_source) : bool :=
  let n := length (vs_P s) in
  negb (n =? 0)%nat && (n =? length (vs_C s))%nat && (length (vs_output_indices s) =? n)%nat &&
  (length (vs_output_heights s) =? n)%nat && (length (vs_key_offsets s) =? n)%nat && (vs_real_index s <? n)%nat.

(** The running values of the loop over the sources. *)
Record vote_totals := {
  vt_C_W : bytes; vt_C_B : bytes; vt_R_W : bytes; vt_R_B : bytes; vt_W_total : Z; vt_B_total : Z;
}.

Section wallet.
Context `{RctOps}.

Definition source_context (proposal_id : hash) (submission_height vote_height : Z) (tally_key_id : hash)
    (s : dao_v2_vote_source) (V : bytes) (factors : list Z) : dao_clsag_context :=
  {| cc_proposal_id := proposal_id; cc_submission_height := submission_height; cc_vote_height := vote_height;
     cc_tally_key_id := tally_key_id; cc_P := vs_P s; cc_C := vs_C s; cc_output_indices := vs_output_indices s;
     cc_output_heights := vs_output_heights s; cc_age_factors := factors; cc_V := V |}.

(** One iteration: the input it adds, and the totals after it. *)
Definition build_input (proposal_id : hash) (submission_height vote_height : Z) (tally_key_id : hash)
    (s : dao_v2_vote_source) (r : input_randomness) (t : vote_totals) : option (vote_input_v2 * vote_totals) :=
  let age_factors := map (age_factor_from_height vote_height) (vs_output_heights s) in
  f_real ← age_factors !! vs_real_index s;
  C_real ← commit (vs_real_amount s) (vs_real_mask s);
  C_ring ← vs_C s !! vs_real_index s;
  if negb (beq C_real C_ring) then None else
  let f_scalar := scalar_from_u64 f_real in
  fC ← scalarmultKey C_real f_scalar;
  V_i ← addKeys fC (scalarmultBase (ir_rho_W r));
  B_i ← addKeys C_real (scalarmultBase (ir_rho_B r));
  C_W ← addKeys (vt_C_W t) V_i;
  C_B ← addKeys (vt_C_B t) B_i;
  let R_W := sc_add (vt_R_W t) (sc_add (sc_mul f_scalar (vs_real_mask s)) (ir_rho_W r)) in
  let R_B := sc_add (vt_R_B t) (sc_add (vs_real_mask s) (ir_rho_B r)) in
  let cc := source_context proposal_id submission_height vote_height tally_key_id s in
  w_sig ← dao_clsag_generate (cc V_i age_factors) (vs_real_index s) (vs_real_spend_secret s) (ir_rho_W r)
            (ir_a_W r) (ir_ss_W r);
  b_sig ← dao_clsag_generate (cc B_i (replicate (length (vs_P s)) 1)) (vs_real_index s) (vs_real_spend_secret s)
            (ir_rho_B r) (ir_a_B r) (ir_ss_B r);
  if negb (beq (cl_I w_sig) (cl_I b_sig)) then None else
  Some ({| vi_key_offsets := vs_key_offsets s; vi_weight_commitment := V_i; vi_weight_signature := w_sig;
           vi_balance_commitment := B_i; vi_balance_signature := b_sig |},
        {| vt_C_W := C_W; vt_C_B := C_B; vt_R_W := R_W; vt_R_B := R_B;
           vt_W_total := u64 (vt_W_total t + u64 (f_real * vs_real_amount s));
           vt_B_total := u64 (vt_B_total t + vs_real_amount s) |}).

(** One set of random values per source. *)
Fixpoint build_inputs (proposal_id : hash) (submission_height vote_height : Z) (tally_key_id : hash)
    (sources : list dao_v2_vote_source) (rs : list input_randomness) (t : vote_totals)
    : option (list vote_input_v2 * vote_totals) :=
  match sources, rs with
  | [], _ => Some ([], t)
  | _ :: _, [] => None
  | s :: sources, r :: rs =>
      '(inp, t) ← build_input proposal_id submission_height vote_height tally_key_id s r t;
      '(inps, t) ← build_inputs proposal_id submission_height vote_height tally_key_id sources rs t;
      Some (inp :: inps, t)
  end.

Definition no_totals : vote_totals :=
  {| vt_C_W := rct_identity; vt_C_B := rct_identity; vt_R_W := replicate 32 0; vt_R_B := replicate 32 0;
     vt_W_total := 0; vt_B_total := 0 |}.

Definition input_nullifier (inp : vote_input_v2) : hash := cl_I (vi_weight_signature inp).

Definition wallet_transcript (proposal_id : hash) (submission_height vote_height : Z) (tally_key_id : hash)
    (sources : list dao_v2_vote_source) (inputs : list vote_input_v2) (t : vote_totals) (C_S E_W E_S E_B : bytes)
    : dao_vote_transcript_input :=
  {| ti_version := 2; ti_proposal_id := proposal_id; ti_submission_height := submission_height;
     ti_vote_height := vote_height; ti_tally_key_id := tally_key_id;
     ti_key_offsets := map vs_key_offsets sources; ti_absolute_indices := map vs_output_indices sources;
     ti_P := map vs_P sources; ti_C := map vs_C sources; ti_output_heights := map vs_output_heights sources;
     ti_age_factors := map (fun s => map (age_factor_from_height vote_height) (vs_output_heights s)) sources;
     ti_nullifiers := map input_nullifier inputs; ti_balance_commitments := map vi_balance_commitment inputs;
     ti_C_W := vt_C_W t; ti_C_S := C_S; ti_C_B := vt_C_B t; ti_E_W := E_W; ti_E_S := E_S; ti_E_B := E_B |}.

(** After the loop: the signed weight, the encryptions and the proofs. *)
Definition finish_vote (proposal_id : hash) (submission_height vote_height : Z) (tally_key_id : hash)
    (ppk : PaillierPublicKey) (N direction : Z) (sources : list dao_v2_vote_source) (rnd : vote_randomness)
    (inputs : list vote_input_v2) (t : vote_totals) : option vote_proof_v2 :=
  let nullifiers := map input_nullifier inputs in
  let is_yes := direction =? 0 in
  let W := vt_W_total t in
  let B := vt_B_total t in
  let S_signed := if negb is_yes && negb (W =? 0) then - W else W in
  let S_paillier := if negb is_yes && negb (W =? 0) then N - W else W in
  SH ← scalarmultKey rct_H (bn_to_scalar_reduced S_signed);
  C_S ← addKeys SH (scalarmultBase (rnd_R_S rnd));
  E_W ← encrypt ppk W (cr_r (rnd_W rnd));
  E_S ← encrypt ppk S_paillier (cr_r (rnd_S rnd));
  E_B ← encrypt ppk B (cr_r (rnd_B rnd));
  let digest := dao_vote_input_transcript (wallet_transcript proposal_id submission_height vote_height tally_key_id
    sources inputs t C_S E_W E_S E_B) in
  if negb (length digest =? 32)%nat then None else
  let cctx domain := {| cx_domain := domain; cx_version := 2; cx_proposal_id := proposal_id;
    cx_vote_height := vote_height; cx_tally_key_id := tally_key_id; cx_transcript := digest |} in
  let prove domain E C m r rho :=
    dao_consistency_prove (cctx domain) N E C m (cr_r r) rho (cr_a_m r) (cr_a_r r) (cr_a_rho r) in
  proof_W ← prove (str "C_W-Enc(W)") E_W (vt_C_W t) W (rnd_W rnd) (vt_R_W t);
  proof_S ← prove (str "C_S-Enc(S)") E_S C_S S_signed (rnd_S rnd) (rnd_R_S rnd);
  proof_B ← prove (str "C_B-Enc(B)") E_B (vt_C_B t) B (rnd_B rnd) (vt_R_B t);
  let octx := {| oc_version := 2; oc_proposal_id := proposal_id; oc_vote_height := vote_height;
    oc_nullifiers := nullifiers; oc_key_offsets := concat (map vi_key_offsets inputs);
    oc_extra_binding := dao_extra_binding E_W E_S proof_W proof_S; oc_C_W := vt_C_W t; oc_C_S := C_S |} in
  direction_proof ← dao_or_prove octx is_yes (rnd_R_S rnd) (vt_R_W t) (rnd_k rnd) (rnd_c_unknown rnd)
    (rnd_s_unknown rnd);
  Some {| v2_version := 2; v2_proposal_id := proposal_id; v2_vote_height := vote_height;
          v2_tally_key_id := tally_key_id; v2_inputs := inputs; v2_nullifiers := nullifiers;
          TxExtra.C_W := vt_C_W t; TxExtra.C_S := C_S; TxExtra.C_B := vt_C_B t;
          TxExtra.E_W := E_W; TxExtra.E_S := E_S; TxExtra.E_B := E_B;
          TxExtra.proof_W := proof_W; TxExtra.proof_S := proof_S; TxExtra.proof_B := proof_B;
          TxExtra.direction_proof := direction_proof; transcript_hash := digest |}.

Definition build_dao_v2_vote (proposal_id : hash) (submission_height vote_height : Z) (tally_key_id : hash)
    (paillier_modulus : bytes) (direction : Z) (sources : list dao_v2_vote_source) (rnd : vote_randomness)
    : option vote_proof_v2 :=
  if 1 <? direction then None else
  if is_empty sources then None else
  if negb (length paillier_modulus =? 256)%nat then None else
  if negb (forallb source_well_formed sources) then None else
  ppk ← deserialize_modulus paillier_modulus;
  let N := BN_bin2bn paillier_modulus in
  '(inputs, t) ← build_inputs proposal_id submission_height vote_height tally_key_id
     sources (rnd_inputs rnd) no_totals;
  finish_vote proposal_id submission_height vote_height tally_key_id ppk N direction sources rnd inputs t.

End wallet.
