(* ===== verification/VoteProofComplete.v ===== *)
(** * The proofs of an encrypted vote are complete

    What a prover builds from a witness, the verifier accepts: the ring
    signature, the proof of a hidden direction and the proof that ciphertext and
    commitment hold the same value. *)

From stdpp Require Import base list gmap.
From Stdlib Require Import ZArith Lia Zpow_facts Zcong.
From Stdlib Require Import Zmod Zstar.
From S2P Require Import Prelude TxExtra Curve Paillier Threshold VotingWeight VoteV2 VoteProof.
Open Scope Z_scope.

(** ** Points and scalars *)

Section points.
Context `{RctLaws}.

Definition is_point (p : bytes) : Prop := exists x t, p = point x t.

Lemma point_congr x t y u : x ≡[ell] y -> t ≡[8] u -> point x t = point y u.
Proof. intros [E] [F]. by apply point_eq. Qed.

Lemma zero_scalar : scalar (replicate 32 0) /\ le_val (replicate 32 0) = 0.
Proof. split; [|done]. split; [done|]. split; [by apply Forall_replicate|by vm_compute]. Qed.

Lemma le_val_pad l n : le_val (l ++ replicate n 0) = le_val l.
Proof.
  induction l as [|x l IH]; cbn [app le_val]; [|by rewrite IH].
  induction n as [|n IH]; [done|]. cbn [replicate le_val]. by rewrite IH.
Qed.

Lemma small_scalar n v : (n <= 32)%nat -> 0 <= v < 256 ^ Z.of_nat n -> v < ell ->
  scalar (le_bytes n v ++ replicate (32 - n) 0) /\ le_val (le_bytes n v ++ replicate (32 - n) 0) = v.
Proof.
  intros Hn Hv He. unfold scalar. rewrite le_val_pad, le_val_le_bytes_id by done. split; [|done].
  split; [rewrite length_app, length_le_bytes, length_replicate; lia|]. split; [|done].
  apply Forall_app. split; [apply le_bytes_byte|]. by apply Forall_replicate.
Qed.

Lemma hash_to_scalar_ok l : scalar (hash_to_scalar l).
Proof.
  unfold hash_to_scalar. destruct (keccak_bytes (concat l)) as [Hl Hb].
  by destruct (sc_reduce32_val _ Hl Hb).
Qed.

Lemma scalarmultBase_scalar a : scalar a -> scalarmultBase a = point (le_val a) 0.
Proof. intros (Hl & Hb & _). by apply scalarmultBase_point. Qed.

Lemma hash_point P pid : dao_hash_to_point P pid = point (log_hash (keccak (str "VeilRoot-DAO-VOTE-V2" ++ pid ++ P))) 0.
Proof. apply map_to_point_main. Qed.

End points.

(** ** Ring signatures *)

Section clsag.
Context `{RctLaws}.

Lemma weighted_commitment_point x t f : 0 <= f < 256 ->
  weighted_commitment (point x t) f = Some (point (f * x) (f * t)).
Proof.
  intros Hf. unfold weighted_commitment. case_match; to_prop; [subst; by rewrite identity_point|].
  destruct (sc_reduce32_val (f :: replicate 31 0)) as [S V]; [done| |].
  - constructor; [done|]. by apply Forall_replicate.
  - rewrite scalarmultKey_point, V by done. f_equal. 
    assert (le_val (f :: replicate 31 0) = f) as -> by (vm_compute (le_val (replicate 31 0)); cbn; lia).
    assert (f mod ell = f) as -> by (apply Z.mod_small; split; [lia|]; apply Z.lt_le_trans with 256; [lia|by vm_compute]).
    done.
Qed.

Lemma round_total e s P C' c :
  scalar s -> scalar c -> is_point P -> is_point C' -> is_point (ce_I e) -> is_point (ce_D e) ->
  scalar (ce_mu_P e) -> scalar (ce_mu_C e) ->
  exists c', clsag_round e s P C' c = Some c' /\ scalar c'.
Proof.
  intros Ss Sc (x & t & ->) (y & u & ->) (i & ti & HI) (d & td & HD) SP SC. unfold clsag_round.
  destruct (sc_mul_val _ _ SP Sc) as [S1 _], (sc_mul_val _ _ SC Sc) as [S2 _].
  rewrite HI, HD, hash_point, aGbBcC_point, aAbBcC_point by done. cbn [mbind option_bind].
  eexists. split; [done|]. apply hash_to_scalar_ok.
Qed.

(** The signer's loop computes the verifier's rounds after the real member, and
    then those before it. *)
Section loop.
Context (e : clsag_env) (ss Ps Cs : list bytes) (n real : nat).
Context (Hss : length ss = n) (HPs : length Ps = n) (HCs : length Cs = n) (Hreal : (real < n)%nat).

Definition ring_rows : list (bytes * bytes * bytes) := zip (zip ss Ps) Cs.

Lemma ring_rows_lookup i : (i < n)%nat ->
  exists s P C', ss !! i = Some s /\ Ps !! i = Some P /\ Cs !! i = Some C' /\ ring_rows !! i = Some (s, P, C').
Proof.
  intros Hi. destruct (lookup_lt_is_Some_2 ss i) as [s Es]; [lia|].
  destruct (lookup_lt_is_Some_2 Ps i) as [P EP]; [lia|]. destruct (lookup_lt_is_Some_2 Cs i) as [C' EC]; [lia|].
  exists s, P, C'. split_and!; try done. unfold ring_rows.
  rewrite !lookup_zip_with, Es, EP, EC. done.
Qed.

Lemma length_ring_rows : length ring_rows = n.
Proof. unfold ring_rows. rewrite !length_zip_with. lia. Qed.

Lemma gen_above k : forall i c c1 c' fuel, (i + k = n)%nat -> (real < i)%nat ->
  verify_rounds e (drop i ring_rows) c = Some c' ->
  gen_loop e ss Ps Cs n real (k + fuel) (i mod n) c (if (i mod n =? 0)%nat then c else c1) =
  gen_loop e ss Ps Cs n real fuel 0 c' c'.
Proof.
  induction k as [|k IH]; intros i c c1 c' fuel Hi Hr E.
  - assert (i = n) as -> by lia. rewrite drop_ge in E by (rewrite length_ring_rows; lia).
    injection E as <-. by rewrite Nat.Div0.mod_same.
  - destruct (ring_rows_lookup i) as (s & P & C' & Es & EP & EC & El); [lia|].
    rewrite (drop_S _ _ _ El) in E. cbn [verify_rounds] in E.
    apply bind_Some in E as (c2 & E2 & E). rewrite Nat.mod_small by lia.
    rewrite (proj2 (Nat.eqb_neq i 0)) by lia. cbn [gen_loop Nat.add].
    rewrite (proj2 (Nat.eqb_neq i real)) by lia. rewrite Es, EP, EC. cbn [mbind option_bind].
    rewrite E2. cbn [mbind option_bind]. rewrite Nat.add_1_r. apply IH; [lia|lia|done].
Qed.

Lemma gen_below k : forall i c c1 c', (i + k = real)%nat ->
  verify_rounds e (take k (drop i ring_rows)) c = Some c' ->
  gen_loop e ss Ps Cs n real (S k) i c c1 = Some (c', c1).
Proof.
  induction k as [|k IH]; intros i c c1 c' Hi E.
  - assert (i = real) as -> by lia. injection E as <-. cbn. by rewrite Nat.eqb_refl.
  - destruct (ring_rows_lookup i) as (s & P & C' & Es & EP & EC & El); [lia|].
    rewrite (drop_S _ _ _ El) in E. cbn [verify_rounds take] in E.
    apply bind_Some in E as (c2 & E2 & E). cbn [gen_loop].
    rewrite (proj2 (Nat.eqb_neq i real)) by lia. rewrite Es, EP, EC. cbn [mbind option_bind].
    rewrite E2. cbn [mbind option_bind]. rewrite (Nat.mod_small (i + 1)) by lia.
    rewrite (proj2 (Nat.eqb_neq (i + 1) 0)) by lia. rewrite Nat.add_1_r. apply IH; [lia|done].
Qed.

Definition row_ok (r : bytes * bytes * bytes) : Prop :=
  let '(s, P, C') := r in scalar s /\ is_point P /\ is_point C'.

Record env_ok : Prop := {
  eo_I : is_point (ce_I e); eo_D : is_point (ce_D e); eo_mu_P : scalar (ce_mu_P e); eo_mu_C : scalar (ce_mu_C e);
}.

Lemma rounds_total (He : env_ok) l c : Forall row_ok l -> scalar c ->
  exists c', verify_rounds e l c = Some c' /\ scalar c'.
Proof.
  intros F. revert c. induction F as [|[[s P] C'] l (Ss & HP & HC) _ IH]; intros c Sc; [by exists c|].
  destruct He. destruct (round_total e s P C' c) as (c2 & E2 & S2); [done..|].
  cbn [verify_rounds]. rewrite E2. by apply IH.
Qed.

Lemma gen_loop_spec c c0 : env_ok -> Forall row_ok ring_rows -> scalar c ->
  exists c_real c1, scalar c_real /\ scalar c1 /\
    gen_loop e ss Ps Cs n real n ((real + 1) mod n) c (if ((real + 1) mod n =? 0)%nat then c else c0) =
      Some (c_real, c1) /\
    verify_rounds e (drop (S real) ring_rows) c = Some c1 /\
    verify_rounds e (take real ring_rows) c1 = Some c_real.
Proof.
  intros He F Sc.
  destruct (rounds_total He (drop (S real) ring_rows) c) as (c1 & E1 & S1); [by apply Forall_drop|done|].
  destruct (rounds_total He (take real ring_rows) c1) as (c_real & E2 & S2); [by apply Forall_take|done|].
  exists c_real, c1. split_and!; try done.
  pose proof (gen_above (n - S real) (S real) c c0 c1 (real + 1) ltac:(lia) ltac:(lia) E1) as G.
  rewrite Nat.add_1_r in *. replace (n - S real + S real)%nat with n in G by lia. rewrite G.
  apply gen_below; [lia|]. by rewrite drop_0.
Qed.

End loop.

Lemma verify_rounds_app e l1 l2 c : verify_rounds e (l1 ++ l2) c = verify_rounds e l1 c ≫= verify_rounds e l2.
Proof.
  revert c. induction l1 as [|[[s P] C'] l1 IH]; intros c; [done|]. cbn [app verify_rounds].
  destruct (clsag_round e s P C' c); [|done]. cbn. apply IH.
Qed.

(** The verifier's rows are the signer's with the computed response at the real
    member. *)
Lemma rows_insert ss Ps Cs real sr P C' : Ps !! real = Some P -> Cs !! real = Some C' -> (real < length ss)%nat ->
  zip (zip (<[real := sr]> ss) Ps) Cs =
  take real (ring_rows ss Ps Cs) ++ (sr, P, C') :: drop (S real) (ring_rows ss Ps Cs).
Proof.
  intros EP EC Hr. unfold ring_rows. rewrite <- insert_take_drop.
  - rewrite (insert_zip_with pair (zip ss Ps) Cs real (sr, P) C').
    rewrite (insert_zip_with pair ss Ps real sr P). by rewrite (list_insert_id Ps _ P), (list_insert_id Cs _ C') by done.
  - rewrite !length_zip_with. apply lookup_lt_Some in EP, EC. lia.
Qed.

(** At the real member the round gives back the nonce's points.  [t] is the part
    of the key image outside the main subgroup. *)
Lemma real_round e P C' x z a c w t :
  scalar x -> scalar z -> scalar a -> scalar c -> scalar (ce_mu_P e) -> scalar (ce_mu_C e) ->
  P = point (le_val x) 0 -> C' = point (le_val z) 0 -> dao_hash_to_point P (ce_proposal_id e) = point w 0 ->
  ce_I e = point (le_val x * w) t -> ce_D e = point (le_val z * w) 0 ->
  le_val (sc_mul (ce_mu_P e) c) * t ≡[8] 0 ->
  clsag_round e (sc_mulsub c (sc_muladd (ce_mu_C e) z (sc_mul (ce_mu_P e) x)) a) P C' c =
  Some (hash_to_scalar (ce_prefix e ++ [point (le_val a) 0; point (le_val a * w) 0])).
Proof.
  intros Sx Sz Sa Sc SP SC EP EC Ew EI ED Ht. unfold clsag_round. rewrite Ew, EI, ED. subst P C'.
  destruct (sc_mul_val _ _ SP Sc) as [S1 V1], (sc_mul_val _ _ SC Sc) as [S2 V2], (sc_mul_val _ _ SP Sx) as [S3 V3].
  destruct (sc_muladd_val _ _ _ SC Sz S3) as [S4 V4], (sc_mulsub_val _ _ _ Sc S4 Sa) as [S5 V5].
  rewrite aGbBcC_point, aAbBcC_point by done. cbn [mbind option_bind].
  do 3 f_equal. f_equal; [|f_equal].
  - apply point_congr; [|congr_ring]. rewrite V5, V4, V3, V2, V1. congr_ring.
  - apply point_congr.
    + rewrite V5, V4, V3, V2, V1. congr_ring.
    + rewrite Ht. congr_ring.
Qed.

(** A ring the signer can sign for: the key [x] opens the real member, and the
    commitment [V] is the weighted commitment of that member, blinded by [rho]. *)
Record ring_ok (ctx : dao_clsag_context) (real : nat) (x rho : bytes) : Prop := {
  rg_shape : context_well_formed ctx (length (cc_P ctx)) = true;
  rg_P : Forall is_point (cc_P ctx);
  rg_C : Forall is_point (cc_C ctx);
  rg_factors : Forall (fun f => 0 <= f < 256) (cc_age_factors ctx);
  rg_x : scalar x;
  rg_rho : scalar rho;
  rg_key : cc_P ctx !! real = Some (point (le_val x) 0);
  rg_opens : exists c u f, cc_C ctx !! real = Some (point c u) /\ cc_age_factors ctx !! real = Some f /\
    cc_V ctx = point (f * c + le_val rho) (f * u);
}.

Lemma mapM_points {A} (f : A -> option bytes) (P : A -> Prop) l :
  (forall a, P a -> exists p, f a = Some p /\ is_point p) -> Forall P l ->
  exists ps, mapM f l = Some ps /\ Forall is_point ps /\ length ps = length l.
Proof.
  intros Hf. induction 1 as [|a l Ha _ (ps & E & F & L)]; [by exists []|].
  destruct (Hf a Ha) as (p & Ep & Hp). exists (p :: ps). cbn. rewrite Ep, E. cbn. split_and!; auto.
Qed.

Lemma mapM_at {A B} (f : A -> option B) l bs i a : mapM f l = Some bs -> l !! i = Some a -> bs !! i = f a.
Proof.
  intros E%mapM_Some Hi. destruct (Forall2_lookup_l _ _ _ _ _ E Hi) as (b & -> & ->). done.
Qed.

Lemma shape_lengths ctx n : context_well_formed ctx n = true ->
  (0 < n)%nat /\ length (cc_P ctx) = n /\ length (cc_C ctx) = n /\ length (cc_age_factors ctx) = n.
Proof. unfold context_well_formed. rewrite !andb_true_iff, negb_true_iff, Nat.ltb_ge, !Nat.eqb_eq. lia. Qed.

(** The weighted commitments minus [V]; at the real member only the blinding is
    left. *)
Lemma ring_points ctx real x rho : ring_ok ctx real x rho ->
  exists Q C_prime, compute_weighted_commitments ctx = Some Q /\
    mapM (fun q => subKeys q (cc_V ctx)) Q = Some C_prime /\ Forall is_point C_prime /\
    length C_prime = length (cc_P ctx) /\ C_prime !! real = Some (point (- le_val rho) 0).
Proof.
  intros [Sh _ HC Hf _ _ _ (c & u & f & Ec & Ef & EV)]. apply shape_lengths in Sh as (_ & _ & LC & LF).
  destruct (mapM_points (fun '(C, f) => weighted_commitment C f) (fun '(C, f) => is_point C /\ 0 <= f < 256)
    (zip (cc_C ctx) (cc_age_factors ctx))) as (Q & EQ & FQ & LQ).
  - intros [C g] [(y & t & ->) Hg]. rewrite weighted_commitment_point by done. eexists. split; [done|]. by eexists _, _.
  - apply Forall_lookup_2. intros i [C g] E. rewrite lookup_zip_with in E.
    apply bind_Some in E as (C1 & E1 & E). apply bind_Some in E as (g1 & E2 & E). simplify_eq.
    split; [by apply (Forall_lookup_1 _ _ _ _ HC E1)|by apply (Forall_lookup_1 _ _ _ _ Hf E2)].
  - destruct (mapM_points (fun q => subKeys q (cc_V ctx)) is_point Q) as (C' & EC & FC & LC'); [|done|].
    + intros q (y & t & ->). rewrite EV, subKeys_point. eexists. split; [done|]. by eexists _, _.
    + exists Q, C'. split_and!; try done.
      * rewrite LC', LQ, length_zip_with. lia.
      * assert (Q !! real = Some (point (f * c) (f * u))) as HQ.
        { rewrite (mapM_at _ _ _ real (point c u, f) EQ).
          - apply weighted_commitment_point. by apply (Forall_lookup_1 _ _ _ _ Hf Ef).
          - by rewrite lookup_zip_with, Ec, Ef. }
        rewrite (mapM_at _ _ _ real _ EC HQ), EV, subKeys_point. f_equal. f_equal; lia.
Qed.

(** What the signer draws: a nonce and a response per member. *)
Definition nonces_ok (ctx : dao_clsag_context) (a : bytes) (ss : list bytes) : Prop :=
  scalar a /\ length ss = length (cc_P ctx) /\ Forall scalar ss.

Lemma setup_ok ctx Q N D D_full : is_point N -> is_point D_full -> env_ok (clsag_setup ctx Q N D D_full).
Proof. intros HN HD. split; try done; apply hash_to_scalar_ok. Qed.

Lemma rows_ok ss Ps Cs : Forall scalar ss -> Forall is_point Ps -> Forall is_point Cs ->
  Forall row_ok (ring_rows ss Ps Cs).
Proof.
  intros Fs FP FC. apply Forall_lookup_2. intros i [[s P] C'] E. unfold ring_rows in E.
  rewrite !lookup_zip_with in E. apply bind_Some in E as (sP & E1 & E). apply bind_Some in E as (C1 & E2 & E).
  apply bind_Some in E1 as (s1 & E3 & E4). apply bind_Some in E4 as (P1 & E4 & E5). simplify_eq.
  split; [by apply (Forall_lookup_1 _ _ _ _ Fs E3)|].
  split; [by apply (Forall_lookup_1 _ _ _ _ FP E4)|by apply (Forall_lookup_1 _ _ _ _ FC E2)].
Qed.

(** Every key of the signature has 32 bytes. *)
Definition clsag_keys (sig : clsag) : Prop :=
  Forall (fun k => length k = 32%nat) (cl_s sig) /\ length (cl_c1 sig) = 32%nat /\ length (cl_I sig) = 32%nat /\
  length (cl_D sig) = 32%nat.

(** A signature with the key image moved by [t] outside the main subgroup passes
    when the challenge at the real member cancels [t]. *)
Lemma sign_verifies ctx real x rho z a ss Q C_prime w t D :
  ring_ok ctx real x rho -> nonces_ok ctx a ss ->
  compute_weighted_commitments ctx = Some Q -> mapM (fun q => subKeys q (cc_V ctx)) Q = Some C_prime ->
  Forall is_point C_prime -> length C_prime = length (cc_P ctx) -> C_prime !! real = Some (point (le_val z) 0) ->
  scalar z -> dao_hash_to_point (point (le_val x) 0) (cc_proposal_id ctx) = point w 0 ->
  let N := point (le_val x * w) t in
  let D_full := point (le_val z * w) 0 in
  scalarmult8 D = Some D_full -> length D = 32%nat -> N <> rct_identity -> D_full <> rct_identity ->
  exists sig c_real, scalar c_real /\ cl_I sig = N /\ length (cl_s sig) = length (cc_P ctx) /\ clsag_keys sig /\
    clsag_sign ctx real x z a ss Q C_prime N D D_full (point (le_val a) 0) (point (le_val a * w) 0) = Some sig /\
    (le_val (sc_mul (ce_mu_P (clsag_setup ctx Q N D D_full)) c_real) * t ≡[8] 0 -> dao_clsag_verify ctx sig = Some true).
Proof.
  intros R (Sa & Ls & Fs) EQ EC FC LC Ereal Sz Hw N D_full ED LD HN HD.
  pose proof (lookup_lt_Some _ _ _ (rg_key _ _ _ _ R)) as Hreal.
  set (e := clsag_setup ctx Q N D D_full). set (l := ring_rows ss (cc_P ctx) C_prime).
  assert (env_ok e) as He by (apply setup_ok; by eexists _, _).
  destruct (gen_loop_spec e ss (cc_P ctx) C_prime (length (cc_P ctx)) real Ls eq_refl LC Hreal
    (hash_to_scalar (ce_prefix e ++ [point (le_val a) 0; point (le_val a * w) 0])) (replicate 32 0) He)
    as (c_real & c1 & Sr & S1 & G & V1 & V2); [by apply rows_ok; [|apply (rg_P _ _ _ _ R)|]|apply hash_to_scalar_ok|].
  fold l in V1, V2.
  set (sr := sc_mulsub c_real (sc_muladd (ce_mu_C e) z (sc_mul (ce_mu_P e) x)) a).
  exists {| cl_s := <[real := sr]> ss; cl_c1 := c1; cl_I := N; cl_D := D |}, c_real.
  destruct He as [HI HDf SP SC].
  assert (scalar sr) as Ssr by (apply sc_mulsub_val; [done| |done]; apply sc_muladd_val; [done|done|];
    apply sc_mul_val; [done|apply (rg_x _ _ _ _ R)]).
  split; [done|]. split; [done|]. split; [cbn; by rewrite length_insert|]. split; [|split].
  { split_and!; cbn; [|by destruct S1|apply length_point|done]. apply Forall_insert; [|by destruct Ssr].
    eapply Forall_impl; [exact Fs|]. by intros y [? _]. }
  { unfold clsag_sign. fold e. rewrite G. cbn [mbind option_bind]. fold sr. by rewrite take_ge by lia. }
  intros Ht. unfold dao_clsag_verify. cbn [cl_s cl_c1 cl_I cl_D]. rewrite length_insert, Ls, (rg_shape _ _ _ _ R).
  assert (forallb sc_check (<[real:=sr]> ss) = true) as ->.
  { apply Is_true_eq_true, forallb_True, Forall_insert; [|by rewrite sc_check_true].
    eapply Forall_impl; [exact Fs|]. intros y Hy. by rewrite sc_check_true. }
  rewrite sc_check_true, (proj2 (beq_false N rct_identity)), ED by done. cbn [negb mbind option_bind].
  rewrite (proj2 (beq_false D_full rct_identity)), EQ by done. cbn [mbind option_bind]. rewrite EC.
  cbn [mbind option_bind]. fold e.
  rewrite (rows_insert ss (cc_P ctx) C_prime real sr _ _ (rg_key _ _ _ _ R) Ereal) by lia. fold l.
  rewrite verify_rounds_app, V2. cbn [mbind option_bind verify_rounds]. unfold sr.
  rewrite (real_round e _ _ x z a c_real w t (rg_x _ _ _ _ R) Sz Sa Sr SP SC eq_refl eq_refl Hw eq_refl eq_refl Ht).
  cbn [mbind option_bind]. rewrite V1. cbn [mbind option_bind]. by rewrite beq_refl.
Qed.

(** The key image of a member for a proposal. *)
Definition key_image (P : bytes) (pid : hash) (x : bytes) : option bytes := scalarmultKey (dao_hash_to_point P pid) x.

(** An honest signature verifies, and its key image is that of the real member. *)
Lemma clsag_complete ctx real x rho a ss P :
  ring_ok ctx real x rho -> nonces_ok ctx a ss -> cc_P ctx !! real = Some P ->
  key_image P (cc_proposal_id ctx) x <> Some rct_identity ->
  key_image P (cc_proposal_id ctx) rho <> Some rct_identity ->
  exists sig, dao_clsag_generate ctx real x rho a ss = Some sig /\
    Some (cl_I sig) = key_image P (cc_proposal_id ctx) x /\ length (cl_s sig) = length (cc_P ctx) /\ clsag_keys sig /\
    dao_clsag_verify ctx sig = Some true.
Proof.
  intros R Hn EP HN HD. pose proof R as [Sh FP _ _ Sx Sr Hkey _]. rewrite Hkey in EP. injection EP as <-.
  destruct (ring_points ctx real x rho R) as (Q & C' & EQ & EC & FC & LC & Ereal).
  unfold key_image in *. set (z := sc_sub (replicate 32 0) rho).
  destruct zero_scalar as [S0 V0]. destruct (sc_sub_val _ _ S0 Sr) as [Sz Vz]. fold z in Sz, Vz. rewrite V0 in Vz.
  set (w := log_hash (keccak (str "VeilRoot-DAO-VOTE-V2" ++ cc_proposal_id ctx ++ point (le_val x) 0))).
  assert (dao_hash_to_point (point (le_val x) 0) (cc_proposal_id ctx) = point w 0) as Hw by apply hash_point.
  rewrite Hw, scalarmultKey_point, Z.mul_0_r in HN |- * by done. rewrite Hw, scalarmultKey_point, Z.mul_0_r in HD by done.
  assert (point (le_val z * w) 0 <> rct_identity) as HD'.
  { intros E. apply HD. f_equal. rewrite identity_point in E |- *. apply point_eq in E as [E _].
    apply congr_iff in E. apply point_congr; [|done].
    transitivity (0 - le_val z * w); [rewrite Vz; congr_ring|rewrite E; congr_ring]. }
  destruct (sign_verifies ctx real x rho z a ss Q C' w 0 (point (le_val INV_EIGHT * (le_val z * w)) 0))
    as (sig & c & Sc & EI & Ls & Lk & Esig & Hv); try done.
  - rewrite Ereal. f_equal. apply point_congr; [|done]. rewrite Vz. congr_ring.
  - rewrite scalarmult8_point. f_equal. apply point_congr; [|done].
    pose proof INV_EIGHT_inverse as I8. transitivity ((8 * le_val INV_EIGHT) mod ell * (le_val z * w)); [congr_ring|].
    rewrite I8. congr_ring.
  - apply length_point.
  - congruence.
  - exists sig. split; [|split; [by rewrite EI|split; [done|split; [done|apply Hv; congr_ring]]]].
    unfold dao_clsag_generate. rewrite Sh, (proj2 (Nat.leb_gt _ _)) by by apply lookup_lt_Some in Hkey.
    rewrite EQ. cbn [negb mbind option_bind]. rewrite EC. cbn [mbind option_bind]. fold z. rewrite Hkey.
    cbn [mbind option_bind]. rewrite Hw.
    destruct Hn as (Sa & _ & _). rewrite !scalarmultKey_point by done. cbn [mbind option_bind].
    rewrite scalarmultKey_point by apply INV_EIGHT_scalar. cbn [mbind option_bind].
    rewrite (scalarmultBase_scalar a Sa), !Z.mul_0_r. done.
Qed.

End clsag.

(** ** The hidden direction *)

Lemma scalar_eq a b : scalar a -> scalar b -> le_val a = le_val b -> a = b.
Proof.
  intros (La & Ba & _) (Lb & Bb & _) E. rewrite <- (le_bytes_le_val a Ba), <- (le_bytes_le_val b Bb). congruence.
Qed.

Lemma scalar_length a : scalar a -> length a = 32%nat.
Proof. by intros [? _]. Qed.

Section direction.
Context `{RctLaws}.

Lemma or_challenge_ok ctx T0 T1 D0 D1 : scalar (compute_or_challenge ctx T0 T1 D0 D1).
Proof.
  unfold compute_or_challenge. match goal with |- context [keccak ?m] => destruct (keccak_bytes m) as [Hl Hb] end.
  by destruct (sc_reduce32_val _ Hl Hb).
Qed.

(** The two halves of the challenge add up to it. *)
Lemma split_challenge c u : scalar c -> scalar u -> sc_add (sc_sub c u) u = c /\ sc_add u (sc_sub c u) = c.
Proof.
  intros Sc Su. destruct (sc_sub_val c u Sc Su) as [S1 V1].
  destruct (sc_add_val _ _ S1 Su) as [S2 V2], (sc_add_val _ _ Su S1) as [S3 V3].
  pose proof Sc as (_ & Bc & Lc). pose proof (le_val_range c Bc).
  assert (forall v, v ≡[ell] le_val c -> v mod ell = le_val c) as M.
  { intros v [E]. rewrite E. apply Z.mod_small. lia. }
  split; apply scalar_eq; try done; [rewrite V2|rewrite V3]; apply M; rewrite V1; congr_ring.
Qed.

(** The branch with the known logarithm [r] recomputes the nonce's point. *)
Lemma known_branch c r k d : scalar c -> scalar r -> scalar k -> d ≡[ell] le_val r ->
  exists cD, scalarmultKey (point d 0) c = Some cD /\
    subKeys (scalarmultBase (sc_add k (sc_mul c r))) cD = Some (scalarmultBase k).
Proof.
  intros Sc Sr Sk Hd. destruct (sc_mul_val c r Sc Sr) as [S1 V1], (sc_add_val _ _ Sk S1) as [S2 V2].
  rewrite scalarmultKey_point by done. eexists. split; [done|].
  rewrite !scalarmultBase_scalar, subKeys_point by done. f_equal.
  apply point_congr; [|congr_ring]. rewrite V2, V1, Hd. congr_ring.
Qed.

(** A vote whose signed commitment is plus or minus its weight, up to known
    blindings, passes. *)
Lemma or_complete ctx (yes : bool) R_S R_W k cu su s w :
  oc_C_S ctx = point s 0 -> oc_C_W ctx = point w 0 ->
  scalar R_S -> scalar R_W -> scalar k -> scalar cu -> scalar su ->
  (if yes then s - w ≡[ell] le_val R_S - le_val R_W else s + w ≡[ell] le_val R_S + le_val R_W) ->
  point (s - w) 0 <> rct_identity -> point (s + w) 0 <> rct_identity ->
  exists proof, dao_or_prove ctx yes R_S R_W k cu su = Some proof /\ direction_ok proof /\
    dao_or_verify ctx proof = Some true.
Proof.
  intros ES EW SS SW Sk Su Ssu Hr H0' H1'. unfold dao_or_prove, dao_or_verify. rewrite ES, EW, subKeys_point, addKeys_point.
  cbn [mbind option_bind]. change (0 - 0) with 0. change (0 + 0) with 0.
  rewrite (proj2 (beq_false _ _) H0'), (proj2 (beq_false _ _) H1'). cbn [orb].
  destruct yes; rewrite (scalarmultKey_point _ _ cu Su); cbn [mbind option_bind];
    rewrite (scalarmultBase_scalar su Ssu), subKeys_point, !Z.mul_0_r; cbn [mbind option_bind];
    (eexists; split; [done|]);
    match goal with |- context [sc_sub (compute_or_challenge ?c ?T0 ?T1 ?D0 ?D1) cu] =>
      set (ch := compute_or_challenge c T0 T1 D0 D1) end;
    assert (scalar ch) as Sch by apply or_challenge_ok;
    destruct (sc_sub_val ch cu Sch Su) as [S1 _], (split_challenge ch cu Sch Su) as [C1 C2];
    [destruct (sc_sub_val _ _ SS SW) as [Sr Vr]|destruct (sc_add_val _ _ SS SW) as [Sr Vr]];
    destruct (sc_mul_val _ _ S1 Sr) as [S2 _], (sc_add_val _ _ Sk S2) as [S3 _];
    (split; [split; cbn [or_c_yes or_c_no or_s_yes or_s_no]; by apply scalar_length|]);
    cbn [or_c_yes or_c_no or_s_yes or_s_no]; rewrite !sc_check_true by done; cbn [negb].
  - destruct (known_branch (sc_sub ch cu) _ k (s - w) S1 Sr Sk) as (cD & E1 & E2); [rewrite Vr, Hr; congr_ring|].
    rewrite E1. cbn [mbind option_bind]. rewrite E2. cbn [mbind option_bind].
    rewrite (scalarmultKey_point _ _ cu Su), Z.mul_0_r. cbn [mbind option_bind].
    rewrite (scalarmultBase_scalar su Ssu), subKeys_point. cbn [mbind option_bind]. fold ch. by rewrite C1, beq_refl.
  - destruct (known_branch (sc_sub ch cu) _ k (s + w) S1 Sr Sk) as (cD & E1 & E2); [rewrite Vr, Hr; congr_ring|].
    rewrite (scalarmultKey_point _ _ cu Su), Z.mul_0_r. cbn [mbind option_bind].
    rewrite (scalarmultBase_scalar su Ssu), subKeys_point. cbn [mbind option_bind].
    rewrite E1. cbn [mbind option_bind]. rewrite E2. cbn [mbind option_bind]. fold ch. by rewrite C2, beq_refl.
Qed.

End direction.

(** ** Consistency of ciphertext and commitment *)

Lemma bn_to_scalar_ok b : scalar (bn_to_scalar_reduced b) /\ le_val (bn_to_scalar_reduced b) = b mod ell.
Proof.
  unfold bn_to_scalar_reduced. assert (0 < ell < 256 ^ Z.of_nat 32) by (by vm_compute).
  pose proof (Z.mod_pos_bound b ell). unfold scalar. rewrite le_val_le_bytes_id, length_le_bytes by lia.
  split_and!; [done|apply le_bytes_byte|lia|done].
Qed.

Lemma signed_roundtrip v : bn_from_signed (bn_to_signed v) = Some v.
Proof.
  unfold bn_from_signed, bn_to_signed, BN_bin2bn, BN_bn2bin. rewrite rev_involutive.
  assert (le_val (le_bytes (BN_num_bytes v) (Z.abs v)) = Z.abs v) as ->.
  { apply le_val_le_bytes_id. split; [lia|]. unfold BN_num_bytes. case_match; to_prop; [by subst|].
    pose proof (Z.log2_nonneg (Z.abs v)). pose proof (Z.log2_spec (Z.abs v) ltac:(lia)) as [_ L].
    rewrite Z2Nat.id by (apply Z.add_nonneg_nonneg; [apply Z.div_pos; lia|lia]).
    change 256 with (2 ^ 8). rewrite <- Z.pow_mul_r by (try apply Z.add_nonneg_nonneg; try apply Z.div_pos; lia).
    eapply Z.lt_le_trans; [exact L|]. apply Z.pow_le_mono_r; [lia|].
    pose proof (Z.div_mod (Z.log2 (Z.abs v)) 8). pose proof (Z.mod_pos_bound (Z.log2 (Z.abs v)) 8). lia. }
  destruct (Z.ltb_spec v 0); cbn [Z.eqb negb]; f_equal; lia.
Qed.

(** A number below [2 ^ 4096] takes a few hundred bytes. *)
Lemma signed_length v : Z.abs v < 2 ^ 4096 -> zlen (bn_to_signed v) < 2 ^ 64.
Proof.
  intros Hv. unfold bn_to_signed, BN_bn2bin, BN_num_bytes. rewrite zlen_cons. unfold zlen. rewrite length_rev, length_le_bytes.
  case_match; to_prop; [done|]. pose proof (Z.log2_nonneg (Z.abs v)).
  assert (Z.log2 (Z.abs v) < 4096) by (apply Z.log2_lt_pow2; lia).
  assert (0 <= Z.log2 (Z.abs v) / 8 < 4096) by (split; [apply Z.div_pos; lia|apply Z.div_lt_upper_bound; lia]).
  rewrite Z2Nat.id by lia. lia.
Qed.

Section ciphertexts.
Context (pk : PaillierPublicKey) (Hpk : pk_ok pk).

(** Only the residue of the randomness counts. *)
Lemma enc_r_mod m r : Z.coprime r (pk_N pk) -> enc pk m (r mod pk_N pk) = enc pk m r.
Proof using Hpk.
  intros Hr. pose proof (pk_N2_pos pk Hpk). assert (Z.coprime r (pk_N2 pk)) as Hr2 by by apply coprime_N2.
  unfold enc. f_equal. set (k := - (r / pk_N pk) * Z.invmod r (pk_N2 pk)).
  transitivity (Zstar.pow (Zstar.mul (unit_of (pk_N2 pk) r) (unit_of (pk_N2 pk) (1 + k * pk_N pk))) (pk_N pk)).
  - f_equal. rewrite <- unit_of_mul by (try apply coprime_1kN; done).
    symmetry. apply unit_of_eq; [apply Z.coprime_mul_l; [done|by apply coprime_1kN]|]. apply congr_elim.
    assert (Z.invmod r (pk_N2 pk) * r ≡[pk_N2 pk] 1) as I.
    { constructor. rewrite Z.invmod_coprime' by done. done. }
    transitivity (r + - (r / pk_N pk) * pk_N pk * (Z.invmod r (pk_N2 pk) * r)); [unfold k; congr_ring|].
    rewrite I. rewrite Z.mod_eq by (destruct Hpk as [? _]; lia). congr_ring.
  - rewrite Zstar.pow_mul_l, (pow_1kN pk Hpk). rewrite <- (Zstar.mul_1_r (Zstar.pow (unit_of _ r) _)) at 2. f_equal.
    rewrite <- unit_of_one. apply unit_of_eq; [by apply coprime_1kN|]. apply congr_elim.
    destruct Hpk as [_ ->]. constructor. rewrite <- Z.mul_assoc. by rewrite Z_mod_plus_full.
Qed.

Lemma enc_pow_nonneg m r e : Z.coprime r (pk_N pk) -> 0 <= e -> Zstar.pow (enc pk m r) e = enc pk (m * e) (r ^ e).
Proof using Hpk.
  intros Hr He. unfold enc. rewrite Zstar.pow_mul_l, unit_of_pow by (try apply coprime_N2; done).
  rewrite <- !Zstar.pow_mul_r. f_equal. f_equal. lia.
Qed.

(** The products the code forms are encryptions. *)
Lemma enc_products m r : 0 <= m -> Z.coprime r (pk_N pk) ->
  (BN_mod_exp (pk_N pk + 1) m (pk_N pk * pk_N pk) * BN_mod_exp r (pk_N pk) (pk_N pk * pk_N pk)) mod (pk_N pk * pk_N pk) =
  unit_val (enc pk m r).
Proof using Hpk.
  intros Hm Hr. pose proof (pk_N2_pos pk Hpk) as Hp. pose proof Hpk as [[Hn _] E2]. rewrite <- E2.
  rewrite !BN_mod_exp_spec by lia. unfold enc. rewrite unit_val_mul, Z.add_comm.
  rewrite <- !unit_of_pow by (try apply coprime_1N; try apply coprime_N2; done || lia).
  by rewrite !unit_val_of by (apply Z.coprime_pow_l; try apply coprime_1N; try apply coprime_N2; done || lia).
Qed.

Lemma enc_pow_val m r e : Z.coprime r (pk_N pk) -> 0 <= e ->
  unit_val (enc pk (m * e) (r ^ e)) = (unit_val (enc pk m r)) ^ e mod pk_N2 pk.
Proof using Hpk.
  intros Hr He. rewrite <- enc_pow_nonneg by done. rewrite <- (unit_of_val (enc pk m r)) at 1.
  rewrite <- unit_of_pow by (done || apply unit_val_coprime).
  apply unit_val_of, Z.coprime_pow_l; [done|apply unit_val_coprime].
Qed.

Lemma residue_fits v : 0 <= v mod pk_N pk < 256 ^ Z.of_nat PAILLIER_CT_BYTES.
Proof using Hpk.
  pose proof (pk_N2_fits pk Hpk). destruct Hpk as [[? ?] ?]. pose proof (Z.mod_pos_bound v (pk_N pk)). nia.
Qed.

End ciphertexts.

Section consistency.
Context `{RctLaws}.

Lemma challenge_range ctx N E C A_C A_P : 0 <= compute_challenge ctx N E C A_C A_P < 256 ^ Z.of_nat 32.
Proof.
  unfold compute_challenge, BN_bin2bn. match goal with |- context [SHA256 ?m] => set (d := m); destruct (SHA256_bytes d) as [Hl Hb] end.
  rewrite rev_alt. pose proof (le_val_range _ (proj2 (Forall_reverse _ _) Hb)) as R. unfold zlen in R.
  by rewrite length_reverse, Hl in R.
Qed.

(** The prover holds an integer [m] whose encryption is [E] and whose commitment
    is [C].  Nothing bounds [m]. *)
Lemma consistency_complete ctx pk E C m r rho a_m a_r a_rho :
  pk_ok pk -> E = ct_bytes pk (enc pk m r) -> C = point (m * log_H + le_val rho) 0 ->
  0 <= r -> Z.coprime r (pk_N pk) -> 0 <= a_m -> Z.coprime a_r (pk_N pk) -> scalar rho -> scalar a_rho ->
  exists proof, dao_consistency_prove ctx (pk_N pk) E C m r rho a_m a_r a_rho = Some proof /\
    (Z.abs m < pk_N pk -> a_m < pk_N pk -> consistency_ok proof) /\
    dao_consistency_verify ctx (pk_N pk) E C proof = Some true.
Proof.
  intros Hpk EE EC Hr0 Hr Ham Har Srho Sar. pose proof Hpk as [[Hn Hmax] E2].
  assert (length E = PAILLIER_CT_BYTES) as LE by (subst E; by apply length_ct_bytes).
  unfold dao_consistency_prove, dao_consistency_verify. rewrite LE, Nat.eqb_refl, (proj2 (Z.ltb_ge r 0)) by lia.
  cbn [negb]. rewrite (enc_products pk Hpk a_m a_r Ham Har), (binpad_unit pk Hpk).
  destruct (bn_to_scalar_ok a_m) as [Sam Vam].
  rewrite H_point, scalarmultKey_point, (scalarmultBase_scalar a_rho Sar) by done. cbn [mbind option_bind].
  rewrite addKeys_point.
  set (A_C := point (le_val (bn_to_scalar_reduced a_m) * log_H + le_val a_rho) (le_val (bn_to_scalar_reduced a_m) * 0 + 0)).
  cbn [mbind option_bind]. eexists. split; [done|].
  set (e := compute_challenge ctx (pk_N pk) E C A_C (ct_bytes pk (enc pk a_m a_r))).
  pose proof (challenge_range ctx (pk_N pk) E C A_C (ct_bytes pk (enc pk a_m a_r))) as He. fold e in He.
  destruct (bn_to_scalar_ok e) as [Se Ve], (sc_muladd_val _ _ _ Se Srho Sar) as [Sz Vz], Sz as (Lz & _).
  split.
  { intros Hm Ha. assert (Z.abs (e * m + a_m) < 2 ^ 4096).
    { change (256 ^ Z.of_nat 32) with (2 ^ 256) in He. change (256 ^ 256) with (2 ^ 2048) in Hmax.
      assert (Z.abs (e * m) <= 2 ^ 256 * 2 ^ 2048) by (rewrite Z.abs_mul; apply Z.mul_le_mono_nonneg; lia).
      change (2 ^ 4096) with (2 ^ 256 * 2 ^ 2048 * 2 ^ 1792). lia. }
    split; cbn [cp_A_C cp_A_P cp_e cp_z_m cp_z_r cp_z_rho]; [apply length_point| | |by apply signed_length| |];
      unfold zlen; [by rewrite length_ct_bytes|by rewrite length_binpad|by rewrite length_binpad|by rewrite Lz]. }
  cbn [cp_A_C cp_A_P cp_e cp_z_m cp_z_r cp_z_rho]. fold e.
  rewrite length_ct_bytes, !length_binpad, Lz by done. rewrite !Nat.eqb_refl. cbn [negb is_empty bn_to_signed].
  rewrite (bin2bn_binpad e) by done. rewrite Z.eqb_refl. cbn [negb]. rewrite signed_roundtrip.
  destruct (bn_to_scalar_ok (e * m + a_m)) as [Szm Vzm].
  rewrite scalarmultKey_point by done. cbn [mbind option_bind].
  rewrite scalarmultBase_scalar by (by apply sc_muladd_val). rewrite addKeys_point, EC. cbn [mbind option_bind].
  rewrite scalarmultKey_point by done. cbn [mbind option_bind]. unfold A_C. rewrite addKeys_point.
  cbn [mbind option_bind].
  match goal with |- context [beq ?a ?b] => assert (a = b) as -> end.
  { apply point_congr; [rewrite Vzm, Vz, Ve, Vam|]; congr_ring. }
  rewrite beq_refl. cbn [negb]. f_equal. apply Z.eqb_eq.
  assert (Z.coprime (r ^ e) (pk_N pk)) as Hre by (apply Z.coprime_pow_l; [lia|done]).
  rewrite (bin2bn_binpad _ PAILLIER_CT_BYTES) by (by apply residue_fits). rewrite (BN_mod_exp_spec r e) by lia.
  rewrite Z.mul_mod_idemp_r by lia.
  rewrite (enc_products pk Hpk) by (first [apply Z.mod_pos_bound; lia | apply Z.coprime_mod_l_iff; by apply Z.coprime_mul_l]).
  rewrite enc_mod, enc_r_mod by (done || by apply Z.coprime_mul_l).
  rewrite (bin2bn_ct_bytes pk Hpk), EE, (bin2bn_ct_bytes pk Hpk), BN_mod_exp_spec by (rewrite <- ?E2; lia). rewrite <- E2.
  rewrite <- (enc_pow_val pk Hpk m r e) by (done || lia). rewrite <- unit_val_mul, enc_mul by done. f_equal. f_equal; ring.
Qed.

End consistency.
