(* ===== verification/Tally.v ===== *)
(** * The tally certificate

    [governance/dao_tally.cpp]: building and verifying the certificate by which
    a committee publishes the decrypted tally of a proposal, and evaluating it;
    [cryptonote_core/blockchain.cpp]: validating, applying and rolling back the
    transaction that carries it. *)

From Stdlib Require Import Zcong.
From Stdlib Require Import Zmod Zstar.
From S2P Require Import Prelude TxExtra Curve GovStore ParamExecution Paillier Threshold DkgProofs Pedersen Reshare Emission VoteV2.

Record dao_partial_set := {
  member_indices : list Z;
  partials : list bytes;
  proofs : list dao_partial_decryption_proof;
}.

Record dao_tally_certificate := {
  cert_proposal_id : hash;
  vote_end_height : Z;
  cert_key_id : bytes;
  aggregate_ciphertext_hash : hash;
  cert_W : dao_partial_set;
  cert_S : dao_partial_set;
  cert_B : dao_partial_set;
  W_total : Z; s_negative : bool; S_abs : Z; B_total : Z;
  YES_weight : Z; NO_weight : Z; quorum_threshold : Z;
  quorum_met : bool; majority_met : bool; passed : bool;
  per_event_share_set_id : Z;
  cert_threshold : Z;
  member_pubkeys : list bytes;
  per_event_VK_i : list bytes;
  base_share_set_id : Z;
  contributions : list bytes;
  contributor_indices : list Z;
  contributor_vk : list bytes;
}.

(** [decode_signed]: sign and magnitude of a plaintext; the magnitude is
    accumulated byte by byte in 128 bits. *)
Definition decode_signed (m n : Z) : bool * Z :=
  let half := Z.shiftr n 1 in
  if m <=? half then (false, u128 m) else (true, u128 (n - m)).

Definition bn_to_u128 (b : Z) : Z := u128 b.

Record v2_evaluation := {
  ev_quorum_threshold : Z; ev_quorum_met : bool; ev_majority_met : bool; ev_passed : bool;
}.

Definition dao_evaluate_v2_tally (yes_weight no_weight participation_coins
    circulating_supply_at_vote_end quorum_percent : Z) : option v2_evaluation :=
  if 100 <? quorum_percent then None else
  let threshold := u128 (circulating_supply_at_vote_end * quorum_percent) / 100 in
  let qm := threshold <=? participation_coins in
  let mm := no_weight <? yes_weight in
  Some {| ev_quorum_threshold := threshold; ev_quorum_met := qm; ev_majority_met := mm;
          ev_passed := qm && mm |}.

Section tally.
Context `{Digests}.

Definition dao_aggregate_ciphertext_hash (w x b : bytes) : hash :=
  if negb (length w =? PAILLIER_CT_BYTES)%nat then null_hash else
  if negb (length x =? PAILLIER_CT_BYTES)%nat then null_hash else
  if negb (length b =? PAILLIER_CT_BYTES)%nat then null_hash else
  sha256 (str "VeilRoot-DAO-TALLY-CIPHERTEXTS-V1" ++ [1] ++ w ++ x ++ b).

(** The loop of [check_set] and [verify_set]; [seen] are the members so far. *)
Fixpoint partials_ok (pk : PaillierPublicKey) (V : bytes) (vk_i : list bytes) (c : bytes)
    (seen : list Z) (l : list (Z * bytes * dao_partial_decryption_proof)) : bool :=
  match l with
  | [] => true
  | (m, p, pr) :: rest =>
      if (m <? 1) || (zlen vk_i <? m) then false else
      if existsb (fun q => q =? m) seen then false else
      if negb (length p =? PAILLIER_CT_BYTES)%nat then false else
      if negb (pp_member_index pr =? m) then false else
      if negb (dao_partial_decryption_verify pk V (nth (Z.to_nat (m - 1)) vk_i []) m c p pr)
      then false else
      partials_ok pk V vk_i c (seen ++ [m]) rest
  end.

Definition check_set (pk : PaillierPublicKey) (V : bytes) (vk_i : list bytes) (threshold : Z)
    (s : dao_partial_set) (c : bytes) : bool :=
  if negb (length (member_indices s) =? length (partials s))%nat then false else
  if negb (length (proofs s) =? length (partials s))%nat then false else
  if zlen (member_indices s) <? threshold then false else
  partials_ok pk V vk_i c [] (zip (zip (member_indices s) (partials s)) (proofs s)).

(** A member's contribution to the tally of one channel ([do_channel] in the
    tally manager); [r] is drawn below the modulus. *)
Definition do_channel (pk : PaillierPublicKey) (V vk c : bytes) (member_index share r : Z)
    : option (bytes * dao_partial_decryption_proof) :=
  ci ← dao_threshold_partial_decrypt pk c share;
  proof ← dao_partial_decryption_prove pk V vk member_index c ci share r;
  Some (ci, proof).

Definition recover (pk : PaillierPublicKey) (theta threshold : Z) (s : dao_partial_set) : option Z :=
  C ← dao_threshold_combine pk (member_indices s) (partials s) threshold;
  dao_threshold_finalize pk C theta.

(** The share set that is used as evidence, if any. *)
Definition use_evidence (key_rec : dao_tally_key_record) (event : option dao_share_set_record)
    : option dao_share_set_record :=
  match event with
  | Some e =>
      if (length (ss_key_id e) =? 32)%nat && beq (ss_key_id e) (tk_key_id key_rec) &&
         negb (is_empty (ss_contributions e)) &&
         (length (ss_contributions e) =? length (ss_contributor_indices e))%nat &&
         (length (ss_contributions e) =? length (ss_contributor_vk e))%nat
      then Some e else None
  | None => None
  end.

Definition dao_build_tally_certificate (key_rec : dao_tally_key_record) (pid : hash)
    (end_height : Z) (w x b : bytes) (W_set S_set B_set : dao_partial_set)
    (event : option dao_share_set_record) : option dao_tally_certificate :=
  if negb (length w =? PAILLIER_CT_BYTES)%nat then None else
  if negb (length x =? PAILLIER_CT_BYTES)%nat then None else
  if negb (length b =? PAILLIER_CT_BYTES)%nat then None else
  if negb (length (tk_key_id key_rec) =? 32)%nat then None else
  if is_empty (tk_committee_members key_rec) then None else
  if tk_threshold key_rec =? 0 then None else
  if negb (length (tk_V_K_i key_rec) =? length (tk_committee_members key_rec))%nat then None else
  pk ← deserialize_modulus (tk_N key_rec);
  let evidence := use_evidence key_rec event in
  let threshold := match evidence with Some e => ss_threshold e | None => tk_threshold key_rec end in
  let vk_i := match evidence with Some e => ss_VK_i e | None => tk_V_K_i key_rec end in
  let n := zlen vk_i in
  if n =? 0 then None else
  if (threshold =? 0) || (n <? threshold) then None else
  if negb (check_set pk (tk_V key_rec) vk_i threshold W_set w) then None else
  if negb (check_set pk (tk_V key_rec) vk_i threshold S_set x) then None else
  if negb (check_set pk (tk_V key_rec) vk_i threshold B_set b) then None else
  let theta := BN_bin2bn (tk_theta_bytes key_rec) in
  mW ← recover pk theta threshold W_set;
  mS ← recover pk theta threshold S_set;
  mB ← recover pk theta threshold B_set;
  let '(neg, mag) := decode_signed mS (pk_N pk) in
  Some {| cert_proposal_id := pid; vote_end_height := end_height;
          cert_key_id := tk_key_id key_rec;
          aggregate_ciphertext_hash := dao_aggregate_ciphertext_hash w x b;
          cert_W := W_set; cert_S := S_set; cert_B := B_set;
          W_total := bn_to_u128 mW; s_negative := neg; S_abs := mag; B_total := bn_to_u128 mB;
          YES_weight := 0; NO_weight := 0; quorum_threshold := 0;
          quorum_met := false; majority_met := false; passed := false;
          per_event_share_set_id := match evidence with Some e => ss_share_set_id e | None => 0 end;
          cert_threshold := match evidence with Some e => ss_threshold e | None => 0 end;
          member_pubkeys := match evidence with Some e => ss_committee_members e | None => [] end;
          per_event_VK_i := match evidence with Some e => ss_VK_i e | None => [] end;
          base_share_set_id := match evidence with Some e => ss_base_share_set_id e | None => 0 end;
          contributions := match evidence with Some e => ss_contributions e | None => [] end;
          contributor_indices := match evidence with Some e => ss_contributor_indices e | None => [] end;
          contributor_vk := match evidence with Some e => ss_contributor_vk e | None => [] end |}.

Definition with_evaluation (cert : dao_tally_certificate) (yes no : Z) (e : v2_evaluation)
    : dao_tally_certificate :=
  {| cert_proposal_id := cert_proposal_id cert; vote_end_height := vote_end_height cert;
     cert_key_id := cert_key_id cert;
     aggregate_ciphertext_hash := aggregate_ciphertext_hash cert;
     cert_W := cert_W cert; cert_S := cert_S cert; cert_B := cert_B cert;
     W_total := W_total cert; s_negative := s_negative cert; S_abs := S_abs cert;
     B_total := B_total cert;
     YES_weight := yes; NO_weight := no; quorum_threshold := ev_quorum_threshold e;
     quorum_met := ev_quorum_met e; majority_met := ev_majority_met e; passed := ev_passed e;
     per_event_share_set_id := per_event_share_set_id cert;
     cert_threshold := cert_threshold cert; member_pubkeys := member_pubkeys cert;
     per_event_VK_i := per_event_VK_i cert; base_share_set_id := base_share_set_id cert;
     contributions := contributions cert; contributor_indices := contributor_indices cert;
     contributor_vk := contributor_vk cert |}.

(** *** The evidence of a resharing *)

Definition key_group (key_rec : dao_tally_key_record) : option dao_vss_group :=
  if is_empty (tk_vss_P key_rec) || is_empty (tk_vss_P_prime key_rec) || is_empty (tk_vss_g key_rec) ||
     is_empty (tk_vss_h key_rec) then None else
  Some {| vss_P := BN_bin2bn (tk_vss_P key_rec); vss_P_prime := BN_bin2bn (tk_vss_P_prime key_rec);
          vss_g := BN_bin2bn (tk_vss_g key_rec); vss_h := BN_bin2bn (tk_vss_h key_rec) |}.

(** One contribution, with the index and the verification key the certificate
    names for it. *)
Definition check_contribution (pk : PaillierPublicKey) (grp : dao_vss_group) (V : bytes) (x : bytes * (Z * bytes))
    : option dao_reshare_contribution :=
  let '(blob, (index, vk)) := x in
  c ← dao_reshare_deserialize_public blob;
  if negb (ct_contributor_index c =? index) then None else
  if negb (length (lc_VK_i (ct_link_ctx c)) =? PAILLIER_CT_BYTES)%nat then None else
  if negb (length vk =? PAILLIER_CT_BYTES)%nat then None else
  if negb (beq (lc_VK_i (ct_link_ctx c)) vk) then None else
  if negb (beq (lc_V (ct_link_ctx c)) V) then None else
  if negb (dao_reshare_vss_verify_public pk grp V (ct_link_ctx c) (ct_link_proof c) (ct_commits c) (ct_coeff_proofs c))
  then None else Some c.

Definition reshare_contributions_ok (pk : PaillierPublicKey) (key_rec : dao_tally_key_record)
    (contributions : list bytes) (contributor_indices : list Z) (contributor_vk : list bytes)
    (member_pubkeys per_event_VK_i : list bytes) : bool :=
  match key_group key_rec with
  | None => false
  | Some grp =>
      match mapM (check_contribution pk grp (tk_V key_rec))
              (zip contributions (zip contributor_indices contributor_vk)) with
      | None => false
      | Some contribs =>
          match dao_reshare_compute_all_vks pk contribs (seqZ 1 (zlen member_pubkeys)) with
          | None => false
          | Some vks => bool_decide (vks = per_event_VK_i)
          end
      end
  end.

(** Threshold and verification keys a certificate is checked against; [None]
    when its evidence is refused. *)
Definition effective_committee (pk : PaillierPublicKey) (key_rec : dao_tally_key_record)
    (cert : dao_tally_certificate) : option (Z * list bytes) :=
  if per_event_share_set_id cert =? 0 then Some (tk_threshold key_rec, tk_V_K_i key_rec) else
  if is_empty (contributions cert) ||
     negb (length (contributions cert) =? length (contributor_indices cert))%nat ||
     negb (length (contributions cert) =? length (contributor_vk cert))%nat then None else
  if is_empty (member_pubkeys cert) ||
     negb (length (member_pubkeys cert) =? length (per_event_VK_i cert))%nat then None else
  if (cert_threshold cert =? 0) || (zlen (per_event_VK_i cert) <? cert_threshold cert) then None else
  if existsb (fun v => negb (length v =? PAILLIER_CT_BYTES)%nat) (per_event_VK_i cert) then None else
  if negb (reshare_contributions_ok pk key_rec (contributions cert) (contributor_indices cert)
             (contributor_vk cert) (member_pubkeys cert) (per_event_VK_i cert)) then None else
  Some (cert_threshold cert, per_event_VK_i cert).

Definition W_MAX : Z := 240000000 * 1000000000000.

(** The recovered totals against the claimed ones, and their evaluation. *)
Definition evaluate_totals (pk : PaillierPublicKey) (snap : dao_supply_snapshot)
    (quorum_percent : Z) (cert : dao_tally_certificate) (mW mS mB : Z)
    : option dao_tally_certificate :=
  let W_rec := bn_to_u128 mW in
  let '(s_neg_rec, S_abs_rec) := decode_signed mS (pk_N pk) in
  let B_rec := bn_to_u128 mB in
  if negb (W_rec =? W_total cert) then None else
  if negb (Bool.eqb s_neg_rec (s_negative cert)) then None else
  if negb (S_abs_rec =? S_abs cert) then None else
  if negb (B_rec =? B_total cert) then None else
  if W_MAX <? W_rec then None else
  if W_rec <? S_abs_rec then None else
  if negb (Z.land (u128 (W_rec + S_abs_rec)) 1 =? 0) then None else
  let YES := if s_negative cert then (W_rec - S_abs_rec) / 2 else u128 (W_rec + S_abs_rec) / 2 in
  let NO := u128 (W_rec - YES) in
  e ← dao_evaluate_v2_tally YES NO B_rec (snap_circulating snap) quorum_percent;
  Some (with_evaluation cert YES NO e).

Definition dao_verify_tally_certificate (key_rec : dao_tally_key_record)
    (snap : dao_supply_snapshot) (quorum_percent : Z) (w x b : bytes)
    (cert : dao_tally_certificate) : option dao_tally_certificate :=
  if negb (length (tk_key_id key_rec) =? 32)%nat then None else
  if negb (length (cert_key_id cert) =? 32)%nat then None else
  if negb (beq (cert_key_id cert) (tk_key_id key_rec)) then None else
  if is_empty (tk_committee_members key_rec) then None else
  if tk_threshold key_rec =? 0 then None else
  if negb (length (tk_V_K_i key_rec) =? length (tk_committee_members key_rec))%nat then None else
  if negb (vote_end_height cert =? snap_height snap) then None else
  pk ← deserialize_modulus (tk_N key_rec);
  '(threshold, vk_i) ← effective_committee pk key_rec cert;
  if negb (length w =? PAILLIER_CT_BYTES)%nat then None else
  if negb (length x =? PAILLIER_CT_BYTES)%nat then None else
  if negb (length b =? PAILLIER_CT_BYTES)%nat then None else
  if negb (beq (dao_aggregate_ciphertext_hash w x b) (aggregate_ciphertext_hash cert)) then None else
  if negb (check_set pk (tk_V key_rec) vk_i threshold (cert_W cert) w) then None else
  if negb (check_set pk (tk_V key_rec) vk_i threshold (cert_S cert) x) then None else
  if negb (check_set pk (tk_V key_rec) vk_i threshold (cert_B cert) b) then None else
  let theta := BN_bin2bn (tk_theta_bytes key_rec) in
  mW ← recover pk theta threshold (cert_W cert);
  mS ← recover pk theta threshold (cert_S cert);
  mB ← recover pk theta threshold (cert_B cert);
  evaluate_totals pk snap quorum_percent cert mW mS mB.

End tally.

(** ** The transaction that carries a certificate *)

Record dao_v2_outcome_record := {
  oc_proposal_id : hash; oc_vote_end_height : Z; oc_key_id : bytes;
  oc_aggregate_ciphertext_hash : hash;
  oc_yes_weight : Z; oc_no_weight : Z; oc_participation_coins : Z; oc_quorum_threshold : Z;
  oc_quorum_met : bool; oc_majority_met : bool; oc_passed : bool;
}.

(** The state a tally result reads and writes.  [pending_executions] is the
    multi-map from execution height to proposal, whose pairs are unique. *)
Record tally_state := {
  t_votes : dao_db;
  t_policy : policy_db;
  t_supply : gmap Z dao_supply_snapshot;
  v2_outcomes : gmap hash dao_v2_outcome_record;
  pending_executions : gset (Z * hash);
}.

Section results.
Context `{Digests}.
Context (quorum_percent : Z).

(** [Blockchain::validate_dao_v2_tally_result_tx], after the certificate has
    been read from the transaction. *)
Definition validate_dao_v2_tally_result (cert : dao_tally_certificate) (block_height : Z)
    (s : tally_state) : bool :=
  match proposals (t_policy s) !! cert_proposal_id cert with
  | None => false
  | Some prop =>
    if negb (status prop =? PROPOSAL_STATUS_ACTIVE) then false else
    if negb (vote_end_height cert =? voting_end_height prop) then false else
    if block_height <=? vote_end_height cert then false else
    if negb (length (cert_key_id cert) =? 32)%nat then false else
    match get_dao_tally_key_by_id (t_votes s) (cert_key_id cert),
          aggregates (t_votes s) !! cert_proposal_id cert with
    | Some key_rec, Some agg =>
      if is_empty (aggregate_E_W agg) || is_empty (aggregate_E_S agg) || is_empty (aggregate_E_B agg)
      then false else
      match t_supply s !! vote_end_height cert with
      | None => false
      | Some snap =>
          bool_decide (is_Some (dao_verify_tally_certificate key_rec snap quorum_percent
            (aggregate_E_W agg) (aggregate_E_S agg) (aggregate_E_B agg) cert))
      end
    | _, _ => false
    end
  end.

End results.

Inductive tally_result :=
| tally_applied (s : tally_state)
| tally_not_applied (s : tally_state)   (* [false], after what has been written *)
| tally_threw (s : tally_state).

(** [Blockchain::apply_dao_v2_tally_result]: the certificate is read from the
    transaction again. *)
Definition apply_dao_v2_tally_result (cert : dao_tally_certificate) (block_height : Z)
    (s : tally_state) : tally_result :=
  match v2_outcomes s !! cert_proposal_id cert with
  | Some _ => tally_not_applied s
  | None =>
    let out := {| oc_proposal_id := cert_proposal_id cert;
                  oc_vote_end_height := vote_end_height cert; oc_key_id := cert_key_id cert;
                  oc_aggregate_ciphertext_hash := aggregate_ciphertext_hash cert;
                  oc_yes_weight := YES_weight cert; oc_no_weight := NO_weight cert;
                  oc_participation_coins := B_total cert;
                  oc_quorum_threshold := quorum_threshold cert;
                  oc_quorum_met := quorum_met cert; oc_majority_met := majority_met cert;
                  oc_passed := passed cert |} in
    let outcomes := <[cert_proposal_id cert := out]> (v2_outcomes s) in
    let s := {| t_votes := t_votes s; t_policy := t_policy s; t_supply := t_supply s;
                v2_outcomes := outcomes; pending_executions := pending_executions s |} in
    match proposals (t_policy s) !! cert_proposal_id cert with
    | None => tally_not_applied s
    | Some prop =>
      let st := if passed cert then PROPOSAL_STATUS_PASSED else PROPOSAL_STATUS_REJECTED in
      let policy := add_proposal_record (t_policy s) (cert_proposal_id cert)
                      (with_status prop st (executed prop) block_height) in
      let entry := (u64 (voting_end_height prop + 720), cert_proposal_id cert) in
      let s := {| t_votes := t_votes s; t_policy := policy; t_supply := t_supply s;
                  v2_outcomes := v2_outcomes s; pending_executions := pending_executions s |} in
      if passed cert then
        if decide (entry ∈ pending_executions s) then tally_threw s
        else tally_applied
               {| t_votes := t_votes s; t_policy := t_policy s; t_supply := t_supply s;
                  v2_outcomes := v2_outcomes s;
                  pending_executions := {[ entry ]} ∪ pending_executions s |}
      else tally_applied s
    end
  end.

(** The tally-result part of [Blockchain::pop_block_from_blockchain]. *)
Definition rollback_dao_v2_tally_result (cert : dao_tally_certificate) (s : tally_state) : tally_state :=
  let outcomes := delete (cert_proposal_id cert) (v2_outcomes s) in
  match proposals (t_policy s) !! cert_proposal_id cert with
  | None => {| t_votes := t_votes s; t_policy := t_policy s; t_supply := t_supply s;
               v2_outcomes := outcomes; pending_executions := pending_executions s |}
  | Some prop =>
      {| t_votes := t_votes s;
         t_policy := add_proposal_record (t_policy s) (cert_proposal_id cert)
           (with_status prop PROPOSAL_STATUS_ACTIVE (executed prop) (vote_end_height cert));
         t_supply := t_supply s; v2_outcomes := outcomes;
         pending_executions := pending_executions s ∖
           {[ (u64 (voting_end_height prop + 720), cert_proposal_id cert) ]} |}
  end.
