(* ===== verification/TallyMembers.v ===== *)
(** * Members who decrypt

    A committee that holds a key: whichever quorum of it decrypts a ciphertext,
    with the proofs its members attach, is accepted by the checks of a tally
    certificate and recovers the plaintext. *)

From Stdlib Require Import Zcong.
From Stdlib Require Import Zmod Zstar.
From S2P Require Import Prelude Paillier Threshold DkgProofs VoteV2 Tally.

Section members.
Context `{DigestLaws}.

(** A committee holds a key: its shares [f] are those of a threshold key, and
    the verification keys are theirs.  The bounds on the secret and the shares
    leave room for any number of resharings. *)
Record holds_key (pk : PaillierPublicKey) (V : bytes) (f : Z -> Z) (T theta : Z) (vks : list bytes) : Prop := {
  hk_key : threshold_key pk f T theta;
  hk_base : is_ct pk V;
  hk_secret : Z.abs (f 0) < 2 ^ 8400;
  hk_shares : forall i, 1 <= i <= DAO_DKG_MAX_COMMITTEE_SIZE -> Z.abs (f i) < 2 ^ 9000;
  hk_vks : vks = map (fun i => verification_key pk V (f i)) (seqZ 1 (zlen vks));
  hk_size : 0 < T <= zlen vks /\ zlen vks <= DAO_DKG_MAX_COMMITTEE_SIZE;
}.

(** The part of it that does not tie the shares to the key. *)
Record holds_shares (pk : PaillierPublicKey) (V : bytes) (f : Z -> Z) (T : Z) (vks : list bytes) : Prop := {
  hs_pk : pk_ok pk;
  hs_base : is_ct pk V;
  hs_poly : poly (Z.to_nat T) f;
  hs_shares : forall i, 1 <= i <= DAO_DKG_MAX_COMMITTEE_SIZE -> Z.abs (f i) < 2 ^ 9000;
  hs_vks : vks = map (fun i => verification_key pk V (f i)) (seqZ 1 (zlen vks));
  hs_size : 0 < T <= zlen vks /\ zlen vks <= DAO_DKG_MAX_COMMITTEE_SIZE;
}.

Lemma holds_key_shares pk V f T theta vks : holds_key pk V f T theta vks -> holds_shares pk V f T vks.
Proof. intros [[Hpk Hpoly _ _ _] HV _ Hs Hv Hn]. exact (Build_holds_shares pk V f T vks Hpk HV Hpoly Hs Hv Hn). Qed.

(** The members [subset] decrypt [c]; member [i] draws [rs i]. *)
Definition members_decrypt (pk : PaillierPublicKey) (V : bytes) (vks : list bytes) (f : Z -> Z)
    (subset : list Z) (rs : Z -> Z) (c : bytes) : option dao_partial_set :=
  l ← mapM (fun i => do_channel pk V (nth (Z.to_nat (i - 1)) vks []) c i (f i) (rs i)) subset;
  Some {| member_indices := subset; partials := map fst l; proofs := map snd l |}.

(** A quorum among the members whose verification keys are [vks], and what its
    members draw. *)
Definition deciding (pk : PaillierPublicKey) (T : Z) (vks : list bytes) (subset : list Z) (rs : Z -> Z) : Prop :=
  quorum T subset /\ Forall (fun i => i <= zlen vks) subset /\ forall i, 0 <= rs i < pk_N pk.

Lemma response_fits (s r E a : Z) : Z.abs s < 2 ^ 9000 -> 0 <= r < a -> a <= 2 ^ 9000 -> 0 <= E < 256 ^ 32 ->
  Z.abs (r + E * dao_dkg_delta * s) < 256 ^ 1199.
Proof.
  intros Hs Hr Ha HE.
  change (256 ^ 32) with (2 ^ 256) in HE. change (256 ^ 1199) with ((2 ^ 8) ^ 1199). rewrite <- Z.pow_mul_r by done.
  apply (abs_add_pow _ _ (256 + 45 + 9000)); [done|done| |].
  - rewrite Z.abs_eq by apply Hr. transitivity (2 ^ 9000); [apply Z.lt_le_incl; eapply Z.lt_le_trans; [apply Hr|exact Ha]|by apply Z.pow_le_mono_r].
  - apply abs_mul_pow; [done|done| |by apply Z.lt_le_incl].
    apply abs_mul_pow; [done|done|rewrite Z.abs_eq by apply HE; apply Z.lt_le_incl, HE|by vm_compute].
Qed.

Lemma do_channel_ok pk V vk c i s r : pk_ok pk -> is_ct pk V -> is_ct pk c -> vk = verification_key pk V s ->
  Z.abs s < 2 ^ 9000 -> 0 <= r < pk_N pk ->
  exists ci proof, do_channel pk V vk c i s r = Some (ci, proof) /\
    dao_threshold_partial_decrypt pk c s = Some ci /\ length ci = PAILLIER_CT_BYTES /\ pp_member_index proof = i /\
    dao_partial_decryption_verify pk V vk i c ci proof = true.
Proof.
  intros Hpk HV Hc -> Hs Hr. pose proof (partial_decrypt_spec pk Hpk c s Hc) as Ec.
  destruct (partial_proof_complete pk Hpk V i c _ s r HV Hc ltac:(apply Hr) Ec) as (proof & E1 & E2 & E3).
  { intros E HE. apply (response_fits s r E (pk_N pk)); [done|done| |done].
    apply Z.lt_le_incl. eapply Z.lt_le_trans; [apply Hpk|]. change (256 ^ 256) with (2 ^ 2048). by apply Z.pow_le_mono_r. }
  eexists _, proof. unfold do_channel. rewrite Ec. cbn [mbind option_bind]. rewrite E1. split; [done|]. split; [done|]. split; [apply (length_ct_bytes pk Hpk)|]. done.
Qed.

Lemma nth_vks pk V (f : Z -> Z) n vks i : vks = map (fun i => verification_key pk V (f i)) (seqZ 1 n) -> 1 <= i <= n ->
  nth (Z.to_nat (i - 1)) vks [] = verification_key pk V (f i).
Proof.
  intros -> Hi. apply nth_lookup_Some. rewrite lookup_map, lookup_seqZ_lt by lia. cbn [fmap option_fmap option_map]. do 2 f_equal. f_equal. lia.
Qed.

(** The loop over the partial decryptions accepts what the members produce. *)
Lemma members_partials_ok pk V f T vks rs c subset seen : holds_shares pk V f T vks -> is_ct pk c ->
  (forall i, 0 <= rs i < pk_N pk) -> Forall (fun i => 1 <= i <= zlen vks) subset -> NoDup subset ->
  (forall i, i ∈ subset -> i ∉ seen) ->
  exists l, mapM (fun i => do_channel pk V (nth (Z.to_nat (i - 1)) vks []) c i (f i) (rs i)) subset = Some l /\
    mapM (fun i => dao_threshold_partial_decrypt pk c (f i)) subset = Some (map fst l) /\
    partials_ok pk V vks c seen (zip (zip subset (map fst l)) (map snd l)) = true.
Proof.
  intros Hk Hc Hrs F. revert seen. induction F as [|i subset Hi F IH]; intros seen Hd Hs; [by exists []|].
  apply NoDup_cons in Hd as [Hni Hd]. destruct (IH (seen ++ [i]) Hd) as (l & E1 & E2 & E3).
  { intros j Hj. rewrite not_elem_of_app, list_elem_of_singleton. split; [apply Hs; by right|by intros ->]. }
  pose proof (hs_size _ _ _ _ _ Hk) as [_ Hn]. pose proof (hs_pk _ _ _ _ _ Hk) as Hpk.
  destruct (do_channel_ok pk V (nth (Z.to_nat (i - 1)) vks []) c i (f i) (rs i)) as (ci & proof & C1 & C2 & C3 & C4 & C5);
    [exact Hpk|exact (hs_base _ _ _ _ _ Hk)|done|apply (nth_vks pk V f (zlen vks)); [exact (hs_vks _ _ _ _ _ Hk)|done]
    |apply (hs_shares _ _ _ _ _ Hk); clear -Hi Hn; lia|done|].
  exists ((ci, proof) :: l). cbn [mapM]. rewrite C1, C2. cbn [mbind option_bind]. rewrite E1, E2. split_and!; [done|done|].
  cbn [map zip zip_with fst snd partials_ok]. rewrite (proj2 (Z.ltb_ge i 1)), (proj2 (Z.ltb_ge (zlen vks) i)) by (clear -Hi; lia).
  cbn [orb]. assert (existsb (fun q => q =? i) seen = false) as ->.
  { apply not_true_iff_false. rewrite existsb_Exists, Exists_exists. intros (q & Hq & E). to_prop. subst q. apply (Hs i); [left|done]. }
  rewrite C3, Nat.eqb_refl, C4, Z.eqb_refl, C5. exact E3.
Qed.

Lemma deciding_range pk T vks subset rs : deciding pk T vks subset rs -> Forall (fun i => 1 <= i <= zlen vks) subset.
Proof.
  intros ((_ & Hc & _) & F & _). rewrite Forall_forall in *. intros i Hi. split; [|by apply F].
  apply Hc, elem_of_seqZ in Hi. lia.
Qed.

(** What a quorum produces is accepted; it is combined to a power of the
    ciphertext. *)
Lemma members_accepted pk V f T vks subset rs c : holds_shares pk V f T vks -> deciding pk T vks subset rs -> is_ct pk c ->
  exists s, members_decrypt pk V vks f subset rs c = Some s /\ check_set pk V vks T s c = true /\ member_indices s = subset /\
    dao_threshold_combine pk subset (partials s) T = Some (ct_bytes pk (Zstar.pow (ct_unit pk c) (f 0 * (4 * (dao_dkg_delta * dao_dkg_delta))))).
Proof.
  intros Hk Hd Hc. pose proof Hd as (Hq & _ & Hrs). pose proof (hs_pk _ _ _ _ _ Hk) as Hpk.
  destruct (members_partials_ok pk V f T vks rs c subset [] Hk Hc Hrs) as (l & E1 & E2 & E3);
    [by eapply deciding_range|apply Hq|intros ? _; apply not_elem_of_nil|].
  unfold members_decrypt. rewrite E1. cbn [mbind option_bind]. eexists. split; [done|].
  pose proof (Forall2_length _ _ _ (proj1 (mapM_Some _ _ _) E1)) as L. destruct Hq as (Q1 & Q2 & Q3 & HT). split; [|split; [done|]].
  - unfold check_set. cbn [member_indices partials proofs]. rewrite !length_map, L, !Nat.eqb_refl. cbn [negb].
    by rewrite (proj2 (Z.ltb_ge _ _)) by apply HT.
  - cbn [partials]. rewrite (mapM_partials pk f c subset Hpk Hc) in E2. injection E2 as <-.
    exact (combine_spec pk Hpk f c subset T Hc Q1 Q2 Q3 HT (hs_poly _ _ _ _ _ Hk)).
Qed.

(** What a quorum of a committee that holds the key produces recovers the
    plaintext. *)
Lemma members_decrypt_ok pk V f T theta vks subset rs c m : holds_key pk V f T theta vks -> deciding pk T vks subset rs ->
  is_ct pk c -> (exists r, Z.coprime r (pk_N pk) /\ c = ct_bytes pk (enc pk m r)) ->
  exists s, members_decrypt pk V vks f subset rs c = Some s /\ check_set pk V vks T s c = true /\
    recover pk theta T s = Some (m mod pk_N pk).
Proof.
  intros Hk Hd Hc (r & Hr & Ecr). pose proof (tk_pk _ _ _ _ (hk_key _ _ _ _ _ _ Hk)) as Hpk. destruct (proj1 Hpk) as [HN _].
  destruct (members_accepted pk V f T vks subset rs c (holds_key_shares _ _ _ _ _ _ Hk) Hd Hc) as (s & E1 & E2 & E3 & E4).
  exists s. split; [exact E1|]. split; [exact E2|]. unfold recover. rewrite E3, E4, Ecr, ct_unit_bytes, <- (enc_mod pk Hpk) by done.
  destruct (hk_key _ _ _ _ _ _ Hk) as [_ _ Hkills [Ht Hth] Hu]. rewrite enc_pow by done.
  apply finalize_spec; try done. apply Z.mod_pos_bound. lia.
Qed.

End members.
