(* ===== verification/TallyCorrect.v ===== *)
(** * Correctness of encrypted voting

    From the votes of a proposal to the published result: the stored aggregate
    encrypts the sums of the votes applied, a vote is undone exactly by its
    rollback, any quorum of the committee builds a certificate that verifies, and
    its result is the result of counting the votes in the clear. *)

From Stdlib Require Import Zcong.
From Stdlib Require Import Zmod Zstar.
From S2P Require Import Prelude TxExtra Curve CurveModel GovStore ParamExecution Paillier Threshold DkgProofs Pedersen Reshare Emission VoteV2 Tally TallyMembers.

(** ** Votes in the clear *)

Record ballot := {
  b_weight : Z; b_yes : bool; b_balance : Z;
  b_rW : Z; b_rS : Z; b_rB : Z;  (* the random factors of the encryptions *)
}.

Definition b_signed (b : ballot) : Z := if b_yes b then b_weight b else - b_weight b.

(** What the wallet puts in the transaction for a ballot. *)
Definition casts `{CurveOps} (pk : PaillierPublicKey) (b : ballot) (proof : vote_proof_v2) : Prop :=
  0 <= b_weight b /\ 0 <= b_balance b /\
  encrypt pk (b_weight b) (b_rW b) = Some (E_W proof) /\
  (m ← encode_signed_value (b_signed b) (pk_N pk); encrypt pk m (b_rS b)) = Some (E_S proof) /\
  encrypt pk (b_balance b) (b_rB b) = Some (E_B proof) /\
  isInMainSubgroup (C_W proof) = true /\ isInMainSubgroup (C_S proof) = true /\
  isInMainSubgroup (C_B proof) = true.

Definition total (l : list ballot) : Z := zsum (b_weight <$> l).
Definition margin (l : list ballot) : Z := zsum (b_signed <$> l).
Definition participation (l : list ballot) : Z := zsum (b_balance <$> l).
Definition yes_total (l : list ballot) : Z := zsum ((fun b => if b_yes b then b_weight b else 0) <$> l).
Definition no_total (l : list ballot) : Z := zsum ((fun b => if b_yes b then 0 else b_weight b) <$> l).

(** A block's votes, in order. *)
Fixpoint apply_votes `{CurveOps} (vs : list (vote_proof_v2 * hash)) (s : dao_db) : apply_result :=
  match vs with
  | [] => applied s
  | (proof, h) :: rest =>
      match apply_dao_vote proof h s with
      | applied s' => apply_votes rest s'
      | r => r
      end
  end.

(** ** The aggregate *)

Definition enc_of (pk : PaillierPublicKey) (c : bytes) (m : Z) : Prop :=
  exists r, Z.coprime r (pk_N pk) /\ c = ct_bytes pk (enc pk m r).

Definition agg_holds `{CurveOps} (pk : PaillierPublicKey) (a : dao_proposal_aggregate) (W S B : Z)
    : Prop :=
  enc_of pk (aggregate_E_W a) W /\ enc_of pk (aggregate_E_S a) S /\ enc_of pk (aggregate_E_B a) B /\
  isInMainSubgroup (aggregate_C_W a) = true /\ isInMainSubgroup (aggregate_C_S a) = true /\
  isInMainSubgroup (aggregate_C_B a) = true.

Lemma enc_of_encrypt pk m r c : pk_ok pk -> 0 <= m -> encrypt pk m r = Some c -> enc_of pk c m.
Proof. intros Hpk Hm Hc. apply encrypt_inv in Hc as (_ & Hr & ->); [|done..]. by exists r. Qed.

Lemma enc_of_mod pk c m : pk_ok pk -> enc_of pk c m <-> enc_of pk c (m mod pk_N pk).
Proof. intros Hpk. unfold enc_of. by setoid_rewrite (enc_mod pk Hpk m). Qed.

Lemma enc_of_nonempty pk c m : pk_ok pk -> enc_of pk c m -> is_empty c = false.
Proof.
  intros Hpk (r & _ & ->). apply is_empty_false. intros Hc.
  pose proof (proj1 (is_ct_bytes pk Hpk (enc pk m r))) as Hv. rewrite Hc in Hv. done.
Qed.

Lemma enc_of_length pk c m : pk_ok pk -> enc_of pk c m -> length c = PAILLIER_CT_BYTES.
Proof.
  intros Hpk (r & _ & ->). pose proof (proj1 (is_ct_bytes pk Hpk (enc pk m r))) as Hv.
  by apply is_valid_ciphertext_true in Hv as (Hl & _).
Qed.

Lemma encode_signed_mod s n m : encode_signed_value s n = Some m -> 0 <= m /\ m = s mod n.
Proof.
  unfold encode_signed_value. repeat case_match; try done; to_prop; intros [= <-].
  - split; [done|]. symmetry. apply Z.mod_small. lia.
  - split; [lia|]. apply Z.mod_unique_pos with (-1); lia.
Qed.

Lemma add_nullifiers_spec pid nfs s :
  fold_left (fun s nf => add_vote_nullifier s pid nf) nfs s =
  set_nullifiers s (fold_left (fun t nf => <[pid ++ nf := tt]> t) nfs (vote_nullifiers s)).
Proof.
  revert s. induction nfs as [|nf nfs IH]; intros s; cbn [fold_left]; [by destruct s|].
  by rewrite IH.
Qed.

Lemma remove_nullifiers_spec pid nfs s :
  fold_left (fun s nf => remove_vote_nullifier s pid nf) nfs s =
  set_nullifiers s (fold_left (fun t nf => delete (pid ++ nf) t) nfs (vote_nullifiers s)).
Proof.
  revert s. induction nfs as [|nf nfs IH]; intros s; cbn [fold_left]; [by destruct s|].
  by rewrite IH.
Qed.

(** Rows added under fresh keys are gone after the keys are deleted, in any
    order and with any repetition. *)
Section undo.
Context {V A : Type} (key : A -> bytes) (row : A -> V).
Implicit Types (t : gmap bytes V) (l : list A).

Lemma lookup_inserts l t k : k ∉ key <$> l ->
  fold_left (fun t x => <[key x := row x]> t) l t !! k = t !! k.
Proof.
  revert t. induction l as [|x l IH]; intros t Hk; cbn [fold_left]; [done|].
  cbn [fmap list_fmap] in Hk. rewrite not_elem_of_cons in Hk. destruct Hk as [Hk1 Hk2].
  rewrite IH by done. by rewrite lookup_insert_ne.
Qed.

Lemma lookup_deletes l t k :
  fold_left (fun t x => delete (key x) t) l t !! k =
  if decide (k ∈ key <$> l) then None else t !! k.
Proof.
  revert t. induction l as [|x l IH]; intros t; cbn [fold_left]; [done|]. rewrite IH.
  cbn [fmap list_fmap]. destruct (decide (k = key x)) as [->|Hne].
  - rewrite (decide_True (P := key x ∈ key x :: _)) by left. case_decide; [done|].
    by rewrite lookup_delete_eq.
  - rewrite lookup_delete_ne by congruence. apply decide_ext. rewrite elem_of_cons. naive_solver.
Qed.

Lemma inserts_undone l t : Forall (fun x => t !! key x = None) l ->
  fold_left (fun t x => delete (key x) t) l
    (fold_left (fun t x => <[key x := row x]> t) l t) = t.
Proof.
  intros Hf. apply map_eq. intros k. rewrite lookup_deletes.
  case_decide as Hk; [|by apply lookup_inserts].
  apply list_elem_of_fmap in Hk as (x & -> & Hx). rewrite Forall_forall in Hf. by rewrite Hf.
Qed.
End undo.

(** ** Undoing a channel *)

Lemma undo_add pk a e c : pk_ok pk -> is_ct pk a -> is_ct pk e -> add pk a e = Some c ->
  undo_channel pk c e = Some a.
Proof.
  intros Hpk Ha He Hc. rewrite add_spec in Hc by done. apply (inj Some) in Hc. subst c.
  unfold undo_channel. set (u := Zstar.mul (ct_unit pk a) (ct_unit pk e)).
  assert (is_empty (ct_bytes pk u) = false) as ->.
  { apply is_empty_false. intros H0. pose proof (proj1 (is_ct_bytes pk Hpk u)) as Hv.
    by rewrite H0 in Hv. }
  rewrite inverse_spec by done. cbn [mbind option_bind].
  rewrite add_spec, !ct_unit_bytes by (done || by apply is_ct_bytes).
  unfold u. rewrite <- Zstar.mul_assoc, Zstar.mul_inv_same_r, Zstar.mul_1_r.
  by rewrite ct_bytes_unit.
Qed.

Lemma undo_first pk e : pk_ok pk -> is_ct pk e ->
  undo_channel pk e e = Some (ct_bytes pk Zstar.one).
Proof.
  intros Hpk He. unfold undo_channel.
  assert (is_empty e = false) as ->.
  { apply is_empty_false. intros ->. by destruct He. }
  rewrite inverse_spec by done. cbn [mbind option_bind].
  by rewrite add_spec, ct_unit_bytes, Zstar.mul_inv_same_r by (done || by apply is_ct_bytes).
Qed.

Lemma ct_identity_one pk : pk_ok pk -> ct_identity (ct_bytes pk Zstar.one) = true.
Proof.
  intros Hpk. assert (ct_bytes pk Zstar.one = rev (le_bytes PAILLIER_CT_BYTES 1)) as ->;
    [|by vm_compute].
  apply (inj Some). rewrite <- bn2binpad_unit, unit_val_one by done.
  pose proof (pk_N2_pos pk Hpk). rewrite Z.mod_small by lia. by vm_compute.
Qed.

Section aggregate.
Context `{CurveLaws} (pk : PaillierPublicKey) (Hpk : pk_ok pk).
Context (pid kid : hash) (key_rec : dao_tally_key_record).
Context (Hkid : length kid = 32%nat) (Hkey : deserialize_modulus (tk_N key_rec) = Some pk).

Lemma casts_enc b proof : casts pk b proof ->
  enc_of pk (E_W proof) (b_weight b) /\ enc_of pk (E_S proof) (b_signed b) /\
  enc_of pk (E_B proof) (b_balance b).
Proof using Hpk.
  intros (Hw & Hb & H1 & H2 & H3 & _).
  split; [|split]; [by apply (enc_of_encrypt _ _ _ _ Hpk Hw H1)| |by apply (enc_of_encrypt _ _ _ _ Hpk Hb H3)].
  destruct (encode_signed_value _ _) as [m|] eqn:Hm; [|done]. cbn [mbind option_bind] in H2.
  apply encode_signed_mod in Hm as [Hm0 Hm]. apply enc_of_mod; [done|]. rewrite <- Hm.
  by eapply enc_of_encrypt.
Qed.

(** *** Rolling a vote back *)

Definition agg_identity (a : dao_proposal_aggregate) : bool :=
  beq (aggregate_C_W a) rct_identity && beq (aggregate_C_S a) rct_identity &&
  beq (aggregate_C_B a) rct_identity && ct_identity (aggregate_E_W a) &&
  ct_identity (aggregate_E_S a) && ct_identity (aggregate_E_B a).

Lemma is_ct_nonempty c : is_ct pk c -> is_empty c = false.
Proof. intros [Hv _]. apply is_empty_false. by intros ->. Qed.

Lemma rollback_after_apply proof h s a w x b cw cs cb nulls recs :
  v2_proposal_id proof = pid -> v2_tally_key_id proof = kid -> tk_key_id key_rec = kid ->
  tally_keys s !! kid = Some key_rec ->
  undo_channel pk w (E_W proof) = Some (aggregate_E_W a) ->
  undo_channel pk x (E_S proof) = Some (aggregate_E_S a) ->
  undo_channel pk b (E_B proof) = Some (aggregate_E_B a) ->
  subKeys cw (C_W proof) = Some (aggregate_C_W a) ->
  subKeys cs (C_S proof) = Some (aggregate_C_S a) ->
  subKeys cb (C_B proof) = Some (aggregate_C_B a) ->
  rollback_dao_vote proof h
    {| tally_keys := tally_keys s;
       aggregates := <[pid := {| aggregate_E_W := w; aggregate_E_S := x; aggregate_E_B := b;
                        aggregate_C_W := cw; aggregate_C_S := cs; aggregate_C_B := cb |}]> (aggregates s);
       vote_records := recs; vote_nullifiers := nulls |} =
  Some {| tally_keys := tally_keys s;
          aggregates := if agg_identity a then delete pid (aggregates s) else <[pid := a]> (aggregates s);
          vote_records := delete h recs;
          vote_nullifiers := fold_left (fun t nf => delete (pid ++ nf) t) (v2_nullifiers proof) nulls |}.
Proof using Hkid Hkey.
  intros Hp Hk Hkk Hkr U1 U2 U3 V1 V2 V3.
  unfold rollback_dao_vote, get_dao_tally_key_by_id. rewrite Hk, Hkid, Nat.eqb_refl. cbn [negb].
  cbn [tally_keys].
  rewrite Hkr, Hkk, Hkid, Nat.eqb_refl, beq_refl, Hkey. cbn [negb].
  unfold rollback_aggregate. cbn [aggregates]. rewrite Hp, lookup_insert_eq.
  cbn [aggregate_E_W aggregate_E_S aggregate_E_B aggregate_C_W aggregate_C_S aggregate_C_B].
  rewrite U1, U2, U3. cbn [mbind option_bind]. rewrite V1, V2, V3. cbn [mbind option_bind].
  fold (agg_identity a).
  destruct (agg_identity a); cbn [mbind option_bind];
    rewrite remove_nullifiers_spec; f_equal;
    unfold set_nullifiers, remove_dao_vote_record_v2, set_vote_records,
      remove_dao_proposal_aggregate, add_dao_proposal_aggregate, set_aggregates;
    cbn [tally_keys aggregates vote_records vote_nullifiers].
  - by rewrite delete_insert_eq.
  - rewrite insert_insert_eq. by destruct a.
Qed.

(** *** Aggregates as group elements *)

Definition cadd (a b : bytes) : bytes := default rct_identity (addKeys a b).

Lemma cadd_spec a b : isInMainSubgroup a = true -> isInMainSubgroup b = true ->
  addKeys a b = Some (cadd a b) /\ isInMainSubgroup (cadd a b) = true.
Proof using H0. intros Ha Hb. unfold cadd. by destruct (addKeys_main a b Ha Hb) as (c & -> & Hc). Qed.

Lemma subKeys_cadd a b : isInMainSubgroup a = true -> isInMainSubgroup b = true ->
  subKeys (cadd a b) b = Some a.
Proof using H0. intros Ha Hb. apply subKeys_addKeys; [done..|]. by apply cadd_spec. Qed.

Lemma cadd_swap a b c : isInMainSubgroup a = true -> isInMainSubgroup b = true ->
  isInMainSubgroup c = true -> cadd (cadd a b) c = cadd (cadd a c) b.
Proof using H0.
  intros Ha Hb Hc. apply (inj Some).
  destruct (cadd_spec a b) as [Hab Mab], (cadd_spec a c) as [Hac Mac],
    (cadd_spec b c) as [Hbc _], (cadd_spec c b) as [Hcb _]; try done.
  rewrite <- (proj1 (cadd_spec (cadd a b) c Mab Hc)), <- (proj1 (cadd_spec (cadd a c) b Mac Hb)).
  rewrite (addKeys_assoc a b c _ _ Hab Hbc), (addKeys_assoc a c b _ _ Hac Hcb) by done.
  unfold cadd. by rewrite (addKeys_comm b c) by done.
Qed.

Definition ct_mul (a b : bytes) : bytes := ct_bytes pk (Zstar.mul (ct_unit pk a) (ct_unit pk b)).

Lemma ct_mul_swap a b c : ct_mul (ct_mul a b) c = ct_mul (ct_mul a c) b.
Proof using Hpk.
  unfold ct_mul. rewrite !ct_unit_bytes by done. f_equal. rewrite <- !Zstar.mul_assoc. f_equal.
  apply Zstar.mul_comm.
Qed.

Definition agg_plus (a : dao_proposal_aggregate) (v : vote_proof_v2) : dao_proposal_aggregate :=
  {| aggregate_E_W := ct_mul (aggregate_E_W a) (E_W v); aggregate_E_S := ct_mul (aggregate_E_S a) (E_S v);
     aggregate_E_B := ct_mul (aggregate_E_B a) (E_B v);
     aggregate_C_W := cadd (aggregate_C_W a) (C_W v); aggregate_C_S := cadd (aggregate_C_S a) (C_S v);
     aggregate_C_B := cadd (aggregate_C_B a) (C_B v) |}.

Definition agg_neutral : dao_proposal_aggregate :=
  let one := ct_bytes pk Zstar.one in
  {| aggregate_E_W := one; aggregate_E_S := one; aggregate_E_B := one;
     aggregate_C_W := rct_identity; aggregate_C_S := rct_identity; aggregate_C_B := rct_identity |}.

Definition agg_wf (a : dao_proposal_aggregate) : Prop :=
  is_ct pk (aggregate_E_W a) /\ is_ct pk (aggregate_E_S a) /\ is_ct pk (aggregate_E_B a) /\
  isInMainSubgroup (aggregate_C_W a) = true /\ isInMainSubgroup (aggregate_C_S a) = true /\
  isInMainSubgroup (aggregate_C_B a) = true.

(** What the verifier has checked of the vote itself. *)
Definition vote_wf (v : vote_proof_v2) : Prop :=
  v2_proposal_id v = pid /\ v2_tally_key_id v = kid /\
  is_ct pk (E_W v) /\ is_ct pk (E_S v) /\ is_ct pk (E_B v) /\
  isInMainSubgroup (C_W v) = true /\ isInMainSubgroup (C_S v) = true /\
  isInMainSubgroup (C_B v) = true.

Lemma agg_neutral_wf : agg_wf agg_neutral.
Proof using Hpk H0.
  split_and!; first [apply is_ct_bytes; assumption|apply main_identity].
Qed.

Lemma agg_neutral_identity : agg_identity agg_neutral = true.
Proof using Hpk.
  unfold agg_identity, agg_neutral.
  cbn [aggregate_E_W aggregate_E_S aggregate_E_B aggregate_C_W aggregate_C_S aggregate_C_B].
  by rewrite !beq_refl, ct_identity_one.
Qed.

Lemma agg_plus_wf a v : agg_wf a -> vote_wf v -> agg_wf (agg_plus a v).
Proof using Hpk H0.
  intros (?&?&?&?&?&?) (?&?&?&?&?&?&?&?).
  split_and!; first [apply is_ct_bytes; assumption|apply cadd_spec; assumption].
Qed.

Lemma agg_plus_swap a v w : agg_wf a -> vote_wf v -> vote_wf w ->
  agg_plus (agg_plus a v) w = agg_plus (agg_plus a w) v.
Proof using Hpk H0.
  intros (?&?&?&?&?&?) (?&?&?&?&?&?&?&?) (?&?&?&?&?&?&?&?). unfold agg_plus.
  cbn [aggregate_E_W aggregate_E_S aggregate_E_B aggregate_C_W aggregate_C_S aggregate_C_B].
  f_equal; apply ct_mul_swap || by apply cadd_swap.
Qed.

(** The value of a proposal's row; no row is the neutral aggregate. *)
Definition row_val (s : dao_db) : dao_proposal_aggregate := default agg_neutral (aggregates s !! pid).

Definition vote_record (v : vote_proof_v2) (h : hash) : dao_vote_record_v2 :=
  {| vr_proposal_id := pid; vr_vote_height := v2_vote_height v; vr_tx_hash := h;
     vr_nullifiers := v2_nullifiers v |}.

Definition after_apply (v : vote_proof_v2) (h : hash) (s : dao_db) : dao_db :=
  {| tally_keys := tally_keys s; aggregates := <[pid := agg_plus (row_val s) v]> (aggregates s);
     vote_records := <[h := vote_record v h]> (vote_records s);
     vote_nullifiers := fold_left (fun t nf => <[pid ++ nf := tt]> t) (v2_nullifiers v)
                          (vote_nullifiers s) |}.

Lemma ct_mul_one c : is_ct pk c -> ct_mul (ct_bytes pk Zstar.one) c = c.
Proof using Hpk. intros Hc. unfold ct_mul. by rewrite ct_unit_bytes, Zstar.mul_1_l, ct_bytes_unit. Qed.

Lemma apply_plus v h s : vote_wf v -> agg_wf (row_val s) -> tally_keys s !! kid = Some key_rec ->
  apply_dao_vote v h s = applied (after_apply v h s).
Proof using All.
  intros (Hp & Hk & EW & ES & EB & CW & CS & CB) Hwf Hkr.
  unfold apply_dao_vote, get_dao_tally_key_by_id.
  rewrite Hk, Hkid, Nat.eqb_refl, Hp. cbn [negb]. rewrite Hkr, Hkey.
  unfold after_apply, row_val in *. destruct (aggregates s !! pid) as [a|] eqn:Ha; cbn [from_option id] in *.
  - destruct Hwf as (AW & AS & AB & DW & DS & DB). rewrite bool_decide_eq_true_2 by eauto.
    rewrite !(is_ct_nonempty _ AW), !(is_ct_nonempty _ AS), !(is_ct_nonempty _ AB). cbn [negb andb].
    rewrite !add_spec by done. cbn [mbind option_bind].
    rewrite (proj1 (cadd_spec _ _ DW CW)), (proj1 (cadd_spec _ _ DS CS)), (proj1 (cadd_spec _ _ DB CB)).
    by rewrite add_nullifiers_spec.
  - rewrite bool_decide_eq_false_2 by (by intros [? ?]).
    cbn [andb aggregate_C_W aggregate_C_S aggregate_C_B].
    rewrite !addKeys_identity, add_nullifiers_spec by done.
    unfold agg_plus, agg_neutral.
    cbn [aggregate_E_W aggregate_E_S aggregate_E_B aggregate_C_W aggregate_C_S aggregate_C_B].
    rewrite !ct_mul_one by done. unfold cadd. by rewrite !addKeys_identity.
Qed.

(** *** The sums a row holds *)

Definition row_holds (s : dao_db) (W S B : Z) : Prop := agg_holds pk (row_val s) W S B.

Lemma enc_of_ct c m : enc_of pk c m -> is_ct pk c.
Proof using Hpk. intros (r & _ & ->). by apply is_ct_bytes. Qed.

Lemma enc_of_mul c1 c2 m1 m2 : enc_of pk c1 m1 -> enc_of pk c2 m2 -> enc_of pk (ct_mul c1 c2) (m1 + m2).
Proof using Hpk.
  intros (r1 & H1 & ->) (r2 & H2 & ->). exists (r1 * r2). split; [by apply Z.coprime_mul_l|].
  unfold ct_mul. by rewrite !ct_unit_bytes, enc_mul by done.
Qed.

Lemma row_holds_none s : aggregates s !! pid = None -> row_holds s 0 0 0.
Proof using Hpk H0.
  intros Hn. unfold row_holds, row_val. rewrite Hn. cbn [from_option id].
  assert (enc_of pk (ct_bytes pk Zstar.one) 0) as He.
  { exists 1. split; [apply Z.coprime_1_l|]. unfold enc.
    by rewrite Zstar.pow_0_r, unit_of_one, Zstar.pow_1_l, Zstar.mul_1_l. }
  split; [done|]. split; [done|]. split; [done|]. repeat split; apply main_identity.
Qed.

Lemma apply_dao_vote_holds b v h s W S B :
  v2_proposal_id v = pid -> v2_tally_key_id v = kid ->
  tally_keys s !! kid = Some key_rec -> row_holds s W S B -> casts pk b v ->
  apply_dao_vote v h s = applied (after_apply v h s) /\
  row_holds (after_apply v h s) (W + b_weight b) (S + b_signed b) (B + b_balance b).
Proof using All.
  intros Hp Hk Hkr Hrow Hcast. destruct (casts_enc b v Hcast) as (EW & ES & EB).
  destruct Hcast as (_ & _ & _ & _ & _ & CW & CS & CB).
  unfold row_holds in *. destruct Hrow as (AW & AS & AB & DW & DS & DB). split.
  - pose proof (enc_of_ct _ _ EW). pose proof (enc_of_ct _ _ ES). pose proof (enc_of_ct _ _ EB).
    pose proof (enc_of_ct _ _ AW). pose proof (enc_of_ct _ _ AS). pose proof (enc_of_ct _ _ AB).
    apply apply_plus; [| |exact Hkr]; split_and!; assumption.
  - unfold row_val at 1, after_apply. cbn [aggregates]. rewrite lookup_insert_eq.
    split_and!; first [apply enc_of_mul; assumption|apply cadd_spec; assumption].
Qed.

(** Every vote of the list is applied, and the row holds the sums. *)
Lemma apply_votes_hold bs vs s W S B :
  Forall2 (fun b v => casts pk b (fst v) /\ v2_proposal_id (fst v) = pid /\
                      v2_tally_key_id (fst v) = kid) bs vs ->
  tally_keys s !! kid = Some key_rec -> row_holds s W S B ->
  exists s', apply_votes vs s = applied s' /\ tally_keys s' = tally_keys s /\
    (vs <> [] -> is_Some (aggregates s' !! pid)) /\
    row_holds s' (W + total bs) (S + margin bs) (B + participation bs).
Proof using All.
  intros HF. revert s W S B.
  induction HF as [|b [proof h] bs vs (Hc & Hp & Hk) _ IH]; intros s W S B Hkr Hrow.
  - exists s. unfold total, margin, participation. cbn. by rewrite !Z.add_0_r.
  - destruct (apply_dao_vote_holds b proof h s W S B Hp Hk Hkr Hrow Hc) as (Happ & Hh).
    cbn [apply_votes]. rewrite Happ.
    destruct (IH (after_apply proof h s) _ _ _ Hkr Hh) as (s2 & H1 & H2 & H3 & H4).
    exists s2. split; [done|]. split; [done|]. split.
    { intros _. destruct vs as [|v vs]; [|by apply H3]. injection H1 as <-.
      unfold after_apply. cbn [aggregates]. rewrite lookup_insert_eq. eauto. }
    unfold total, margin, participation in *. cbn [fmap list_fmap zsum foldr] in *.
    by rewrite !Z.add_assoc.
Qed.

(** *** Applying and rolling back a block of votes *)

Definition agg_sum (a : dao_proposal_aggregate) (vs : list (vote_proof_v2 * hash)) :=
  fold_left (fun a v => agg_plus a (fst v)) vs a.

Definition undo_row (a : dao_proposal_aggregate) (t : gmap hash dao_proposal_aggregate) :=
  if agg_identity a then delete pid t else <[pid := a]> t.

Definition block_nullifiers (vs : list (vote_proof_v2 * hash)) : list hash :=
  vs ≫= fun v => v2_nullifiers (fst v).

Lemma block_nullifiers_cons v vs :
  block_nullifiers (v :: vs) = v2_nullifiers (fst v) ++ block_nullifiers vs.
Proof. done. Qed.

Lemma agg_sum_wf a vs : agg_wf a -> Forall (fun v => vote_wf (fst v)) vs -> agg_wf (agg_sum a vs).
Proof using Hpk H0.
  intros Ha Hvs. revert a Ha. induction Hvs as [|v vs Hv _ IH]; intros a Ha; [exact Ha|].
  apply IH. by apply agg_plus_wf.
Qed.

Lemma agg_sum_plus a v vs : agg_wf a -> vote_wf v -> Forall (fun v => vote_wf (fst v)) vs ->
  agg_sum (agg_plus a v) vs = agg_plus (agg_sum a vs) v.
Proof using Hpk H0.
  intros Ha Hv Hvs. revert a Ha. induction Hvs as [|w vs Hw _ IH]; intros a Ha; [done|].
  cbn [agg_sum fold_left]. rewrite agg_plus_swap by done. apply IH. by apply agg_plus_wf.
Qed.

Lemma rollback_plus v h t aggs recs nulls a :
  vote_wf v -> agg_wf a -> tk_key_id key_rec = kid -> t !! kid = Some key_rec ->
  rollback_dao_vote v h {| tally_keys := t; aggregates := <[pid := agg_plus a v]> aggs;
                           vote_records := recs; vote_nullifiers := nulls |} =
  Some {| tally_keys := t; aggregates := undo_row a aggs; vote_records := delete h recs;
          vote_nullifiers := fold_left (fun t nf => delete (pid ++ nf) t) (v2_nullifiers v) nulls |}.
Proof using All.
  intros (Hp & Hk & EW & ES & EB & CW & CS & CB) (AW & AS & AB & DW & DS & DB) Hkk Hkr.
  apply (rollback_after_apply v h
    {| tally_keys := t; aggregates := aggs; vote_records := recs; vote_nullifiers := nulls |} a);
    try assumption;
    first [apply undo_add; [assumption..|]; apply add_spec; assumption|apply subKeys_cadd; assumption].
Qed.

Fixpoint rollback_votes (vs : list (vote_proof_v2 * hash)) (s : dao_db) : option dao_db :=
  match vs with
  | [] => Some s
  | (proof, h) :: rest => s' ← rollback_dao_vote proof h s; rollback_votes rest s'
  end.

(** No sum of the row and later votes of the block is the neutral aggregate. *)
Definition no_cancellation (a : dao_proposal_aggregate) (vs : list (vote_proof_v2 * hash)) : Prop :=
  forall k, (0 < k < length vs)%nat -> agg_identity (agg_sum a (drop k vs)) = false.

Lemma rollback_votes_spec vs t aggs recs nulls a :
  vs <> [] -> Forall (fun v => vote_wf (fst v)) vs -> agg_wf a -> no_cancellation a vs ->
  tk_key_id key_rec = kid -> t !! kid = Some key_rec ->
  rollback_votes vs {| tally_keys := t; aggregates := <[pid := agg_sum a vs]> aggs;
                       vote_records := recs; vote_nullifiers := nulls |} =
  Some {| tally_keys := t; aggregates := undo_row a aggs;
          vote_records := fold_left (fun t v => delete (snd v) t) vs recs;
          vote_nullifiers := fold_left (fun t nf => delete (pid ++ nf) t) (block_nullifiers vs) nulls |}.
Proof using All.
  intros Hne Hvs Ha Hnc Hkk Hkr. revert recs nulls Hne Hnc.
  induction Hvs as [|[v h] vs Hv Hvs IH]; intros recs nulls Hne Hnc; [done|].
  cbn [rollback_votes fst snd]. change (agg_sum a ((v, h) :: vs)) with (agg_sum (agg_plus a v) vs).
  rewrite agg_sum_plus, rollback_plus by (assumption || by apply agg_sum_wf).
  rewrite block_nullifiers_cons, fold_left_app. cbn [mbind option_bind fold_left snd fst].
  destruct vs as [|v' vs']; [done|].
  unfold undo_row at 1. assert (agg_identity (agg_sum a (v' :: vs')) = false) as ->
    by (apply (Hnc 1%nat); cbn [length]; lia).
  apply IH; [done|]. intros k Hk. apply (Hnc (S k)). cbn [length] in *. lia.
Qed.

Lemma apply_votes_spec vs s : vs <> [] -> Forall (fun v => vote_wf (fst v)) vs ->
  agg_wf (row_val s) -> tally_keys s !! kid = Some key_rec ->
  apply_votes vs s = applied
    {| tally_keys := tally_keys s; aggregates := <[pid := agg_sum (row_val s) vs]> (aggregates s);
       vote_records := fold_left (fun t v => <[snd v := vote_record (fst v) (snd v)]> t) vs (vote_records s);
       vote_nullifiers := fold_left (fun t nf => <[pid ++ nf := tt]> t) (block_nullifiers vs)
                            (vote_nullifiers s) |}.
Proof using All.
  intros Hne Hvs. revert s Hne. induction Hvs as [|[v h] vs Hv Hvs IH]; intros s Hne Hwf Hkr; [done|].
  cbn [apply_votes]. rewrite apply_plus by assumption.
  rewrite block_nullifiers_cons, fold_left_app. cbn [fold_left fst snd].
  destruct vs as [|v' vs']; [done|].
  assert (row_val (after_apply v h s) = agg_plus (row_val s) v) as Hrow.
  { unfold row_val at 1, after_apply. cbn [aggregates]. by rewrite lookup_insert_eq. }
  rewrite IH; [|done|rewrite Hrow; by apply agg_plus_wf|exact Hkr]. rewrite Hrow.
  unfold after_apply. cbn [tally_keys aggregates vote_records vote_nullifiers].
  by rewrite insert_insert_eq.
Qed.

(** The row before the block: absent, or well formed and not neutral. *)
Definition row_ok (s : dao_db) : Prop :=
  match aggregates s !! pid with
  | None => True
  | Some a => agg_wf a /\ agg_identity a = false
  end.

Lemma row_ok_wf s : row_ok s -> agg_wf (row_val s) /\ undo_row (row_val s) (aggregates s) = aggregates s.
Proof using Hpk H0.
  unfold row_ok, row_val, undo_row. destruct (aggregates s !! pid) as [a|] eqn:Ha; cbn [from_option id].
  - intros [Hwf ->]. split; [exact Hwf|]. by apply insert_id.
  - intros _. rewrite agg_neutral_identity. split; [apply agg_neutral_wf|]. by apply delete_id.
Qed.

Lemma votes_undone vs s : row_ok s -> no_cancellation (row_val s) vs ->
  Forall (fun v => vote_wf (fst v)) vs -> tk_key_id key_rec = kid ->
  tally_keys s !! kid = Some key_rec ->
  Forall (fun v => vote_records s !! snd v = None) vs ->
  Forall (fun nf => vote_nullifiers s !! (pid ++ nf) = None) (block_nullifiers vs) ->
  exists s', apply_votes vs s = applied s' /\ rollback_votes vs s' = Some s.
Proof using All.
  intros Hrow Hnc Hvs Hkk Hkr Hrec Hnul. destruct (row_ok_wf s Hrow) as [Hwf Hundo].
  destruct vs as [|v vs]; [exists s; done|]. eexists. split; [by apply apply_votes_spec|].
  rewrite rollback_votes_spec by done. rewrite Hundo. f_equal.
  rewrite (inserts_undone snd (fun v => vote_record (fst v) (snd v))) by exact Hrec.
  rewrite (inserts_undone (app pid) (fun _ => tt)) by exact Hnul. by destruct s.
Qed.

End aggregate.

(** ** The result of an election *)

Lemma zsum_fmap_cons {A} (g : A -> Z) a l : zsum (g <$> a :: l) = g a + zsum (g <$> l).
Proof. done. Qed.

Lemma totals l : total l = yes_total l + no_total l /\ margin l = yes_total l - no_total l.
Proof.
  unfold total, margin, yes_total, no_total.
  induction l as [|b l [IH1 IH2]]; [done|]. rewrite !zsum_fmap_cons, IH1, IH2.
  unfold b_signed. destruct (b_yes b); lia.
Qed.

Lemma totals_nonneg l : Forall (fun b => 0 <= b_weight b /\ 0 <= b_balance b) l ->
  0 <= yes_total l /\ 0 <= no_total l /\ 0 <= participation l.
Proof.
  unfold yes_total, no_total, participation.
  induction 1 as [|b l [Hw Hb] _ IH]; [done|]. rewrite !zsum_fmap_cons. destruct (b_yes b); lia.
Qed.

Lemma decode_signed_mod S n : 2 * Z.abs S < n -> Z.abs S < 2 ^ 128 ->
  decode_signed (S mod n) n = (S <? 0, Z.abs S).
Proof.
  intros Hn HS. unfold decode_signed, u128. rewrite Z.shiftr_div_pow2, Z.pow_1_r by lia.
  pose proof (Z.div_mod n 2 ltac:(lia)). pose proof (Z.mod_pos_bound n 2 ltac:(lia)).
  destruct (S <? 0) eqn:Hneg; to_prop.
  - assert (S mod n = n + S) as -> by (symmetry; apply Z.mod_unique_pos with (-1); lia).
    rewrite (proj2 (Z.leb_gt _ _)) by lia. f_equal. rewrite Z.mod_small; lia.
  - rewrite (Z.mod_small S n) by lia. rewrite (proj2 (Z.leb_le _ _)) by lia.
    f_equal. rewrite Z.mod_small; lia.
Qed.

Lemma bn_to_u128_mod x n : 0 <= x < n -> x < 2 ^ 128 -> bn_to_u128 (x mod n) = x.
Proof. intros Hx H128. unfold bn_to_u128, u128. rewrite (Z.mod_small x) by lia. apply Z.mod_small. lia. Qed.

Section election.
Context `{DigestLaws}.

(** What the code checks of a key record. *)
Record key_usable (key_rec : dao_tally_key_record) (pk : PaillierPublicKey) : Prop := {
  ku_modulus : deserialize_modulus (tk_N key_rec) = Some pk;
  ku_id : length (tk_key_id key_rec) = 32%nat;
  ku_nonempty : tk_committee_members key_rec <> [];
  ku_members : length (tk_V_K_i key_rec) = length (tk_committee_members key_rec);
  ku_threshold : tk_threshold key_rec <> 0;
}.

(** And what key generation promises: the members hold the key. *)
Definition committee_key (key_rec : dao_tally_key_record) (pk : PaillierPublicKey) (f : Z -> Z) : Prop :=
  key_usable key_rec pk /\
  holds_key pk (tk_V key_rec) f (tk_threshold key_rec) (BN_bin2bn (tk_theta_bytes key_rec)) (tk_V_K_i key_rec).

(** The threshold and the verification keys that a certificate is checked
    against: those of the share set when it serves as evidence, and those of the
    key record otherwise. *)
Definition decides_with (key_rec : dao_tally_key_record) (pk : PaillierPublicKey) (event : option dao_share_set_record)
    (T : Z) (vks : list bytes) : Prop :=
  match use_evidence key_rec event with
  | None => T = tk_threshold key_rec /\ vks = tk_V_K_i key_rec
  | Some e =>
      ss_share_set_id e <> 0 /\ ss_threshold e = T /\ ss_VK_i e = vks /\
      ss_committee_members e <> [] /\ length (ss_committee_members e) = length vks /\
      Forall (fun v => length v = PAILLIER_CT_BYTES) vks /\
      reshare_contributions_ok pk key_rec (ss_contributions e) (ss_contributor_indices e) (ss_contributor_vk e)
        (ss_committee_members e) vks = true
  end.

Lemma use_evidence_some key_rec event e : use_evidence key_rec event = Some e ->
  event = Some e /\ ss_contributions e <> [] /\ length (ss_contributions e) = length (ss_contributor_indices e) /\
  length (ss_contributions e) = length (ss_contributor_vk e).
Proof.
  unfold use_evidence. destruct event as [e'|]; [|done]. case_match eqn:E; [|done]. intros [= ->].
  rewrite !andb_true_iff, negb_true_iff, is_empty_false, !Nat.eqb_eq in E. tauto.
Qed.

(** Verification finds the committee that the certificate was built with. *)
Lemma effective_committee_spec key_rec pk event T vks cert : decides_with key_rec pk event T vks -> 0 < T <= zlen vks ->
  let evidence := use_evidence key_rec event in
  per_event_share_set_id cert = match evidence with Some e => ss_share_set_id e | None => 0 end ->
  cert_threshold cert = match evidence with Some e => ss_threshold e | None => 0 end ->
  member_pubkeys cert = match evidence with Some e => ss_committee_members e | None => [] end ->
  per_event_VK_i cert = match evidence with Some e => ss_VK_i e | None => [] end ->
  contributions cert = match evidence with Some e => ss_contributions e | None => [] end ->
  contributor_indices cert = match evidence with Some e => ss_contributor_indices e | None => [] end ->
  contributor_vk cert = match evidence with Some e => ss_contributor_vk e | None => [] end ->
  effective_committee pk key_rec cert = Some (T, vks).
Proof.
  unfold decides_with. intros Hd HT E1 E2 E3 E4 E5 E6 E7. unfold effective_committee. rewrite E1, E2, E3, E4, E5, E6, E7.
  destruct (use_evidence key_rec event) as [e|] eqn:Hu; [|by destruct Hd as [-> ->]].
  destruct Hd as (Hid & <- & <- & Hne & Hl & Hvk & Hok). destruct (use_evidence_some _ _ _ Hu) as (_ & Hc & L1 & L2).
  rewrite (proj2 (Z.eqb_neq (ss_share_set_id e) 0)), (proj2 (is_empty_false _) Hc), (proj2 (is_empty_false _) Hne), <- L1, <- L2, Hl,
    !Nat.eqb_refl, (proj2 (Z.eqb_neq (ss_threshold e) 0)), (proj2 (Z.ltb_ge _ _)) by lia. cbn [negb orb].
  assert (existsb (fun v => negb (length v =? PAILLIER_CT_BYTES)%nat) (ss_VK_i e) = false) as ->.
  { apply not_true_iff_false. rewrite existsb_Exists, Exists_exists. intros (v & Hv & E). rewrite Forall_forall in Hvk.
    by rewrite (Hvk v Hv), Nat.eqb_refl in E. }
  by rewrite Hok.
Qed.

Lemma evaluate_totals_spec pk snap q cert yes no B :
  0 <= yes -> 0 <= no -> yes + no <= W_MAX -> 2 * (yes + no) < pk_N pk ->
  0 <= B < 2 ^ 128 -> B < pk_N pk -> 0 <= q <= 100 -> 0 <= snap_circulating snap < 2 ^ 120 ->
  W_total cert = yes + no -> s_negative cert = (yes - no <? 0) -> S_abs cert = Z.abs (yes - no) ->
  B_total cert = B ->
  evaluate_totals pk snap q cert ((yes + no) mod pk_N pk) ((yes - no) mod pk_N pk) (B mod pk_N pk) =
  Some (with_evaluation cert yes no
    {| ev_quorum_threshold := snap_circulating snap * q / 100;
       ev_quorum_met := snap_circulating snap * q / 100 <=? B; ev_majority_met := no <? yes;
       ev_passed := (snap_circulating snap * q / 100 <=? B) && (no <? yes) |}).
Proof.
  intros Hy Hn HW HN HB HBN Hq Hc E1 E2 E3 E4. unfold W_MAX in HW.
  assert (forall x, 0 <= x < 2 ^ 128 -> u128 x = x) as Hu by (intros; by apply Z.mod_small).
  unfold evaluate_totals, bn_to_u128. rewrite decode_signed_mod by lia.
  rewrite (Z.mod_small (yes + no)), (Z.mod_small B) by lia.
  rewrite !Hu by lia. rewrite E1, E2, E3, E4, !Z.eqb_refl, Bool.eqb_reflx. cbn [negb].
  unfold W_MAX. rewrite !(proj2 (Z.ltb_ge _ _)) by lia.
  assert (Z.land (yes + no + Z.abs (yes - no)) 1 = 0) as ->.
  { change 1 with (Z.ones 1). rewrite Z.land_ones by lia. rewrite Z.pow_1_r.
    apply Z.mod_divide; [lia|]. exists (Z.max yes no). lia. }
  cbn [Z.eqb negb].
  assert ((if yes - no <? 0 then (yes + no - Z.abs (yes - no)) / 2
           else (yes + no + Z.abs (yes - no)) / 2) = yes) as ->.
  { case_match; to_prop; symmetry; apply Z.div_unique_exact; lia. }
  replace (yes + no - yes) with no by ring. rewrite Hu by lia.
  unfold dao_evaluate_v2_tally. rewrite (proj2 (Z.ltb_ge _ _)) by lia. cbn [mbind option_bind].
  by rewrite Hu by nia.
Qed.

(** A certificate over partial decryptions that recover known totals. *)
Lemma certificate_of_sets key_rec pk T vks event pid snap q w x b Ws Ss Bs yes no B :
  pk_ok pk -> key_usable key_rec pk -> decides_with key_rec pk event T vks -> 0 < T <= zlen vks ->
  length w = PAILLIER_CT_BYTES -> length x = PAILLIER_CT_BYTES -> length b = PAILLIER_CT_BYTES ->
  check_set pk (tk_V key_rec) vks T Ws w = true -> check_set pk (tk_V key_rec) vks T Ss x = true ->
  check_set pk (tk_V key_rec) vks T Bs b = true ->
  recover pk (BN_bin2bn (tk_theta_bytes key_rec)) T Ws = Some ((yes + no) mod pk_N pk) ->
  recover pk (BN_bin2bn (tk_theta_bytes key_rec)) T Ss = Some ((yes - no) mod pk_N pk) ->
  recover pk (BN_bin2bn (tk_theta_bytes key_rec)) T Bs = Some (B mod pk_N pk) ->
  0 <= yes -> 0 <= no -> yes + no <= W_MAX -> 2 * (yes + no) < pk_N pk ->
  0 <= B < 2 ^ 128 -> B < pk_N pk -> 0 <= q <= 100 -> 0 <= snap_circulating snap < 2 ^ 120 ->
  exists cert cert',
    dao_build_tally_certificate key_rec pid (snap_height snap) w x b Ws Ss Bs event = Some cert /\
    dao_verify_tally_certificate key_rec snap q w x b cert = Some cert' /\
    cert_proposal_id cert' = pid /\ vote_end_height cert' = snap_height snap /\ cert_key_id cert' = tk_key_id key_rec /\
    YES_weight cert' = yes /\ NO_weight cert' = no /\ B_total cert' = B /\
    passed cert' = (snap_circulating snap * q / 100 <=? B) && (no <? yes).
Proof.
  intros Hpk Hu Hd HT LW LS LB CW CS CB RW RS RB Hy Hn Hmax HN HB1 HB2 Hqp Hc.
  destruct Hu as [Hmod Hid Hne Hmem Hthr]. pose proof (proj2 (is_empty_false _) Hne) as Hemp.
  assert (match use_evidence key_rec event with Some e => ss_threshold e | None => tk_threshold key_rec end = T /\
          match use_evidence key_rec event with Some e => ss_VK_i e | None => tk_V_K_i key_rec end = vks) as (HET & HEv).
  { unfold decides_with in Hd. destruct (use_evidence key_rec event) as [e|]; [tauto|by destruct Hd as [-> ->]]. }
  do 2 eexists. split.
  { unfold dao_build_tally_certificate.
    rewrite LW, LS, LB, Hid, Hemp, Hmem, !Nat.eqb_refl. cbn [negb].
    rewrite (proj2 (Z.eqb_neq (tk_threshold key_rec) 0)) by done. rewrite Hmod.
    cbn [mbind option_bind]. rewrite HET, HEv.
    rewrite (proj2 (Z.eqb_neq (zlen _) 0)), (proj2 (Z.eqb_neq T 0)),
      (proj2 (Z.ltb_ge _ _)) by (clear -HT; lia). cbn [orb]. rewrite CW, CS, CB. cbn [negb].
    rewrite RW, RS, RB. cbn [mbind option_bind].
    rewrite decode_signed_mod, !bn_to_u128_mod by (unfold W_MAX in *; lia). reflexivity. }
  split.
  { unfold dao_verify_tally_certificate.
    cbn [cert_key_id vote_end_height aggregate_ciphertext_hash cert_W cert_S cert_B].
    rewrite Hid, beq_refl, Hemp, Hmem, LW, LS, LB, beq_refl, !Nat.eqb_refl, Z.eqb_refl. cbn [negb].
    rewrite (proj2 (Z.eqb_neq (tk_threshold key_rec) 0)) by done. rewrite Hmod. cbn [mbind option_bind].
    rewrite (effective_committee_spec key_rec pk event T vks) by (assumption || reflexivity).
    cbn [mbind option_bind]. rewrite CW, CS, CB. cbn [negb].
    rewrite RW, RS, RB. cbn [mbind option_bind].
    apply evaluate_totals_spec; (assumption || reflexivity). }
  split_and!; reflexivity.
Qed.

(** A quorum's certificate over aggregates of known plaintexts. *)
Lemma certificate_correct key_rec pk f T vks event subset rW rS rB pid snap q w x b yes no B :
  key_usable key_rec pk -> decides_with key_rec pk event T vks ->
  holds_key pk (tk_V key_rec) f T (BN_bin2bn (tk_theta_bytes key_rec)) vks ->
  deciding pk T vks subset rW -> deciding pk T vks subset rS -> deciding pk T vks subset rB ->
  enc_of pk w (yes + no) -> enc_of pk x (yes - no) -> enc_of pk b B ->
  0 <= yes -> 0 <= no -> yes + no <= W_MAX -> 2 * (yes + no) < pk_N pk ->
  0 <= B < 2 ^ 128 -> B < pk_N pk -> 0 <= q <= 100 -> 0 <= snap_circulating snap < 2 ^ 120 ->
  exists Ws Ss Bs cert cert',
    members_decrypt pk (tk_V key_rec) vks f subset rW w = Some Ws /\
    members_decrypt pk (tk_V key_rec) vks f subset rS x = Some Ss /\
    members_decrypt pk (tk_V key_rec) vks f subset rB b = Some Bs /\
    dao_build_tally_certificate key_rec pid (snap_height snap) w x b Ws Ss Bs event = Some cert /\
    dao_verify_tally_certificate key_rec snap q w x b cert = Some cert' /\
    cert_proposal_id cert' = pid /\ vote_end_height cert' = snap_height snap /\ cert_key_id cert' = tk_key_id key_rec /\
    YES_weight cert' = yes /\ NO_weight cert' = no /\ B_total cert' = B /\
    passed cert' = (snap_circulating snap * q / 100 <=? B) && (no <? yes).
Proof.
  intros Hu Hd Hk DW DS DB EW ES EB Hy Hn Hmax HN HB1 HB2 Hqp Hc.
  pose proof (tk_pk _ _ _ _ (hk_key _ _ _ _ _ _ Hk)) as Hpk. pose proof (proj1 (hk_size _ _ _ _ _ _ Hk)) as HT.
  destruct (members_decrypt_ok _ _ _ _ _ _ _ _ w _ Hk DW (enc_of_ct pk Hpk _ _ EW) EW) as (Ws & MW & CW & RW).
  destruct (members_decrypt_ok _ _ _ _ _ _ _ _ x _ Hk DS (enc_of_ct pk Hpk _ _ ES) ES) as (Ss & MS & CS & RS).
  destruct (members_decrypt_ok _ _ _ _ _ _ _ _ b _ Hk DB (enc_of_ct pk Hpk _ _ EB) EB) as (Bs & MB & CB & RB).
  destruct (certificate_of_sets key_rec pk T vks event pid snap q w x b Ws Ss Bs yes no B Hpk Hu Hd HT (enc_of_length _ _ _ Hpk EW)
    (enc_of_length _ _ _ Hpk ES) (enc_of_length _ _ _ Hpk EB) CW CS CB RW RS RB Hy Hn Hmax HN HB1 HB2 Hqp Hc) as (cert & cert' & C).
  exists Ws, Ss, Bs, cert, cert'. exact (conj MW (conj MS (conj MB C))).
Qed.

(** The rows of a block of votes hold the totals of an open count. *)
Lemma votes_hold_totals `{CurveLaws} key_rec pk pid s vs bs : pk_ok pk -> key_usable key_rec pk ->
  tally_keys s !! tk_key_id key_rec = Some key_rec -> aggregates s !! pid = None -> vs <> [] ->
  Forall2 (fun b v => casts pk b (fst v) /\ v2_proposal_id (fst v) = pid /\
                      v2_tally_key_id (fst v) = tk_key_id key_rec) bs vs ->
  exists s' a, apply_votes vs s = applied s' /\ aggregates s' !! pid = Some a /\
    enc_of pk (aggregate_E_W a) (yes_total bs + no_total bs) /\
    enc_of pk (aggregate_E_S a) (yes_total bs - no_total bs) /\ enc_of pk (aggregate_E_B a) (participation bs) /\
    total bs = yes_total bs + no_total bs /\ 0 <= yes_total bs /\ 0 <= no_total bs /\ 0 <= participation bs.
Proof.
  intros Hpk Hu Hkr Hnone Hne HF.
  destruct (apply_votes_hold pk Hpk pid (tk_key_id key_rec) key_rec (ku_id _ _ Hu)
    (ku_modulus _ _ Hu) bs vs s 0 0 0 HF Hkr) as (s' & Happ & _ & Hsome & Hrow).
  { by apply row_holds_none. }
  destruct (Hsome Hne) as [a Ha]. exists s', a. split; [done|]. split; [done|].
  unfold row_holds, row_val in Hrow. rewrite Ha in Hrow. cbn [from_option id] in Hrow.
  rewrite !Z.add_0_l in Hrow. destruct Hrow as (EW & ES & EB & _).
  destruct (totals bs) as [Ht Hm]. rewrite Ht in *. rewrite Hm in ES.
  assert (Forall (fun b => 0 <= b_weight b /\ 0 <= b_balance b) bs) as Hnn.
  { clear -HF. induction HF as [|b v bs vs ((Hw & Hb & _) & _) _ IH]; constructor; auto. }
  destruct (totals_nonneg bs Hnn) as (Hy & Hno & Hp). split_and!; done.
Qed.

End election.

(** C1: Encrypted voting computes the result of an open count.  The votes cast
    for a proposal are all applied; whichever quorum of the committee then
    decrypts the aggregates, its members' partial decryptions and proofs are
    produced, the certificate built of them verifies, and verification finds the
    sum of the yes weights, the sum of the no weights and the sum of the
    balances, and passes the proposal exactly when the balances reach the quorum
    of the circulating supply and yes outweighs no. *)
Theorem v2_tally_correct `{CurveLaws} `{DigestLaws} key_rec pk f pid s vs bs snap q :
  committee_key key_rec pk f -> tally_keys s !! tk_key_id key_rec = Some key_rec ->
  aggregates s !! pid = None -> vs <> [] ->
  Forall2 (fun b v => casts pk b (fst v) /\ v2_proposal_id (fst v) = pid /\
                      v2_tally_key_id (fst v) = tk_key_id key_rec) bs vs ->
  total bs <= W_MAX -> 2 * total bs < pk_N pk ->
  participation bs < 2 ^ 128 -> participation bs < pk_N pk ->
  0 <= q <= 100 -> 0 <= snap_circulating snap < 2 ^ 120 ->
  exists s' a, apply_votes vs s = applied s' /\ aggregates s' !! pid = Some a /\
  forall subset rW rS rB,
    deciding pk (tk_threshold key_rec) (tk_V_K_i key_rec) subset rW ->
    deciding pk (tk_threshold key_rec) (tk_V_K_i key_rec) subset rS ->
    deciding pk (tk_threshold key_rec) (tk_V_K_i key_rec) subset rB ->
    exists Ws Ss Bs cert cert',
      members_decrypt pk (tk_V key_rec) (tk_V_K_i key_rec) f subset rW (aggregate_E_W a) = Some Ws /\
      members_decrypt pk (tk_V key_rec) (tk_V_K_i key_rec) f subset rS (aggregate_E_S a) = Some Ss /\
      members_decrypt pk (tk_V key_rec) (tk_V_K_i key_rec) f subset rB (aggregate_E_B a) = Some Bs /\
      dao_build_tally_certificate key_rec pid (snap_height snap)
        (aggregate_E_W a) (aggregate_E_S a) (aggregate_E_B a) Ws Ss Bs None = Some cert /\
      dao_verify_tally_certificate key_rec snap q
        (aggregate_E_W a) (aggregate_E_S a) (aggregate_E_B a) cert = Some cert' /\
      YES_weight cert' = yes_total bs /\ NO_weight cert' = no_total bs /\
      B_total cert' = participation bs /\
      (passed cert' = true <->
       snap_circulating snap * q / 100 <= participation bs /\ no_total bs < yes_total bs).
Proof.
  intros [Hu Hk] Hkr Hnone Hne HF HW HN HB1 HB2 Hq Hc.
  destruct (votes_hold_totals key_rec pk pid s vs bs (tk_pk _ _ _ _ (hk_key _ _ _ _ _ _ Hk)) Hu Hkr Hnone Hne HF)
    as (s' & a & Happ & Ha & EW & ES & EB & Ht & Hy & Hno & Hp). rewrite Ht in *.
  exists s', a. split; [done|]. split; [done|]. intros subset rW rS rB D1 D2 D3.
  destruct (certificate_correct key_rec pk f _ _ None subset rW rS rB pid snap q _ _ _ _ _ _
    Hu (conj eq_refl eq_refl) Hk D1 D2 D3 EW ES EB)
    as (Ws & Ss & Bs & cert & cert' & M1 & M2 & M3 & C1 & C2 & _ & _ & _ & C3 & C4 & C5 & C6); try done.
  exists Ws, Ss, Bs, cert, cert'. rewrite C6, andb_true_iff, Z.leb_le, Z.ltb_lt. done.
Qed.


(** ** Witnesses: an election with the committee of three *)

Definition kid323 : hash := replicate 32 7.
Definition vks323 (f : Z -> Z) : list bytes := map (fun i => verification_key pk323 V323 (f i)) (seqZ 1 3).
Definition key_rec323 : dao_tally_key_record :=
  {| tk_version := 1; tk_committee_size := 3; tk_t := 1; tk_committee_id_hash := replicate 32 0; tk_delta := replicate 32 0;
     tk_G := rev (le_bytes 256 324); tk_activation_height := 0; tk_dkg_transcript_hash := replicate 32 0;
     tk_key_id := kid323; tk_N := rev (le_bytes 256 323); tk_theta_bytes := [theta323]; tk_V := V323;
     tk_threshold := 2; tk_committee_members := [[1]; [2]; [3]]; tk_V_K_i := vks323 share323;
     tk_vss_P := [23]; tk_vss_P_prime := [11]; tk_vss_g := [4]; tk_vss_h := [2] |}.

Lemma share323_small i : 1 <= i <= DAO_DKG_MAX_COMMITTEE_SIZE -> Z.abs (share323 i) < 2 ^ 9000.
Proof.
  unfold share323, DAO_DKG_MAX_COMMITTEE_SIZE. intros Hi. apply Z.lt_le_trans with (2 ^ 8); [lia|by apply Z.pow_le_mono_r].
Qed.

Lemma key_rec323_ok : committee_key key_rec323 pk323 share323.
Proof.
  split; [split; [by vm_compute|done|done|done|done]|].
  split; [exact key323|exact V323_ct|by vm_compute|exact share323_small|done|by vm_compute].
Qed.

Definition ballots323 : list ballot :=
  [{| b_weight := 40; b_yes := true; b_balance := 30; b_rW := 2; b_rS := 3; b_rB := 5 |};
   {| b_weight := 25; b_yes := false; b_balance := 10; b_rW := 7; b_rS := 11; b_rB := 13 |}].

Definition proof323 (b : ballot) (nf : Z) : vote_proof_v2 :=
  let ct m r := default [] (encrypt pk323 m r) in
  let proof := {| cp_A_C := []; cp_A_P := []; cp_e := []; cp_z_m := []; cp_z_r := []; cp_z_rho := [] |} in
  {| v2_version := 2; v2_proposal_id := replicate 32 1; v2_vote_height := 100; v2_tally_key_id := kid323;
     v2_inputs := []; proof_W := proof; proof_S := proof; proof_B := proof;
     direction_proof := {| or_c_yes := []; or_s_yes := []; or_c_no := []; or_s_no := [] |}; transcript_hash := [];
     v2_nullifiers := [replicate 32 nf]; C_W := point 1 0; C_S := point 2 0; C_B := point 3 0;
     E_W := ct (b_weight b) (b_rW b);
     E_S := ct (default 0 (encode_signed_value (b_signed b) 323)) (b_rS b);
     E_B := ct (b_balance b) (b_rB b) |}.

Definition votes323 : list (vote_proof_v2 * hash) :=
  imap (fun i b => (proof323 b (Z.of_nat i + 1), replicate 32 (Z.of_nat i + 50))) ballots323.

Definition db323 : dao_db :=
  {| tally_keys := {[ kid323 := key_rec323 ]}; aggregates := ∅; vote_records := ∅; vote_nullifiers := ∅ |}.

Definition snap323 : dao_supply_snapshot :=
  {| snap_height := 200; snap_minted := 0; snap_treasury := 0; snap_burned := 0;
     snap_circulating := 100 |}.

Lemma votes323_cast : Forall2 (fun b v => casts pk323 b (fst v) /\
  v2_proposal_id (fst v) = replicate 32 1 /\ v2_tally_key_id (fst v) = kid323) ballots323 votes323.
Proof. repeat constructor; vm_compute; congruence. Qed.

Lemma deciding323 : deciding pk323 2 (vks323 share323) [1; 3] (fun i => 10 * i mod 323).
Proof. split; [exact quorum323|]. split; [by repeat constructor|]. intros i. by apply Z.mod_pos_bound. Qed.

Lemma v2_tally_correct_witness :
  exists s' a Ws Ss Bs cert cert',
    apply_votes votes323 db323 = applied s' /\ aggregates s' !! replicate 32 1 = Some a /\
    members_decrypt pk323 V323 (vks323 share323) share323 [1; 3] (fun i => 10 * i mod 323) (aggregate_E_W a) = Some Ws /\
    dao_build_tally_certificate key_rec323 (replicate 32 1) 200
      (aggregate_E_W a) (aggregate_E_S a) (aggregate_E_B a) Ws Ss Bs None = Some cert /\
    dao_verify_tally_certificate key_rec323 snap323 30
      (aggregate_E_W a) (aggregate_E_S a) (aggregate_E_B a) cert = Some cert' /\
    YES_weight cert' = 40 /\ NO_weight cert' = 25 /\ B_total cert' = 40 /\ passed cert' = true.
Proof.
  destruct (@v2_tally_correct model_curve model_group toy_digests toy_digest_laws key_rec323 pk323 share323
    (replicate 32 1) db323 votes323 ballots323 snap323 30 key_rec323_ok) as (s' & a & E1 & E2 & E3);
    [by vm_compute|by vm_compute|done|exact votes323_cast|vm_compute; intuition congruence..|].
  destruct (E3 [1; 3] _ _ _ deciding323 deciding323 deciding323)
    as (Ws & Ss & Bs & cert & cert' & M1 & M2 & M3 & C1 & C2 & C3 & C4 & C5 & C6).
  exists s', a, Ws, Ss, Bs, cert, cert'. do 5 (split; [assumption|]). do 3 (split; [assumption|]).
  apply C6. vm_compute. intuition congruence.
Defined.

Lemma votes323_wf : Forall (fun v => vote_wf pk323 (replicate 32 1) kid323 (fst v)) votes323.
Proof.
  apply Forall_cons; split; [|apply Forall_cons; split; [|apply Forall_nil_2]];
    (split; [reflexivity|]; split; [reflexivity|];
     do 3 (split; [apply is_ct_dec; vm_compute; reflexivity|]); split; [|split]; vm_compute; reflexivity).
Qed.

