(* ===== verification/TallyShare.v ===== *)
(** * Tally shares and tally-result transactions

    [governance/dao_tally_share.cpp]: the message by which a member of the
    committee publishes its partial decryptions; [governance/dao_tally.cpp]: the
    encoding of the certificate; [governance/tally_manager.cpp]: producing a share
    and building the transaction that publishes the result;
    [cryptonote_core/blockchain.cpp]: receiving shares, and reading the
    certificate back from the transaction. *)

From S2P Require Import Prelude Archive Crypto TxExtra GovStore ParamExecution Paillier Threshold DkgProofs Pedersen Reshare Emission VoteV2 Tally.

(** ** The message of a member *)

Record dao_v2_tally_share := {
  ts_version : Z; ts_proposal_id : hash; ts_vote_end_height : Z; ts_tally_key_id : bytes;
  ts_reset_transcript_hash : hash; ts_aggregate_ciphertext_hash : hash; ts_member_index : Z;
  ts_partial_W : bytes; ts_partial_S : bytes; ts_partial_B : bytes;
  ts_proof_W : dao_partial_decryption_proof; ts_proof_S : dao_partial_decryption_proof;
  ts_proof_B : dao_partial_decryption_proof;
}.

Definition TALLY_SHARE_WIRE_VERSION : Z := 2.

Definition proof_sized (p : dao_partial_decryption_proof) : bool :=
  (length (pp_E p) =? 32)%nat && (length (pp_Z p) =? DAO_DKG_PARTIAL_PROOF_Z_BYTES)%nat.

(** The sizes that both directions insist on. *)
Definition tally_share_sized (s : dao_v2_tally_share) : bool :=
  (length (ts_partial_W s) =? PAILLIER_CT_BYTES)%nat && (length (ts_partial_S s) =? PAILLIER_CT_BYTES)%nat &&
  (length (ts_partial_B s) =? PAILLIER_CT_BYTES)%nat &&
  proof_sized (ts_proof_W s) && proof_sized (ts_proof_S s) && proof_sized (ts_proof_B s).

Definition push_proof (p : dao_partial_decryption_proof) : bytes :=
  le_bytes 4 (pp_member_index p) ++ push_bytes (pp_E p) ++ push_bytes (pp_Z p).

Definition pull_proof : reader dao_partial_decryption_proof := fun d =>
  '(i, d) ← read_le 4 d; '(e, d) ← pull_bytes d; '(z, d) ← pull_bytes d;
  Some ({| pp_member_index := i; pp_E := e; pp_Z := z |}, d).

Definition tally_share_serialize (s : dao_v2_tally_share) : option bytes :=
  if negb (ts_version s =? TALLY_SHARE_WIRE_VERSION) then None else
  if negb (tally_share_sized s) then None else
  Some ([ts_version s] ++ ts_proposal_id s ++ le_bytes 8 (ts_vote_end_height s) ++ push_bytes (ts_tally_key_id s) ++
        ts_reset_transcript_hash s ++ ts_aggregate_ciphertext_hash s ++ le_bytes 4 (ts_member_index s) ++
        push_bytes (ts_partial_W s) ++ push_bytes (ts_partial_S s) ++ push_bytes (ts_partial_B s) ++
        push_proof (ts_proof_W s) ++ push_proof (ts_proof_S s) ++ push_proof (ts_proof_B s)).

Definition read_tally_share : reader dao_v2_tally_share := fun d =>
  '(v, d) ← read_le 1 d;
  if negb (v =? TALLY_SHARE_WIRE_VERSION) then None else
  '(pid, d) ← read_raw 32 d; '(h, d) ← read_le 8 d; '(kid, d) ← pull_bytes d;
  '(rth, d) ← read_raw 32 d; '(ach, d) ← read_raw 32 d; '(mi, d) ← read_le 4 d;
  '(pW, d) ← pull_bytes d; '(pS, d) ← pull_bytes d; '(pB, d) ← pull_bytes d;
  '(zW, d) ← pull_proof d; '(zS, d) ← pull_proof d; '(zB, d) ← pull_proof d;
  let s := {| ts_version := v; ts_proposal_id := pid; ts_vote_end_height := h; ts_tally_key_id := kid;
              ts_reset_transcript_hash := rth; ts_aggregate_ciphertext_hash := ach; ts_member_index := mi;
              ts_partial_W := pW; ts_partial_S := pS; ts_partial_B := pB;
              ts_proof_W := zW; ts_proof_S := zS; ts_proof_B := zB |} in
  if negb (tally_share_sized s) then None else Some (s, d).

Definition MAX_SHARE_BYTES : Z := 8 * 1024.

Definition tally_share_deserialize (inp : bytes) : option dao_v2_tally_share :=
  if MAX_SHARE_BYTES <? zlen inp then None else parse_all read_tally_share inp.

(** ** The certificate on the wire *)

Definition set_entry_sized (x : Z * bytes * dao_partial_decryption_proof) : bool :=
  (length (snd (fst x)) =? PAILLIER_CT_BYTES)%nat && proof_sized (snd x).

Definition write_set_entry (x : Z * bytes * dao_partial_decryption_proof) : bytes :=
  le_bytes 4 (fst (fst x)) ++ push_bytes (snd (fst x)) ++ push_proof (snd x).

Definition partial_set_serialize (s : dao_partial_set) : option bytes :=
  if negb (length (member_indices s) =? length (partials s))%nat then None else
  if negb (length (proofs s) =? length (partials s))%nat then None else
  if DAO_DKG_MAX_COMMITTEE_SIZE <? zlen (member_indices s) then None else
  let l := zip (zip (member_indices s) (partials s)) (proofs s) in
  if negb (forallb set_entry_sized l) then None else
  Some (push_list write_set_entry l).

Definition read_set_entry : reader (Z * bytes * dao_partial_decryption_proof) := fun d =>
  '(i, d) ← read_le 4 d; '(p, d) ← pull_bytes d; '(z, d) ← pull_proof d;
  if negb (set_entry_sized (i, p, z)) then None else Some ((i, p, z), d).

Definition read_partial_set : reader dao_partial_set := fun d =>
  '(l, d) ← pull_list DAO_DKG_MAX_COMMITTEE_SIZE read_set_entry d;
  Some ({| member_indices := map (fun x => fst (fst x)) l; partials := map (fun x => snd (fst x)) l;
           proofs := map snd l |}, d).

Definition partial_set_deserialize (inp : bytes) : option dao_partial_set := parse_all read_partial_set inp.

Definition be128 (v : Z) : bytes := rev (le_bytes 16 v).
Definition flag (b : bool) : bytes := [if b then 1 else 0].

Definition CERT_WIRE_VERSION : Z := 6.

Definition cert_serialize (c : dao_tally_certificate) : option bytes :=
  w ← partial_set_serialize (cert_W c); x ← partial_set_serialize (cert_S c); b ← partial_set_serialize (cert_B c);
  Some ([CERT_WIRE_VERSION] ++ cert_proposal_id c ++ le_bytes 8 (vote_end_height c) ++ push_bytes (cert_key_id c) ++
        aggregate_ciphertext_hash c ++ push_bytes w ++ push_bytes x ++ push_bytes b ++
        be128 (W_total c) ++ flag (s_negative c) ++ be128 (S_abs c) ++ be128 (B_total c) ++
        be128 (YES_weight c) ++ be128 (NO_weight c) ++ be128 (quorum_threshold c) ++
        flag (quorum_met c) ++ flag (majority_met c) ++ flag (passed c) ++
        le_bytes 8 (per_event_share_set_id c) ++ le_bytes 4 (cert_threshold c) ++
        push_list push_bytes (member_pubkeys c) ++ push_list push_bytes (per_event_VK_i c) ++
        le_bytes 8 (base_share_set_id c) ++ push_list push_bytes (contributions c) ++
        push_list (le_bytes 4) (contributor_indices c) ++ push_list push_bytes (contributor_vk c)).

Definition read_be128 : reader Z := fun d => '(l, d) ← read_raw 16 d; Some (le_val (rev l), d).
Definition read_flag : reader bool := fun d => '(c, d) ← read_le 1 d; Some (negb (c =? 0), d).

(** What follows the hash of the aggregates. *)
Definition read_cert_body (pid : hash) (h : Z) (kid ach : bytes) : reader dao_tally_certificate := fun d =>
  '(w, d) ← pull_bytes d; '(x, d) ← pull_bytes d; '(b, d) ← pull_bytes d;
  W ← partial_set_deserialize w; S ← partial_set_deserialize x; B ← partial_set_deserialize b;
  '(wt, d) ← read_be128 d; '(sn, d) ← read_flag d; '(sa, d) ← read_be128 d; '(bt, d) ← read_be128 d;
  '(yw, d) ← read_be128 d; '(nw, d) ← read_be128 d; '(qt, d) ← read_be128 d;
  '(qm, d) ← read_flag d; '(mm, d) ← read_flag d; '(pa, d) ← read_flag d;
  '(sid, d) ← read_le 8 d; '(th, d) ← read_le 4 d;
  '(mp, d) ← pull_list DAO_DKG_MAX_COMMITTEE_SIZE (pull_sized 32) d;
  '(vk, d) ← pull_list DAO_DKG_MAX_COMMITTEE_SIZE pull_bytes d;
  '(bsid, d) ← read_le 8 d;
  '(co, d) ← pull_list DAO_DKG_MAX_COMMITTEE_SIZE pull_bytes d;
  '(ci, d) ← pull_list DAO_DKG_MAX_COMMITTEE_SIZE (read_le 4) d;
  '(cv, d) ← pull_list DAO_DKG_MAX_COMMITTEE_SIZE pull_bytes d;
  Some ({| cert_proposal_id := pid; vote_end_height := h; cert_key_id := kid; aggregate_ciphertext_hash := ach;
           cert_W := W; cert_S := S; cert_B := B; W_total := wt; s_negative := sn; S_abs := sa; B_total := bt;
           YES_weight := yw; NO_weight := nw; quorum_threshold := qt; quorum_met := qm; majority_met := mm; passed := pa;
           per_event_share_set_id := sid; cert_threshold := th; member_pubkeys := mp; per_event_VK_i := vk;
           base_share_set_id := bsid; contributions := co; contributor_indices := ci; contributor_vk := cv |}, d).

(** The hash of the aggregates is copied without looking whether the input goes
    that far: [cert_over_read] stands for reading past its end. *)
Inductive cert_read :=
| cert_over_read
| cert_refused
| cert_parsed (c : dao_tally_certificate).

Definition cert_deserialize (inp : bytes) : cert_read :=
  if zlen inp <? 1 + 32 + 8 + 32 then cert_refused else
  match ('(v, d) ← read_le 1 inp;
         if negb (v =? CERT_WIRE_VERSION) then None else
         '(pid, d) ← read_raw 32 d; '(h, d) ← read_le 8 d; '(kid, d) ← pull_bytes d; Some (pid, h, kid, d)) with
  | None => cert_refused
  | Some (pid, h, kid, d) =>
      if zlen d <? 32 then cert_over_read else
      match parse_all (read_cert_body pid h kid (take 32 d)) (drop 32 d) with
      | Some c => cert_parsed c
      | None => cert_refused
      end
  end.

(** ** Stored shares *)

Definition DAO_LOCAL_SHARE_ENVELOPE_VERSION : Z := 1.

(** An empty result is the failure. *)
Definition dao_pack_local_share (key_id raw_share : bytes) : bytes :=
  if negb (length key_id =? 32)%nat then [] else
  if is_empty raw_share then [] else
  [DAO_LOCAL_SHARE_ENVELOPE_VERSION] ++ key_id ++ raw_share.

Definition dao_unpack_local_share (packed expected_key_id : bytes) : option bytes :=
  if negb (length expected_key_id =? 32)%nat then None else
  if (length packed <? 1 + 32)%nat then None else
  if negb (nth 0 packed 0 =? DAO_LOCAL_SHARE_ENVELOPE_VERSION) then None else
  if negb (beq (take 32 (drop 1 packed)) expected_key_id) then None else
  let raw := drop (1 + 32) packed in
  if is_empty raw then None else Some raw.

(** Key generation exports a share as a sign byte and the shortest magnitude. *)
Definition export_local_share (sk : Z) : bytes := (if sk <? 0 then 1 else 0) :: BN_bn2bin (Z.abs sk).

(** How the tally reads a stored share. *)
Definition bn_from_signed_share (inp : bytes) : option Z :=
  match inp with
  | [] => None
  | sign :: mag => Some (if negb (sign =? 0) then - BN_bin2bn mag else BN_bin2bn mag)
  end.

Definition kReshareSignedBytes : nat := 2321.

(** How a resharing reads it. *)
Definition dao_load_local_share_value (raw : bytes) : option Z :=
  if (length raw =? kReshareSignedBytes)%nat then
    if negb (nth 0 raw 0 =? 0) && negb (nth 0 raw 0 =? 1) then None else
    Some (if negb (nth 0 raw 0 =? 0) then - BN_bin2bn (drop 1 raw) else BN_bin2bn (drop 1 raw))
  else Some (BN_bin2bn raw).

(** ** The node *)

(** The shares received for a proposal are in the order of their senders. *)
Record tally_node := {
  tn_chain : tally_state;
  tn_tally_key : option dao_tally_key_record;
  tn_share_sets : gmap Z dao_share_set_record;
  tn_local_shares : gmap (Z * Z) bytes;
  tn_current_share_set : Z;
  tn_tally_shares : gmap hash (list (bytes * dao_v2_tally_share));
}.

Definition latest_share_set_id_for_key_id (sets : gmap Z dao_share_set_record) (key_id : bytes) : Z :=
  if negb (length key_id =? 32)%nat then 0 else
  map_fold (fun sid rec best =>
    if (length (ss_key_id rec) =? 32)%nat && beq (ss_key_id rec) key_id then Z.max sid best else best) 0 sets.

Definition share_set_id_for_key_id `{Crypto} (key_id : bytes) : Z :=
  if negb (length key_id =? 32)%nat then 0 else
  let h := cn_fast_hash (key_id ++ str "share_set_id" ++ [0]) in
  let v := Z.land (le_val (take 4 h)) 4294967294 in
  if v <? 2 then 2 else v.

Section manager.
Context `{Digests} `{Crypto}.

(** The share set and the verification key that a partial decryption is bound
    to. *)
Definition share_source (n : tally_node) (key_rec : dao_tally_key_record) (position : Z)
    (event : option dao_share_set_record) : option (Z * bytes) :=
  match event with
  | Some e =>
      if (position <? 1) || (zlen (ss_VK_i e) <? position) then None else
      Some (ss_share_set_id e, nth (Z.to_nat (position - 1)) (ss_VK_i e) [])
  | None =>
      let cur := tn_current_share_set n in
      let matches := negb (cur =? 0) &&
        match tn_share_sets n !! cur with
        | Some ss => (length (ss_key_id ss) =? length (tk_key_id key_rec))%nat && beq (ss_key_id ss) (tk_key_id key_rec)
        | None => false
        end in
      if (position <? 1) || (zlen (tk_V_K_i key_rec) <? position) then None else
      Some (if matches then cur else share_set_id_for_key_id (tk_key_id key_rec),
            nth (Z.to_nat (position - 1)) (tk_V_K_i key_rec) [])
  end.

(** [TallyManager::produce_local_share]; [rW], [rS] and [rB] are drawn below the
    modulus.  The hash of the reset transcript keeps its initial zeros. *)
Definition produce_local_share (n : tally_node) (proposal_id : hash) (key_rec : dao_tally_key_record) (position : Z)
    (event : option dao_share_set_record) (rW rS rB : Z) : option dao_v2_tally_share :=
  prop ← proposals (t_policy (tn_chain n)) !! proposal_id;
  if position <? 1 then None else
  if negb (length (tk_key_id key_rec) =? 32)%nat then None else
  if negb (length (tk_V_K_i key_rec) =? length (tk_committee_members key_rec))%nat then None else
  '(share_set_id, proof_vk) ← share_source n key_rec position event;
  if share_set_id =? 0 then None else
  packed ← tn_local_shares n !! (share_set_id mod 2 ^ 32, position);
  raw ← dao_unpack_local_share packed (tk_key_id key_rec);
  sk ← bn_from_signed_share raw;
  agg ← aggregates (t_votes (tn_chain n)) !! proposal_id;
  if is_empty (aggregate_E_W agg) || is_empty (aggregate_E_S agg) || is_empty (aggregate_E_B agg) then None else
  pk ← deserialize_modulus (tk_N key_rec);
  '(pW, zW) ← do_channel pk (tk_V key_rec) proof_vk (aggregate_E_W agg) position sk rW;
  '(pS, zS) ← do_channel pk (tk_V key_rec) proof_vk (aggregate_E_S agg) position sk rS;
  '(pB, zB) ← do_channel pk (tk_V key_rec) proof_vk (aggregate_E_B agg) position sk rB;
  Some {| ts_version := 1; ts_proposal_id := proposal_id; ts_vote_end_height := voting_end_height prop;
          ts_tally_key_id := tk_key_id key_rec; ts_reset_transcript_hash := null_hash;
          ts_aggregate_ciphertext_hash :=
            dao_aggregate_ciphertext_hash (aggregate_E_W agg) (aggregate_E_S agg) (aggregate_E_B agg);
          ts_member_index := position; ts_partial_W := pW; ts_partial_S := pS; ts_partial_B := pB;
          ts_proof_W := zW; ts_proof_S := zS; ts_proof_B := zB |}.

(** [install_dao_v2_tally_broadcast]: what goes out for a share, if anything. *)
Definition tally_broadcast (s : dao_v2_tally_share) : option bytes := tally_share_serialize s.

Definition share_set_of (l : list dao_v2_tally_share) (partial : dao_v2_tally_share -> bytes)
    (proof : dao_v2_tally_share -> dao_partial_decryption_proof) : dao_partial_set :=
  {| member_indices := map ts_member_index l; partials := map partial l; proofs := map proof l |}.

(** The extra field of the transaction that carries a certificate. *)
Definition tally_result_extra (cert : dao_tally_certificate) : option bytes :=
  blob ← cert_serialize cert;
  Some (write_field (tx_extra_governance_payload {| gp_type := GO_TALLY_RESULT; gp_data := blob |})).

(** The latest share set of the key, and how many shares that asks for. *)
Definition node_event (n : tally_node) (key_rec : dao_tally_key_record) : option dao_share_set_record :=
  let latest_sid := latest_share_set_id_for_key_id (tn_share_sets n) (tk_key_id key_rec) in
  if latest_sid =? 0 then None else tn_share_sets n !! latest_sid.

Definition eff_threshold (key_rec : dao_tally_key_record) (event : option dao_share_set_record) : Z :=
  match event with
  | Some e => if is_empty (ss_contributions e) then tk_threshold key_rec else ss_threshold e
  | None => tk_threshold key_rec
  end.

(** [TallyManager::build_tally_result_transaction]: the extra field of a
    transaction that has neither inputs nor outputs. *)
Definition build_tally_result_transaction (quorum_percent : Z) (n : tally_node) (proposal_id : hash)
    (shares : list (bytes * dao_v2_tally_share)) (threshold : Z) : option bytes :=
  if bool_decide (is_Some (v2_outcomes (tn_chain n) !! proposal_id)) then None else
  prop ← proposals (t_policy (tn_chain n)) !! proposal_id;
  if negb (status prop =? PROPOSAL_STATUS_ACTIVE) then None else
  key_rec ← (if beq (tally_key_id prop) null_hash then tn_tally_key n
             else get_dao_tally_key_by_id (t_votes (tn_chain n)) (tally_key_id prop));
  let event := node_event n key_rec in
  let needed := eff_threshold key_rec event in
  if threshold <? needed then None else
  if zlen shares <? needed then None else
  agg ← aggregates (t_votes (tn_chain n)) !! proposal_id;
  if is_empty (aggregate_E_W agg) || is_empty (aggregate_E_S agg) || is_empty (aggregate_E_B agg) then None else
  let agg_hash := dao_aggregate_ciphertext_hash (aggregate_E_W agg) (aggregate_E_S agg) (aggregate_E_B agg) in
  let l := take (Z.to_nat needed)
             (filter (fun s => ts_aggregate_ciphertext_hash s = agg_hash) (map snd shares)) in
  if zlen l <? needed then None else
  snap ← t_supply (tn_chain n) !! voting_end_height prop;
  cert ← dao_build_tally_certificate key_rec proposal_id (voting_end_height prop)
           (aggregate_E_W agg) (aggregate_E_S agg) (aggregate_E_B agg)
           (share_set_of l ts_partial_W ts_proof_W) (share_set_of l ts_partial_S ts_proof_S)
           (share_set_of l ts_partial_B ts_proof_B) event;
  cert ← dao_verify_tally_certificate key_rec snap quorum_percent
           (aggregate_E_W agg) (aggregate_E_S agg) (aggregate_E_B agg) cert;
  tally_result_extra cert.

(** *** Receiving a share *)

(** Position of the first member with key [member], from 1. *)
Definition member_position (members : list bytes) (member : bytes) : Z :=
  match list_find (fun m => m = member) members with Some (i, _) => Z.of_nat i + 1 | None => 0 end.

(** [std::map::emplace] of a key that is not there. *)
Fixpoint emplace (k : bytes) (v : dao_v2_tally_share) (l : list (bytes * dao_v2_tally_share))
    : list (bytes * dao_v2_tally_share) :=
  match l with
  | [] => [(k, v)]
  | (k', v') :: rest => if bytes_leb k k' then (k, v) :: l else (k', v') :: emplace k v rest
  end.

Definition set_tally_shares (n : tally_node) (m : gmap hash (list (bytes * dao_v2_tally_share))) : tally_node :=
  {| tn_chain := tn_chain n; tn_tally_key := tn_tally_key n; tn_share_sets := tn_share_sets n;
     tn_local_shares := tn_local_shares n; tn_current_share_set := tn_current_share_set n; tn_tally_shares := m |}.

(** The share set whose members may send shares for a proposal. *)
Definition sender_share_set (n : tally_node) (key_rec : dao_tally_key_record) : option dao_share_set_record :=
  let latest := if (length (tk_key_id key_rec) =? 32)%nat
                then latest_share_set_id_for_key_id (tn_share_sets n) (tk_key_id key_rec) else 0 in
  let cur := if latest =? 0 then tn_current_share_set n else latest in
  if cur =? 0 then None else tn_share_sets n !! cur.

(** The checks on a share that has been read; the share set when it is to be
    stored. *)
Definition share_accepted (n : tally_node) (member : bytes) (share : dao_v2_tally_share) : option dao_share_set_record :=
  if negb (ts_version share =? 1) then None else
  prop ← proposals (t_policy (tn_chain n)) !! ts_proposal_id share;
  if negb (length (ts_tally_key_id share) =? 32)%nat || negb (beq (tally_key_id prop) (ts_tally_key_id share)) then None else
  if negb (ts_vote_end_height share =? voting_end_height prop) then None else
  key_rec ← get_dao_tally_key_by_id (t_votes (tn_chain n)) (tally_key_id prop);
  share_set ← sender_share_set n key_rec;
  let expected_position := member_position (ss_committee_members share_set) member in
  if expected_position =? 0 then None else
  if negb (ts_member_index share =? expected_position) then None else
  agg ← aggregates (t_votes (tn_chain n)) !! ts_proposal_id share;
  if is_empty (aggregate_E_W agg) || is_empty (aggregate_E_S agg) || is_empty (aggregate_E_B agg) then None else
  let h := dao_aggregate_ciphertext_hash (aggregate_E_W agg) (aggregate_E_S agg) (aggregate_E_B agg) in
  if negb (beq h (ts_aggregate_ciphertext_hash share)) then None else Some share_set.

(** [Blockchain::handle_dao_v2_tally_share]: the node afterwards, and the extra
    field of the transaction handed to the pool, if one is. *)
Definition handle_dao_v2_tally_share (quorum_percent : Z) (member payload : bytes) (n : tally_node)
    : tally_node * option bytes :=
  match tally_share_deserialize payload with
  | None => (n, None)
  | Some share =>
      match share_accepted n member share with
      | None => (n, None)
      | Some share_set =>
          let pid := ts_proposal_id share in
          let per_prop := default [] (tn_tally_shares n !! pid) in
          let n := set_tally_shares n (<[pid := per_prop]> (tn_tally_shares n)) in
          if existsb (fun x => beq (fst x) member) per_prop then (n, None) else
          let per_prop := emplace member share per_prop in
          let n := set_tally_shares n (<[pid := per_prop]> (tn_tally_shares n)) in
          if zlen per_prop <? ss_threshold share_set then (n, None) else
          (n, build_tally_result_transaction quorum_percent n pid per_prop (ss_threshold share_set))
      end
  end.

(** *** Reading the certificate of a transaction *)

(** [is_dao_v2_tally_result_tx] and the search of
    [validate_dao_v2_tally_result_tx]: the one certificate in the extra field of
    a transaction without inputs and outputs. *)
Definition tally_payloads (fields : list tx_extra_field) : list bytes :=
  omap (fun f => match f with
                 | tx_extra_governance_payload gp => if gp_type gp =? GO_TALLY_RESULT then Some (gp_data gp) else None
                 | _ => None
                 end) fields.

Definition validate_dao_v2_tally_result_tx (trap_bool : Z -> bool) (quorum_percent : Z) (tx_extra : bytes)
    (block_height : Z) (s : tally_state) : bool :=
  match parse_tx_extra trap_bool tx_extra with
  | None => false
  | Some fields =>
      match tally_payloads fields with
      | [data] =>
          match cert_deserialize data with
          | cert_parsed cert => validate_dao_v2_tally_result quorum_percent cert block_height s
          | _ => false
          end
      | _ => false
      end
  end.

End manager.
