(* ===== verification/ReshareNode.v ===== *)
(** * When a node reshares

    [cryptonote_core/blockchain.cpp]: the roster of ready nodes
    ([select_dao_v2_proposal_dkg_committee]), the start of a resharing for a
    proposal whose voting has ended ([maybe_start_dao_v2_reshare_for_proposal]),
    its messages, and the commit of its result ([maybe_commit_dao_v2_reshare]). *)

From stdpp Require Import sorting.
From S2P Require Import Prelude Archive Crypto GovStore ParamExecution Paillier Threshold DkgProofs Pedersen Reshare ReshareRunner VoteV2 Tally TallyShare.

(** ** The node *)

(** [rx_ready] is the table of announcements, by key and height; [rx_blocks] the
    ids of the blocks; [rx_runner] the running resharing with its
    configuration. *)
Record reshare_node := {
  rx_tally : tally_node;
  rx_ready : gmap (bytes * Z) hash;
  rx_blocks : list hash;
  rx_send : bool;
  rx_priv : bytes;
  rx_runner : option (runner_config * runner);
}.

Definition with_runner (n : reshare_node) (r : option (runner_config * runner)) : reshare_node :=
  {| rx_tally := rx_tally n; rx_ready := rx_ready n; rx_blocks := rx_blocks n; rx_send := rx_send n; rx_priv := rx_priv n;
     rx_runner := r |}.

Definition with_tally (n : reshare_node) (m : tally_node) : reshare_node :=
  {| rx_tally := m; rx_ready := rx_ready n; rx_blocks := rx_blocks n; rx_send := rx_send n; rx_priv := rx_priv n;
     rx_runner := rx_runner n |}.

Definition get_current_blockchain_height (n : reshare_node) : Z := zlen (rx_blocks n).

(** The null hash where there is no such block. *)
Definition get_block_id_by_height (n : reshare_node) (height : Z) : hash := nth (Z.to_nat height) (rx_blocks n) null_hash.

(** ** The roster *)

Definition bytes_le (a b : bytes) : Prop := bytes_leb a b = true.

#[export] Instance bytes_le_dec : RelDecision bytes_le.
Proof. intros a b. unfold bytes_le. apply _. Defined.

(** The keys announced at a recent height of this chain. *)
Definition ready_keys (n : reshare_node) (recent : Z -> bool) : gset bytes :=
  map_fold (fun k bh keys => if recent (snd k) && beq (get_block_id_by_height n (snd k)) bh then {[ fst k ]} ∪ keys else keys)
    ∅ (rx_ready n).

Definition roster (n : reshare_node) (recent : Z -> bool) : list bytes :=
  take (Z.to_nat DAO_DKG_MAX_COMMITTEE_SIZE) (merge_sort bytes_le (elements (ready_keys n recent))).

Definition k_ready_ttl_blocks : Z := 15.

Definition select_dao_v2_proposal_dkg_committee (n : reshare_node) (selection_height : Z) : list bytes :=
  let chain_height := (selection_height + 1) mod 2 ^ 64 in
  roster n (fun h => (h <? chain_height) && (chain_height - h <=? k_ready_ttl_blocks)).

(** Ready at [height]: announced at most [ttl] blocks before. *)
Definition ready_by (height ttl : Z) (h : Z) : bool := (h <=? height) && (height - h <=? ttl).

(** ** Starting *)

Definition k_reshare_retry_interval : Z := 10.

(** Whether the resharing is the first one, and the share set it starts from. *)
Definition reshare_source `{Crypto} (n : reshare_node) (key_rec : dao_tally_key_record) : option (bool * Z) :=
  let base_id := share_set_id_for_key_id (tk_key_id key_rec) in
  let latest_id := latest_share_set_id_for_key_id (tn_share_sets (rx_tally n)) (tk_key_id key_rec) in
  if (latest_id =? 0) || (latest_id =? base_id) then Some (true, base_id) else
  latest_ss ← tn_share_sets (rx_tally n) !! latest_id;
  if is_empty (ss_contributions latest_ss) then Some (true, base_id) else
  if get_current_blockchain_height n <? (ss_height latest_ss + k_reshare_retry_interval) mod 2 ^ 64 then None else
  Some (false, latest_id mod 2 ^ 32).

Definition is_key (m : bytes) : bool := (length m =? 32)%nat.

(** The members of a share set with their positions. *)
Definition positions (ss : dao_share_set_record) : list (bytes * Z) :=
  zip (ss_committee_members ss) (seqZ 1 (zlen (ss_committee_members ss))).

(** What a resharing needs of the chain. *)
Record reshare_target := {
  rt_key : dao_tally_key_record;
  rt_first : bool;
  rt_cur_id : Z;
  rt_cur_ss : dao_share_set_record;
  rt_contributors : list (bytes * Z);
  rt_new_members : list bytes;
}.

(** The first resharing goes from the whole committee to the roster at the end of
    the voting, unless they are the same. *)
Definition first_reshare (cur_ss : dao_share_set_record) (ready_pks : list bytes) : option (list (bytes * Z) * list bytes) :=
  if zlen ready_pks <? DAO_DKG_MIN_COMMITTEE_SIZE then None else
  let cur_set : gset bytes := list_to_set (filter is_key (ss_committee_members cur_ss)) in
  let ready_set : gset bytes := list_to_set ready_pks in
  if bool_decide (cur_set = ready_set) then None else
  if negb (forallb is_key (ss_committee_members cur_ss)) then None else
  Some (positions cur_ss, ready_pks).

(** A later one keeps the members that are ready now and fills up from the
    roster. *)
Definition again_reshare (cur_ss : dao_share_set_record) (ready_pks : list bytes) (ready_now : gset bytes)
    : option (list (bytes * Z) * list bytes) :=
  let contributors := filter (fun p => is_key (fst p) && bool_decide (fst p ∈ ready_now)) (positions cur_ss) in
  if zlen contributors <? ss_threshold cur_ss then None else
  let cur_vec := filter is_key (ss_committee_members cur_ss) in
  let responsive := filter (fun m => m ∈ ready_now) cur_vec in
  if zlen responsive <? ss_threshold cur_ss then None else
  let fill := filter (fun m => m ∉ cur_vec) ready_pks in
  let new_members := merge_sort bytes_le (responsive ++ take (length cur_vec - length responsive) fill) in
  if zlen new_members <? DAO_DKG_MIN_COMMITTEE_SIZE then None else
  Some (contributors, new_members).

Definition reshare_target_for `{Crypto} (n : reshare_node) (proposal_id : hash) (vote_end_height : Z) : option reshare_target :=
  rec ← proposals (t_policy (tn_chain (rx_tally n))) !! proposal_id;
  if beq (tally_key_id rec) null_hash then None else
  key_rec ← get_dao_tally_key_by_id (t_votes (tn_chain (rx_tally n))) (tally_key_id rec);
  if negb (length (tk_key_id key_rec) =? 32)%nat then None else
  if is_empty (tk_committee_members key_rec) then None else
  '(need_reshare, cur_id) ← reshare_source n key_rec;
  cur_ss ← tn_share_sets (rx_tally n) !! cur_id;
  let ready_pks := roster n (ready_by vote_end_height k_ready_ttl_blocks) in
  '(contributors, new_members) ←
    (if need_reshare : bool then first_reshare cur_ss ready_pks
     else again_reshare cur_ss ready_pks
            (ready_keys n (ready_by (get_current_blockchain_height n) k_reshare_retry_interval)));
  Some {| rt_key := key_rec; rt_first := need_reshare; rt_cur_id := cur_id; rt_cur_ss := cur_ss;
          rt_contributors := contributors; rt_new_members := new_members |}.

(** The position of the first entry that is the key. *)
Definition position_of (self_pk : bytes) (members : list bytes) : Z :=
  match list_find (fun m => m = self_pk) members with Some (i, _) => Z.of_nat i + 1 | None => 0 end.

Section start.
Context `{Crypto} `{PrivateBox} `{Digests}.

(** The context of the proof that links the contribution to the share. *)
Definition reshare_link_ctx (n : reshare_node) (tg : reshare_target) (self_pk : bytes) (pos : Z) (S : list Z)
    : option dao_reshare_link_context :=
  let ctx subset vk delta :=
    {| lc_genesis_block_hash := nth 0 (rx_blocks n) null_hash; lc_stable_key_record_hash := replicate 32 0;
       lc_share_set_id := rt_cur_id tg; lc_contributor_pubkey := self_pk; lc_original_index := pos;
       lc_contributor_subset := subset; lc_N := tk_N (rt_key tg); lc_V := tk_V (rt_key tg); lc_VK_i := vk;
       lc_C_i0 := replicate PAILLIER_CT_BYTES 0; lc_Delta := delta; lc_mu_i := [] |} in
  if pos =? 0 then Some (ctx [] [] []) else
  vk ← ss_VK_i (rt_cur_ss tg) !! Z.to_nat (pos - 1);
  delta ← BN_bn2binpad dao_dkg_delta 32;
  Some (ctx S vk delta).

(** A contributor of the subset: its key and its verification key. *)
Definition subset_entry (tg : reshare_target) (idx : Z) : option (bytes * bytes) :=
  k ← list_find (fun j => j = idx) (map snd (rt_contributors tg));
  member ← map fst (rt_contributors tg) !! fst k;
  if (idx <? 1) || (zlen (ss_VK_i (rt_cur_ss tg)) <? idx) then None else
  Some (member, nth (Z.to_nat (idx - 1)) (ss_VK_i (rt_cur_ss tg)) []).

(** The share and its multiplier, of a contributor of the subset. *)
Definition local_contribution (n : reshare_node) (tg : reshare_target) (pos : Z) (S : list Z) : option (Z * Z) :=
  packed ← tn_local_shares (rx_tally n) !! (rt_cur_id tg, pos);
  raw ← dao_unpack_local_share packed (tk_key_id (rt_key tg));
  s ← dao_load_local_share_value raw;
  mu ← dao_dkg_lagrange_mu S pos;
  Some (s, mu).

Definition reshare_config (n : reshare_node) (tg : reshare_target) (vote_end_height : Z) : option runner_config :=
  let key_rec := rt_key tg in
  let cur_ss := rt_cur_ss tg in
  let new_threshold := dao_dkg_expected_threshold (zlen (rt_new_members tg)) in
  if new_threshold =? 0 then None else
  self_pk ← secret_key_to_public_key (rx_priv n);
  let our_contrib_pos := if bool_decide (self_pk ∈ map fst (rt_contributors tg))
                         then position_of self_pk (ss_committee_members cur_ss) else 0 in
  let our_new_pos := position_of self_pk (rt_new_members tg) in
  if (our_contrib_pos =? 0) && (our_new_pos =? 0) then None else
  if zlen (rt_contributors tg) <? ss_threshold cur_ss then None else
  let S := take (Z.to_nat (ss_threshold cur_ss)) (map snd (rt_contributors tg)) in
  let selected := negb (our_contrib_pos =? 0) && bool_decide (our_contrib_pos ∈ S) in
  if negb selected && (our_new_pos =? 0) then None else
  loaded ← (if selected then x ← local_contribution n tg our_contrib_pos S; Some (Some x) else Some None);
  grp ← key_group key_rec;
  pk ← deserialize_modulus (tk_N key_rec);
  entries ← mapM (subset_entry tg) S;
  ctx ← reshare_link_ctx n tg self_pk our_contrib_pos S;
  Some {| rc_pk := pk; rc_grp := grp; rc_V_bytes := tk_V key_rec; rc_delta := dao_dkg_delta;
          rc_new_indices := seqZ 1 (zlen (rt_new_members tg)); rc_new_members := rt_new_members tg;
          rc_contributor_indices := S; rc_contributor_members := map fst entries; rc_contributor_vk := map snd entries;
          rc_old_share_set_id := rt_cur_id tg; rc_new_share_set_id := (rt_cur_id tg + 1) mod 2 ^ 32;
          rc_height := vote_end_height; rc_threshold := new_threshold; rc_key_id := tk_key_id key_rec;
          rc_local_party_index := if selected then our_contrib_pos else 0; rc_local_new_index := our_new_pos;
          rc_local_s_i := fst <$> loaded; rc_local_mu_i := snd <$> loaded;
          rc_local_pub := self_pk; rc_local_priv := rx_priv n; rc_link_ctx_base := ctx;
          rc_contributor_threshold := ss_threshold cur_ss |}.

(** The randomness of a start: the nonces of the link proof, the coefficients, of
    which the new threshold needs one less, and the keys and nonces of the
    envelopes. *)
Record reshare_draw := { rd_rs : nat -> Z; rd_coeffs : nat -> coeff_random; rd_drawn : list (bytes * bytes) }.

Definition drawn_coeffs (d : reshare_draw) (cfg : runner_config) : list coeff_random :=
  map (rd_coeffs d) (seq 0 (Z.to_nat (rc_threshold cfg - 1))).

(** A later resharing discards the tally shares received for the proposal. *)
Definition discard_tally_shares (n : reshare_node) (tg : reshare_target) (proposal_id : hash) : reshare_node :=
  if rt_first tg then n
  else with_tally n (set_tally_shares (rx_tally n) (delete proposal_id (tn_tally_shares (rx_tally n)))).

Definition maybe_start_dao_v2_reshare_for_proposal (proposal_id : hash) (vote_end_height : Z) (d : reshare_draw)
    (n : reshare_node) : reshare_node :=
  if negb (rx_send n) then n else
  match rx_runner n with
  | Some _ => n
  | None =>
      match reshare_target_for n proposal_id vote_end_height with
      | None => n
      | Some tg =>
          let n := discard_tally_shares n tg proposal_id in
          match reshare_config n tg vote_end_height with
          | None => n
          | Some cfg =>
              let '(st, ok) := start cfg (rd_rs d) (drawn_coeffs d cfg) (rd_drawn d) new_runner in
              if negb ok then n else with_runner n (Some (cfg, st))
          end
      end
  end.

(** ** Messages and commit *)

Definition reshare_message (from payload : bytes) (n : reshare_node) : reshare_node :=
  match rx_runner n with
  | None => n
  | Some (cfg, st) => with_runner n (Some (cfg, handle_dao_v2_reshare_msg cfg from payload st))
  end.

(** A record that does not read back is as good as absent; none where it cannot
    be written. *)
Definition add_dao_share_set (sets : gmap Z dao_share_set_record) (share_set_id : Z) (record : dao_share_set_record)
    : option (gmap Z dao_share_set_record) :=
  blob ← share_set_serialize record;
  Some (match share_set_deserialize blob with
        | Some r => <[share_set_id := r]> sets
        | None => delete share_set_id sets
        end).

(** The tables after the record is written, and the local share under the node's
    position. *)
Definition commit_record (n : reshare_node) (new_ss : dao_share_set_record) (local_share : option bytes) : option tally_node :=
  let m := rx_tally n in
  sets ← add_dao_share_set (tn_share_sets m) (ss_share_set_id new_ss) new_ss;
  let shares :=
    match local_share, secret_key_to_public_key (rx_priv n) with
    | Some share, Some self_pk =>
        if negb (length (ss_key_id new_ss) =? 32)%nat then tn_local_shares m else
        match list_find (fun x => x = self_pk) (ss_committee_members new_ss) with
        | None => tn_local_shares m
        | Some (i, _) =>
            let packed := dao_pack_local_share (ss_key_id new_ss) share in
            if is_empty packed then tn_local_shares m
            else <[(ss_share_set_id new_ss mod 2 ^ 32, Z.of_nat i + 1) := packed]> (tn_local_shares m)
        end
    | _, _ => tn_local_shares m
    end in
  Some {| tn_chain := tn_chain m; tn_tally_key := tn_tally_key m; tn_share_sets := sets; tn_local_shares := shares;
          tn_current_share_set := tn_current_share_set m; tn_tally_shares := tn_tally_shares m |}.

Definition maybe_commit_dao_v2_reshare (n : reshare_node) : reshare_node * bool :=
  match rx_runner n with
  | None => (n, true)
  | Some (_, st) =>
      match rn_final st with
      | None => (n, true)
      | Some new_ss =>
          match commit_record n new_ss (rn_local_share st) with
          | None => (n, false)
          | Some m => (with_runner (with_tally n m) None, true)
          end
      end
  end.

End start.
