(* ===== verification/VoteAccepted.v ===== *)
(** * The wallet's vote is accepted

    A vote that [build_dao_v2_vote] makes from outputs of the chain passes
    [VoteProofVerifier::verify] and casts the ballot of its owner. *)

From stdpp Require Import base list gmap sorting.
From Stdlib Require Import ZArith Lia Zcong.
From Stdlib Require Import Zmod Zstar.
From S2P Require Import Prelude Archive TxExtra Curve CurveModel GovStore Paillier Threshold VotingWeight VoteV2 VoteProof VoteProofComplete Tally TallyCorrect.
Open Scope Z_scope.

(** ** Checks that pass *)

Lemma check_map_pass {A B} (f : A -> check B) l k :
  Forall2 (fun x y => f x = pass y) l k -> check_map f l = pass k.
Proof. induction 1 as [|x y l k E _ IH]; [done|]. cbn [check_map]. rewrite E. cbn. by rewrite IH. Qed.

Lemma check_all_pass {A} (f : A -> check unit) l : Forall (fun x => f x = pass tt) l -> check_all f l = pass tt.
Proof. induction 1 as [|x l E _ IH]; [done|]. cbn [check_all]. by rewrite E. Qed.

Lemma adjacent_sorted l : Sorted Z.le l -> adjacent_find l = false <-> NoDup l.
Proof.
  intros S. apply Sorted_StronglySorted in S; [|intros ???; lia]. induction S as [|x l S IH F]; [split; [constructor|done]|].
  rewrite NoDup_cons, <- IH. destruct l as [|y l]; [cbn; split; [intros _; split; [set_solver|done]|done]|].
  cbn [adjacent_find]. rewrite orb_false_iff, Z.eqb_neq. split; [|intros [H1 H2]; split; [set_solver|done]].
  intros [Hxy Ha]. split; [|done]. apply Forall_cons in F as [Hle F]. intros [->|Hin]%elem_of_cons; [done|].
  apply Hxy. apply StronglySorted_inv in S as [_ F2]. rewrite Forall_forall in F2. specialize (F2 x Hin). lia.
Qed.

(** Sorting and comparing neighbours finds every repetition. *)
Lemma has_duplicate_false l : has_duplicate l = false <-> NoDup l.
Proof.
  unfold has_duplicate. rewrite adjacent_sorted by (apply Sorted_merge_sort; apply _).
  by rewrite (merge_sort_Permutation Z.le l).
Qed.

Lemma check_nullifiers_pass seen nfs : NoDup nfs -> Forall (fun nf => nf ∉ seen) nfs ->
  Forall (fun nf => forallb (Z.eqb 0) nf = false) nfs -> check_nullifiers seen nfs = pass tt.
Proof.
  intros N. revert seen. induction N as [|nf nfs Hin _ IH]; intros seen F1 F2; [done|].
  apply Forall_cons in F1 as [H1 F1], F2 as [H2 F2]. cbn [check_nullifiers]. rewrite H2, bool_decide_eq_false_2 by done.
  cbn. apply IH; [|done]. rewrite Forall_forall in F1 |- *. set_solver.
Qed.

(** ** Age factors *)

Lemma age_factor_code oh vh : 0 <= oh <= vh -> vh < 2 ^ 64 ->
  let raw := if 7300 <? (vh - oh) / 720 then 7300 else (vh - oh) / 720 in
  floor_log2 (raw + 1) = age_factor oh vh /\ 0 <= age_factor oh vh <= 12.
Proof.
  intros Hh Hv. cbn zeta. assert (0 <= (vh - oh) / 720) by (apply Z.div_pos; lia).
  split; [|apply age_factor_range; lia]. unfold age_factor.
  assert ((if 7300 <? (vh - oh) / 720 then 7300 else (vh - oh) / 720) =
          Z.min 7300 ((vh - oh) / 720)) as -> by (case_match; to_prop; lia).
  apply floor_log2_spec. lia.
Qed.

Lemma wallet_age_factor oh vh : 0 <= oh <= vh -> vh < 2 ^ 64 -> age_factor_from_height vh oh = age_factor oh vh.
Proof.
  intros Hh Hv. unfold age_factor_from_height. rewrite (proj2 (Z.ltb_ge vh oh)) by lia.
  destruct (age_factor_code oh vh Hh Hv) as [-> ?]. by rewrite (proj2 (Z.ltb_ge _ _)) by lia.
Qed.

Lemma ring_member_pass outputs vh idx od : outputs idx = Some od -> 0 <= od_height od <= vh -> vh < 2 ^ 64 ->
  ring_member outputs vh idx = pass (od, age_factor (od_height od) vh).
Proof.
  intros E Hh Hv. unfold ring_member. rewrite E. cbn [found check_bind]. rewrite (proj2 (Z.ltb_ge _ _)) by lia.
  destruct (age_factor_code (od_height od) vh Hh Hv) as [-> ?]. cbn [ensure negb check_bind].
  by rewrite (proj2 (Z.ltb_ge _ _)) by lia.
Qed.

(** ** Sources *)

Section sources.
Context `{RctLaws} (outputs : Z -> option output_data_t) (pid : hash) (sub vh : Z) (kid : hash).

(** A source the wallet may vote with: a ring of distinct outputs of the chain,
    all of the same age factor, whose real member it can open. *)
Record source_ok (s : dao_v2_vote_source) : Prop := {
  so_shape : source_well_formed s = true;
  so_two : (2 <= length (vs_P s))%nat;
  so_offsets : expand_offsets 0 (vs_key_offsets s) = Some (vs_output_indices s);
  so_words : Forall (fun o => 0 <= o < 2 ^ 64) (vs_key_offsets s);
  so_distinct : NoDup (vs_output_indices s);
  so_chain : mapM outputs (vs_output_indices s) =
    Some (zip_with (fun '(P, C) h => {| od_pubkey := P; od_height := h; od_commitment := C |})
            (zip (vs_P s) (vs_C s)) (vs_output_heights s));
  so_heights : Forall (fun h => 0 <= h <= vh) (vs_output_heights s);
  so_same_age : exists f, Forall (fun h => age_factor h vh = f) (vs_output_heights s);
  so_P : Forall is_point (vs_P s);
  so_C : Forall is_point (vs_C s);
  so_secret : scalar (vs_real_spend_secret s);
  so_mask : scalar (vs_real_mask s);
  so_amount : 0 <= vs_real_amount s < 2 ^ 64;
  so_key : vs_P s !! vs_real_index s = Some (scalarmultBase (vs_real_spend_secret s));
  so_commit : vs_C s !! vs_real_index s = commit (vs_real_amount s) (vs_real_mask s);
}.

Definition source_nullifier (s : dao_v2_vote_source) : option bytes :=
  key_image (scalarmultBase (vs_real_spend_secret s)) pid (vs_real_spend_secret s).

(** What is drawn for a source; the three points must not be the identity. *)
Record draws_ok (s : dao_v2_vote_source) (r : input_randomness) : Prop := {
  do_rho_W : scalar (ir_rho_W r);
  do_rho_B : scalar (ir_rho_B r);
  do_W : scalar (ir_a_W r) /\ length (ir_ss_W r) = length (vs_P s) /\ Forall scalar (ir_ss_W r);
  do_B : scalar (ir_a_B r) /\ length (ir_ss_B r) = length (vs_P s) /\ Forall scalar (ir_ss_B r);
  do_nullifier : source_nullifier s <> Some rct_identity;
  do_blind_W : key_image (scalarmultBase (vs_real_spend_secret s)) pid (ir_rho_W r) <> Some rct_identity;
  do_blind_B : key_image (scalarmultBase (vs_real_spend_secret s)) pid (ir_rho_B r) <> Some rct_identity;
}.

Definition source_factor (s : dao_v2_vote_source) : Z := age_factor (nth (vs_real_index s) (vs_output_heights s) 0) vh.
Definition source_weight (s : dao_v2_vote_source) : Z := source_factor s * vs_real_amount s.
Definition source_factors (s : dao_v2_vote_source) : list Z := map (age_factor_from_height vh) (vs_output_heights s).

Lemma commit_point v mask : 0 <= v < 2 ^ 64 -> scalar mask -> commit v mask = Some (point (le_val mask + v * log_H) 0).
Proof.
  intros Hv Sm. unfold commit, d2h. destruct (small_scalar 8 v) as [Sv Vv]; [lia|done| |].
  - apply Z.lt_le_trans with (2 ^ 64); [lia|]. by vm_compute.
  - change (32 - 8)%nat with 24%nat in *. rewrite H_point, addKeys2_point, Vv, Z.mul_0_r by done. done.
Qed.

Lemma source_lengths s : source_ok s ->
  length (vs_C s) = length (vs_P s) /\ length (vs_output_indices s) = length (vs_P s) /\
  length (vs_output_heights s) = length (vs_P s) /\ length (vs_key_offsets s) = length (vs_P s) /\
  (vs_real_index s < length (vs_P s))%nat.
Proof.
  intros S. pose proof (so_shape s S) as Sh. unfold source_well_formed in Sh.
  rewrite !andb_true_iff, negb_true_iff, Nat.ltb_lt, !Nat.eqb_eq in Sh. lia.
Qed.

Lemma source_factors_ok s : source_ok s -> 0 <= vh < 2 ^ 64 ->
  source_factors s = map (fun h => age_factor h vh) (vs_output_heights s) /\
  Forall (fun f => 0 <= f <= 12) (source_factors s) /\
  source_factors s !! vs_real_index s = Some (source_factor s).
Proof.
  intros S Hv. pose proof (so_heights s S) as F. destruct (source_lengths s S) as (_ & _ & Lh & _ & Hr).
  assert (source_factors s = map (fun h => age_factor h vh) (vs_output_heights s)) as E.
  { unfold source_factors. apply map_ext_Forall. eapply Forall_impl; [exact F|]. intros h [? ?].
    apply wallet_age_factor; lia. }
  split; [done|]. rewrite E. split.
  - apply Forall_map. eapply Forall_impl; [exact F|]. intros h [? ?]. apply age_factor_range. lia.
  - unfold source_factor. change (map ?f ?l) with (f <$> l). rewrite list_lookup_fmap.
    destruct (lookup_lt_is_Some_2 (vs_output_heights s) (vs_real_index s)) as [h Eh]; [lia|].
    rewrite Eh. cbn. by rewrite (nth_lookup_Some _ _ 0 h Eh).
Qed.

(** The ring of a source with a commitment of its weight is one that the signer
    can sign for. *)
Lemma source_ring_ok s f factors rho c V : source_ok s -> length factors = length (vs_P s) ->
  Forall (fun f => 0 <= f < 256) factors -> factors !! vs_real_index s = Some f -> scalar rho ->
  commit (vs_real_amount s) (vs_real_mask s) = Some (point c 0) -> V = point (f * c + le_val rho) 0 ->
  ring_ok (source_context pid sub vh kid s V factors) (vs_real_index s) (vs_real_spend_secret s) rho.
Proof.
  intros S Lf Ff Ef Srho Ec EV. destruct (source_lengths s S) as (LC & LI & LH & _ & Hr). destruct S.
  split; cbn [source_context cc_P cc_C cc_output_indices cc_output_heights cc_age_factors cc_V]; try done.
  - unfold context_well_formed. cbn [source_context cc_P cc_C cc_output_indices cc_output_heights cc_age_factors]. rewrite Lf, LC, LI, LH, !Nat.eqb_refl, (proj2 (Nat.ltb_ge _ _)) by lia. done.
  - rewrite so_key0. f_equal. by apply scalarmultBase_scalar.
  - exists c, 0, f. rewrite so_commit0, Ec, EV, Z.mul_0_r. done.
Qed.

(** The running totals commit to the weight [W] and the balance [B] so far; the
    weight is blinded by [R]. *)
Record totals_ok (t : vote_totals) (W B R : Z) : Prop := {
  to_W : vt_W_total t = W;
  to_B : vt_B_total t = B;
  to_R_W : scalar (vt_R_W t);
  to_R_B : scalar (vt_R_B t);
  to_C_W : vt_C_W t = point (W * log_H + le_val (vt_R_W t)) 0;
  to_C_B : vt_C_B t = point (B * log_H + le_val (vt_R_B t)) 0;
  to_blinding : le_val (vt_R_W t) ≡[ell] R;
}.

(** What one iteration leaves in the vote. *)
Record input_for (s : dao_v2_vote_source) (inp : vote_input_v2) : Prop := {
  if_offsets : vi_key_offsets inp = vs_key_offsets s;
  if_W : dao_clsag_verify (source_context pid sub vh kid s (vi_weight_commitment inp) (source_factors s))
           (vi_weight_signature inp) = Some true;
  if_B : dao_clsag_verify (source_context pid sub vh kid s (vi_balance_commitment inp) (replicate (length (vs_P s)) 1))
           (vi_balance_signature inp) = Some true;
  if_lengths : length (cl_s (vi_weight_signature inp)) = length (vs_P s) /\
               length (cl_s (vi_balance_signature inp)) = length (vs_P s);
  if_images : cl_I (vi_weight_signature inp) = cl_I (vi_balance_signature inp);
  if_nullifier : Some (cl_I (vi_weight_signature inp)) = source_nullifier s;
  if_keys : clsag_keys (vi_weight_signature inp) /\ clsag_keys (vi_balance_signature inp);
  if_points : is_point (vi_weight_commitment inp) /\ is_point (vi_balance_commitment inp);
}.

(** The masks add up with the points. *)
Lemma blind_total R f mask rho c v W : scalar R -> scalar mask -> scalar rho -> 0 <= f < 256 ->
  c = le_val mask + v * log_H ->
  let R' := sc_add R (sc_add (sc_mul (scalar_from_u64 f) mask) rho) in
  scalar R' /\ le_val R' ≡[ell] le_val R + (f * le_val mask + le_val rho) /\
  point (W * log_H + le_val R + (f * c + le_val rho)) 0 = point ((W + f * v) * log_H + le_val R') 0.
Proof.
  intros SR Sm Sr Hf Hc. destruct (small_scalar 8 f) as [Sf Vf]; [lia|lia| |].
  { apply Z.lt_le_trans with 256; [lia|]. by vm_compute. }
  change (32 - 8)%nat with 24%nat in *. fold (scalar_from_u64 f) in *.
  destruct (sc_mul_val _ _ Sf Sm) as [S1 V1], (sc_add_val _ _ S1 Sr) as [S2 V2], (sc_add_val _ _ SR S2) as [S3 V3].
  split; [done|]. split; [rewrite V3, V2, V1, Vf; congr_ring|].
  apply point_congr; [|done]. rewrite V3, V2, V1, Vf, Hc. congr_ring.
Qed.

Lemma blind_balance R mask rho c v B : scalar R -> scalar mask -> scalar rho -> c = le_val mask + v * log_H ->
  let R' := sc_add R (sc_add mask rho) in
  scalar R' /\ point (B * log_H + le_val R + (c + le_val rho)) 0 = point ((B + v) * log_H + le_val R') 0.
Proof.
  intros SR Sm Sr Hc. destruct (sc_add_val _ _ Sm Sr) as [S2 V2], (sc_add_val _ _ SR S2) as [S3 V3].
  split; [done|]. apply point_congr; [|done]. rewrite V3, V2, Hc. congr_ring.
Qed.

(** The blinding a source adds to the weight. *)
Definition source_blinding (s : dao_v2_vote_source) (r : input_randomness) : Z :=
  source_factor s * le_val (vs_real_mask s) + le_val (ir_rho_W r).

Lemma build_input_ok s r t W B R : source_ok s -> draws_ok s r -> totals_ok t W B R -> 0 <= vh < 2 ^ 64 ->
  0 <= W -> W + source_weight s < 2 ^ 64 -> 0 <= B -> B + vs_real_amount s < 2 ^ 64 ->
  exists inp t', build_input pid sub vh kid s r t = Some (inp, t') /\ input_for s inp /\
    totals_ok t' (W + source_weight s) (B + vs_real_amount s) (R + source_blinding s r) /\
    addKeys (vt_C_W t) (vi_weight_commitment inp) = Some (vt_C_W t') /\
    addKeys (vt_C_B t) (vi_balance_commitment inp) = Some (vt_C_B t').
Proof.
  intros S D T Hv HW0 HW HB0 HB. destruct (source_factors_ok s S Hv) as (_ & Ff & Ef).
  destruct (source_lengths s S) as (_ & _ & LH & _ & Hr).
  pose proof (commit_point _ _ (so_amount s S) (so_mask s S)) as Ec. set (c := le_val _ + _) in Ec.
  pose proof (Forall_lookup_1 _ _ _ _ Ff Ef) as Hf. cbn in Hf. set (f := source_factor s) in *.
  assert (Forall (fun f => 0 <= f < 256) (source_factors s)) as Ff' by (eapply Forall_impl; [exact Ff|]; intros ? [? ?]; lia).
  destruct (small_scalar 8 f) as [Sf Vf]; [lia|lia|apply Z.lt_le_trans with 256; [lia|by vm_compute]|].
  change (32 - 8)%nat with 24%nat in *. fold (scalar_from_u64 f) in *.
  destruct D as [SW SB NW NB I0 IW IB], T as [TW TB TRW TRB TCW TCB TBl].
  set (V := point (f * c + le_val (ir_rho_W r)) 0). set (Bc := point (1 * c + le_val (ir_rho_B r)) 0).
  destruct (clsag_complete (source_context pid sub vh kid s V (source_factors s)) (vs_real_index s)
    (vs_real_spend_secret s) (ir_rho_W r) (ir_a_W r) (ir_ss_W r) _
    (source_ring_ok s f _ (ir_rho_W r) c V S ltac:(unfold source_factors; by rewrite length_map) Ff' Ef SW Ec eq_refl)
    NW (so_key s S) I0 IW) as (wsig & EW & IWs & LW & KW & VW).
  destruct (clsag_complete (source_context pid sub vh kid s Bc (replicate (length (vs_P s)) 1)) (vs_real_index s)
    (vs_real_spend_secret s) (ir_rho_B r) (ir_a_B r) (ir_ss_B r) _
    (source_ring_ok s 1 (replicate (length (vs_P s)) 1) (ir_rho_B r) c Bc S ltac:(apply length_replicate) ltac:(apply Forall_replicate; lia)
       ltac:(by apply lookup_replicate_2) SB Ec eq_refl) NB (so_key s S) I0 IB) as (bsig & EB & IBs & LB & KB & VB).
  destruct (blind_total _ f _ _ c (vs_real_amount s) W TRW (so_mask s S) SW ltac:(lia) eq_refl) as (SRW & BRW & PRW).
  destruct (blind_balance _ _ _ c (vs_real_amount s) B TRB (so_mask s S) SB eq_refl) as [SRB PRB].
  unfold build_input. fold (source_factors s). rewrite Ef. cbn [mbind option_bind]. rewrite Ec. cbn [mbind option_bind].
  rewrite (so_commit s S), Ec. cbn [mbind option_bind]. rewrite beq_refl. cbn [negb]. fold f.
  rewrite scalarmultKey_point, Vf, Z.mul_0_r, (scalarmultBase_scalar _ SW), (scalarmultBase_scalar _ SB) by done.
  cbn [mbind option_bind]. rewrite !addKeys_point. cbn [mbind option_bind]. rewrite TCW, TCB, addKeys_point.
  cbn [mbind option_bind]. rewrite addKeys_point. cbn [mbind option_bind].
  replace (c + le_val (ir_rho_B r)) with (1 * c + le_val (ir_rho_B r)) by ring.
  change (0 + 0) with 0. fold V Bc. rewrite EW. cbn [mbind option_bind]. rewrite EB. cbn [mbind option_bind].
  cbn [source_context cc_proposal_id] in IWs, IBs. rewrite <- IBs in IWs. injection IWs as IWs.
  rewrite IWs, beq_refl. cbn [negb]. do 2 eexists. split; [done|].
  split; [|split].
  - split; cbn; try done; [by rewrite IWs, IBs|split; by eexists _, _].
  - assert (f * vs_real_amount s = source_weight s) as EWt by done. pose proof (so_amount s S).
    assert (0 <= source_weight s) by (rewrite <- EWt; nia).
    split; cbn [vt_W_total vt_B_total vt_R_W vt_R_B vt_C_W vt_C_B]; try done.
    + rewrite TW, EWt, (u64_id (source_weight s)), u64_id; lia.
    + rewrite TB, u64_id; lia.
    + rewrite <- PRB. f_equal. ring.
    + rewrite BRW, TBl. done.
  - cbn [vi_weight_commitment vi_balance_commitment vt_C_W vt_C_B]. unfold V, Bc. by rewrite !addKeys_point.
Qed.

Definition weights (l : list dao_v2_vote_source) : Z := zsum (source_weight <$> l).
Definition amounts (l : list dao_v2_vote_source) : Z := zsum (vs_real_amount <$> l).

Definition blindings (l : list dao_v2_vote_source) (rs : list input_randomness) : Z :=
  zsum (zip_with source_blinding l rs).

Lemma source_weight_nonneg s : source_ok s -> 0 <= source_weight s /\ 0 <= vs_real_amount s.
Proof.
  intros S. pose proof (so_amount s S). destruct (source_lengths s S) as (_ & _ & LH & _ & Hr).
  destruct (lookup_lt_is_Some_2 (vs_output_heights s) (vs_real_index s)) as [h Eh]; [lia|].
  pose proof (Forall_lookup_1 _ _ _ _ (so_heights s S) Eh) as Hh. cbn in Hh.
  unfold source_weight, source_factor. rewrite (nth_lookup_Some _ _ 0 h Eh).
  pose proof (age_factor_range h vh ltac:(lia)). nia.
Qed.

Lemma weights_nonneg l : Forall source_ok l -> 0 <= weights l /\ 0 <= amounts l.
Proof.
  unfold weights, amounts. induction 1 as [|s l Hs _ IH]; [done|]. rewrite !fmap_cons. cbn [zsum].
  pose proof (source_weight_nonneg s Hs). change (zsum (?x :: ?l)) with (x + zsum l). lia.
Qed.

Lemma build_inputs_ok sources rs t W B R :
  Forall2 (fun s r => source_ok s /\ draws_ok s r) sources rs -> totals_ok t W B R -> 0 <= vh < 2 ^ 64 ->
  0 <= W -> W + weights sources < 2 ^ 64 -> 0 <= B -> B + amounts sources < 2 ^ 64 ->
  exists inps t', build_inputs pid sub vh kid sources rs t = Some (inps, t') /\ Forall2 input_for sources inps /\
    totals_ok t' (W + weights sources) (B + amounts sources) (R + blindings sources rs) /\
    sum_keys (vt_C_W t) (map vi_weight_commitment inps) = Some (vt_C_W t') /\
    sum_keys (vt_C_B t) (map vi_balance_commitment inps) = Some (vt_C_B t').
Proof.
  intros F. revert t W B R. induction F as [|s r sources rs [S D] F IH]; intros t W B R T Hv HW0 HW HB0 HB.
  { exists [], t. unfold weights, amounts, blindings. cbn [zip_with]. rewrite !fmap_nil. cbn [zsum]. change (zsum []) with 0.
    rewrite !Z.add_0_r. split_and!; (done || constructor). }
  assert (weights (s :: sources) = source_weight s + weights sources) as EW by done.
  assert (amounts (s :: sources) = vs_real_amount s + amounts sources) as EB by done.
  assert (blindings (s :: sources) (r :: rs) = source_blinding s r + blindings sources rs) as ER by done.
  rewrite EW, EB, ER in *.
  assert (Forall source_ok sources) as Fs.
  { clear -F. induction F as [|? ? ? ? [? _]]; by constructor. }
  pose proof (weights_nonneg _ Fs). pose proof (source_weight_nonneg s S).
  destruct (build_input_ok s r t W B R S D T Hv) as (inp & t1 & E1 & I1 & T1 & K1 & K2); try lia.
  destruct (IH t1 _ _ _ T1 Hv) as (inps & t2 & E2 & I2 & T2 & K3 & K4); try lia.
  exists (inp :: inps), t2. cbn [build_inputs map sum_keys]. rewrite E1. cbn [mbind option_bind]. rewrite E2.
  cbn [mbind option_bind]. split; [done|]. split; [by constructor|].
  rewrite K1, K2. cbn [mbind option_bind]. rewrite K3, K4, !Z.add_assoc. done.
Qed.

(** *** What the verifier makes of the inputs *)

Lemma check_ring_pass s inp : source_ok s -> input_for s inp -> check_ring inp = pass (vs_output_indices s).
Proof.
  intros S I. destruct (source_lengths s S) as (_ & _ & _ & LO & _). pose proof (so_two s S).
  unfold check_ring. destruct (if_lengths s inp I) as [-> ->]. rewrite (if_offsets s inp I), LO.
  rewrite (proj2 (Nat.eqb_neq _ _)), (proj2 (Nat.ltb_ge _ _)), Nat.eqb_refl, (so_offsets s S) by lia.
  cbn [negb ensure check_bind found]. by rewrite (proj2 (has_duplicate_false _) (so_distinct s S)).
Qed.

Lemma zip_outputs Ps Cs hs : length Cs = length Ps -> length hs = length Ps ->
  let ods := zip_with (fun '(P, C) h => {| od_pubkey := P; od_height := h; od_commitment := C |}) (zip Ps Cs) hs in
  map od_pubkey ods = Ps /\ map od_commitment ods = Cs /\ map od_height ods = hs.
Proof.
  cbn zeta. revert Cs hs. induction Ps as [|P Ps IH]; intros [|C Cs] [|h hs] LC LH; try done.
  injection LC as LC. injection LH as LH. destruct (IH Cs hs LC LH) as (E1 & E2 & E3).
  cbn [zip_with map od_pubkey od_commitment od_height]. by rewrite E1, E2, E3.
Qed.

Lemma members_pass s : source_ok s -> 0 <= vh < 2 ^ 64 -> exists ms,
  check_map (ring_member outputs vh) (vs_output_indices s) = pass ms /\
  map (fun '(od, _) => od_pubkey od) ms = vs_P s /\ map (fun '(od, _) => od_commitment od) ms = vs_C s /\
  map (fun '(od, _) => od_height od) ms = vs_output_heights s /\ map snd ms = source_factors s.
Proof.
  intros S Hv. destruct (source_lengths s S) as (LC & LI & LH & _ & _). pose proof (so_heights s S) as Fh.
  destruct (source_factors_ok s S Hv) as (-> & _ & _).
  destruct (zip_outputs (vs_P s) (vs_C s) (vs_output_heights s) LC LH) as (E1 & E2 & E3).
  pose proof (so_chain s S) as Ch. apply mapM_Some in Ch. set (ods := zip_with _ _ _) in *.
  exists (map (fun od => (od, age_factor (od_height od) vh)) ods). split.
  - apply check_map_pass. apply Forall2_fmap_r. rewrite <- E3 in Fh. apply Forall_map in Fh.
    clear -Ch Fh Hv. induction Ch as [|idx od l ods E _ IH]; [constructor|].
    apply Forall_cons in Fh as [Hh Fh]. constructor; [|by apply IH]. apply ring_member_pass; [done|done|lia].
  - rewrite !map_map, <- E3, map_map. done.
Qed.

Lemma build_context_pass s inp proof prop : source_ok s -> input_for s inp -> 0 <= vh < 2 ^ 64 ->
  v2_proposal_id proof = pid -> v2_vote_height proof = vh -> v2_tally_key_id proof = kid ->
  submission_height prop = sub ->
  build_context outputs proof prop inp (vs_output_indices s) =
  pass (source_context pid sub vh kid s (vi_weight_commitment inp) (source_factors s)).
Proof.
  intros S I Hv Ep Eh Ek Es. unfold build_context. rewrite Ep, Eh, Ek, Es.
  destruct (members_pass s S Hv) as (ms & -> & E1 & E2 & E3 & E4). cbn [check_bind]. rewrite E1, E2, E3, E4.
  destruct (source_factors_ok s S Hv) as (Ef & _ & Er). destruct (so_same_age s S) as (f & Ff).
  assert (Forall (fun g => g = f) (source_factors s)) as Fg by (rewrite Ef; by apply Forall_map).
  destruct (source_factors s) as [|g gs] eqn:Eg; [done|]. cbn [head no_throw check_bind].
  assert (forallb (fun '(_, h) => h =? g) ms = true) as ->; [|done].
  apply Is_true_eq_true, forallb_True. pose proof (proj1 (Forall_forall _ _) Fg) as Fg'.
  apply Forall_forall. intros [od h] Hin.
  apply Is_true_eq_left, Z.eqb_eq. rewrite (Fg' h), (Fg' g); [done|set_solver|].
  rewrite <- E4. change (map snd ms) with (snd <$> ms). apply list_elem_of_fmap. by exists (od, h).
Qed.

Lemma verify_inputs_pass sources inps proof prop :
  Forall source_ok sources -> Forall2 input_for sources inps -> 0 <= vh < 2 ^ 64 ->
  v2_proposal_id proof = pid -> v2_vote_height proof = vh -> v2_tally_key_id proof = kid ->
  submission_height prop = sub -> v2_inputs proof = inps -> v2_nullifiers proof = map input_nullifier inps ->
  NoDup (v2_nullifiers proof) -> Forall (fun nf => forallb (Z.eqb 0) nf = false) (v2_nullifiers proof) ->
  sum_keys rct_identity (map vi_weight_commitment inps) = Some (C_W proof) ->
  sum_keys rct_identity (map vi_balance_commitment inps) = Some (C_B proof) ->
  verify_inputs outputs proof prop =
  pass (zip_with (fun s inp => source_context pid sub vh kid s (vi_weight_commitment inp) (source_factors s))
         sources inps).
Proof.
  intros Fs F Hv Ep Eh Ek Es Ei En ND NZ EW EB. unfold verify_inputs. rewrite Ei.
  rewrite (check_map_pass check_ring inps (map vs_output_indices sources)).
  2: { clear -Fs F. induction F; inversion Fs; subst; constructor; [by apply check_ring_pass|auto]. }
  cbn [check_bind]. rewrite check_all_pass.
  2: { apply Forall_concat, Forall_map. eapply Forall_impl; [exact Fs|]. intros s S.
       pose proof (so_chain s S) as Ch. apply mapM_Some in Ch. clear -Ch. induction Ch as [|? ? ? ? E]; constructor; [|done].
       by rewrite E. }
  cbn [check_bind]. rewrite check_nullifiers_pass; [|done|apply Forall_true; set_solver|done]. cbn [check_bind].
  set (ctxs := zip_with _ sources inps).
  rewrite (check_map_pass _ _ ctxs).
  2: { unfold ctxs. clear -Fs F Hv Ep Eh Ek Es. induction F as [|s inp l k I F IH]; [constructor|].
       apply Forall_cons in Fs as [S Fs]. cbn [map zip_with]. constructor; [|by apply IH]. by apply build_context_pass. }
  cbn [check_bind].
  rewrite check_all_pass.
  2: { unfold ctxs. clear -F. induction F as [|s inp l k I F IH]; [constructor|]. cbn [zip_with]. constructor; [|done].
       unfold holds. by rewrite (if_W _ _ I). }
  cbn [check_bind]. rewrite check_all_pass.
  2: { unfold ctxs. clear -Fs F. induction F as [|s inp l k I F IH]; [constructor|]. apply Forall_cons in Fs as [S Fs].
       cbn [zip_with]. constructor; [|by apply IH]. unfold holds, balance_context.
       destruct (source_lengths s S) as (_ & _ & _ & LO & _). rewrite (if_offsets _ _ I), LO.
       pose proof (if_B _ _ I) as EBs. unfold source_context in *. cbn [cc_proposal_id cc_submission_height cc_vote_height
         cc_tally_key_id cc_P cc_C cc_output_indices cc_output_heights]. by rewrite EBs. }
  cbn [check_bind]. rewrite En. rewrite check_all_pass.
  2: { clear -F. induction F as [|s inp l k I F IH]; [constructor|]. cbn [map zip_with]. constructor; [|done].
       unfold input_nullifier. rewrite (if_images _ _ I), !beq_refl. done. }
  cbn [check_bind]. rewrite EW. cbn [no_throw check_bind]. rewrite beq_refl. cbn [ensure check_bind].
  rewrite EB. cbn [no_throw check_bind]. rewrite beq_refl. done.
Qed.

(** *** The totals *)

Lemma map_contexts {A} (g : dao_clsag_context -> A) h sources inps : length inps = length sources ->
  (forall s inp, g (source_context pid sub vh kid s (vi_weight_commitment inp) (source_factors s)) = h s) ->
  map g (zip_with (fun s inp => source_context pid sub vh kid s (vi_weight_commitment inp) (source_factors s))
           sources inps) = map h sources.
Proof.
  intros L Hg. revert inps L. induction sources as [|s l IH]; intros [|inp inps] L; try done.
  injection L as L. cbn [zip_with map]. by rewrite Hg, IH.
Qed.

Lemma same_lengths_map {A B} (f : dao_v2_vote_source -> list A) (g : dao_v2_vote_source -> list B) l :
  Forall (fun s => length (f s) = length (g s)) l -> same_lengths (map f l) (map g l) = true.
Proof.
  unfold same_lengths. induction 1 as [|s l E _ IH]; [done|]. cbn [map zip_with forallb].
  by rewrite E, Nat.eqb_refl, IH.
Qed.

Lemma short_map {A} (f : dao_v2_vote_source -> list A) l :
  Forall (fun s => length (f s) = length (vs_P s)) l -> Forall (fun s => zlen (vs_P s) < 2 ^ 32) l ->
  forallb (fun k => zlen k <=? 4294967295) (map f l) = true.
Proof.
  intros F G. apply Is_true_eq_true, forallb_True, Forall_map. rewrite Forall_forall in F, G |- *.
  intros s Hs. specialize (F s Hs). specialize (G s Hs). cbn in *. apply Is_true_eq_left, Z.leb_le.
  unfold zlen in *. rewrite F. lia.
Qed.

(** The transcript of a vote made from good sources can be computed. *)
Lemma transcript_length ti sources : Forall source_ok sources ->
  ti_key_offsets ti = map vs_key_offsets sources -> ti_absolute_indices ti = map vs_output_indices sources ->
  ti_P ti = map vs_P sources -> ti_C ti = map vs_C sources -> ti_output_heights ti = map vs_output_heights sources ->
  ti_age_factors ti = map source_factors sources -> length (ti_nullifiers ti) = length sources ->
  length (ti_balance_commitments ti) = length sources ->
  length (ti_E_W ti) = 512%nat -> length (ti_E_S ti) = 512%nat -> length (ti_E_B ti) = 512%nat ->
  zlen sources < 2 ^ 32 -> Forall (fun s => zlen (vs_P s) < 2 ^ 32) sources ->
  length (dao_vote_input_transcript ti) = 32%nat.
Proof.
  intros Fs E1 E2 E3 E4 E5 E6 L1 L2 L3 L4 L5 Hn Hr. unfold dao_vote_input_transcript.
  assert (tx_validate ti = true) as ->; [|apply SHA256_bytes].
  assert (forall (P : dao_v2_vote_source -> Prop), (forall s, source_ok s -> P s) -> Forall P sources) as FP
    by (intros P HP; eapply Forall_impl; [exact Fs|done]).
  unfold tx_validate. rewrite E1, E2, E3, E4, E5, E6, L1, L2, L3, L4, L5, !length_map, !Nat.eqb_refl.
  assert ((zlen (map vs_key_offsets sources) <=? 4294967295) = true) as ->
    by (apply Z.leb_le; unfold zlen in *; rewrite length_map; lia).
  rewrite !same_lengths_map, !short_map; try done;
    apply FP; intros s S; destruct (source_lengths s S) as (? & ? & ? & ? & _); try congruence.
  unfold source_factors. rewrite length_map. congruence.
Qed.

End sources.

(** What is drawn for an encryption and its proof. *)
Definition encryption_draws (N : Z) (r : consistency_randomness) : Prop :=
  0 < cr_r r /\ Z.coprime (cr_r r) N /\ 0 <= cr_a_m r < N /\ Z.coprime (cr_a_r r) N /\ scalar (cr_a_rho r).

Lemma valid_ct_bytes pk u : pk_ok pk -> valid_ct (pk_N pk) (ct_bytes pk u) = true.
Proof.
  intros Hpk. destruct (is_ct_bytes pk Hpk u) as [Hv _]. apply is_valid_ciphertext_true in Hv as (_ & H1 & H2 & H3); [|done].
  pose proof Hpk as [_ E2]. unfold valid_ct. rewrite <- E2.
  by rewrite (proj2 (Z.ltb_lt _ _) H1), (proj2 (Z.eqb_neq _ _) H2), (proj2 (Z.eqb_eq _ _) H3).
Qed.

(** ** The whole vote *)

Section vote.
Context `{RctLaws} (outputs : Z -> option output_data_t) (pid : hash) (sub vh : Z) (kid : hash).

Definition signed_weight (direction W : Z) : Z := if direction =? 0 then W else - W.

(** A vote with good sources and good random values.  The last conditions fail
    only for values drawn with negligible probability, except for the sizes: the
    total weight must fit 64 bits. *)
Record honest_vote (modulus : bytes) (pk : PaillierPublicKey) (direction : Z) (sources : list dao_v2_vote_source)
    (rnd : vote_randomness) (nfs : list hash) : Prop := {
  hv_height : 0 <= vh < 2 ^ 64;
  hv_direction : direction = 0 \/ direction = 1;
  hv_modulus : deserialize_modulus modulus = Some pk;
  hv_bytes : Forall is_byte modulus;
  hv_nonempty : sources <> [];
  hv_sources : Forall2 (fun s r => source_ok outputs vh s /\ draws_ok pid s r) sources (rnd_inputs rnd);
  hv_count : zlen sources < 2 ^ 32;
  hv_rings : Forall (fun s => zlen (vs_P s) < 2 ^ 32) sources;
  hv_weight : weights vh sources < 2 ^ 64 /\ weights vh sources < pk_N pk;
  hv_balance : amounts sources < 2 ^ 64 /\ amounts sources < pk_N pk;
  hv_W : encryption_draws (pk_N pk) (rnd_W rnd);
  hv_S : encryption_draws (pk_N pk) (rnd_S rnd);
  hv_B : encryption_draws (pk_N pk) (rnd_B rnd);
  hv_R_S : scalar (rnd_R_S rnd);
  hv_or : scalar (rnd_k rnd) /\ scalar (rnd_c_unknown rnd) /\ scalar (rnd_s_unknown rnd);
  hv_apart : let W := weights vh sources in
    let S := signed_weight direction W in
    let R := blindings vh sources (rnd_inputs rnd) in
    point ((S - W) * log_H + (le_val (rnd_R_S rnd) - R)) 0 <> rct_identity /\
    point ((S + W) * log_H + (le_val (rnd_R_S rnd) + R)) 0 <> rct_identity;
  hv_nullifiers : mapM (source_nullifier pid) sources = Some nfs;
  hv_distinct : NoDup nfs;
  hv_nonzero : Forall (fun nf => forallb (Z.eqb 0) nf = false) nfs;
}.

(** The chain is ready for the vote: the proposal is open and has this key, and
    no output has voted yet. *)
Record open_for (modulus : bytes) (nfs : list hash) (proposals : gmap hash proposal_record) (d : dao_db)
    (block_nfs : list hash) (prop : proposal_record) (key_rec : dao_tally_key_record) : Prop := {
  of_proposal : proposals !! pid = Some prop;
  of_active : status prop = PROPOSAL_STATUS_ACTIVE;
  of_period : submission_height prop <= vh <= voting_end_height prop;
  of_submitted : submission_height prop = sub;
  of_key : tally_key_id prop = kid /\ length kid = 32%nat;
  of_record : tally_keys d !! kid = Some key_rec /\ tk_key_id key_rec = kid /\ tk_N key_rec = modulus;
  of_fresh : Forall (fun nf => has_vote_nullifier d pid nf = false /\ nf ∉ block_nfs) nfs;
}.

Lemma honest_nullifiers sources inps nfs : Forall2 (input_for pid sub vh kid) sources inps ->
  mapM (source_nullifier pid) sources = Some nfs -> map input_nullifier inps = nfs.
Proof.
  intros F. revert nfs. induction F as [|s inp l k I F IH]; intros nfs E; [by injection E as <-|].
  cbn in E. apply bind_Some in E as (nf & E1 & E). apply bind_Some in E as (nfs' & E2 & E). injection E as <-.
  cbn [map]. rewrite (IH nfs' E2). f_equal. pose proof (if_nullifier _ _ _ _ _ _ I) as E3. unfold input_nullifier. congruence.
Qed.

(** The plaintext of the signed weight, as the wallet encodes it. *)
Lemma signed_plaintext pk direction W r : pk_ok pk -> direction = 0 \/ direction = 1 -> 0 <= W < pk_N pk ->
  0 < r -> Z.coprime r (pk_N pk) ->
  let S_paillier := if negb (direction =? 0) && negb (W =? 0) then pk_N pk - W else W in
  encode_signed_value (signed_weight direction W) (pk_N pk) = Some S_paillier /\
  encrypt pk S_paillier r = Some (ct_bytes pk (enc pk (signed_weight direction W) r)).
Proof.
  intros Hpk Hd HW Hr Hc. cbn zeta. set (m := if _ : bool then _ else _).
  assert (m = signed_weight direction W mod pk_N pk /\ encode_signed_value (signed_weight direction W) (pk_N pk) = Some m)
    as [E1 E2].
  { unfold m, signed_weight, encode_signed_value. destruct Hd as [-> | ->]; cbn [Z.eqb negb andb].
    - by rewrite Z.mod_small, (proj2 (Z.leb_le 0 W)), (proj2 (Z.ltb_lt W _)) by lia.
    - destruct (Z.eqb_spec W 0) as [->|]; cbn [negb].
      + by rewrite Z.mod_0_l, (proj2 (Z.leb_le 0 _)), (proj2 (Z.ltb_lt _ _)) by lia.
      + rewrite (proj2 (Z.leb_gt 0 (- W))), Z.opp_involutive, (proj2 (Z.leb_gt _ _)) by lia.
        split; [|done]. apply Z.mod_unique_pos with (-1); lia. }
  split; [done|]. rewrite E1, encrypt_spec, enc_mod by (done || apply Z.mod_pos_bound; lia). done.
Qed.

Lemma verify_proposal_pass modulus nfs proposals d block_nfs prop key_rec proof :
  open_for modulus nfs proposals d block_nfs prop key_rec ->
  v2_version proof = 2 -> v2_proposal_id proof = pid -> v2_vote_height proof = vh -> v2_tally_key_id proof = kid ->
  length (v2_nullifiers proof) = length (v2_inputs proof) -> v2_inputs proof <> [] ->
  verify_proposal proposals d proof vh = pass (prop, key_rec).
Proof.
  intros [Ep Ea Hp _ [Ek Lk] (Er & Ei & _) _] E1 E2 E3 E4 L1 L2. unfold verify_proposal, get_dao_tally_key_by_id.
  rewrite L1, E1, E2, E3, E4, Ep, !Nat.eqb_refl. cbn [Z.eqb ensure found check_bind].
  rewrite Ea, (proj2 (Z.ltb_ge vh _)), (proj2 (Z.ltb_ge _ vh)), !Z.eqb_refl by lia. cbn [Z.eqb negb ensure check_bind].
  rewrite Ek, beq_refl, Lk, Nat.eqb_refl. cbn [negb ensure check_bind]. rewrite Er. cbn [found check_bind].
  rewrite Ei, Lk, Nat.eqb_refl, beq_refl. cbn [ensure check_bind].
  by rewrite (proj2 (is_empty_false _) L2).
Qed.

Lemma fresh_pass modulus nfs proposals d block_nfs prop key_rec :
  open_for modulus nfs proposals d block_nfs prop key_rec ->
  check_all (fun nf => ensure (negb (has_vote_nullifier d pid nf)) 27) nfs = pass tt /\
  check_all (fun nf => ensure (negb (bool_decide (nf ∈ block_nfs))) 28) nfs = pass tt.
Proof.
  intros O. pose proof (of_fresh _ _ _ _ _ _ _ O) as F. split; apply check_all_pass; (eapply Forall_impl; [exact F|]); intros nf [E1 E2].
  - by rewrite E1.
  - by rewrite bool_decide_eq_false_2.
Qed.

(** The totals pass when they hold what they are proved to hold; [W], [S] and [B]
    are any integers. *)
Lemma verify_totals_pass pk proof prop key_rec ctxs W S B rW rS rB digest :
  pk_ok pk -> BN_bin2bn (tk_N key_rec) = pk_N pk ->
  C_W proof = point W 0 -> C_S proof = point S 0 -> C_B proof = point B 0 ->
  E_W proof = ct_bytes pk rW -> E_S proof = ct_bytes pk rS -> E_B proof = ct_bytes pk rB ->
  dao_vote_input_transcript (verifier_transcript proof prop key_rec ctxs) = digest -> length digest = 32%nat ->
  transcript_hash proof = digest ->
  let holds dom E C pf := dao_consistency_verify (verifier_consistency proof digest (str dom)) (pk_N pk) E C pf = Some true in
  holds "C_W-Enc(W)" (E_W proof) (C_W proof) (proof_W proof) ->
  holds "C_S-Enc(S)" (E_S proof) (C_S proof) (proof_S proof) ->
  holds "C_B-Enc(B)" (E_B proof) (C_B proof) (proof_B proof) ->
  dao_or_verify (verifier_direction proof) (direction_proof proof) = Some true ->
  verify_totals proof prop key_rec ctxs = pass tt.
Proof.
  cbn zeta. intros Hpk EN CW CS CB EW ES EB Ed Ld Et HW HS HB HO. unfold verify_totals. rewrite Ed, Ld, Et, EN.
  assert (forall x, isInMainSubgroup (point x 0) = true) as M by (intros x; apply main_point; by exists x).
  assert (isInMainSubgroup (C_W proof) = true) as -> by by rewrite CW.
  assert (isInMainSubgroup (C_S proof) = true) as -> by by rewrite CS.
  assert (isInMainSubgroup (C_B proof) = true) as -> by by rewrite CB.
  assert (forall E u, E = ct_bytes pk u -> length E = PAILLIER_CT_BYTES /\ valid_ct (pk_N pk) E = true) as V
    by (intros E u ->; split; [by apply length_ct_bytes|by apply valid_ct_bytes]).
  destruct (V _ _ EW) as [-> ->], (V _ _ ES) as [-> ->], (V _ _ EB) as [-> ->].
  rewrite !Nat.eqb_refl. cbn [andb ensure check_bind]. unfold holds.
  rewrite HW, HS, HB. cbn [no_throw ensure check_bind]. rewrite HO, beq_refl. done.
Qed.

Lemma no_totals_ok : totals_ok no_totals 0 0 0.
Proof.
  destruct zero_scalar as [S V]. split; try done; cbn [vt_C_W vt_C_B vt_R_W vt_R_B no_totals].
  - by rewrite V, identity_point.
  - by rewrite V, identity_point.
Qed.

Lemma modulus_value modulus pk : Forall is_byte modulus -> deserialize_modulus modulus = Some pk ->
  pk_ok pk /\ length modulus = 256%nat /\ BN_bin2bn modulus = pk_N pk.
Proof.
  intros B E. pose proof (deserialize_modulus_ok _ _ B E) as Hpk. split; [done|].
  unfold deserialize_modulus in E. case_match eqn:L; [done|]. apply negb_false_iff, Nat.eqb_eq in L. split; [done|].
  unfold set_modulus in E. repeat case_match; try done. by injection E as <-.
Qed.

(** Encrypting a value and proving it equal to the committed one. *)
Lemma encrypted_and_proved pk m rho r (ctx : bytes -> bytes -> dao_consistency_context) dom :
  pk_ok pk -> encryption_draws (pk_N pk) r -> scalar rho ->
  let E := ct_bytes pk (enc pk m (cr_r r)) in
  let C := point (m * log_H + le_val rho) 0 in
  forall digest, exists pf,
    dao_consistency_prove (ctx digest dom) (pk_N pk) E C m (cr_r r) rho (cr_a_m r) (cr_a_r r) (cr_a_rho r) = Some pf /\
    (Z.abs m < pk_N pk -> consistency_ok pf) /\
    dao_consistency_verify (ctx digest dom) (pk_N pk) E C pf = Some true.
Proof.
  intros Hpk (R1 & R2 & R3 & R4 & R5) Sr E C digest.
  destruct (consistency_complete (ctx digest dom) pk E C m (cr_r r) rho (cr_a_m r) (cr_a_r r) (cr_a_rho r))
    as (pf & P1 & P2 & P3); try done; try lia. exists pf. split; [done|]. split; [|done]. intros Hm. apply P2; [done|lia].
Qed.

(** The two differences of the commitments of a direction. *)
Lemma direction_points direction W S R_S R_W : direction = 0 \/ direction = 1 -> S = signed_weight direction W ->
  let s := S * log_H + R_S in
  let w := W * log_H + R_W in
  if direction =? 0 then s - w ≡[ell] R_S - R_W else s + w ≡[ell] R_S + R_W.
Proof. intros [-> | ->] ->; cbn [Z.eqb signed_weight]; cbn zeta; congr_ring. Qed.

Lemma code_signed_weight direction W : (if negb (direction =? 0) && negb (W =? 0) then - W else W) = signed_weight direction W.
Proof. unfold signed_weight. destruct (direction =? 0), (Z.eqb_spec W 0) as [->|]; done. Qed.

Lemma signed_weight_abs direction W n : 0 <= W < n -> Z.abs (signed_weight direction W) < n.
Proof. unfold signed_weight. destruct (direction =? 0); lia. Qed.

Definition honest_ballot (direction : Z) (sources : list dao_v2_vote_source) (rnd : vote_randomness) : ballot :=
  {| b_weight := weights vh sources; b_yes := direction =? 0; b_balance := amounts sources;
     b_rW := cr_r (rnd_W rnd); b_rS := cr_r (rnd_S rnd); b_rB := cr_r (rnd_B rnd) |}.

(** Wallet and verifier hash the same transcript. *)
Lemma transcripts_agree proof prop key_rec sources inps t CS EW ES EB :
  (v2_version proof, v2_proposal_id proof, v2_vote_height proof) = (2, pid, vh) ->
  submission_height prop = sub -> tk_key_id key_rec = kid -> length inps = length sources ->
  v2_inputs proof = inps -> v2_nullifiers proof = map input_nullifier inps ->
  map vi_key_offsets inps = map vs_key_offsets sources ->
  (C_W proof, C_S proof, C_B proof, E_W proof, E_S proof, E_B proof) = (vt_C_W t, CS, vt_C_B t, EW, ES, EB) ->
  verifier_transcript proof prop key_rec (zip_with (fun s inp =>
    source_context pid sub vh kid s (vi_weight_commitment inp) (source_factors vh s)) sources inps) =
  wallet_transcript pid sub vh kid sources inps t CS EW ES EB.
Proof.
  intros E1 E2 E3 L E4 E5 E6 E7. unfold verifier_transcript, wallet_transcript.
  injection E1 as -> -> ->. injection E7 as -> -> -> -> -> ->. rewrite E2, E3, E4, E5, E6.
  by rewrite (map_contexts pid sub vh kid cc_output_indices vs_output_indices), (map_contexts pid sub vh kid cc_P vs_P),
    (map_contexts pid sub vh kid cc_C vs_C), (map_contexts pid sub vh kid cc_output_heights vs_output_heights),
    (map_contexts pid sub vh kid cc_age_factors (source_factors vh)) by done.
Qed.

Lemma encrypt_drawn pk m r : pk_ok pk -> 0 <= m < pk_N pk -> encryption_draws (pk_N pk) r ->
  encrypt pk m (cr_r r) = Some (ct_bytes pk (enc pk m (cr_r r))).
Proof. intros Hpk Hm (R1 & R2 & _). by apply encrypt_spec. Qed.

(** The fixed-size parts of a vote have their sizes. *)
Record totals_wire (proof : vote_proof_v2) : Prop := {
  tw_C : length (C_W proof) = 32%nat /\ length (C_S proof) = 32%nat /\ length (C_B proof) = 32%nat;
  tw_E : length (E_W proof) = 512%nat /\ length (E_S proof) = 512%nat /\ length (E_B proof) = 512%nat;
  tw_proofs : consistency_ok (proof_W proof) /\ consistency_ok (proof_S proof) /\ consistency_ok (proof_B proof);
  tw_direction : direction_ok (direction_proof proof);
  tw_hash : length (transcript_hash proof) = 32%nat;
}.

(** From the totals of the sources to the proofs over them. *)
Lemma finish_vote_ok pk direction sources rnd inps t nfs : pk_ok pk ->
  let W := weights vh sources in let B := amounts sources in let S := signed_weight direction W in
  direction = 0 \/ direction = 1 -> 0 <= W < pk_N pk -> 0 <= B < pk_N pk ->
  encryption_draws (pk_N pk) (rnd_W rnd) -> encryption_draws (pk_N pk) (rnd_S rnd) ->
  encryption_draws (pk_N pk) (rnd_B rnd) -> scalar (rnd_R_S rnd) ->
  scalar (rnd_k rnd) /\ scalar (rnd_c_unknown rnd) /\ scalar (rnd_s_unknown rnd) ->
  totals_ok t W B (blindings vh sources (rnd_inputs rnd)) ->
  point ((S - W) * log_H + (le_val (rnd_R_S rnd) - le_val (vt_R_W t))) 0 <> rct_identity ->
  point ((S + W) * log_H + (le_val (rnd_R_S rnd) + le_val (vt_R_W t))) 0 <> rct_identity ->
  Forall (source_ok outputs vh) sources -> length inps = length sources -> map input_nullifier inps = nfs ->
  map vi_key_offsets inps = map vs_key_offsets sources ->
  zlen sources < 2 ^ 32 -> Forall (fun s => zlen (vs_P s) < 2 ^ 32) sources ->
  exists proof, finish_vote pid sub vh kid pk (pk_N pk) direction sources rnd inps t = Some proof /\
    (v2_version proof, v2_proposal_id proof, v2_vote_height proof, v2_tally_key_id proof) = (2, pid, vh, kid) /\
    (v2_inputs proof, v2_nullifiers proof, C_W proof, C_B proof) = (inps, nfs, vt_C_W t, vt_C_B t) /\ totals_wire proof /\
    casts pk (honest_ballot direction sources rnd) proof /\
    forall prop key_rec, submission_height prop = sub -> tk_key_id key_rec = kid ->
      BN_bin2bn (tk_N key_rec) = pk_N pk ->
      verify_totals proof prop key_rec (zip_with (fun s inp =>
        source_context pid sub vh kid s (vi_weight_commitment inp) (source_factors vh s)) sources inps) = pass tt.
Proof.
  intros Hpk W B S Hd HW HB DW DS DB SRS (Sk & Su & Ss) [TW TB SRW SRB TCW TCB TBl] Ap1 Ap2 Fs Lin Enf Eof Hc Hr.
  destruct (signed_plaintext pk direction W (cr_r (rnd_S rnd)) Hpk Hd HW ltac:(apply DS) ltac:(apply DS)) as [Enc1 Enc2].
  fold S in Enc2.
  pose proof (encrypt_drawn pk W _ Hpk HW DW) as EncW. pose proof (encrypt_drawn pk B _ Hpk HB DB) as EncB.
  unfold finish_vote. rewrite TW, TB. fold W B. rewrite (code_signed_weight direction W). fold S.
  destruct (bn_to_scalar_ok S) as [SS VS].
  rewrite H_point, scalarmultKey_point, (scalarmultBase_scalar _ SRS) by done. cbn [mbind option_bind].
  rewrite addKeys_point. cbn [mbind option_bind].
  assert (point (le_val (bn_to_scalar_reduced S) * log_H + le_val (rnd_R_S rnd))
    (le_val (bn_to_scalar_reduced S) * 0 + 0) = point (S * log_H + le_val (rnd_R_S rnd)) 0) as ->
    by (apply point_congr; [rewrite VS|]; congr_ring).
  rewrite EncW. cbn [mbind option_bind]. rewrite Enc2. cbn [mbind option_bind]. rewrite EncB. cbn [mbind option_bind].
  set (EW := ct_bytes pk (enc pk W (cr_r (rnd_W rnd)))). set (ES := ct_bytes pk (enc pk S (cr_r (rnd_S rnd)))).
  set (EB := ct_bytes pk (enc pk B (cr_r (rnd_B rnd)))).
  set (CS := point (S * log_H + le_val (rnd_R_S rnd)) 0).
  set (ti := wallet_transcript pid sub vh kid sources inps t CS EW ES EB). set (digest := dao_vote_input_transcript ti).
  assert (length digest = 32%nat) as Ld.
  { apply (transcript_length outputs vh ti sources); try done; cbn [ti wallet_transcript ti_nullifiers
      ti_balance_commitments ti_E_W ti_E_S ti_E_B]; rewrite ?length_map; try done; by apply length_ct_bytes. }
  rewrite Ld. cbn [Nat.eqb negb].
  set (ctx := fun digest dom => {| cx_domain := dom; cx_version := 2; cx_proposal_id := pid; cx_vote_height := vh;
    cx_tally_key_id := kid; cx_transcript := digest |}).
  destruct (encrypted_and_proved pk W (vt_R_W t) (rnd_W rnd) ctx (str "C_W-Enc(W)") Hpk DW SRW digest) as (pW & PW & KW & VW).
  destruct (encrypted_and_proved pk S (rnd_R_S rnd) (rnd_S rnd) ctx (str "C_S-Enc(S)") Hpk DS SRS digest) as (pS & PS & KS & VS').
  destruct (encrypted_and_proved pk B (vt_R_B t) (rnd_B rnd) ctx (str "C_B-Enc(B)") Hpk DB SRB digest) as (pB & PB & KB & VB).
  fold EW in PW, VW. fold ES CS in PS, VS'. fold EB in PB, VB. rewrite <- TCW in PW, VW. rewrite <- TCB in PB, VB.
  unfold ctx in PW, PS, PB. rewrite PW. cbn [mbind option_bind]. rewrite PS. cbn [mbind option_bind]. rewrite PB.
  cbn [mbind option_bind].
  match goal with |- context [dao_or_prove ?c] => set (octx := c) end.
  destruct (or_complete octx (direction =? 0) (rnd_R_S rnd) (vt_R_W t) (rnd_k rnd) (rnd_c_unknown rnd) (rnd_s_unknown rnd)
    (S * log_H + le_val (rnd_R_S rnd)) (W * log_H + le_val (vt_R_W t)) eq_refl TCW SRS SRW Sk Su Ss
    (direction_points direction W S _ _ Hd eq_refl)) as (po & PO & KO & VO).
  { intros E. apply Ap1. rewrite <- E. f_equal. ring. }
  { intros E. apply Ap2. rewrite <- E. f_equal. ring. }
  rewrite PO. cbn [mbind option_bind]. eexists. split; [done|]. split; [done|].
  split; [cbn [v2_inputs v2_nullifiers C_W C_B]; by rewrite Enf|]. split; [|split].
  - assert (Z.abs S < pk_N pk) by (apply signed_weight_abs; lia).
    split; cbn [C_W TxExtra.C_S C_B E_W E_S E_B proof_W proof_S proof_B direction_proof transcript_hash]; [| | |exact KO|exact Ld].
    + rewrite TCW, TCB. unfold CS. split_and!; apply length_point.
    + split_and!; apply (length_ct_bytes pk Hpk).
    + split_and!; [apply KW|apply KS|apply KB]; lia.
  - unfold casts, honest_ballot, b_signed. cbn [b_weight b_yes b_balance b_rW b_rS b_rB E_W E_S E_B C_W TxExtra.C_S C_B].
    assert (forall x, isInMainSubgroup (point x 0) = true) as M by (intros x; apply main_point; by exists x).
    fold W B. change (if direction =? 0 then W else - W) with (signed_weight direction W).
    rewrite Enc1, TCW, TCB. cbn [mbind option_bind].
    split; [lia|]. split; [lia|]. split; [exact EncW|]. split; [exact Enc2|]. split; [exact EncB|]. split_and!; apply M.
  - intros prop key_rec Esub Ekid EN.
    eapply (verify_totals_pass pk _ prop key_rec _ _ _ _ _ _ _ digest);
      [exact Hpk|exact EN|exact TCW|reflexivity|exact TCB|reflexivity|reflexivity|reflexivity| |exact Ld|reflexivity
      |exact VW|exact VS'|exact VB|exact VO].
    unfold digest, ti. f_equal. by apply transcripts_agree.
Qed.

Lemma input_wire s inp : source_ok outputs vh s -> zlen (vs_P s) < 2 ^ 32 -> input_for pid sub vh kid s inp -> input_ok inp.
Proof.
  intros S Hr I. destruct (source_lengths _ _ s S) as (_ & _ & _ & LO & _). unfold zlen in Hr.
  destruct I as [E _ _ [L1 L2] _ _ [(K1 & K2 & K3 & K4) (K5 & K6 & K7 & K8)] [(x & t & Ex) (y & u & Ey)]].
  split.
  - rewrite E. split; [apply (so_words _ _ _ S)|]. unfold zlen. lia.
  - rewrite Ex. apply length_point.
  - split; try done. split; [done|]. unfold zlen. lia.
  - rewrite Ey. apply length_point.
  - split; try done. split; [done|]. unfold zlen. lia.
Qed.

(** The vote can be written and read back. *)
Lemma honest_wire sources inps proof : Forall (source_ok outputs vh) sources ->
  Forall (fun s => zlen (vs_P s) < 2 ^ 32) sources -> zlen sources < 2 ^ 32 ->
  Forall2 (input_for pid sub vh kid) sources inps -> 0 <= vh < 2 ^ 64 ->
  v2_proposal_id proof = pid -> v2_vote_height proof = vh -> v2_tally_key_id proof = kid ->
  v2_inputs proof = inps -> v2_nullifiers proof = map input_nullifier inps -> totals_wire proof ->
  length pid = 32%nat -> length kid = 32%nat -> vote_v2_ok proof.
Proof.
  intros Fs Fr Hc Fi Hv E1 E2 E3 E4 E5 [(? & ? & ?) (? & ? & ?) (? & ? & ?) ? ?] L1 L2.
  assert (Forall input_ok inps) as Fo.
  { clear -Fs Fr Fi. induction Fi as [|s inp l k I F IH]; [constructor|].
    apply Forall_cons in Fs as [S Fs], Fr as [R Fr]. constructor; [by eapply input_wire|auto]. }
  pose proof (Forall2_length _ _ _ Fi) as L. unfold zlen in Hc.
  split; rewrite ?E1, ?E2, ?E3, ?E4, ?E5; try done.
  - split; [done|]. unfold zlen. lia.
  - split; [|unfold zlen; rewrite length_map; lia]. apply Forall_map. eapply Forall_impl; [exact Fo|].
    intros inp I. apply (cok_I _ (iok_ws _ I)).
Qed.

Lemma honest_vote_accepted modulus pk direction sources rnd nfs :
  honest_vote modulus pk direction sources rnd nfs ->
  exists proof, build_dao_v2_vote pid sub vh kid modulus direction sources rnd = Some proof /\
    v2_version proof = 2 /\ v2_proposal_id proof = pid /\ v2_tally_key_id proof = kid /\ v2_nullifiers proof = nfs /\
    (length pid = 32%nat -> length kid = 32%nat -> vote_v2_ok proof) /\
    casts pk (honest_ballot direction sources rnd) proof /\
    forall proposals d block_nfs prop key_rec, open_for modulus nfs proposals d block_nfs prop key_rec ->
      verify outputs proposals d proof vh block_nfs = pass tt.
Proof.
  intros HV. destruct (modulus_value _ _ (hv_bytes _ _ _ _ _ _ HV) (hv_modulus _ _ _ _ _ _ HV)) as (Hpk & Lm & EN).
  destruct HV as [Hv Hd Hmod _ Hne Hso Hcount Hrings [HW HWN] [HB HBN] DW DS DB SRS Sor [Ap1 Ap2] Hnf Hdi Hnz].
  assert (Forall (source_ok outputs vh) sources) as Fs by (clear -Hso; induction Hso as [|? ? ? ? [? _]]; by constructor).
  destruct (weights_nonneg _ _ _ Fs) as [HW0 HB0].
  destruct (build_inputs_ok outputs pid sub vh kid sources (rnd_inputs rnd) no_totals 0 0 0 Hso no_totals_ok Hv)
    as (inps & t & Ein & Fi & T & KW & KB); try lia.
  rewrite !Z.add_0_l in T. pose proof (honest_nullifiers _ _ _ Fi Hnf) as Enf.
  pose proof (Forall2_length _ _ _ Fi) as Lin.
  assert (map vi_key_offsets inps = map vs_key_offsets sources) as Eof.
  { clear -Fi. induction Fi as [|s inp l k I _ IH]; [done|]. cbn [map]. by rewrite IH, (if_offsets _ _ _ _ _ _ I). }
  destruct (finish_vote_ok pk direction sources rnd inps t nfs Hpk Hd ltac:(lia) ltac:(lia) DW DS DB SRS Sor T)
    as (proof & Efin & Eh & Ei & Ew & Ec & Vt); try done.
  { intros E. apply Ap1. rewrite <- E. apply point_congr; [|done]. by rewrite (to_blinding _ _ _ _ T). }
  { intros E. apply Ap2. rewrite <- E. apply point_congr; [|done]. by rewrite (to_blinding _ _ _ _ T). }
  injection Eh as E1 E2 E3 E4. injection Ei as E5 E6 E7 E8. exists proof. split.
  { unfold build_dao_v2_vote. rewrite (proj2 (Z.ltb_ge 1 direction)), (proj2 (is_empty_false _) Hne), Lm by lia.
    cbn [Nat.eqb negb]. assert (forallb source_well_formed sources = true) as ->.
    { apply Is_true_eq_true, forallb_True. eapply Forall_impl; [exact Fs|]. intros s S. by rewrite (so_shape _ _ _ S). }
    cbn [negb]. rewrite Hmod. cbn [mbind option_bind]. rewrite Ein. cbn [mbind option_bind]. by rewrite EN. }
  split; [done|]. split; [done|]. split; [done|]. split; [done|].
  split; [intros; apply (honest_wire sources inps); congruence || done|]. split; [done|].
  intros proposals d block_nfs prop key_rec O. unfold verify.
  rewrite (verify_proposal_pass _ _ _ _ _ _ _ _ O E1 E2 E3 E4).
  2: { rewrite E5, E6, <- Enf. apply length_map. }
  2: { rewrite E5. destruct sources, inps; done. }
  cbn [check_bind]. destruct (fresh_pass _ _ _ _ _ _ _ O) as [F1 F2]. destruct O as [_ _ _ Esub _ (_ & Ekid & EmN) _].
  rewrite (verify_inputs_pass outputs pid sub vh kid sources inps proof prop Fs Fi Hv E2 E3 E4 Esub E5); rewrite ?E5, ?E6, ?E7, ?E8; try done.
  cbn [check_bind]. rewrite Vt by (rewrite ?EmN; done). cbn [check_bind]. rewrite E2, F1. cbn [check_bind]. done.
Qed.

End vote.

(** ** A vote in the model of the curve *)

Definition sample_scalar (v : Z) : bytes := le_bytes 32 v.

Lemma sample_scalar_ok v : 0 <= v < 2 ^ 252 -> scalar (sample_scalar v).
Proof.
  intros Hv. assert (2 ^ 252 < 256 ^ Z.of_nat 32 /\ 2 ^ 252 < ell) by (by vm_compute).
  unfold scalar, sample_scalar. rewrite length_le_bytes, le_val_le_bytes_id by lia.
  split; [done|]. split; [apply le_bytes_byte|lia].
Qed.

Definition sample_pid : hash := replicate 32 9.

(** Two outputs of the same age; the wallet has the first, of amount 10. *)
Definition sample_outputs (i : Z) : option output_data_t :=
  if i =? 5 then Some {| od_pubkey := point 3 0; od_height := 100; od_commitment := point 54 0 |} else
  if i =? 9 then Some {| od_pubkey := point 11 0; od_height := 200; od_commitment := point 77 0 |} else None.

Definition sample_source : dao_v2_vote_source :=
  {| vs_P := [point 3 0; point 11 0]; vs_C := [point 54 0; point 77 0]; vs_output_indices := [5; 9];
     vs_output_heights := [100; 200]; vs_key_offsets := [5; 4]; vs_real_index := 0;
     vs_real_spend_secret := sample_scalar 3; vs_real_mask := sample_scalar 4; vs_real_amount := 10 |}.

Definition sample_draws (r a : Z) : consistency_randomness :=
  {| cr_r := r; cr_a_m := 7; cr_a_r := a; cr_a_rho := sample_scalar 13 |}.

Definition sample_rnd : vote_randomness :=
  {| rnd_inputs := [{| ir_rho_W := sample_scalar 21; ir_rho_B := sample_scalar 22; ir_a_W := sample_scalar 23;
       ir_ss_W := [sample_scalar 24; sample_scalar 25]; ir_a_B := sample_scalar 26;
       ir_ss_B := [sample_scalar 27; sample_scalar 28] |}];
     rnd_R_S := sample_scalar 31; rnd_W := sample_draws 2 3; rnd_S := sample_draws 5 7; rnd_B := sample_draws 11 13;
     rnd_k := sample_scalar 32; rnd_c_unknown := sample_scalar 33; rnd_s_unknown := sample_scalar 34 |}.

Definition sample_nf : hash := default [] (source_nullifier sample_pid sample_source).

Lemma sample_point_ok x : is_point (point x 0).
Proof. by exists x, 0. Qed.

Lemma sample_source_ok : source_ok sample_outputs 82000 sample_source.
Proof.
  split; cbn [sample_source vs_P vs_C vs_output_indices vs_output_heights vs_key_offsets vs_real_index
    vs_real_spend_secret vs_real_mask vs_real_amount].
  - vm_compute. reflexivity.
  - cbn. lia.
  - vm_compute. reflexivity.
  - repeat constructor; lia.
  - apply NoDup_cons. split; [intros Hin%list_elem_of_singleton; lia|apply NoDup_singleton].
  - vm_compute. reflexivity.
  - repeat constructor; lia.
  - exists 6. apply Forall_cons. split; [vm_compute; reflexivity|].
    apply Forall_cons. split; [vm_compute; reflexivity|apply Forall_nil; exact I].
  - apply Forall_cons. split; [apply sample_point_ok|]. apply Forall_cons. split; [apply sample_point_ok|apply Forall_nil; exact I].
  - apply Forall_cons. split; [apply sample_point_ok|]. apply Forall_cons. split; [apply sample_point_ok|apply Forall_nil; exact I].
  - apply sample_scalar_ok. lia.
  - apply sample_scalar_ok. lia.
  - lia.
  - vm_compute. reflexivity.
  - vm_compute. reflexivity.
Qed.

Lemma sample_pair_ok v w : 0 <= v < 2 ^ 252 -> 0 <= w < 2 ^ 252 -> Forall scalar [sample_scalar v; sample_scalar w].
Proof. intros Hv Hw. apply Forall_cons. split; [by apply sample_scalar_ok|]. apply Forall_singleton. by apply sample_scalar_ok. Qed.

Lemma sample_draws_ok : Forall2 (fun s r => source_ok sample_outputs 82000 s /\ draws_ok sample_pid s r)
  [sample_source] (rnd_inputs sample_rnd).
Proof.
  apply Forall2_cons. split; [|apply Forall2_nil_2]. split; [apply sample_source_ok|].
  split; cbn [ir_rho_W ir_rho_B ir_a_W ir_ss_W ir_a_B ir_ss_B].
  - apply sample_scalar_ok. lia.
  - apply sample_scalar_ok. lia.
  - split; [apply sample_scalar_ok; lia|]. split; [reflexivity|]. apply sample_pair_ok; lia.
  - split; [apply sample_scalar_ok; lia|]. split; [reflexivity|]. apply sample_pair_ok; lia.
  - vm_compute. discriminate.
  - vm_compute. discriminate.
  - vm_compute. discriminate.
Qed.

Lemma sample_encryption_ok r a : 0 < r < 323 -> Z.gcd r 323 = 1 -> 0 <= a < 323 -> Z.gcd a 323 = 1 ->
  encryption_draws 323 (sample_draws r a).
Proof.
  intros. unfold encryption_draws. cbn [sample_draws cr_r cr_a_m cr_a_r cr_a_rho].
  assert (scalar (sample_scalar 13)) by (apply sample_scalar_ok; lia).
  split_and!; auto; lia.
Qed.

Lemma sample_honest :
  honest_vote sample_outputs sample_pid 82000 (rev (le_bytes 256 323)) pk323 0 [sample_source] sample_rnd [sample_nf].
Proof.
  split; cbn [sample_rnd rnd_W rnd_S rnd_B rnd_R_S rnd_k rnd_c_unknown rnd_s_unknown].
  - lia.
  - by left.
  - vm_compute. reflexivity.
  - apply rev_le_bytes_byte.
  - discriminate.
  - apply sample_draws_ok.
  - vm_compute. reflexivity.
  - apply Forall_singleton. vm_compute. reflexivity.
  - split; vm_compute; reflexivity.
  - split; vm_compute; reflexivity.
  - apply sample_encryption_ok; [lia|reflexivity|lia|reflexivity].
  - apply sample_encryption_ok; [lia|reflexivity|lia|reflexivity].
  - apply sample_encryption_ok; [lia|reflexivity|lia|reflexivity].
  - apply sample_scalar_ok. lia.
  - split_and!; apply sample_scalar_ok; lia.
  - cbn zeta. split; vm_compute; discriminate.
  - vm_compute. reflexivity.
  - apply NoDup_singleton.
  - apply Forall_singleton. vm_compute. reflexivity.
Qed.
