(* ===== verification/VoteSound.v ===== *)
(** * What an accepted vote guarantees

    From [VoteProofVerifier::verify] back to the facts it has established, and on
    to the tables: an accepted vote is applied, and no vote that repeats one of
    its nullifiers is accepted after it. *)

From stdpp Require Import base list gmap sorting.
From Stdlib Require Import ZArith Lia Zcong.
From Stdlib Require Import Zmod Zstar.
From S2P Require Import Prelude TxExtra Curve CurveModel GovStore Paillier Threshold VotingWeight VoteV2 VoteProof VoteProofComplete Tally TallyCorrect VoteAccepted.
Open Scope Z_scope.

(** ** Reading a passed check *)

Lemma check_bind_pass {A B} (m : check A) (k : A -> check B) b :
  check_bind m k = pass b <-> exists a, m = pass a /\ k a = pass b.
Proof. destruct m; cbn; split; try done; eauto; intros (? & ? & ?); congruence. Qed.

Lemma ensure_pass b n u : ensure b n = pass u <-> b = true.
Proof. destruct b, u; done. Qed.

Lemma found_pass {A} (o : option A) n a : found o n = pass a <-> o = Some a.
Proof. destruct o; cbn; split; congruence. Qed.

Lemma no_throw_pass {A} (o : option A) a : no_throw o = pass a <-> o = Some a.
Proof. destruct o; cbn; split; congruence. Qed.

Lemma holds_pass o n u : holds o n = pass u <-> o = Some true.
Proof. unfold holds. destruct o as [[]|], u; done. Qed.

Lemma check_all_inv {A} (f : A -> check unit) l u : check_all f l = pass u <-> Forall (fun x => f x = pass tt) l.
Proof.
  destruct u. split; [|apply check_all_pass]. induction l as [|x l IH]; [constructor|].
  cbn [check_all]. intros ([] & E1 & E2)%check_bind_pass. constructor; auto.
Qed.

Lemma check_map_inv {A B} (f : A -> check B) l k : check_map f l = pass k <-> Forall2 (fun x y => f x = pass y) l k.
Proof.
  split; [|apply check_map_pass]. revert k. induction l as [|x l IH]; intros k; cbn [check_map].
  - intros [= <-]. constructor.
  - intros (y & E1 & (ys & E2 & [= <-])%check_bind_pass)%check_bind_pass. constructor; auto.
Qed.

Lemma check_nullifiers_inv seen nfs u : check_nullifiers seen nfs = pass u ->
  NoDup nfs /\ Forall (fun nf => (nf ∉ seen) /\ forallb (Z.eqb 0) nf = false) nfs.
Proof.
  revert seen. induction nfs as [|nf nfs IH]; intros seen; cbn [check_nullifiers]; [split; constructor|].
  intros (? & E1%ensure_pass & (? & E2%ensure_pass & E)%check_bind_pass)%check_bind_pass.
  apply negb_true_iff in E1, E2. apply bool_decide_eq_false in E2. destruct (IH _ E) as [ND F]. split.
  - constructor; [|done]. intros Hin. rewrite Forall_forall in F. destruct (F nf Hin) as [Hn _]. set_solver.
  - constructor; [done|]. eapply Forall_impl; [exact F|]. cbn. set_solver.
Qed.

(** Opens every check of a hypothesis. *)
Ltac passed H :=
  repeat match type of H with
  | check_bind (ensure _ _) _ = pass _ =>
      let E := fresh "Chk" in apply check_bind_pass in H as (? & E & H); apply ensure_pass in E
  | check_bind (found _ _) _ = pass _ =>
      let E := fresh "Fnd" in apply check_bind_pass in H as (? & E & H); apply found_pass in E
  | check_bind (no_throw _) _ = pass _ =>
      let E := fresh "Val" in apply check_bind_pass in H as (? & E & H); apply no_throw_pass in E
  | check_bind (holds _ _) _ = pass _ =>
      let E := fresh "Prf" in apply check_bind_pass in H as (? & E & H); apply holds_pass in E
  | check_bind (check_all _ _) _ = pass _ =>
      let E := fresh "All" in apply check_bind_pass in H as (? & E & H); apply check_all_inv in E
  | check_bind (check_map _ _) _ = pass _ =>
      let E := fresh "Map" in apply check_bind_pass in H as (? & E & H); apply check_map_inv in E
  end.

(** Turns the checks into propositions. *)
Ltac facts := to_prop; repeat match goal with H : beq _ _ = true |- _ => apply beq_true in H end.

(** ** Rings *)

(** A ring as the rules want it: at least two distinct outputs of the chain, none
    newer than the vote and all of the same age factor. *)
Definition good_ring (outputs : Z -> option output_data_t) (height : Z) (offsets : list Z) : Prop :=
  exists indices ods f, expand_offsets 0 offsets = Some indices /\ (2 <= length indices)%nat /\ NoDup indices /\
    mapM outputs indices = Some ods /\
    Forall (fun od => od_height od <= height /\ age_factor (od_height od) height = f) ods.

Lemma length_expand acc offs l : expand_offsets acc offs = Some l -> length l = length offs.
Proof.
  revert acc l. induction offs as [|o offs IH]; intros acc l E; cbn [expand_offsets] in E; [by injection E as <-|].
  case_match; [done|]. apply bind_Some in E as (k & E & [= <-]). cbn. f_equal. by eapply IH.
Qed.

Lemma check_ring_inv inp l : check_ring inp = pass l ->
  expand_offsets 0 (vi_key_offsets inp) = Some l /\ (2 <= length l)%nat /\ NoDup l.
Proof.
  unfold check_ring. intros E. passed E. injection E as <-.
  split; [done|]. rewrite (length_expand _ _ _ Fnd). split.
  - apply negb_true_iff, Nat.ltb_ge in Chk0. done.
  - apply has_duplicate_false. by apply negb_true_iff.
Qed.

Section rings.
Context (outputs : Z -> option output_data_t) (vh : Z) (Hv : vh < 2 ^ 64).
Context (Hout : forall i od, outputs i = Some od -> 0 <= od_height od).

Lemma ring_member_inv idx od f : ring_member outputs vh idx = pass (od, f) ->
  outputs idx = Some od /\ od_height od <= vh /\ f = age_factor (od_height od) vh.
Proof.
  unfold ring_member. intros E. passed E. pose proof (Hout _ _ Fnd) as H0. apply negb_true_iff, Z.ltb_ge in Chk.
  injection E as <- <-. split_and!; try done. apply age_factor_code; lia.
Qed.

Lemma build_context_inv proof prop inp l ctx : v2_vote_height proof = vh ->
  build_context outputs proof prop inp l = pass ctx ->
  exists ods f, mapM outputs l = Some ods /\
    Forall (fun od => od_height od <= vh /\ age_factor (od_height od) vh = f) ods.
Proof.
  unfold build_context. intros Eh E. rewrite Eh in E. passed E. clear E.
  exists (map fst x), x0. clear Val. split.
  - apply mapM_Some. apply Forall2_fmap_r. eapply Forall2_impl; [exact Map|]. intros i [od f] Hm.
    by destruct (ring_member_inv i od f Hm) as (? & _).
  - apply Forall_map. apply Is_true_eq_left, forallb_True in Chk. apply Forall_lookup_2. intros i [od f] Hi.
    pose proof (Forall_lookup_1 _ _ _ _ Chk Hi) as Ef. cbn in Ef. apply Is_true_eq_true, Z.eqb_eq in Ef. subst f.
    destruct (Forall2_lookup_r _ _ _ _ _ Map Hi) as (idx & _ & Hm).
    destruct (ring_member_inv idx od x0 Hm) as (_ & ? & ->). done.
Qed.

End rings.

(** ** The whole vote *)

(** What the rules of voting ask of a vote in a block at [height]. *)
Record accepted `{RctOps} (outputs : Z -> option output_data_t) (proposals : gmap hash proposal_record) (d : dao_db)
    (proof : vote_proof_v2) (height : Z) (block_nfs : list hash) (prop : proposal_record)
    (key_rec : dao_tally_key_record) : Prop := {
  ac_proposal : proposals !! v2_proposal_id proof = Some prop;
  ac_open : status prop = PROPOSAL_STATUS_ACTIVE /\ submission_height prop <= height <= voting_end_height prop;
  ac_height : v2_vote_height proof = height;
  ac_key : v2_tally_key_id proof = tally_key_id prop /\ length (v2_tally_key_id proof) = 32%nat /\
           tally_keys d !! v2_tally_key_id proof = Some key_rec /\ tk_key_id key_rec = v2_tally_key_id proof;
  ac_rings : v2_inputs proof <> [] /\ Forall (fun inp => good_ring outputs height (vi_key_offsets inp)) (v2_inputs proof);
  ac_nullifiers : v2_nullifiers proof = map input_nullifier (v2_inputs proof);
  ac_once : NoDup (v2_nullifiers proof) /\
            Forall (fun nf => has_vote_nullifier d (v2_proposal_id proof) nf = false /\ (nf ∉ block_nfs)) (v2_nullifiers proof);
  ac_sums : sum_keys rct_identity (map vi_weight_commitment (v2_inputs proof)) = Some (C_W proof) /\
            sum_keys rct_identity (map vi_balance_commitment (v2_inputs proof)) = Some (C_B proof);
  ac_points : isInMainSubgroup (C_W proof) = true /\ isInMainSubgroup (C_S proof) = true /\
              isInMainSubgroup (C_B proof) = true;
  ac_ciphertexts : let N := BN_bin2bn (tk_N key_rec) in
    Forall (fun E => length E = PAILLIER_CT_BYTES /\ 0 < BN_bin2bn E < N * N /\ Z.coprime (BN_bin2bn E) N)
      [E_W proof; E_S proof; E_B proof];
}.

Section sound.
Context `{RctOps}.

Lemma verify_proposal_inv proposals d proof h prop key_rec :
  verify_proposal proposals d proof h = pass (prop, key_rec) ->
  length (v2_nullifiers proof) = length (v2_inputs proof) /\
  proposals !! v2_proposal_id proof = Some prop /\
  (status prop = PROPOSAL_STATUS_ACTIVE /\ submission_height prop <= h <= voting_end_height prop) /\
  v2_vote_height proof = h /\
  (v2_tally_key_id proof = tally_key_id prop /\ length (v2_tally_key_id proof) = 32%nat /\
   tally_keys d !! v2_tally_key_id proof = Some key_rec /\ tk_key_id key_rec = v2_tally_key_id proof) /\
  v2_inputs proof <> [].
Proof.
  unfold verify_proposal. intros E. passed E. injection E as <- <-. facts.
  unfold get_dao_tally_key_by_id in Fnd0. case_match; [done|]. facts.
  apply is_empty_false in Chk8. split_and!; try done; lia.
Qed.

Lemma verify_inputs_inv outputs proof prop ctxs : v2_vote_height proof < 2 ^ 64 ->
  (forall i od, outputs i = Some od -> 0 <= od_height od) ->
  length (v2_nullifiers proof) = length (v2_inputs proof) -> verify_inputs outputs proof prop = pass ctxs ->
  Forall (fun inp => good_ring outputs (v2_vote_height proof) (vi_key_offsets inp)) (v2_inputs proof) /\
  v2_nullifiers proof = map input_nullifier (v2_inputs proof) /\ NoDup (v2_nullifiers proof) /\
  sum_keys rct_identity (map vi_weight_commitment (v2_inputs proof)) = Some (C_W proof) /\
  sum_keys rct_identity (map vi_balance_commitment (v2_inputs proof)) = Some (C_B proof).
Proof.
  intros Hv Hout L E. unfold verify_inputs in E. passed E.
  apply check_bind_pass in E as (? & En & E). apply check_nullifiers_inv in En as [ND _]. passed E. clear E. facts. subst.
  split_and!; try done.
  - apply Forall_lookup_2. intros i inp Hi. destruct (Forall2_lookup_l _ _ _ _ _ Map Hi) as (l & Hl & Er).
    apply check_ring_inv in Er as (E1 & E2 & E3).
    assert (zip (v2_inputs proof) x !! i = Some (inp, l)) as Hz by by rewrite lookup_zip_with, Hi, Hl.
    destruct (Forall2_lookup_l _ _ _ _ _ Map0 Hz) as (ctx & _ & Ec).
    destruct (build_context_inv outputs _ Hv Hout _ _ _ _ _ eq_refl Ec) as (ods & f & E4 & F). by exists l, ods, f.
  - clear -L All2. revert L All2. generalize (v2_nullifiers proof).
    induction (v2_inputs proof) as [|inp l IH]; intros [|nf nfs] L A; try done. cbn [zip_with map] in *.
    apply Forall_cons in A as [E A]. injection L as L. passed E. apply ensure_pass in E. facts. by rewrite (IH nfs L A), E.
Qed.

Lemma valid_ct_inv N E : Forall is_byte E -> valid_ct N E = true -> 0 < BN_bin2bn E < N * N /\ Z.coprime (BN_bin2bn E) N.
Proof.
  intros B V. unfold valid_ct in V. apply andb_true_iff in V as [[V1 V2]%andb_true_iff V3]. facts.
  pose proof (bin2bn_nonneg E B). split; [lia|]. by apply coprime_square.
Qed.

Lemma verify_inv outputs proposals d proof h block_nfs u : h < 2 ^ 64 ->
  (forall i od, outputs i = Some od -> 0 <= od_height od) ->
  Forall is_byte (E_W proof) -> Forall is_byte (E_S proof) -> Forall is_byte (E_B proof) ->
  verify outputs proposals d proof h block_nfs = pass u ->
  exists prop key_rec, accepted outputs proposals d proof h block_nfs prop key_rec.
Proof.
  intros Hh Hout B1 B2 B3 E. unfold verify in E. apply check_bind_pass in E as ([prop key_rec] & Ep & E).
  apply verify_proposal_inv in Ep as (L & E1 & E2 & E3 & E4 & E5).
  apply check_bind_pass in E as (ctxs & Ei & E). apply verify_inputs_inv in Ei as (R & En & ND & W & B); [|lia|done|done].
  apply check_bind_pass in E as (? & Et & E). passed E. apply check_all_inv in E.
  unfold verify_totals in Et. passed Et. facts. exists prop, key_rec. rewrite E3 in R.
  split; try done.
  - split; [done|]. apply Forall_and. split.
    + eapply Forall_impl; [exact All|]. intros nf Hn%ensure_pass. by facts.
    + eapply Forall_impl; [exact E|]. intros nf Hn%ensure_pass. facts. done.
  - cbn zeta. repeat constructor; try done; by eapply valid_ct_inv.
Qed.

End sound.

(** ** Into the tables *)

Lemma inserted_nullifiers (pid : hash) (nfs : list hash) (t : gmap bytes unit) (nf : hash) :
  nf ∈ nfs \/ is_Some (t !! (pid ++ nf)) -> is_Some (fold_left (fun t nf => <[pid ++ nf := tt]> t) nfs t !! (pid ++ nf)).
Proof.
  revert t. induction nfs as [|x nfs IH]; intros t Hn; [by destruct Hn as [Hn|Hn]; [apply elem_of_nil in Hn|]|].
  cbn [fold_left]. apply IH. destruct Hn as [[->|Hn]%elem_of_cons|Hn].
  - right. rewrite lookup_insert_eq. by eexists.
  - by left.
  - right. apply lookup_insert_is_Some'. by right.
Qed.

(** A vote that shares a nullifier with one on record is refused. *)
Lemma verify_fresh `{RctOps} outputs proposals d proof h block_nfs u :
  verify outputs proposals d proof h block_nfs = pass u ->
  Forall (fun nf => has_vote_nullifier d (v2_proposal_id proof) nf = false) (v2_nullifiers proof).
Proof.
  unfold verify. intros E. apply check_bind_pass in E as ([prop key_rec] & _ & E).
  apply check_bind_pass in E as (? & _ & E). apply check_bind_pass in E as (? & _ & E). passed E.
  eapply Forall_impl; [exact All|]. intros nf Hn%ensure_pass. by apply negb_true_iff.
Qed.

Section tables.
Context `{CurveLaws} `{!RctOps}.

Lemma accepted_applied outputs proposals d proof h block_nfs prop key_rec pk tx_hash :
  accepted outputs proposals d proof h block_nfs prop key_rec ->
  Forall is_byte (tk_N key_rec) -> deserialize_modulus (tk_N key_rec) = Some pk ->
  Forall is_byte (E_W proof) -> Forall is_byte (E_S proof) -> Forall is_byte (E_B proof) ->
  (forall a, aggregates d !! v2_proposal_id proof = Some a -> agg_wf pk a) ->
  exists d' a, apply_dao_vote proof tx_hash d = applied d' /\
    aggregates d' !! v2_proposal_id proof = Some a /\ agg_wf pk a /\ tally_keys d' = tally_keys d /\
    Forall (fun nf => has_vote_nullifier d' (v2_proposal_id proof) nf = true) (v2_nullifiers proof).
Proof.
  intros A Hby Hmod B1 B2 B3 Hagg. destruct (modulus_value _ _ Hby Hmod) as (Hpk & _ & EN).
  pose proof Hpk as [_ E2]. destruct (ac_key _ _ _ _ _ _ _ _ A) as (_ & Lk & Hk & _).
  destruct (ac_points _ _ _ _ _ _ _ _ A) as (P1 & P2 & P3).
  pose proof (ac_ciphertexts _ _ _ _ _ _ _ _ A) as F. cbn zeta in F. rewrite EN in F.
  assert (forall E, Forall is_byte E -> length E = PAILLIER_CT_BYTES /\ 0 < BN_bin2bn E < pk_N pk * pk_N pk /\
    Z.coprime (BN_bin2bn E) (pk_N pk) -> is_ct pk E) as Ct.
  { intros E B (L & R & C). split; [|done]. apply is_valid_ciphertext_true; [done|]. rewrite coprime_N2, E2 by done.
    split_and!; try done; lia. }
  apply Forall_cons in F as [F1 F]. apply Forall_cons in F as [F2 F]. apply Forall_cons in F as [F3 _].
  assert (vote_wf pk (v2_proposal_id proof) (v2_tally_key_id proof) proof) as Wf by (split_and!; auto).
  assert (agg_wf pk (row_val pk (v2_proposal_id proof) d)) as Wr.
  { unfold row_val. destruct (aggregates d !! _) as [a|] eqn:Ea; cbn; [by apply Hagg|]. by apply agg_neutral_wf. }
  rewrite (apply_plus pk Hpk (v2_proposal_id proof) (v2_tally_key_id proof) key_rec Lk Hmod proof tx_hash d Wf Wr Hk).
  do 2 eexists. split; [done|]. unfold after_apply. cbn [aggregates tally_keys].
  rewrite lookup_insert_eq. split; [done|]. split; [by eapply agg_plus_wf|]. split; [done|].
  apply Forall_forall. intros nf Hin. unfold has_vote_nullifier. cbn [vote_nullifiers]. apply bool_decide_eq_true.
  apply inserted_nullifiers. by left.
Qed.

End tables.

Lemma casts_bytes `{CurveOps} pk b proof : pk_ok pk -> casts pk b proof ->
  Forall is_byte (E_W proof) /\ Forall is_byte (E_S proof) /\ Forall is_byte (E_B proof).
Proof.
  intros Hpk Ec. destruct (casts_enc pk Hpk b proof Ec) as (E1 & E2 & E3).
  split_and!; [apply (enc_of_ct pk Hpk _ _ E1)|apply (enc_of_ct pk Hpk _ _ E2)|apply (enc_of_ct pk Hpk _ _ E3)].
Qed.

(** ** Claims *)

(** C7: A V2 vote that the verifier lets pass in a block at [h] obeys the rules of
    voting: the proposal exists, is active and in its voting period, the vote is
    for this block and under the key of the proposal, every input is a ring of at
    least two distinct outputs of the chain, none newer than the block and all of
    one age factor, the nullifiers are the key images of the inputs, are distinct
    and on record neither in the tables nor in the block, the total commitments
    are the sums of the inputs' and lie in the main subgroup, and the three
    ciphertexts are units modulo the square of the modulus. *)
Theorem accepted_vote_sound `{RctOps} outputs proposals d proof h block_nfs u : h < 2 ^ 64 ->
  (forall i od, outputs i = Some od -> 0 <= od_height od) ->
  Forall is_byte (E_W proof) -> Forall is_byte (E_S proof) -> Forall is_byte (E_B proof) ->
  verify outputs proposals d proof h block_nfs = pass u ->
  exists prop key_rec, accepted outputs proposals d proof h block_nfs prop key_rec.
Proof. apply verify_inv. Qed.

(** The proposal of the sample vote, under the sample key. *)
Definition sample_proposal : proposal_record :=
  {| proposal_id := sample_pid; ptype := 1; title := []; description := []; recipient := []; amount := 0;
     voting_period_days := 7; submission_height := 81990; voting_end_height := 90000; tally_key_id := kid323;
     submission_tx_hash := replicate 32 3; executed := false; status := PROPOSAL_STATUS_ACTIVE; status_height := 81990;
     recipient_view_public_key := []; is_subaddress := false |}.

Lemma sample_open : open_for sample_pid 81990 82000 kid323 (rev (le_bytes 256 323)) [sample_nf]
  {[ sample_pid := sample_proposal ]} db323 [] sample_proposal key_rec323.
Proof.
  split; [apply lookup_singleton_eq|done|cbn; lia|done|done| |].
  - split; [apply lookup_singleton_eq|done].
  - apply Forall_singleton. split; [done|apply not_elem_of_nil].
Qed.

Lemma sample_heights i od : sample_outputs i = Some od -> 0 <= od_height od.
Proof. unfold sample_outputs. repeat case_match; intros [= <-]; done. Qed.

Lemma accepted_vote_sound_witness :
  exists proof prop key_rec, v2_nullifiers proof = [sample_nf] /\
    accepted sample_outputs {[ sample_pid := sample_proposal ]} db323 proof 82000 [] prop key_rec.
Proof.
  destruct (honest_vote_accepted sample_outputs sample_pid 81990 82000 kid323 _ _ _ _ _ _ sample_honest)
    as (proof & _ & _ & _ & _ & En & _ & Ec & V).
  destruct (modulus_value _ _ (hv_bytes _ _ _ _ _ _ _ _ _ sample_honest) (hv_modulus _ _ _ _ _ _ _ _ _ sample_honest)) as (Hpk & _).
  destruct (casts_bytes pk323 _ _ Hpk Ec) as (B1 & B2 & B3).
  destruct (accepted_vote_sound sample_outputs _ db323 proof 82000 [] tt ltac:(lia) sample_heights B1 B2 B3
    (V _ _ _ _ _ sample_open)) as (prop & key_rec & A).
  by exists proof, prop, key_rec.
Defined.
