(* ===== verification/VoteForgery.v ===== *)
(** * What the proofs of a vote do not ensure

    Two gaps of the vote proofs: a consistency proof bounds neither the plaintext
    nor the response, so ciphertext and commitment can hold different values; and
    a key image is not checked to lie in the main subgroup, so one output has
    several nullifiers. *)

From stdpp Require Import base list gmap.
From Stdlib Require Import ZArith Lia Zcong.
From Stdlib Require Import Zmod Zstar.
From S2P Require Import Prelude TxExtra Curve CurveModel Paillier VoteV2 VoteProof VoteProofComplete VoteAccepted.
Open Scope Z_scope.

(** An integer with given residues modulo the curve's order and the modulus. *)
Definition both_residues (w w' N : Z) : Z := w + ell * ((w' - w) * Z.invmod ell N).

Lemma both_residues_ok w w' N : 1 < N -> Z.coprime ell N ->
  both_residues w w' N ≡[ell] w /\ both_residues w w' N ≡[N] w'.
Proof.
  intros HN Hc. unfold both_residues. split.
  - constructor. rewrite Z.mul_comm. apply Z_mod_plus_full.
  - assert (Z.invmod ell N * ell ≡[N] 1) as I by (constructor; by rewrite Z.invmod_coprime').
    transitivity (w + (w' - w) * (Z.invmod ell N * ell)); [congr_ring|]. rewrite I. congr_ring.
Qed.

Section forgery.
Context `{RctLaws}.

(** For every committed value [w] and every value [w'] there is a proof, accepted
    by the verifier, that an encryption of [w'] is consistent with a commitment to
    [w]. *)
Lemma forged_consistency ctx pk w w' rho r : pk_ok pk -> Z.coprime ell (pk_N pk) -> 0 <= w' < pk_N pk ->
  encryption_draws (pk_N pk) r -> scalar rho ->
  exists E pf, encrypt pk w' (cr_r r) = Some E /\
    dao_consistency_verify ctx (pk_N pk) E (point (w * log_H + le_val rho) 0) pf = Some true.
Proof.
  intros Hpk Hc Hw Hr Srho. pose proof Hpk as [[Hn _] _].
  destruct (both_residues_ok w w' (pk_N pk) Hn Hc) as [E1 E2]. set (m := both_residues w w' (pk_N pk)) in *.
  destruct (encrypted_and_proved pk m rho r (fun _ _ => ctx) [] Hpk Hr Srho []) as (pf & _ & _ & V).
  exists (ct_bytes pk (enc pk w' (cr_r r))), pf. split; [by apply encrypt_drawn|].
  assert (enc pk w' (cr_r r) = enc pk m (cr_r r)) as ->.
  { destruct E2 as [E2]. by rewrite <- (enc_mod pk Hpk w'), <- E2, enc_mod. }
  assert (point (w * log_H + le_val rho) 0 = point (m * log_H + le_val rho) 0) as ->; [|done].
  apply point_congr; [|done]. by rewrite E1.
Qed.

(** The same ring and key signed with the key image moved by a point of small
    order: the signature passes whenever the challenge at the real member cancels
    that point, which half of the nonces achieve for a point of order two. *)
Lemma shifted_image ctx real x rho a ss t w :
  ring_ok ctx real x rho -> nonces_ok ctx a ss ->
  dao_hash_to_point (point (le_val x) 0) (cc_proposal_id ctx) = point w 0 ->
  point (le_val x * w) t <> rct_identity -> point (- le_val rho * w) 0 <> rct_identity ->
  exists Q D sig c, compute_weighted_commitments ctx = Some Q /\ cl_I sig = point (le_val x * w) t /\
    let e := clsag_setup ctx Q (point (le_val x * w) t) D (point (le_val (sc_sub (replicate 32 0) rho) * w) 0) in
    (le_val (sc_mul (ce_mu_P e) c) * t ≡[8] 0 -> dao_clsag_verify ctx sig = Some true).
Proof.
  intros R Hn Hw HI HD. destruct (ring_points ctx real x rho R) as (Q & C' & EQ & EC & FC & LC & Ereal).
  destruct zero_scalar as [S0 V0]. set (z := sc_sub (replicate 32 0) rho).
  destruct (sc_sub_val _ _ S0 (rg_rho _ _ _ _ R)) as [Sz Vz]. fold z in Sz, Vz. rewrite V0 in Vz.
  assert (forall v, point (le_val z * v) 0 = point (- le_val rho * v) 0) as Ez
    by (intros v; apply point_congr; [rewrite Vz|]; congr_ring).
  destruct (sign_verifies ctx real x rho z a ss Q C' w t (point (le_val INV_EIGHT * (le_val z * w)) 0))
    as (sig & c & _ & EI & _ & _ & _ & V); try done.
  - rewrite Ereal. f_equal. specialize (Ez 1). by rewrite !Z.mul_1_r in Ez.
  - rewrite scalarmult8_point. f_equal. apply point_congr; [|done].
    transitivity ((8 * le_val INV_EIGHT) mod ell * (le_val z * w)); [congr_ring|]. rewrite INV_EIGHT_inverse. congr_ring.
  - apply length_point.
  - by rewrite Ez.
  - by exists Q, (point (le_val INV_EIGHT * (le_val z * w)) 0), sig, c.
Qed.

End forgery.

(** ** One output, two nullifiers *)

Definition sample_key (v : Z) : bytes := le_bytes 32 v.

Definition double_ctx : dao_clsag_context :=
  {| cc_proposal_id := replicate 32 1; cc_submission_height := 10; cc_vote_height := 20; cc_tally_key_id := replicate 32 2;
     cc_P := [point 3 0; point 11 0]; cc_C := [point 100 0; point 200 0]; cc_output_indices := [5; 9];
     cc_output_heights := [1; 2]; cc_age_factors := [1; 1]; cc_V := point 107 0 |}.

(** The signer's computation with the image moved by [t]. *)
Definition signed_with_shift (t : Z) : option clsag :=
  let ctx := double_ctx in
  Q ← compute_weighted_commitments ctx;
  C_prime ← mapM (fun q => subKeys q (cc_V ctx)) Q;
  let z := sc_sub (replicate 32 0) (sample_key 7) in
  let H_l := dao_hash_to_point (point 3 0) (cc_proposal_id ctx) in
  N ← scalarmultKey H_l (sample_key 3);
  I ← addKeys N (point 0 t);
  D_full ← scalarmultKey H_l z;
  D ← scalarmultKey D_full INV_EIGHT;
  aH ← scalarmultKey H_l (sample_key 1);
  clsag_sign ctx 0 (sample_key 3) z (sample_key 1) [sample_key 1; sample_key 42] Q C_prime I D D_full
    (scalarmultBase (sample_key 1)) aH.

(** In the model of the curve, one key signs one ring for one proposal with two
    different nullifiers, and both signatures pass; the first is the one that
    [dao_clsag_generate] makes. *)
Lemma one_output_two_nullifiers : exists sig sig',
  dao_clsag_generate double_ctx 0 (sample_key 3) (sample_key 7) (sample_key 1) [sample_key 1; sample_key 42] = Some sig /\
  signed_with_shift 4 = Some sig' /\ cl_I sig <> cl_I sig' /\
  dao_clsag_verify double_ctx sig = Some true /\ dao_clsag_verify double_ctx sig' = Some true.
Proof.
  exists (default {| cl_s := []; cl_c1 := []; cl_I := []; cl_D := [] |} (signed_with_shift 0)),
    (default {| cl_s := []; cl_c1 := []; cl_I := []; cl_D := [] |} (signed_with_shift 4)).
  split_and!; try (vm_compute; reflexivity). vm_compute. discriminate.
Qed.
