(* ===== verification/TallyResult.v ===== *)
(** * Tally results on the chain

    Theorems about the transaction that publishes a tally: a verified certificate
    is accepted and decides the proposal, popping its block takes the decision
    back, and two places where the code trusts the bytes of the transaction more
    than it means to. *)

From S2P Require Import Prelude TxExtra Curve CurveModel GovStore ParamExecution Paillier Threshold DkgProofs Emission VoteV2 Tally TallyMembers TallyCorrect.

Section results.
Context `{Digests} (quorum_percent : Z).

(** Verification recomputes the evaluation and never looks at the claimed one. *)
Lemma evaluate_totals_claim pk snap cert mW mS mB yes no e :
  evaluate_totals pk snap quorum_percent (with_evaluation cert yes no e) mW mS mB =
  evaluate_totals pk snap quorum_percent cert mW mS mB.
Proof. done. Qed.

Lemma verify_claim key_rec snap w x b cert yes no e :
  dao_verify_tally_certificate key_rec snap quorum_percent w x b (with_evaluation cert yes no e) =
  dao_verify_tally_certificate key_rec snap quorum_percent w x b cert.
Proof. done. Qed.

Lemma verify_result key_rec snap w x b cert cert' :
  dao_verify_tally_certificate key_rec snap quorum_percent w x b cert = Some cert' ->
  exists yes no e, cert' = with_evaluation cert yes no e.
Proof.
  unfold dao_verify_tally_certificate. repeat (case_match; [done|]).
  destruct (deserialize_modulus _); [|done]. cbn [mbind option_bind].
  destruct (effective_committee _ _ _) as [[t vk]|]; [|done]. cbn [mbind option_bind].
  repeat (case_match; [done|]).
  destruct (recover _ _ _ (cert_W cert)); [|done]. cbn [mbind option_bind].
  destruct (recover _ _ _ (cert_S cert)); [|done]. cbn [mbind option_bind].
  destruct (recover _ _ _ (cert_B cert)); [|done]. cbn [mbind option_bind].
  unfold evaluate_totals. destruct (decode_signed _ _). repeat (case_match; [done|]).
  destruct (dao_evaluate_v2_tally _ _ _ _ _) as [e|]; [|done]. cbn [mbind option_bind].
  intros [= <-]. eauto.
Qed.

(** The conditions under which a block may carry the result of a proposal. *)
Record result_due (s : tally_state) (key_rec : dao_tally_key_record) (snap : dao_supply_snapshot)
    (agg : dao_proposal_aggregate) (prop : proposal_record) (pid : hash) (block_height : Z) : Prop := {
  rd_prop : proposals (t_policy s) !! pid = Some prop;
  rd_active : status prop = PROPOSAL_STATUS_ACTIVE;
  rd_height : voting_end_height prop < block_height;
  rd_key : length (tk_key_id key_rec) = 32%nat /\
           tally_keys (t_votes s) !! tk_key_id key_rec = Some key_rec;
  rd_agg : aggregates (t_votes s) !! pid = Some agg;
  rd_votes : aggregate_E_W agg <> [] /\ aggregate_E_S agg <> [] /\ aggregate_E_B agg <> [];
  rd_snap : t_supply s !! voting_end_height prop = Some snap;
  rd_fresh : v2_outcomes s !! pid = None /\
             (u64 (voting_end_height prop + 720), pid) ∉ pending_executions s;
}.

Lemma validate_verified s key_rec snap agg prop pid h cert cert' :
  result_due s key_rec snap agg prop pid h ->
  cert_proposal_id cert = pid -> vote_end_height cert = voting_end_height prop ->
  cert_key_id cert = tk_key_id key_rec ->
  dao_verify_tally_certificate key_rec snap quorum_percent
    (aggregate_E_W agg) (aggregate_E_S agg) (aggregate_E_B agg) cert = Some cert' ->
  validate_dao_v2_tally_result quorum_percent cert h s = true.
Proof.
  intros [R1 R2 R3 [R4 R4'] R5 (R6 & R6' & R6'') R7 _] E1 E2 E3 Hv.
  unfold validate_dao_v2_tally_result, get_dao_tally_key_by_id.
  rewrite E1, R1, R2, E2, !Z.eqb_refl, E3, R4, R4', R5. rewrite !Nat.eqb_refl. cbn [negb].
  rewrite (proj2 (Z.leb_gt _ _)) by lia.
  rewrite (proj2 (is_empty_false _) R6), (proj2 (is_empty_false _) R6'),
    (proj2 (is_empty_false _) R6''). cbn [orb]. rewrite R7, Hv. by apply bool_decide_eq_true_2.
Qed.

Definition decided_status (cert : dao_tally_certificate) : Z :=
  if passed cert then PROPOSAL_STATUS_PASSED else PROPOSAL_STATUS_REJECTED.

(** Applying follows the result claimed in the transaction. *)
Lemma apply_follows_claim s key_rec snap agg prop pid h cert :
  result_due s key_rec snap agg prop pid h -> cert_proposal_id cert = pid ->
  exists s', apply_dao_v2_tally_result cert h s = tally_applied s' /\
    t_votes s' = t_votes s /\ t_supply s' = t_supply s /\
    t_policy s' = add_proposal_record (t_policy s) pid
                    (with_status prop (decided_status cert) (executed prop) h) /\
    is_Some (v2_outcomes s' !! pid) /\ delete pid (v2_outcomes s') = v2_outcomes s /\
    pending_executions s' =
      (if passed cert then {[ (u64 (voting_end_height prop + 720), pid) ]} ∪ pending_executions s
       else pending_executions s).
Proof.
  intros [R1 _ _ _ _ _ _ [R8 R9]] E1. unfold apply_dao_v2_tally_result, decided_status.
  rewrite E1, R8. cbn [t_policy]. rewrite R1. cbn [pending_executions].
  destruct (passed cert).
  - rewrite decide_False by done. eexists. split; [done|]. cbn. rewrite lookup_insert_eq.
    rewrite delete_insert_id by done. eauto 10.
  - eexists. split; [done|]. cbn. rewrite lookup_insert_eq.
    rewrite delete_insert_id by done. eauto 10.
Qed.

Lemma rollback_undoes_result s s' key_rec snap agg prop pid h cert :
  result_due s key_rec snap agg prop pid h -> cert_proposal_id cert = pid ->
  apply_dao_v2_tally_result cert h s = tally_applied s' ->
  rollback_dao_v2_tally_result cert s' =
  {| t_votes := t_votes s;
     t_policy := add_proposal_record (t_policy s) pid
       (with_status prop PROPOSAL_STATUS_ACTIVE (executed prop) (vote_end_height cert));
     t_supply := t_supply s; v2_outcomes := v2_outcomes s;
     pending_executions := pending_executions s |}.
Proof.
  intros Hdue E1 Happ.
  destruct (apply_follows_claim s key_rec snap agg prop pid h cert Hdue E1)
    as (s2 & H1 & H2 & H3 & H4 & _ & H6 & H7).
  rewrite Happ in H1. injection H1 as <-. destruct Hdue as [_ _ _ _ _ _ _ [_ Hfresh]].
  unfold rollback_dao_v2_tally_result. rewrite E1, H4. cbn [proposals add_proposal_record set_proposals].
  rewrite lookup_insert_eq, H2, H3, H6, H7. f_equal.
  - unfold add_proposal_record, set_proposals. cbn. by rewrite insert_insert_eq.
  - cbn [voting_end_height with_status]. destruct (passed cert); set_solver.
Qed.

End results.

(** C15: A verified certificate decides its proposal: the transaction carrying it
    passes the block's validation, applying it gives the proposal the status its
    result asks for and queues the execution exactly when it passed, and popping
    the block removes the outcome and the queued execution and reopens the
    proposal. *)
Theorem tally_result_takes_effect `{Digests} q s key_rec snap agg prop pid h cert cert' :
  result_due s key_rec snap agg prop pid h ->
  cert_proposal_id cert = pid -> vote_end_height cert = voting_end_height prop ->
  cert_key_id cert = tk_key_id key_rec ->
  dao_verify_tally_certificate key_rec snap q
    (aggregate_E_W agg) (aggregate_E_S agg) (aggregate_E_B agg) cert = Some cert' ->
  validate_dao_v2_tally_result q cert' h s = true /\
  exists s', apply_dao_v2_tally_result cert' h s = tally_applied s' /\
    proposals (t_policy s') !! pid =
      Some (with_status prop (if passed cert' then PROPOSAL_STATUS_PASSED else PROPOSAL_STATUS_REJECTED)
              (executed prop) h) /\
    ((u64 (voting_end_height prop + 720), pid) ∈ pending_executions s' <-> passed cert' = true) /\
    v2_outcomes (rollback_dao_v2_tally_result cert' s') = v2_outcomes s /\
    pending_executions (rollback_dao_v2_tally_result cert' s') = pending_executions s /\
    proposals (t_policy (rollback_dao_v2_tally_result cert' s')) !! pid =
      Some (with_status prop PROPOSAL_STATUS_ACTIVE (executed prop) (voting_end_height prop)).
Proof.
  intros Hdue E1 E2 E3 Hv. pose proof Hv as Hv'.
  apply verify_result in Hv' as (yes & no & e & ->). split.
  { by eapply validate_verified. }
  destruct (apply_follows_claim s key_rec snap agg prop pid h (with_evaluation cert yes no e) Hdue E1)
    as (s' & H1 & H2 & H3 & H4 & _ & H6 & H7).
  pose proof (rollback_undoes_result s s' key_rec snap agg prop pid h
    (with_evaluation cert yes no e) Hdue E1 H1) as Hr.
  exists s'. split; [done|]. rewrite H4, H7, Hr. cbn [t_policy v2_outcomes pending_executions].
  destruct Hdue as [_ _ _ _ _ _ _ [_ Hfresh]].
  split; [apply lookup_insert_eq|]. split.
  { destruct (passed _); set_solver. }
  split; [done|]. split; [done|]. cbn [vote_end_height with_evaluation]. rewrite E2.
  apply lookup_insert_eq.
Qed.

(** The block's validation recomputes the result of a certificate in its own
    copy, while applying reads the transaction again: whoever writes the
    transaction of a valid certificate chooses the result. *)
Lemma forged_result_applied `{Digests} q s key_rec snap agg prop pid h cert cert' claim :
  result_due s key_rec snap agg prop pid h ->
  cert_proposal_id cert = pid -> vote_end_height cert = voting_end_height prop ->
  cert_key_id cert = tk_key_id key_rec ->
  dao_verify_tally_certificate key_rec snap q
    (aggregate_E_W agg) (aggregate_E_S agg) (aggregate_E_B agg) cert = Some cert' ->
  exists forged s',
    forged = with_evaluation cert' 0 0 {| ev_quorum_threshold := 0; ev_quorum_met := claim;
                                          ev_majority_met := claim; ev_passed := claim |} /\
    validate_dao_v2_tally_result q forged h s = true /\
    apply_dao_v2_tally_result forged h s = tally_applied s' /\
    proposals (t_policy s') !! pid =
      Some (with_status prop (if claim then PROPOSAL_STATUS_PASSED else PROPOSAL_STATUS_REJECTED)
              (executed prop) h).
Proof.
  intros Hdue E1 E2 E3 Hv. pose proof Hv as Hv'.
  apply verify_result in Hv' as (yes & no & e & ->).
  set (ev := {| ev_quorum_threshold := 0; ev_quorum_met := claim;
                ev_majority_met := claim; ev_passed := claim |}).
  set (forged := with_evaluation (with_evaluation cert yes no e) 0 0 ev).
  destruct (apply_follows_claim s key_rec snap agg prop pid h forged Hdue E1)
    as (s' & H1 & _ & _ & H4 & _).
  exists forged, s'. split; [done|]. split.
  { by eapply validate_verified. }
  split; [done|]. rewrite H4. apply lookup_insert_eq.
Qed.

(** Popping the block leaves the end of voting as the height of the last status
    change, where the proposal had the height of its submission. *)
Lemma rollback_changes_status_height `{Digests} q s key_rec snap agg prop pid h cert s' :
  result_due s key_rec snap agg prop pid h -> cert_proposal_id cert = pid ->
  vote_end_height cert = voting_end_height prop -> status_height prop = submission_height prop ->
  submission_height prop < voting_end_height prop ->
  validate_dao_v2_tally_result q cert h s = true ->
  apply_dao_v2_tally_result cert h s = tally_applied s' ->
  proposals (t_policy (rollback_dao_v2_tally_result cert s')) !! pid <> proposals (t_policy s) !! pid.
Proof.
  intros Hdue E1 E2 Hsh Hlt _ Happ.
  rewrite (rollback_undoes_result s s' key_rec snap agg prop pid h cert Hdue E1 Happ).
  cbn [t_policy]. rewrite (rd_prop _ _ _ _ _ _ _ Hdue). unfold add_proposal_record, set_proposals.
  cbn [proposals]. rewrite lookup_insert_eq. intros [= Heq].
  apply (f_equal status_height) in Heq. cbn in Heq. lia.
Qed.

(** ** Witness: the election of [TallyCorrect] *)

Definition pid323 : hash := replicate 32 1.

Definition votes_db323 : dao_db :=
  match apply_votes votes323 db323 with applied s => s | _ => db323 end.

Definition no_aggregate : dao_proposal_aggregate :=
  {| aggregate_E_W := []; aggregate_E_S := []; aggregate_E_B := [];
     aggregate_C_W := []; aggregate_C_S := []; aggregate_C_B := [] |}.

Definition agg323 : dao_proposal_aggregate := default no_aggregate (aggregates votes_db323 !! pid323).

(** Members 1 and 3 decrypt. *)
Definition set323 (c : bytes) : dao_partial_set :=
  default {| member_indices := []; partials := []; proofs := [] |}
    (members_decrypt pk323 V323 (vks323 share323) share323 [1; 3] (fun i => 10 * i) c).

Definition build323 : option dao_tally_certificate :=
  dao_build_tally_certificate key_rec323 pid323 200
    (aggregate_E_W agg323) (aggregate_E_S agg323) (aggregate_E_B agg323)
    (set323 (aggregate_E_W agg323)) (set323 (aggregate_E_S agg323)) (set323 (aggregate_E_B agg323)) None.

Definition verify323 : option dao_tally_certificate :=
  cert ← build323;
  dao_verify_tally_certificate key_rec323 snap323 30
    (aggregate_E_W agg323) (aggregate_E_S agg323) (aggregate_E_B agg323) cert.

Definition prop323 : proposal_record :=
  {| proposal_id := pid323; ptype := 1; title := []; description := []; recipient := [];
     amount := 0; voting_period_days := 0; submission_height := 50; voting_end_height := 200;
     tally_key_id := kid323; submission_tx_hash := []; executed := false;
     status := PROPOSAL_STATUS_ACTIVE; status_height := 50; recipient_view_public_key := [];
     is_subaddress := false |}.

Definition state323 : tally_state :=
  {| t_votes := votes_db323; t_policy := set_proposals empty_policy_db {[ pid323 := prop323 ]};
     t_supply := {[ 200 := snap323 ]}; v2_outcomes := ∅; pending_executions := ∅ |}.

Lemma due323 : result_due state323 key_rec323 snap323 agg323 prop323 pid323 201.
Proof.
  split; try (vm_compute; reflexivity).
  - split; vm_compute; reflexivity.
  - split; [|split]; vm_compute; discriminate.
  - split; [vm_compute; reflexivity|]. unfold state323. cbn [pending_executions]. set_solver.
Qed.

Lemma verify323_some : match build323, verify323 with
  | Some cert, Some cert' =>
      dao_verify_tally_certificate key_rec323 snap323 30 (aggregate_E_W agg323)
        (aggregate_E_S agg323) (aggregate_E_B agg323) cert = Some cert' /\
      cert_proposal_id cert = pid323 /\ vote_end_height cert = 200 /\ cert_key_id cert = kid323
  | _, _ => False
  end.
Proof. vm_compute. auto. Qed.

Lemma tally_result_takes_effect_witness : exists cert' s',
  verify323 = Some cert' /\ apply_dao_v2_tally_result cert' 201 state323 = tally_applied s' /\
  proposals (t_policy s') !! pid323 =
    Some (with_status prop323 (if passed cert' then PROPOSAL_STATUS_PASSED else PROPOSAL_STATUS_REJECTED)
            false 201).
Proof.
  pose proof verify323_some as Hv. destruct build323 as [cert|]; [|destruct Hv].
  destruct verify323 as [cert'|]; [|destruct Hv]. destruct Hv as (Hv & E1 & E2 & E3).
  destruct (tally_result_takes_effect 30 state323 key_rec323 snap323 agg323 prop323 pid323 201
    cert cert' due323 E1 E2 E3 Hv) as [_ (s' & H1 & H2 & _)].
  exists cert', s'. split; [reflexivity|]. split; [exact H1|exact H2].
Defined.
