(* ===== verification/TallyShareProofs.v ===== *)
(** * What becomes of tally shares and certificates

    The encodings of shares and certificates read back what they wrote; a stored
    share is read as it was exported by the tally, not always by a resharing;
    shares that members produce never travel between nodes; and the transaction
    built of a quorum's shares is accepted by the chain. *)

From S2P Require Import Prelude Archive Crypto TxExtra Curve CurveModel GovStore ParamExecution Paillier Threshold DkgProofs Pedersen Reshare ReshareProofs ReshareCodec Emission VoteV2 Tally TallyMembers TallyCorrect TallyShare TallyResult.

(** ** Encodings *)

Definition proof_wf (p : dao_partial_decryption_proof) : Prop := u32_ok (pp_member_index p) /\ proof_sized p = true.

Lemma sized_blob n (l : bytes) : length l = n -> (n <= 2048)%nat -> blob_ok l.
Proof. unfold blob_ok, zlen. lia. Qed.

Lemma reads_proof p : proof_wf p -> reads pull_proof (push_proof p) p.
Proof.
  intros [Hi Hs] rest. unfold proof_sized in Hs. apply andb_true_iff in Hs as [HE HZ]. apply Nat.eqb_eq in HE, HZ.
  pose proof (sized_blob _ _ HE ltac:(lia)). pose proof (sized_blob _ _ HZ ltac:(unfold DAO_DKG_PARTIAL_PROOF_Z_BYTES; lia)).
  unfold pull_proof, push_proof. rewrite <- !app_assoc. do 3 read_step. by destruct p.
Qed.

Lemma ct_blob (l : bytes) : (length l =? PAILLIER_CT_BYTES)%nat = true -> blob_ok l.
Proof. intros E. apply Nat.eqb_eq in E. apply (sized_blob _ _ E). unfold PAILLIER_CT_BYTES. lia. Qed.

Record tally_share_wf (s : dao_v2_tally_share) : Prop := {
  tw_version : ts_version s = TALLY_SHARE_WIRE_VERSION;
  tw_pid : length (ts_proposal_id s) = 32%nat; tw_height : u64_ok (ts_vote_end_height s);
  tw_key : length (ts_tally_key_id s) = 32%nat;
  tw_reset : length (ts_reset_transcript_hash s) = 32%nat; tw_hash : length (ts_aggregate_ciphertext_hash s) = 32%nat;
  tw_index : u32_ok (ts_member_index s); tw_sized : tally_share_sized s = true;
  tw_proofs : proof_wf (ts_proof_W s) /\ proof_wf (ts_proof_S s) /\ proof_wf (ts_proof_B s);
}.

Lemma length_push_proof p : proof_sized p = true -> length (push_proof p) = 1244%nat.
Proof.
  unfold proof_sized, push_proof. rewrite andb_true_iff, !Nat.eqb_eq. intros [E1 E2].
  rewrite !length_app, !length_push_bytes, length_le_bytes, E1, E2. done.
Qed.

(** A share of the wire's version is read back as it was written. *)
Theorem tally_share_roundtrip s : tally_share_wf s ->
  exists l, tally_share_serialize s = Some l /\ tally_share_deserialize l = Some s.
Proof.
  intros [Hv Hp Hh Hk Hr Ha Hi Hs (PW & PS & PB)]. unfold tally_share_serialize. rewrite Hv, Hs. cbn [negb Z.eqb Pos.eqb TALLY_SHARE_WIRE_VERSION].
  eexists. split; [reflexivity|]. unfold tally_share_deserialize.
  pose proof Hs as Hs'. unfold tally_share_sized in Hs'. rewrite !andb_true_iff in Hs'. destruct Hs' as (((((SW & SS) & SB) & ZW) & ZS) & ZB).
  pose proof (sized_blob _ _ Hk ltac:(lia)). pose proof (ct_blob _ SW). pose proof (ct_blob _ SS). pose proof (ct_blob _ SB).
  assert (zlen ([2] ++ ts_proposal_id s ++ le_bytes 8 (ts_vote_end_height s) ++ push_bytes (ts_tally_key_id s) ++
        ts_reset_transcript_hash s ++ ts_aggregate_ciphertext_hash s ++ le_bytes 4 (ts_member_index s) ++
        push_bytes (ts_partial_W s) ++ push_bytes (ts_partial_S s) ++ push_bytes (ts_partial_B s) ++
        push_proof (ts_proof_W s) ++ push_proof (ts_proof_S s) ++ push_proof (ts_proof_B s)) <= MAX_SHARE_BYTES) as HL.
  { apply Nat.eqb_eq in SW, SS, SB. unfold zlen.
    rewrite !length_app, !length_le_bytes, !length_push_bytes, !length_push_proof, Hp, Hr, Ha, Hk, SW, SS, SB by done. done. }
  rewrite (proj2 (Z.ltb_ge _ _)) by exact HL. apply parse_all_reads. intros rest. unfold read_tally_share.
  rewrite <- !app_assoc, (reads_byte 2). cbn [mbind option_bind negb Z.eqb Pos.eqb TALLY_SHARE_WIRE_VERSION].
  rewrite (reads_raw 32) by done. cbn [mbind option_bind]. do 2 read_step.
  do 2 (rewrite (reads_raw 32) by done; cbn [mbind option_bind]). do 4 read_step.
  do 3 (rewrite reads_proof by done; cbn [mbind option_bind]).
  match goal with |- context [tally_share_sized ?r] => assert (r = s) as -> by (destruct s; cbn in Hv; by subst) end.
  by rewrite Hs.
Qed.

(** *** Certificates *)

Definition entry_wf (x : Z * bytes * dao_partial_decryption_proof) : Prop :=
  u32_ok (fst (fst x)) /\ set_entry_sized x = true /\ proof_wf (snd x).

Definition partial_set_wf (s : dao_partial_set) : Prop :=
  length (member_indices s) = length (partials s) /\ length (proofs s) = length (partials s) /\
  zlen (member_indices s) <= DAO_DKG_MAX_COMMITTEE_SIZE /\
  Forall entry_wf (zip (zip (member_indices s) (partials s)) (proofs s)).

Lemma reads_set_entry x : entry_wf x -> reads read_set_entry (write_set_entry x) x.
Proof.
  destruct x as [[i p] z]. intros (Hi & Hs & Hz) rest. cbn [fst snd] in *. unfold read_set_entry, write_set_entry. cbn [fst snd].
  pose proof Hs as Hs'. unfold set_entry_sized in Hs'. apply andb_true_iff in Hs' as [Hp _]. cbn [fst snd] in Hp. pose proof (ct_blob _ Hp).
  rewrite <- !app_assoc. do 2 read_step. rewrite reads_proof by done. cbn [mbind option_bind]. by rewrite Hs.
Qed.

Lemma length_set_entry x : entry_wf x -> length (write_set_entry x) = 1764%nat.
Proof.
  destruct x as [[i p] z]. intros (_ & Hs & [_ Hz]). unfold set_entry_sized in Hs. apply andb_true_iff in Hs as [Hp _]. cbn [fst snd] in *.
  apply Nat.eqb_eq in Hp. unfold write_set_entry. cbn [fst snd]. by rewrite !length_app, length_push_bytes, length_push_proof, length_le_bytes, Hp.
Qed.

Lemma map_zip3 {A B C} (a : list A) (b : list B) (c : list C) : length a = length b -> length c = length b ->
  map (fun x => fst (fst x)) (zip (zip a b) c) = a /\ map (fun x => snd (fst x)) (zip (zip a b) c) = b /\
  map snd (zip (zip a b) c) = c.
Proof.
  revert a c. induction b as [|y b IH]; intros [|x a] [|z c] Ha Hc; try done. injection Ha as Ha. injection Hc as Hc.
  destruct (IH a c Ha Hc) as (E1 & E2 & E3). cbn [zip zip_with map fst snd]. by rewrite E1, E2, E3.
Qed.

Lemma partial_set_roundtrip s : partial_set_wf s ->
  exists l, partial_set_serialize s = Some l /\ blob_ok l /\ partial_set_deserialize l = Some s.
Proof.
  intros (L1 & L2 & Hn & F). unfold partial_set_serialize. rewrite L1, L2, !Nat.eqb_refl. cbn [negb]. rewrite (proj2 (Z.ltb_ge _ _)) by done.
  rewrite (proj2 (forallb_Forall _ _)) by (eapply Forall_impl; [exact F|]; intros x (_ & Hs & _); exact Hs). cbn [negb].
  assert (zlen (zip (zip (member_indices s) (partials s)) (proofs s)) <= DAO_DKG_MAX_COMMITTEE_SIZE) as Hz.
  { unfold zlen in *. rewrite !length_zip_with. lia. }
  eexists. split; [reflexivity|]. split.
  - unfold blob_ok, push_list, zlen. rewrite length_app, length_le_bytes.
    rewrite (length_concat_same _ _ 1764) by (eapply Forall_impl; [exact F|]; apply length_set_entry).
    unfold zlen, DAO_DKG_MAX_COMMITTEE_SIZE in Hz. lia.
  - apply parse_all_reads. intros rest. unfold read_partial_set.
    rewrite (reads_pull_list _ _ entry_wf _ _ reads_set_entry Hz) by done. cbn [mbind option_bind].
    destruct (map_zip3 (member_indices s) (partials s) (proofs s) L1 L2) as (-> & -> & ->). by destruct s.
Qed.

Definition u128_ok (v : Z) : Prop := 0 <= v < 2 ^ 128.

Lemma reads_be128 v : u128_ok v -> reads read_be128 (be128 v) v.
Proof.
  intros Hv rest. unfold read_be128, be128. rewrite (reads_raw 16) by (by rewrite length_rev, length_le_bytes). cbn [mbind option_bind].
  by rewrite rev_involutive, le_val_le_bytes_id.
Qed.

Lemma reads_flag b : reads read_flag (flag b) b.
Proof. intros rest. by destruct b. Qed.

Record cert_wf (c : dao_tally_certificate) : Prop := {
  cw_pid : length (cert_proposal_id c) = 32%nat; cw_height : u64_ok (vote_end_height c);
  cw_key : blob_ok (cert_key_id c); cw_hash : length (aggregate_ciphertext_hash c) = 32%nat;
  cw_sets : partial_set_wf (cert_W c) /\ partial_set_wf (cert_S c) /\ partial_set_wf (cert_B c);
  cw_totals : u128_ok (W_total c) /\ u128_ok (S_abs c) /\ u128_ok (B_total c);
  cw_weights : u128_ok (YES_weight c) /\ u128_ok (NO_weight c) /\ u128_ok (quorum_threshold c);
  cw_id : u64_ok (per_event_share_set_id c); cw_threshold : u32_ok (cert_threshold c);
  cw_members : zlen (member_pubkeys c) <= DAO_DKG_MAX_COMMITTEE_SIZE /\ Forall (fun m => length m = 32%nat) (member_pubkeys c);
  cw_vks : zlen (per_event_VK_i c) <= DAO_DKG_MAX_COMMITTEE_SIZE /\ Forall blob_ok (per_event_VK_i c);
  cw_base : u64_ok (base_share_set_id c);
  cw_contributions : zlen (contributions c) <= DAO_DKG_MAX_COMMITTEE_SIZE /\ Forall blob_ok (contributions c);
  cw_indices : zlen (contributor_indices c) <= DAO_DKG_MAX_COMMITTEE_SIZE /\ Forall u32_ok (contributor_indices c);
  cw_base_vks : zlen (contributor_vk c) <= DAO_DKG_MAX_COMMITTEE_SIZE /\ Forall blob_ok (contributor_vk c);
}.

Ltac cert_step := first [rewrite reads_be128 by assumption | rewrite reads_flag]; cbn [mbind option_bind].

(** A certificate is read back as it was written. *)
Lemma certificate_roundtrip c : cert_wf c ->
  exists l, cert_serialize c = Some l /\ cert_deserialize l = cert_parsed c.
Proof.
  intros [Hp Hh Hk Ha (SW & SS & SB) (T1 & T2 & T3) (Y1 & Y2 & Y3) Hid Ht [Lm Fm] [Lv Fv] Hb [Lc Fc] [Li Fi] [Lw Fw]].
  destruct (partial_set_roundtrip _ SW) as (w & EW & BW & DW). destruct (partial_set_roundtrip _ SS) as (x & ES & BS & DS).
  destruct (partial_set_roundtrip _ SB) as (b & EB & BB & DB).
  unfold cert_serialize. rewrite EW, ES, EB. cbn [mbind option_bind]. eexists. split; [reflexivity|]. unfold cert_deserialize.
  rewrite (proj2 (Z.ltb_ge _ _)).
  2: { unfold zlen. rewrite !length_app, length_le_bytes, Hp, Ha. cbn [length]. lia. }
  change ([CERT_WIRE_VERSION] ++ ?r) with (CERT_WIRE_VERSION :: r). rewrite read_byte_cons. cbn [mbind option_bind].
  change (negb (CERT_WIRE_VERSION =? CERT_WIRE_VERSION)) with false. cbn [negb].
  rewrite (reads_raw 32) by done. cbn [mbind option_bind]. do 2 read_step.
  rewrite (proj2 (Z.ltb_ge _ _)) by (unfold zlen; rewrite length_app, Ha; lia).
  rewrite take_app_len, drop_app_len by done.
  rewrite (parse_all_reads _ _ c); [done|]. intros rest. unfold read_cert_body. rewrite <- !app_assoc. do 3 read_step.
  rewrite DW, DS, DB. cbn [mbind option_bind]. do 10 cert_step. do 2 read_step.
  rewrite (reads_pull_list _ _ _ _ _ (fun x => reads_sized 32 x ltac:(lia)) Lm) by done. cbn [mbind option_bind].
  rewrite (reads_pull_list _ _ blob_ok _ _ reads_bytes Lv) by done. cbn [mbind option_bind]. read_step.
  rewrite (reads_pull_list _ _ blob_ok _ _ reads_bytes Lc) by done. cbn [mbind option_bind].
  rewrite (reads_pull_list _ _ u32_ok _ _ reads_u32 Li) by done. cbn [mbind option_bind].
  rewrite (reads_pull_list _ _ blob_ok _ _ reads_bytes Lw) by done. cbn [mbind option_bind]. by destruct c.
Qed.

(** A certificate whose key id fills the input makes the reader run past it. *)
Lemma certificate_over_read pid (h : Z) kid : length pid = 32%nat -> u64_ok h -> blob_ok kid -> (28 <= length kid)%nat ->
  cert_deserialize (CERT_WIRE_VERSION :: pid ++ le_bytes 8 h ++ push_bytes kid) = cert_over_read.
Proof.
  intros Hp Hh Hk Hl. unfold cert_deserialize. rewrite (proj2 (Z.ltb_ge _ _)).
  2: { unfold zlen. cbn [length]. rewrite !length_app, length_le_bytes, length_push_bytes, Hp. lia. }
  rewrite read_byte_cons. cbn [mbind option_bind]. change (negb (CERT_WIRE_VERSION =? CERT_WIRE_VERSION)) with false. cbn [negb].
  rewrite (reads_raw 32) by done. cbn [mbind option_bind]. read_step.
  rewrite <- (app_nil_r (push_bytes kid)). read_step. done.
Qed.

(** ** Shares never travel *)

Section wire.
Context `{Digests} `{Crypto}.

(** Members produce shares of version 1, the encoding writes version 2 only. *)
Lemma produced_version n pid key_rec position event rW rS rB s :
  produce_local_share n pid key_rec position event rW rS rB = Some s -> ts_version s = 1.
Proof.
  unfold produce_local_share. intros E.
  repeat match type of E with
  | mbind _ ?o = _ => let x := fresh "x" in destruct o as [x|]; [cbn [mbind option_bind] in E|discriminate E]
  | (if ?b then None else _) = _ => destruct b; [discriminate E|]
  | (let '(_, _) := ?p in _) = _ => destruct p
  end.
  by injection E as <-.
Qed.

(** Receivers refuse every version other than 1, after the decoding has refused
    every version other than 2. *)
Lemma deserialized_version l s : tally_share_deserialize l = Some s -> ts_version s = 2.
Proof.
  unfold tally_share_deserialize, parse_all. destruct (MAX_SHARE_BYTES <? zlen l); [done|].
  destruct (read_tally_share l) as [[s' d]|] eqn:E; [|done]. unfold read_tally_share in E.
  repeat match type of E with
  | mbind _ ?o = _ => let x := fresh "x" in destruct o as [x|]; [cbn [mbind option_bind] in E|discriminate E]
  | (if negb (?v =? TALLY_SHARE_WIRE_VERSION) then None else _) = _ => let V := fresh "V" in destruct (v =? TALLY_SHARE_WIRE_VERSION) eqn:V; [cbn [negb] in E|discriminate E]
  | (if ?b then None else _) = _ => destruct b; [discriminate E|]
  | (let '(_, _) := ?p in _) = _ => destruct p
  end.
  injection E as E _. destruct d; [|done]. intros [= <-]. rewrite <- E. cbn [ts_version]. by apply Z.eqb_eq in V.
Qed.

End wire.

(** C30: No tally share travels: what a member produces is never put on the wire, and
    whatever a node receives, it stores no share and builds no transaction. *)
Theorem tally_shares_never_travel `{Digests} `{Crypto} q n pid key_rec position event rW rS rB s member payload :
  (produce_local_share n pid key_rec position event rW rS rB = Some s -> tally_broadcast s = None) /\
  handle_dao_v2_tally_share q member payload n = (n, None).
Proof.
  split.
  - intros E%produced_version. unfold tally_broadcast, tally_share_serialize. by rewrite E.
  - unfold handle_dao_v2_tally_share. destruct (tally_share_deserialize payload) as [share|] eqn:E; [|done].
    apply deserialized_version in E. unfold share_accepted. by rewrite E.
Qed.

(** ** Stored shares *)

Lemma bin2bn_bn2bin v : 0 <= v -> BN_bin2bn (BN_bn2bin v) = v.
Proof.
  intros Hv. unfold BN_bn2bin, BN_num_bytes, BN_bin2bn. rewrite rev_involutive, (Z.abs_eq v) by done. destruct (Z.eqb_spec v 0) as [->|Hne]; [done|].
  apply le_val_le_bytes_id. split; [done|]. pose proof (Z.log2_nonneg v) as H0. pose proof (Z.div_pos (Z.log2 v) 8 H0 ltac:(lia)).
  rewrite Z2Nat.id by lia. change 256 with (2 ^ 8). rewrite <- Z.pow_mul_r by lia. apply Z.log2_lt_pow2; [lia|].
  pose proof (Z.div_mod (Z.log2 v) 8 ltac:(lia)). pose proof (Z.mod_pos_bound (Z.log2 v) 8 ltac:(lia)). lia.
Qed.

Lemma pack_unpack key_id raw : length key_id = 32%nat -> raw <> [] ->
  dao_unpack_local_share (dao_pack_local_share key_id raw) key_id = Some raw.
Proof.
  intros Hk Hr. unfold dao_pack_local_share, dao_unpack_local_share. rewrite Hk, (proj2 (is_empty_false _) Hr). cbn [negb Nat.eqb].
  set (r := key_id ++ raw). change (drop 1 ([DAO_LOCAL_SHARE_ENVELOPE_VERSION] ++ r)) with r.
  change (drop (1 + 32) ([DAO_LOCAL_SHARE_ENVELOPE_VERSION] ++ r)) with (drop 32 r).
  change (nth 0 ([DAO_LOCAL_SHARE_ENVELOPE_VERSION] ++ r) 0 =? DAO_LOCAL_SHARE_ENVELOPE_VERSION) with true. subst r.
  rewrite !length_app, Hk, (proj2 (Nat.ltb_ge _ _)) by (cbn [length]; lia). cbn [negb].
  rewrite take_app_len, drop_app_len, beq_refl by done. by rewrite (proj2 (is_empty_false _) Hr).
Qed.

(** The tally reads a share as key generation or as a resharing stored it. *)
Theorem stored_share_read s : 
  bn_from_signed_share (export_local_share s) = Some s /\
  (forall l, dao_reshare_serialize_signed s = Some l ->
     bn_from_signed_share l = Some s /\ dao_load_local_share_value l = Some s).
Proof.
  split.
  - unfold export_local_share, bn_from_signed_share. rewrite bin2bn_bn2bin by lia. destruct (Z.ltb_spec s 0); cbn; f_equal; lia.
  - intros l E. pose proof (signed_pad_length _ _ _ E) as L. pose proof (signed_unpad_pad _ _ _ E) as U.
    unfold dao_load_local_share_value. rewrite L. change (S (DAO_RESHARE_SIGNED_BYTES - 1) =? kReshareSignedBytes)%nat with true.
    destruct l as [|b m]; [done|]. unfold signed_unpad in U. cbn [bn_from_signed_share nth drop].
    destruct (Z.eqb_spec b 0) as [->|]; [done|]. destruct (Z.eqb_spec b 1) as [->|]; done.
Qed.

Lemma le_val_snoc l c : le_val (l ++ [c]) = le_val l + c * 256 ^ Z.of_nat (length l).
Proof.
  induction l as [|b l IH]; cbn [le_val app length]; [lia|]. rewrite IH, Nat2Z.inj_succ, Z.pow_succ_r by lia. ring.
Qed.

(** A resharing reads the sign byte of a negative share of key generation as the
    top byte of its magnitude. *)
Theorem negative_share_misread s : s < 0 -> length (export_local_share s) <> kReshareSignedBytes ->
  dao_load_local_share_value (export_local_share s) = Some (- s + 256 ^ Z.of_nat (BN_num_bytes s)).
Proof.
  intros Hs Hl. unfold dao_load_local_share_value. rewrite (proj2 (Nat.eqb_neq _ _) Hl). f_equal. unfold export_local_share.
  rewrite (proj2 (Z.ltb_lt _ _)) by done. unfold BN_bin2bn. cbn [rev]. rewrite le_val_snoc.
  fold (BN_bin2bn (BN_bn2bin (Z.abs s))). rewrite bin2bn_bn2bin by lia. unfold BN_bn2bin.
  rewrite length_rev, length_rev, length_le_bytes. unfold BN_num_bytes. rewrite Z.abs_idemp.
  rewrite (proj2 (Z.eqb_neq (Z.abs s) 0)), (proj2 (Z.eqb_neq s 0)) by lia. lia.
Qed.
