(* ===== verification/TallyNode.v ===== *)
(** * A quorum's shares decide a proposal

    From the shares that the members of a quorum produce, every node builds a
    transaction that the chain accepts, with the totals of the votes. *)

From S2P Require Import Prelude Archive Crypto TxExtra Curve CurveModel GovStore ParamExecution Paillier Threshold DkgProofs Pedersen Reshare ReshareCodec ReshareCorrect Emission VoteV2 Tally TallyMembers TallyCorrect TallyShare TallyResult TallyShareProofs.

(** Passes a guard of a function that succeeded. *)
Ltac pass_guard E := match type of E with (if ?b then None else _) = _ => destruct b; [discriminate E|] end.

Section node.
Context `{DigestLaws} `{Crypto}.

(** ** Certificates that can be sent *)

Lemma verify_sized pk V vk i c ci p : dao_partial_decryption_verify pk V vk i c ci p = true -> proof_sized p = true.
Proof.
  unfold dao_partial_decryption_verify, proof_sized. intros E.
  repeat match type of E with (if negb ?b then false else _) = _ => let B := fresh "B" in destruct b eqn:B; [cbn [negb] in E|discriminate E] end.
  by repeat match goal with B : (length _ =? _)%nat = true |- _ => rewrite B; clear B end.
Qed.

Lemma partials_ok_entries pk V vks c l : forall seen, partials_ok pk V vks c seen l = true -> zlen vks < 2 ^ 32 ->
  Forall entry_wf l /\ NoDup (map (fun x => fst (fst x)) l) /\
  Forall (fun m => 1 <= m <= zlen vks /\ m ∉ seen) (map (fun x => fst (fst x)) l).
Proof.
  induction l as [|[[m p] pr] l IH]; intros seen E Hn; [split_and!; constructor|]. cbn [partials_ok] in E.
  destruct ((m <? 1) || (zlen vks <? m)) eqn:R; [done|]. destruct (existsb (fun q => q =? m) seen) eqn:S; [done|].
  destruct (length p =? PAILLIER_CT_BYTES)%nat eqn:L; [|done]. destruct (pp_member_index pr =? m) eqn:M; [|done]. cbn [negb] in E.
  destruct (dao_partial_decryption_verify _ _ _ _ _ _ _) eqn:Vf; [|done]. cbn [negb] in E.
  apply verify_sized in Vf. apply orb_false_iff in R as [R1 R2]. apply Z.ltb_ge in R1, R2. apply Z.eqb_eq in M.
  destruct (IH _ E Hn) as (F & D & Hs). cbn [map fst]. assert (m ∉ seen) as Hm.
  { intros Hin. apply not_true_iff_false in S. apply S. rewrite existsb_Exists, Exists_exists. exists m. by rewrite Z.eqb_refl. }
  split_and!.
  - constructor; [|done]. repeat split; cbn [fst snd]; [lia|lia|unfold set_entry_sized; cbn [fst snd]; by rewrite L, Vf|lia|lia|done].
  - constructor; [|done]. intros Hin. rewrite Forall_forall in Hs. destruct (Hs m Hin) as [_ Hc]. apply Hc.
    rewrite elem_of_app. right. by left.
  - constructor; [done|]. eapply Forall_impl; [exact Hs|]. intros x [Hx Hc]. split; [done|]. intros Hin. apply Hc. rewrite elem_of_app. by left.
Qed.

(** Sets that pass the checks fit the encoding. *)
Lemma check_set_wf pk V vks T s c : check_set pk V vks T s c = true -> zlen vks <= DAO_DKG_MAX_COMMITTEE_SIZE -> partial_set_wf s.
Proof.
  unfold check_set. intros E Hn. destruct (length (member_indices s) =? length (partials s))%nat eqn:L1; [|done].
  destruct (length (proofs s) =? length (partials s))%nat eqn:L2; [|done]. cbn [negb] in E. destruct (zlen (member_indices s) <? T); [done|].
  apply Nat.eqb_eq in L1, L2. assert (zlen vks < 2 ^ 32) as Hn2 by (unfold DAO_DKG_MAX_COMMITTEE_SIZE in Hn; lia).
  destruct (partials_ok_entries _ _ _ _ _ [] E Hn2) as (F & D & R). split_and!; [done|done| |done].
  destruct (map_zip3 (member_indices s) (partials s) (proofs s) L1 L2) as (E1 & _ & _). rewrite E1 in D, R.
  apply committee_bound; [done|]. intros i Hi. rewrite Forall_forall in R. apply elem_of_seqZ. destruct (R i Hi). unfold DAO_DKG_MAX_COMMITTEE_SIZE in *. lia.
Qed.

Lemma u128_range x : u128_ok (u128 x).
Proof. unfold u128_ok, u128. apply Z.mod_pos_bound. lia. Qed.

Lemma aggregate_hash_length w x b : length (dao_aggregate_ciphertext_hash w x b) = 32%nat.
Proof. unfold dao_aggregate_ciphertext_hash. do 3 (case_match; [done|]). apply length_sha256. Qed.

Lemma build_wf key_rec pid h w x b Ws Ss Bs event cert :
  dao_build_tally_certificate key_rec pid h w x b Ws Ss Bs event = Some cert -> length pid = 32%nat -> u64_ok h ->
  zlen (tk_V_K_i key_rec) <= DAO_DKG_MAX_COMMITTEE_SIZE ->
  (forall e, use_evidence key_rec event = Some e -> share_set_wf e) -> cert_wf cert.
Proof.
  unfold dao_build_tally_certificate. intros E Hp Hh Hn He.
  do 3 pass_guard E. destruct (length (tk_key_id key_rec) =? 32)%nat eqn:Hk; [|done]. apply Nat.eqb_eq in Hk. cbn [negb] in E.
  do 3 pass_guard E. destruct (deserialize_modulus _) as [pk|]; [|done]. cbn [mbind option_bind] in E.
  assert (zlen match use_evidence key_rec event with Some e => ss_VK_i e | None => tk_V_K_i key_rec end <= DAO_DKG_MAX_COMMITTEE_SIZE) as Hv.
  { destruct (use_evidence key_rec event) as [e|]; [|done]. pose proof (He e eq_refl) as [_ _ _ Hm _ _ _ _ Hl _ _ _ _ _]. unfold zlen in *. lia. }
  do 2 pass_guard E.
  destruct (check_set _ _ _ _ Ws w) eqn:CW; [cbn [negb] in E|discriminate E].
  destruct (check_set _ _ _ _ Ss x) eqn:CS; [cbn [negb] in E|discriminate E].
  destruct (check_set _ _ _ _ Bs b) eqn:CB; [cbn [negb] in E|discriminate E].
  apply bind_Some in E as (mW & _ & E). apply bind_Some in E as (mS & _ & E). apply bind_Some in E as (mB & _ & E). destruct (decode_signed _ _) as [neg mag] eqn:Ed.
  assert (u128_ok mag) as Hmag by (unfold decode_signed in Ed; destruct (_ <=? _) in Ed; injection Ed as _ <-; apply u128_range).
  injection E as <-. assert (blob_ok (tk_key_id key_rec)) by (apply (sized_blob 32); [done|lia]).
  pose proof (check_set_wf _ _ _ _ _ _ CW Hv). pose proof (check_set_wf _ _ _ _ _ _ CS Hv). pose proof (check_set_wf _ _ _ _ _ _ CB Hv).
  assert (u128_ok 0) by (unfold u128_ok; lia). assert (u64_ok 0) by (unfold u64_ok; lia). assert (u32_ok 0) by (unfold u32_ok; lia).
  assert (forall A (P : A -> Prop), zlen (@nil A) <= DAO_DKG_MAX_COMMITTEE_SIZE /\ Forall P []) as Hnil by (intros; split; [done|constructor]).
  split; cbn; try done; try apply aggregate_hash_length; try (split_and!; try done; apply u128_range);
    destruct (use_evidence key_rec event) as [e|]; try done; try apply Hnil; destruct (He e eq_refl); try done.
  - unfold u32_ok, DAO_DKG_MAX_COMMITTEE_SIZE in *. lia.
  - split; [apply sw_members|done].
  - split; [unfold zlen in *; lia|]. eapply Forall_impl; [exact sw_vk_size|]. intros v Hvs. apply (sized_blob _ _ Hvs). unfold PAILLIER_CT_BYTES. lia.
Qed.

Lemma evaluate_totals_wf pk snap q cert mW mS mB cert' : cert_wf cert -> evaluate_totals pk snap q cert mW mS mB = Some cert' -> cert_wf cert'.
Proof.
  intros Hc. unfold evaluate_totals. pose proof (u128_range mW : u128_ok (bn_to_u128 mW)) as HW. set (W := bn_to_u128 mW) in *.
  destruct (decode_signed mS (pk_N pk)) as [neg S] eqn:Ed. intros E.
  assert (0 <= S) as HS by (unfold decode_signed in Ed; destruct (_ <=? _) in Ed; injection Ed as _ <-; apply u128_range).
  do 5 pass_guard E. destruct (Z.ltb_spec W S) as [|HWS]; [discriminate E|]. pass_guard E. apply bind_Some in E as (e & Ee & [= <-]).
  assert (u128_ok (ev_quorum_threshold e)) as He.
  { unfold dao_evaluate_v2_tally in Ee. pass_guard Ee. injection Ee as <-. cbn [ev_quorum_threshold].
    pose proof (u128_range (snap_circulating snap * q)) as R. unfold u128_ok in *. split; [apply Z.div_pos; lia|].
    eapply Z.le_lt_trans; [apply Z.div_le_upper_bound with (q := u128 (snap_circulating snap * q))|]; lia. }
  assert (u128_ok (if s_negative cert then (W - S) / 2 else u128 (W + S) / 2)) as HY.
  { pose proof (u128_range (W + S)) as R. unfold u128_ok in *.
    destruct (s_negative cert); (split; [apply Z.div_pos; lia|]; apply Z.div_lt_upper_bound; lia). }
  destruct Hc. split; cbn; try done. split_and!; [exact HY|apply u128_range|exact He].
Qed.

Lemma verify_wf key_rec snap q w x b cert cert' : cert_wf cert ->
  dao_verify_tally_certificate key_rec snap q w x b cert = Some cert' -> cert_wf cert'.
Proof.
  intros Hc. unfold dao_verify_tally_certificate. intros E. do 7 pass_guard E. apply bind_Some in E as (pk & _ & E).
  apply bind_Some in E as ([T vk] & _ & E). do 7 pass_guard E.
  apply bind_Some in E as (mW & _ & E). apply bind_Some in E as (mS & _ & E). apply bind_Some in E as (mB & _ & E).
  by eapply evaluate_totals_wf.
Qed.

(** *** Their size *)

Lemma zlen_be128 v : zlen (be128 v) = 16.
Proof. unfold be128, zlen. by rewrite length_rev, length_le_bytes. Qed.

Lemma push_blobs_size l : zlen l <= DAO_DKG_MAX_COMMITTEE_SIZE -> Forall blob_ok l -> zlen (push_list push_bytes l) < 2 ^ 38.
Proof.
  intros Hl F. eapply Z.le_lt_trans; [apply (push_list_size _ _ _ (2 ^ 32 + 4) ) with (2 := Hl)|done]; [|done].
  eapply Forall_impl; [exact F|]. intros x Hx. rewrite zlen_push_bytes. unfold blob_ok in Hx. lia.
Qed.

Lemma certificate_size c l : cert_wf c -> cert_serialize c = Some l -> zlen l < 2 ^ 64.
Proof.
  intros [Hp Hh Hk Ha (SW & SS & SB) _ _ _ _ [Lm Fm] [Lv Fv] _ [Lc Fc] [Li Fi] [Lw Fw]]. unfold cert_serialize.
  destruct (partial_set_roundtrip _ SW) as (w & -> & BW & _). destruct (partial_set_roundtrip _ SS) as (x & -> & BS & _).
  destruct (partial_set_roundtrip _ SB) as (b & -> & BB & _). cbn [mbind option_bind]. intros El. apply (inj Some) in El as <-.
  assert (Forall blob_ok (member_pubkeys c)) as Fm' by (eapply Forall_impl; [exact Fm|]; intros m Em; apply (sized_blob _ _ Em); lia).
  pose proof (push_blobs_size _ Lm Fm'). pose proof (push_blobs_size _ Lv Fv). pose proof (push_blobs_size _ Lc Fc). pose proof (push_blobs_size _ Lw Fw).
  assert (zlen (push_list (le_bytes 4) (contributor_indices c)) < 2 ^ 38).
  { eapply Z.le_lt_trans; [apply (push_list_size _ _ _ 4) with (2 := Li)|done]; [|done]. apply Forall_true. intros v. by rewrite zlen_le_bytes. }
  assert (forall f, zlen (flag f) = 1) as Hf by done. assert (zlen (cert_proposal_id c) = 32) by (unfold zlen; lia).
  assert (zlen (aggregate_ciphertext_hash c) = 32) by (unfold zlen; lia). unfold blob_ok in *.
  rewrite !zlen_app, !zlen_le_bytes, !zlen_push_bytes, !zlen_be128, !Hf. change (zlen [CERT_WIRE_VERSION]) with 1. lia.
Qed.

(** A certificate that can be sent is found in its transaction. *)
Lemma transaction_carries trap q cert extra h s : cert_wf cert -> tally_result_extra cert = Some extra ->
  validate_dao_v2_tally_result_tx trap q extra h s = validate_dao_v2_tally_result q cert h s.
Proof.
  intros Hc. unfold tally_result_extra. destruct (certificate_roundtrip cert Hc) as (blob & E & D). rewrite E. cbn [mbind option_bind]. intros Ex.
  assert (extra = write_fields [tx_extra_governance_payload {| gp_type := GO_TALLY_RESULT; gp_data := blob |}]) as ->.
  { injection Ex as <-. unfold write_fields. cbn [map concat]. by rewrite app_nil_r. }
  unfold validate_dao_v2_tally_result_tx. rewrite write_fields_parse; [|constructor; [|constructor]|done].
  - cbn [tally_payloads omap list_omap gp_type gp_data]. change (GO_TALLY_RESULT =? GO_TALLY_RESULT) with true. cbn. by rewrite D.
  - split; [done|]. cbn [gp_data]. by eapply certificate_size.
Qed.

Lemma transaction_built cert : cert_wf cert -> exists extra, tally_result_extra cert = Some extra.
Proof. intros Hc. unfold tally_result_extra. destruct (certificate_roundtrip cert Hc) as (blob & -> & _). by eexists. Qed.

(** ** Members and their shares *)

(** The node [m] of member [i] is on the same chain as [n] and has stored the
    share [s] of the set it decrypts with. *)
Definition member_ready (n m : tally_node) (key_rec : dao_tally_key_record) (event : option dao_share_set_record)
    (vks : list bytes) (i s : Z) : Prop :=
  tn_chain m = tn_chain n /\
  exists sid packed raw,
    share_source m key_rec i event = Some (sid, nth (Z.to_nat (i - 1)) vks []) /\ sid <> 0 /\
    tn_local_shares m !! (sid mod 2 ^ 32, i) = Some packed /\
    dao_unpack_local_share packed (tk_key_id key_rec) = Some raw /\ bn_from_signed_share raw = Some s.

Definition produced (pk : PaillierPublicKey) (V : bytes) (vks : list bytes) (f rW rS rB : Z -> Z) (agg : dao_proposal_aggregate)
    (i : Z) (sh : dao_v2_tally_share) : Prop :=
  let vk := nth (Z.to_nat (i - 1)) vks [] in
  ts_member_index sh = i /\
  ts_aggregate_ciphertext_hash sh =
    dao_aggregate_ciphertext_hash (aggregate_E_W agg) (aggregate_E_S agg) (aggregate_E_B agg) /\
  do_channel pk V vk (aggregate_E_W agg) i (f i) (rW i) = Some (ts_partial_W sh, ts_proof_W sh) /\
  do_channel pk V vk (aggregate_E_S agg) i (f i) (rS i) = Some (ts_partial_S sh, ts_proof_S sh) /\
  do_channel pk V vk (aggregate_E_B agg) i (f i) (rB i) = Some (ts_partial_B sh, ts_proof_B sh).

Lemma produce_ok n m key_rec pk f T vks event snap agg prop pid h rW rS rB i :
  result_due (tn_chain n) key_rec snap agg prop pid h -> key_usable key_rec pk ->
  holds_key pk (tk_V key_rec) f T (BN_bin2bn (tk_theta_bytes key_rec)) vks ->
  is_ct pk (aggregate_E_W agg) -> is_ct pk (aggregate_E_S agg) -> is_ct pk (aggregate_E_B agg) ->
  1 <= i <= zlen vks -> 0 <= rW i < pk_N pk -> 0 <= rS i < pk_N pk -> 0 <= rB i < pk_N pk ->
  member_ready n m key_rec event vks i (f i) ->
  exists sh, produce_local_share m pid key_rec i event (rW i) (rS i) (rB i) = Some sh /\
    produced pk (tk_V key_rec) vks f rW rS rB agg i sh.
Proof.
  intros [R1 _ _ _ R5 (N1 & N2 & N3) _ _] [Hmod Hid _ Hmem _] Hk CW CS CB Hi HW HS HB (Hch & sid & packed & raw & E1 & E2 & E3 & E4 & E5).
  pose proof (tk_pk _ _ _ _ (hk_key _ _ _ _ _ _ Hk)) as Hpk. pose proof (hk_base _ _ _ _ _ _ Hk) as HV.
  assert (nth (Z.to_nat (i - 1)) vks [] = verification_key pk (tk_V key_rec) (f i)) as Evk
    by (apply (nth_vks pk _ f (zlen vks)); [exact (hk_vks _ _ _ _ _ _ Hk)|done]).
  assert (Z.abs (f i) < 2 ^ 9000) as Hf.
  { apply (hk_shares _ _ _ _ _ _ Hk). pose proof (proj2 (hk_size _ _ _ _ _ _ Hk)) as Hn. clear -Hi Hn. lia. }
  destruct (do_channel_ok pk (tk_V key_rec) _ _ i (f i) (rW i) Hpk HV CW Evk Hf HW) as (pW & zW & DW & _).
  destruct (do_channel_ok pk (tk_V key_rec) _ _ i (f i) (rS i) Hpk HV CS Evk Hf HS) as (pS & zS & DS & _).
  destruct (do_channel_ok pk (tk_V key_rec) _ _ i (f i) (rB i) Hpk HV CB Evk Hf HB) as (pB & zB & DB & _).
  unfold produce_local_share. rewrite Hch, R1. cbn [mbind option_bind]. rewrite (proj2 (Z.ltb_ge i 1)) by (clear -Hi; lia).
  rewrite Hid, Hmem, !Nat.eqb_refl, E1. cbn [negb mbind option_bind]. rewrite (proj2 (Z.eqb_neq _ _) E2), E3. cbn [mbind option_bind].
  rewrite E4. cbn [mbind option_bind]. rewrite E5, R5. cbn [mbind option_bind].
  rewrite (proj2 (is_empty_false _) N1), (proj2 (is_empty_false _) N2), (proj2 (is_empty_false _) N3), Hmod. cbn [orb mbind option_bind].
  rewrite DW. cbn [mbind option_bind]. rewrite DS. cbn [mbind option_bind]. rewrite DB. cbn [mbind option_bind].
  eexists. split; [reflexivity|]. split_and!; done.
Qed.

Lemma produced_sets pk V vks f rW rS rB agg subset l : Forall2 (produced pk V vks f rW rS rB agg) subset l ->
  members_decrypt pk V vks f subset rW (aggregate_E_W agg) = Some (share_set_of l ts_partial_W ts_proof_W) /\
  members_decrypt pk V vks f subset rS (aggregate_E_S agg) = Some (share_set_of l ts_partial_S ts_proof_S) /\
  members_decrypt pk V vks f subset rB (aggregate_E_B agg) = Some (share_set_of l ts_partial_B ts_proof_B).
Proof.
  intros F. assert (subset = map ts_member_index l) as Hs by (clear -F; induction F as [|i sh subset l (<- & _) _ IH]; [done|]; cbn [map]; by f_equal).
  unfold members_decrypt, share_set_of.
  rewrite (proj2 (mapM_Some _ _ (map (fun sh => (ts_partial_W sh, ts_proof_W sh)) l)))
    by (apply Forall2_fmap_r; eapply Forall2_impl; [exact F|]; intros i sh (_ & _ & E & _); exact E).
  rewrite (proj2 (mapM_Some _ _ (map (fun sh => (ts_partial_S sh, ts_proof_S sh)) l)))
    by (apply Forall2_fmap_r; eapply Forall2_impl; [exact F|]; intros i sh (_ & _ & _ & E & _); exact E).
  rewrite (proj2 (mapM_Some _ _ (map (fun sh => (ts_partial_B sh, ts_proof_B sh)) l)))
    by (apply Forall2_fmap_r; eapply Forall2_impl; [exact F|]; intros i sh (_ & _ & _ & _ & E); exact E).
  cbn [mbind option_bind]. rewrite !map_map. cbn [fst snd]. rewrite <- Hs. done.
Qed.

(** What the tally of a proposal starts from: a committee that holds the key,
    on the chain of node [n], and aggregates of the weights [yes], [no] and the
    balances [B]. *)
Record tally_due (n : tally_node) (key_rec : dao_tally_key_record) (pk : PaillierPublicKey) (f : Z -> Z) (T : Z) (vks : list bytes)
    (snap : dao_supply_snapshot) (agg : dao_proposal_aggregate) (prop : proposal_record) (pid : hash) (h q yes no B : Z) : Prop := {
  td_due : result_due (tn_chain n) key_rec snap agg prop pid h;
  td_usable : key_usable key_rec pk;
  td_key : tally_key_id prop = tk_key_id key_rec /\ tk_key_id key_rec <> null_hash;
  td_snap : snap_height snap = voting_end_height prop;
  td_sizes : length pid = 32%nat /\ u64_ok (voting_end_height prop) /\ zlen (tk_V_K_i key_rec) <= DAO_DKG_MAX_COMMITTEE_SIZE;
  td_evidence : forall e, use_evidence key_rec (node_event n key_rec) = Some e -> share_set_wf e;
  td_decides : decides_with key_rec pk (node_event n key_rec) T vks;
  td_threshold : eff_threshold key_rec (node_event n key_rec) = T /\ 2 <= T;
  td_holds : holds_key pk (tk_V key_rec) f T (BN_bin2bn (tk_theta_bytes key_rec)) vks;
  td_W : enc_of pk (aggregate_E_W agg) (yes + no);
  td_S : enc_of pk (aggregate_E_S agg) (yes - no);
  td_B : enc_of pk (aggregate_E_B agg) B;
  td_weights : 0 <= yes /\ 0 <= no /\ yes + no <= W_MAX /\ 2 * (yes + no) < pk_N pk;
  td_balances : 0 <= B < 2 ^ 128 /\ B < pk_N pk;
  td_quorum : 0 <= q <= 100 /\ 0 <= snap_circulating snap < 2 ^ 120;
}.

Lemma quorum_take T l : quorum T l -> 2 <= T -> quorum T (take (Z.to_nat T) l).
Proof.
  intros (Hd & Hs & Hl & HT) H2. unfold zlen in HT. split_and!.
  - rewrite <- (take_drop (Z.to_nat T) l) in Hd. by apply NoDup_app in Hd as [Hd _].
  - intros x Hx. apply Hs. apply list_elem_of_lookup in Hx as [k Hk]. apply lookup_take_Some in Hk as [Hk _]. by apply list_elem_of_lookup_2 in Hk.
  - rewrite length_take. lia.
  - lia.
  - unfold zlen. rewrite length_take. lia.
Qed.

(** The transaction built of shares that members produced. *)
Lemma build_accepted trap n key_rec pk f T vks snap agg prop pid h q yes no B indices shares rW rS rB keys :
  tally_due n key_rec pk f T vks snap agg prop pid h q yes no B ->
  deciding pk T vks indices rW -> deciding pk T vks indices rS -> deciding pk T vks indices rB ->
  Forall2 (produced pk (tk_V key_rec) vks f rW rS rB agg) indices shares -> length keys = length shares ->
  exists cert extra, build_tally_result_transaction q n pid (zip keys shares) T = Some extra /\
    tally_result_extra cert = Some extra /\ validate_dao_v2_tally_result_tx trap q extra h (tn_chain n) = true /\
    YES_weight cert = yes /\ NO_weight cert = no /\ B_total cert = B /\
    passed cert = (snap_circulating snap * q / 100 <=? B) && (no <? yes).
Proof.
  intros [Hdue Hu [K1 K2] Hsn (S1 & S2 & S3) Hev Hd [ET HT] Hk EW ES EB (Y1 & Y2 & Y3 & Y4) [B1 B2] [Q1 Q2]] DW DS DB F Hkeys.
  set (l := take (Z.to_nat T) shares). set (subset := take (Z.to_nat T) indices).
  assert (forall rs, deciding pk T vks indices rs -> deciding pk T vks subset rs) as Hsub.
  { intros rs (Dq & Df & Dr). split_and!; [by apply quorum_take|by apply Forall_take|done]. }
  destruct (produced_sets _ _ _ _ _ _ _ _ _ _ (Forall2_take _ _ _ (Z.to_nat T) F)) as (P1 & P2 & P3). fold subset l in P1, P2, P3.
  destruct (certificate_correct key_rec pk f T vks (node_event n key_rec) subset rW rS rB pid snap q _ _ _ yes no B
    Hu Hd Hk (Hsub _ DW) (Hsub _ DS) (Hsub _ DB) EW ES EB)
    as (Ws & Ss & Bs & cert & cert' & M1 & M2 & M3 & C1 & C2 & C3 & C4 & Ck & C5 & C6 & C7 & C8); [assumption..|].
  rewrite P1 in M1. rewrite P2 in M2. rewrite P3 in M3. injection M1 as <-. injection M2 as <-. injection M3 as <-.
  pose proof (build_wf _ _ _ _ _ _ _ _ _ _ _ C1 S1 ltac:(by rewrite Hsn) S3 Hev) as Wf.
  pose proof (verify_wf _ _ _ _ _ _ _ _ Wf C2) as Wf'. destruct (transaction_built cert' Wf') as [extra Ex].
  exists cert', extra. pose proof Hdue as [R1 R2 _ [R4 R4'] R5 (N1 & N2 & N3) R7 [R8 _]].
  pose proof (Forall2_length _ _ _ F) as Lf. destruct DW as ((_ & _ & _ & HTl) & _ & _). unfold zlen in HTl.
  split; [|split; [done|split; [|split_and!; assumption]]].
  - unfold build_tally_result_transaction. rewrite R8, bool_decide_eq_false_2 by (intros [? [=]]). rewrite R1. cbn [mbind option_bind].
    rewrite R2, Z.eqb_refl, K1. cbn [negb]. assert (beq (tk_key_id key_rec) null_hash = false) as -> by (by apply not_true_iff_false; rewrite beq_true).
    unfold get_dao_tally_key_by_id. rewrite R4, Nat.eqb_refl, R4'. cbn [negb mbind option_bind]. rewrite ET, (proj2 (Z.ltb_ge T T)) by lia.
    rewrite (proj2 (Z.ltb_ge _ _)) by (unfold zlen; rewrite length_zip_with; lia). rewrite R5. cbn [mbind option_bind].
    rewrite (proj2 (is_empty_false _) N1), (proj2 (is_empty_false _) N2), (proj2 (is_empty_false _) N3). cbn [orb].
    rewrite snd_zip by lia. rewrite filter_all by (clear -F; induction F as [|i sh l l' (_ & E & _) _ IH]; constructor; [exact E|exact IH]).
    fold l. rewrite (proj2 (Z.ltb_ge _ _)) by (unfold zlen, l; rewrite length_take; lia). rewrite R7.
    cbn [mbind option_bind]. rewrite Hsn in C1. rewrite C1. cbn [mbind option_bind]. rewrite C2. exact Ex.
  - rewrite (transaction_carries trap q cert' extra h _ Wf' Ex). destruct (verify_result _ _ _ _ _ _ _ _ C2) as (y & o & e & Ev).
    apply (validate_verified q _ _ _ _ _ _ _ _ cert' Hdue C3); [congruence|exact Ck|]. by rewrite Ev at 1; rewrite verify_claim.
Qed.

Lemma tally_transaction_ok trap n key_rec pk f T vks snap agg prop pid h q yes no B
    indices members rW rS rB :
  tally_due n key_rec pk f T vks snap agg prop pid h q yes no B ->
  deciding pk T vks indices rW -> deciding pk T vks indices rS -> deciding pk T vks indices rB ->
  let event := use_evidence key_rec (node_event n key_rec) in
  Forall2 (fun i m => member_ready n m key_rec event vks i (f i)) indices members ->
  exists shares,
    mapM (fun x => produce_local_share (snd x) pid key_rec (fst x) event (rW (fst x)) (rS (fst x)) (rB (fst x)))
      (zip indices members) = Some shares /\
    forall keys, length keys = length shares ->
    exists cert extra, build_tally_result_transaction q n pid (zip keys shares) T = Some extra /\
      tally_result_extra cert = Some extra /\ validate_dao_v2_tally_result_tx trap q extra h (tn_chain n) = true /\
      YES_weight cert = yes /\ NO_weight cert = no /\ B_total cert = B /\
      passed cert = (snap_circulating snap * q / 100 <=? B) && (no <? yes).
Proof.
  intros Hdue DW DS DB event F. pose proof Hdue as [Hd Hu _ _ _ _ _ _ Hk EW ES EB _ _ _].
  pose proof (tk_pk _ _ _ _ (hk_key _ _ _ _ _ _ Hk)) as Hpk. pose proof (deciding_range _ _ _ _ _ DW) as Hr.
  assert (exists shares, mapM (fun x => produce_local_share (snd x) pid key_rec (fst x) event (rW (fst x)) (rS (fst x)) (rB (fst x)))
      (zip indices members) = Some shares /\ Forall2 (produced pk (tk_V key_rec) vks f rW rS rB agg) indices shares)
    as (shares & E & P).
  { destruct DW as (_ & _ & RW), DS as (_ & _ & RS), DB as (_ & _ & RB). clear Hdue. revert Hr.
    induction F as [|i m indices members Hm F IH]; intros Hr; [by exists []|]. apply Forall_cons in Hr as [Hi Hr].
    destruct (IH Hr) as (shares & E & P).
    destruct (produce_ok n m key_rec pk f T vks event snap agg prop pid h rW rS rB i Hd Hu Hk (enc_of_ct pk Hpk _ _ EW)
      (enc_of_ct pk Hpk _ _ ES) (enc_of_ct pk Hpk _ _ EB) Hi (RW i) (RS i) (RB i) Hm) as (sh & E' & P').
    exists (sh :: shares). cbn [zip zip_with mapM fst snd]. rewrite E'. cbn [mbind option_bind]. rewrite E. split; [done|by constructor]. }
  exists shares. split; [done|]. intros keys Hkeys. exact (build_accepted trap _ _ _ _ _ _ _ _ _ _ _ _ _ _ _ _ _ _ _ _ _ Hdue DW DS DB P Hkeys).
Qed.

End node.

(** C11: A quorum's shares decide a proposal.  Members whose nodes have stored
    their shares of the key all produce their partial decryptions; from any list
    of these shares, in whatever order they are stored, a node builds the
    tally-result transaction, the chain accepts it, and the certificate in it has
    the weights and the balances that were cast and the verdict that follows from
    them. *)
Theorem tally_transaction_accepted `{DigestLaws} `{Crypto} trap n key_rec pk f T vks snap agg prop pid h q yes no B
    indices members rW rS rB :
  tally_due n key_rec pk f T vks snap agg prop pid h q yes no B ->
  deciding pk T vks indices rW -> deciding pk T vks indices rS -> deciding pk T vks indices rB ->
  let event := use_evidence key_rec (node_event n key_rec) in
  Forall2 (fun i m => member_ready n m key_rec event vks i (f i)) indices members ->
  exists shares,
    mapM (fun x => produce_local_share (snd x) pid key_rec (fst x) event (rW (fst x)) (rS (fst x)) (rB (fst x)))
      (zip indices members) = Some shares /\
    forall keys, length keys = length shares ->
    exists cert extra, build_tally_result_transaction q n pid (zip keys shares) T = Some extra /\
      tally_result_extra cert = Some extra /\ validate_dao_v2_tally_result_tx trap q extra h (tn_chain n) = true /\
      YES_weight cert = yes /\ NO_weight cert = no /\ B_total cert = B /\
      passed cert = (snap_circulating snap * q / 100 <=? B) && (no <? yes).
Proof. exact (tally_transaction_ok trap n key_rec pk f T vks snap agg prop pid h q yes no B indices members rW rS rB). Qed.

(** ** Witness: the election of [TallyCorrect] *)

Definition node323 (i : Z) : tally_node :=
  {| tn_chain := state323; tn_tally_key := None; tn_share_sets := ∅;
     tn_local_shares := {[ (@share_set_id_for_key_id sample_crypto kid323 mod 2 ^ 32, i) :=
                           dao_pack_local_share kid323 (export_local_share (share323 i)) ]};
     tn_current_share_set := 0; tn_tally_shares := ∅ |}.

Lemma agg323_holds : enc_of pk323 (aggregate_E_W agg323) (40 + 25) /\ enc_of pk323 (aggregate_E_S agg323) (40 - 25) /\
  enc_of pk323 (aggregate_E_B agg323) 40.
Proof.
  destruct key_rec323_ok as [Hu Hk].
  destruct (@votes_hold_totals model_curve model_group key_rec323 pk323 pid323 db323 votes323 ballots323
    (tk_pk _ _ _ _ (hk_key _ _ _ _ _ _ Hk)) Hu) as (s' & a & E1 & E2 & HW & HS & HB & _);
    [by vm_compute|by vm_compute|done|exact votes323_cast|].
  change (yes_total ballots323) with 40 in HW, HS. change (no_total ballots323) with 25 in HW, HS. change (participation ballots323) with 40 in HB.
  unfold agg323, votes_db323. rewrite E1, E2. exact (conj HW (conj HS HB)).
Qed.

Lemma event323 : node_event (node323 0) key_rec323 = None.
Proof. vm_compute. reflexivity. Qed.

Lemma tally_due323 :
  @tally_due toy_digests (node323 0) key_rec323 pk323 share323 2 (vks323 share323) snap323 agg323 prop323 pid323 201 30 40 25 40.
Proof.
  destruct key_rec323_ok as [Hu Hk]. destruct agg323_holds as (HW & HS & HB).
  split; rewrite ?event323.
  - exact due323.
  - exact Hu.
  - split; [reflexivity|discriminate].
  - reflexivity.
  - split; [reflexivity|]. split; [split; [discriminate|reflexivity]|discriminate].
  - intros e [=].
  - split; reflexivity.
  - split; [reflexivity|discriminate].
  - exact Hk.
  - exact HW.
  - exact HS.
  - exact HB.
  - split_and!; vm_compute; congruence.
  - split_and!; vm_compute; congruence.
  - split_and!; vm_compute; congruence.
Qed.

Lemma member323 i : 1 <= i <= 3 -> @member_ready sample_crypto (node323 0) (node323 i) key_rec323 None (vks323 share323) i (share323 i).
Proof.
  intros Hi. split; [done|]. exists (@share_set_id_for_key_id sample_crypto kid323), (dao_pack_local_share kid323 (export_local_share (share323 i))),
    (export_local_share (share323 i)). split.
  { unfold share_source. rewrite (proj2 (Z.ltb_ge i 1)), (proj2 (Z.ltb_ge _ i)) by (done || (change (zlen (tk_V_K_i key_rec323)) with 3; lia)). done. }
  split; [by vm_compute|]. split; [exact (lookup_singleton_eq _ _)|]. split; [by apply pack_unpack|]. apply (proj1 (stored_share_read (share323 i))).
Qed.

Lemma tally_transaction_accepted_witness : exists shares extra,
  mapM (fun x => @produce_local_share toy_digests sample_crypto (snd x) pid323 key_rec323 (fst x) None (10 * fst x mod 323)
    (10 * fst x mod 323) (10 * fst x mod 323)) [(1, node323 1); (3, node323 3)] = Some shares /\
  @build_tally_result_transaction toy_digests 30 (node323 0) pid323 (zip [[5]; [4]] shares) 2 = Some extra /\
  @validate_dao_v2_tally_result_tx toy_digests (fun _ => true) 30 extra 201 state323 = true.
Proof.
  destruct (@tally_transaction_accepted toy_digests toy_digest_laws sample_crypto (fun _ => true) (node323 0) key_rec323 pk323 share323 2
    (vks323 share323) snap323 agg323 prop323 pid323 201 30 40 25 40 [1; 3] [node323 1; node323 3] _ _ _
    tally_due323 deciding323 deciding323 deciding323) as (shares & E & B).
  - repeat constructor; apply member323; lia.
  - assert (length [[5]; [4]] = length shares) as L by (apply mapM_Some in E; apply Forall2_length in E; exact E).
    destruct (B [[5]; [4]] L) as (cert & extra & B1 & _ & B2 & _). exists shares, extra. split; [exact E|]. split; [exact B1|exact B2].
Defined.

Lemma tally_shares_never_travel_witness : exists s,
  @produce_local_share toy_digests sample_crypto (node323 1) pid323 key_rec323 1 None 10 10 10 = Some s /\ tally_broadcast s = None.
Proof.
  destruct (@tally_transaction_ok toy_digests toy_digest_laws sample_crypto (fun _ => true) (node323 0) key_rec323 pk323 share323 2
    (vks323 share323) snap323 agg323 prop323 pid323 201 30 40 25 40 [1; 3] [node323 1; node323 3] _ _ _
    tally_due323 deciding323 deciding323 deciding323) as (shares & E & _).
  - repeat constructor; apply member323; lia.
  - apply mapM_Some in E. inversion E as [|x s l k Hs Hk]; subst. exists s. split; [exact Hs|].
    exact (proj1 (@tally_shares_never_travel toy_digests sample_crypto 30 (node323 1) pid323 key_rec323 1 None 10 10 10 s [] []) Hs).
Defined.
