(* ===== verification/ReshareTally.v ===== *)
(** * A reshared committee tallies

    The share set that a resharing ends with is accepted as evidence by the checks
    of a tally certificate, and the new members hold the key of the old ones: a
    certificate of theirs has the result of the votes. *)

From Stdlib Require Import Zcong.
From Stdlib Require Import Zmod Zstar.
From S2P Require Import Prelude Archive Crypto Paillier Threshold DkgProofs Pedersen Reshare ReshareProofs ReshareCodec ReshareCorrect ReshareRunner ReshareRunnerProofs VoteV2 Tally TallyMembers TallyCorrect TallyShare TallyShareProofs TallyNode.

Section reshared.
Context `{DigestLaws} `{PrivateBoxLaws} `{Crypto}.
Context (cfg : runner_config) (f mu : Z -> Z) (cs : list contributor) (T t : Z).
Notation pk := (rc_pk cfg).
Notation grp := (rc_grp cfg).
Notation V := (rc_V_bytes cfg).
Notation n := (zlen (rc_new_members cfg)).
Notation new_vks := (new_vks cfg f cs).
Context (Hs : session cfg f mu cs T t).

(** ** The new members hold the key *)

Lemma reshared_small i : Z.abs (f 0) < 2 ^ 8400 -> 1 <= i <= DAO_DKG_MAX_COMMITTEE_SIZE -> Z.abs (reshared f cs i) < 2 ^ 9000.
Proof.
  intros Hf0 Hi. unfold reshared. apply (abs_add_pow _ _ 8480); [done|done| |].
  - apply Z.lt_le_incl. eapply Z.lt_le_trans; [exact Hf0|by apply Z.pow_le_mono_r].
  - apply abs_delta_le. rewrite Z.mul_assoc, <- zsum_fmap_mul.
    pose proof (se_resharing _ _ _ _ _ _ Hs) as Hr. destruct (se_threshold _ _ _ _ _ _ Hs) as [_ Ht]. pose proof (se_members _ _ _ _ _ _ Hs) as Hn.
    assert (zlen cs <= 2 ^ 4) as H16.
    { pose proof (committee_bound _ (rs_distinct _ _ _ _ _ _ _ _ Hr) (rs_members _ _ _ _ _ _ _ _ Hr)) as B. unfold zlen in *. by rewrite length_map in B. }
    etransitivity; [apply (zsum_abs grp (proj2 (se_size _ _ _ _ _ _ Hs)) _ (2 ^ 8466))|].
    + apply Forall_forall. intros c Hc. rewrite <- exponent_value.
      pose proof (rs_ready _ _ _ _ _ _ _ _ Hr) as F. rewrite Forall_forall in F. pose proof (rs_coeffs _ _ _ _ _ _ _ _ Hr) as G. rewrite Forall_forall in G.
      apply (coeffs_value_bound grp (proj2 (se_size _ _ _ _ _ _ Hs)) 4 16); [done|exact (cy_coeffs _ _ _ _ _ _ _ _ (F c Hc))| |].
      * rewrite (G c Hc). unfold DAO_DKG_MAX_COMMITTEE_SIZE in Hn. clear -Ht Hn. lia.
      * unfold DAO_DKG_MAX_COMMITTEE_SIZE in Hi. clear -Hi. lia.
    + transitivity (2 ^ 4 * 2 ^ 8466); [by apply Z.mul_le_mono_nonneg_r; [apply Z.pow_nonneg|]|]. rewrite <- Z.pow_add_r by done. by apply Z.pow_le_mono_r.
Qed.

Lemma reshared_zero : reshared f cs 0 = f 0.
Proof.
  unfold reshared. rewrite (list_fmap_ext _ (fun _ => 0 * 0)), zsum_fmap_mul; [ring|].
  intros k c _. exact (evaluate_scale (map coeff_value (co_coeffs c)) 0 0 0).
Qed.

Lemma zlen_new_vks : zlen new_vks = n.
Proof. unfold ReshareRunnerProofs.new_vks, zlen. rewrite length_map, length_seqZ. lia. Qed.

Lemma reshared_holds theta vks : holds_key pk V f T theta vks -> holds_key pk V (reshared f cs) (t + 1) theta new_vks.
Proof.
  intros Hk. pose proof (se_resharing _ _ _ _ _ _ Hs) as Hr. destruct (se_threshold _ _ _ _ _ _ Hs) as [_ Ht]. split.
  - exact (reshared_key pk V grp f mu cs T t theta Hr (hk_key _ _ _ _ _ _ Hk)).
  - exact (hk_base _ _ _ _ _ _ Hk).
  - rewrite reshared_zero. exact (hk_secret _ _ _ _ _ _ Hk).
  - intros i Hi. exact (reshared_small i (hk_secret _ _ _ _ _ _ Hk) Hi).
  - rewrite zlen_new_vks. reflexivity.
  - rewrite zlen_new_vks. pose proof (rs_degree _ _ _ _ _ _ _ _ Hr) as Hd. pose proof (se_members _ _ _ _ _ _ Hs) as Hn. clear -Ht Hd Hn. lia.
Qed.

(** ** The evidence is accepted *)

Definition as_stored (r : dao_share_set_record) : dao_share_set_record :=
  {| ss_version := 2; ss_share_set_id := ss_share_set_id r; ss_height := ss_height r; ss_threshold := ss_threshold r;
     ss_key_id := ss_key_id r; ss_committee_id_hash := ss_committee_id_hash r; ss_committee_members := ss_committee_members r;
     ss_VK_i := ss_VK_i r; ss_base_share_set_id := ss_base_share_set_id r; ss_contributions := ss_contributions r;
     ss_contributor_indices := ss_contributor_indices r; ss_contributor_vk := ss_contributor_vk r |}.

(** The key record that the resharing is for. *)
Record key_of (key_rec : dao_tally_key_record) : Prop := {
  ko_modulus : deserialize_modulus (tk_N key_rec) = Some pk;
  ko_group : key_group key_rec = Some grp;
  ko_V : tk_V key_rec = V;
  ko_id : tk_key_id key_rec = rc_key_id cfg;
}.

Context (key_rec : dao_tally_key_record) (Hkey : key_of key_rec).
Context (contribs : list dao_reshare_contribution) (Hmade : Forall2 (made pk V grp f mu (seqZ 1 n)) cs contribs).
Notation kept := (kept cfg f mu cs contribs).
Context (blobs : list bytes).
Context (Hblobs : Forall2 (fun c blob => dao_reshare_serialize_public c = Some blob /\ blob_ok blob /\
    dao_reshare_deserialize_public blob = Some (without_shares c)) kept blobs).
Notation record := (final_record cfg f cs t blobs).

Lemma contribution_checked co c blob : co ∈ cs -> made pk V grp f mu [j_local cfg] co c ->
  dao_reshare_deserialize_public blob = Some (without_shares c) ->
  check_contribution pk grp (tk_V key_rec) (blob, (co_index co, lc_VK_i (co_ctx co))) = Some (without_shares c).
Proof.
  intros Hco [Hy Hc] D. unfold check_contribution. rewrite D. cbn [mbind option_bind without_shares ct_contributor_index ct_link_ctx ct_link_proof ct_commits ct_coeff_proofs].
  pose proof (rs_index _ _ _ _ _ _ _ _ (se_resharing _ _ _ _ _ _ Hs)) as Fi. rewrite Forall_forall in Fi.
  rewrite (cm_index _ _ _ _ _ _ _ _ _ Hc), (Fi co Hco), Z.eqb_refl. cbn [negb].
  pose proof (made_public pk (se_pk _ _ _ _ _ _ Hs) V grp _ _ _ _ _ _ Hc) as Ev.
  destruct (cm_ctx _ _ _ _ _ _ _ _ _ Hc) as (m & _ & Ec). rewrite Ec in *. cbn [with_constant lc_VK_i lc_V] in *.
  rewrite (cy_VK _ _ _ _ _ _ _ _ Hy), (cy_V _ _ _ _ _ _ _ _ Hy), (ko_V _ Hkey), !beq_refl. unfold verification_key at 1 2.
  rewrite (length_ct_bytes pk (se_pk _ _ _ _ _ _ Hs)), Nat.eqb_refl. cbn [negb]. by rewrite Ev.
Qed.

Lemma evidence_accepted : reshare_contributions_ok pk key_rec blobs (map co_index cs) (map (fun c => lc_VK_i (co_ctx c)) cs)
  (rc_new_members cfg) new_vks = true.
Proof.
  unfold reshare_contributions_ok. rewrite (ko_group _ Hkey). pose proof (kept_made cfg f mu cs contribs Hmade) as Fk.
  assert (mapM (check_contribution pk grp (tk_V key_rec)) (zip blobs (zip (map co_index cs) (map (fun c => lc_VK_i (co_ctx c)) cs)))
    = Some (map without_shares kept)) as ->.
  { pose proof (Forall2_length _ _ _ Hblobs) as Lb. pose proof (Forall2_length _ _ _ Fk) as Lk. apply mapM_Some, Forall2_same_length_lookup_2.
    { rewrite !length_zip, !length_map. lia. }
    intros i [blob [ix vk]] c' Hx Hc'. apply lookup_zip_Some in Hx as [Hb Hx]. apply lookup_zip_Some in Hx as [Hix Hvk].
    rewrite lookup_map in Hix. rewrite lookup_map in Hvk. rewrite lookup_map in Hc'. destruct (cs !! i) as [co|] eqn:Hco; [|done].
    destruct (kept !! i) as [c|] eqn:Hc; [|done]. cbn in Hix, Hvk, Hc'. injection Hix as <-. injection Hvk as <-. injection Hc' as <-.
    destruct (Forall2_lookup_lr _ _ _ i c blob Hblobs Hc Hb) as (_ & _ & D). apply contribution_checked; [by apply list_elem_of_lookup_2 in Hco| |exact D].
    exact (Forall2_lookup_lr _ _ _ i co c Fk Hco Hc). }
  pose proof (vks_computed cfg f mu cs T t Hs contribs Hmade) as Ev. unfold dao_reshare_compute_all_vks in *.
  assert (is_empty (map without_shares kept) = is_empty kept) as -> by (by destruct kept).
  assert (map ct_commits (map without_shares kept) = map ct_commits kept) as -> by (rewrite map_map; done).
  rewrite Ev. by apply bool_decide_eq_true_2.
Qed.

Lemma record_evidence : use_evidence key_rec (Some (as_stored record)) = Some (as_stored record).
Proof.
  unfold use_evidence. cbn [as_stored final_record ss_key_id ss_contributions ss_contributor_indices ss_contributor_vk].
  pose proof (Forall2_length _ _ _ Hblobs) as Lb. pose proof (Forall2_length _ _ _ (kept_made cfg f mu cs contribs Hmade)) as Lk.
  pose proof (cs_length cfg f mu cs T t Hs) as Lc. pose proof (T_range cfg f mu cs T t Hs) as HT.
  rewrite (se_key _ _ _ _ _ _ Hs), (ko_id _ Hkey), beq_refl, !length_map, <- Lb, Lk, !Nat.eqb_refl.
  by rewrite (proj2 (is_empty_false _)) by (intros E; rewrite E in Lb; unfold zlen in Lc; cbn in Lb; lia).
Qed.

Lemma record_decides : rc_new_share_set_id cfg <> 0 -> decides_with key_rec pk (Some (as_stored record)) (t + 1) new_vks.
Proof.
  intros Hid. unfold decides_with. rewrite record_evidence. pose proof (n_range cfg f mu cs T t Hs) as Hn.
  cbn [as_stored final_record ss_share_set_id ss_threshold ss_VK_i ss_committee_members ss_contributions ss_contributor_indices ss_contributor_vk].
  split; [exact Hid|]. split; [done|]. split; [done|]. split; [intros E; rewrite E in Hn; unfold zlen in Hn; cbn [length] in Hn; lia|].
  split; [pose proof zlen_new_vks as Lv; unfold zlen in Lv; lia|]. split; [|exact evidence_accepted].
  apply Forall_map, Forall_true. intros j. apply (length_ct_bytes pk (se_pk _ _ _ _ _ _ Hs)).
Qed.

Lemma record_wf : u64_ok (rc_height cfg) -> share_set_wf (as_stored record).
Proof.
  intros Hh. pose proof (n_range cfg f mu cs T t Hs) as Hn. pose proof (Forall2_length _ _ _ Hblobs) as Lb.
  pose proof (Forall2_length _ _ _ (kept_made cfg f mu cs contribs Hmade)) as Lk. destruct (se_threshold _ _ _ _ _ _ Hs) as [_ Ht].
  pose proof (se_resharing _ _ _ _ _ _ Hs) as Hr. pose proof (committee_bound _ (rs_distinct _ _ _ _ _ _ _ _ Hr) (rs_members _ _ _ _ _ _ _ _ Hr)) as Bc.
  pose proof (rs_degree _ _ _ _ _ _ _ _ Hr) as Hdeg. unfold zlen in Bc. rewrite length_map in Bc.
  split; cbn [as_stored final_record ss_version ss_share_set_id ss_height ss_threshold ss_key_id ss_committee_id_hash
    ss_committee_members ss_VK_i ss_base_share_set_id ss_contributions ss_contributor_indices ss_contributor_vk].
  - done.
  - exact (proj2 (se_ids _ _ _ _ _ _ Hs)).
  - exact Hh.
  - clear -Hn. lia.
  - clear -Ht Hdeg. lia.
  - exact (se_key _ _ _ _ _ _ Hs).
  - apply length_sha256.
  - eapply Forall_impl; [exact (se_member_keys _ _ _ _ _ _ Hs)|]. intros m [priv Hm]. exact (proj1 (public_key_size _ _ Hm)).
  - pose proof zlen_new_vks as Lv. unfold zlen in Lv. clear -Lv. lia.
  - apply Forall_map, Forall_true. intros j. apply (length_ct_bytes pk (se_pk _ _ _ _ _ _ Hs)).
  - exact (proj1 (se_ids _ _ _ _ _ _ Hs)).
  - split; [unfold zlen, DAO_DKG_MAX_COMMITTEE_SIZE in *; clear -Bc Lb Lk; lia|]. clear -Hblobs. revert Hblobs. induction 1 as [|c b l l' (_ & Hb & _) _ IH]; [by apply Forall_nil|by apply Forall_cons].
  - split; [unfold zlen, DAO_DKG_MAX_COMMITTEE_SIZE in *; rewrite length_map; clear -Bc; lia|]. apply Forall_map, Forall_forall. intros co Hco.
    pose proof (index_range cfg f mu cs T t Hs co Hco) as Hi. unfold u32_ok, DAO_DKG_MAX_COMMITTEE_SIZE in *. clear -Hi. lia.
  - split; [unfold zlen, DAO_DKG_MAX_COMMITTEE_SIZE in *; rewrite length_map; clear -Bc; lia|]. apply Forall_map, Forall_forall. intros co Hco.
    pose proof (cy_VK _ _ _ _ _ _ _ _ (ready cfg f mu cs T t Hs co Hco)) as ->. unfold blob_ok, zlen, verification_key.
    rewrite (length_ct_bytes pk (se_pk _ _ _ _ _ _ Hs)). done.
Qed.

Lemma record_stored : u64_ok (rc_height cfg) ->
  exists l, share_set_serialize record = Some l /\ share_set_deserialize l = Some (as_stored record).
Proof. intros Hh. exact (share_set_roundtrip (as_stored record) (record_wf Hh)). Qed.

End reshared.

(** ** All new members end with the same record *)

(** The part of the configuration that all nodes derive from the chain. *)
Record same_resharing (cfg cfg' : runner_config) : Prop := {
  sr_pk : rc_pk cfg' = rc_pk cfg; sr_grp : rc_grp cfg' = rc_grp cfg; sr_V : rc_V_bytes cfg' = rc_V_bytes cfg;
  sr_indices : rc_new_indices cfg' = rc_new_indices cfg; sr_members : rc_new_members cfg' = rc_new_members cfg;
  sr_old : rc_old_share_set_id cfg' = rc_old_share_set_id cfg; sr_new : rc_new_share_set_id cfg' = rc_new_share_set_id cfg;
  sr_height : rc_height cfg' = rc_height cfg; sr_key : rc_key_id cfg' = rc_key_id cfg;
}.

Section delivery.
Context `{DigestLaws} `{PrivateBoxLaws} `{Crypto}.
Context (cfg : runner_config) (f mu : Z -> Z) (cs : list contributor) (T t : Z).
Context (peers : list (runner_config * list (bytes * bytes))).

(** What a contributor's node is after its start. *)
Definition started (co : contributor) (p : runner_config * list (bytes * bytes)) : runner :=
  fst (start (fst p) (co_rs co) (co_coeffs co) (snd p) new_runner).

(** A new member that is not a contributor has nothing yet; contributor [own] has
    its own contribution. *)
Definition begun (own : option nat) (st : runner) : Prop :=
  match own with
  | None => st = new_runner
  | Some i => exists co drawn, cs !! i = Some co /\ peers !! i = Some (cfg, drawn) /\ st = started co (cfg, drawn)
  end.

Definition covers (own : option nat) (order : list nat) : Prop :=
  forall i, (i < length cs)%nat -> i ∈ order \/ own = Some i.

Context (Hs : session cfg f mu cs T t) (Hpeers : Forall2 (peer cfg f mu T) cs peers).
Notation made_all := (made (rc_pk cfg) (rc_V_bytes cfg) (rc_grp cfg) f mu (seqZ 1 (zlen (rc_new_members cfg)))).

(** What a contributor makes and sends. *)
Record deals_one (x : contributor * (runner_config * list (bytes * bytes))) (y : dao_reshare_contribution * bytes) : Prop := {
  dn_made : made_all (fst x) (fst y);
  dn_sends : sends cfg f mu (fst x) (fst y) (snd y);
  dn_ok : snd (start (fst (snd x)) (co_rs (fst x)) (co_coeffs (fst x)) (snd (snd x)) new_runner) = true;
  dn_sent : rn_sent (started (fst x) (snd x)) = [snd y];
  dn_final : rn_final (started (fst x) (snd x)) = None;
  dn_own : fst (snd x) = cfg -> rn_contributions (started (fst x) (snd x)) = {[co_index (fst x) := received cfg f mu (fst x) (fst y)]};
}.

Lemma deals_made : exists ys, Forall2 deals_one (zip cs peers) ys.
Proof.
  apply Forall_exists_Forall2_l, Forall_lookup. intros i [co p] Hi. apply lookup_zip_Some in Hi as [Hco Hp].
  pose proof (Forall2_lookup_lr _ _ _ i co p Hpeers Hco Hp) as Hpe.
  destruct (start_deals cfg f mu cs T t Hs co p) as (c & m & st & Hm & Hd & Wm & E & E1 & E2 & E3); [by apply list_elem_of_lookup_2 in Hco|done|].
  exists (c, msg_serialize m). split; unfold started; cbn [fst snd]; rewrite ?E; cbn [fst snd]; try done. by exists m.
Qed.

Section dealt.
Context (ys : list (dao_reshare_contribution * bytes)) (Hys : Forall2 deals_one (zip cs peers) ys).
Notation contribs := (map fst ys).
Notation deals := (map snd ys).

Lemma dealt_entry i co p : cs !! i = Some co -> peers !! i = Some p -> exists y, ys !! i = Some y /\ deals_one (co, p) y.
Proof.
  intros Hco Hp. exact (Forall2_lookup_l _ _ _ i (co, p) Hys (proj2 (lookup_zip_Some _ _ _ co p) (conj Hco Hp))).
Qed.

Lemma dealt_length : length ys = length cs.
Proof. pose proof (Forall2_length _ _ _ Hys) as L. rewrite length_zip in L. pose proof (Forall2_length _ _ _ Hpeers). lia. Qed.

Lemma dealt_peer i co : cs !! i = Some co -> exists p y, peers !! i = Some p /\ ys !! i = Some y /\ deals_one (co, p) y.
Proof.
  intros Hco. destruct (Forall2_lookup_l _ _ _ i co Hpeers Hco) as (p & Hp & _). destruct (dealt_entry i co p Hco Hp) as (y & Hy & D). by exists p, y.
Qed.

Lemma dealt_made : Forall2 made_all cs contribs.
Proof.
  apply Forall2_same_length_lookup_2; [by rewrite length_map, dealt_length|]. intros i co c Hco Hc. rewrite lookup_map in Hc.
  destruct (dealt_peer i co Hco) as (p & y & _ & Hy & D). rewrite Hy in Hc. cbn in Hc. injection Hc as <-. exact (dn_made _ _ D).
Qed.

Lemma dealt_sends : Forall2 (fun x d => sends cfg f mu (fst x) (snd x) d) (zip cs contribs) deals.
Proof.
  apply Forall2_same_length_lookup_2; [rewrite length_zip, !length_map, dealt_length; lia|]. intros i [co c] d Hx Hd.
  apply lookup_zip_Some in Hx as [Hco Hc]. rewrite lookup_map in Hc. rewrite lookup_map in Hd.
  destruct (dealt_peer i co Hco) as (p & y & _ & Hy & D). rewrite Hy in Hc, Hd. cbn in Hc, Hd. injection Hc as <-. injection Hd as <-. exact (dn_sends _ _ D).
Qed.

Lemma begun_progress blobs own st : begun own st -> progress cfg f mu cs t contribs blobs st /\
  forall i co, own = Some i -> cs !! i = Some co -> is_Some (rn_contributions st !! co_index co).
Proof.
  intros Hb. pose proof (T_range cfg f mu cs T t Hs) as HT. pose proof (table_size cfg f mu cs T t Hs _ dealt_made) as Hsz.
  assert (forall m : gmap Z dao_reshare_contribution, (size m <= 1)%nat -> m <> table cfg f mu cs contribs) as Hne by (intros m Hm ->; lia).
  destruct own as [i|]; cbn in Hb.
  - destruct Hb as (co & drawn & Hco & Hp & ->). destruct (dealt_entry i co _ Hco Hp) as (y & Hy & D). pose proof (dn_own _ _ D eq_refl) as Eo. pose proof (dn_final _ _ D) as Ef.
    cbn [fst snd] in *. pose proof (table_entry cfg f mu cs T t Hs _ dealt_made i co (fst y) Hco) as Et. rewrite lookup_map, Hy in Et. specialize (Et eq_refl).
    unfold progress. rewrite Eo, Ef. split; [split; [|split; [|done]]|].
    + apply insert_subseteq_l; [exact Et|apply map_empty_subseteq].
    + intros E. destruct (Hne _ ltac:(by rewrite map_size_singleton) E).
    + intros j co' [= <-] Hj. rewrite Hco in Hj. injection Hj as <-. rewrite lookup_singleton_eq. by eexists.
  - subst st. split; [|done]. split; [apply map_empty_subseteq|]. split; [|done]. intros E. destruct (Hne ∅ ltac:(rewrite map_size_empty; lia) E).
Qed.

Lemma member_finishes blobs own st order : Forall2 (fun c blob => dao_reshare_serialize_public c = Some blob /\ blob_ok blob /\
    dao_reshare_deserialize_public blob = Some (without_shares c)) (kept cfg f mu cs contribs) blobs ->
  begun own st -> covers own order -> finished cfg f cs t blobs (deliver cfg cs deals order st).
Proof.
  intros Hblobs Hb Hc. destruct (begun_progress blobs own st Hb) as [Hp Hown].
  destruct (deliver_progress cfg f mu cs T t Hs contribs dealt_made blobs Hblobs deals order st dealt_sends Hp) as ((P1 & P2 & _) & Hgrow & Hin).
  apply P2, all_there; [exact P1|]. intros k co Hco. destruct (Hc k) as [Hk|Hk]; [by apply lookup_lt_Some in Hco|by eapply Hin|].
  destruct (Hown k co Hk Hco) as [v Hv]. exists v. by eapply lookup_weaken.
Qed.

End dealt.

End delivery.

Section agreement.
Context `{DigestLaws} `{PrivateBoxLaws} `{Crypto}.
Context (cfg : runner_config) (f mu : Z -> Z) (cs : list contributor) (T t : Z).
Context (peers : list (runner_config * list (bytes * bytes))).
Context (Hs : session cfg f mu cs T t) (Hpeers : Forall2 (peer cfg f mu T) cs peers).

Lemma same_peer cfg' co p : same_resharing cfg cfg' -> peer cfg f mu T co p -> peer cfg' f mu T co p.
Proof. intros [] []. split; try congruence; by split_and!; intuition congruence. Qed.

Lemma same_record cfg' blobs : same_resharing cfg cfg' -> final_record cfg' f cs t blobs = final_record cfg f cs t blobs.
Proof. intros [E1 E2 E3 E4 E5 E6 E7 E8 E9]. unfold final_record, new_vks. by rewrite E1, E3, E5, E6, E7, E8, E9. Qed.

Lemma same_deals cfg' ys ys' : Forall2 (deals_one cfg f mu) (zip cs peers) ys -> Forall2 (deals_one cfg' f mu) (zip cs peers) ys' ->
  map snd ys = map snd ys'.
Proof.
  intros F. revert ys'. induction F as [|x y xs ys D F IH]; intros ys' F'; inversion F' as [|x' y' xs' ys'' D' F'' E1 E2]; subst; [done|].
  cbn [map]. f_equal; [|by apply IH]. pose proof (dn_sent _ _ _ _ _ D) as E. rewrite (dn_sent _ _ _ _ _ D') in E. by injection E.
Qed.

Lemma same_blob cfg' co c c' d : sends cfg f mu co c d -> sends cfg' f mu co c' d -> dao_reshare_serialize_public c = dao_reshare_serialize_public c'.
Proof.
  intros (m & Dm & Wm & ->) (m' & Dm' & Wm' & E). assert (Some m = Some m') as [= <-] by (by rewrite <- (msg_roundtrip m Wm), E, msg_roundtrip).
  by rewrite (proj1 (do_blob _ _ _ _ _ _ Dm)), (proj1 (do_blob _ _ _ _ _ _ Dm')).
Qed.

Lemma kept_blobs cfg' (ys : list (dao_reshare_contribution * bytes)) : length ys = length cs ->
  mapM dao_reshare_serialize_public (kept cfg' f mu cs (map fst ys)) = mapM dao_reshare_serialize_public (map fst ys).
Proof.
  unfold kept. generalize cs. induction ys as [|y ys IH]; intros [|co l] L; try done. cbn [map zip_with mapM].
  rewrite IH by (cbn in L; lia). done.
Qed.

Lemma same_blobs cfg' ys ys' : Forall2 (deals_one cfg f mu) (zip cs peers) ys -> Forall2 (deals_one cfg' f mu) (zip cs peers) ys' ->
  mapM dao_reshare_serialize_public (map fst ys) = mapM dao_reshare_serialize_public (map fst ys').
Proof.
  intros F F'. pose proof (same_deals cfg' ys ys' F F') as E. revert ys' F' E. induction F as [|x y xs ys D F IH]; intros ys' F' E;
    inversion F' as [|x' y' xs' ys'' D' F'' E1 E2]; subst; [done|]. cbn [map mapM] in *. injection E as E1 E2.
  pose proof (dn_sends _ _ _ _ _ D) as S1. rewrite E1 in S1. rewrite (same_blob cfg' _ _ _ _ S1 (dn_sends _ _ _ _ _ D')), (IH _ F'' E2). done.
Qed.

(** What the resharing ends with. *)
Definition ends_with (deals : list bytes) (record : dao_share_set_record) (cfg' : runner_config) (order : list nat) (st : runner) : Prop :=
  let st' := deliver cfg' cs deals order st in
  rn_final st' = Some record /\
  exists share, rn_local_share st' = Some share /\
    dao_reshare_serialize_signed (reshared f cs (rc_local_new_index cfg')) = Some share.

Lemma resharing_runs : u64_ok (rc_height cfg) -> exists deals record stored,
  Forall2 (fun x d => snd (start (fst (snd x)) (co_rs (fst x)) (co_coeffs (fst x)) (snd (snd x)) new_runner) = true /\
    rn_sent (started (fst x) (snd x)) = [d]) (zip cs peers) deals /\
  share_set_serialize record = Some stored /\ share_set_deserialize stored = Some (as_stored record) /\ share_set_wf (as_stored record) /\
  (exists blobs, record = final_record cfg f cs t blobs) /\
  (forall key_rec, key_of cfg key_rec -> rc_new_share_set_id cfg <> 0 -> use_evidence key_rec (Some (as_stored record)) = Some (as_stored record) /\
     decides_with key_rec (rc_pk cfg) (Some (as_stored record)) (t + 1) (new_vks cfg f cs)) /\
  (forall cfg' own order st, same_resharing cfg cfg' -> session cfg' f mu cs T t -> begun cfg' cs peers own st -> covers cs own order ->
     ends_with deals record cfg' order st).
Proof.
  intros Hh. destruct (deals_made cfg f mu cs T t peers Hs Hpeers) as [ys Hys].
  pose proof (dealt_made cfg f mu cs T peers Hpeers ys Hys) as Hmade.
  destruct (blobs_exist cfg f mu cs T t Hs _ Hmade) as (blobs & Eb & Hblobs).
  pose proof (dealt_length cfg f mu cs T peers Hpeers ys Hys) as Ly.
  destruct (record_stored cfg f mu cs T t Hs _ Hmade blobs Hblobs Hh) as (stored & S1 & S2).
  exists (map snd ys), (final_record cfg f cs t blobs), stored. split.
  { apply Forall2_fmap_r. eapply Forall2_impl; [exact Hys|]. intros x y D. split; [exact (dn_ok _ _ _ _ _ D)|exact (dn_sent _ _ _ _ _ D)]. }
  split; [exact S1|]. split; [exact S2|]. split; [exact (record_wf cfg f mu cs T t Hs _ Hmade blobs Hblobs Hh)|]. split; [by exists blobs|]. split.
  { intros key_rec Hkey Hid. split; [exact (record_evidence cfg f mu cs T t Hs key_rec Hkey _ Hmade blobs Hblobs)|]. exact (record_decides cfg f mu cs T t Hs key_rec Hkey _ Hmade blobs Hblobs Hid). }
  intros cfg' own order st Hsame Hs' Hbegun Hcov.
  assert (Forall2 (peer cfg' f mu T) cs peers) as Hpeers' by (eapply Forall2_impl; [exact Hpeers|]; intros; by apply same_peer).
  destruct (deals_made cfg' f mu cs T t peers Hs' Hpeers') as [ys' Hys'].
  pose proof (dealt_made cfg' f mu cs T peers Hpeers' ys' Hys') as Hmade'.
  destruct (blobs_exist cfg' f mu cs T t Hs' _ Hmade') as (blobs' & Eb' & Hblobs').
  assert (blobs' = blobs) as ->.
  { pose proof (dealt_length cfg' f mu cs T peers Hpeers' ys' Hys') as Ly'. rewrite kept_blobs in Eb, Eb' by done.
    rewrite (same_blobs cfg' ys ys' Hys Hys'), Eb' in Eb. by injection Eb. }
  destruct (member_finishes cfg' f mu cs T t peers Hs' Hpeers' ys' Hys' blobs own st order Hblobs' Hbegun Hcov) as [F1 F2].
  unfold ends_with. rewrite (same_deals cfg' ys ys' Hys Hys'). split; [by rewrite F1, (same_record cfg' blobs Hsame)|].
  eexists. split; [exact F2|]. apply (new_share_fits (rc_pk cfg') (rc_V_bytes cfg') (rc_grp cfg') f mu (proj2 (se_size _ _ _ _ _ _ Hs')) cs T t);
    [exact (se_resharing _ _ _ _ _ _ Hs')|exact (se_poly _ _ _ _ _ _ Hs')|]. exact (proj1 (proj2 (local_index cfg' f mu cs T t Hs'))).
Qed.

End agreement.
