(* ===== verification/ReshareNodeProofs.v ===== *)
(** * A resharing on the nodes of the network

    The nodes of the old and of the new committee start the resharing that the
    chain calls for with configurations that fit together; when the deals have
    been delivered and the result has been committed, the new committee decides
    the tally. *)

From stdpp Require Import sorting.
From Stdlib Require Import Zcong.
From Stdlib Require Import Zmod Zstar.
From S2P Require Import Prelude Archive Crypto GovStore ParamExecution Paillier Threshold DkgProofs Pedersen Reshare ReshareProofs ReshareCodec ReshareCorrect ReshareRunner ReshareRunnerProofs Emission VoteV2 Tally TallyMembers TallyCorrect TallyShare ReshareNode TallyResult TallyShareProofs TallyNode ReshareTally.

(** ** The target *)

Lemma roster_shape n recent : NoDup (roster n recent) /\ zlen (roster n recent) <= DAO_DKG_MAX_COMMITTEE_SIZE.
Proof.
  unfold roster. split.
  - apply (sublist_NoDup _ (merge_sort bytes_le (elements (ready_keys n recent)))); [|apply sublist_take].
    rewrite merge_sort_Permutation. apply NoDup_elements.
  - unfold zlen. rewrite length_take. unfold DAO_DKG_MAX_COMMITTEE_SIZE. lia.
Qed.

Lemma positions_snd ss : map snd (positions ss) = seqZ 1 (zlen (ss_committee_members ss)).
Proof. unfold positions. apply snd_zip. rewrite length_seqZ. unfold zlen. lia. Qed.

Lemma positions_fst ss : map fst (positions ss) = ss_committee_members ss.
Proof. unfold positions. apply fst_zip. rewrite length_seqZ. unfold zlen. lia. Qed.

Lemma positions_elem ss m i : (m, i) ∈ positions ss <-> 1 <= i /\ ss_committee_members ss !! Z.to_nat (i - 1) = Some m.
Proof.
  unfold positions. rewrite list_elem_of_lookup. split.
  - intros [k Hk]. apply lookup_zip_Some in Hk as [Hm Hi]. apply lookup_seqZ in Hi as [-> Hk]. split; [lia|].
    by replace (Z.to_nat (1 + Z.of_nat k - 1)) with k by lia.
  - intros [Hi Hm]. exists (Z.to_nat (i - 1)). apply lookup_zip_Some. split; [done|]. apply lookup_seqZ. apply lookup_lt_Some in Hm. unfold zlen. lia.
Qed.

Record target_shape (tg : reshare_target) : Prop := {
  sp_members : NoDup (rt_new_members tg) /\ DAO_DKG_MIN_COMMITTEE_SIZE <= zlen (rt_new_members tg) <= DAO_DKG_MAX_COMMITTEE_SIZE;
  sp_contributors : sublist (rt_contributors tg) (positions (rt_cur_ss tg));
  sp_enough : ss_threshold (rt_cur_ss tg) <= zlen (rt_contributors tg);
  sp_key : length (tk_key_id (rt_key tg)) = 32%nat;
}.

(** The target has enough contributors, with their positions in the old
    committee, and a committee of legal size. *)
Lemma first_shape ss ready_pks cb nm : NoDup ready_pks -> zlen ready_pks <= DAO_DKG_MAX_COMMITTEE_SIZE ->
  first_reshare ss ready_pks = Some (cb, nm) ->
  (NoDup nm /\ DAO_DKG_MIN_COMMITTEE_SIZE <= zlen nm <= DAO_DKG_MAX_COMMITTEE_SIZE) /\ cb = positions ss.
Proof.
  intros Hn Hl E. unfold first_reshare in E. destruct (Z.ltb_spec (zlen ready_pks) DAO_DKG_MIN_COMMITTEE_SIZE) as [|Hmin]; [done|].
  destruct (bool_decide _); [done|]. destruct (negb _); [done|]. injection E as <- <-. done.
Qed.

Lemma again_shape ss ready_pks ready_now cb nm : NoDup ready_pks -> NoDup (ss_committee_members ss) ->
  zlen (ss_committee_members ss) <= DAO_DKG_MAX_COMMITTEE_SIZE ->
  again_reshare ss ready_pks ready_now = Some (cb, nm) ->
  (NoDup nm /\ DAO_DKG_MIN_COMMITTEE_SIZE <= zlen nm <= DAO_DKG_MAX_COMMITTEE_SIZE) /\ sublist cb (positions ss) /\ ss_threshold ss <= zlen cb.
Proof.
  intros Hr Hm Hl E. unfold again_reshare in E. cbv zeta in E. set (cur := filter is_key (ss_committee_members ss)) in E.
  destruct (Z.ltb_spec (zlen (filter (fun p => is_key (fst p) && bool_decide (fst p ∈ ready_now)) (positions ss))) (ss_threshold ss)) as [|Hc]; [done|].
  destruct (_ <? _); [done|]. destruct (Z.ltb_spec (zlen (merge_sort bytes_le (filter (fun m => m ∈ ready_now) cur ++ take (length cur - length (filter (fun m => m ∈ ready_now) cur)) (filter (fun m => m ∉ cur) ready_pks)))) DAO_DKG_MIN_COMMITTEE_SIZE) as [|Hmin]; [done|].
  injection E as <- <-. assert (length cur <= length (ss_committee_members ss))%nat as Lc by apply length_filter.
  split; [split; [|split; [exact Hmin|]]|split; [apply sublist_filter|exact Hc]].
  - rewrite merge_sort_Permutation. apply NoDup_app. split; [by apply NoDup_filter, NoDup_filter|]. split.
    + intros x Hx Hx'. apply list_elem_of_filter in Hx as [_ Hx]. pose proof (elem_of_sublist _ _ _ Hx' (sublist_take _ _)) as Hin.
      by apply list_elem_of_filter in Hin as [Hin _].
    + eapply sublist_NoDup; [|apply sublist_take]. by apply NoDup_filter.
  - unfold zlen in *. rewrite merge_sort_Permutation, length_app, length_take.
    pose proof (length_filter (fun m => m ∈ ready_now) cur). lia.
Qed.

Lemma reshare_target_shape `{Crypto} n pid end_h tg : reshare_target_for n pid end_h = Some tg ->
  NoDup (ss_committee_members (rt_cur_ss tg)) -> zlen (ss_committee_members (rt_cur_ss tg)) <= DAO_DKG_MAX_COMMITTEE_SIZE ->
  ss_threshold (rt_cur_ss tg) <= zlen (ss_committee_members (rt_cur_ss tg)) -> target_shape tg.
Proof.
  intros E Hm Hl Ht. unfold reshare_target_for in E. apply bind_Some in E as (rec & _ & E). pass_guard E. apply bind_Some in E as (key & _ & E).
  destruct (Nat.eqb_spec (length (tk_key_id key)) 32) as [Hk|]; [|done]. cbn [negb] in E. pass_guard E.
  apply bind_Some in E as ([need cur] & _ & E). apply bind_Some in E as (ss & _ & E). apply bind_Some in E as ([cb nm] & Es & E). injection E as <-.
  cbn [rt_cur_ss rt_new_members rt_contributors rt_key] in *. destruct (roster_shape n (ready_by end_h k_ready_ttl_blocks)) as [R1 R2].
  destruct need.
  - destruct (first_shape _ _ _ _ R1 R2 Es) as [S1 ->]. split; cbn [rt_cur_ss rt_new_members rt_contributors rt_key]; try done. unfold zlen in Ht |- *. rewrite <- (length_map fst (positions ss)), positions_fst. exact Ht.
  - destruct (again_shape _ _ _ _ _ R1 Hm Hl Es) as (S1 & S2 & S3). by split.
Qed.

(** ** Multipliers fit *)

Lemma basis_at_zero i l : l ⊆ committee -> Z.abs (basis i l 0) <= 16 ^ Z.of_nat (length l).
Proof.
  induction l as [|j l IH]; intros Hs; [done|]. assert (1 <= j <= 16) as Hj by (specialize (Hs j ltac:(left)); unfold committee, DAO_DKG_MAX_COMMITTEE_SIZE in Hs; apply elem_of_seqZ in Hs; lia).
  assert (l ⊆ committee) as Hl by (intros x Hx; apply Hs; by right). specialize (IH Hl). cbn [basis length].
  rewrite Nat2Z.inj_succ, Z.pow_succ_r by lia. pose proof (Z.pow_nonneg 16 (Z.of_nat (length l)) ltac:(lia)). destruct (j =? i); [lia|]. rewrite Z.abs_mul. nia.
Qed.

Lemma lagrange_mu_bound subset i mu : NoDup subset -> subset ⊆ committee -> (2 <= length subset)%nat -> i ∈ subset ->
  dao_dkg_lagrange_mu subset i = Some mu -> Z.abs mu < 256 ^ 512.
Proof.
  intros Hd Hs Hl Hi E. rewrite lagrange_mu_spec in E by done. injection E as <-. pose proof (cofactor_spec subset Hd Hs i Hi) as C.
  pose proof (basis_at_zero i subset Hs) as B. pose proof (basis_nonzero i subset) as Nz. pose proof (committee_bound subset Hd Hs) as L. unfold zlen in L.
  assert (Z.abs (cofactor subset i) <= dao_dkg_delta) as Hc.
  { rewrite <- (Z.abs_eq dao_dkg_delta), <- C, Z.abs_mul by done. nia. }
  rewrite Z.abs_mul. eapply Z.le_lt_trans; [apply Z.mul_le_mono_nonneg; [lia|exact Hc|lia|]|].
  - etransitivity; [exact B|]. change (2 ^ 4) with 16 in L. apply Z.pow_le_mono_r; [done|exact L].
  - change 256 with (2 ^ 8). rewrite <- Z.pow_mul_r by done. eapply Z.lt_trans; [|apply (Z.pow_lt_mono_r 2 200); done]. by vm_compute.
Qed.

(** ** Positions *)

Lemma sublist_map {A B} (g : A -> B) l k : sublist l k -> sublist (map g l) (map g k).
Proof. induction 1; cbn [map]; by constructor. Qed.

Lemma position_of_in m l : m ∈ l -> 1 <= position_of m l <= zlen l /\ l !! Z.to_nat (position_of m l - 1) = Some m.
Proof.
  intros Hm. unfold position_of. destruct (list_find (fun x => x = m) l) as [[i x]|] eqn:E.
  - apply list_find_Some in E as (Hi & -> & _). replace (Z.to_nat (Z.of_nat i + 1 - 1)) with i by lia. split; [|done].
    apply lookup_lt_Some in Hi. unfold zlen. lia.
  - apply list_find_None in E. rewrite Forall_forall in E. by destruct (E m Hm).
Qed.

Lemma position_of_out m l : m ∉ l -> position_of m l = 0.
Proof.
  intros Hm. unfold position_of. destruct (list_find _ l) as [[i x]|] eqn:E; [|done]. apply list_find_Some in E as (Hi & -> & _).
  destruct Hm. by apply list_elem_of_lookup_2 in Hi.
Qed.

Lemma position_of_nodup m l k : NoDup l -> l !! k = Some m -> position_of m l = Z.of_nat k + 1.
Proof.
  intros Hd Hk. destruct (position_of_in m l (list_elem_of_lookup_2 _ _ _ Hk)) as [Hr Hp].
  pose proof (NoDup_lookup _ _ _ _ Hd Hk Hp). lia.
Qed.

Lemma find_position m l : m ∈ l -> list_find (fun x => x = m) l = Some (Z.to_nat (position_of m l - 1), m).
Proof.
  intros Hm. unfold position_of. destruct (list_find (fun x => x = m) l) as [[i x]|] eqn:E.
  - apply list_find_Some in E as (_ & -> & _). do 2 f_equal. lia.
  - apply list_find_None in E. rewrite Forall_forall in E. by destruct (E m Hm).
Qed.

(** ** The configurations *)

(** The randomness a node draws for a resharing to [k] members. *)
Definition drawn_ok `{PrivateBox} (grp : dao_vss_group) (k : nat) (d : reshare_draw) : Prop :=
  length (rd_drawn d) = k /\
  Forall (fun x => is_Some (secret_key_to_public_key (fst x)) /\ length (snd x) = DAO_DKG_PRIVATE_NONCE_SIZE) (rd_drawn d) /\
  (forall l, Z.abs (rd_rs d l) < 2 ^ (WITNESS_BITS + STATISTICAL_BITS)) /\ (forall j, coeff_drawn grp (rd_coeffs d j)).

Section chain.
Context `{DigestLaws} `{PrivateBoxLaws} `{Crypto}.
Context (pid : hash) (end_h : Z) (tg : reshare_target) (genesis : hash).
Context (pk : PaillierPublicKey) (grp : dao_vss_group) (f : Z -> Z) (theta : Z).
Context (node_of : bytes -> reshare_node * reshare_draw).
Notation key := (rt_key tg).
Notation ss := (rt_cur_ss tg).
Notation T := (ss_threshold ss).
Notation members := (rt_new_members tg).
Notation n := (zlen members).

(** The contributors, their multipliers and the number of coefficients. *)
Definition subset : list Z := take (Z.to_nat T) (map snd (rt_contributors tg)).
Definition multiplier (i : Z) : Z := default 0 (dao_dkg_lagrange_mu subset i).
Definition new_degree : Z := dao_dkg_expected_threshold n - 1.
Definition old_key (i : Z) : bytes := nth (Z.to_nat (i - 1)) (ss_committee_members ss) [].

(** The old committee holds the key that the votes are encrypted with, and the
    keys of the new committee are those of nodes. *)
Record held : Prop := {
  hd_modulus : deserialize_modulus (tk_N key) = Some pk;
  hd_group : key_group key = Some grp;
  hd_vss : vss_ok grp;
  hd_size : (0 < BN_num_bytes (vss_P grp) <= 1024)%nat;
  hd_holds : holds_key pk (tk_V key) f T theta (ss_VK_i ss);
  hd_T : 2 <= T;
  hd_old : NoDup (ss_committee_members ss) /\ length (ss_VK_i ss) = length (ss_committee_members ss);
  hd_keys : Forall (fun m => exists priv, secret_key_to_public_key priv = Some m) members;
  hd_ids : 0 <= rt_cur_id tg < 2 ^ 32 - 1;
  hd_genesis : length genesis = 32%nat;
  hd_height : u64_ok end_h;
}.

(** The node with key [m] is on this chain and idle. *)
Record takes_part (m : bytes) : Prop := {
  tp_key : secret_key_to_public_key (rx_priv (fst (node_of m))) = Some m;
  tp_target : reshare_target_for (fst (node_of m)) pid end_h = Some tg;
  tp_ready : rx_send (fst (node_of m)) = true /\ rx_runner (fst (node_of m)) = None;
  tp_genesis : nth 0 (rx_blocks (fst (node_of m))) null_hash = genesis;
  tp_drawn : drawn_ok grp (length members) (snd (node_of m));
}.

(** The share of position [i] is stored where its node reads it. *)
Definition holds_share (i : Z) : Prop :=
  exists packed raw, tn_local_shares (rx_tally (fst (node_of (old_key i)))) !! (rt_cur_id tg, i) = Some packed /\
    dao_unpack_local_share packed (tk_key_id key) = Some raw /\ dao_load_local_share_value raw = Some (f i).

Context (Hshape : target_shape tg) (Hheld : held).
Context (Hold : forall i, i ∈ subset -> takes_part (old_key i) /\ holds_share i).
Context (Hnew : forall m, m ∈ members -> takes_part m).

Lemma subset_sublist : sublist subset (seqZ 1 (zlen (ss_committee_members ss))).
Proof.
  unfold subset. etransitivity; [apply sublist_take|]. rewrite <- positions_snd. apply sublist_map, Hshape.
Qed.

Lemma old_size : zlen (ss_committee_members ss) = zlen (ss_VK_i ss) /\ zlen (ss_VK_i ss) <= DAO_DKG_MAX_COMMITTEE_SIZE.
Proof. pose proof (proj2 (hd_old Hheld)) as L. unfold zlen at 1 2. rewrite L. split; [done|]. exact (proj2 (hk_size _ _ _ _ _ _ (hd_holds Hheld))). Qed.

Lemma subset_range i : i ∈ subset -> 1 <= i <= zlen (ss_VK_i ss).
Proof. intros Hi. pose proof (elem_of_sublist _ _ _ Hi subset_sublist) as Hin. apply elem_of_seqZ in Hin. destruct old_size. lia. Qed.

Lemma subset_ok : NoDup subset /\ subset ⊆ committee /\ zlen subset = T.
Proof.
  destruct old_size as [E L]. split; [|split].
  - eapply sublist_NoDup; [|exact subset_sublist]. apply NoDup_seqZ.
  - intros i Hi. apply elem_of_seqZ. pose proof (subset_range i Hi). lia.
  - unfold subset, zlen. rewrite length_take, length_map. pose proof (sp_enough _ Hshape) as He. unfold zlen in He. pose proof (hd_T Hheld). lia.
Qed.

Lemma subset_member i : i ∈ subset -> ss_committee_members ss !! Z.to_nat (i - 1) = Some (old_key i).
Proof.
  intros Hi. pose proof (subset_range i Hi). destruct old_size as [E _]. unfold old_key.
  destruct (nth_lookup_or_length (ss_committee_members ss) (Z.to_nat (i - 1)) []) as [->|L]; [done|]. unfold zlen in *. lia.
Qed.

(** *** The contributors *)

Definition ctx_of (i : Z) : dao_reshare_link_context :=
  {| lc_genesis_block_hash := genesis; lc_stable_key_record_hash := replicate 32 0; lc_share_set_id := rt_cur_id tg;
     lc_contributor_pubkey := old_key i; lc_original_index := i; lc_contributor_subset := subset; lc_N := tk_N key;
     lc_V := tk_V key; lc_VK_i := nth (Z.to_nat (i - 1)) (ss_VK_i ss) []; lc_C_i0 := replicate PAILLIER_CT_BYTES 0;
     lc_Delta := binpad dao_dkg_delta 32; lc_mu_i := [] |}.

Definition co_of (i : Z) : contributor :=
  let d := snd (node_of (old_key i)) in
  {| co_index := i; co_ctx := ctx_of i; co_rs := rd_rs d; co_coeffs := map (rd_coeffs d) (seq 0 (Z.to_nat new_degree)) |}.

Definition cs : list contributor := map co_of subset.

Lemma cs_indices : map co_index cs = subset.
Proof. unfold cs. rewrite map_map. apply map_id. Qed.

Lemma new_threshold : dao_dkg_expected_threshold n = (n + 1) / 2 /\ 2 <= dao_dkg_expected_threshold n <= n.
Proof.
  destruct (proj2 (sp_members _ Hshape)) as [H1' H2']. unfold dao_dkg_expected_threshold, DAO_DKG_MIN_COMMITTEE_SIZE, DAO_DKG_MAX_COMMITTEE_SIZE in *.
  rewrite (proj2 (Z.ltb_ge _ _)), (proj2 (Z.ltb_ge _ _)) by lia. cbn [orb]. pose proof (Z.div_mod (n + 1) 2). pose proof (Z.mod_pos_bound (n + 1) 2). lia.
Qed.

Lemma degree_range : 0 < new_degree <= 15.
Proof. unfold new_degree. destruct new_threshold as [_ Ht]. destruct (proj2 (sp_members _ Hshape)) as [_ L]. unfold DAO_DKG_MAX_COMMITTEE_SIZE in L. lia. Qed.

Lemma multiplier_spec i : i ∈ subset -> dao_dkg_lagrange_mu subset i = Some (multiplier i) /\ Z.abs (multiplier i) < 256 ^ 512.
Proof.
  intros Hi. destruct subset_ok as (Hd & Hs & Hl). assert (2 <= length subset)%nat as H2' by (pose proof (hd_T Hheld); unfold zlen in Hl; lia).
  assert (dao_dkg_lagrange_mu subset i = Some (multiplier i)) as E by (unfold multiplier; by rewrite lagrange_mu_spec).
  split; [exact E|exact (lagrange_mu_bound subset i _ Hd Hs H2' Hi E)].
Qed.

Lemma modulus_shape : BN_bin2bn (tk_N key) = pk_N pk /\ length (tk_N key) = PAILLIER_MODULUS_BYTES.
Proof.
  pose proof (hd_modulus Hheld) as E. unfold deserialize_modulus in E. destruct (Nat.eqb_spec (length (tk_N key)) PAILLIER_MODULUS_BYTES) as [L|]; [|done].
  cbn [negb] in E. unfold set_modulus in E. do 3 pass_guard E. injection E as <-. done.
Qed.

Lemma delta_bytes : BN_bn2binpad dao_dkg_delta 32 = Some (binpad dao_dkg_delta 32) /\ BN_bin2bn (binpad dao_dkg_delta 32) = dao_dkg_delta.
Proof. split; [by vm_compute|]. by apply bin2bn_binpad. Qed.

Lemma old_vk i : i ∈ subset -> nth (Z.to_nat (i - 1)) (ss_VK_i ss) [] = verification_key pk (tk_V key) (f i).
Proof. intros Hi. apply (nth_vks pk _ f (zlen (ss_VK_i ss))); [exact (hk_vks _ _ _ _ _ _ (hd_holds Hheld))|exact (subset_range i Hi)]. Qed.

Lemma contributor_ok i : i ∈ subset ->
  contributor_ready pk (tk_V key) grp (co_ctx (co_of i)) (f i) (multiplier i) (co_rs (co_of i)) (co_coeffs (co_of i)).
Proof.
  intros Hi. destruct modulus_shape as [EN LN]. destruct (tp_drawn _ (proj1 (Hold i Hi))) as (_ & _ & Hrs & Hco). pose proof degree_range as Hd.
  split; cbn [co_of co_ctx ctx_of lc_N lc_V lc_VK_i lc_Delta co_rs co_coeffs].
  - exact EN.
  - exact LN.
  - reflexivity.
  - exact (old_vk i Hi).
  - exact (proj2 delta_bytes).
  - exact (proj2 (multiplier_spec i Hi)).
  - eapply Z.lt_trans; [apply (hk_shares _ _ _ _ _ _ (hd_holds Hheld))|apply Z.pow_lt_mono_r; done].
    pose proof (subset_range i Hi). destruct old_size. lia.
  - exact Hrs.
  - unfold zlen. rewrite length_map, length_seq. clear -Hd. lia.
  - apply Forall_map, Forall_true. exact Hco.
Qed.

Lemma resharing_ok : resharing pk (tk_V key) grp f multiplier cs T new_degree.
Proof.
  destruct subset_ok as (Hd & Hs & Hl). pose proof degree_range as Hdeg. split.
  - unfold cs, zlen. rewrite length_map. exact Hl.
  - exact (hd_T Hheld).
  - clear -Hdeg. lia.
  - by rewrite cs_indices.
  - by rewrite cs_indices.
  - rewrite cs_indices. intros i Hi. exact (proj1 (multiplier_spec i Hi)).
  - apply Forall_map, Forall_forall. intros i Hi. exact (contributor_ok i Hi).
  - apply Forall_map, Forall_true. intros i. cbn [co_of co_coeffs]. unfold zlen. rewrite length_map, length_seq. clear -Hdeg. lia.
  - apply Forall_map, Forall_true. done.
  - apply Forall_map, Forall_true. intros i. cbn [co_of co_ctx ctx_of lc_contributor_subset]. by rewrite cs_indices.
Qed.

(** *** The configuration of a node *)

Definition contrib_pos (m : bytes) : Z :=
  if bool_decide (m ∈ map fst (rt_contributors tg)) then position_of m (ss_committee_members ss) else 0.
Definition selected (m : bytes) : bool := negb (contrib_pos m =? 0) && bool_decide (contrib_pos m ∈ subset).

Definition cfg_of (m : bytes) : runner_config :=
  {| rc_pk := pk; rc_grp := grp; rc_V_bytes := tk_V key; rc_delta := dao_dkg_delta;
     rc_new_indices := seqZ 1 n; rc_new_members := members;
     rc_contributor_indices := subset; rc_contributor_members := map old_key subset;
     rc_contributor_vk := map (fun i => nth (Z.to_nat (i - 1)) (ss_VK_i ss) []) subset;
     rc_old_share_set_id := rt_cur_id tg; rc_new_share_set_id := (rt_cur_id tg + 1) mod 2 ^ 32;
     rc_height := end_h; rc_threshold := dao_dkg_expected_threshold n; rc_key_id := tk_key_id key;
     rc_local_party_index := if selected m then contrib_pos m else 0; rc_local_new_index := position_of m members;
     rc_local_s_i := if selected m then Some (f (contrib_pos m)) else None;
     rc_local_mu_i := if selected m then Some (multiplier (contrib_pos m)) else None;
     rc_local_pub := m; rc_local_priv := rx_priv (fst (node_of m));
     rc_link_ctx_base := default (ctx_of (contrib_pos m)) (reshare_link_ctx (fst (node_of m)) tg m (contrib_pos m) subset);
     rc_contributor_threshold := T |}.

Lemma contrib_pos_key m : contrib_pos m <> 0 -> 1 <= contrib_pos m <= zlen (ss_VK_i ss) /\ old_key (contrib_pos m) = m.
Proof.
  unfold contrib_pos. destruct (bool_decide_reflect (m ∈ map fst (rt_contributors tg))) as [Hin|]; [|done]. intros _.
  assert (m ∈ ss_committee_members ss) as Hm.
  { rewrite <- positions_fst. eapply elem_of_sublist; [exact Hin|]. apply sublist_map, Hshape. }
  destruct (position_of_in m _ Hm) as [Hr Hl]. destruct old_size as [E _]. split; [lia|]. unfold old_key. by apply nth_lookup_Some.
Qed.

Lemma contributor_member i : i ∈ subset -> (old_key i, i) ∈ rt_contributors tg.
Proof.
  intros Hi. assert (i ∈ map snd (rt_contributors tg)) as Hin by (eapply elem_of_sublist; [exact Hi|apply sublist_take]).
  apply list_elem_of_fmap in Hin as ([m j] & -> & Hin). cbn [snd].
  pose proof (elem_of_sublist _ _ _ Hin (sp_contributors _ Hshape)) as Hp. apply positions_elem in Hp as [_ Hm]. unfold old_key.
  by rewrite (nth_lookup_Some _ _ _ _ Hm).
Qed.

Lemma contrib_pos_old i : i ∈ subset -> contrib_pos (old_key i) = i /\ selected (old_key i) = true.
Proof.
  intros Hi. pose proof (subset_range i Hi) as Hr. assert (contrib_pos (old_key i) = i) as E.
  { unfold contrib_pos. rewrite bool_decide_eq_true_2 by (apply (list_elem_of_fmap_2 fst _ _ (contributor_member i Hi))).
    rewrite (position_of_nodup _ _ _ (proj1 (hd_old Hheld)) (subset_member i Hi)). lia. }
  split; [done|]. unfold selected. rewrite E, (proj2 (Z.eqb_neq i 0)), bool_decide_eq_true_2 by (done || lia). done.
Qed.

Lemma selected_in m : selected m = true -> contrib_pos m ∈ subset /\ old_key (contrib_pos m) = m.
Proof.
  unfold selected. intros E. apply andb_true_iff in E as [E1 E2]. apply negb_true_iff, Z.eqb_neq in E1. apply bool_decide_eq_true in E2.
  split; [done|]. by apply contrib_pos_key.
Qed.

Lemma entries_ok : mapM (subset_entry tg) subset = Some (map (fun i => (old_key i, nth (Z.to_nat (i - 1)) (ss_VK_i ss) [])) subset).
Proof.
  apply mapM_Some, Forall2_same_length_lookup_2; [by rewrite length_map|]. intros k i y Hi Hy. rewrite lookup_map, Hi in Hy. cbn in Hy. injection Hy as <-.
  apply list_elem_of_lookup_2 in Hi. pose proof (contributor_member i Hi) as Hin. apply list_elem_of_lookup in Hin as [q Hq]. unfold subset_entry.
  assert (NoDup (map snd (rt_contributors tg))) as Hd.
  { eapply sublist_NoDup; [|apply sublist_map, Hshape]. rewrite positions_snd. apply NoDup_seqZ. }
  assert (list_find (fun j => j = i) (map snd (rt_contributors tg)) = Some (q, i)) as ->.
  { apply list_find_Some. split; [by rewrite lookup_map, Hq|]. split; [done|]. intros r y Hy Hr ->.
    assert (r = q); [|lia]. apply (NoDup_lookup _ _ _ i Hd Hy). by rewrite lookup_map, Hq. }
  cbn [mbind option_bind fst]. rewrite lookup_map, Hq. cbn [fmap option_fmap option_map fst mbind option_bind].
  pose proof (subset_range i Hi) as Hr. rewrite (proj2 (Z.ltb_ge _ _)), (proj2 (Z.ltb_ge _ _)) by lia. done.
Qed.

Lemma link_ctx_ok m : takes_part m -> exists ctx, reshare_link_ctx (fst (node_of m)) tg m (contrib_pos m) subset = Some ctx /\
  (contrib_pos m <> 0 -> ctx = ctx_of (contrib_pos m)).
Proof.
  intros Hm. unfold reshare_link_ctx. destruct (Z.eqb_spec (contrib_pos m) 0) as [E|E]; [by eexists|].
  destruct (contrib_pos_key m E) as [Hr Ek].
  destruct (nth_lookup_or_length (ss_VK_i ss) (Z.to_nat (contrib_pos m - 1)) []) as [->|L]; [|unfold zlen in Hr; lia].
  cbn [mbind option_bind]. rewrite (proj1 delta_bytes). cbn [mbind option_bind]. eexists. split; [done|]. intros _. unfold ctx_of.
  by rewrite (tp_genesis _ Hm), Ek.
Qed.

Lemma config_ok m : takes_part m -> selected m = true \/ m ∈ members -> reshare_config (fst (node_of m)) tg end_h = Some (cfg_of m).
Proof.
  intros Hm Hpart. unfold reshare_config. destruct new_threshold as [_ Ht]. rewrite (proj2 (Z.eqb_neq _ 0)) by lia.
  rewrite (tp_key _ Hm). cbn [mbind option_bind]. fold (contrib_pos m).
  assert (position_of m members = 0 -> selected m = true) as Hz.
  { intros E. destruct Hpart as [Hpart|Hpart]; [done|]. apply position_of_in in Hpart. lia. }
  assert ((contrib_pos m =? 0) && (position_of m members =? 0) = false) as ->.
  { destruct (Z.eqb_spec (position_of m members) 0) as [E|]; [|apply andb_false_r]. specialize (Hz E). unfold selected in Hz.
    destruct (contrib_pos m =? 0); done. }
  rewrite (proj2 (Z.ltb_ge _ _) (sp_enough _ Hshape)). fold subset. fold (selected m).
  assert (negb (selected m) && (position_of m members =? 0) = false) as ->.
  { destruct (Z.eqb_spec (position_of m members) 0) as [E|]; [by rewrite (Hz E)|apply andb_false_r]. }
  destruct (link_ctx_ok m Hm) as (ctx & Ec & _).
  assert ((if selected m then x ← local_contribution (fst (node_of m)) tg (contrib_pos m) subset; Some (Some x) else Some None) =
    Some (if selected m then Some (f (contrib_pos m), multiplier (contrib_pos m)) else None)) as ->.
  { destruct (selected m) eqn:Es; [|done]. destruct (selected_in m Es) as [Hi Ek]. destruct (Hold _ Hi) as [_ (packed & raw & E1 & E2 & E3)].
    rewrite Ek in E1. unfold local_contribution. rewrite E1. cbn [mbind option_bind]. rewrite E2. cbn [mbind option_bind]. rewrite E3. cbn [mbind option_bind].
    by rewrite (proj1 (multiplier_spec _ Hi)). }
  cbn [mbind option_bind]. rewrite (hd_group Hheld). cbn [mbind option_bind]. rewrite (hd_modulus Hheld). cbn [mbind option_bind].
  rewrite entries_ok. cbn [mbind option_bind]. unfold cfg_of. rewrite Ec. cbn [mbind option_bind default from_option]. rewrite !map_map. cbn [fst snd].
  by destruct (selected m).
Qed.

Lemma context_ok' i : i ∈ subset -> context_wf (ctx_of i).
Proof.
  intros Hi. pose proof (subset_range i Hi) as Hr. destruct old_size as [_ Ho]. destruct subset_ok as (Hd & Hs & Hl). pose proof (committee_bound _ Hd Hs) as Hb.
  pose proof (proj1 (public_key_size _ _ (tp_key _ (proj1 (Hold i Hi))))) as Lk. destruct modulus_shape as [_ LN].
  pose proof (tk_pk _ _ _ _ (hk_key _ _ _ _ _ _ (hd_holds Hheld))) as Hpk. unfold DAO_DKG_MAX_COMMITTEE_SIZE in *.
  split; cbn [ctx_of lc_genesis_block_hash lc_stable_key_record_hash lc_share_set_id lc_contributor_pubkey lc_original_index
    lc_contributor_subset lc_N lc_V lc_VK_i lc_C_i0 lc_Delta lc_mu_i]; unfold piece_ok, zlen in *; rewrite ?length_replicate.
  - exact (hd_genesis Hheld).
  - done.
  - pose proof (hd_ids Hheld) as Hid. unfold u64_ok. clear -Hid. lia.
  - by rewrite Lk.
  - unfold u32_ok. clear -Hr Ho. lia.
  - clear -Hb. lia.
  - apply Forall_forall. intros j Hj. pose proof (subset_range j Hj) as Hj'. unfold u32_ok, zlen in *. clear -Hj' Ho. lia.
  - by rewrite LN.
  - by rewrite (V_length pk Hpk (tk_V key) (hk_base _ _ _ _ _ _ (hd_holds Hheld))).
  - rewrite (old_vk i Hi). unfold verification_key. by rewrite (length_ct_bytes pk Hpk).
  - done.
  - done.
  - done.
Qed.

Lemma session_ok m : m ∈ members -> session (cfg_of m) f multiplier cs T new_degree.
Proof.
  intros Hm. pose proof (hd_holds Hheld) as Hk. destruct new_threshold as [_ Ht]. destruct (sp_members _ Hshape) as [Hd Hl].
  destruct (position_of_in m members Hm) as [Hp Hlk]. pose proof (hd_ids Hheld) as Hid.
  split; cbn [cfg_of rc_pk rc_grp rc_V_bytes rc_delta rc_new_indices rc_new_members rc_contributor_indices rc_contributor_members rc_contributor_vk
    rc_old_share_set_id rc_new_share_set_id rc_threshold rc_key_id rc_contributor_threshold rc_local_new_index rc_local_priv].
  - exact (tk_pk _ _ _ _ (hk_key _ _ _ _ _ _ Hk)).
  - exact (hk_base _ _ _ _ _ _ Hk).
  - exact (hd_vss Hheld).
  - exact (hd_size Hheld).
  - exact resharing_ok.
  - exact (tk_poly _ _ _ _ (hk_key _ _ _ _ _ _ Hk)).
  - reflexivity.
  - exact (proj2 Hl).
  - exact (hd_keys Hheld).
  - reflexivity.
  - unfold new_degree. clear -Ht. lia.
  - by rewrite cs_indices.
  - unfold cs. by rewrite map_map.
  - unfold cs. by rewrite map_map.
  - reflexivity.
  - exact (sp_key _ Hshape).
  - rewrite Z.mod_small by lia. unfold u64_ok. clear -Hid. lia.
  - apply Forall_map, Forall_forall. intros i Hi. split; [exact (context_ok' i Hi)|reflexivity].
  - exact Hp.
  - rewrite Hlk. exact (tp_key _ (Hnew m Hm)).
Qed.

Lemma peer_ok m i : i ∈ subset -> peer (cfg_of m) f multiplier T (co_of i) (cfg_of (old_key i), rd_drawn (snd (node_of (old_key i)))).
Proof.
  intros Hi. destruct (contrib_pos_old i Hi) as [Ep Es]. destruct (Hold i Hi) as [Ht _]. destruct (tp_drawn _ Ht) as (D1 & D2 & _).
  destruct (link_ctx_ok (old_key i) Ht) as (ctx & Ec & Hctx). pose proof (subset_range i Hi) as Hr.
  split; cbn [fst snd]; cbn [cfg_of rc_pk rc_grp rc_V_bytes rc_delta rc_new_indices rc_new_members rc_old_share_set_id rc_new_share_set_id
    rc_contributor_threshold rc_local_party_index rc_local_s_i rc_local_mu_i rc_link_ctx_base rc_local_pub]; rewrite ?Es, ?Ep; try done.
  rewrite Ep in Ec, Hctx. rewrite Ec. cbn [default from_option]. apply Hctx. lia.
Qed.

Lemma same_ok m m' : same_resharing (cfg_of m) (cfg_of m').
Proof. by split. Qed.

(** *** The run *)

Definition started_node (m : bytes) : reshare_node :=
  maybe_start_dao_v2_reshare_for_proposal pid end_h (snd (node_of m)) (fst (node_of m)).

(** The deals reach a node in some order, with repetitions. *)
Definition deliver_node (deals : list bytes) (order : list nat) (nd : reshare_node) : reshare_node :=
  fold_left (fun nd k => match subset !! k, deals !! k with
                         | Some i, Some d => reshare_message (old_key i) d nd
                         | _, _ => nd
                         end) order nd.

(** Every deal reaches the node of [m], but the one it made itself. *)
Definition reaches (m : bytes) (order : list nat) : Prop :=
  forall k i, subset !! k = Some i -> k ∈ order \/ old_key i = m.

Lemma discard_config nd : reshare_config (discard_tally_shares nd tg pid) tg end_h = reshare_config nd tg end_h.
Proof. unfold discard_tally_shares. by destruct (rt_first tg). Qed.

Notation run m := (start (cfg_of m) (rd_rs (snd (node_of m))) (drawn_coeffs (snd (node_of m)) (cfg_of m)) (rd_drawn (snd (node_of m))) new_runner).

Lemma node_started m : takes_part m -> selected m = true \/ m ∈ members -> snd (run m) = true ->
  started_node m = with_runner (discard_tally_shares (fst (node_of m)) tg pid) (Some (cfg_of m, fst (run m))).
Proof.
  intros Hm Hp Hok. unfold started_node, maybe_start_dao_v2_reshare_for_proposal. destruct (tp_ready _ Hm) as [-> ->]. cbn [negb].
  rewrite (tp_target _ Hm). cbv zeta. rewrite discard_config, (config_ok m Hm Hp). destruct (run m) as [st ok]. cbn [snd] in Hok. subst ok. done.
Qed.

Lemma node_delivered deals order nd cfg st :
  deliver_node deals order (with_runner nd (Some (cfg, st))) = with_runner nd (Some (cfg, deliver cfg cs deals order st)).
Proof.
  revert st. induction order as [|k order IH]; intros st; [done|]. unfold deliver_node, deliver. cbn [fold_left].
  assert (cs !! k = co_of <$> (subset !! k)) as -> by apply lookup_map. destruct (subset !! k) as [i|]; [|exact (IH st)]. cbn [fmap option_fmap option_map]. destruct (deals !! k) as [d|]; [|exact (IH st)].
  exact (IH (handle_dao_v2_reshare_msg cfg (old_key i) d st)).
Qed.

(** The peers of the resharing. *)
Definition peers : list (runner_config * list (bytes * bytes)) :=
  map (fun i => (cfg_of (old_key i), rd_drawn (snd (node_of (old_key i))))) subset.

Lemma peers_ok m : Forall2 (peer (cfg_of m) f multiplier T) cs peers.
Proof.
  apply Forall2_same_length_lookup_2; [unfold cs, peers; by rewrite !length_map|]. intros k co p Hco Hp. unfold cs in Hco. unfold peers in Hp.
  rewrite lookup_map in Hco. rewrite lookup_map in Hp. destruct (subset !! k) as [i|] eqn:Hi; [|done]. cbn in Hco, Hp. injection Hco as <-. injection Hp as <-.
  apply peer_ok. by apply list_elem_of_lookup_2 in Hi.
Qed.

Lemma run_contributor i : i ∈ subset ->
  run (old_key i) = start (cfg_of (old_key i)) (co_rs (co_of i)) (co_coeffs (co_of i)) (rd_drawn (snd (node_of (old_key i)))) new_runner.
Proof. done. Qed.

Lemma run_bystander m : selected m = false -> run m = (new_runner, true).
Proof. intros E. unfold start. cbn [cfg_of rc_local_party_index]. by rewrite E. Qed.

Lemma run_begun m : exists own, begun (cfg_of m) cs peers own (fst (run m)) /\ forall k i, subset !! k = Some i -> old_key i = m -> own = Some k.
Proof.
  destruct (selected m) eqn:Es.
  - destruct (selected_in m Es) as [Hi Ek]. apply list_elem_of_lookup in Hi as [k Hk]. exists (Some k). split.
    + exists (co_of (contrib_pos m)), (rd_drawn (snd (node_of m))). unfold cs, peers. rewrite !lookup_map, Hk. cbn [fmap option_fmap option_map]. rewrite Ek.
      split; [done|]. split; [done|]. unfold started. cbn [fst snd]. unfold co_of. cbn [co_rs co_coeffs]. by rewrite Ek.
    + intros k' i Hk' Eo. f_equal. destruct subset_ok as (Hd & _ & _). apply (NoDup_lookup _ _ _ i Hd); [|exact Hk'].
      destruct (contrib_pos_old i (list_elem_of_lookup_2 _ _ _ Hk')) as [Ep _]. rewrite Eo in Ep. by rewrite <- Ep.
  - exists None. split; [by rewrite run_bystander|]. intros k i Hk Eo.
    destruct (contrib_pos_old i (list_elem_of_lookup_2 _ _ _ Hk)) as [_ Es']. by rewrite Eo, Es in Es'.
Qed.

(** *** The result *)

Notation new_id := (rt_cur_id tg + 1).

(** The tables of the node of [m] once [record] and its share are written. *)
Definition committed (record : dao_share_set_record) (packed : bytes) (m : bytes) : tally_node :=
  let old := rx_tally (discard_tally_shares (fst (node_of m)) tg pid) in
  {| tn_chain := tn_chain old; tn_tally_key := tn_tally_key old; tn_share_sets := <[new_id := record]> (tn_share_sets old);
     tn_local_shares := <[(new_id, position_of m members) := packed]> (tn_local_shares old);
     tn_current_share_set := tn_current_share_set old; tn_tally_shares := tn_tally_shares old |}.

(** The node of [m] after the deals have reached it and the result has been
    committed. *)
Definition final_node (deals : list bytes) (order : list nat) (m : bytes) : reshare_node * bool :=
  maybe_commit_dao_v2_reshare (deliver_node deals order (started_node m)).

(** What the node of [m] has in the end: the record and its new share. *)
Definition has_result (record : dao_share_set_record) (m : bytes) (r : reshare_node * bool) : Prop :=
  snd r = true /\ rx_runner (fst r) = None /\
  exists packed raw, rx_tally (fst r) = committed record packed m /\
    dao_unpack_local_share packed (tk_key_id key) = Some raw /\ bn_from_signed_share raw = Some (reshared f cs (position_of m members)).

Lemma commit_ok m cfg st record stored share : takes_part m -> m ∈ members -> rn_final st = Some record -> rn_local_share st = Some share ->
  share_set_serialize record = Some stored -> share_set_deserialize stored = Some (as_stored record) ->
  ss_share_set_id record = new_id -> ss_key_id record = tk_key_id key -> ss_committee_members record = members ->
  dao_reshare_serialize_signed (reshared f cs (position_of m members)) = Some share ->
  has_result (as_stored record) m
    (maybe_commit_dao_v2_reshare (with_runner (discard_tally_shares (fst (node_of m)) tg pid) (Some (cfg, st)))).
Proof.
  intros Hm Hin Ef El Es Ed Ei Ek Em Esh. pose proof (sp_key _ Hshape) as Lk. destruct (position_of_in m members Hin) as [Hp _].
  set (nd := discard_tally_shares (fst (node_of m)) tg pid).
  assert (secret_key_to_public_key (rx_priv nd) = Some m) as Epriv by (subst nd; unfold discard_tally_shares; destruct (rt_first tg); exact (tp_key _ Hm)).
  unfold maybe_commit_dao_v2_reshare. cbn [with_runner rx_runner]. rewrite Ef. unfold commit_record, add_dao_share_set. cbn [with_runner rx_tally rx_priv].
  rewrite Es, El, Epriv. cbn [mbind option_bind]. rewrite Ed, Ek, Lk, Nat.eqb_refl, Em, (find_position m members Hin). cbn [negb].
  assert (share <> []) as Hne.
  { intros ->. apply signed_pad_length in Esh. done. }
  assert (is_empty (dao_pack_local_share (tk_key_id key) share) = false) as ->.
  { unfold dao_pack_local_share. by rewrite Lk, (proj2 (is_empty_false _) Hne). }
  split; [done|]. split; [done|]. exists (dao_pack_local_share (tk_key_id key) share), share. cbn [fst with_runner with_tally rx_tally]. rewrite Ei.
  pose proof (hd_ids Hheld) as Hid. rewrite (Z.mod_small new_id) by lia. replace (Z.of_nat (Z.to_nat (position_of m members - 1)) + 1) with (position_of m members) by lia.
  split; [done|]. split; [by apply pack_unpack|]. exact (proj1 (proj2 (stored_share_read _) share Esh)).
Qed.

Lemma network_reshares : exists deals record,
  length deals = length subset /\
  (forall k i, subset !! k = Some i -> exists d st, deals !! k = Some d /\ rx_runner (started_node (old_key i)) = Some (cfg_of (old_key i), st) /\ rn_sent st = [d]) /\
  share_set_wf record /\ ss_share_set_id record = new_id /\ ss_key_id record = tk_key_id key /\ ss_VK_i record = new_vks (cfg_of (old_key 1)) f cs /\
  use_evidence key (Some record) = Some record /\ decides_with key pk (Some record) (dao_dkg_expected_threshold n) (ss_VK_i record) /\
  holds_key pk (tk_V key) (reshared f cs) (dao_dkg_expected_threshold n) theta (ss_VK_i record) /\
  forall m order, m ∈ members -> reaches m order -> has_result record m (final_node deals order m).
Proof.
  assert (exists m0, m0 ∈ members) as [m0 Hm0].
  { destruct (proj2 (sp_members _ Hshape)) as [Hl _]. destruct members as [|m0 l]; [done|]. exists m0. left. }
  pose proof (session_ok m0 Hm0) as Hs. pose proof (hd_ids Hheld) as Hid.
  assert (rc_new_share_set_id (cfg_of m0) = new_id) as Eid by (cbn [cfg_of rc_new_share_set_id]; apply Z.mod_small; lia).
  destruct (resharing_runs (cfg_of m0) f multiplier cs T new_degree peers Hs (peers_ok m0) (hd_height Hheld))
    as (deals & record & stored & Fd & Es & Ed & Wf & (blobs & ->) & Hdec & Hend).
  pose proof (Forall2_length _ _ _ Fd) as Ld. unfold cs, peers in Ld. rewrite length_zip, !length_map, Nat.min_id in Ld.
  assert (new_degree + 1 = dao_dkg_expected_threshold n) as Edeg by (unfold new_degree; lia).
  exists deals, (as_stored (final_record (cfg_of m0) f cs new_degree blobs)). split; [done|]. split.
  { intros k i Hk. destruct (lookup_lt_is_Some_2 deals k) as [d Hd]; [apply lookup_lt_Some in Hk; lia|].
    pose proof (Forall2_lookup_lr _ _ _ k (co_of i, (cfg_of (old_key i), rd_drawn (snd (node_of (old_key i))))) d Fd) as F.
    destruct F as [F1 F2]; [apply lookup_zip_Some; unfold cs, peers; by rewrite !lookup_map, Hk|done|]. cbn [fst snd] in F1.
    pose proof (list_elem_of_lookup_2 _ _ _ Hk) as Hi. exists d. eexists. split; [exact Hd|].
    rewrite (node_started (old_key i)); [|exact (proj1 (Hold i Hi))|left; exact (proj2 (contrib_pos_old i Hi))|exact F1]. split; [reflexivity|exact F2]. }
  cbn [as_stored final_record ss_share_set_id ss_key_id ss_VK_i].
  split; [exact Wf|]. split; [exact Eid|]. split; [done|]. split; [done|]. rewrite <- Edeg. apply and_assoc. split.
  { apply (Hdec key); [|rewrite Eid; lia]. split; [exact (hd_modulus Hheld)|exact (hd_group Hheld)|done|done]. }
  split; [exact (reshared_holds (cfg_of m0) f multiplier cs T new_degree Hs theta _ (hd_holds Hheld))|].
  intros m order Hm Hr. unfold final_node. destruct (run_begun m) as (own & Hb & Hown).
  assert (snd (run m) = true) as Hok.
  { destruct (selected m) eqn:Es'; [|by rewrite run_bystander]. destruct (selected_in m Es') as [Hi Ek]. apply list_elem_of_lookup in Hi as [k Hk].
    destruct (lookup_lt_is_Some_2 deals k) as [d Hd]; [apply lookup_lt_Some in Hk; lia|].
    pose proof (Forall2_lookup_lr _ _ _ k (co_of (contrib_pos m), (cfg_of (old_key (contrib_pos m)), rd_drawn (snd (node_of (old_key (contrib_pos m)))))) d Fd) as F.
    destruct F as [F1 _]; [apply lookup_zip_Some; unfold cs, peers; by rewrite !lookup_map, Hk|done|]. cbn [fst snd] in F1. unfold co_of in F1. cbn [co_rs co_coeffs] in F1.
    by rewrite Ek in F1. }
  rewrite (node_started m (Hnew m Hm) (or_intror Hm) Hok), node_delivered.
  destruct (Hend (cfg_of m) own order (fst (run m)) (same_ok m0 m) (session_ok m Hm) Hb) as [E1 (share & E2 & E3)].
  { intros k Hk. unfold cs in Hk. rewrite length_map in Hk. apply lookup_lt_is_Some_2 in Hk as [i Hi]. destruct (Hr k i Hi) as [Hin|Eo]; [by left|right; by eapply Hown]. }
  exact (commit_ok m _ _ _ stored share (Hnew m Hm) Hm E1 E2 Es Ed Eid eq_refl eq_refl E3).
Qed.

(** *** The tally by the new committee *)

(** The votes are counted and wait for their result, whichever committee decides
    it. *)
Record votes_closed (chain : tally_state) (snap : dao_supply_snapshot) (agg : dao_proposal_aggregate) (prop : proposal_record)
    (h q yes no B : Z) : Prop := {
  vc_due : result_due chain key snap agg prop pid h;
  vc_usable : key_usable key pk;
  vc_key : tally_key_id prop = tk_key_id key /\ tk_key_id key <> null_hash;
  vc_snap : snap_height snap = voting_end_height prop;
  vc_sizes : length pid = 32%nat /\ u64_ok (voting_end_height prop) /\ zlen (tk_V_K_i key) <= DAO_DKG_MAX_COMMITTEE_SIZE;
  vc_W : enc_of pk (aggregate_E_W agg) (yes + no);
  vc_S : enc_of pk (aggregate_E_S agg) (yes - no);
  vc_B : enc_of pk (aggregate_E_B agg) B;
  vc_weights : 0 <= yes /\ 0 <= no /\ yes + no <= W_MAX /\ 2 * (yes + no) < pk_N pk;
  vc_balances : 0 <= B < 2 ^ 128 /\ B < pk_N pk;
  vc_quorum : 0 <= q <= 100 /\ 0 <= snap_circulating snap < 2 ^ 120;
}.

Lemma latest_insert sets (r : dao_share_set_record) : ss_key_id r = tk_key_id key -> latest_share_set_id_for_key_id sets (tk_key_id key) = rt_cur_id tg ->
  latest_share_set_id_for_key_id (<[new_id := r]> sets) (tk_key_id key) = new_id.
Proof.
  intros Ek. unfold latest_share_set_id_for_key_id. rewrite (sp_key _ Hshape). cbn [negb Nat.eqb].
  set (step := fun sid rec best => if (length (ss_key_id rec) =? 32)%nat && beq (ss_key_id rec) (tk_key_id key) then Z.max sid best else best).
  pose proof (hd_ids Hheld) as Hid. intros El.
  assert (forall k r' y, step k r' y = y \/ step k r' y = Z.max k y) as Hstep by (intros k r' y; unfold step; destruct (_ && _); [by right|by left]).
  assert (forall j1 j2 z1 z2 y, step j1 z1 (step j2 z2 y) = step j2 z2 (step j1 z1 y)) as Hcomm.
  { intros. unfold step. destruct (_ && _), (_ && _); lia. }
  assert (map_fold step 0 (delete new_id sets) <= rt_cur_id tg) as Hle.
  { destruct (sets !! new_id) as [r'|] eqn:E'; [|by rewrite delete_id, El by done].
    rewrite (map_fold_delete_L step 0 new_id r' sets) in El; [|intros; apply Hcomm|exact E'].
    destruct (Hstep new_id r' (map_fold step 0 (delete new_id sets))) as [E|E]; rewrite E in El; lia. }
  rewrite <- insert_delete_eq, map_fold_insert_L; [|intros; apply Hcomm|apply lookup_delete_eq].
  unfold step at 1. rewrite Ek, (sp_key _ Hshape), beq_refl. cbn [andb Nat.eqb]. lia.
Qed.

Section tally.
Context (chain : tally_state).
Context (Hchain : forall m, m ∈ members -> tn_chain (rx_tally (fst (node_of m))) = chain /\
  latest_share_set_id_for_key_id (tn_share_sets (rx_tally (fst (node_of m)))) (tk_key_id key) = rt_cur_id tg).
Context (record : dao_share_set_record) (Hwf : share_set_wf record) (Hid : ss_share_set_id record = new_id) (Hkid : ss_key_id record = tk_key_id key).
Context (Hdec : decides_with key pk (Some record) (dao_dkg_expected_threshold n) (ss_VK_i record)).
Context (Hevidence : use_evidence key (Some record) = Some record).
Context (Hholds : holds_key pk (tk_V key) (reshared f cs) (dao_dkg_expected_threshold n) (BN_bin2bn (tk_theta_bytes key)) (ss_VK_i record)).

Lemma discard_tables m : tn_chain (rx_tally (discard_tally_shares (fst (node_of m)) tg pid)) = tn_chain (rx_tally (fst (node_of m))) /\
  tn_share_sets (rx_tally (discard_tally_shares (fst (node_of m)) tg pid)) = tn_share_sets (rx_tally (fst (node_of m))).
Proof. unfold discard_tally_shares. by destruct (rt_first tg). Qed.

Lemma committed_chain m packed : m ∈ members -> tn_chain (committed record packed m) = chain.
Proof. intros Hm. cbn [committed tn_chain]. rewrite (proj1 (discard_tables m)). exact (proj1 (Hchain m Hm)). Qed.

Lemma committed_event m packed : m ∈ members -> node_event (committed record packed m) key = Some record.
Proof.
  intros Hm. unfold node_event. cbn [committed tn_share_sets]. rewrite (proj2 (discard_tables m)).
  rewrite (latest_insert _ record Hkid (proj2 (Hchain m Hm))). pose proof (hd_ids Hheld) as Hr. rewrite (proj2 (Z.eqb_neq _ _)) by lia. apply lookup_insert_eq.
Qed.

Lemma committed_due m packed snap agg prop h q yes no B : m ∈ members -> votes_closed chain snap agg prop h q yes no B ->
  tally_due (committed record packed m) key pk (reshared f cs) (dao_dkg_expected_threshold n) (ss_VK_i record) snap agg prop pid h q yes no B.
Proof.
  intros Hm []. destruct new_threshold as [_ Ht]. split; rewrite ?(committed_event m packed Hm), ?(committed_chain m packed Hm); try assumption.
  - rewrite Hevidence. by intros e [= <-].
  - split; [|clear -Ht; lia]. unfold eff_threshold. pose proof Hdec as D. unfold decides_with in D. rewrite Hevidence in D.
    destruct (use_evidence_some _ _ _ Hevidence) as (_ & Hne & _). rewrite (proj2 (is_empty_false _) Hne). exact (proj1 (proj2 D)).
Qed.

Lemma committed_ready b pb m packed raw : b ∈ members -> m ∈ members -> dao_unpack_local_share packed (tk_key_id key) = Some raw ->
  bn_from_signed_share raw = Some (reshared f cs (position_of m members)) -> length (ss_VK_i record) = length members ->
  member_ready (committed record pb b) (committed record packed m) key (Some record) (ss_VK_i record) (position_of m members)
    (reshared f cs (position_of m members)).
Proof.
  intros Hb Hm Eu Er Lv. split; [by rewrite !committed_chain|]. destruct (position_of_in m members Hm) as [Hp _]. pose proof (hd_ids Hheld) as Hr.
  exists new_id, packed, raw. split.
  { unfold share_source, zlen in *. rewrite (proj2 (Z.ltb_ge _ _)), (proj2 (Z.ltb_ge _ _)), Hid by lia. done. }
  split; [lia|]. split; [|by split]. cbn [committed tn_local_shares]. rewrite (Z.mod_small new_id) by lia. apply lookup_insert_eq.
Qed.

End tally.

End chain.

(** ** The theorems *)

(** The nodes of both committees, on one chain that calls for the resharing [tg]
    of the key. *)
Record network `{PrivateBox} `{Crypto} (pid : hash) (end_h : Z) (tg : reshare_target) (genesis : hash) (pk : PaillierPublicKey)
    (grp : dao_vss_group) (f : Z -> Z) (node_of : bytes -> reshare_node * reshare_draw) (chain : tally_state) : Prop := {
  nw_target : exists m, reshare_target_for (fst (node_of m)) pid end_h = Some tg;
  nw_held : held end_h tg genesis pk grp f (BN_bin2bn (tk_theta_bytes (rt_key tg)));
  nw_old : forall i, i ∈ subset tg -> takes_part pid end_h tg genesis grp node_of (old_key tg i) /\ holds_share tg f node_of i;
  nw_new : forall m, m ∈ rt_new_members tg -> takes_part pid end_h tg genesis grp node_of m /\
    tn_chain (rx_tally (fst (node_of m))) = chain /\
    latest_share_set_id_for_key_id (tn_share_sets (rx_tally (fst (node_of m)))) (tk_key_id (rt_key tg)) = rt_cur_id tg;
}.

Lemma network_shape `{PrivateBox} `{Crypto} pid end_h tg genesis pk grp f node_of chain :
  network pid end_h tg genesis pk grp f node_of chain -> target_shape tg.
Proof.
  intros [[m Ht] Hh _ _]. destruct (hd_old _ _ _ _ _ _ _ Hh) as [Hd Hl]. destruct (hk_size _ _ _ _ _ _ (hd_holds _ _ _ _ _ _ _ Hh)) as [HT HL].
  unfold zlen in HT, HL. apply (reshare_target_shape _ _ _ _ Ht Hd); unfold zlen; clear -HT HL Hl; lia.
Qed.


(** C2: The new committee decides the tally.  When the votes on a proposal are
    counted and the chain has called for a resharing, then after the nodes of the
    new members have received the deals and committed the result, any quorum of
    them produces its partial decryptions from the stored new shares, and the
    tally-result transaction that any of them builds is accepted and has the
    weights, the balances and the verdict of the votes, although the votes were
    encrypted for the old committee. *)
Theorem reshared_committee_tallies `{DigestLaws} `{PrivateBoxLaws} `{Crypto} trap pid end_h tg genesis pk grp f node_of chain
    snap agg prop h q yes no B :
  network pid end_h tg genesis pk grp f node_of chain ->
  votes_closed pid tg pk chain snap agg prop h q yes no B ->
  let members := rt_new_members tg in
  let T := dao_dkg_expected_threshold (zlen members) in
  exists deals record,
    (forall k i, subset tg !! k = Some i -> exists d cfg st,
       deals !! k = Some d /\ rx_runner (started_node pid end_h node_of (old_key tg i)) = Some (cfg, st) /\ rn_sent st = [d]) /\
    length (ss_VK_i record) = length members /\
    forall orders, (forall m, m ∈ members -> reaches tg m (orders m)) ->
    let node m := rx_tally (fst (final_node pid end_h tg node_of deals (orders m) m)) in
    forall builder indices rW rS rB, builder ∈ members ->
    deciding pk T (ss_VK_i record) indices rW -> deciding pk T (ss_VK_i record) indices rS -> deciding pk T (ss_VK_i record) indices rB ->
    exists shares,
      mapM (fun x => produce_local_share (snd x) pid (rt_key tg) (fst x) (use_evidence (rt_key tg) (node_event (node builder) (rt_key tg)))
                       (rW (fst x)) (rS (fst x)) (rB (fst x)))
        (zip indices (map (fun i => node (nth (Z.to_nat (i - 1)) members [])) indices)) = Some shares /\
      forall keys, length keys = length shares ->
      exists cert extra, build_tally_result_transaction q (node builder) pid (zip keys shares) T = Some extra /\
        tally_result_extra cert = Some extra /\ validate_dao_v2_tally_result_tx trap q extra h chain = true /\
        YES_weight cert = yes /\ NO_weight cert = no /\ B_total cert = B /\
        passed cert = (snap_circulating snap * q / 100 <=? B) && (no <? yes).
Proof.
  intros Hn Hv members T. pose proof (network_shape _ _ _ _ _ _ _ _ _ Hn) as Hsh. pose proof (nw_held _ _ _ _ _ _ _ _ _ Hn) as Hh.
  pose proof (nw_new _ _ _ _ _ _ _ _ _ Hn) as Hnew.
  destruct (network_reshares pid end_h tg genesis pk grp f _ node_of Hsh Hh (nw_old _ _ _ _ _ _ _ _ _ Hn) (fun m Hm => proj1 (Hnew m Hm)))
    as (deals & record & _ & Hd & Wf & Eid & Ekid & Evk & Eev & Hdec & Hk & Hf).
  assert (length (ss_VK_i record) = length members) as Lv.
  { rewrite Evk. unfold new_vks. rewrite length_map, length_seqZ. unfold zlen. cbn [cfg_of rc_new_members]. fold members. lia. }
  exists deals, record. split; [intros k i Hk'; destruct (Hd k i Hk') as (d & st & D); by exists d, (cfg_of end_h tg genesis pk grp f node_of (old_key tg i)), st|].
  split; [exact Lv|].
  intros orders Hr node builder indices rW rS rB Hb DW DS DB. pose proof (fun m Hm => proj2 (Hnew m Hm)) as Hchain.
  destruct (Hf builder (orders builder) Hb (Hr builder Hb)) as (_ & _ & pb & rb & Eb & _). fold (node builder) in Eb. rewrite Eb.
  rewrite (committed_event pid end_h tg genesis pk grp f _ node_of Hsh Hh chain Hchain record Ekid builder pb Hb), Eev.
  pose proof (committed_due pid end_h tg genesis pk grp f _ node_of Hsh Hh chain Hchain record Wf Ekid Hdec Eev Hk builder pb snap agg prop h q yes no B Hb Hv) as Hdue.
  destruct (tally_transaction_ok trap (committed pid tg node_of record pb builder) (rt_key tg) pk _ T (ss_VK_i record) snap agg prop pid h q yes no B indices
    (map (fun i => node (nth (Z.to_nat (i - 1)) members [])) indices) rW rS rB Hdue DW DS DB) as (shares & E & Hbuild).
  - rewrite (committed_event pid end_h tg genesis pk grp f _ node_of Hsh Hh chain Hchain record Ekid builder pb Hb), Eev.
    apply Forall2_same_length_lookup_2; [by rewrite length_map|]. intros k i m Hi Hm. rewrite lookup_map, Hi in Hm. cbn in Hm. injection Hm as <-.
    pose proof (deciding_range _ _ _ _ _ DW) as Hrange. rewrite Forall_lookup in Hrange. specialize (Hrange k i Hi). unfold zlen in Hrange.
    set (m := nth (Z.to_nat (i - 1)) members []). assert (members !! Z.to_nat (i - 1) = Some m) as Hm.
    { subst m. destruct (nth_lookup_or_length members (Z.to_nat (i - 1)) []) as [->|L]; [done|lia]. }
    pose proof (list_elem_of_lookup_2 _ _ _ Hm) as Hin. destruct (Hf m (orders m) Hin (Hr m Hin)) as (_ & _ & pm & rm & Em & Eu & Es). fold (node m) in Em. rewrite Em.
    assert (position_of m (rt_new_members tg) = i) as Ep by (rewrite (position_of_nodup _ (rt_new_members tg) _ (proj1 (sp_members _ Hsh)) Hm); lia).
    pose proof (committed_ready pid end_h tg genesis pk grp f _ node_of Hh chain Hchain record Eid builder pb m pm rm Hb Hin Eu Es Lv) as Hready.
    rewrite Ep in Hready. exact Hready.
  - rewrite (committed_event pid end_h tg genesis pk grp f _ node_of Hsh Hh chain Hchain record Ekid builder pb Hb), Eev in E. exists shares. split; [exact E|].
    rewrite (committed_chain pid tg node_of chain Hchain record builder pb Hb) in Hbuild. exact Hbuild.
Qed.

(** ** Witness: the committee of [TallyCorrect] hands its key over *)

Definition grp23 : dao_vss_group := {| vss_P := 23; vss_P_prime := 11; vss_g := 4; vss_h := 2 |}.

Lemma grp23_ok : vss_ok grp23.
Proof. split; try done; apply Zstar.to_Zmod_inj; by vm_compute. Qed.

Definition node_key (i : Z) : bytes := replicate 32 i.
Definition block23 : hash := replicate 32 7.

(** The old members are the keys 1, 2 and 3; ready are 2, 3 and 4. *)
Definition base323 : Z := @share_set_id_for_key_id sample_crypto kid323.

Definition ss323 : dao_share_set_record :=
  {| ss_version := 2; ss_share_set_id := base323; ss_height := 100; ss_threshold := 2; ss_key_id := kid323;
     ss_committee_id_hash := replicate 32 0; ss_committee_members := map node_key [1; 2; 3]; ss_VK_i := vks323 share323;
     ss_base_share_set_id := 0; ss_contributions := []; ss_contributor_indices := []; ss_contributor_vk := [] |}.

Definition draw323 : reshare_draw :=
  {| rd_rs := fun _ => 5; rd_coeffs := fun _ => {| cr_x := 3; cr_rho := 4; cr_bits := fun _ => {| bit_rho := 1; bit_a := 2; bit_c := 3; bit_z := 4 |};
       cr_range_link := 5; cr_a := fun _ => 6; cr_u := fun _ => 7 |};
     rd_drawn := map (fun i => (replicate 32 i, replicate 12 i)) [1; 2; 3] |}.

Definition node_of323 (m : bytes) : reshare_node * reshare_draw :=
  ({| rx_tally := {| tn_chain := state323; tn_tally_key := None; tn_share_sets := {[ base323 := ss323 ]};
                     tn_local_shares := {[ (base323, hd 0 m) := dao_pack_local_share kid323 (export_local_share (share323 (hd 0 m))) ]};
                     tn_current_share_set := 0; tn_tally_shares := ∅ |};
      rx_ready := list_to_map (map (fun i => ((node_key i, 195), block23)) [4; 2; 3]); rx_blocks := replicate 201 block23;
      rx_send := true; rx_priv := m; rx_runner := None |}, draw323).

Definition tg323 : reshare_target :=
  {| rt_key := key_rec323; rt_first := true; rt_cur_id := base323; rt_cur_ss := ss323; rt_contributors := positions ss323;
     rt_new_members := map node_key [2; 3; 4] |}.

Lemma target323 m : @reshare_target_for sample_crypto (fst (node_of323 m)) pid323 200 = Some tg323.
Proof. vm_compute. reflexivity. Qed.

Lemma draw323_ok : @drawn_ok toy_box grp23 3 draw323.
Proof.
  split; [done|]. split; [by repeat constructor|]. split.
  - intros l. change (5 < 2 ^ (WITNESS_BITS + STATISTICAL_BITS)). apply (Z.lt_le_trans _ (2 ^ 3)); [done|by apply Z.pow_le_mono_r].
  - intros j. by repeat split.
Qed.

Lemma takes_part323 i : @takes_part toy_box sample_crypto pid323 200 tg323 block23 grp23 node_of323 (node_key i).
Proof. split; [done|apply target323|done|done|exact draw323_ok]. Qed.

Lemma held323 : @held toy_box 200 tg323 block23 pk323 grp23 share323 179.
Proof.
  destruct key_rec323_ok as [Hu Hk]. split.
  - exact (ku_modulus _ _ Hu).
  - by vm_compute.
  - exact grp23_ok.
  - vm_compute. lia.
  - exact Hk.
  - done.
  - split; [|done]. apply (bool_decide_eq_true_1 _). by vm_compute.
  - repeat constructor; by eexists (node_key _).
  - vm_compute. split; congruence.
  - done.
  - vm_compute. split; congruence.
Qed.

Lemma network323 : @network toy_box sample_crypto pid323 200 tg323 block23 pk323 grp23 share323 node_of323 state323.
Proof.
  split.
  - exists []. apply target323.
  - exact held323.
  - intros i Hi. assert (i = 1 \/ i = 2) as Hi'.
    { assert (subset tg323 = [1; 2]) as E by reflexivity. rewrite E in Hi. set_solver. }
    assert (old_key tg323 i = node_key i) as Ek by (by destruct Hi' as [->| ->]). split; [rewrite Ek; apply takes_part323|].
    exists (dao_pack_local_share kid323 (export_local_share (share323 i))), (export_local_share (share323 i)). rewrite Ek.
    assert (hd 0 (node_key i) = i) as Eh by done. split; [cbn [node_of323 fst rx_tally tn_local_shares]; rewrite Eh; apply lookup_singleton_eq|].
    destruct Hi' as [->| ->]; split; by vm_compute.
  - intros m Hm. assert (exists i, m = node_key i) as [i ->] by (apply list_elem_of_fmap in Hm as (i & -> & _); by exists i).
    split; [apply takes_part323|]. split; [done|]. by vm_compute.
Qed.

Lemma closed323 : votes_closed pid323 tg323 pk323 state323 snap323 agg323 prop323 201 30 40 25 40.
Proof.
  destruct tally_due323 as [Hd Hu Hkey Hsn Hsz _ _ _ _ HW HS HB Hw Hb Hq].
  exact (Build_votes_closed pid323 tg323 pk323 state323 snap323 agg323 prop323 201 30 40 25 40 Hd Hu Hkey Hsn Hsz HW HS HB Hw Hb Hq).
Qed.

Definition order323 : list nat := [1; 0; 1]%nat.

Lemma reaches323 m : reaches tg323 m order323.
Proof. intros [|[|k]] i Hi; [left; set_solver..|]. by destruct k. Qed.


Lemma reshared_committee_tallies_witness : exists deals record shares extra,
  let node m := rx_tally (fst (@final_node toy_digests toy_box sample_crypto pid323 200 tg323 node_of323 deals order323 m)) in
  length (ss_VK_i record) = 3%nat /\
  @build_tally_result_transaction toy_digests 30 (node (node_key 4)) pid323 (zip [[5]; [4]] shares) 2 = Some extra /\
  @validate_dao_v2_tally_result_tx toy_digests (fun _ => true) 30 extra 201 state323 = true.
Proof.
  destruct (@reshared_committee_tallies toy_digests toy_digest_laws toy_box toy_box_laws sample_crypto (fun _ => true) pid323 200 tg323 block23 pk323
    grp23 share323 node_of323 state323 snap323 agg323 prop323 201 30 40 25 40 network323 closed323) as (deals & record & _ & L & F).
  exists deals, record. assert (deciding pk323 2 (ss_VK_i record) [1; 3] (fun i => 10 * i mod 323)) as D.
  { split; [exact quorum323|]. split; [unfold zlen; rewrite L; by repeat constructor|]. intros i. by apply Z.mod_pos_bound. }
  destruct (F (fun _ => order323) (fun m _ => reaches323 m) (node_key 4) [1; 3] _ _ _ ltac:(set_solver) D D D) as (shares & E & B).
  assert (length [[5]; [4]] = length shares) as Ls by (apply mapM_Some in E; apply Forall2_length in E; exact E).
  destruct (B [[5]; [4]] Ls) as (cert & extra & B1 & _ & B2 & _). exists shares, extra. exact (conj L (conj B1 B2)).
Defined.
