(* ===== verification/ReshareLimits.v ===== *)
(** * What a resharing does not give

    The evidence of a resharing is not tied to the shares of the old committee:
    the checks of a tally certificate accept a resharing of a share of nothing,
    which anyone can make, and with it a result without votes.  And a resharing
    needs every contributor of its subset: if one of them is silent, it never
    ends, and while it runs the node starts no other one. *)

From Stdlib Require Import Zcong.
From Stdlib Require Import Zmod Zstar.
From S2P Require Import Prelude Archive Crypto GovStore ParamExecution Paillier Threshold DkgProofs Pedersen Reshare ReshareProofs ReshareCodec ReshareCorrect ReshareRunner ReshareRunnerProofs Emission VoteV2 Tally TallyMembers TallyCorrect TallyShare ReshareNode TallyResult TallyShareProofs TallyNode ReshareTally ReshareNodeProofs.

(** ** A resharing of nothing *)

Section forgery.
Context `{DigestLaws}.
Context (key_rec : dao_tally_key_record) (pk : PaillierPublicKey) (grp : dao_vss_group).

(** What is public of a key that can be used. *)
Record public_key_ok : Prop := {
  pko_usable : key_usable key_rec pk;
  pko_pk : pk_ok pk;
  pko_V : is_ct pk (tk_V key_rec);
  pko_unit : Z.coprime (dao_dkg_delta * dao_dkg_delta * 4 * BN_bin2bn (tk_theta_bytes key_rec)) (pk_N pk);
  pko_theta : 0 <= BN_bin2bn (tk_theta_bytes key_rec);
  pko_group : key_group key_rec = Some grp;
  pko_vss : vss_ok grp;
  pko_size : (0 < BN_num_bytes (vss_P grp) <= 1024)%nat;
}.

Context (Hkey : public_key_ok).
Notation V := (tk_V key_rec).

(** The forger deals as contributors 1 and 2, whose shares are 0. *)
Definition nothing (i : Z) : Z := 0.
Definition forged_mu (i : Z) : Z := default 0 (dao_dkg_lagrange_mu [1; 2] i).

Definition forged_ctx (i : Z) : dao_reshare_link_context :=
  {| lc_genesis_block_hash := null_hash; lc_stable_key_record_hash := []; lc_share_set_id := 0;
     lc_contributor_pubkey := []; lc_original_index := i; lc_contributor_subset := [1; 2]; lc_N := tk_N key_rec; lc_V := V;
     lc_VK_i := verification_key pk V 0; lc_C_i0 := []; lc_Delta := binpad dao_dkg_delta 32; lc_mu_i := [] |}.

Definition forged_coeff : coeff_random :=
  {| cr_x := 0; cr_rho := 0; cr_bits := fun _ => {| bit_rho := 0; bit_a := 0; bit_c := 0; bit_z := 0 |}; cr_range_link := 0;
     cr_a := fun _ => 0; cr_u := fun _ => 0 |}.

Definition forger (i : Z) : contributor :=
  {| co_index := i; co_ctx := forged_ctx i; co_rs := fun _ => 0; co_coeffs := [forged_coeff] |}.
Notation forgers := (map forger [1; 2]).

Definition forged_cfg : runner_config :=
  {| rc_pk := pk; rc_grp := grp; rc_V_bytes := V; rc_delta := dao_dkg_delta; rc_new_indices := seqZ 1 3;
     rc_new_members := map (replicate 32) [1; 2; 3]; rc_contributor_indices := [1; 2]; rc_contributor_members := [[]; []];
     rc_contributor_vk := map (fun _ => verification_key pk V 0) [1; 2]; rc_old_share_set_id := 0; rc_new_share_set_id := 1;
     rc_height := 0; rc_threshold := 2; rc_key_id := tk_key_id key_rec; rc_local_party_index := 0; rc_local_new_index := 1;
     rc_local_s_i := None; rc_local_mu_i := None; rc_local_pub := []; rc_local_priv := replicate 32 1;
     rc_link_ctx_base := forged_ctx 0; rc_contributor_threshold := 2 |}.

Lemma forged_coeff_drawn : coeff_drawn grp forged_coeff.
Proof. destruct (pko_vss Hkey) as [Hp _ _ _ _ _]. split; cbn; try (intros; split; lia); [by split|intros; repeat split; cbn; lia]. Qed.

Lemma forger_ready i : i ∈ [1; 2] -> contributor_ready pk V grp (forged_ctx i) 0 (forged_mu i) (fun _ => 0) [forged_coeff].
Proof.
  intros Hi. pose proof (ku_modulus _ _ (pko_usable Hkey)) as E. unfold deserialize_modulus in E.
  destruct (Nat.eqb_spec (length (tk_N key_rec)) PAILLIER_MODULUS_BYTES) as [L|]; [|done]. cbn [negb] in E. unfold set_modulus in E. do 3 pass_guard E. injection E as EN.
  split; cbn [forged_ctx lc_N lc_V lc_VK_i lc_Delta].
  - by rewrite <- EN.
  - exact L.
  - reflexivity.
  - reflexivity.
  - exact (proj2 delta_bytes).
  - assert (i = 1 \/ i = 2) as [->| ->] by set_solver; by vm_compute.
  - by apply Z.pow_pos_nonneg.
  - intros l. by apply Z.pow_pos_nonneg.
  - done.
  - constructor; [exact forged_coeff_drawn|constructor].
Qed.

Lemma forged_resharing : resharing pk V grp nothing forged_mu forgers 2 1.
Proof.
  split; try done.
  - apply (bool_decide_eq_true_1 _). by vm_compute.
  - intros i Hi. apply elem_of_seqZ. assert (i = 1 \/ i = 2) as [->| ->] by set_solver; unfold DAO_DKG_MAX_COMMITTEE_SIZE; lia.
  - intros i Hi. assert (i = 1 \/ i = 2) as [->| ->] by set_solver; by vm_compute.
  - apply Forall_map, Forall_forall. intros i Hi. exact (forger_ready i Hi).
  - by repeat constructor.
  - by repeat constructor.
  - by repeat constructor.
Qed.

Lemma forged_context i : i ∈ [1; 2] -> context_wf (forged_ctx i).
Proof.
  intros Hi. pose proof (cy_N_length _ _ _ _ _ _ _ _ (forger_ready i Hi)) as LN. cbn [forged_ctx lc_N] in LN.
  assert (i = 1 \/ i = 2) as Hi' by set_solver. split; cbn [forged_ctx lc_genesis_block_hash lc_stable_key_record_hash lc_share_set_id
    lc_contributor_pubkey lc_original_index lc_contributor_subset lc_N lc_V lc_VK_i lc_C_i0 lc_Delta lc_mu_i]; unfold piece_ok, zlen; try done.
  - unfold u32_ok. clear -Hi'. lia.
  - by repeat constructor.
  - by rewrite LN.
  - by rewrite (V_length pk (pko_pk Hkey) V (pko_V Hkey)).
Qed.

Lemma forged_session : @session toy_box forged_cfg nothing forged_mu forgers 2 1.
Proof.
  split; try done.
  - exact (pko_pk Hkey).
  - exact (pko_V Hkey).
  - exact (pko_vss Hkey).
  - exact (pko_size Hkey).
  - exact forged_resharing.
  - apply poly_zero.
  - repeat constructor; by eexists (replicate 32 _).
  - exact (ku_id _ _ (pko_usable Hkey)).
  - apply Forall_map, Forall_forall. intros i Hi. split; [exact (forged_context i Hi)|done].
Qed.

Definition forged_vks : list bytes := new_vks forged_cfg nothing forgers.

Lemma forged_evidence : exists event, share_set_wf event /\ use_evidence key_rec (Some event) = Some event /\
  decides_with key_rec pk (Some event) 2 forged_vks.
Proof.
  assert (exists contribs, Forall2 (made pk V grp nothing forged_mu (seqZ 1 3)) forgers contribs) as [contribs Hmade].
  { apply Forall_exists_Forall2_l, Forall_map, Forall_forall. intros i Hi.
    destruct (contribution_complete pk (pko_pk Hkey) V (pko_V Hkey) grp (pko_vss Hkey) (proj2 (pko_size Hkey)) _ _ _ _ _ (seqZ 1 3) (forger_ready i Hi)) as (c & _ & Hc);
      [done|by repeat constructor|]. exists c. split; [exact (forger_ready i Hi)|exact Hc]. }
  destruct (blobs_exist forged_cfg nothing forged_mu forgers 2 1 forged_session contribs Hmade) as (blobs & _ & Hblobs).
  assert (key_of forged_cfg key_rec) as Hko by (split; [exact (ku_modulus _ _ (pko_usable Hkey))|exact (pko_group Hkey)|done|done]).
  exists (as_stored (final_record forged_cfg nothing forgers 1 blobs)). split; [|split].
  - apply (@record_wf _ _ toy_box toy_box_laws forged_cfg nothing forged_mu forgers 2 1 forged_session contribs Hmade blobs Hblobs). done.
  - exact (record_evidence forged_cfg nothing forged_mu forgers 2 1 forged_session key_rec Hko contribs Hmade blobs Hblobs).
  - exact (record_decides forged_cfg nothing forged_mu forgers 2 1 forged_session key_rec Hko contribs Hmade blobs Hblobs ltac:(done)).
Qed.

Lemma forged_shares : holds_shares pk V (reshared nothing forgers) 2 forged_vks.
Proof.
  pose proof (zlen_new_vks forged_cfg nothing forgers) as L. split.
  - exact (pko_pk Hkey).
  - exact (pko_V Hkey).
  - apply (reshared_poly nothing forgers 1); [done|]. by repeat constructor.
  - intros i Hi. apply (reshared_small forged_cfg nothing forged_mu forgers 2 1 forged_session i); [by apply Z.pow_pos_nonneg|exact Hi].
  - fold forged_vks in L. rewrite L. reflexivity.
  - fold forged_vks in L. rewrite L. done.
Qed.

(** The forger's partial decryptions of any ciphertext recover 0. *)
Lemma forged_set c : is_ct pk c -> exists s, check_set pk V forged_vks 2 s c = true /\
  recover pk (BN_bin2bn (tk_theta_bytes key_rec)) 2 s = Some (0 mod pk_N pk).
Proof.
  intros Hc. destruct (proj1 (pko_pk Hkey)) as [HN _].
  destruct (members_accepted pk V _ 2 forged_vks [1; 2] (fun _ => 0) c forged_shares) as (s & _ & E2 & E3 & E4); [|exact Hc|].
  { split; [|split].
    - split_and!; [apply (bool_decide_eq_true_1 _); by vm_compute| |done|done|done].
      intros i Hi. apply elem_of_seqZ. assert (i = 1 \/ i = 2) as [->| ->] by set_solver; unfold DAO_DKG_MAX_COMMITTEE_SIZE; lia.
    - by repeat constructor.
    - intros _. lia. }
  exists s. split; [exact E2|]. unfold recover. rewrite E3, E4. cbn [mbind option_bind]. rewrite (reshared_zero nothing forgers), (Z.mod_0_l (pk_N pk)) by (clear -HN; lia).
  pose proof (finalize_spec pk (pko_pk Hkey) 0 (- BN_bin2bn (tk_theta_bytes key_rec)) _ (pko_theta Hkey)) as F.
  rewrite Z.add_opp_diag_l in F. specialize (F (Z.mod_0_l (pk_N pk) ltac:(clear -HN; lia)) ltac:(clear -HN; lia) (pko_unit Hkey)). unfold nothing.
  rewrite !Z.mul_0_l, Z.add_0_r, unit_of_one in F. rewrite Z.mul_0_l, Zstar.pow_0_r. exact F.
Qed.

Lemma forged_certificate pid snap q w x b : is_ct pk w -> is_ct pk x -> is_ct pk b -> 0 <= q <= 100 -> 0 <= snap_circulating snap < 2 ^ 120 ->
  length pid = 32%nat -> u64_ok (snap_height snap) -> zlen (tk_V_K_i key_rec) <= DAO_DKG_MAX_COMMITTEE_SIZE ->
  exists cert, dao_verify_tally_certificate key_rec snap q w x b cert = Some cert /\ cert_wf cert /\
    cert_proposal_id cert = pid /\ vote_end_height cert = snap_height snap /\ cert_key_id cert = tk_key_id key_rec /\
    YES_weight cert = 0 /\ NO_weight cert = 0 /\ passed cert = false.
Proof.
  intros Hw Hx Hb Hq Hc Lp Hh Ln. destruct (proj1 (pko_pk Hkey)) as [HN _]. destruct forged_evidence as (event & Wf & Ee & Hd).
  destruct (forged_set w Hw) as (Ws & CW & RW). destruct (forged_set x Hx) as (Ss & CS & RS). destruct (forged_set b Hb) as (Bs & CB & RB).
  pose proof (fun c Hc => V_length pk (pko_pk Hkey) c Hc) as L.
  destruct (certificate_of_sets key_rec pk 2 forged_vks (Some event) pid snap q w x b Ws Ss Bs 0 0 0 (pko_pk Hkey) (pko_usable Hkey) Hd
    (proj1 (hs_size _ _ _ _ _ forged_shares)) (L w Hw) (L x Hx) (L b Hb) CW CS CB RW RS RB) as (cert & cert' & C1 & C2 & C3 & C4 & C5 & C6 & C7 & _ & C8);
    [done|done|done|clear -HN; lia|done|clear -HN; lia|done|done|].
  exists cert'. destruct (verify_result _ _ _ _ _ _ _ _ C2) as (y & o & e & Ev). split; [by rewrite Ev at 1; rewrite verify_claim|].
  split; [|rewrite andb_false_r in C8; by split_and!].
  apply (verify_wf _ _ _ _ _ _ _ _ (build_wf _ _ _ _ _ _ _ _ _ _ _ C1 Lp Hh Ln ltac:(rewrite Ee; by intros e' [= <-])) C2).
Qed.

End forgery.

(** C21: Anyone can reject a proposal.  From public data only, without a single
    share of the key, one can make the evidence of a resharing of a share of
    nothing, and with it a tally-result transaction that the chain accepts for any
    proposal whose votes wait for their result: its certificate has no votes for
    and none against, and applying it rejects the proposal. *)
Theorem forged_resharing_rejects `{DigestLaws} trap q s key_rec pk grp snap agg prop pid h :
  public_key_ok key_rec pk grp -> result_due s key_rec snap agg prop pid h ->
  is_ct pk (aggregate_E_W agg) -> is_ct pk (aggregate_E_S agg) -> is_ct pk (aggregate_E_B agg) ->
  snap_height snap = voting_end_height prop -> u64_ok (voting_end_height prop) -> length pid = 32%nat ->
  zlen (tk_V_K_i key_rec) <= DAO_DKG_MAX_COMMITTEE_SIZE -> 0 <= q <= 100 -> 0 <= snap_circulating snap < 2 ^ 120 ->
  exists cert extra s', tally_result_extra cert = Some extra /\ validate_dao_v2_tally_result_tx trap q extra h s = true /\
    YES_weight cert = 0 /\ NO_weight cert = 0 /\ apply_dao_v2_tally_result cert h s = tally_applied s' /\
    proposals (t_policy s') !! pid = Some (with_status prop PROPOSAL_STATUS_REJECTED (executed prop) h).
Proof.
  intros Hk Hdue HW HS HB Esn Hh Lp Ln Hq Hc.
  destruct (forged_certificate key_rec pk grp Hk pid snap q _ _ _ HW HS HB Hq Hc Lp) as (cert & Hv & Wf & C1 & C2 & C3 & C4 & C5 & C6); [by rewrite Esn|done|].
  destruct (transaction_built cert Wf) as [extra Ex]. destruct (apply_follows_claim s key_rec snap agg prop pid h cert Hdue C1) as (s' & Ea & _ & _ & Ep & _).
  exists cert, extra, s'. split; [exact Ex|]. split.
  { rewrite (transaction_carries trap q cert extra h _ Wf Ex). apply (validate_verified q _ _ _ _ _ _ _ _ cert Hdue C1); [congruence|exact C3|exact Hv]. }
  split; [exact C4|]. split; [exact C5|]. split; [exact Ea|]. rewrite Ep. unfold decided_status. rewrite C6. apply lookup_insert_eq.
Qed.

(** ** A silent contributor *)

Section silence.
Context `{Digests} `{PrivateBox} `{Crypto}.
Context (cfg : runner_config) (i : Z) (silent : bytes).

(** All contributors are needed, and [silent] is contributor [i]. *)
Record needs_all : Prop := {
  na_threshold : rc_contributor_threshold cfg = zlen (rc_contributor_indices cfg);
  na_index : i ∈ rc_contributor_indices cfg;
  na_key : forall k, list_find (fun j => j = i) (rc_contributor_indices cfg) = Some (k, i) -> rc_contributor_members cfg !! k = Some silent;
}.

Definition waits (st : runner) : Prop :=
  rn_final st = None /\ rn_contributions st !! i = None /\
  forall j, is_Some (rn_contributions st !! j) -> j ∈ rc_contributor_indices cfg.

(** A message that is neither from [silent] nor announces a finished record. *)
Definition from_others (from payload : bytes) : Prop :=
  from <> silent /\ forall m, msg_deserialize payload = Some m -> rm_type m <> 1.

Context (Hall : needs_all).

Lemma waiting_size st : waits st -> Z.of_nat (size (rn_contributions st)) < zlen (rc_contributor_indices cfg).
Proof.
  intros (_ & Hi & Hin). set (l := filter (fun j => j <> i) (rc_contributor_indices cfg)).
  assert (dom (rn_contributions st) ⊆ (list_to_set l : gset Z)) as Hsub.
  { intros j Hj. apply elem_of_dom in Hj. apply elem_of_list_to_set, list_elem_of_filter. split; [|by apply Hin]. intros ->. rewrite Hi in Hj. by destruct Hj. }
  apply subseteq_size in Hsub. rewrite size_dom in Hsub.
  assert (size (list_to_set l : gset Z) <= length l)%nat as Hl.
  { clear. induction l as [|j l IH]; [by rewrite list_to_set_nil, size_empty|]. rewrite list_to_set_cons, size_union_alt. 
    pose proof (subseteq_size (list_to_set l ∖ {[j]} : gset Z) (list_to_set l) ltac:(set_solver)). rewrite size_singleton. cbn [length]. lia. }
  assert (length l < length (rc_contributor_indices cfg))%nat as Hlt by (apply (length_filter_lt _ _ i (na_index Hall)); by intros []).
  unfold zlen. lia.
Qed.

Lemma waiting_finalize st : waits st -> try_finalize_locked cfg st = st.
Proof.
  intros Hw. pose proof (waiting_size st Hw) as Hs. destruct Hw as (Hf & _). unfold try_finalize_locked, needed_contributions. rewrite Hf, (na_threshold Hall).
  destruct (rc_local_new_index cfg =? 0); [done|]. rewrite (proj2 (Z.eqb_neq _ 0)) by lia. by rewrite (proj2 (Z.ltb_lt _ _)) by lia.
Qed.

Lemma waiting_message from payload st : waits st -> from_others from payload -> waits (handle_dao_v2_reshare_msg cfg from payload st).
Proof.
  intros Hw [Hfrom Hty]. unfold handle_dao_v2_reshare_msg. destruct (msg_deserialize payload) as [m|]; [|done]. specialize (Hty m eq_refl).
  unfold on_message. do 3 (destruct (negb _); [done|]). rewrite (proj2 (Z.eqb_neq _ 1) Hty). destruct (rm_type m =? 0); [|done].
  destruct (sender_ok cfg from m) eqn:Es; [|done]. cbn [negb]. destruct (bool_decide _); [done|]. destruct (accept_deal cfg from m) as [c|]; [|done].
  unfold sender_ok in Es. destruct (_ || _); [done|]. destruct (list_find _ _) as [[k x]|] eqn:Ek; [|done].
  pose proof Ek as Ek'. apply list_find_Some in Ek' as (Hk & -> & _). destruct (rc_contributor_members cfg !! k) as [member|] eqn:Em; [|done].
  apply beq_true in Es as ->. assert (rm_sender_index m <> i) as Hne.
  { intros E. rewrite E in Ek. rewrite (na_key Hall k Ek) in Em. injection Em as ->. done. }
  destruct Hw as (W1 & W2 & W3). rewrite waiting_finalize; (split; [exact W1|]; split; [cbn [store rn_contributions]; by rewrite lookup_insert_ne|]);
    intros j; cbn [store rn_contributions]; destruct (decide (rm_sender_index m = j)) as [<-|Hj];
    [intros _; by apply list_elem_of_lookup_2 in Hk|rewrite lookup_insert_ne by done; apply W3|intros _; by apply list_elem_of_lookup_2 in Hk
    |rewrite lookup_insert_ne by done; apply W3].
Qed.

End silence.

(** The messages that reach a node. *)
Definition receive `{Digests} `{PrivateBox} `{Crypto} (msgs : list (bytes * bytes)) (nd : reshare_node) : reshare_node :=
  fold_left (fun nd x => reshare_message (fst x) (snd x) nd) msgs nd.

Lemma receive_waits `{Digests} `{PrivateBox} `{Crypto} cfg i silent msgs nd st : needs_all cfg i silent -> waits cfg i st ->
  Forall (fun x => from_others silent (fst x) (snd x)) msgs ->
  exists st', receive msgs (with_runner nd (Some (cfg, st))) = with_runner nd (Some (cfg, st')) /\ waits cfg i st'.
Proof.
  intros Ha Hw F. revert st Hw. induction F as [|x msgs Hx F IH]; intros st Hw; [by exists st|].
  exact (IH _ (waiting_message cfg i silent Ha (fst x) (snd x) st Hw Hx)).
Qed.

Lemma started_waits `{DigestLaws} `{PrivateBoxLaws} `{Crypto} pid end_h tg genesis pk grp f node_of chain i m :
  network pid end_h tg genesis pk grp f node_of chain -> i ∈ subset tg -> m ∈ rt_new_members tg -> old_key tg i <> m ->
  exists st nd, started_node pid end_h node_of m = with_runner nd (Some (cfg_of end_h tg genesis pk grp f node_of m, st)) /\
    rx_send nd = true /\ needs_all (cfg_of end_h tg genesis pk grp f node_of m) i (old_key tg i) /\
    waits (cfg_of end_h tg genesis pk grp f node_of m) i st.
Proof.
  intros Hn Hi Hm Hne. pose proof (network_shape _ _ _ _ _ _ _ _ _ Hn) as Hsh. pose proof (nw_held _ _ _ _ _ _ _ _ _ Hn) as Hh.
  pose proof (nw_old _ _ _ _ _ _ _ _ _ Hn) as Hold. pose proof (fun m Hm => proj1 (nw_new _ _ _ _ _ _ _ _ _ Hn m Hm)) as Hnew.
  destruct (subset_ok end_h tg genesis pk grp f _ Hsh Hh) as (Hd & _ & Hl).
  assert (needs_all (cfg_of end_h tg genesis pk grp f node_of m) i (old_key tg i)) as Hall.
  { split; cbn [cfg_of rc_contributor_threshold rc_contributor_indices rc_contributor_members]; [done|done|]. intros k Hk.
    apply list_find_Some in Hk as (Hk & _ & _). by rewrite lookup_map, Hk. }
  set (cfg := cfg_of end_h tg genesis pk grp f node_of m) in *. set (d := snd (node_of m)).
  assert (exists st, start cfg (rd_rs d) (drawn_coeffs d cfg) (rd_drawn d) new_runner = (st, true) /\ waits cfg i st) as (st & Es & Hw).
  { destruct (selected tg m) eqn:Esel.
    - destruct (selected_in end_h tg genesis pk grp f _ Hsh Hh m Esel) as [Hp Ek].
      pose proof (session_ok pid end_h tg genesis pk grp f _ node_of Hsh Hh Hold Hnew m Hm) as Hs.
      pose proof (peer_ok pid end_h tg genesis pk grp f _ node_of Hsh Hh Hold m _ Hp) as Hpeer. rewrite Ek in Hpeer.
      destruct (start_deals cfg f _ _ _ _ Hs (co_of tg genesis node_of (contrib_pos tg m)) _ (list_elem_of_fmap_2 _ _ _ Hp) Hpeer)
        as (c & msg & st & _ & _ & _ & Est & _ & Ef & Ec). exists st. unfold co_of in Est. cbn [co_rs co_coeffs fst snd] in Est. rewrite Ek in Est. split; [exact Est|].
      specialize (Ec eq_refl). cbn [co_of co_index] in Ec. split; [exact Ef|]. rewrite Ec. split.
      + apply lookup_singleton_ne. intros <-. by rewrite Ek in Hne.
      + intros j [x Hx]. apply lookup_singleton_Some in Hx as [<- _]. exact Hp.
    - exists new_runner. split; [exact (run_bystander end_h tg genesis pk grp f node_of m Esel)|]. split; [done|]. split; [done|].
      intros j Hj. cbn [new_runner rn_contributions] in Hj. rewrite lookup_empty in Hj. by destruct Hj. }
  exists st, (discard_tally_shares (fst (node_of m)) tg pid). split; [|split; [|by split]].
  - rewrite (node_started pid end_h tg genesis pk grp f _ node_of Hsh Hh Hold m (Hnew m Hm) (or_intror Hm)); fold cfg d; by rewrite Es.
  - unfold discard_tally_shares. destruct (rt_first tg); exact (proj1 (tp_ready _ _ _ _ _ _ _ (Hnew m Hm))).
Qed.


(** ** A record from anyone *)

(** Anyone can end a resharing with a record of its own.  A message that
    announces a finished record is taken from any sender: whatever verification
    keys the record has, with or without evidence, the node commits it as the
    share set and drops the running resharing. *)
Theorem announced_record_committed `{Digests} `{PrivateBox} `{Crypto} nd cfg st rec sender from :
  rx_runner nd = Some (cfg, st) -> rn_final st = None -> share_set_wf rec -> u32_ok sender ->
  u64_ok (rc_old_share_set_id cfg) -> ss_share_set_id rec = rc_new_share_set_id cfg -> ss_committee_members rec = rc_new_members cfg ->
  exists blob, share_set_serialize rec = Some blob /\ (blob_ok blob ->
    let payload := msg_serialize {| rm_version := 1; rm_old_share_set_id := rc_old_share_set_id cfg;
      rm_new_share_set_id := rc_new_share_set_id cfg; rm_sender_index := sender; rm_type := 1; rm_public_blob := [];
      rm_recipient_indices := []; rm_recipient_payloads := []; rm_record_blob := blob |} in
    let nd' := maybe_commit_dao_v2_reshare (reshare_message from payload nd) in
    snd nd' = true /\ rx_runner (fst nd') = None /\ tn_share_sets (rx_tally (fst nd')) !! ss_share_set_id rec = Some rec).
Proof.
  intros Hr Hf Wf Hs Hid Ei Em. destruct (share_set_roundtrip rec Wf) as (blob & E1 & E2). exists blob. split; [exact E1|]. intros Hb. cbv zeta.
  unfold reshare_message. rewrite Hr. unfold handle_dao_v2_reshare_msg. rewrite msg_roundtrip.
  2: { split; first [done|by right|by constructor|rewrite <- Ei; exact (sw_id _ Wf)]. }
  unfold on_message. cbn [rm_version rm_old_share_set_id rm_new_share_set_id rm_type rm_record_blob]. rewrite !Z.eqb_refl. cbn [negb Z.eqb].
  rewrite E2, Ei, Z.eqb_refl, Em, bool_decide_eq_true_2, Hf by done. cbn [negb].
  unfold maybe_commit_dao_v2_reshare. cbn [with_runner rx_runner rn_final rn_local_share]. unfold commit_record, add_dao_share_set. rewrite E1. cbn [mbind option_bind]. rewrite E2.
  cbn [with_tally with_runner fst snd rx_tally rx_runner tn_share_sets]. rewrite Ei. split; [done|]. split; [done|]. apply lookup_insert_eq.
Qed.

(** ** Witnesses: the committee of [TallyCorrect] *)

Lemma public323 : public_key_ok key_rec323 pk323 grp23.
Proof.
  destruct key_rec323_ok as [Hu Hk]. destruct (hk_key _ _ _ _ _ _ Hk) as [Hpk _ _ [Ht _] Hunit].
  exact (Build_public_key_ok key_rec323 pk323 grp23 Hu Hpk (hk_base _ _ _ _ _ _ Hk) Hunit Ht eq_refl grp23_ok ltac:(vm_compute; lia)).
Qed.

Lemma forged_resharing_rejects_witness : exists cert extra s', tally_result_extra cert = Some extra /\
  @validate_dao_v2_tally_result_tx toy_digests (fun _ => true) 30 extra 201 state323 = true /\
  @apply_dao_v2_tally_result cert 201 state323 = tally_applied s' /\
  proposals (t_policy s') !! pid323 = Some (with_status prop323 PROPOSAL_STATUS_REJECTED (executed prop323) 201).
Proof.
  destruct agg323_holds as (HW & HS & HB). pose proof (pko_pk _ _ _ public323) as Hpk.
  destruct (@forged_resharing_rejects toy_digests toy_digest_laws (fun _ => true) 30 state323 key_rec323 pk323 grp23 snap323 agg323 prop323 pid323 201
    public323 due323 (enc_of_ct pk323 Hpk _ _ HW) (enc_of_ct pk323 Hpk _ _ HS) (enc_of_ct pk323 Hpk _ _ HB) eq_refl) as (cert & extra & s' & F1 & F2 & _ & _ & F3 & F4).
  - vm_compute. split; congruence.
  - reflexivity.
  - vm_compute. congruence.
  - vm_compute. split; congruence.
  - vm_compute. split; congruence.
  - exists cert, extra, s'. exact (conj F1 (conj F2 (conj F3 F4))).
Defined.


Definition waiting323 : reshare_node :=
  with_runner (fst (node_of323 (node_key 4))) (Some (cfg_of 200 tg323 block23 pk323 grp23 share323 node_of323 (node_key 4), new_runner)).

(** A record without evidence, whose verification keys are the base itself. *)
Definition announced323 : dao_share_set_record :=
  {| ss_version := 2; ss_share_set_id := (base323 + 1) mod 2 ^ 32; ss_height := 0; ss_threshold := 1; ss_key_id := kid323;
     ss_committee_id_hash := replicate 32 0; ss_committee_members := map node_key [2; 3; 4]; ss_VK_i := [V323; V323; V323];
     ss_base_share_set_id := 0; ss_contributions := []; ss_contributor_indices := []; ss_contributor_vk := [] |}.

Lemma announced323_wf : share_set_wf announced323.
Proof.
  split.
  - reflexivity.
  - vm_compute. split; congruence.
  - vm_compute. split; congruence.
  - vm_compute. split; congruence.
  - vm_compute. split; congruence.
  - reflexivity.
  - reflexivity.
  - repeat constructor.
  - reflexivity.
  - repeat constructor; vm_compute; reflexivity.
  - vm_compute. split; congruence.
  - split; [vm_compute; congruence|constructor].
  - split; [vm_compute; congruence|constructor].
  - split; [vm_compute; congruence|constructor].
Qed.

Lemma announced_record_committed_witness : exists payload,
  let nd := fst (@maybe_commit_dao_v2_reshare toy_box (@reshare_message sample_crypto toy_box toy_digests (node_key 9) payload waiting323)) in
  rx_runner nd = None /\ tn_share_sets (rx_tally nd) !! ss_share_set_id announced323 = Some announced323.
Proof.
  destruct (@announced_record_committed toy_digests toy_box sample_crypto waiting323 (cfg_of 200 tg323 block23 pk323 grp23 share323 node_of323 (node_key 4))
    new_runner announced323 7 (node_key 9)) as (blob & E & F); [reflexivity|reflexivity|exact announced323_wf|..].
  - done.
  - vm_compute. split; congruence.
  - reflexivity.
  - reflexivity.
  - eexists. apply F. assert (share_set_serialize announced323 = Some blob) as E' by exact E. vm_compute in E'. injection E' as <-. by vm_compute.
Defined.
