(* ===== verification/ReshareSecrecy.v ===== *)
(** * What the shares of a resharing give away

    A dealer hides the constant of its polynomial behind coefficients that are all
    multiples of [2^8281] ([dao_reshare_vss_deal]), while the constant itself is
    far smaller: the low bits of a new share are the secret key.  The proof that
    comes with a partial decryption ([dao_partial_decryption_prove]) masks the
    share with a random number below the modulus, so that its high bits can be
    read off. *)

From Stdlib Require Import Zmod Zstar.
From S2P Require Import Prelude Archive Crypto GovStore ParamExecution Paillier Threshold DkgProofs Pedersen Reshare ReshareProofs ReshareCorrect ReshareRunner ReshareRunnerProofs VoteV2 Tally TallyMembers TallyCorrect TallyShare ReshareNode TallyResult TallyNode ReshareTally ReshareNodeProofs.

(** ** The constant of a share *)

(** The residue of a share modulo the scale of the coefficients, around 0. *)
Definition constant_part (s : Z) : Z :=
  let half := 2 ^ (DAO_RESHARE_COEFF_SCALE_BITS - 1) in (s + half) mod coeff_scale - half.

Lemma constant_part_scaled a k : Z.abs a < 2 ^ (DAO_RESHARE_COEFF_SCALE_BITS - 1) -> constant_part (a + coeff_scale * k) = a.
Proof.
  unfold constant_part, coeff_scale. rewrite Z.shiftl_1_l.
  replace (2 ^ DAO_RESHARE_COEFF_SCALE_BITS) with (2 * 2 ^ (DAO_RESHARE_COEFF_SCALE_BITS - 1))
    by (rewrite <- (Z.pow_succ_r 2) by discriminate; reflexivity).
  generalize (2 ^ (DAO_RESHARE_COEFF_SCALE_BITS - 1)) as h. intros h Ha.
  replace (a + 2 * h * k + h) with (a + h + k * (2 * h)) by ring. rewrite Z_mod_plus_full, Z.mod_small by lia. ring.
Qed.

(** What one member does with its share: it takes the constant for the shares of
    two members, and the program's own functions decrypt. *)
Definition decrypt_alone (pk : PaillierPublicKey) (theta_prime share : Z) (c : bytes) : option Z :=
  p ← dao_threshold_partial_decrypt pk c (constant_part share);
  C ← dao_threshold_combine pk [1; 2] [p; p] 2;
  dao_threshold_finalize pk C theta_prime.

Lemma quorum_two : quorum 2 [1; 2].
Proof.
  split; [apply (bool_decide_unpack (NoDup [1; 2])); by vm_compute|]. split; [|split; [done|vm_compute; split; congruence]].
  intros i. rewrite !elem_of_cons, elem_of_nil. unfold committee, DAO_DKG_MAX_COMMITTEE_SIZE. rewrite elem_of_seqZ. lia.
Qed.

Lemma constant_key pk f T theta : threshold_key pk f T theta -> threshold_key pk (fun _ => f 0) 2 theta.
Proof.
  intros [Hpk _ Hk Ht Hu]. split; [done| |done|done|done]. exists (f 0), (fun _ => 0). split; [apply poly_zero|]. intros; lia.
Qed.

Lemma decrypt_alone_ok pk f T theta share c v : threshold_key pk f T theta -> constant_part share = f 0 ->
  0 <= v < pk_N pk -> enc_of pk c v -> decrypt_alone pk theta share c = Some v.
Proof.
  intros Hk Hs Hv (r & Hr & ->).
  destruct (threshold_recover pk _ 2 theta v r [1; 2] (constant_key _ _ _ _ Hk) quorum_two Hv Hr) as (ps & C & E1 & E2 & E3).
  unfold decrypt_alone. rewrite Hs. cbn [mapM] in E1. destruct (dao_threshold_partial_decrypt _ _ _) as [p|]; [|done].
  cbn [mbind option_bind mret option_ret] in *. injection E1 as <-. rewrite E2. exact E3.
Qed.

(** C20: After a resharing every new member holds the whole key.  Once its node has
    committed the result, the low bits of the one share that it has stored are the
    secret that the committee shares, and with them it decrypts alone every
    ciphertext under the key of the votes: the single ballots as well as the
    totals. *)
Theorem new_member_decrypts_alone `{DigestLaws} `{PrivateBoxLaws} `{Crypto} pid end_h tg genesis pk grp f node_of chain :
  network pid end_h tg genesis pk grp f node_of chain -> Z.abs (f 0) < 2 ^ (DAO_RESHARE_COEFF_SCALE_BITS - 1) ->
  exists deals,
    (forall k i, subset tg !! k = Some i -> exists d cfg st,
       deals !! k = Some d /\ rx_runner (started_node pid end_h node_of (old_key tg i)) = Some (cfg, st) /\ rn_sent st = [d]) /\
    forall m order, m ∈ rt_new_members tg -> reaches tg m order ->
    exists packed raw share,
      tn_local_shares (rx_tally (fst (final_node pid end_h tg node_of deals order m)))
        !! (rt_cur_id tg + 1, position_of m (rt_new_members tg)) = Some packed /\
      dao_unpack_local_share packed (tk_key_id (rt_key tg)) = Some raw /\ bn_from_signed_share raw = Some share /\
      constant_part share = f 0 /\
      forall c v, 0 <= v < pk_N pk -> enc_of pk c v ->
        decrypt_alone pk (BN_bin2bn (tk_theta_bytes (rt_key tg))) share c = Some v.
Proof.
  intros Hn Hsec. destruct (network_reshares pid end_h tg genesis pk grp f _ node_of (network_shape _ _ _ _ _ _ _ _ _ Hn) (nw_held _ _ _ _ _ _ _ _ _ Hn)
    (nw_old _ _ _ _ _ _ _ _ _ Hn) (fun m Hm => proj1 (nw_new _ _ _ _ _ _ _ _ _ Hn m Hm)))
    as (deals & record & _ & Hd & _ & _ & _ & _ & _ & _ & _ & Hf).
  exists deals. split.
  { intros k i Hk'. destruct (Hd k i Hk') as (d & st & D). exists d, (cfg_of end_h tg genesis pk grp f node_of (old_key tg i)), st. exact D. }
  intros m order Hm Hr. destruct (Hf m order Hm Hr) as (_ & _ & packed & raw & E & Eu & Es). exists packed, raw. eexists.
  split; [rewrite E; cbn [committed tn_local_shares]; apply lookup_insert_eq|]. split; [exact Eu|]. split; [exact Es|].
  assert (constant_part (reshared f (cs tg genesis node_of) (position_of m (rt_new_members tg))) = f 0) as Ec by (apply constant_part_scaled; exact Hsec).
  split; [exact Ec|]. intros c v Hv Hc.
  exact (decrypt_alone_ok pk f _ _ _ c v (hk_key _ _ _ _ _ _ (hd_holds _ _ _ _ _ _ _ (nw_held _ _ _ _ _ _ _ _ _ Hn))) Ec Hv Hc).
Qed.

(** ** The proof of a partial decryption *)

(** The estimate of a share from the public challenge and response. *)
Definition estimate (proof : dao_partial_decryption_proof) : option Z :=
  Zr ← signed_unpad (pp_Z proof); Some (Zr / (BN_bin2bn (pp_E proof) * dao_dkg_delta)).

(** From a proof one reads off the share up to the quotient of the modulus and the
    challenge, some 1750 of its more than 8000 bits. *)
Lemma partial_proof_reveals_share `{DigestLaws} pk V_K V_K_i i c c_i share r proof :
  dao_partial_decryption_prove pk V_K V_K_i i c c_i share r = Some proof -> 0 <= r < pk_N pk -> 0 < BN_bin2bn (pp_E proof) ->
  exists est, estimate proof = Some est /\
    share <= est <= share + pk_N pk / (BN_bin2bn (pp_E proof) * dao_dkg_delta).
Proof.
  unfold dao_partial_decryption_prove. intros Hp Hr. repeat (case_match; [done|]).
  match type of Hp with context [challenge_hash ?a ?b ?x ?y] =>
    pose proof (challenge_hash_range a b x y) as HE; set (E := challenge_hash a b x y) in * end.
  destruct (signed_pad _ _) as [z|] eqn:Ez in Hp; [|done]. cbn [mbind option_bind] in Hp. injection Hp as <-.
  cbn [pp_E]. rewrite (bin2bn_binpad E 32) by exact HE. intros Hpos. unfold estimate. cbn [pp_Z pp_E].
  rewrite (signed_unpad_pad _ _ _ Ez), (bin2bn_binpad E 32) by exact HE. eexists. split; [done|].
  assert (0 < E * dao_dkg_delta) as HD by (unfold dao_dkg_delta; lia).
  replace (r + E * dao_dkg_delta * share) with (r + share * (E * dao_dkg_delta)) by ring. rewrite Z.div_add by lia.
  pose proof (Z.div_pos r _ (proj1 Hr) HD). pose proof (Z.div_le_mono r (pk_N pk) _ HD). lia.
Qed.

(** ** Witness: the committee that [ReshareNodeProofs] reshares to *)

Lemma new_member_decrypts_alone_witness : exists deals packed raw share c,
  tn_local_shares (rx_tally (fst (@final_node toy_digests toy_box sample_crypto pid323 200 tg323 node_of323 deals order323 (node_key 4))))
    !! (rt_cur_id tg323 + 1, 3) = Some packed /\
  dao_unpack_local_share packed (tk_key_id (rt_key tg323)) = Some raw /\ bn_from_signed_share raw = Some share /\
  encrypt pk323 42 5 = Some c /\ decrypt_alone pk323 (BN_bin2bn (tk_theta_bytes (rt_key tg323))) share c = Some 42.
Proof.
  destruct (@new_member_decrypts_alone toy_digests toy_digest_laws toy_box toy_box_laws sample_crypto pid323 200 tg323 block23 pk323 grp23 share323
    node_of323 state323 network323) as (deals & _ & F); [reflexivity|].
  destruct (F (node_key 4) order323) as (packed & raw & share & E1 & E2 & E3 & _ & E4); [set_solver|apply reaches323|].
  exists deals, packed, raw, share, (ct_bytes pk323 (enc pk323 42 5)). split; [exact E1|]. split; [exact E2|]. split; [exact E3|]. split.
  - apply encrypt_spec; [by vm_compute|done|done|reflexivity].
  - apply E4; [done|]. exists 5. split; [reflexivity|done].
Defined.
