(* ===== verification/Voting.v ===== *)
(** * The vote manager

    [governance/vote_manager.cpp]: the first version of votes (weights and
    balances in the clear), the classification of a transaction, and the
    processing of a block.

    The outputs of the chain and the curve are parameters. *)

From S2P Require Import Prelude Archive TxExtra Curve CurveModel GovStore ParamExecution Paillier Threshold Emission VotingWeight VoteV2 VoteProof.

(** ** Transactions *)

(** What the vote manager reads of a transaction; the key image is that of a
    single [txin_vns_vote] input, if the transaction has one. *)
Record vote_tx := { vt_hash : hash; vt_extra : bytes; vt_vote_key_image : option bytes }.

Inductive vote_result :=
| success | missing_vote_tag | invalid_format | invalid_proposal_id | invalid_direction
| voting_period_closed | already_voted | invalid_signature.

Inductive vote_kind := vk_none | vk_v1 | vk_v2 | vk_malformed | vk_multiple.

Record proposal_outcome := { yes_w : Z; no_w : Z; yes_b : Z; no_b : Z }.

(** The tables the vote manager reads and writes.  Nullifiers of both kinds of
    votes share one table. *)
Record vote_state := {
  vm_proposals : gmap hash proposal_record;
  vm_outcomes : gmap hash proposal_outcome;
  vm_vote_records : gmap bytes unit;   (* V1 vote records, by proposal and key image *)
  vm_dao : dao_db;
}.

Definition set_outcome (s : vote_state) (pid : hash) (o : proposal_outcome) : vote_state :=
  {| vm_proposals := vm_proposals s; vm_outcomes := <[pid := o]> (vm_outcomes s);
     vm_vote_records := vm_vote_records s; vm_dao := vm_dao s |}.
Definition set_dao (s : vote_state) (d : dao_db) : vote_state :=
  {| vm_proposals := vm_proposals s; vm_outcomes := vm_outcomes s;
     vm_vote_records := vm_vote_records s; vm_dao := d |}.
Definition remove_vote_record (s : vote_state) (pid ki : bytes) : vote_state :=
  {| vm_proposals := vm_proposals s; vm_outcomes := vm_outcomes s;
     vm_vote_records := delete (pid ++ ki) (vm_vote_records s); vm_dao := vm_dao s |}.

Class VoteEnv := {
  vote_trap_bool : Z -> bool;   (* a bool read from a byte other than 0 and 1 *)
  get_output_key_from_global : Z -> option output_data_t;   (* the outputs of the chain *)
}.

Definition DAO_V2_ACTIVATION_HEIGHT : Z := 82000.
Definition dao_v2_active (h : Z) : bool := DAO_V2_ACTIVATION_HEIGHT <=? h.

Section votes.
Context `{VoteEnv} `{RctOps}.
Notation parse_tx_extra := (parse_tx_extra vote_trap_bool).

(** The scan looks for the first byte equal to the tag, wherever it stands. *)
Fixpoint is_vote_extra (extra : bytes) : bool :=
  match extra with
  | [] => false
  | c :: rest =>
      if c =? TX_EXTRA_GOVERNANCE then
        match parse_all read_governance_payload rest with
        | None => false
        | Some gp => gp_type gp =? GO_VOTE
        end
      else is_vote_extra rest
  end.

Definition is_vote_tx (tx : vote_tx) : bool := is_vote_extra (vt_extra tx).

Fixpoint first_payload (fields : list tx_extra_field) : option governance_payload :=
  match fields with
  | [] => None
  | tx_extra_governance_payload gp :: _ => Some gp
  | _ :: rest => first_payload rest
  end.

Definition extract_vote (tx : vote_tx) : option vote_proof :=
  fields ← parse_tx_extra (vt_extra tx);
  gp ← first_payload fields;
  if negb (gp_type gp =? GO_VOTE) then None else parse_all (read_vote_proof vote_trap_bool) (gp_data gp).

(** The first V2 object; its data must be one whole proof. *)
Fixpoint first_v2 (fields : list tx_extra_field) : option governance_payload :=
  match fields with
  | [] => None
  | tx_extra_governance_payload gp :: rest =>
      if gp_type gp =? GO_VOTE_V2 then Some gp else first_v2 rest
  | _ :: rest => first_v2 rest
  end.

Definition extract_vote_v2 (tx : vote_tx) : option vote_proof_v2 :=
  fields ← parse_tx_extra (vt_extra tx);
  gp ← first_v2 fields;
  if is_empty (gp_data gp) then None else
  proof ← parse_all read_vote_proof_v2 (gp_data gp);
  if negb (v2_version proof =? 2) then None else Some proof.

Fixpoint count_votes (fields : list tx_extra_field) (v1 v2 : Z) : option (Z * Z) :=
  match fields with
  | [] => Some (v1, v2)
  | tx_extra_governance_payload gp :: rest =>
      if (gp_type gp =? GO_PROPOSAL) || (gp_type gp =? GO_EXECUTION) then count_votes rest v1 v2 else
      if gp_type gp =? GO_VOTE then count_votes rest (v1 + 1) v2 else
      if gp_type gp =? GO_VOTE_V2 then count_votes rest v1 (v2 + 1) else None
  | _ :: rest => count_votes rest v1 v2
  end.

Definition classify_vote_tx (tx : vote_tx) : vote_kind :=
  match parse_tx_extra (vt_extra tx) with
  | None => vk_malformed
  | Some fields =>
      match count_votes fields 0 0 with
      | None => vk_malformed
      | Some (v1, v2) =>
          if v1 + v2 =? 0 then vk_none else
          if 1 <? v1 + v2 then vk_multiple else
          if v2 =? 1 then vk_v2 else vk_v1
      end
  end.

(** ** V1 votes *)

(** The loop over the output heights. *)
Fixpoint sum_weights (amount : Z) (heights : list Z) (height acc : Z) : option Z :=
  match heights with
  | [] => Some acc
  | oh :: rest =>
      match calculate_voting_weight amount oh height with
      | None => None
      | Some w => sum_weights amount rest height (u128 (acc + w))
      end
  end.

Definition zero_outcome : proposal_outcome := {| yes_w := 0; no_w := 0; yes_b := 0; no_b := 0 |}.

Definition add_to_outcome (o : proposal_outcome) (yes : bool) (w b : Z) : proposal_outcome :=
  if yes then {| yes_w := u64 (yes_w o + w); no_w := no_w o; yes_b := u64 (yes_b o + b); no_b := no_b o |}
  else {| yes_w := yes_w o; no_w := u64 (no_w o + w); yes_b := yes_b o; no_b := u64 (no_b o + b) |}.

Definition vote_nullifier (vp : vote_proof) : hash :=
  match vp_voting_nullifiers vp with [] => null_hash | nf :: _ => nf end.

Definition process_v1_vote (tx : vote_tx) (height : Z) (dry_run : bool) (s : vote_state)
    : vote_result * vote_state :=
  if negb (is_vote_tx tx) then (missing_vote_tag, s) else
  match extract_vote tx with
  | None => (invalid_format, s)
  | Some vp =>
    if negb (vp_version vp =? 1) then (invalid_format, s) else
    match vm_proposals s !! vp_proposal_id vp with
    | None => (invalid_proposal_id, s)
    | Some rec =>
      if dao_v2_active height then (invalid_format, s) else
      if (voting_end_height rec <? height) || (height <? submission_height rec)
      then (voting_period_closed, s) else
      if dry_run then (success, s) else
      let nullifier := vote_nullifier vp in
      if beq nullifier null_hash then (invalid_format, s) else
      if has_vote_nullifier (vm_dao s) (vp_proposal_id vp) nullifier then (already_voted, s) else
      let total_balance := vp_participation_balance vp in
      if is_empty (vp_output_heights vp) ||
         negb (length (vp_output_heights vp) =? length (vp_voting_nullifiers vp))%nat
      then (invalid_format, s) else
      match sum_weights (vp_participation_balance vp / zlen (vp_voting_nullifiers vp))
              (vp_output_heights vp) height 0 with
      | None => (invalid_format, s)
      | Some wide =>
        if UINT64_MAX <? wide then (invalid_format, s) else
        if (total_balance =? 0) || (wide =? 0) then (invalid_format, s) else
        let o := default zero_outcome (vm_outcomes s !! vp_proposal_id vp) in
        let o := add_to_outcome o (vp_direction_yes vp) wide total_balance in
        let s := set_dao s (add_vote_nullifier (vm_dao s) (vp_proposal_id vp) nullifier) in
        (success, set_outcome s (vp_proposal_id vp) o)
      end
    end
  end.

Definition saturating_sub (x y : Z) : Z := x - (if y <=? x then y else x).

(** The V1 branch of [VoteManager::rollback_block]. *)
Definition rollback_v1_vote (tx : vote_tx) (s : vote_state) : vote_state :=
  match extract_vote tx with
  | None => s
  | Some vp =>
    let s := match vt_vote_key_image tx with
             | Some ki => remove_vote_record s (vp_proposal_id vp) ki
             | None => s
             end in
    let nullifier := vote_nullifier vp in
    if beq nullifier null_hash then s else
    let s := set_dao s (remove_vote_nullifier (vm_dao s) (vp_proposal_id vp) nullifier) in
    match vm_outcomes s !! vp_proposal_id vp with
    | None => s
    | Some o =>
        set_outcome s (vp_proposal_id vp)
          (if vp_direction_yes vp
           then {| yes_w := saturating_sub (yes_w o) (vp_voting_weight vp); no_w := no_w o;
                   yes_b := saturating_sub (yes_b o) (vp_participation_balance vp); no_b := no_b o |}
           else {| yes_w := yes_w o; no_w := saturating_sub (no_w o) (vp_voting_weight vp);
                   yes_b := yes_b o; no_b := saturating_sub (no_b o) (vp_participation_balance vp) |})
    end
  end.

(** ** V2 votes and blocks *)

(** [None] is an exception of the curve arithmetic. *)

Definition process_v2_vote (tx : vote_tx) (height : Z) (block_nfs : list hash) (dry_run : bool)
    (s : vote_state) : option (vote_result * list hash * vote_state) :=
  match extract_vote_v2 tx with
  | None => Some (invalid_format, block_nfs, s)
  | Some proof =>
    match vm_proposals s !! v2_proposal_id proof with
    | None => Some (invalid_proposal_id, block_nfs, s)
    | Some prop =>
      if negb (dao_v2_active height) then Some (invalid_format, block_nfs, s) else
      match get_dao_tally_key_by_id (vm_dao s) (v2_tally_key_id proof) with
      | None => Some (invalid_proposal_id, block_nfs, s)
      | Some _ =>
        match verify get_output_key_from_global (vm_proposals s) (vm_dao s) proof height block_nfs with
        | throws => None
        | refuse _ => Some (invalid_signature, block_nfs, s)
        | pass _ =>
          if dry_run then Some (success, block_nfs, s) else
          match apply_dao_vote proof (vt_hash tx) (vm_dao s) with
          | applied d => Some (success, block_nfs ++ v2_nullifiers proof, set_dao s d)
          | not_applied => Some (invalid_format, block_nfs, s)
          | apply_threw => None
          end
        end
      end
    end
  end.

Definition process_vote (tx : vote_tx) (height : Z) (dry_run : bool) (s : vote_state)
    : option (vote_result * vote_state) :=
  match classify_vote_tx tx with
  | vk_none => Some (missing_vote_tag, s)
  | vk_malformed | vk_multiple => Some (invalid_format, s)
  | vk_v1 => Some (process_v1_vote tx height dry_run s)
  | vk_v2 => '(r, _, s) ← process_v2_vote tx height [] dry_run s; Some (r, s)
  end.

Definition vote_ok (r : vote_result) : bool := match r with success => true | _ => false end.

(** [VoteManager::process_block] over the transactions of the block; [false]
    leaves the votes already counted. *)
Fixpoint process_block_votes (txs : list vote_tx) (height : Z) (block_nfs : list hash) (s : vote_state)
    : option (bool * vote_state) :=
  match txs with
  | [] => Some (true, s)
  | tx :: rest =>
      match classify_vote_tx tx with
      | vk_none => process_block_votes rest height block_nfs s
      | vk_malformed | vk_multiple => Some (false, s)
      | vk_v1 =>
          match process_v1_vote tx height false s with
          | (missing_vote_tag, s) => process_block_votes rest height block_nfs s
          | (r, s) => if vote_ok r then process_block_votes rest height block_nfs s else Some (false, s)
          end
      | vk_v2 =>
          '(r, block_nfs, s) ← process_v2_vote tx height block_nfs false s;
          if vote_ok r then process_block_votes rest height block_nfs s else Some (false, s)
      end
  end.

(** [VoteManager::rollback_block]; [None] when a curve operation throws. *)
Fixpoint rollback_block_votes (txs : list vote_tx) (s : vote_state) : option vote_state :=
  match txs with
  | [] => Some s
  | tx :: rest =>
      match classify_vote_tx tx with
      | vk_v1 => rollback_block_votes rest (rollback_v1_vote tx s)
      | vk_v2 =>
          match extract_vote_v2 tx with
          | None => rollback_block_votes rest s
          | Some proof =>
              d ← rollback_dao_vote proof (vt_hash tx) (vm_dao s);
              rollback_block_votes rest (set_dao s d)
          end
      | _ => rollback_block_votes rest s
      end
  end.

End votes.

(** ** Counting open votes *)

(** The weight the chain gives a vote: its balance, spread evenly over the
    outputs, each at its own age. *)
Definition v1_weight (vp : vote_proof) (height : Z) : Z :=
  zsum ((fun oh => vp_participation_balance vp / zlen (vp_voting_nullifiers vp) * age_factor oh height)
        <$> vp_output_heights vp).

Record vote_proof_wf (vp : vote_proof) : Prop := {
  vw_balance : 0 <= vp_participation_balance vp < 2 ^ 64;
  vw_heights : Forall (fun oh => 0 <= oh < 2 ^ 64) (vp_output_heights vp);
  vw_length : zlen (vp_output_heights vp) < 2 ^ 32;
}.

Lemma sum_weights_none amount hs h acc :
  0 <= amount < 2 ^ 64 -> 0 <= h < 2 ^ 64 -> Forall (fun oh => 0 <= oh < 2 ^ 64) hs ->
  ~ Forall (fun oh => oh <= h) hs -> sum_weights amount hs h acc = None.
Proof.
  intros Ha Hh Hhs. revert acc. induction Hhs as [|oh hs Ho _ IH]; intros acc Hn.
  - destruct Hn. constructor.
  - cbn [sum_weights]. destruct (voting_weight_gen amount oh h Ha Ho Hh) as [Hlt Hle].
    destruct (Z.lt_ge_cases h oh) as [Hc|Hc]; [by rewrite Hlt|].
    rewrite (proj1 (Hle Hc)). apply IH. intros Hf. apply Hn. by constructor.
Qed.

Lemma sum_weights_some amount hs h acc :
  0 <= amount < 2 ^ 64 -> 0 <= h < 2 ^ 64 -> Forall (fun oh => 0 <= oh < 2 ^ 64) hs ->
  Forall (fun oh => oh <= h) hs ->
  0 <= acc -> acc + zlen hs * governance_w_max < 2 ^ 128 ->
  sum_weights amount hs h acc = Some (acc + zsum ((fun oh => amount * age_factor oh h) <$> hs)) /\
  0 <= zsum ((fun oh => amount * age_factor oh h) <$> hs).
Proof.
  intros Ha Hh Hhs. revert acc. induction Hhs as [|oh hs Ho _ IH]; intros acc Hf Hacc Hb.
  - cbn. rewrite Z.add_0_r. done.
  - apply Forall_cons in Hf as [Hc Hf]. cbn [sum_weights].
    destruct (voting_weight_gen amount oh h Ha Ho Hh) as [_ Hle].
    destruct (Hle Hc) as [-> Hw]. rewrite zlen_cons in Hb. pose proof (zlen_nonneg hs).
    unfold governance_w_max in *.
    assert (u128 (acc + amount * age_factor oh h) = acc + amount * age_factor oh h) as ->
      by (apply Z.mod_small; nia).
    destruct (IH (acc + amount * age_factor oh h)) as [-> Hz]; [done|lia|lia|].
    change (zsum ((fun oh => amount * age_factor oh h) <$> oh :: hs)) with
      (amount * age_factor oh h + zsum ((fun oh => amount * age_factor oh h) <$> hs)).
    split; [f_equal; lia|lia].
Qed.

Section counted.
Context `{VoteEnv} `{RctOps}.
Notation parse_tx_extra := (parse_tx_extra vote_trap_bool).

(** When a V1 vote counts. *)
Definition v1_acceptable (s : vote_state) (vp : vote_proof) (height : Z) : Prop :=
  vp_version vp = 1 /\
  (exists rec, vm_proposals s !! vp_proposal_id vp = Some rec /\
     submission_height rec <= height <= voting_end_height rec) /\
  height < DAO_V2_ACTIVATION_HEIGHT /\
  vote_nullifier vp <> null_hash /\
  has_vote_nullifier (vm_dao s) (vp_proposal_id vp) (vote_nullifier vp) = false /\
  vp_output_heights vp <> [] /\ length (vp_output_heights vp) = length (vp_voting_nullifiers vp) /\
  Forall (fun oh => oh <= height) (vp_output_heights vp) /\
  0 < v1_weight vp height <= UINT64_MAX /\ 0 < vp_participation_balance vp.

Definition v1_counted (s : vote_state) (vp : vote_proof) (height : Z) : vote_state :=
  set_outcome (set_dao s (add_vote_nullifier (vm_dao s) (vp_proposal_id vp) (vote_nullifier vp)))
    (vp_proposal_id vp)
    (add_to_outcome (default zero_outcome (vm_outcomes s !! vp_proposal_id vp))
       (vp_direction_yes vp) (v1_weight vp height) (vp_participation_balance vp)).

Lemma v1_sum vp height : vote_proof_wf vp -> 0 <= height < 2 ^ 64 ->
  length (vp_output_heights vp) = length (vp_voting_nullifiers vp) -> vp_output_heights vp <> [] ->
  (Forall (fun oh => oh <= height) (vp_output_heights vp) ->
   sum_weights (vp_participation_balance vp / zlen (vp_voting_nullifiers vp))
     (vp_output_heights vp) height 0 = Some (v1_weight vp height)) /\
  (~ Forall (fun oh => oh <= height) (vp_output_heights vp) ->
   sum_weights (vp_participation_balance vp / zlen (vp_voting_nullifiers vp))
     (vp_output_heights vp) height 0 = None).
Proof.
  intros [Hb Hh Hl] Hht Hlen Hne.
  assert (0 < zlen (vp_voting_nullifiers vp)).
  { unfold zlen. rewrite <- Hlen. destruct (vp_output_heights vp); [done|]. cbn. lia. }
  assert (0 <= vp_participation_balance vp / zlen (vp_voting_nullifiers vp) < 2 ^ 64).
  { split; [apply Z.div_pos; lia|]. apply Z.div_lt_upper_bound; nia. }
  split; intros Hf.
  - unfold v1_weight. apply (sum_weights_some _ _ _ 0); try done. unfold governance_w_max. nia.
  - by apply sum_weights_none.
Qed.

Lemma v1_weight_nonneg vp height : vote_proof_wf vp -> 0 <= height < 2 ^ 64 ->
  length (vp_output_heights vp) = length (vp_voting_nullifiers vp) -> vp_output_heights vp <> [] ->
  Forall (fun oh => oh <= height) (vp_output_heights vp) -> 0 <= v1_weight vp height.
Proof.
  intros [Hb Hh _] Hht _ _ Hf. unfold v1_weight.
  assert (0 <= vp_participation_balance vp / zlen (vp_voting_nullifiers vp)).
  { destruct (Z.eq_dec (zlen (vp_voting_nullifiers vp)) 0) as [->|]; [by rewrite Z.div_0_r|].
    apply Z.div_pos; [lia|]. pose proof (zlen_nonneg (vp_voting_nullifiers vp)). lia. }
  induction Hf as [|oh hs Ho _ IH]; [done|].
  apply Forall_cons in Hh as [_ Hh]. pose proof (age_factor_range oh height Ho).
  rewrite fmap_cons. cbn [zsum foldr]. specialize (IH Hh). unfold zsum in IH. nia.
Qed.

Lemma process_v1_cases tx vp s height : is_vote_tx tx = true -> extract_vote tx = Some vp ->
  vote_proof_wf vp -> 0 <= height < 2 ^ 64 ->
  (v1_acceptable s vp height /\
   process_v1_vote tx height false s = (success, v1_counted s vp height)) \/
  (~ v1_acceptable s vp height /\ exists r, r <> success /\ process_v1_vote tx height false s = (r, s)).
Proof.
  intros Ht He Hwf Hht. unfold process_v1_vote. rewrite Ht, He. cbn [negb].
  destruct (vp_version vp =? 1) eqn:Ev; to_prop; cbn [negb];
    [|right; split; [by intros (? & _)|by exists invalid_format]].
  destruct (vm_proposals s !! vp_proposal_id vp) as [rec|] eqn:Ep;
    [|right; split; [by intros (_ & (? & ? & _) & _); congruence|by exists invalid_proposal_id]].
  unfold dao_v2_active.
  destruct (DAO_V2_ACTIVATION_HEIGHT <=? height) eqn:Ea; to_prop;
    [right; split; [by intros (_ & _ & ? & _); lia|by exists invalid_format]|].
  destruct ((voting_end_height rec <? height) || (height <? submission_height rec)) eqn:Ew; to_prop;
    [right; split; [intros (_ & (? & ? & ?) & _); simplify_eq; lia|by exists voting_period_closed]|].
  destruct (beq (vote_nullifier vp) null_hash) eqn:En; [apply beq_true in En|apply beq_false in En];
    [right; split; [by intros (_ & _ & _ & ? & _)|by exists invalid_format]|].
  destruct (has_vote_nullifier _ _ _) eqn:Eh;
    [right; split; [intros (_ & _ & _ & _ & ? & _); congruence|by exists already_voted]|].
  destruct (is_empty (vp_output_heights vp) || _) eqn:El.
  { right. split; [|by exists invalid_format].
    intros (_ & _ & _ & _ & _ & Hne & Hl & _). rewrite Hl, Nat.eqb_refl in El.
    rewrite (proj2 (is_empty_false _) Hne) in El. done. }
  apply orb_false_iff in El as [Hne Hl]. apply is_empty_false in Hne. to_prop.
  destruct (v1_sum vp height Hwf Hht Hl Hne) as [Hsome Hnone].
  destruct (decide (Forall (fun oh => oh <= height) (vp_output_heights vp))) as [Hf|Hf];
    [|right; rewrite (Hnone Hf); split;
        [by intros (_ & _ & _ & _ & _ & _ & _ & ? & _)|by exists invalid_format]].
  rewrite (Hsome Hf).
  destruct (UINT64_MAX <? v1_weight vp height) eqn:Em; to_prop;
    [right; split; [intros (_ & _ & _ & _ & _ & _ & _ & _ & ? & _); lia|by exists invalid_format]|].
  destruct ((vp_participation_balance vp =? 0) || (v1_weight vp height =? 0)) eqn:Ez; to_prop.
  { right. split; [|by exists invalid_format].
    intros (_ & _ & _ & _ & _ & _ & _ & _ & ? & ?). lia. }
  left. split; [|done]. pose proof (vw_balance _ Hwf).
  assert (0 <= v1_weight vp height).
  { pose proof (v1_weight_nonneg vp height Hwf Hht Hl Hne Hf). lia. }
  split_and!; try done; try lia. exists rec. split; [done|lia].
Qed.

End counted.


(** A rollback is exact for a vote that claims the weight the chain computes, if
    the proposal had an outcome row and its sums did not wrap around. *)
Lemma v1_vote_rolled_back `{VoteEnv} tx vp s height o :
  extract_vote tx = Some vp -> vote_proof_wf vp -> 0 <= height < 2 ^ 64 ->
  v1_acceptable s vp height -> vt_vote_key_image tx = None ->
  vp_voting_weight vp = v1_weight vp height ->
  vm_outcomes s !! vp_proposal_id vp = Some o ->
  0 <= yes_w o -> 0 <= no_w o -> 0 <= yes_b o -> 0 <= no_b o ->
  yes_w o + v1_weight vp height < 2 ^ 64 -> no_w o + v1_weight vp height < 2 ^ 64 ->
  yes_b o + vp_participation_balance vp < 2 ^ 64 -> no_b o + vp_participation_balance vp < 2 ^ 64 ->
  rollback_v1_vote tx (v1_counted s vp height) = s.
Proof.
  intros He Hwf Hht (_ & _ & _ & Hn & Hfresh & _ & _ & _ & Hw & Hb) Hk Hc Ho Y N YB NB O1 O2 O3 O4.
  unfold rollback_v1_vote. rewrite He, Hk. rewrite (proj2 (beq_false _ _) Hn).
  unfold v1_counted. cbn [vm_outcomes set_dao set_outcome]. rewrite lookup_insert_eq, Ho, Hc.
  cbn [from_option id]. unfold has_vote_nullifier in Hfresh. apply bool_decide_eq_false in Hfresh.
  apply eq_None_not_Some in Hfresh.
  assert (forall x y, 0 <= x -> 0 <= y -> x + y < 2 ^ 64 -> saturating_sub (u64 (x + y)) y = x) as Hsub.
  { intros x y Hx Hy Hxy. unfold saturating_sub. rewrite u64_id by lia.
    rewrite (proj2 (Z.leb_le _ _)) by lia. lia. }
  assert (delete (vp_proposal_id vp ++ vote_nullifier vp)
    (<[vp_proposal_id vp ++ vote_nullifier vp := tt]> (vote_nullifiers (vm_dao s))) =
    vote_nullifiers (vm_dao s)) as Hdel by by apply delete_insert_id.
  unfold set_outcome, set_dao, remove_vote_nullifier, add_vote_nullifier, set_nullifiers, add_to_outcome.
  destruct s as [ps os rs [tk ag vr nf]], o as [a b c d].
  cbn in *. destruct (vp_direction_yes vp); cbn; rewrite !Hsub, Hdel, insert_insert_eq, insert_id by (done || lia);
    done.
Qed.

(** ** Sample votes *)

Definition payload_extra (ty : Z) (data : bytes) : bytes :=
  write_field (tx_extra_governance_payload {| gp_type := ty; gp_data := data |}).

Definition sample_env : VoteEnv :=
  {| vote_trap_bool := fun _ => true; get_output_key_from_global := fun _ => None |}.

Definition sample_vp (nfs : list hash) (claimed : Z) : vote_proof :=
  {| vp_version := 1; vp_proposal_id := replicate 32 9; vp_direction_yes := true;
     vp_snapshot_height := 0; vp_participation_balance := 1000; vp_voting_weight := claimed;
     vp_voting_nullifiers := nfs; vp_output_heights := replicate (length nfs) 10;
     vp_balance_commitment := replicate 32 0; vp_weight_commitment := replicate 32 0;
     vp_aggregate_proof := [] |}.

Definition nf_a : hash := replicate 32 3.
Definition nf_b : hash := replicate 32 4.

Definition sample_vote (prefix : bytes) (nfs : list hash) (claimed : Z) : vote_tx :=
  {| vt_hash := replicate 32 5; vt_vote_key_image := None;
     vt_extra := prefix ++ payload_extra GO_VOTE (write_vote_proof (sample_vp nfs claimed)) |}.

Definition sample_vote_prop : proposal_record :=
  {| proposal_id := replicate 32 9; ptype := 1; title := []; description := []; recipient := [];
     amount := 0; voting_period_days := 0; submission_height := 50; voting_end_height := 60000;
     tally_key_id := null_hash; submission_tx_hash := []; executed := false;
     status := PROPOSAL_STATUS_ACTIVE; status_height := 50; recipient_view_public_key := [];
     is_subaddress := false |}.

Definition sample_vote_state : vote_state :=
  {| vm_proposals := {[ replicate 32 9 := sample_vote_prop ]};
     vm_outcomes := {[ replicate 32 9 := zero_outcome ]}; vm_vote_records := ∅;
     vm_dao := {| tally_keys := ∅; aggregates := ∅; vote_records := ∅; vote_nullifiers := ∅ |} |}.

Lemma sample_acceptable : @v1_acceptable sample_vote_state (sample_vp [nf_a; nf_b] 0) 50000.
Proof.
  split; [done|]. split; [exists sample_vote_prop; split; [by vm_compute|cbn; lia]|].
  split; [by vm_compute|]. split; [by vm_compute|]. split; [by vm_compute|]. split; [done|].
  split; [done|]. split; [repeat constructor; lia|]. split; [vm_compute; split; congruence|by vm_compute].
Qed.

Lemma sample_wf nfs claimed : (length nfs <= 2)%nat -> vote_proof_wf (sample_vp nfs claimed).
Proof.
  intros Hl. split; cbn; [lia|apply Forall_replicate; lia|].
  unfold zlen. rewrite length_replicate. lia.
Qed.


(** ** Where the code does not do what it means to *)

(** The rollback subtracts the weight the wallet claimed, which nothing checks,
    while counting added the weight the chain computed. *)
Lemma rollback_uses_claimed_weight :
  let tx := sample_vote [] [nf_a; nf_b] 0 in
  let s := snd (@process_v1_vote sample_env tx 50000 false sample_vote_state) in
  yes_w <$> vm_outcomes (@rollback_v1_vote sample_env tx s) !! replicate 32 9 = Some 6000 /\
  yes_w <$> vm_outcomes sample_vote_state !! replicate 32 9 = Some 0.
Proof. by vm_compute. Qed.

(** Only the first nullifier is looked up and stored: the same outputs listed in
    another order vote again. *)
Lemma reordered_outputs_vote_twice :
  let s := snd (@process_v1_vote sample_env (sample_vote [] [nf_a; nf_b] 0) 50000 false sample_vote_state) in
  let '(r, s') := @process_v1_vote sample_env (sample_vote [] [nf_b; nf_a] 0) 50000 false s in
  r = success /\ yes_w <$> vm_outcomes s' !! replicate 32 9 = Some 12000.
Proof. by vm_compute. Qed.

(** The search for the governance tag does not skip over other fields: a
    transaction key that contains the byte 64 hides the vote behind it. *)
Lemma tag_byte_hides_vote :
  let tx := sample_vote (1 :: 64 :: replicate 31 7) [nf_a; nf_b] 0 in
  @classify_vote_tx sample_env tx = vk_v1 /\
  fst (@process_v1_vote sample_env tx 50000 false sample_vote_state) = missing_vote_tag.
Proof. by vm_compute. Qed.

(** A transaction with a tally result is taken for malformed, and the votes of
    the block after it are not counted. *)
Lemma tally_result_stops_votes :
  let tally := {| vt_hash := replicate 32 6; vt_vote_key_image := None;
                  vt_extra := payload_extra GO_TALLY_RESULT [1; 2; 3] |} in
  @process_block_votes sample_env model_curve model_rct [tally; sample_vote [] [nf_a; nf_b] 0] 50000 [] sample_vote_state
  = Some (false, sample_vote_state).
Proof. by vm_compute. Qed.
