(* ===== verification/VoteDelivery.v ===== *)
(** * From the wallet to the count

    The transactions that carry governance objects: how the wallet selects rings
    and wraps a vote ([wallet2.cpp], [dao_wallet_v2.cpp]), how nodes recognise
    what a transaction carries ([vote_utils.cpp], [blockchain.cpp]), and that a
    wallet's vote goes all the way into the encrypted count. *)

From stdpp Require Import base list gmap sorting.
From Stdlib Require Import ZArith Lia.
From Stdlib Require Import Zmod Zstar.
From S2P Require Import Prelude Archive TxExtra Curve CurveModel GovStore ParamExecution Paillier Threshold VotingWeight VoteV2 VoteProof VoteProofComplete Tally TallyCorrect VoteAccepted VoteSound Voting.
Open Scope Z_scope.

(** ** Transactions *)

Record transaction := {
  tx_version : Z;
  tx_unlock_time : Z;
  tx_vin : nat;    (* the numbers of inputs and outputs *)
  tx_vout : nat;
  tx_extra : bytes;
  tx_rct_type : Z;
}.

Definition RCTTypeNull : Z := 0.
Definition TX_VERSION_DAO_VOTE : Z := 3.

Definition zero_io (tx : transaction) : bool := (tx_vin tx =? 0)%nat && (tx_vout tx =? 0)%nat.

Fixpoint count_objects (ty : Z) (fields : list tx_extra_field) : nat :=
  match fields with
  | [] => 0
  | tx_extra_governance_payload gp :: fields => (if gp_type gp =? ty then 1 else 0) + count_objects ty fields
  | _ :: fields => count_objects ty fields
  end.

Definition parameter_execution_tx (proposal_id : hash) : transaction :=
  let exec_payload := {| pep_version := 1; pep_proposal_id := proposal_id |} in
  let gp := {| gp_type := GO_EXECUTION; gp_data := write_parameter_execution exec_payload |} in
  {| tx_version := 2; tx_unlock_time := 0; tx_vin := 0; tx_vout := 0;
     tx_extra := write_field (tx_extra_governance_payload gp); tx_rct_type := RCTTypeNull |}.

(** The end of [build_tally_result_tx]. *)
Definition tally_result_tx (cert_blob : bytes) : transaction :=
  let gp := {| gp_type := GO_TALLY_RESULT; gp_data := cert_blob |} in
  {| tx_version := 2; tx_unlock_time := 0; tx_vin := 0; tx_vout := 0;
     tx_extra := write_field (tx_extra_governance_payload gp); tx_rct_type := RCTTypeNull |}.

Section recognisers.
Context `{VoteEnv}.

Definition has_one_object (ty : Z) (tx : transaction) : bool :=
  match parse_tx_extra vote_trap_bool (tx_extra tx) with
  | None => false
  | Some fields => (count_objects ty fields =? 1)%nat
  end.

Definition is_dao_v2_vote_tx (tx : transaction) : bool :=
  if negb (tx_version tx =? TX_VERSION_DAO_VOTE) || negb (zero_io tx) then false else has_one_object GO_VOTE_V2 tx.

Definition is_dao_v2_tally_result_tx (tx : transaction) : bool :=
  if negb (zero_io tx) then false else
  if negb (tx_rct_type tx =? RCTTypeNull) then false else has_one_object GO_TALLY_RESULT tx.

Definition is_dao_v2_dkg_activation_tx (tx : transaction) : bool :=
  if negb (zero_io tx) then false else
  if negb (tx_rct_type tx =? RCTTypeNull) then false else has_one_object GO_DKG_KEY_ACTIVATION tx.

Definition is_dao_v2_node_ready_tx (tx : transaction) : bool :=
  if negb (zero_io tx) then false else
  if negb (tx_rct_type tx =? RCTTypeNull) then false else has_one_object GO_NODE_READY tx.

(** The id of the proposal to execute; the first governance payload decides. *)
Definition is_parameter_execution_tx (tx : transaction) : option hash :=
  if negb (zero_io tx) then None else
  fields ← parse_tx_extra vote_trap_bool (tx_extra tx);
  gp ← first_payload fields;
  if negb (gp_type gp =? GO_EXECUTION) then None else
  payload ← parse_all read_parameter_execution (gp_data gp);
  Some (pep_proposal_id payload).

(** The data of the only object of a type. *)
Fixpoint only_object (wanted : Z) (fields : list tx_extra_field) (found : option bytes) : option bytes :=
  match fields with
  | [] => found
  | tx_extra_governance_payload gp :: fields =>
      if negb (gp_type gp =? wanted) then only_object wanted fields found else
      match found with Some _ => None | None => only_object wanted fields (Some (gp_data gp)) end
  | _ :: fields => only_object wanted fields found
  end.

Definition extract_dao_payload (tx : transaction) (wanted : Z) : option bytes :=
  fields ← parse_tx_extra vote_trap_bool (tx_extra tx);
  only_object wanted fields None.

End recognisers.

(** ** The rings of a wallet *)

(** The candidates come sorted by index, without duplicates, with the heights the
    daemon reports. *)
Fixpoint filter_ring (vote_height real_age real_global : Z) (cands filtered : list dao_v2_ring_member_data)
    (real_pos : option nat) : list dao_v2_ring_member_data * option nat :=
  match cands with
  | [] => (filtered, real_pos)
  | m :: cands =>
      if vote_height <? rm_height m then filter_ring vote_height real_age real_global cands filtered real_pos else
      if negb (age_factor_from_height vote_height (rm_height m) =? real_age)
      then filter_ring vote_height real_age real_global cands filtered real_pos else
      filter_ring vote_height real_age real_global cands (filtered ++ [m])
        (if rm_global_index m =? real_global then Some (length filtered) else real_pos)
  end.

Definition swap (l : list dao_v2_ring_member_data) (i j : nat) : list dao_v2_ring_member_data :=
  match l !! i, l !! j with
  | Some x, Some y => <[i := y]> (<[j := x]> l)
  | _, _ => l
  end.

(** The end of [get_dao_v2_ring]: same-age candidates, trimmed to the target. *)
Definition get_dao_v2_ring (cands : list dao_v2_ring_member_data) (vote_height real_height real_global : Z)
    (target_ring_size : nat) : option (list dao_v2_ring_member_data * nat) :=
  if vote_height <? real_height then None else
  let real_age := age_factor_from_height vote_height real_height in
  let '(filtered, real_pos) := filter_ring vote_height real_age real_global cands [] None in
  match real_pos with
  | None => None
  | Some pos =>
      if (length filtered <? 2)%nat then None else
      if (target_ring_size <? length filtered)%nat then
        if (target_ring_size <=? pos)%nat
        then Some (take target_ring_size (swap filtered pos (target_ring_size - 1)), (target_ring_size - 1)%nat)
        else Some (take target_ring_size filtered, pos)
      else Some (filtered, pos)
  end.

Section wallet_tx.
Context `{RctOps}.

Definition vote_v2_tx (proof : vote_proof_v2) : transaction :=
  let gp := {| gp_type := GO_VOTE_V2; gp_data := write_vote_proof_v2 proof |} in
  {| tx_version := TX_VERSION_DAO_VOTE; tx_unlock_time := 0; tx_vin := 0; tx_vout := 0;
     tx_extra := write_field (tx_extra_governance_payload gp); tx_rct_type := RCTTypeNull |}.

Definition build_dao_v2_vote_tx (proposal_id : hash) (submission_height vote_height : Z) (tally_key_id : hash)
    (paillier_modulus : bytes) (direction : Z) (outputs : list dao_v2_vote_output) (rnd : vote_randomness)
    : option transaction :=
  if is_empty outputs then None else
  sources ← mapM prepare_dao_v2_vote_source outputs;
  proof ← build_dao_v2_vote proposal_id submission_height vote_height tally_key_id paillier_modulus direction sources rnd;
  Some (vote_v2_tx proof).

End wallet_tx.

(** ** Rings *)

(** Indices of a ring grow strictly. *)
Definition ascending (l : list dao_v2_ring_member_data) : Prop := StronglySorted Z.lt (map rm_global_index l).

Definition same_age (vote_height real_age : Z) (m : dao_v2_ring_member_data) : bool :=
  (rm_height m <=? vote_height) && (age_factor_from_height vote_height (rm_height m) =? real_age).

Lemma filter_ring_spec vh age g cands acc pos :
  exists pos', filter_ring vh age g cands acc pos = (acc ++ List.filter (same_age vh age) cands, pos') /\
    ((forall k, pos = Some k -> exists m, acc !! k = Some m /\ rm_global_index m = g) ->
     (forall k, pos' = Some k -> exists m, (acc ++ List.filter (same_age vh age) cands) !! k = Some m /\ rm_global_index m = g)) /\
    (pos' = None <-> pos = None /\ Forall (fun m => rm_global_index m <> g) (List.filter (same_age vh age) cands)).
Proof.
  revert acc pos. induction cands as [|m cands IH]; intros acc pos; cbn [filter_ring List.filter].
  { exists pos. rewrite app_nil_r. split; [done|]. split; [done|]. split; [split; [done|constructor]|by intros [? _]]. }
  destruct (Z.ltb_spec vh (rm_height m)) as [Hh|Hh].
  { assert (same_age vh age m = false) as ->; [|apply IH].
    unfold same_age. by rewrite (proj2 (Z.leb_gt _ _)) by lia. }
  assert (same_age vh age m = (age_factor_from_height vh (rm_height m) =? age)) as ->
    by (unfold same_age; by rewrite (proj2 (Z.leb_le _ _)) by lia).
  destruct (age_factor_from_height vh (rm_height m) =? age); cbn [negb]; [|apply IH].
  destruct (IH (acc ++ [m]) (if rm_global_index m =? g then Some (length acc) else pos)) as (pos' & E & P & N).
  exists pos'. rewrite <- app_assoc in *. cbn [app] in *. split; [done|]. split.
  - intros Hpos. apply P. intros k Ek. destruct (Z.eqb_spec (rm_global_index m) g) as [Hg|Hg].
    + injection Ek as <-. exists m. split; [|done]. by apply list_lookup_middle.
    + destruct (Hpos k Ek) as (m' & Hm & Hg'). exists m'. split; [|done]. by apply lookup_app_l_Some.
  - rewrite N, Forall_cons. destruct (Z.eqb_spec (rm_global_index m) g); naive_solver.
Qed.

Lemma ascending_filter P l : ascending l -> ascending (List.filter P l).
Proof.
  unfold ascending. induction l as [|m l IH]; [done|]. cbn [map List.filter]. intros [S F]%StronglySorted_inv.
  destruct (P m); [|by apply IH]. cbn [map]. constructor; [by apply IH|].
  rewrite Forall_map in F |- *. apply Forall_forall. intros x Hx. rewrite Forall_forall in F. apply F.
  apply list_elem_of_In in Hx. apply filter_In in Hx as [Hx _]. by apply list_elem_of_In.
Qed.

Lemma ascending_take n l : ascending l -> ascending (take n l).
Proof.
  unfold ascending. revert n. induction l as [|m l IH]; intros [|n] S; [constructor|constructor|constructor|].
  cbn [map take] in *. apply StronglySorted_inv in S as [S F]. constructor; [by apply IH|].
  apply Forall_map. rewrite Forall_map in F. by apply Forall_take.
Qed.

(** The members before a position and a later member are still in order. *)
Lemma ascending_jump n k l m : ascending l -> l !! k = Some m -> (n <= k)%nat -> ascending (take n l ++ [m]).
Proof.
  unfold ascending. revert n k. induction l as [|x l IH]; intros n k S Hk Hn; [done|].
  cbn [map] in S. apply StronglySorted_inv in S as [S F]. destruct n as [|n]; [cbn; repeat constructor|].
  destruct k as [|k]; [lia|]. cbn in Hk |- *. constructor; [apply (IH n k); [done|done|lia]|].
  rewrite map_app, Forall_app. rewrite Forall_map in F. split; [apply Forall_map; by apply Forall_take|].
  cbn. repeat constructor. by apply (Forall_lookup_1 _ _ _ _ F Hk).
Qed.

Lemma take_swap l i j x y : l !! i = Some x -> l !! j = Some y -> (j < i)%nat -> take (S j) (swap l i j) = take j l ++ [x].
Proof.
  intros Hi Hj Hji. unfold swap. rewrite Hi, Hj. rewrite take_insert_ge by lia. rewrite take_insert_lt by lia.
  rewrite (take_S_r l j y Hj). rewrite insert_app_r_alt by (rewrite length_take; lia).
  rewrite length_take. apply lookup_lt_Some in Hj. replace (j - Nat.min j (length l))%nat with 0%nat by lia. done.
Qed.

(** What the rules of voting ask of a ring, and where the real output stands. *)
Record ring_for (cands : list dao_v2_ring_member_data) (vh rh rg : Z) (target : nat)
    (ring : list dao_v2_ring_member_data) (pos : nat) : Prop := {
  rf_order : ascending ring;
  rf_size : (2 <= length ring <= target)%nat;
  rf_members : Forall (fun m => m ∈ cands /\ rm_height m <= vh /\
    age_factor_from_height vh (rm_height m) = age_factor_from_height vh rh) ring;
  rf_real : exists m, ring !! pos = Some m /\ rm_global_index m = rg;
}.

Lemma same_age_members vh age cands : Forall (fun m => m ∈ cands /\ rm_height m <= vh /\
  age_factor_from_height vh (rm_height m) = age) (List.filter (same_age vh age) cands).
Proof.
  apply Forall_forall. intros m Hm. apply list_elem_of_In, filter_In in Hm as [Hm Hs].
  unfold same_age in Hs. to_prop. split; [by apply list_elem_of_In|done].
Qed.

Lemma get_ring_spec cands vh rh rg target : ascending cands -> (2 <= target)%nat ->
  let fl := List.filter (same_age vh (age_factor_from_height vh rh)) cands in
  match get_dao_v2_ring cands vh rh rg target with
  | Some (ring, pos) => ring_for cands vh rh rg target ring pos
  | None => vh < rh \/ Forall (fun m => rm_global_index m <> rg) fl \/ (length fl < 2)%nat
  end.
Proof.
  intros A Ht fl. unfold get_dao_v2_ring. destruct (Z.ltb_spec vh rh); [by left|].
  destruct (filter_ring_spec vh (age_factor_from_height vh rh) rg cands [] None) as (pos' & E & P & N).
  rewrite E. cbn [app] in *. fold fl in E, P, N |- *. specialize (P ltac:(done)).
  pose proof (ascending_filter (same_age vh (age_factor_from_height vh rh)) cands A) as Afl. fold fl in Afl.
  pose proof (same_age_members vh (age_factor_from_height vh rh) cands) as F. fold fl in F.
  destruct pos' as [pos|]; [|right; left; by apply N]. destruct (P pos eq_refl) as (m & Hm & Hg).
  pose proof (lookup_lt_Some _ _ _ Hm) as Hlt.
  destruct (Nat.ltb_spec (length fl) 2); [by right; right|].
  destruct (Nat.ltb_spec target (length fl)); [destruct (Nat.leb_spec target pos)|].
  - destruct (lookup_lt_is_Some_2 fl (target - 1)) as [y Hy]; [lia|].
    replace (take target (swap fl pos (target - 1))) with (take (target - 1) fl ++ [m]).
    2: { rewrite <- (take_swap fl pos (target - 1) m y Hm Hy) by lia. f_equal. lia. }
    split; [by apply (ascending_jump _ pos); [done|done|lia]| | |].
    + rewrite length_app, length_take. cbn. lia.
    + apply Forall_app. split; [by apply Forall_take|]. apply Forall_singleton. by apply (Forall_lookup_1 _ _ _ _ F Hm).
    + exists m. split; [|done]. rewrite lookup_app_r by (rewrite length_take; lia). rewrite length_take.
      by replace (target - 1 - Nat.min (target - 1) (length fl))%nat with 0%nat by lia.
  - split; [by apply ascending_take|rewrite length_take; lia|by apply Forall_take|].
    exists m. by rewrite lookup_take_lt by lia.
  - split; [done|lia|done|by exists m].
Qed.

(** ** Preparing a source *)

Lemma offsets_expand p l : 0 <= p -> StronglySorted Z.lt (p :: l) \/ (Forall (fun i => p <= i) l /\ StronglySorted Z.lt l) ->
  Forall (fun i => i < 2 ^ 64) l ->
  expand_offsets p (relative_offsets p l) = Some l /\ Forall (fun o => 0 <= o < 2 ^ 64) (relative_offsets p l).
Proof.
  revert p. induction l as [|i l IH]; intros p Hp S F; [done|]. apply Forall_cons in F as [Hi F].
  assert (p <= i /\ StronglySorted Z.lt (i :: l)) as [Hpi Sl].
  { destruct S as [[S G]%StronglySorted_inv|[G S]]; apply Forall_cons in G as [G _]; split; done || lia. }
  cbn [relative_offsets expand_offsets]. rewrite u64_id by lia. unfold UINT64_MAX.
  rewrite (proj2 (Z.ltb_ge _ _)) by lia. replace (p + (i - p)) with i by ring.
  destruct (IH i) as [-> G]; [lia|by left|done|]. split; [done|]. constructor; [lia|done].
Qed.

Section preparing.
Context `{RctLaws} (outputs : Z -> option output_data_t) (vh : Z).

(** A candidate as the chain has it. *)
Definition on_chain (m : dao_v2_ring_member_data) : Prop :=
  0 <= rm_global_index m < 2 ^ 64 /\ 0 <= rm_height m /\ is_point (rm_P m) /\ is_point (rm_C m) /\
  outputs (rm_global_index m) = Some {| od_pubkey := rm_P m; od_height := rm_height m; od_commitment := rm_C m |}.

(** The wallet holds the keys of an output. *)
Definition opens (x mask : bytes) (v : Z) (m : dao_v2_ring_member_data) : Prop :=
  scalar x /\ scalar mask /\ 0 <= v < 2 ^ 64 /\ rm_P m = scalarmultBase x /\ commit v mask = Some (rm_C m).

Lemma chain_ring ring : Forall on_chain ring ->
  mapM outputs (map rm_global_index ring) =
  Some (zip_with (fun '(P, C) h => {| od_pubkey := P; od_height := h; od_commitment := C |})
          (zip (map rm_P ring) (map rm_C ring)) (map rm_height ring)).
Proof.
  induction 1 as [|m ring (_ & _ & _ & _ & E) _ IH]; [done|]. cbn [map]. cbn. rewrite E. cbn. by rewrite IH.
Qed.

Lemma ascending_nodup l : ascending l -> NoDup (map rm_global_index l).
Proof.
  unfold ascending. generalize (map rm_global_index l). intros k S. induction S as [|x k S IH F]; constructor; [|done].
  intros Hin. rewrite Forall_forall in F. specialize (F x Hin). lia.
Qed.

Lemma prepared_source cands rh rg target o x mask v : 0 <= vh < 2 ^ 64 -> Forall on_chain cands ->
  ring_for cands vh rh rg target (vo_ring o) (vo_real_index o) ->
  vo_output_secret o = x -> vo_mask o = mask -> vo_amount o = v ->
  (forall m, m ∈ cands -> rm_global_index m = rg -> opens x mask v m) ->
  exists s, prepare_dao_v2_vote_source o = Some s /\ source_ok outputs vh s /\ vs_P s = map rm_P (vo_ring o) /\
    vs_real_amount s = v.
Proof.
  intros Hv Hc [A Hs Hm (m & Hr & Hg)] Ex Em Ev Ho. pose proof (lookup_lt_Some _ _ _ Hr) as Hlt.
  unfold prepare_dao_v2_vote_source. destruct (vo_ring o) as [|m0 ring0] eqn:Er; [cbn in Hs; lia|].
  rewrite <- Er in *. assert (is_empty (vo_ring o) = false) as -> by by rewrite Er.
  rewrite (proj2 (Nat.leb_gt _ _)) by lia. eexists. split; [done|]. split; [|by rewrite Ev].
  assert (Forall on_chain (vo_ring o)) as Fc.
  { apply Forall_forall. intros m' Hm'. rewrite Forall_forall in Hm, Hc. apply Hc. by apply (Hm m'). }
  destruct (Ho m) as (S1 & S2 & S3 & S4 & S5); [|done|].
  { rewrite Forall_forall in Hm. apply (Hm m). by eapply list_elem_of_lookup_2. }
  assert (Forall (fun i => i < 2 ^ 64) (map rm_global_index (vo_ring o))) as Fi
    by (apply Forall_map; eapply Forall_impl; [exact Fc|]; intros ? (? & _); lia).
  assert (Forall (fun i => 0 <= i) (map rm_global_index (vo_ring o))) as Fp
    by (apply Forall_map; eapply Forall_impl; [exact Fc|]; intros ? (? & _); lia).
  destruct (offsets_expand 0 (map rm_global_index (vo_ring o)) ltac:(lia) ltac:(by right) Fi) as [Oe Ow].
  assert (forall A (f : dao_v2_ring_member_data -> A), length (map f (vo_ring o)) = length (vo_ring o)) as L
    by (intros; apply length_map).
  assert (length (relative_offsets 0 (map rm_global_index (vo_ring o))) = length (vo_ring o)) as Lo
    by (by rewrite <- (length_expand _ _ _ Oe), L).
  assert (forall A (f : dao_v2_ring_member_data -> A), map f (vo_ring o) !! vo_real_index o = Some (f m)) as K.
  { intros A' f. change (map f (vo_ring o)) with (f <$> vo_ring o). by rewrite list_lookup_fmap, Hr. }
  split; cbn [vs_P vs_C vs_output_indices vs_output_heights vs_key_offsets vs_real_index vs_real_spend_secret vs_real_mask
    vs_real_amount]; rewrite ?L, ?K, ?Ex, ?Em, ?Ev; try done; try lia.
  - unfold source_well_formed. cbn [vs_P vs_C vs_output_indices vs_output_heights vs_key_offsets vs_real_index].
    rewrite !L, Lo, !Nat.eqb_refl, (proj2 (Nat.eqb_neq _ _)), (proj2 (Nat.ltb_lt _ _)) by lia. done.
  - by apply ascending_nodup.
  - by apply chain_ring.
  - apply Forall_map. apply Forall_forall. intros m' Hm'. rewrite Forall_forall in Fc, Hm.
    destruct (Fc m' Hm') as (_ & ? & _), (Hm m' Hm') as (_ & ? & _). done.
  - exists (age_factor_from_height vh rh). apply Forall_map. apply Forall_forall. intros m' Hm'.
    rewrite Forall_forall in Fc, Hm. destruct (Fc m' Hm') as (_ & ? & _), (Hm m' Hm') as (_ & ? & <-).
    symmetry. apply wallet_age_factor; lia.
  - apply Forall_map. eapply Forall_impl; [exact Fc|]. by intros ? (_ & _ & ? & _).
  - apply Forall_map. eapply Forall_impl; [exact Fc|]. by intros ? (_ & _ & _ & ? & _).
  - by rewrite S4.
Qed.

End preparing.

(** ** Recognition *)

Lemma reads_parameter_execution p : 0 <= pep_version p < 2 ^ 8 -> length (pep_proposal_id p) = 32%nat ->
  reads read_parameter_execution (write_parameter_execution p) p.
Proof. intros Hv L rest. unfold read_parameter_execution, write_parameter_execution. read_back. by destruct p. Qed.

Section recognition.
Context `{VoteEnv}.

Lemma parse_one_field f : field_ok f -> parse_tx_extra vote_trap_bool (write_field f) = Some [f].
Proof.
  intros F. pose proof (write_fields_parse vote_trap_bool [f]) as P. unfold write_fields in P. cbn [map concat] in P.
  rewrite app_nil_r in P. apply P; [by repeat constructor|done].
Qed.

Lemma parse_object ty data : 0 <= ty < 2 ^ 8 -> zlen data < 2 ^ 64 ->
  parse_tx_extra vote_trap_bool (write_field (tx_extra_governance_payload {| gp_type := ty; gp_data := data |})) =
  Some [tx_extra_governance_payload {| gp_type := ty; gp_data := data |}].
Proof. intros Ht Hd. by apply parse_one_field. Qed.

(** A transaction with a single object is recognised by the type of the object. *)
Lemma one_object ty ty' version data : 0 <= ty < 2 ^ 8 -> zlen data < 2 ^ 64 ->
  has_one_object ty' {| tx_version := version; tx_unlock_time := 0; tx_vin := 0; tx_vout := 0;
    tx_extra := write_field (tx_extra_governance_payload {| gp_type := ty; gp_data := data |});
    tx_rct_type := RCTTypeNull |} = (ty =? ty').
Proof.
  intros Ht Hd. unfold has_one_object. cbn [tx_extra]. rewrite parse_object by done. cbn [count_objects gp_type].
  by destruct (ty =? ty').
Qed.

Lemma extract_vote_v2_tx proof h ki : vote_v2_ok proof -> v2_version proof = 2 ->
  zlen (write_vote_proof_v2 proof) < 2 ^ 64 ->
  extract_vote_v2 {| vt_hash := h; vt_extra := tx_extra (vote_v2_tx proof); vt_vote_key_image := ki |} = Some proof.
Proof.
  intros W E2 L. unfold extract_vote_v2, vote_v2_tx. cbn [vt_extra tx_extra]. rewrite parse_object by done.
  cbn [mbind option_bind first_v2 gp_type gp_data]. rewrite Z.eqb_refl. cbn [mbind option_bind gp_data].
  rewrite (proj2 (is_empty_false _)).
  - rewrite (parse_all_reads _ _ _ (reads_vote_proof_v2 proof W)). cbn [mbind option_bind]. by rewrite E2.
  - intros E. pose proof (parse_all_reads _ _ _ (reads_vote_proof_v2 proof W)) as P. by rewrite E in P.
Qed.

End recognition.

(** ** Wallet votes of the first version *)

(** [create_vote_tx]: the proof has no output heights. *)
Definition wallet_vote_v1 (proposal_id : hash) (direction chain_height total_balance total_weight : Z) (ki identity : bytes)
    : vote_proof :=
  {| vp_version := 1; vp_proposal_id := proposal_id; vp_direction_yes := direction =? 0;
     vp_snapshot_height := chain_height; vp_participation_balance := total_balance; vp_voting_weight := total_weight;
     vp_voting_nullifiers := [ki]; vp_output_heights := []; vp_balance_commitment := identity;
     vp_weight_commitment := identity; vp_aggregate_proof := [] |}.

Definition wallet_v1_extra (vp : vote_proof) : bytes :=
  write_field (tx_extra_governance_payload {| gp_type := GO_VOTE; gp_data := write_vote_proof vp |}).

Section v1_votes.
Context `{VoteEnv} `{RctOps}.

Lemma wallet_v1_recognised vp h ki : vote_v1_ok vp -> zlen (write_vote_proof vp) < 2 ^ 64 ->
  let tx := {| vt_hash := h; vt_extra := wallet_v1_extra vp; vt_vote_key_image := ki |} in
  is_vote_tx tx = true /\ extract_vote tx = Some vp /\ classify_vote_tx tx = vk_v1.
Proof.
  intros W L tx. unfold is_vote_tx, extract_vote, classify_vote_tx, tx, wallet_v1_extra. cbn [vt_extra].
  rewrite !parse_object by done. split; [|split].
  - set (gp := {| gp_type := GO_VOTE; gp_data := write_vote_proof vp |}).
    change (write_field (tx_extra_governance_payload gp)) with (TX_EXTRA_GOVERNANCE :: write_governance_payload gp).
    cbn [is_vote_extra]. rewrite Z.eqb_refl, (parse_all_reads _ _ _ (reads_governance_payload gp ltac:(done))). done.
  - cbn [mbind option_bind first_payload gp_type gp_data]. cbn [Z.eqb negb].
    by rewrite (parse_all_reads _ _ _ (reads_vote_proof vote_trap_bool vp W)).
  - reflexivity.
Qed.

End v1_votes.

(** ** Votes through the vote manager *)

Section votes.
Context `{VoteEnv} `{RctLaws}.

(** A delivered transaction, as the vote manager sees it. *)
Definition delivered (h : hash) (tx : transaction) : vote_tx :=
  {| vt_hash := h; vt_extra := tx_extra tx; vt_vote_key_image := None |}.

Lemma delivered_vote_v2 proof h : vote_v2_ok proof -> v2_version proof = 2 -> zlen (write_vote_proof_v2 proof) < 2 ^ 64 ->
  is_dao_v2_vote_tx (vote_v2_tx proof) = true /\ classify_vote_tx (delivered h (vote_v2_tx proof)) = vk_v2 /\
  extract_vote_v2 (delivered h (vote_v2_tx proof)) = Some proof.
Proof.
  intros W E2 L. split_and!; [|unfold classify_vote_tx, delivered, vote_v2_tx; cbn [vt_extra tx_extra]; by rewrite parse_object|
    by apply extract_vote_v2_tx].
  unfold is_dao_v2_vote_tx. cbn [vote_v2_tx tx_version]. unfold vote_v2_tx. by rewrite one_object.
Qed.

Lemma process_v2_pass tx proof height block_nfs s prop key_rec : extract_vote_v2 tx = Some proof ->
  vm_proposals s !! v2_proposal_id proof = Some prop -> DAO_V2_ACTIVATION_HEIGHT <= height ->
  get_dao_tally_key_by_id (vm_dao s) (v2_tally_key_id proof) = Some key_rec ->
  verify get_output_key_from_global (vm_proposals s) (vm_dao s) proof height block_nfs = pass tt ->
  process_v2_vote tx height block_nfs true s = Some (success, block_nfs, s) /\
  forall d, apply_dao_vote proof (vt_hash tx) (vm_dao s) = applied d ->
    process_v2_vote tx height block_nfs false s = Some (success, block_nfs ++ v2_nullifiers proof, set_dao s d).
Proof.
  intros E Ep Hh Ek Ev. unfold process_v2_vote, dao_v2_active. rewrite E, Ep, Ek, Ev, (proj2 (Z.leb_le _ _)) by done.
  split; [done|]. by intros d ->.
Qed.

Lemma process_v2_success tx height block_nfs dry s nfs s' :
  process_v2_vote tx height block_nfs dry s = Some (success, nfs, s') ->
  exists proof u, extract_vote_v2 tx = Some proof /\ DAO_V2_ACTIVATION_HEIGHT <= height /\
    verify get_output_key_from_global (vm_proposals s) (vm_dao s) proof height block_nfs = pass u /\
    (if dry then nfs = block_nfs /\ s' = s else exists d, apply_dao_vote proof (vt_hash tx) (vm_dao s) = applied d /\
       nfs = block_nfs ++ v2_nullifiers proof /\ s' = set_dao s d).
Proof.
  unfold process_v2_vote, dao_v2_active. intros E. destruct (extract_vote_v2 tx) as [proof|]; [|done].
  destruct (vm_proposals s !! _); [|done]. destruct (Z.leb_spec DAO_V2_ACTIVATION_HEIGHT height); [|done].
  destruct (get_dao_tally_key_by_id _ _); [|done]. destruct (verify _ _ _ _ _ _) as [u| |] eqn:Ev; try done.
  exists proof, u. split; [done|]. split; [done|]. split; [done|]. destruct dry; [by injection E as <- <-|].
  destruct (apply_dao_vote _ _ _) as [d'| |]; try done. injection E as <- <-. by exists d'.
Qed.

(** Votes only add nullifiers. *)
Lemma has_nullifier_added d p q nf nf' : has_vote_nullifier d p nf = true ->
  has_vote_nullifier (add_vote_nullifier d q nf') p nf = true.
Proof.
  unfold has_vote_nullifier. intros E%bool_decide_eq_true. apply bool_decide_eq_true. cbn.
  apply lookup_insert_is_Some'. by right.
Qed.

Lemma has_nullifiers_added nfs d p q nf : has_vote_nullifier d p nf = true ->
  has_vote_nullifier (fold_left (fun d nf' => add_vote_nullifier d q nf') nfs d) p nf = true.
Proof. revert d. induction nfs as [|x nfs IH]; intros d Hd; [done|]. cbn [fold_left]. by apply IH, has_nullifier_added. Qed.

Lemma apply_keeps_nullifiers proof h d d' p nf : apply_dao_vote proof h d = applied d' ->
  has_vote_nullifier d p nf = true -> has_vote_nullifier d' p nf = true.
Proof.
  unfold apply_dao_vote. intros E Hn. repeat case_match; try done; injection E as <-; by apply has_nullifiers_added.
Qed.

Lemma v1_keeps_nullifiers tx height dry s r s' p nf : process_v1_vote tx height dry s = (r, s') ->
  has_vote_nullifier (vm_dao s) p nf = true -> has_vote_nullifier (vm_dao s') p nf = true.
Proof.
  unfold process_v1_vote. intros E Hn. repeat (case_match; try by injection E as <- <-).
  injection E as <- <-. by apply has_nullifier_added.
Qed.

Lemma v2_keeps_nullifiers tx height nfs s r nfs' s' p nf : process_v2_vote tx height nfs false s = Some (r, nfs', s') ->
  has_vote_nullifier (vm_dao s) p nf = true -> has_vote_nullifier (vm_dao s') p nf = true.
Proof.
  unfold process_v2_vote. intros E Hn. repeat (case_match; try done; try by injection E as <- <- <-).
  injection E as <- <- <-. by eapply apply_keeps_nullifiers.
Qed.

Lemma block_keeps_nullifiers txs height nfs s b s' p nf : process_block_votes txs height nfs s = Some (b, s') ->
  has_vote_nullifier (vm_dao s) p nf = true -> has_vote_nullifier (vm_dao s') p nf = true.
Proof.
  revert nfs s. induction txs as [|tx txs IH]; intros nfs s E Hn; cbn [process_block_votes] in E; [by injection E as <- <-|].
  destruct (classify_vote_tx tx).
  - by apply (IH nfs s).
  - destruct (process_v1_vote tx height false s) as [r s1] eqn:E1.
    pose proof (v1_keeps_nullifiers _ _ _ _ _ _ p nf E1 Hn) as H1'.
    destruct r; cbn [vote_ok] in E; try (by injection E as <- <-); by apply (IH nfs s1).
  - apply bind_Some in E as ([[r nfs1] s1] & E1 & E). pose proof (v2_keeps_nullifiers _ _ _ _ _ _ _ p nf E1 Hn) as H1'.
    destruct (vote_ok r); [by apply (IH nfs1 s1)|by injection E as <- <-].
  - by injection E as <- <-.
  - by injection E as <- <-.
Qed.

Lemma apply_records proof h d d' nf : apply_dao_vote proof h d = applied d' -> nf ∈ v2_nullifiers proof ->
  has_vote_nullifier d' (v2_proposal_id proof) nf = true.
Proof.
  intros E Hn. enough (forall d nfs, nf ∈ nfs -> has_vote_nullifier
    (fold_left (fun d nf' => add_vote_nullifier d (v2_proposal_id proof) nf') nfs d) (v2_proposal_id proof) nf = true) as R
    by (unfold apply_dao_vote in E; repeat case_match; try done; injection E as <-; by apply R).
  clear. intros d nfs Hn. apply list_elem_of_split in Hn as (l & k & ->). rewrite fold_left_app. cbn [fold_left].
  apply has_nullifiers_added. unfold has_vote_nullifier. apply bool_decide_eq_true. cbn. rewrite lookup_insert_eq. by eexists.
Qed.

(** The votes of a block are processed, whatever the verdict. *)
Definition votes_processed (s s' : vote_state) : Prop :=
  exists txs height nfs b, process_block_votes txs height nfs s = Some (b, s').

(** ** The tables *)

(** The row of a proposal is an aggregate under the proposal's key. *)
Definition dao_tables_wf (s : vote_state) : Prop :=
  forall pid prop key_rec, vm_proposals s !! pid = Some prop -> tally_keys (vm_dao s) !! tally_key_id prop = Some key_rec ->
    Forall is_byte (tk_N key_rec) /\
    exists pk, deserialize_modulus (tk_N key_rec) = Some pk /\
      forall a, aggregates (vm_dao s) !! pid = Some a -> agg_wf pk a.

(** The bytes of a vote's ciphertexts are bytes. *)
Definition vote_bytes (tx : vote_tx) : Prop := forall proof, extract_vote_v2 tx = Some proof ->
  Forall is_byte (E_W proof) /\ Forall is_byte (E_S proof) /\ Forall is_byte (E_B proof).

Lemma apply_other_rows proof h d d' pid : apply_dao_vote proof h d = applied d' -> pid <> v2_proposal_id proof ->
  aggregates d' !! pid = aggregates d !! pid.
Proof.
  intros E Hne. enough (forall nfs d, aggregates (fold_left (fun d nf => add_vote_nullifier d (v2_proposal_id proof) nf) nfs d) =
    aggregates d) as R
    by (unfold apply_dao_vote in E; repeat case_match; try done; injection E as <-; rewrite R; by apply lookup_insert_ne).
  clear. intros nfs. induction nfs as [|nf nfs IH]; intros d; [done|]. cbn [fold_left]. by rewrite IH.
Qed.

Lemma v2_accepted tx height nfs dry s nfs' s' : dao_tables_wf s -> vote_bytes tx -> height < 2 ^ 64 ->
  (forall i od, get_output_key_from_global i = Some od -> 0 <= od_height od) ->
  process_v2_vote tx height nfs dry s = Some (success, nfs', s') ->
  exists nfs2 s2, process_v2_vote tx height nfs false s = Some (success, nfs2, s2) /\ dao_tables_wf s2.
Proof.
  intros Wf By Hh Hout E. apply process_v2_success in E as (proof & [] & Ex & Ha & Ev & _).
  destruct (By proof Ex) as (B1 & B2 & B3).
  destruct (verify_inv _ _ _ _ _ _ _ Hh Hout B1 B2 B3 Ev) as (prop & key_rec & A).
  destruct (ac_key _ _ _ _ _ _ _ _ A) as (K1 & K2 & K3 & _). pose proof (ac_proposal _ _ _ _ _ _ _ _ A) as Ep.
  destruct (Wf _ _ _ Ep ltac:(by rewrite <- K1)) as (Hby & pk & Hmod & Hagg).
  pose proof rct_curve_laws as Hlaws.
  destruct (accepted_applied _ _ _ _ _ _ _ _ pk (vt_hash tx) A Hby Hmod B1 B2 B3 Hagg) as (d' & a & E' & Ea & Wa & Ek & _).
  destruct (process_v2_pass tx proof height nfs s prop key_rec Ex Ep Ha) as [_ R]; [|done|].
  { unfold get_dao_tally_key_by_id. by rewrite K2, Nat.eqb_refl. }
  do 2 eexists. split; [by apply R|]. intros pid prop' key_rec' Ep' Ek'. cbn [set_dao vm_proposals vm_dao] in *. rewrite Ek in Ek'.
  destruct (decide (pid = v2_proposal_id proof)) as [->|Hne].
  - rewrite Ep in Ep'. injection Ep' as <-. rewrite <- K1, K3 in Ek'. injection Ek' as <-. split; [done|].
    exists pk. split; [done|]. intros a' Ea'. rewrite Ea in Ea'. by injection Ea' as <-.
  - destruct (Wf _ _ _ Ep' Ek') as (? & pk' & ? & Hagg'). split; [done|]. exists pk'. split; [done|].
    intros a' Ea'. apply Hagg'. by rewrite (apply_other_rows _ _ _ _ _ E' Hne) in Ea'.
Qed.

End votes.

(** ** Claims *)

Section claims.
Context `{VoteEnv} `{RctLaws}.

Lemma vote_goes_through pid sub vh kid modulus pk direction os sources rnd nfs s block_nfs prop key_rec W S B h :
  length pid = 32%nat -> mapM prepare_dao_v2_vote_source os = Some sources ->
  honest_vote get_output_key_from_global pid vh modulus pk direction sources rnd nfs ->
  open_for pid sub vh kid modulus nfs (vm_proposals s) (vm_dao s) block_nfs prop key_rec ->
  DAO_V2_ACTIVATION_HEIGHT <= vh -> row_holds pk pid (vm_dao s) W S B ->
  let ballot := honest_ballot vh direction sources rnd in
  exists proof, build_dao_v2_vote_tx pid sub vh kid modulus direction os rnd = Some (vote_v2_tx proof) /\
    v2_nullifiers proof = nfs /\ casts pk ballot proof /\
    (zlen (write_vote_proof_v2 proof) < 2 ^ 64 ->
     let tx := delivered h (vote_v2_tx proof) in
     is_dao_v2_vote_tx (vote_v2_tx proof) = true /\ extract_vote_v2 tx = Some proof /\
     process_v2_vote tx vh block_nfs true s = Some (success, block_nfs, s) /\
     exists d, process_v2_vote tx vh block_nfs false s = Some (success, block_nfs ++ nfs, set_dao s d) /\
       (forall rest, process_block_votes (tx :: rest) vh block_nfs s =
                     process_block_votes rest vh (block_nfs ++ nfs) (set_dao s d)) /\
       row_holds pk pid d (W + b_weight ballot) (S + b_signed ballot) (B + b_balance ballot)).
Proof.
  intros Lp Em HV OF Ha Row ballot.
  destruct (honest_vote_accepted _ pid sub vh kid _ _ _ _ _ _ HV) as (proof & Eb & E2 & Ep & Ek & En & Wf & Ca & V).
  pose proof OF as [O1 O2 O3 O4 [O5 O6] [O7 [O8 O9]] O10].
  exists proof. split.
  { unfold build_dao_v2_vote_tx. destruct os as [|o os]; [by injection Em as <-; destruct (hv_nonempty _ _ _ _ _ _ _ _ _ HV)|].
    cbn [is_empty]. rewrite Em. cbn [mbind option_bind]. by rewrite Eb. }
  split; [exact En|]. split; [exact Ca|]. intros L tx. destruct (delivered_vote_v2 proof h (Wf Lp O6) E2 L) as (R1 & R2 & R3). fold tx in R2, R3.
  destruct (process_v2_pass tx proof vh block_nfs s prop key_rec R3) as [D R];
    [by rewrite Ep|done|unfold get_dao_tally_key_by_id; by rewrite Ek, O6, Nat.eqb_refl|by eapply V|].
  destruct (modulus_value _ _ (hv_bytes _ _ _ _ _ _ _ _ _ HV) (hv_modulus _ _ _ _ _ _ _ _ _ HV)) as (Hpk & _).
  pose proof rct_curve_laws as Hlaws.
  assert (deserialize_modulus (tk_N key_rec) = Some pk) as Hmod by (rewrite O9; by apply (hv_modulus _ _ _ _ _ _ _ _ _ HV)).
  destruct (apply_dao_vote_holds pk Hpk pid kid key_rec O6 Hmod ballot proof h (vm_dao s) W S B Ep Ek O7 Row Ca) as [E' Row'].
  pose proof (R _ E') as Rr. rewrite En in Rr. split; [exact R1|]. split; [exact R3|]. split; [exact D|].
  eexists. split; [exact Rr|]. split; [|exact Row'].
  intros rest. cbn [process_block_votes]. rewrite R2, Rr. done.
Qed.

(** C3: A wallet's vote reaches the encrypted count.  When the sources of the
    voter's outputs are sound, the draws are fresh and the chain has the proposal
    open under a tally key, the wallet builds a transaction that the node takes
    for a V2 vote; the dry run and the run in a block accept it, the block goes on
    with the next transactions and the vote's nullifiers, and a row of the
    proposal that held (W, S, B) holds the voter's weight, signed weight and
    balance on top. *)
Theorem wallet_vote_counted pid sub vh kid modulus pk direction os sources rnd nfs s block_nfs prop key_rec W S B h :
  length pid = 32%nat -> mapM prepare_dao_v2_vote_source os = Some sources ->
  honest_vote get_output_key_from_global pid vh modulus pk direction sources rnd nfs ->
  open_for pid sub vh kid modulus nfs (vm_proposals s) (vm_dao s) block_nfs prop key_rec ->
  DAO_V2_ACTIVATION_HEIGHT <= vh -> row_holds pk pid (vm_dao s) W S B ->
  let ballot := honest_ballot vh direction sources rnd in
  exists proof, build_dao_v2_vote_tx pid sub vh kid modulus direction os rnd = Some (vote_v2_tx proof) /\
    v2_nullifiers proof = nfs /\ casts pk ballot proof /\
    (zlen (write_vote_proof_v2 proof) < 2 ^ 64 ->
     let tx := delivered h (vote_v2_tx proof) in
     is_dao_v2_vote_tx (vote_v2_tx proof) = true /\ extract_vote_v2 tx = Some proof /\
     process_v2_vote tx vh block_nfs true s = Some (success, block_nfs, s) /\
     exists d, process_v2_vote tx vh block_nfs false s = Some (success, block_nfs ++ nfs, set_dao s d) /\
       (forall rest, process_block_votes (tx :: rest) vh block_nfs s =
                     process_block_votes rest vh (block_nfs ++ nfs) (set_dao s d)) /\
       row_holds pk pid d (W + b_weight ballot) (S + b_signed ballot) (B + b_balance ballot)).
Proof. apply vote_goes_through. Qed.

(** C25: What the dry run accepts, a block accepts.  In tables whose rows are
    aggregates under their proposals' keys a vote passes the check of the pool if
    and only if it is counted in a block with the same nullifiers, and the tables
    then have the property again. *)
Theorem dry_run_decides tx height nfs s : dao_tables_wf s -> vote_bytes tx -> height < 2 ^ 64 ->
  (forall i od, get_output_key_from_global i = Some od -> 0 <= od_height od) ->
  (process_v2_vote tx height nfs true s = Some (success, nfs, s) <->
   exists nfs' s', process_v2_vote tx height nfs false s = Some (success, nfs', s')) /\
  (forall nfs' s', process_v2_vote tx height nfs false s = Some (success, nfs', s') -> dao_tables_wf s').
Proof.
  intros Wf By Hh Hout. split; [split|].
  - intros E. destruct (v2_accepted _ _ _ _ _ _ _ Wf By Hh Hout E) as (nfs2 & s2 & E2 & _). by exists nfs2, s2.
  - intros (nfs' & s' & E). apply process_v2_success in E as (proof & [] & Ex & Ha & Ev & _).
    unfold process_v2_vote, dao_v2_active. rewrite Ex, Ev. unfold verify in Ev.
    apply check_bind_pass in Ev as ([prop key_rec] & Ep & _). apply verify_proposal_inv in Ep as (_ & -> & _ & _ & (_ & L & K & _) & _).
    unfold get_dao_tally_key_by_id. by rewrite L, Nat.eqb_refl, K, (proj2 (Z.leb_le _ _)).
  - intros nfs' s' E. destruct (v2_accepted _ _ _ _ _ _ _ Wf By Hh Hout E) as (nfs2 & s2 & E2 & W2).
    rewrite E in E2. injection E2 as <- <-. exact W2.
Qed.

(** C16: A nullifier votes once.  After a V2 vote has been counted, and after any
    further blocks of votes, a vote for the same proposal that carries one of its
    nullifiers is never accepted, at any height, in the pool or in a block. *)
Theorem v2_vote_once tx proof height nfs s nfs' s' s2 tx2 proof2 nf :
  process_v2_vote tx height nfs false s = Some (success, nfs', s') -> extract_vote_v2 tx = Some proof ->
  rtc votes_processed s' s2 -> extract_vote_v2 tx2 = Some proof2 ->
  v2_proposal_id proof2 = v2_proposal_id proof -> nf ∈ v2_nullifiers proof -> nf ∈ v2_nullifiers proof2 ->
  forall height2 nfs2 dry r, process_v2_vote tx2 height2 nfs2 dry s2 <> Some (success, r.1, r.2).
Proof.
  intros E Ex Hr Ex2 Ep Hn Hn2 height2 nfs2 dry r E2.
  apply process_v2_success in E as (p & _ & Ex' & _ & _ & d & Ea & _ & ->). rewrite Ex in Ex'. injection Ex' as <-.
  apply process_v2_success in E2 as (p & u & Ex' & _ & Ev & _). rewrite Ex2 in Ex'. injection Ex' as <-.
  assert (has_vote_nullifier (vm_dao s2) (v2_proposal_id proof) nf = true) as Hs.
  { pose proof (apply_records _ _ _ _ nf Ea Hn) as Hs. change d with (vm_dao (set_dao s d)) in Hs. revert Hs.
    induction Hr as [|x y z (txs & h' & l & b & Eb) _ IH]; [done|]. intros Hs. by eapply IH, block_keeps_nullifiers. }
  apply verify_fresh in Ev. rewrite Forall_forall in Ev. specialize (Ev nf Hn2). rewrite Ep in Ev. congruence.
Qed.

(** C31: The wallet's V1 votes never count.  The transaction [create_vote_tx] makes
    for an open proposal passes the dry run of every node, but in a block it is
    refused, the votes of the block stop there, and the tables stay as they were:
    the proof lists no output heights, which the count requires. *)
Theorem wallet_v1_vote_refused pid direction chain_height balance weight ki identity tx_hash tx_ki s rec height nfs rest :
  let vp := wallet_vote_v1 pid direction chain_height balance weight ki identity in
  let tx := {| vt_hash := tx_hash; vt_extra := wallet_v1_extra vp; vt_vote_key_image := tx_ki |} in
  vote_v1_ok vp -> zlen (write_vote_proof vp) < 2 ^ 64 -> vm_proposals s !! pid = Some rec ->
  submission_height rec <= height <= voting_end_height rec -> height < DAO_V2_ACTIVATION_HEIGHT ->
  process_vote tx height true s = Some (success, s) /\
  (exists r, process_vote tx height false s = Some (r, s) /\ (r = invalid_format \/ r = already_voted)) /\
  process_block_votes (tx :: rest) height nfs s = Some (false, s).
Proof.
  intros vp tx W L Ep Hh Ha. destruct (wallet_v1_recognised vp tx_hash tx_ki W L) as (R1 & R2 & R3). fold tx in R1, R2, R3.
  assert (forall dry, process_v1_vote tx height dry s =
    if dry then (success, s) else
    if beq ki null_hash then (invalid_format, s) else
    if has_vote_nullifier (vm_dao s) pid ki then (already_voted, s) else (invalid_format, s)) as P.
  { intros dry. unfold process_v1_vote, dao_v2_active. rewrite R1, R2. cbn [negb vp wallet_vote_v1 vp_version vp_proposal_id].
    cbn [Z.eqb Pos.eqb negb]. rewrite Ep, (proj2 (Z.leb_gt _ _)), !(proj2 (Z.ltb_ge _ _)) by lia. cbn [orb].
    change (vote_nullifier _) with ki. by destruct dry, (beq ki null_hash), (has_vote_nullifier (vm_dao s) pid ki). }
  unfold process_vote. cbn [process_block_votes]. rewrite R3, !P. split; [done|].
  destruct (beq ki null_hash); [|destruct (has_vote_nullifier _ _ _)]; (split; [eexists; split; [done|auto]|done]).
Qed.

(** The ring the wallet selects for one of its outputs is accepted.  From
    candidates of the chain in increasing order of index the selection either
    gives a ring, at most of the wanted size, whose source is what an honest vote
    needs, or fails because the output is newer than the vote, is not among the
    candidates of its age, or has no companion of its age. *)
Theorem wallet_ring_accepted outputs vh cands rh rg target x mask v :
  0 <= vh < 2 ^ 64 -> ascending cands -> Forall (on_chain outputs) cands -> (2 <= target)%nat ->
  (forall m, m ∈ cands -> rm_global_index m = rg -> opens x mask v m) ->
  match get_dao_v2_ring cands vh rh rg target with
  | Some (ring, pos) =>
      exists src, prepare_dao_v2_vote_source {| vo_ring := ring; vo_real_index := pos; vo_output_secret := x; vo_mask := mask;
          vo_amount := v |} = Some src /\
        source_ok outputs vh src /\ (length (vs_P src) <= target)%nat /\ vs_real_amount src = v
  | None =>
      let peers := List.filter (same_age vh (age_factor_from_height vh rh)) cands in
      vh < rh \/ Forall (fun m => rm_global_index m <> rg) peers \/ (length peers < 2)%nat
  end.
Proof.
  intros Hv A Hc Ht Ho. pose proof (get_ring_spec cands vh rh rg target A Ht) as G.
  destruct (get_dao_v2_ring cands vh rh rg target) as [[ring pos]|]; [|exact G].
  destruct (prepared_source outputs vh cands rh rg target {| vo_ring := ring; vo_real_index := pos; vo_output_secret := x;
    vo_mask := mask; vo_amount := v |} x mask v Hv Hc G eq_refl eq_refl eq_refl Ho) as (src & E & S & EP & Ev).
  exists src. split; [exact E|]. split; [exact S|]. split; [|exact Ev]. rewrite EP, length_map. apply (rf_size _ _ _ _ _ _ _ G).
Qed.

(** A governance transaction is taken for exactly what its builder made.  The
    transaction of an execution names its proposal, a tally result and a vote
    give back their data, and no recogniser takes one for another. *)
Theorem objects_recognised pid cert proof : length pid = 32%nat -> zlen cert < 2 ^ 64 ->
  zlen (write_vote_proof_v2 proof) < 2 ^ 64 ->
  let kinds tx := (is_dao_v2_vote_tx tx, is_dao_v2_tally_result_tx tx, is_dao_v2_dkg_activation_tx tx,
    is_dao_v2_node_ready_tx tx, is_parameter_execution_tx tx) in
  kinds (parameter_execution_tx pid) = (false, false, false, false, Some pid) /\
  kinds (tally_result_tx cert) = (false, true, false, false, None) /\
  kinds (vote_v2_tx proof) = (true, false, false, false, None) /\
  extract_dao_payload (tally_result_tx cert) GO_TALLY_RESULT = Some cert /\
  extract_dao_payload (vote_v2_tx proof) GO_VOTE_V2 = Some (write_vote_proof_v2 proof).
Proof.
  intros Lp Lc Lv kinds. set (exec := {| pep_version := 1; pep_proposal_id := pid |}).
  assert (zlen (write_parameter_execution exec) < 2 ^ 64) as Le.
  { unfold write_parameter_execution, zlen. cbn [exec pep_version pep_proposal_id]. rewrite ?length_app, ?Lp. cbn. lia. }
  unfold kinds, is_dao_v2_vote_tx, is_dao_v2_tally_result_tx, is_dao_v2_dkg_activation_tx, is_dao_v2_node_ready_tx,
    is_parameter_execution_tx, extract_dao_payload, parameter_execution_tx, tally_result_tx, vote_v2_tx, zero_io.
  fold exec. rewrite !one_object by done. cbn [tx_version tx_vin tx_vout tx_extra tx_rct_type]. rewrite !parse_object by done.
  cbn [mbind option_bind first_payload gp_type gp_data].
  rewrite (parse_all_reads _ _ _ (reads_parameter_execution exec ltac:(done) Lp)). done.
Qed.

End claims.

(** ** Witnesses *)

#[local] Instance delivery_env : VoteEnv := { vote_trap_bool := fun _ => true; get_output_key_from_global := sample_outputs }.

Definition sample_state : vote_state :=
  {| vm_proposals := {[ sample_pid := sample_proposal ]}; vm_outcomes := ∅; vm_vote_records := ∅; vm_dao := db323 |}.

Definition sample_ring : list dao_v2_ring_member_data :=
  [{| rm_global_index := 5; rm_height := 100; rm_P := point 3 0; rm_C := point 54 0 |};
   {| rm_global_index := 9; rm_height := 200; rm_P := point 11 0; rm_C := point 77 0 |}].

Definition sample_output : dao_v2_vote_output :=
  {| vo_ring := sample_ring; vo_real_index := 0; vo_output_secret := sample_scalar 3; vo_mask := sample_scalar 4;
     vo_amount := 10 |}.

Definition sample_tx : option transaction :=
  build_dao_v2_vote_tx sample_pid 81990 82000 kid323 (rev (le_bytes 256 323)) 0 [sample_output] sample_rnd.

Lemma encoding_in_extra proof : zlen (write_vote_proof_v2 proof) <= zlen (tx_extra (vote_v2_tx proof)).
Proof.
  unfold vote_v2_tx, write_field, write_governance_payload, write_byte_vector. cbn [tx_extra gp_type gp_data].
  assert (forall l : bytes, concat (map (fun c => [c]) l) = l) as E by (intros l; induction l; [done|]; cbn; by f_equal).
  unfold write_container. rewrite E. unfold zlen. cbn [length]. rewrite !length_app. lia.
Qed.

Lemma sample_tx_size proof : sample_tx = Some (vote_v2_tx proof) -> zlen (write_vote_proof_v2 proof) < 2 ^ 64.
Proof.
  intros E. assert (option_map (fun tx => zlen (tx_extra tx) <? 2 ^ 64) sample_tx = Some true) as Hs
    by (vm_compute; reflexivity).
  rewrite E in Hs. cbn [option_map] in Hs. apply (Z.le_lt_trans _ _ _ (encoding_in_extra proof)).
  apply Z.ltb_lt. congruence.
Qed.

Lemma sample_pk : pk_ok pk323.
Proof.
  apply (modulus_value _ _ (hv_bytes _ _ _ _ _ _ _ _ _ sample_honest) (hv_modulus _ _ _ _ _ _ _ _ _ sample_honest)).
Qed.

Lemma sample_empty_row : row_holds pk323 sample_pid db323 0 0 0.
Proof. apply row_holds_none; [exact sample_pk|reflexivity]. Qed.

Lemma wallet_vote_counted_witness : exists proof d, sample_tx = Some (vote_v2_tx proof) /\
  process_v2_vote (delivered (replicate 32 8) (vote_v2_tx proof)) 82000 [] false sample_state =
    Some (success, [sample_nf], set_dao sample_state d) /\ row_holds pk323 sample_pid d 60 60 10.
Proof.
  destruct (wallet_vote_counted sample_pid 81990 82000 kid323 (rev (le_bytes 256 323)) pk323 0 [sample_output] [sample_source]
    sample_rnd [sample_nf] sample_state [] sample_proposal key_rec323 0 0 0 (replicate 32 8)) as (proof & E & R).
  - reflexivity.
  - vm_compute. reflexivity.
  - exact sample_honest.
  - exact sample_open.
  - vm_compute. discriminate.
  - exact sample_empty_row.
  - destruct R as (_ & _ & R). destruct (R (sample_tx_size proof E)) as (_ & _ & _ & d & P & _ & Hd).
    exists proof, d. split; [exact E|]. split; [exact P|]. revert Hd.
    change (0 + b_weight _) with 60. change (0 + b_signed _) with 60. change (0 + b_balance _) with 10. intros Hd. exact Hd.
Defined.

(** The sample vote, counted. *)
Lemma sample_vote_counted : exists proof d,
  let tx := delivered (replicate 32 8) (vote_v2_tx proof) in
  extract_vote_v2 tx = Some proof /\ v2_nullifiers proof = [sample_nf] /\ vote_bytes tx /\
  process_v2_vote tx 82000 [] true sample_state = Some (success, [], sample_state) /\
  process_v2_vote tx 82000 [] false sample_state = Some (success, [sample_nf], set_dao sample_state d).
Proof.
  destruct (vote_goes_through sample_pid 81990 82000 kid323 (rev (le_bytes 256 323)) pk323 0 [sample_output] [sample_source]
    sample_rnd [sample_nf] sample_state [] sample_proposal key_rec323 0 0 0 (replicate 32 8)) as (proof & E & R);
    [reflexivity|vm_compute; reflexivity|exact sample_honest|exact sample_open|vm_compute; discriminate|exact sample_empty_row|].
  destruct R as (En & Ca & R). destruct (R (sample_tx_size proof E)) as (_ & Ex & Rd & d & P & _). exists proof, d. intros tx.
  split; [exact Ex|]. split; [exact En|]. split; [|split; [exact Rd|exact P]].
  intros p Ep. fold tx in Ex. rewrite Ex in Ep. injection Ep as <-. apply (casts_bytes pk323 _ _ sample_pk Ca).
Qed.

Lemma sample_tables : dao_tables_wf sample_state.
Proof.
  intros pid prop key_rec Ep Ek. cbn [sample_state vm_proposals vm_dao] in *.
  apply lookup_singleton_Some in Ep as [<- <-]. cbn [sample_proposal tally_key_id] in Ek.
  unfold db323 in Ek. cbn [tally_keys] in Ek. apply lookup_singleton_Some in Ek as [_ <-]. split; [apply rev_le_bytes_byte|].
  exists pk323. split; [vm_compute; reflexivity|]. intros a Ea. discriminate.
Qed.

Lemma dry_run_decides_witness : exists tx nfs s',
  process_v2_vote tx 82000 [] false sample_state = Some (success, nfs, s') /\ dao_tables_wf s'.
Proof.
  destruct sample_vote_counted as (proof & d & _ & _ & By & Dry & _).
  destruct (dry_run_decides (delivered (replicate 32 8) (vote_v2_tx proof)) 82000 [] sample_state sample_tables By ltac:(lia)
    sample_heights) as [Iff Wf].
  destruct (proj1 Iff Dry) as (nfs & s' & E). do 3 eexists. split; [exact E|exact (Wf nfs s' E)].
Defined.

Lemma v2_vote_once_witness : exists tx s',
  process_v2_vote tx 82000 [] false sample_state = Some (success, [sample_nf], s') /\
  forall height2 nfs2 dry r, process_v2_vote tx height2 nfs2 dry s' <> Some (success, r.1, r.2).
Proof.
  destruct sample_vote_counted as (proof & d & Ex & En & _ & _ & E). do 2 eexists. split; [exact E|].
  assert (sample_nf ∈ v2_nullifiers proof) as Hn by (rewrite En; apply list_elem_of_here).
  exact (v2_vote_once _ proof _ _ _ _ _ _ _ proof sample_nf E Ex (rtc_refl _ _) Ex eq_refl Hn Hn).
Defined.

Definition sample_v1 : vote_proof := wallet_vote_v1 sample_pid 0 81995 10 60 (replicate 32 4) (point 0 0).

Lemma sample_v1_ok : vote_v1_ok sample_v1.
Proof. split; try reflexivity; cbn; try lia; repeat constructor. Qed.

Lemma wallet_v1_vote_refused_witness :
  let tx := {| vt_hash := replicate 32 8; vt_extra := wallet_v1_extra sample_v1; vt_vote_key_image := None |} in
  process_vote tx 81996 true sample_state = Some (success, sample_state) /\
  process_block_votes [tx] 81996 [] sample_state = Some (false, sample_state).
Proof.
  destruct (wallet_v1_vote_refused sample_pid 0 81995 10 60 (replicate 32 4) (point 0 0) (replicate 32 8) None sample_state
    sample_proposal 81996 [] []) as (Dry & _ & Block).
  - exact sample_v1_ok.
  - vm_compute. reflexivity.
  - apply lookup_singleton_eq.
  - cbn. lia.
  - vm_compute. reflexivity.
  - split; [exact Dry|exact Block].
Defined.

Lemma sample_ring_on_chain : Forall (on_chain sample_outputs) sample_ring.
Proof.
  apply Forall_cons. split; [|apply Forall_singleton];
    (split; [cbn; lia|]; split; [cbn; lia|]; split; [apply sample_point_ok|]; split; [apply sample_point_ok|reflexivity]).
Qed.

Lemma wallet_ring_accepted_witness : exists src,
  prepare_dao_v2_vote_source sample_output = Some src /\ source_ok sample_outputs 82000 src.
Proof.
  pose proof (wallet_ring_accepted sample_outputs 82000 sample_ring 100 5 16 (sample_scalar 3) (sample_scalar 4) 10) as R.
  assert (get_dao_v2_ring sample_ring 82000 100 5 16 = Some (sample_ring, 0%nat)) as E by (vm_compute; reflexivity).
  rewrite E in R. destruct R as (src & Es & S & _).
  - lia.
  - unfold ascending. cbn. repeat constructor.
  - exact sample_ring_on_chain.
  - lia.
  - intros m Hm Hi. apply elem_of_cons in Hm as [->|Hm]; [|apply list_elem_of_singleton in Hm as ->; discriminate Hi].
    split; [apply sample_scalar_ok; lia|]. split; [apply sample_scalar_ok; lia|]. split; [lia|].
    split; vm_compute; reflexivity.
  - exists src. split; [exact Es|exact S].
Defined.

Lemma objects_recognised_witness :
  is_parameter_execution_tx (parameter_execution_tx sample_pid) = Some sample_pid /\
  is_dao_v2_tally_result_tx (tally_result_tx [1; 2; 3]) = true.
Proof.
  destruct (objects_recognised sample_pid [1; 2; 3] (proof323 {| b_weight := 1; b_yes := true; b_balance := 1; b_rW := 2;
    b_rS := 3; b_rB := 5 |} 1) eq_refl eq_refl) as (E1 & E2 & _); [vm_compute; reflexivity|].
  exact (conj (f_equal snd E1) (f_equal (fun k => k.1.1.1.2) E2)).
Defined.
