(* ===== verification/Activation.v ===== *)
(** * Announcements of nodes and activation of keys

    The objects by which nodes say that they are ready and by which a committee
    installs the key it has generated: their byte forms ([governance_payload.h],
    [dao_dkg.cpp]) and, in [cryptonote_core/blockchain.cpp], how they are
    announced, validated, applied and rolled back with their block. *)

From stdpp Require Import sorting.
From S2P Require Import Prelude Archive Crypto TxExtra GovStore ParamExecution Paillier Threshold DkgProofs Pedersen Reshare ReshareRunner VoteV2 Tally TallyShare ReshareNode Voting VoteDelivery.

(** The signatures of [crypto/crypto.cpp]; the last argument of
    [generate_signature] is its random scalar. *)
Class NodeSignatures := {
  check_signature : hash -> bytes -> bytes -> bool;
  generate_signature : hash -> bytes -> bytes -> bytes -> bytes;
}.

Class NodeSignatureLaws `{PrivateBox} `{NodeSignatures} := {
  signature_size d pk sk k : length (generate_signature d pk sk k) = 64%nat;
  signature_verifies d pk sk k : secret_key_to_public_key sk = Some pk -> check_signature d pk (generate_signature d pk sk k) = true;
}.

(** ** Announcements *)

Record node_ready_payload := {
  nr_version : Z; nr_sender_pubkey : bytes; nr_height : Z; nr_block_hash : bytes; nr_signature : bytes;
}.

Definition write_node_ready (p : node_ready_payload) : bytes :=
  le_bytes 1 (nr_version p) ++ write_byte_vector (nr_sender_pubkey p) ++ write_varint (nr_height p) ++
  write_byte_vector (nr_block_hash p) ++ write_byte_vector (nr_signature p).

Definition read_node_ready : reader node_ready_payload := fun d =>
  '(v, d) ← read_le 1 d; '(pk, d) ← read_byte_vector d; '(h, d) ← read_varint 64 d;
  '(bh, d) ← read_byte_vector d; '(sig, d) ← read_byte_vector d;
  Some ({| nr_version := v; nr_sender_pubkey := pk; nr_height := h; nr_block_hash := bh; nr_signature := sig |}, d).

Definition with_ready (n : reshare_node) (t : gmap (bytes * Z) hash) : reshare_node :=
  {| rx_tally := rx_tally n; rx_ready := t; rx_blocks := rx_blocks n; rx_send := rx_send n; rx_priv := rx_priv n;
     rx_runner := rx_runner n |}.

Definition add_dao_v2_node_ready (n : reshare_node) (pk : bytes) (height : Z) (block_hash : hash) : reshare_node :=
  with_ready n (<[(pk, height) := block_hash]> (rx_ready n)).

Definition remove_dao_v2_node_ready (n : reshare_node) (pk : bytes) (height : Z) : reshare_node :=
  with_ready n (delete (pk, height) (rx_ready n)).

Definition get_dao_v2_genesis_hash (n : reshare_node) : option hash := rx_blocks n !! 0%nat.

Definition DAO_NODE_READY_ANNOUNCE_INTERVAL_S : Z := 60.

(** A transaction that carries nothing but one governance object. *)
Definition object_tx (type : Z) (data : bytes) : transaction :=
  {| tx_version := 2; tx_unlock_time := 0; tx_vin := 0; tx_vout := 0;
     tx_extra := write_field (tx_extra_governance_payload {| gp_type := type; gp_data := data |}); tx_rct_type := RCTTypeNull |}.

Section node_ready.
Context `{VoteEnv} `{Crypto} `{PrivateBox} `{NodeSignatures}.

Definition compute_dao_v2_node_ready_digest (genesis : hash) (pk : bytes) (height : Z) (block_hash : hash) : hash :=
  cn_fast_hash (str "VeilRoot-DAO-DKG-NODE-READY-V2" ++ genesis ++ pk ++ le_bytes 8 height ++ block_hash).

(** The announcement in a transaction that is recognised as one: it has exactly
    one. *)
Definition node_ready_of (tx : transaction) : option node_ready_payload :=
  if negb (is_dao_v2_node_ready_tx tx) then None else
  blob ← extract_dao_payload tx GO_NODE_READY;
  if is_empty blob then None else parse_all read_node_ready blob.

Definition validate_dao_v2_node_ready_tx (n : reshare_node) (tx : transaction) (block_height : Z) : bool :=
  match node_ready_of tx, get_dao_v2_genesis_hash n with
  | Some nr, Some genesis =>
      if negb (nr_version nr =? 1) then false else
      if negb (length (nr_sender_pubkey nr) =? 32)%nat then false else
      if negb (length (nr_block_hash nr) =? 32)%nat then false else
      if negb (length (nr_signature nr) =? 64)%nat then false else
      let digest := compute_dao_v2_node_ready_digest genesis (nr_sender_pubkey nr) (nr_height nr) (nr_block_hash nr) in
      if negb (check_signature digest (nr_sender_pubkey nr) (nr_signature nr)) then false else
      if block_height <=? nr_height nr then false else
      beq (get_block_id_by_height n (nr_height nr)) (nr_block_hash nr)
  | _, _ => false
  end.

Definition apply_dao_v2_node_ready (tx : transaction) (n : reshare_node) : option reshare_node :=
  nr ← node_ready_of tx;
  if negb (length (nr_sender_pubkey nr) =? 32)%nat then None else
  if negb (length (nr_block_hash nr) =? 32)%nat then None else
  Some (add_dao_v2_node_ready n (nr_sender_pubkey nr) (nr_height nr) (nr_block_hash nr)).

Definition rollback_dao_v2_node_ready (tx : transaction) (n : reshare_node) : reshare_node :=
  match node_ready_of tx with
  | Some nr => if negb (length (nr_sender_pubkey nr) =? 32)%nat then n
               else remove_dao_v2_node_ready n (nr_sender_pubkey nr) (nr_height nr)
  | None => n
  end.

(** The transaction that is handed to the pool, at the time [now] in seconds, of
    a node that last announced itself at [last]; [k] is drawn for the
    signature. *)
Definition maybe_announce_dao_v2_node_ready (n : reshare_node) (now last : Z) (k : bytes) : option transaction :=
  if negb (rx_send n) then None else
  if forallb (Z.eqb 0) (rx_priv n) then None else
  if negb (last =? 0) && (now <? u64 (last + DAO_NODE_READY_ANNOUNCE_INTERVAL_S)) then None else
  genesis ← get_dao_v2_genesis_hash n;
  self_pk ← secret_key_to_public_key (rx_priv n);
  if get_current_blockchain_height n =? 0 then None else
  let announce_height := get_current_blockchain_height n - 1 in
  let announce_block_hash := get_block_id_by_height n announce_height in
  let digest := compute_dao_v2_node_ready_digest genesis self_pk announce_height announce_block_hash in
  let nr := {| nr_version := 1; nr_sender_pubkey := self_pk; nr_height := announce_height; nr_block_hash := announce_block_hash;
               nr_signature := generate_signature digest self_pk (rx_priv n) k |} in
  Some (object_tx GO_NODE_READY (write_node_ready nr)).

End node_ready.

(** ** Key records and activations *)

Definition key_record_serialize (r : dao_tally_key_record) : option bytes :=
  if negb (length (tk_committee_id_hash r) =? 32)%nat then None else
  if negb (zlen (tk_committee_members r) =? tk_committee_size r) then None else
  if negb (forallb (fun m => length m =? 32)%nat (tk_committee_members r)) then None else
  if negb (length (tk_delta r) =? 32)%nat then None else
  if negb (length (tk_N r) =? PAILLIER_MODULUS_BYTES)%nat then None else
  if negb (length (tk_G r) =? PAILLIER_MODULUS_BYTES)%nat then None else
  if negb (length (tk_theta_bytes r) =? PAILLIER_MODULUS_BYTES)%nat then None else
  if negb (length (tk_V r) =? PAILLIER_CT_BYTES)%nat then None else
  if negb (zlen (tk_V_K_i r) =? tk_committee_size r) then None else
  if negb (forallb (fun vk => length vk =? PAILLIER_CT_BYTES)%nat (tk_V_K_i r)) then None else
  if negb (length (tk_dkg_transcript_hash r) =? 32)%nat then None else
  if negb (length (tk_key_id r) =? 32)%nat then None else
  Some (le_bytes 4 (tk_version r) ++ le_bytes 4 (tk_committee_size r) ++ le_bytes 4 (tk_threshold r) ++ le_bytes 4 (tk_t r) ++
        tk_committee_id_hash r ++ concat (tk_committee_members r) ++ tk_delta r ++ tk_N r ++ tk_G r ++ tk_theta_bytes r ++
        tk_V r ++ concat (tk_V_K_i r) ++ push_bytes (tk_vss_P r) ++ push_bytes (tk_vss_P_prime r) ++ push_bytes (tk_vss_g r) ++
        push_bytes (tk_vss_h r) ++ le_bytes 8 (tk_activation_height r) ++ tk_dkg_transcript_hash r ++ tk_key_id r).

Definition read_key_record : reader dao_tally_key_record := fun d =>
  '(v, d) ← read_le 4 d; '(cs, d) ← read_le 4 d; '(th, d) ← read_le 4 d; '(deg, d) ← read_le 4 d;
  if (cs =? 0) || (64 <? cs) then None else
  '(cih, d) ← read_raw 32 d; '(members, d) ← read_n (read_raw 32) (Z.to_nat cs) d; '(delta, d) ← read_raw 32 d;
  '(N, d) ← read_raw PAILLIER_MODULUS_BYTES d; '(G, d) ← read_raw PAILLIER_MODULUS_BYTES d;
  '(theta, d) ← read_raw PAILLIER_MODULUS_BYTES d; '(V, d) ← read_raw PAILLIER_CT_BYTES d;
  '(vks, d) ← read_n (read_raw PAILLIER_CT_BYTES) (Z.to_nat cs) d;
  '(P, d) ← pull_bytes d; '(P', d) ← pull_bytes d; '(g, d) ← pull_bytes d; '(h, d) ← pull_bytes d;
  '(ah, d) ← read_le 8 d; '(dth, d) ← read_raw 32 d; '(kid, d) ← read_raw 32 d;
  Some ({| tk_version := v; tk_committee_size := cs; tk_threshold := th; tk_t := deg; tk_committee_id_hash := cih;
           tk_committee_members := members; tk_delta := delta; tk_N := N; tk_G := G; tk_theta_bytes := theta; tk_V := V;
           tk_V_K_i := vks; tk_vss_P := P; tk_vss_P_prime := P'; tk_vss_g := g; tk_vss_h := h; tk_activation_height := ah;
           tk_dkg_transcript_hash := dth; tk_key_id := kid |}, d).

Definition key_record_deserialize (inp : bytes) : option dao_tally_key_record := parse_all read_key_record inp.

Record dao_dkg_key_attestation := { at_member_index : Z; at_signature : bytes }.

Record dao_dkg_key_activation := {
  da_version : Z; da_selection_height : Z; da_proposal_id : hash; da_record : dao_tally_key_record;
  da_attestations : list dao_dkg_key_attestation;
}.

(** Strictly ascending indices above [prev], with signatures of the right size. *)
Fixpoint attestations_ordered (prev : Z) (l : list dao_dkg_key_attestation) : bool :=
  match l with
  | [] => true
  | a :: l => negb (at_member_index a =? 0) && (prev <? at_member_index a) && (length (at_signature a) =? 64)%nat &&
              attestations_ordered (at_member_index a) l
  end.

Definition write_attestation (a : dao_dkg_key_attestation) : bytes :=
  le_bytes 4 (at_member_index a) ++ push_bytes (at_signature a).

Definition activation_serialize (a : dao_dkg_key_activation) : option bytes :=
  if negb (da_version a =? 2) then None else
  if 64 <? zlen (da_attestations a) then None else
  if negb (attestations_ordered 0 (da_attestations a)) then None else
  rec_blob ← key_record_serialize (da_record a);
  Some (le_bytes 4 (da_version a) ++ le_bytes 8 (da_selection_height a) ++ da_proposal_id a ++ push_bytes rec_blob ++
        le_bytes 4 (zlen (da_attestations a)) ++ concat (map write_attestation (da_attestations a))).

Fixpoint read_attestations (committee_size : Z) (n : nat) (prev : Z) : reader (list dao_dkg_key_attestation) := fun d =>
  match n with
  | O => Some ([], d)
  | S n =>
      '(mi, d) ← read_le 4 d;
      if (mi =? 0) || (mi <=? prev) || (committee_size <? mi) then None else
      '(sig, d) ← pull_bytes d;
      if negb (length sig =? 64)%nat then None else
      '(l, d) ← read_attestations committee_size n mi d;
      Some ({| at_member_index := mi; at_signature := sig |} :: l, d)
  end.

Definition read_activation : reader dao_dkg_key_activation := fun d =>
  '(v, d) ← read_le 4 d;
  if negb (v =? 2) then None else
  '(sel, d) ← read_le 8 d; '(pid, d) ← read_raw 32 d; '(rec_blob, d) ← pull_bytes d;
  rec ← key_record_deserialize rec_blob;
  '(n, d) ← read_le 4 d;
  if 64 <? n then None else
  '(atts, d) ← read_attestations (tk_committee_size rec) (Z.to_nat n) 0 d;
  Some ({| da_version := v; da_selection_height := sel; da_proposal_id := pid; da_record := rec; da_attestations := atts |}, d).

Definition activation_deserialize (inp : bytes) : option dao_dkg_key_activation := parse_all read_activation inp.

(** ** The committee of a first key *)

(** [compute_stake_age_weight]: the weight of a stake of [amount] atomic units of
    the given age in blocks, computed in floating point. *)
Class StakeAge := { stake_log_weight : Z -> Z -> Z }.

Record committee_eligible_record := { ce_node_pubkey : bytes; ce_amount : Z; ce_unlock_height : Z }.

Definition heavier (a b : bytes * Z) : Prop :=
  (if snd a =? snd b then bytes_leb (fst a) (fst b) else snd b <? snd a) = true.

#[export] Instance heavier_dec : RelDecision heavier.
Proof. intros a b. unfold heavier. apply _. Defined.

Section shareholders.
Context `{StakeAge}.

Definition compute_stake_age_weight (amount unlock_height current_height : Z) : Z :=
  if current_height <=? unlock_height then 0 else stake_log_weight amount (current_height - unlock_height).

(** The table is by key image. *)
Definition node_weights (eligible : gmap bytes committee_eligible_record) (selection_height : Z) : gmap bytes Z :=
  map_fold (fun _ rec w =>
    if selection_height <? ce_unlock_height rec then w
    else <[ce_node_pubkey rec := u64 (default 0 (w !! ce_node_pubkey rec) +
             compute_stake_age_weight (ce_amount rec) (ce_unlock_height rec) selection_height)]> w) ∅ eligible.

Definition select_dao_v2_dkg_shareholders (eligible : gmap bytes committee_eligible_record) (selection_height : Z)
    : list (bytes * Z) :=
  merge_sort heavier (map_to_list (node_weights eligible selection_height)).

(** The members of a key among the shareholders, at most [max_committee_size]. *)
Definition select_dao_v2_tally_committee (key_rec : dao_tally_key_record) (eligible : gmap bytes committee_eligible_record)
    (max_committee_size selection_height : Z) : list bytes :=
  take (Z.to_nat max_committee_size)
    (filter (fun pk => pk ∈ tk_committee_members key_rec)
       (map fst (select_dao_v2_dkg_shareholders eligible selection_height))).

End shareholders.

(** ** Activation *)

(** The tables that an activation changes, in the record of a node. *)
Definition with_tables (n : reshare_node) (votes : dao_db) (policy : policy_db) (key : option dao_tally_key_record)
    (sets : gmap Z dao_share_set_record) (current : Z) : reshare_node :=
  let m := rx_tally n in
  let c := tn_chain m in
  with_tally n
    {| tn_chain := {| t_votes := votes; t_policy := policy; t_supply := t_supply c; v2_outcomes := v2_outcomes c;
                      pending_executions := pending_executions c |};
       tn_tally_key := key; tn_share_sets := sets; tn_local_shares := tn_local_shares m; tn_current_share_set := current;
       tn_tally_shares := tn_tally_shares m |}.

Definition set_tally_keys (s : dao_db) (t : gmap bytes dao_tally_key_record) : dao_db :=
  {| tally_keys := t; aggregates := aggregates s; vote_records := vote_records s; vote_nullifiers := vote_nullifiers s |}.

(** The record as it is read back from the database; none where it cannot be
    written. *)
Definition add_dao_tally_key (record : dao_tally_key_record) : option (option dao_tally_key_record) :=
  blob ← key_record_serialize record;
  Some (key_record_deserialize blob).

Definition add_dao_tally_key_by_id (s : dao_db) (key_id : bytes) (record : dao_tally_key_record) : option dao_db :=
  if negb (length key_id =? 32)%nat then None else
  stored ← add_dao_tally_key record;
  Some (set_tally_keys s (match stored with
                          | Some r => <[key_id := r]> (tally_keys s)
                          | None => delete key_id (tally_keys s)
                          end)).

Definition remove_dao_tally_key_by_id (s : dao_db) (key_id : bytes) : dao_db :=
  if negb (length key_id =? 32)%nat then s else set_tally_keys s (delete key_id (tally_keys s)).

Definition with_tally_key (rec : proposal_record) (kid : hash) : proposal_record :=
  {| proposal_id := proposal_id rec; ptype := ptype rec; title := title rec;
     description := description rec; recipient := recipient rec; amount := amount rec;
     voting_period_days := voting_period_days rec; submission_height := submission_height rec;
     voting_end_height := voting_end_height rec; tally_key_id := kid;
     submission_tx_hash := submission_tx_hash rec; executed := executed rec; status := status rec;
     status_height := status_height rec; recipient_view_public_key := recipient_view_public_key rec;
     is_subaddress := is_subaddress rec |}.

Definition with_activation_height (r : dao_tally_key_record) (h : Z) : dao_tally_key_record :=
  {| tk_version := tk_version r; tk_committee_size := tk_committee_size r; tk_threshold := tk_threshold r; tk_t := tk_t r;
     tk_committee_id_hash := tk_committee_id_hash r; tk_committee_members := tk_committee_members r; tk_delta := tk_delta r;
     tk_N := tk_N r; tk_G := tk_G r; tk_theta_bytes := tk_theta_bytes r; tk_V := tk_V r; tk_V_K_i := tk_V_K_i r;
     tk_vss_P := tk_vss_P r; tk_vss_P_prime := tk_vss_P_prime r; tk_vss_g := tk_vss_g r; tk_vss_h := tk_vss_h r;
     tk_activation_height := h; tk_dkg_transcript_hash := tk_dkg_transcript_hash r; tk_key_id := tk_key_id r |}.

Definition with_key_id (r : dao_tally_key_record) (kid : bytes) : dao_tally_key_record :=
  {| tk_version := tk_version r; tk_committee_size := tk_committee_size r; tk_threshold := tk_threshold r; tk_t := tk_t r;
     tk_committee_id_hash := tk_committee_id_hash r; tk_committee_members := tk_committee_members r; tk_delta := tk_delta r;
     tk_N := tk_N r; tk_G := tk_G r; tk_theta_bytes := tk_theta_bytes r; tk_V := tk_V r; tk_V_K_i := tk_V_K_i r;
     tk_vss_P := tk_vss_P r; tk_vss_P_prime := tk_vss_P_prime r; tk_vss_g := tk_vss_g r; tk_vss_h := tk_vss_h r;
     tk_activation_height := tk_activation_height r; tk_dkg_transcript_hash := tk_dkg_transcript_hash r; tk_key_id := kid |}.

Section activation.
Context `{VoteEnv} `{Crypto} `{PrivateBox} `{NodeSignatures} `{Digests} `{StakeAge}.

(** The null hash where the record cannot be written. *)
Definition dao_dkg_activation_digest (genesis_block_hash : hash) (selection_height : Z) (record : dao_tally_key_record)
    (proposal_id : hash) : hash :=
  match key_record_serialize record with
  | None => null_hash
  | Some rec_blob =>
      cn_fast_hash (str "VeilRoot-DAO-DKG-KEY-ACTIVATION-V2" ++ genesis_block_hash ++ le_bytes 8 selection_height ++
                    proposal_id ++ rec_blob)
  end.

Definition activation_of (tx : transaction) : option dao_dkg_key_activation :=
  if negb (is_dao_v2_dkg_activation_tx tx) then None else
  data ← extract_dao_payload tx GO_DKG_KEY_ACTIVATION;
  activation_deserialize data.

(** Steps 4 to 6: sizes, and the two hashes. *)
Definition key_record_sized (rec : dao_tally_key_record) : bool :=
  (tk_version rec =? 1) && (DAO_DKG_MIN_COMMITTEE_SIZE <=? tk_committee_size rec) &&
  (tk_committee_size rec <=? DAO_DKG_MAX_COMMITTEE_SIZE) && (zlen (tk_committee_members rec) =? tk_committee_size rec) &&
  (zlen (tk_V_K_i rec) =? tk_committee_size rec) &&
  (tk_threshold rec =? dao_dkg_expected_threshold (tk_committee_size rec)) &&
  (tk_t rec =? (tk_threshold rec - 1) mod 2 ^ 32) && (length (tk_committee_id_hash rec) =? 32)%nat &&
  (length (tk_delta rec) =? 32)%nat && (length (tk_N rec) =? PAILLIER_MODULUS_BYTES)%nat &&
  (length (tk_G rec) =? PAILLIER_MODULUS_BYTES)%nat && (length (tk_theta_bytes rec) =? PAILLIER_MODULUS_BYTES)%nat &&
  (length (tk_V rec) =? PAILLIER_CT_BYTES)%nat && (length (tk_key_id rec) =? 32)%nat &&
  (length (tk_dkg_transcript_hash rec) =? 32)%nat && forallb (fun m => length m =? 32)%nat (tk_committee_members rec) &&
  forallb (fun vk => length vk =? PAILLIER_CT_BYTES)%nat (tk_V_K_i rec).

Definition committee_id (members : list bytes) : hash := sha256 (str "VeilRoot-DAO-DKG-COMMITTEE-V1" ++ concat members).

Definition key_ids_ok (rec : dao_tally_key_record) : bool :=
  beq (committee_id (tk_committee_members rec)) (tk_committee_id_hash rec) &&
  match key_record_serialize (with_key_id rec (replicate 32 0)) with
  | Some blob => beq (sha256 blob) (tk_key_id rec)
  | None => false
  end.

(** Step 7: the members are the first ones selected. *)
Definition committee_selected (selected : list bytes) (rec : dao_tally_key_record) : bool :=
  (tk_committee_size rec <=? zlen selected) &&
  bool_decide (take (Z.to_nat (tk_committee_size rec)) selected = tk_committee_members rec).

Definition attestation_ok (digest : hash) (members : list bytes) (a : dao_dkg_key_attestation) : bool :=
  if (at_member_index a <? 1) || (zlen members <? at_member_index a) then false else
  (length (at_signature a) =? 64)%nat &&
  check_signature digest (nth (Z.to_nat (at_member_index a - 1)) members []) (at_signature a).

Definition validate_dao_v2_dkg_activation_tx (eligible : gmap bytes committee_eligible_record) (n : reshare_node)
    (tx : transaction) (block_height : Z) : bool :=
  match activation_of tx with
  | None => false
  | Some act =>
      let rec := da_record act in
      let bootstrap := beq (da_proposal_id act) null_hash in
      if negb (da_version act =? 2) then false else
      if block_height <=? da_selection_height act then false else
      if (if bootstrap then bool_decide (is_Some (tn_tally_key (rx_tally n)))
          else bool_decide (is_Some (get_dao_tally_key_by_id (t_votes (tn_chain (rx_tally n))) (tk_key_id rec)))) then false else
      if negb (key_record_sized rec) then false else
      if negb (key_ids_ok rec) then false else
      let selected := if bootstrap then map fst (select_dao_v2_dkg_shareholders eligible (da_selection_height act))
                      else select_dao_v2_proposal_dkg_committee n (da_selection_height act) in
      if negb (committee_selected selected rec) then false else
      match get_dao_v2_genesis_hash n with
      | None => false
      | Some genesis =>
          if beq genesis null_hash then false else
          let digest := dao_dkg_activation_digest genesis (da_selection_height act) rec (da_proposal_id act) in
          if beq digest null_hash then false else
          if negb (forallb (attestation_ok digest (tk_committee_members rec)) (da_attestations act)) then false else
          tk_threshold rec <=? zlen (da_attestations act)
      end
  end.

Definition dao_synthesize_bootstrap_share_set (key_rec : dao_tally_key_record) (share_set_id : Z) : option dao_share_set_record :=
  if negb (zlen (tk_V_K_i key_rec) =? tk_committee_size key_rec) then None else
  if negb (zlen (tk_committee_members key_rec) =? tk_committee_size key_rec) then None else
  if negb (length (tk_key_id key_rec) =? 32)%nat then None else
  Some {| ss_version := 1; ss_share_set_id := share_set_id; ss_height := tk_activation_height key_rec;
          ss_threshold := tk_threshold key_rec; ss_key_id := tk_key_id key_rec;
          ss_committee_id_hash := sha256 (tk_committee_id_hash key_rec); ss_committee_members := tk_committee_members key_rec;
          ss_VK_i := tk_V_K_i key_rec; ss_base_share_set_id := 0; ss_contributions := []; ss_contributor_indices := [];
          ss_contributor_vk := [] |}.

Definition activation_share_set_id (act : dao_dkg_key_activation) : Z :=
  if beq (da_proposal_id act) null_hash then 1 else share_set_id_for_key_id (tk_key_id (da_record act)).

(** None: [false] or an exception, for which the caller throws as well. *)
Definition apply_dao_v2_dkg_activation (tx : transaction) (block_height : Z) (n : reshare_node) : option reshare_node :=
  act ← activation_of tx;
  let m := rx_tally n in
  let c := tn_chain m in
  let rec := with_activation_height (da_record act) block_height in
  let pid := da_proposal_id act in
  let bootstrap := beq pid null_hash in
  key ← (if bootstrap then add_dao_tally_key rec else Some (tn_tally_key m));
  votes ← (if (length (tk_key_id rec) =? 32)%nat then add_dao_tally_key_by_id (t_votes c) (tk_key_id rec) rec else Some (t_votes c));
  let policy :=
    if bootstrap then t_policy c
    else match proposals (t_policy c) !! pid with
         | Some prop => add_proposal_record (t_policy c) pid (with_tally_key prop (tk_key_id rec))
         | None => t_policy c
         end in
  let ssid := activation_share_set_id act in
  match dao_synthesize_bootstrap_share_set rec ssid with
  | Some share_set =>
      sets ← add_dao_share_set (tn_share_sets m) ssid share_set;
      Some (with_tables n votes policy key sets (if bootstrap then ssid else tn_current_share_set m))
  | None => Some (with_tables n votes policy key (tn_share_sets m) (tn_current_share_set m))
  end.

Definition rollback_dao_v2_dkg_activation (tx : transaction) (n : reshare_node) : reshare_node :=
  match activation_of tx with
  | None => n
  | Some act =>
      let m := rx_tally n in
      let c := tn_chain m in
      let pid := da_proposal_id act in
      let kid := tk_key_id (da_record act) in
      let bootstrap := beq pid null_hash in
      let policy :=
        if bootstrap then t_policy c
        else match proposals (t_policy c) !! pid with
             | Some prop => if (length kid =? 32)%nat && beq (tally_key_id prop) kid
                            then add_proposal_record (t_policy c) pid (with_tally_key prop null_hash) else t_policy c
             | None => t_policy c
             end in
      with_tables n (remove_dao_tally_key_by_id (t_votes c) kid) policy (if bootstrap then None else tn_tally_key m)
        (delete (activation_share_set_id act) (tn_share_sets m)) (if bootstrap then 0 else tn_current_share_set m)
  end.

End activation.
