(* ===== verification/ActivationProofs.v ===== *)
(** * Announced nodes are selected, activated keys are authorised

    What a node announces is validated, makes it a candidate for the next
    committees and is undone with its block; what installs a key has the
    signatures of a quorum of the selected committee, and installs exactly that
    key, its proposal's reference and its share set. *)

From stdpp Require Import sorting.
From S2P Require Import Prelude Archive Crypto TxExtra GovStore ParamExecution Paillier Threshold DkgProofs Pedersen Reshare ReshareCodec ReshareRunner ReshareRunnerProofs VoteV2 Tally TallyCorrect TallyShare ReshareNode ReshareNodeProofs Voting VoteDelivery Activation TallyResult.

(** ** Transactions with one object *)

Section objects.
Context `{VoteEnv}.

Lemma object_tx_one ty ty' data : 0 <= ty < 2 ^ 8 -> zlen data < 2 ^ 64 -> has_one_object ty' (object_tx ty data) = (ty =? ty').
Proof. apply one_object. Qed.

Lemma object_tx_data ty data : 0 <= ty < 2 ^ 8 -> zlen data < 2 ^ 64 -> extract_dao_payload (object_tx ty data) ty = Some data.
Proof.
  intros Ht Hd. unfold extract_dao_payload, object_tx. cbn [tx_extra]. rewrite parse_object by done.
  cbn [mbind option_bind only_object gp_type gp_data]. by rewrite Z.eqb_refl.
Qed.

End objects.

(** ** Announcements *)

Record node_ready_wf (p : node_ready_payload) : Prop := {
  nw_version : 0 <= nr_version p < 2 ^ 8;
  nw_pubkey : length (nr_sender_pubkey p) = 32%nat;
  nw_height : u64_ok (nr_height p);
  nw_hash : length (nr_block_hash p) = 32%nat;
  nw_signature : length (nr_signature p) = 64%nat;
}.

Lemma short_list (l : bytes) n : length l = n -> (n <= 1000)%nat -> zlen l < 2 ^ 64.
Proof. unfold zlen. lia. Qed.

Lemma reads_node_ready p : node_ready_wf p -> reads read_node_ready (write_node_ready p) p.
Proof.
  intros [Hv Lp Hh Lb Ls] rest. unfold read_node_ready, write_node_ready. rewrite <- !app_assoc.
  rewrite (reads_le 1) by done. cbn [mbind option_bind].
  rewrite (reads_byte_vector _ (short_list _ _ Lp ltac:(lia))). cbn [mbind option_bind].
  rewrite (reads_varint 64) by done. cbn [mbind option_bind].
  rewrite (reads_byte_vector _ (short_list _ _ Lb ltac:(lia))). cbn [mbind option_bind].
  rewrite (reads_byte_vector _ (short_list _ _ Ls ltac:(lia))). cbn [mbind option_bind]. by destruct p.
Qed.

Lemma length_byte_vector l : (length (write_byte_vector l) <= 10 + length l)%nat.
Proof.
  unfold write_byte_vector, write_container. rewrite length_app, (length_concat_same _ _ 1) by (by apply Forall_true).
  pose proof (length_write_varint (zlen l)). lia.
Qed.

Lemma node_ready_size p : node_ready_wf p -> write_node_ready p <> [] /\ zlen (write_node_ready p) < 2 ^ 64.
Proof.
  intros [Hv Lp Hh Lb Ls]. unfold write_node_ready. split; [by destruct (le_bytes 1 (nr_version p)) eqn:E|].
  unfold zlen. rewrite !length_app, length_le_bytes. pose proof (length_byte_vector (nr_sender_pubkey p)).
  pose proof (length_byte_vector (nr_block_hash p)). pose proof (length_byte_vector (nr_signature p)).
  pose proof (length_write_varint (nr_height p)). lia.
Qed.

(** The keys of a roster are those with an announcement that counts. *)
Lemma ready_keys_spec n recent pk : pk ∈ ready_keys n recent <->
  exists h bh, rx_ready n !! (pk, h) = Some bh /\ recent h = true /\ get_block_id_by_height n h = bh.
Proof.
  unfold ready_keys. generalize (rx_ready n). apply (map_fold_weak_ind (fun keys t => pk ∈ keys <->
    exists h bh, t !! (pk, h) = Some bh /\ recent h = true /\ get_block_id_by_height n h = bh)).
  - split; [set_solver|]. by intros (h & bh & E & _).
  - intros [q h] bh t keys Hn IH. cbn [fst snd]. destruct (recent h && beq (get_block_id_by_height n h) bh) eqn:E.
    + apply andb_true_iff in E as [E1 E2%beq_true]. rewrite elem_of_union, elem_of_singleton, IH. split.
      * intros [->|(h' & bh' & E' & E'')]; [exists h, bh; by rewrite lookup_insert_eq|]. exists h', bh'. split; [|done].
        rewrite lookup_insert_ne; [done|]. intros [= -> ->]. congruence.
      * intros (h' & bh' & E' & E''). destruct (decide ((q, h) = (pk, h'))) as [[= -> ->]|Hne]; [by left|].
        rewrite lookup_insert_ne in E' by done. right. by exists h', bh'.
    + rewrite IH. split; intros (h' & bh' & E' & E1 & E2); exists h', bh'; (split; [|done]).
      * rewrite lookup_insert_ne; [done|]. intros [= -> ->]. congruence.
      * destruct (decide ((q, h) = (pk, h'))) as [[= -> ->]|Hne]; [|by rewrite lookup_insert_ne in E' by done].
        rewrite lookup_insert_eq in E'. injection E' as ->. rewrite E1, (proj2 (beq_true _ _) E2) in E. done.
Qed.

Lemma roster_all n recent pk : (size (ready_keys n recent) <= Z.to_nat DAO_DKG_MAX_COMMITTEE_SIZE)%nat ->
  pk ∈ roster n recent <-> pk ∈ ready_keys n recent.
Proof.
  intros Hs. unfold roster. rewrite take_ge; [by rewrite (merge_sort_Permutation bytes_le), elem_of_elements|].
  by rewrite (Permutation_length (merge_sort_Permutation bytes_le _)).
Qed.

Section announcing.
Context `{VoteEnv} `{Crypto} `{PrivateBoxLaws} `{!NodeSignatures} `{!NodeSignatureLaws}.

Lemma node_ready_carried p : node_ready_wf p -> node_ready_of (object_tx GO_NODE_READY (write_node_ready p)) = Some p.
Proof.
  intros Wp. destruct (node_ready_size p Wp) as [Hn Hs]. unfold node_ready_of, is_dao_v2_node_ready_tx.
  rewrite object_tx_one, object_tx_data, Z.eqb_refl by done. cbn [negb mbind option_bind].
  rewrite (proj2 (is_empty_false _) Hn). by apply parse_all_reads, reads_node_ready.
Qed.

(** What a node announces. *)
Lemma announce_spec n now last k tx : maybe_announce_dao_v2_node_ready n now last k = Some tx ->
  zlen (rx_blocks n) < 2 ^ 64 -> Forall (fun b => length b = 32%nat) (rx_blocks n) ->
  exists pk genesis bh, secret_key_to_public_key (rx_priv n) = Some pk /\ rx_blocks n !! 0%nat = Some genesis /\
    rx_blocks n !! Z.to_nat (zlen (rx_blocks n) - 1) = Some bh /\
    let h := zlen (rx_blocks n) - 1 in
    let nr := {| nr_version := 1; nr_sender_pubkey := pk; nr_height := h; nr_block_hash := bh;
                 nr_signature := generate_signature (compute_dao_v2_node_ready_digest genesis pk h bh) pk (rx_priv n) k |} in
    node_ready_wf nr /\ node_ready_of tx = Some nr.
Proof.
  intros E Hl Hb. unfold maybe_announce_dao_v2_node_ready in E.
  destruct (rx_send n); [|done]. cbn [negb] in E. destruct (forallb _ _); [done|]. destruct (_ && _); [done|].
  destruct (get_dao_v2_genesis_hash n) as [genesis|] eqn:Eg; [|done]. cbn [mbind option_bind] in E.
  destruct (secret_key_to_public_key _) as [pk|] eqn:Ek; [|done]. cbn [mbind option_bind] in E.
  destruct (_ =? 0) eqn:E0; [done|]. apply Z.eqb_neq in E0. unfold get_current_blockchain_height in *.
  destruct (rx_blocks n !! Z.to_nat (zlen (rx_blocks n) - 1)) as [bh|] eqn:Eb.
  2: { apply lookup_ge_None in Eb. unfold zlen in *. lia. }
  unfold get_block_id_by_height in E. rewrite (nth_lookup_Some _ _ _ _ Eb) in E. injection E as <-.
  exists pk, genesis, bh. do 3 (split; [done|]). cbv zeta.
  match goal with |- node_ready_wf ?p /\ _ => assert (node_ready_wf p) as Wp end.
  { rewrite Forall_lookup in Hb. split; cbn [nr_version nr_sender_pubkey nr_height nr_block_hash nr_signature].
    - done.
    - exact (proj1 (public_key_size _ _ Ek)).
    - unfold u64_ok, zlen in *. lia.
    - exact (Hb _ _ Eb).
    - apply signature_size. }
  split; [exact Wp|exact (node_ready_carried _ Wp)].
Qed.

Lemma announce_blocks n now last k tx : maybe_announce_dao_v2_node_ready n now last k = Some tx -> rx_blocks n <> [].
Proof.
  unfold maybe_announce_dao_v2_node_ready, get_dao_v2_genesis_hash. intros E Hn. rewrite Hn in E.
  cbn [mbind option_bind lookup list_lookup] in E. repeat case_match; discriminate.
Qed.

Lemma announcement_counts n' pk h bh : rx_blocks n' !! Z.to_nat h = Some bh -> 0 <= h -> forall s, h <= s <= h + 14 -> h + 15 < 2 ^ 64 ->
  let n1 := add_dao_v2_node_ready n' pk h bh in
  zlen (select_dao_v2_proposal_dkg_committee n1 s) < DAO_DKG_MAX_COMMITTEE_SIZE -> pk ∈ select_dao_v2_proposal_dkg_committee n1 s.
Proof.
  intros Eb Hh s Hs Hm n1 Hz. unfold select_dao_v2_proposal_dkg_committee in *. rewrite Z.mod_small in * by lia.
  apply roster_all; [|].
  - unfold roster, zlen in Hz. rewrite length_take, (Permutation_length (merge_sort_Permutation bytes_le _)) in Hz.
    unfold size, set_size, compose. lia.
  - apply ready_keys_spec. exists h, bh. split; [apply lookup_insert_eq|]. split; [unfold k_ready_ttl_blocks; lia|].
    exact (nth_lookup_Some _ _ _ _ Eb).
Qed.

(** C28: An announced node is a candidate.  The transaction by which a node
    announces itself is accepted in every block that extends the chain it was
    made on; applying it puts the node into the committee selected at each of
    the next fifteen heights, as long as that has a free place; and popping the
    block leaves the tables as they were, if that announcement was new. *)
Theorem announced_node_selected n now last k tx n' l :
  maybe_announce_dao_v2_node_ready n now last k = Some tx -> Forall (fun b => length b = 32%nat) (rx_blocks n) ->
  rx_blocks n' = rx_blocks n ++ l -> zlen (rx_blocks n') + 15 < 2 ^ 64 ->
  let h := zlen (rx_blocks n) - 1 in
  exists pk n1, secret_key_to_public_key (rx_priv n) = Some pk /\
    validate_dao_v2_node_ready_tx n' tx (zlen (rx_blocks n')) = true /\ apply_dao_v2_node_ready tx n' = Some n1 /\
    (forall s, h <= s <= h + 14 -> zlen (select_dao_v2_proposal_dkg_committee n1 s) < DAO_DKG_MAX_COMMITTEE_SIZE ->
      pk ∈ select_dao_v2_proposal_dkg_committee n1 s) /\
    (rx_ready n' !! (pk, h) = None -> rollback_dao_v2_node_ready tx n1 = n').
Proof.
  intros E Hb Hx Hl h. assert (zlen (rx_blocks n) <= zlen (rx_blocks n')) as Hle by (rewrite Hx; unfold zlen; rewrite length_app; lia).
  destruct (announce_spec n now last k tx E ltac:(lia) Hb) as (pk & genesis & bh & Ek & Eg & Eb & Wp & Et).
  apply (lookup_app_l_Some _ l) in Eg, Eb. rewrite <- Hx in Eg, Eb. fold h in Eb, Wp, Et.
  assert (0 <= h < zlen (rx_blocks n')) as Hh.
  { apply announce_blocks in E. assert (0 < zlen (rx_blocks n)) by (unfold zlen; by destruct (rx_blocks n); [|cbn [length]; lia]). lia. }
  exists pk, (add_dao_v2_node_ready n' pk h bh). destruct Wp as [_ L1 _ L2 L3]. cbn [nr_version nr_sender_pubkey nr_height nr_block_hash nr_signature] in *.
  split; [done|]. split; [|split; [|split]].
  - unfold validate_dao_v2_node_ready_tx, get_dao_v2_genesis_hash. rewrite Et, Eg. cbn [nr_version nr_sender_pubkey nr_height nr_block_hash nr_signature].
    rewrite L1, L2, L3, (signature_verifies _ _ _ _ Ek), (proj2 (Z.leb_gt _ _)) by lia. cbn [negb Z.eqb Nat.eqb].
    apply beq_true. exact (nth_lookup_Some _ _ _ _ Eb).
  - unfold apply_dao_v2_node_ready. rewrite Et. cbn [mbind option_bind nr_sender_pubkey nr_height nr_block_hash]. by rewrite L1, L2.
  - intros s Hs. apply (announcement_counts n' pk h bh Eb (proj1 Hh) s Hs). lia.
  - intros Hn. unfold rollback_dao_v2_node_ready. rewrite Et. cbn [nr_sender_pubkey nr_height]. rewrite L1. cbn [negb Nat.eqb].
    unfold remove_dao_v2_node_ready, add_dao_v2_node_ready, with_ready. cbn. rewrite delete_insert_id by done. by destruct n'.
Qed.

End announcing.

(** ** The bytes of a key record and of an activation *)

(** What a committee's key has, whoever made it: the sizes that are validated,
    and commitment parameters of at most [2 ^ 20] bytes. *)
Record key_record_wf (r : dao_tally_key_record) : Prop := {
  kw_version : u32_ok (tk_version r);
  kw_size : 0 < tk_committee_size r <= 64;
  kw_threshold : u32_ok (tk_threshold r);
  kw_t : u32_ok (tk_t r);
  kw_id : length (tk_committee_id_hash r) = 32%nat;
  kw_members : zlen (tk_committee_members r) = tk_committee_size r;
  kw_member : Forall (fun m => length m = 32%nat) (tk_committee_members r);
  kw_delta : length (tk_delta r) = 32%nat;
  kw_N : length (tk_N r) = PAILLIER_MODULUS_BYTES;
  kw_G : length (tk_G r) = PAILLIER_MODULUS_BYTES;
  kw_theta : length (tk_theta_bytes r) = PAILLIER_MODULUS_BYTES;
  kw_V : length (tk_V r) = PAILLIER_CT_BYTES;
  kw_vks : zlen (tk_V_K_i r) = tk_committee_size r;
  kw_vk : Forall (fun vk => length vk = PAILLIER_CT_BYTES) (tk_V_K_i r);
  kw_P : piece_ok (tk_vss_P r);
  kw_P' : piece_ok (tk_vss_P_prime r);
  kw_g : piece_ok (tk_vss_g r);
  kw_h : piece_ok (tk_vss_h r);
  kw_height : u64_ok (tk_activation_height r);
  kw_transcript : length (tk_dkg_transcript_hash r) = 32%nat;
  kw_key_id : length (tk_key_id r) = 32%nat;
}.

Lemma sized_forallb n (l : list bytes) : Forall (fun m => length m = n) l -> forallb (fun m => length m =? n)%nat l = true.
Proof. intros F. apply forallb_Forall. eapply Forall_impl; [exact F|]. intros m ->. by apply Nat.eqb_eq. Qed.

Lemma reads_rows n (l : list bytes) k : Forall (fun m => length m = n) l -> zlen l = k -> reads (read_n (read_raw n) (Z.to_nat k)) (concat l) l.
Proof.
  intros F Hk. replace (Z.to_nat k) with (length l) by (unfold zlen in Hk; lia). rewrite <- (map_id l) at 2. apply reads_n.
  eapply Forall_impl; [exact F|]. intros m Hm. exact (reads_raw _ _ Hm).
Qed.

Lemma length_rows n (l : list bytes) k : Forall (fun m => length m = n) l -> zlen l = k -> Z.of_nat (length (concat l)) = Z.of_nat n * k.
Proof. intros F Hk. rewrite <- (map_id l) at 1. rewrite (length_concat_same _ _ n) by done. unfold zlen in Hk. lia. Qed.

Lemma key_record_roundtrip r : key_record_wf r -> exists blob, key_record_serialize r = Some blob /\ blob_ok blob /\
  key_record_deserialize blob = Some r.
Proof.
  intros [Hv Hs Ht Hd Hi Hm Fm Ldl LN LG Lt LV Hk Fk HP HP' Hg Hh Ha Htr Hkid]. unfold key_record_serialize.
  rewrite Hi, Hm, Hk, Ldl, LN, LG, Lt, LV, Htr, Hkid, !Z.eqb_refl, !Nat.eqb_refl, !sized_forallb by done. cbn [negb].
  eexists. split; [reflexivity|]. split.
  - pose proof (length_rows _ _ _ Fm Hm). pose proof (length_rows _ _ _ Fk Hk). unfold blob_ok, piece_ok, zlen in *.
    unfold push_bytes. rewrite !length_app, !length_le_bytes, Hi, Ldl, LN, LG, Lt, LV, Htr, Hkid.
    unfold PAILLIER_CT_BYTES, PAILLIER_MODULUS_BYTES in *. clear -HP HP' Hg Hh H H0 Hs. lia.
  - apply parse_all_reads. intros rest. unfold read_key_record. rewrite <- !app_assoc.
    assert (u32_ok (tk_committee_size r)) as Hcs by (unfold u32_ok; lia). do 4 read_step.
    rewrite (proj2 (Z.eqb_neq _ _)), (proj2 (Z.ltb_ge _ _)) by lia. cbn [orb].
    rewrite (reads_raw _ _ Hi). cbn [mbind option_bind]. rewrite (reads_rows _ _ _ Fm Hm). cbn [mbind option_bind].
    rewrite (reads_raw _ _ Ldl). cbn [mbind option_bind]. rewrite (reads_raw _ _ LN). cbn [mbind option_bind].
    rewrite (reads_raw _ _ LG). cbn [mbind option_bind]. rewrite (reads_raw _ _ Lt). cbn [mbind option_bind].
    rewrite (reads_raw _ _ LV). cbn [mbind option_bind]. rewrite (reads_rows _ _ _ Fk Hk). cbn [mbind option_bind].
    do 5 read_step. rewrite (reads_raw _ _ Htr). cbn [mbind option_bind]. rewrite (reads_raw _ _ Hkid). cbn [mbind option_bind].
    by destruct r.
Qed.

Record activation_wf (a : dao_dkg_key_activation) : Prop := {
  aw_version : da_version a = 2;
  aw_height : u64_ok (da_selection_height a);
  aw_proposal : length (da_proposal_id a) = 32%nat;
  aw_record : key_record_wf (da_record a);
  aw_ordered : attestations_ordered 0 (da_attestations a) = true;
  aw_index : Forall (fun s => at_member_index s <= tk_committee_size (da_record a)) (da_attestations a);
  aw_count : zlen (da_attestations a) <= 64;
}.

Lemma reads_attestations cs l : forall prev, 0 <= prev -> cs <= 64 -> attestations_ordered prev l = true ->
  Forall (fun s => at_member_index s <= cs) l -> reads (read_attestations cs (length l) prev) (concat (map write_attestation l)) l.
Proof.
  induction l as [|a l IH]; intros prev Hp Hc Ho Hf rest; [done|]. apply Forall_cons in Hf as [Ha Hf].
  cbn [attestations_ordered] in Ho. repeat setoid_rewrite andb_true_iff in Ho. destruct Ho as (((_ & H1%Z.ltb_lt) & H2%Nat.eqb_eq) & Ho).
  cbn [length read_attestations map concat]. unfold write_attestation at 1. rewrite <- !app_assoc.
  rewrite reads_u32 by lia. cbn [mbind option_bind].
  rewrite (proj2 (Z.eqb_neq _ _)), (proj2 (Z.leb_gt _ _)), (proj2 (Z.ltb_ge _ _)) by lia. cbn [orb].
  rewrite reads_bytes by (unfold zlen; lia). cbn [mbind option_bind]. rewrite H2. cbn [Nat.eqb negb].
  rewrite (IH (at_member_index a) ltac:(lia) Hc Ho Hf rest). cbn [mbind option_bind]. by destruct a.
Qed.

Lemma length_attestations l : forall prev, attestations_ordered prev l = true ->
  length (concat (map write_attestation l)) = (72 * length l)%nat.
Proof.
  induction l as [|a l IH]; intros prev Ho; [done|]. cbn [attestations_ordered] in Ho. apply andb_true_iff in Ho as [Ho Hl].
  apply andb_true_iff in Ho as [_ Hs%Nat.eqb_eq]. cbn [map concat length]. rewrite length_app, (IH _ Hl).
  unfold write_attestation, push_bytes. rewrite !length_app, !length_le_bytes. lia.
Qed.

Lemma activation_roundtrip a : activation_wf a -> exists blob, activation_serialize a = Some blob /\ zlen blob < 2 ^ 64 /\
  activation_deserialize blob = Some a.
Proof.
  intros [Hv Hh Hp Hr Ho Hi Hc]. destruct (key_record_roundtrip _ Hr) as (rb & Er & Hb & Ed). unfold activation_serialize.
  rewrite Hv, (proj2 (Z.ltb_ge _ _)), Ho, Er by done. cbn [Z.eqb Pos.eqb negb mbind option_bind].
  eexists. split; [reflexivity|]. split.
  - unfold blob_ok, zlen, push_bytes in *. rewrite !length_app, !length_le_bytes, (length_attestations _ _ Ho). lia.
  - apply parse_all_reads. intros rest. unfold read_activation. rewrite <- !app_assoc.
    rewrite (reads_u32 2) by done. cbn [mbind option_bind]. rewrite Z.eqb_refl. cbn [negb]. read_step.
    rewrite (reads_raw _ _ Hp). cbn [mbind option_bind]. read_step. rewrite Ed. cbn [mbind option_bind].
    rewrite reads_u32 by (unfold zlen in *; lia). cbn [mbind option_bind]. rewrite (proj2 (Z.ltb_ge _ _)) by done.
    unfold zlen. rewrite Nat2Z.id, (reads_attestations _ _ 0 ltac:(done) (proj2 (kw_size _ Hr)) Ho Hi). cbn [mbind option_bind].
    rewrite <- Hv. by destruct a.
Qed.

(** ** An activation needs a quorum of the selected committee *)

Lemma roster_nodup n recent : NoDup (roster n recent).
Proof.
  unfold roster. assert (NoDup (merge_sort bytes_le (elements (ready_keys n recent)))) as Hd
    by (rewrite (merge_sort_Permutation bytes_le); apply NoDup_elements).
  rewrite <- (take_drop (Z.to_nat DAO_DKG_MAX_COMMITTEE_SIZE) _) in Hd. by apply NoDup_app in Hd as [Hd _].
Qed.

Lemma shareholders_nodup `{StakeAge} eligible h : NoDup (map fst (select_dao_v2_dkg_shareholders eligible h)).
Proof.
  unfold select_dao_v2_dkg_shareholders. change (map fst) with (fmap (M := list) (@fst bytes Z)).
  rewrite (merge_sort_Permutation heavier). apply NoDup_fst_map_to_list.
Qed.

Lemma read_attestations_ordered cs n : forall prev d l d', read_attestations cs n prev d = Some (l, d') -> attestations_ordered prev l = true.
Proof.
  induction n as [|n IH]; intros prev d l d' E; cbn [read_attestations] in E; [by injection E as <- <-|].
  destruct (read_le 4 d) as [[mi d1]|]; [|done]. cbn [mbind option_bind] in E. destruct ((mi =? 0) || _ || _) eqn:E1; [done|].
  destruct (pull_bytes d1) as [[sig d2]|]; [|done]. cbn [mbind option_bind] in E. destruct (length sig =? 64)%nat eqn:E2; [|done]. cbn [negb] in E.
  destruct (read_attestations cs n mi d2) as [[l' d3]|] eqn:E3; [|done]. injection E as <- <-. cbn [attestations_ordered at_member_index at_signature].
  rewrite (IH _ _ _ _ E3), E2. apply orb_false_iff in E1 as [E1 _]. apply orb_false_iff in E1 as [-> E1%Z.leb_gt].
  by rewrite (proj2 (Z.ltb_lt _ _)).
Qed.

Lemma attestations_above prev l : attestations_ordered prev l = true -> Forall (fun a => prev < at_member_index a) l.
Proof.
  revert prev. induction l as [|a l IH]; intros prev Ho; constructor; cbn [attestations_ordered] in Ho;
    apply andb_true_iff in Ho as [Ho Hl]; apply andb_true_iff in Ho as [Ho _]; apply andb_true_iff in Ho as [_ Ho%Z.ltb_lt]; [done|].
  eapply Forall_impl; [exact (IH _ Hl)|]. cbn beta. lia.
Qed.

(** The keys that signed. *)
Definition signers (members : list bytes) (l : list dao_dkg_key_attestation) : list bytes :=
  map (fun a => nth (Z.to_nat (at_member_index a - 1)) members []) l.

Lemma signers_distinct `{NodeSignatures} digest members prev l : NoDup members -> 0 <= prev -> attestations_ordered prev l = true ->
  forallb (attestation_ok digest members) l = true ->
  NoDup (signers members l) /\ Forall (fun pk => pk ∈ members /\ exists sig, check_signature digest pk sig = true) (signers members l).
Proof.
  intros Hd. revert prev. induction l as [|a l IH]; intros prev Hp Ho Hf; [split; constructor|].
  pose proof (attestations_above _ _ Ho) as Ha%Forall_cons. destruct Ha as [Ha _]. cbn [attestations_ordered] in Ho. apply andb_true_iff in Ho as [_ Ho].
  cbn [forallb] in Hf. apply andb_true_iff in Hf as [H1 Hf]. destruct (IH (at_member_index a) ltac:(lia) Ho Hf) as [IH1 IH2]. unfold attestation_ok in H1.
  destruct (_ || _) eqn:Er; [done|]. apply orb_false_iff in Er as [_ Er%Z.ltb_ge]. apply andb_true_iff in H1 as [_ Hs].
  destruct (lookup_lt_is_Some_2 members (Z.to_nat (at_member_index a - 1))) as [pk Hpk]; [unfold zlen in Er; lia|].
  cbn [signers map]. rewrite (nth_lookup_Some _ _ _ _ Hpk) in *. split; constructor; [|done| |done].
  - intros Hin. unfold signers in Hin. apply list_elem_of_fmap in Hin as (b & Eb & Hb). pose proof (attestations_above _ _ Ho) as Hab.
    rewrite Forall_forall in Hab. specialize (Hab _ Hb). apply forallb_Forall in Hf. rewrite Forall_forall in Hf. specialize (Hf _ Hb).
    unfold attestation_ok in Hf. destruct (_ || _) eqn:Er' in Hf; [done|]. apply orb_false_iff in Er' as [_ Er'%Z.ltb_ge].
    destruct (lookup_lt_is_Some_2 members (Z.to_nat (at_member_index b - 1))) as [pk' Hpk']; [unfold zlen in Er'; lia|].
    rewrite (nth_lookup_Some _ _ _ _ Hpk') in Eb. subst pk'. pose proof (NoDup_lookup _ _ _ _ Hd Hpk Hpk'). lia.
  - split; [by apply list_elem_of_lookup_2 in Hpk|by eexists].
Qed.

Section authorising.
Context `{VoteEnv} `{Crypto} `{PrivateBox} `{!NodeSignatures} `{!Digests} `{!StakeAge}.

Lemma activation_read_ordered data act : activation_deserialize data = Some act -> attestations_ordered 0 (da_attestations act) = true.
Proof.
  unfold activation_deserialize, parse_all. destruct (read_activation data) as [[a d]|] eqn:E; [|done]. intros E'.
  assert (a = act) as -> by (destruct d; congruence). clear E'. unfold read_activation in E. bind_inv E. destruct (negb _); [done|].
  do 3 bind_inv E. destruct (key_record_deserialize _) as [rec|]; [|done]. cbn [mbind option_bind] in E. bind_inv E. destruct (64 <? _); [done|].
  bind_inv E. injection E as <- _. by eapply read_attestations_ordered.
Qed.

(** The list that the committee of an activation is a prefix of. *)
Definition candidates (eligible : gmap bytes committee_eligible_record) (n : reshare_node) (act : dao_dkg_key_activation) : list bytes :=
  if beq (da_proposal_id act) null_hash then map fst (select_dao_v2_dkg_shareholders eligible (da_selection_height act))
  else select_dao_v2_proposal_dkg_committee n (da_selection_height act).

Lemma candidates_nodup eligible n act : NoDup (candidates eligible n act).
Proof. unfold candidates. destruct (beq _ _); [apply shareholders_nodup|apply roster_nodup]. Qed.

Lemma activation_of_ordered tx act : activation_of tx = Some act -> attestations_ordered 0 (da_attestations act) = true.
Proof.
  unfold activation_of. intros E. destruct (negb _); [done|]. destruct (extract_dao_payload _ _) as [data|]; [|done].
  cbn [mbind option_bind] in E. by apply activation_read_ordered in E.
Qed.

(** Everything that a validated activation has passed. *)
Record activation_passed (eligible : gmap bytes committee_eligible_record) (n : reshare_node) (act : dao_dkg_key_activation)
    (genesis : hash) (h : Z) : Prop := {
  ap_height : da_selection_height act < h;
  ap_new : if beq (da_proposal_id act) null_hash then tn_tally_key (rx_tally n) = None
           else get_dao_tally_key_by_id (t_votes (tn_chain (rx_tally n))) (tk_key_id (da_record act)) = None;
  ap_sized : key_record_sized (da_record act) = true;
  ap_ids : key_ids_ok (da_record act) = true;
  ap_selected : committee_selected (candidates eligible n act) (da_record act) = true;
  ap_genesis : get_dao_v2_genesis_hash n = Some genesis /\ genesis <> null_hash;
  ap_digest : dao_dkg_activation_digest genesis (da_selection_height act) (da_record act) (da_proposal_id act) <> null_hash;
  ap_signed : forallb (attestation_ok (dao_dkg_activation_digest genesis (da_selection_height act) (da_record act) (da_proposal_id act))
    (tk_committee_members (da_record act))) (da_attestations act) = true;
  ap_quorum : tk_threshold (da_record act) <= zlen (da_attestations act);
}.

Lemma validate_activation_spec eligible n tx h : validate_dao_v2_dkg_activation_tx eligible n tx h = true <->
  exists act genesis, activation_of tx = Some act /\ da_version act = 2 /\ activation_passed eligible n act genesis h.
Proof.
  unfold validate_dao_v2_dkg_activation_tx. split.
  - destruct (activation_of tx) as [act|]; [|done]. cbv zeta. fold (candidates eligible n act). intros E. exists act.
    destruct (da_version act =? 2) eqn:E1; [|done]. destruct (h <=? _) eqn:E2; [done|].
    cbn [negb] in E.
    destruct (if beq (da_proposal_id act) null_hash then _ else _) eqn:E3; [done|]. destruct (key_record_sized _) eqn:E4; [|done].
    destruct (key_ids_ok _) eqn:E5; [|done]. destruct (committee_selected _ _) eqn:E6; [|done]. cbn [negb] in E.
    destruct (get_dao_v2_genesis_hash n) as [genesis|] eqn:E7; [|done]. exists genesis. destruct (beq genesis _) eqn:E8; [done|].
    destruct (beq (dao_dkg_activation_digest _ _ _ _) _) eqn:E9; [done|]. destruct (forallb _ _) eqn:E10; [|done]. cbn [negb] in E.
    apply Z.eqb_eq in E1. apply Z.leb_gt in E2. apply Z.leb_le in E. apply beq_false in E8, E9. split; [done|]. split; [done|]. split; try done.
    destruct (beq (da_proposal_id act) null_hash); apply bool_decide_eq_false in E3; by apply eq_None_not_Some.
  - intros (act & genesis & -> & E1 & [E2 E3 E4 E5 E6 [E7 E8] E9 E10 E11]). cbv zeta. fold (candidates eligible n act).
    rewrite E1, (proj2 (Z.leb_gt _ _) E2), E4, E5, E6, E7, (proj2 (beq_false _ _) E8), (proj2 (beq_false _ _) E9), E10, (proj2 (Z.leb_le _ _) E11).
    destruct (beq (da_proposal_id act) null_hash); by rewrite E3.
Qed.

(** C14: A key is installed only by a quorum.  A validated activation has a
    committee that is the first part of the selection made at an earlier height
    (the roster for a proposal, the shareholders for the first key), its
    identifiers are the digests of the committee and of the record, and at least
    half of the committee, counted by distinct keys, has signed this record for
    this proposal. *)
Theorem activation_authorised eligible n tx h : validate_dao_v2_dkg_activation_tx eligible n tx h = true ->
  exists act genesis keys, activation_of tx = Some act /\ rx_blocks n !! 0%nat = Some genesis /\
    let rec := da_record act in
    let digest := dao_dkg_activation_digest genesis (da_selection_height act) rec (da_proposal_id act) in
    da_selection_height act < h /\
    tk_committee_members rec = take (Z.to_nat (tk_committee_size rec)) (candidates eligible n act) /\
    DAO_DKG_MIN_COMMITTEE_SIZE <= zlen (tk_committee_members rec) <= DAO_DKG_MAX_COMMITTEE_SIZE /\
    tk_committee_id_hash rec = committee_id (tk_committee_members rec) /\
    (exists blob, key_record_serialize (with_key_id rec (replicate 32 0)) = Some blob /\ tk_key_id rec = sha256 blob) /\
    NoDup keys /\ zlen (tk_committee_members rec) <= 2 * zlen keys /\
    Forall (fun pk => pk ∈ tk_committee_members rec /\ exists sig, check_signature digest pk sig = true) keys.
Proof.
  intros (act & genesis & Et & _ & [E1 _ E3 E4 E5 [E6 _] _ E8 E9])%validate_activation_spec.
  apply andb_true_iff in E5 as [_ E5%bool_decide_eq_true]. unfold key_record_sized in E3. repeat setoid_rewrite andb_true_iff in E3.
  destruct E3 as ((((((((((((((((_ & S1%Z.leb_le) & S2%Z.leb_le) & S3%Z.eqb_eq) & _) & S4%Z.eqb_eq) & _) & _) & _) & _) & _) & _) & _) & _) & _) & _) & _).
  unfold key_ids_ok in E4. apply andb_true_iff in E4 as [I1%beq_true I2]. destruct (key_record_serialize _) as [blob|] eqn:Eb; [|done]. apply beq_true in I2.
  assert (NoDup (tk_committee_members (da_record act))) as Hd.
  { rewrite <- E5. pose proof (candidates_nodup eligible n act) as Hd. rewrite <- (take_drop (Z.to_nat (tk_committee_size (da_record act))) _) in Hd.
    by apply NoDup_app in Hd as [Hd _]. }
  destruct (signers_distinct _ _ 0 _ Hd ltac:(done) (activation_of_ordered _ _ Et) E8) as [D1 D2].
  exists act, genesis, (signers (tk_committee_members (da_record act)) (da_attestations act)). split; [done|]. split; [done|]. cbv zeta.
  split_and!; [done|done|lia|lia|done|by exists blob|done| |done].
  unfold signers, zlen in *. rewrite length_map. unfold dao_dkg_expected_threshold in S4.
  rewrite (proj2 (Z.ltb_ge _ _)), (proj2 (Z.ltb_ge _ _)) in S4 by lia. cbn [orb] in S4. 
  pose proof (Z.div_mod (tk_committee_size (da_record act) + 1) 2). pose proof (Z.mod_pos_bound (tk_committee_size (da_record act) + 1) 2). lia.
Qed.

End authorising.

(** ** What a quorum activates *)

Section activating.
Context `{VoteEnv} `{Crypto} `{PrivateBoxLaws} `{!NodeSignatures} `{!NodeSignatureLaws} `{DigestLaws} `{!StakeAge}.

(** A record as a committee makes it. *)
Record key_made (rec : dao_tally_key_record) : Prop := {
  km_wf : key_record_wf rec;
  km_version : tk_version rec = 1;
  km_size : DAO_DKG_MIN_COMMITTEE_SIZE <= tk_committee_size rec <= DAO_DKG_MAX_COMMITTEE_SIZE;
  km_threshold : tk_threshold rec = dao_dkg_expected_threshold (tk_committee_size rec) /\ tk_t rec = tk_threshold rec - 1;
  km_committee : tk_committee_id_hash rec = committee_id (tk_committee_members rec);
  km_id : Some (tk_key_id rec) = sha256 <$> key_record_serialize (with_key_id rec (replicate 32 0));
}.

(** The member at a position signs with its key [sk], drawing [k]. *)
Definition attest (digest : hash) (members : list bytes) (sk k : Z -> bytes) (i : Z) : dao_dkg_key_attestation :=
  {| at_member_index := i;
     at_signature := generate_signature digest (nth (Z.to_nat (i - 1)) members []) (sk i) (k i) |}.

Lemma made_threshold rec : key_made rec -> 2 <= tk_threshold rec <= tk_committee_size rec.
Proof.
  intros [_ _ Hs [-> _] _ _]. unfold dao_dkg_expected_threshold.
  rewrite (proj2 (Z.ltb_ge _ _)), (proj2 (Z.ltb_ge _ _)) by lia. cbn [orb]. unfold DAO_DKG_MIN_COMMITTEE_SIZE in Hs.
  pose proof (Z.div_mod (tk_committee_size rec + 1) 2). pose proof (Z.mod_pos_bound (tk_committee_size rec + 1) 2). lia.
Qed.

Lemma made_sized rec : key_made rec -> key_record_sized rec = true.
Proof.
  intros Hm. pose proof (made_threshold _ Hm) as Ht. destruct Hm as [[] Hv [Hs1 Hs2] [Et Ed] _ _]. unfold key_record_sized.
  assert (tk_t rec = (tk_threshold rec - 1) mod 2 ^ 32) as Ed' by (unfold u32_ok in *; rewrite Z.mod_small by lia; lia).
  rewrite (proj2 (Z.leb_le _ _) Hs1), (proj2 (Z.leb_le _ _) Hs2), <- Et, <- Ed', Hv, kw_members0, kw_vks0, kw_id0, kw_delta0, kw_N0, kw_G0, kw_theta0,
    kw_V0, kw_key_id0, kw_transcript0, !Z.eqb_refl, !Nat.eqb_refl, !sized_forallb by done. done.
Qed.

Lemma made_ids rec : key_made rec -> key_ids_ok rec = true.
Proof.
  intros [_ _ _ _ Hc Hi]. unfold key_ids_ok. rewrite Hc, beq_refl. destruct (key_record_serialize _); [|done]. injection Hi as ->. by rewrite beq_refl.
Qed.

Lemma attest_ordered digest members sk k l : forall prev, 0 <= prev -> StronglySorted Z.lt (prev :: l) ->
  attestations_ordered prev (map (attest digest members sk k) l) = true.
Proof.
  induction l as [|i l IH]; intros prev Hp Hs; [done|]. apply StronglySorted_inv in Hs as [Hs Hf]. apply Forall_cons in Hf as [Hi _].
  cbn [map attestations_ordered attest at_member_index at_signature].
  rewrite signature_size, (IH i ltac:(lia) Hs), (proj2 (Z.ltb_lt _ _) Hi), (proj2 (Z.eqb_neq _ _)) by lia. done.
Qed.

Lemma attest_ok digest members sk k l : Forall (fun i => 1 <= i <= zlen members /\
    secret_key_to_public_key (sk i) = Some (nth (Z.to_nat (i - 1)) members [])) l ->
  forallb (attestation_ok digest members) (map (attest digest members sk k) l) = true.
Proof.
  induction 1 as [|i l [Hi Hs] _ IH]; [done|]. cbn [map forallb]. rewrite IH, andb_true_r. unfold attestation_ok, attest.
  cbn [at_member_index at_signature]. rewrite (proj2 (Z.ltb_ge _ _)), (proj2 (Z.ltb_ge _ _)), signature_size, signature_verifies by (done || lia). done.
Qed.

(** The share set that a key starts with, as it is stored. *)
Definition base_share_set (rec : dao_tally_key_record) (h : Z) : dao_share_set_record :=
  {| ss_version := 2; ss_share_set_id := share_set_id_for_key_id (tk_key_id rec); ss_height := h;
     ss_threshold := tk_threshold rec; ss_key_id := tk_key_id rec;
     ss_committee_id_hash := sha256 (tk_committee_id_hash rec); ss_committee_members := tk_committee_members rec;
     ss_VK_i := tk_V_K_i rec; ss_base_share_set_id := 0; ss_contributions := []; ss_contributor_indices := [];
     ss_contributor_vk := [] |}.

Lemma share_set_id_bounds kid : 0 <= share_set_id_for_key_id kid < 2 ^ 32.
Proof.
  unfold share_set_id_for_key_id. destruct (negb _); [done|]. cbv zeta. set (x := le_val _).
  assert (0 <= Z.land x 4294967294 < 2 ^ 32) as Hb.
  { split; [apply Z.land_nonneg; by right|]. rewrite Z.land_comm. change 4294967294 with (Z.land 4294967294 (Z.ones 32)).
    rewrite <- Z.land_assoc, (Z.land_comm (Z.ones 32)), Z.land_assoc, Z.land_ones by done. by apply Z.mod_pos_bound. }
  destruct (_ <? 2); lia.
Qed.

Lemma base_share_set_wf rec h : key_made rec -> u64_ok h -> share_set_wf (base_share_set rec h).
Proof.
  intros Hm Hh. pose proof (made_threshold _ Hm) as Ht. destruct Hm as [[] _ Hs _ _ _]. pose proof (share_set_id_bounds (tk_key_id rec)).
  split; cbn [base_share_set ss_version ss_share_set_id ss_height ss_threshold ss_key_id ss_committee_id_hash ss_committee_members ss_VK_i
    ss_base_share_set_id ss_contributions ss_contributor_indices ss_contributor_vk]; try done; rewrite ?kw_members0.
  - unfold u64_ok. lia.
  - lia.
  - lia.
  - apply length_sha256.
  - unfold zlen in *. lia.
Qed.

Lemma made_record_at rec h : key_made rec -> u64_ok h -> exists blob, key_record_serialize (with_activation_height rec h) = Some blob /\
  key_record_deserialize blob = Some (with_activation_height rec h).
Proof.
  intros [[] _ _ _ _ _] Hh. destruct (key_record_roundtrip (with_activation_height rec h)) as (blob & E & _ & E'); [by split|]. by exists blob.
Qed.

Lemma base_share_set_stored rec h sets ssid : key_made rec -> u64_ok h -> ssid = share_set_id_for_key_id (tk_key_id rec) ->
  exists ss, dao_synthesize_bootstrap_share_set (with_activation_height rec h) ssid = Some ss /\
    add_dao_share_set sets ssid ss = Some (<[ssid := base_share_set rec h]> sets).
Proof.
  intros Hm Hh ->. destruct (share_set_roundtrip _ (base_share_set_wf rec h Hm Hh)) as (l & E & E'). destruct Hm as [[] _ _ _ _ _].
  unfold dao_synthesize_bootstrap_share_set. cbn [with_activation_height tk_V_K_i tk_committee_members tk_committee_size tk_key_id].
  rewrite kw_vks0, kw_members0, kw_key_id0, !Z.eqb_refl. cbn [negb Nat.eqb]. eexists. split; [reflexivity|]. unfold add_dao_share_set.
  match goal with |- context [share_set_serialize ?r] => change (share_set_serialize r) with (share_set_serialize (base_share_set rec h)) end.
  rewrite E. cbn [mbind option_bind]. by rewrite E'.
Qed.

(** The node after the activation of the key of a proposal. *)
Definition activated (n : reshare_node) (rec : dao_tally_key_record) (pid : hash) (prop : proposal_record) (h : Z) : reshare_node :=
  let m := rx_tally n in
  let c := tn_chain m in
  with_tables n (set_tally_keys (t_votes c) (<[tk_key_id rec := with_activation_height rec h]> (tally_keys (t_votes c))))
    (add_proposal_record (t_policy c) pid (with_tally_key prop (tk_key_id rec))) (tn_tally_key m)
    (<[share_set_id_for_key_id (tk_key_id rec) := base_share_set rec h]> (tn_share_sets m)) (tn_current_share_set m).

Lemma apply_activation tx act h n prop : activation_of tx = Some act -> key_made (da_record act) -> u64_ok h ->
  da_proposal_id act <> null_hash -> proposals (t_policy (tn_chain (rx_tally n))) !! da_proposal_id act = Some prop ->
  apply_dao_v2_dkg_activation tx h n = Some (activated n (da_record act) (da_proposal_id act) prop h).
Proof.
  intros Et Hm Hh Hp Ep. unfold apply_dao_v2_dkg_activation. rewrite Et. cbn [mbind option_bind]. rewrite (proj2 (beq_false _ _) Hp), Ep.
  pose proof (kw_key_id _ (km_wf _ Hm)) as Lk. destruct (made_record_at _ h Hm Hh) as (blob & E & E'). unfold add_dao_tally_key_by_id, add_dao_tally_key.
  cbn [with_activation_height tk_key_id]. fold (with_activation_height (da_record act) h). rewrite Lk, E. cbn [Nat.eqb negb mbind option_bind]. rewrite E'.
  unfold activation_share_set_id. rewrite (proj2 (beq_false _ _) Hp).
  destruct (base_share_set_stored _ h (tn_share_sets (rx_tally n)) _ Hm Hh eq_refl) as (ss & -> & Es). rewrite Es. done.
Qed.

Lemma rollback_activated tx act h n prop : activation_of tx = Some act -> key_made (da_record act) ->
  da_proposal_id act <> null_hash -> proposals (t_policy (tn_chain (rx_tally n))) !! da_proposal_id act = Some prop ->
  tally_key_id prop = null_hash -> tally_keys (t_votes (tn_chain (rx_tally n))) !! tk_key_id (da_record act) = None ->
  tn_share_sets (rx_tally n) !! share_set_id_for_key_id (tk_key_id (da_record act)) = None ->
  rollback_dao_v2_dkg_activation tx (activated n (da_record act) (da_proposal_id act) prop h) = n.
Proof.
  intros Et Hm Hp Ep En Ek Es. unfold rollback_dao_v2_dkg_activation. rewrite Et, (proj2 (beq_false _ _) Hp).
  pose proof (kw_key_id _ (km_wf _ Hm)) as Lk. unfold activation_share_set_id. rewrite (proj2 (beq_false _ _) Hp).
  unfold remove_dao_tally_key_by_id. rewrite Lk. destruct n as [[[votes policy ? ? ?] ? sets ? ? ?] ? ? ? ? ?].
  cbn [rx_tally tn_chain t_votes t_policy tn_share_sets] in *.
  unfold activated, with_tables, with_tally, set_tally_keys, add_proposal_record, set_proposals. cbn.
  rewrite lookup_insert_eq. cbn. rewrite beq_refl, !delete_insert_id, insert_insert_eq by done.
  rewrite insert_id; [|rewrite Ep; f_equal; destruct prop; cbn in *; by subst]. by destruct votes, policy.
Qed.

(** A record, the height of its committee's selection, and the positions of the
    members that sign it with their keys: a quorum, in ascending order. *)
Record quorum_signs (n : reshare_node) (rec : dao_tally_key_record) (pid : hash) (sel h : Z) (genesis : hash) (sk : Z -> bytes)
    (signing : list Z) : Prop := {
  qs_made : key_made rec;
  qs_selected : committee_selected (select_dao_v2_proposal_dkg_committee n sel) rec = true;
  qs_height : 0 <= sel < h /\ h < 2 ^ 64;
  qs_proposal : length pid = 32%nat /\ pid <> null_hash;
  qs_genesis : rx_blocks n !! 0%nat = Some genesis /\ genesis <> null_hash;
  qs_digest : dao_dkg_activation_digest genesis sel rec pid <> null_hash;
  qs_sorted : StronglySorted Z.lt (0 :: signing);
  qs_quorum : tk_threshold rec <= zlen signing;
  qs_keys : Forall (fun i => 1 <= i <= tk_committee_size rec /\
    secret_key_to_public_key (sk i) = Some (nth (Z.to_nat (i - 1)) (tk_committee_members rec) [])) signing;
}.

Definition quorum_activation (rec : dao_tally_key_record) (pid : hash) (sel : Z) (genesis : hash) (sk k : Z -> bytes) (signing : list Z)
    : dao_dkg_key_activation :=
  {| da_version := 2; da_selection_height := sel; da_proposal_id := pid; da_record := rec;
     da_attestations := map (attest (dao_dkg_activation_digest genesis sel rec pid) (tk_committee_members rec) sk k) signing |}.

Lemma sorted_count l : forall p m, StronglySorted Z.lt (p :: l) -> Forall (fun i => i <= m) (p :: l) -> zlen l <= m - p.
Proof.
  induction l as [|i l IH]; intros p m Hs Hf; apply Forall_cons in Hf as [Hp Hf]; [unfold zlen; cbn; lia|].
  apply StronglySorted_inv in Hs as [Hs Hl]. apply Forall_cons in Hl as [Hi _]. specialize (IH i m Hs Hf). unfold zlen in *. cbn [length]. lia.
Qed.

Lemma quorum_activation_wf n rec pid sel h genesis sk k signing : quorum_signs n rec pid sel h genesis sk signing ->
  activation_wf (quorum_activation rec pid sel genesis sk k signing).
Proof.
  intros [Hm _ Hh [Hp _] _ _ Hs _ Hk]. pose proof (km_size _ Hm) as Hsz. unfold DAO_DKG_MIN_COMMITTEE_SIZE in Hsz.
  split; cbn [quorum_activation da_version da_selection_height da_proposal_id da_record da_attestations].
  - done.
  - unfold u64_ok. lia.
  - done.
  - apply (km_wf _ Hm).
  - by apply attest_ordered.
  - apply Forall_map. eapply Forall_impl; [exact Hk|]. intros i [Hi _]. cbn. lia.
  - unfold zlen. rewrite length_map. assert (zlen signing <= tk_committee_size rec - 0) as Hc.
    { apply sorted_count; [done|]. constructor; [lia|]. eapply Forall_impl; [exact Hk|]. intros i [Hi _]. lia. }
    unfold zlen, DAO_DKG_MAX_COMMITTEE_SIZE in *. lia.
Qed.

Lemma quorum_carried n rec pid sel h genesis sk k signing : quorum_signs n rec pid sel h genesis sk signing ->
  let act := quorum_activation rec pid sel genesis sk k signing in
  exists blob, activation_serialize act = Some blob /\ activation_of (object_tx GO_DKG_KEY_ACTIVATION blob) = Some act.
Proof.
  intros Hq act. destruct (activation_roundtrip act (quorum_activation_wf _ _ _ _ _ _ _ k _ Hq)) as (blob & E & Hl & Ed).
  exists blob. split; [done|]. unfold activation_of, is_dao_v2_dkg_activation_tx. by rewrite object_tx_one, object_tx_data, Z.eqb_refl by done.
Qed.

(** What was signed by a quorum passes as long as its key is new. *)
Lemma quorum_passes eligible n rec pid sel h genesis sk k signing : quorum_signs n rec pid sel h genesis sk signing ->
  tally_keys (t_votes (tn_chain (rx_tally n))) !! tk_key_id rec = None ->
  activation_passed eligible n (quorum_activation rec pid sel genesis sk k signing) genesis h.
Proof.
  intros [Hm Hc Hh [_ Hp] [Hg Hg'] Hd _ Hq Hk] Hn.
  split; unfold candidates; cbn [quorum_activation da_version da_selection_height da_proposal_id da_record da_attestations];
    rewrite ?(proj2 (beq_false _ _) Hp); try done.
  - lia.
  - unfold get_dao_tally_key_by_id. by rewrite (kw_key_id _ (km_wf _ Hm)).
  - by apply made_sized.
  - by apply made_ids.
  - apply attest_ok. by rewrite (kw_members _ (km_wf _ Hm)).
  - unfold zlen in *. by rewrite length_map.
Qed.

(** C13: A quorum activates the key of a proposal.  When the members at the
    positions [signing], a threshold of the committee selected at [sel], sign the
    record of a new key with their own keys, the activation is written, the chain
    accepts it in every block above [sel], and applying it stores the key with
    that block's height, makes the proposal refer to it and stores the
    committee's share set; popping the block restores every table, if the
    proposal had no key and the share set's identifier was free. *)
Theorem quorum_activates_key eligible n rec pid prop sel h genesis sk k signing : quorum_signs n rec pid sel h genesis sk signing ->
  tally_keys (t_votes (tn_chain (rx_tally n))) !! tk_key_id rec = None ->
  proposals (t_policy (tn_chain (rx_tally n))) !! pid = Some prop ->
  exists blob n1, activation_serialize (quorum_activation rec pid sel genesis sk k signing) = Some blob /\
    let tx := object_tx GO_DKG_KEY_ACTIVATION blob in
    validate_dao_v2_dkg_activation_tx eligible n tx h = true /\ apply_dao_v2_dkg_activation tx h n = Some n1 /\
    get_dao_tally_key_by_id (t_votes (tn_chain (rx_tally n1))) (tk_key_id rec) = Some (with_activation_height rec h) /\
    proposals (t_policy (tn_chain (rx_tally n1))) !! pid = Some (with_tally_key prop (tk_key_id rec)) /\
    tn_share_sets (rx_tally n1) !! share_set_id_for_key_id (tk_key_id rec) = Some (base_share_set rec h) /\
    (tally_key_id prop = null_hash -> tn_share_sets (rx_tally n) !! share_set_id_for_key_id (tk_key_id rec) = None ->
      rollback_dao_v2_dkg_activation tx n1 = n).
Proof.
  intros Hq Hn Hp. destruct (quorum_carried _ _ _ _ _ _ _ k _ Hq) as (blob & E & Et). set (act := quorum_activation rec pid sel genesis sk k signing) in *.
  pose proof (qs_made _ _ _ _ _ _ _ _ Hq) as Hm. pose proof (qs_height _ _ _ _ _ _ _ _ Hq) as Hh. destruct (qs_proposal _ _ _ _ _ _ _ _ Hq) as [_ Hpid].
  exists blob, (activated n rec pid prop h). split; [done|]. cbv zeta. split; [|split; [|split; [|split; [|split]]]].
  - apply validate_activation_spec. exists act, genesis. split; [done|]. split; [done|]. exact (quorum_passes eligible _ _ _ _ _ _ _ k _ Hq Hn).
  - exact (apply_activation _ act h n prop Et Hm ltac:(unfold u64_ok; lia) Hpid Hp).
  - unfold get_dao_tally_key_by_id. rewrite (kw_key_id _ (km_wf _ Hm)). apply lookup_insert_eq.
  - apply lookup_insert_eq.
  - apply lookup_insert_eq.
  - intros H1' H2'. exact (rollback_activated _ act h n prop Et Hm Hpid Hp H1' Hn H2').
Qed.

(** An activation is accepted for a proposal that has a key already: the key is
    replaced, and popping the block leaves the proposal without one. *)
Theorem activation_replaces_key eligible n rec pid prop sel h genesis sk k signing : quorum_signs n rec pid sel h genesis sk signing ->
  tally_keys (t_votes (tn_chain (rx_tally n))) !! tk_key_id rec = None ->
  proposals (t_policy (tn_chain (rx_tally n))) !! pid = Some prop -> tally_key_id prop <> null_hash ->
  exists blob n1, activation_serialize (quorum_activation rec pid sel genesis sk k signing) = Some blob /\
    let tx := object_tx GO_DKG_KEY_ACTIVATION blob in
    validate_dao_v2_dkg_activation_tx eligible n tx h = true /\ apply_dao_v2_dkg_activation tx h n = Some n1 /\
    proposals (t_policy (tn_chain (rx_tally n1))) !! pid = Some (with_tally_key prop (tk_key_id rec)) /\
    proposals (t_policy (tn_chain (rx_tally (rollback_dao_v2_dkg_activation tx n1)))) !! pid = Some (with_tally_key prop null_hash).
Proof.
  intros Hq Hn Hp Hk. destruct (quorum_carried _ _ _ _ _ _ _ k _ Hq) as (blob & E & Et). set (act := quorum_activation rec pid sel genesis sk k signing) in *.
  pose proof (qs_made _ _ _ _ _ _ _ _ Hq) as Hm. pose proof (qs_height _ _ _ _ _ _ _ _ Hq) as Hh. destruct (qs_proposal _ _ _ _ _ _ _ _ Hq) as [_ Hpid].
  exists blob, (activated n rec pid prop h). split; [done|]. cbv zeta. split; [|split; [|split]].
  - apply validate_activation_spec. exists act, genesis. split; [done|]. split; [done|]. exact (quorum_passes eligible _ _ _ _ _ _ _ k _ Hq Hn).
  - exact (apply_activation _ act h n prop Et Hm ltac:(unfold u64_ok; lia) Hpid Hp).
  - apply lookup_insert_eq.
  - unfold rollback_dao_v2_dkg_activation. rewrite Et. cbn [act quorum_activation da_proposal_id da_record]. rewrite (proj2 (beq_false _ _) Hpid).
    unfold activated, with_tables, with_tally. cbn. rewrite lookup_insert_eq. cbn. rewrite (kw_key_id _ (km_wf _ Hm)), beq_refl. cbn. apply lookup_insert_eq.
Qed.

End activating.

(** ** A concrete instance of the signatures, and a network of four nodes *)

Definition toy_sign (d : hash) (key : bytes) : bytes := take 64 (d ++ key ++ replicate 64 0).

Definition toy_signatures : NodeSignatures :=
  {| check_signature d pk sig := beq sig (toy_sign d pk); generate_signature d pk sk k := toy_sign d sk |}.

Lemma toy_signature_laws : @NodeSignatureLaws toy_box toy_signatures.
Proof.
  split; cbn.
  - intros d pk sk k. unfold toy_sign. rewrite length_take, !length_app, length_replicate. lia.
  - intros d pk sk k. destruct (length sk =? 32)%nat; [|done]. intros [= <-]. apply beq_refl.
Qed.

Definition toy_stakes : StakeAge := {| stake_log_weight amount age := amount |}.

(** The node of the key 5, on the chain where 2, 3 and 4 are ready. *)
Definition fifth323 : reshare_node := fst (node_of323 (node_key 5)).

Lemma room323 : match (tx ← @maybe_announce_dao_v2_node_ready sample_crypto toy_box toy_signatures fifth323 1000 0 [];
    @apply_dao_v2_node_ready sample_env tx fifth323) with
  | Some n1 => zlen (select_dao_v2_proposal_dkg_committee n1 205) < DAO_DKG_MAX_COMMITTEE_SIZE
  | None => False
  end.
Proof. by vm_compute. Qed.

Lemma announced_node_selected_witness : exists tx n1,
  @maybe_announce_dao_v2_node_ready sample_crypto toy_box toy_signatures fifth323 1000 0 [] = Some tx /\
  @validate_dao_v2_node_ready_tx sample_env sample_crypto toy_signatures fifth323 tx 201 = true /\
  @apply_dao_v2_node_ready sample_env tx fifth323 = Some n1 /\
  node_key 5 ∈ select_dao_v2_proposal_dkg_committee n1 205 /\ @rollback_dao_v2_node_ready sample_env tx n1 = fifth323.
Proof.
  destruct (@maybe_announce_dao_v2_node_ready sample_crypto toy_box toy_signatures fifth323 1000 0 []) as [tx|] eqn:E; [|by vm_compute in E].
  destruct (@announced_node_selected sample_env sample_crypto toy_box toy_box_laws toy_signatures toy_signature_laws fifth323 1000 0 [] tx fifth323 [] E)
    as (pk & n1 & E1 & E2 & E3 & E4 & E5).
  - by repeat constructor.
  - by rewrite app_nil_r.
  - by vm_compute.
  - cbn in E1. injection E1 as <-. exists tx, n1. split; [done|]. split; [exact E2|]. split; [exact E3|]. split; [|by apply E5; vm_compute].
    apply E4; [by vm_compute|]. pose proof room323 as R. rewrite E in R. cbn [mbind option_bind] in R. rewrite E3 in R. exact R.
Defined.

(** The key of [TallyCorrect], made by the nodes 2, 3 and 4. *)
Definition unnamed323 : dao_tally_key_record :=
  {| tk_version := 1; tk_committee_size := 3; tk_threshold := 2; tk_t := 1;
     tk_committee_id_hash := committee_id (map node_key [2; 3; 4]); tk_committee_members := map node_key [2; 3; 4];
     tk_delta := replicate 32 0; tk_N := rev (le_bytes 256 323); tk_G := rev (le_bytes 256 324);
     tk_theta_bytes := rev (le_bytes 256 theta323); tk_V := V323; tk_V_K_i := vks323 share323; tk_vss_P := [23];
     tk_vss_P_prime := [11]; tk_vss_g := [4]; tk_vss_h := [2]; tk_activation_height := 0;
     tk_dkg_transcript_hash := replicate 32 0; tk_key_id := replicate 32 0 |}.

Definition made323 : dao_tally_key_record := with_key_id unnamed323 (sha256 (default [] (key_record_serialize unnamed323))).

(** The chain, with the proposal as it is before it has a key. *)
Definition keyless323 : reshare_node :=
  let c := tn_chain (rx_tally fifth323) in
  with_tables fifth323 (t_votes c) (add_proposal_record (t_policy c) pid323 (with_tally_key prop323 null_hash)) None ∅ 0.

Lemma made323_ok : key_made made323.
Proof.
  split; [|by vm_compute..]. split; try by vm_compute.
  - repeat constructor.
  - repeat constructor.
Qed.

(** Digests that are quick to evaluate. *)
Definition summing_crypto : Crypto :=
  {| cn_fast_hash m := le_bytes 32 (zsum m); secp_xonly_pubkey := bytes;
     secp256k1_xonly_pubkey_parse k := if (length k =? 32)%nat then Some k else None;
     secp256k1_schnorrsig_verify sig msg k := beq sig (msg ++ k); secp256k1_ec_pubkey_parse k := (length k =? 33)%nat;
     rct_commit_zero amount := le_bytes 32 amount |}.

Definition key_at323 (i : Z) : bytes := node_key (i + 1).

Lemma quorum_signs323 : @quorum_signs summing_crypto toy_box toy_digests keyless323 made323 pid323 200 210 block23 key_at323 [1; 3].
Proof.
  split.
  - exact made323_ok.
  - by vm_compute.
  - done.
  - done.
  - done.
  - apply beq_false. by vm_compute.
  - by repeat constructor.
  - done.
  - repeat constructor; by vm_compute.
Qed.

Lemma fresh323 : tally_keys (t_votes (tn_chain (rx_tally keyless323))) !! tk_key_id made323 = None.
Proof. by vm_compute. Qed.

Definition activation323 : dao_dkg_key_activation :=
  @quorum_activation summing_crypto toy_signatures made323 pid323 200 block23 key_at323 (fun _ => []) [1; 3].

Lemma activation_authorised_witness : exists blob act (keys : list bytes), activation_serialize activation323 = Some blob /\
  @activation_of sample_env (object_tx GO_DKG_KEY_ACTIVATION blob) = Some act /\ NoDup keys /\
  zlen (tk_committee_members (da_record act)) <= 2 * zlen keys.
Proof.
  destruct (@quorum_carried sample_env summing_crypto toy_box toy_signatures toy_signature_laws toy_digests
    keyless323 made323 pid323 200 210 block23 key_at323 (fun _ => []) [1; 3] quorum_signs323) as (blob & E & Et).
  destruct (@activation_authorised sample_env summing_crypto toy_signatures toy_digests toy_stakes ∅ keyless323
    (object_tx GO_DKG_KEY_ACTIVATION blob) 210) as (act & genesis & keys & E1 & _ & _ & _ & _ & _ & _ & D & Q & _).
  - apply validate_activation_spec. exists activation323, block23. split; [exact Et|]. split; [done|].
    exact (@quorum_passes summing_crypto toy_box toy_signatures toy_signature_laws toy_digests toy_stakes ∅ _ _ _ _ _ _ _ _ _ quorum_signs323 fresh323).
  - exists blob, act, keys. exact (conj E (conj E1 (conj D Q))).
Defined.

Lemma quorum_activates_key_witness : exists blob n1, activation_serialize activation323 = Some blob /\
  let tx := object_tx GO_DKG_KEY_ACTIVATION blob in
  @validate_dao_v2_dkg_activation_tx sample_env summing_crypto toy_signatures toy_digests toy_stakes ∅ keyless323 tx 210 = true /\
  @apply_dao_v2_dkg_activation sample_env summing_crypto toy_digests tx 210 keyless323 = Some n1 /\
  @rollback_dao_v2_dkg_activation sample_env summing_crypto tx n1 = keyless323.
Proof.
  destruct (@quorum_activates_key sample_env summing_crypto toy_box toy_signatures toy_signature_laws toy_digests toy_digest_laws toy_stakes
    ∅ keyless323 made323 pid323 (with_tally_key prop323 null_hash) 200 210 block23 key_at323 (fun _ => []) [1; 3] quorum_signs323 fresh323)
    as (blob & n1 & E & V & A & _ & _ & _ & R).
  - exact (lookup_insert_eq _ _ _).
  - exists blob, n1. split; [exact E|]. split; [exact V|]. split; [exact A|]. apply R; by vm_compute.
Defined.
