(* ===== verification/Proposals.v ===== *)
(** * Proposals: submission and rollback

    [governance/proposal.{h,cpp}]: reading a proposal from a transaction,
    validating it, storing it with its lock on an exact name and its entry in
    the queue of ending votes, and undoing all that when the block is popped.
    [gov_state] is the state all of governance works on. *)

From stdpp Require Import base gmap sorting.
From Stdlib Require Import ZArith Lia.
From S2P Require Import Prelude Archive TxExtra Curve Crypto DomainName GovStore Registry ParamExecution VotingWeight VoteV2 Voting.
Open Scope Z_scope.

(** ** State *)

(** The queues are multi-maps from height to proposal with unique pairs. *)
Record gov_state := {
  g_policy : policy_db;
  g_outcomes : gmap hash proposal_outcome;
  g_vote_records : gmap bytes unit;
  g_dao : dao_db;
  g_voting_end : gset (Z * hash);
  g_pending : gset (Z * hash);
}.

Definition with_policy (s : gov_state) (p : policy_db) : gov_state :=
  {| g_policy := p; g_outcomes := g_outcomes s; g_vote_records := g_vote_records s;
     g_dao := g_dao s; g_voting_end := g_voting_end s; g_pending := g_pending s |}.
Definition with_voting_end (s : gov_state) (q : gset (Z * hash)) : gov_state :=
  {| g_policy := g_policy s; g_outcomes := g_outcomes s; g_vote_records := g_vote_records s;
     g_dao := g_dao s; g_voting_end := q; g_pending := g_pending s |}.
Definition with_pending (s : gov_state) (q : gset (Z * hash)) : gov_state :=
  {| g_policy := g_policy s; g_outcomes := g_outcomes s; g_vote_records := g_vote_records s;
     g_dao := g_dao s; g_voting_end := g_voting_end s; g_pending := q |}.

(** The tables of the vote manager, and the state with them replaced. *)
Definition votes_of (s : gov_state) : vote_state :=
  {| vm_proposals := proposals (g_policy s); vm_outcomes := g_outcomes s;
     vm_vote_records := g_vote_records s; vm_dao := g_dao s |}.
Definition with_votes (s : gov_state) (v : vote_state) : gov_state :=
  {| g_policy := g_policy s; g_outcomes := vm_outcomes v; g_vote_records := vm_vote_records v;
     g_dao := vm_dao v; g_voting_end := g_voting_end s; g_pending := g_pending s |}.

(** What a call leaves behind: [true], [false], or an exception, each with the
    tables as they are then. *)
Inductive gov_result :=
| gov_true (s : gov_state)
| gov_false (s : gov_state)
| gov_threw (s : gov_state).

(** *** The two queues *)

Definition add_voting_end_entry (s : gov_state) (h : Z) (pid : hash) : option gov_state :=
  if decide ((h, pid) ∈ g_voting_end s) then None
  else Some (with_voting_end s ({[ (h, pid) ]} ∪ g_voting_end s)).
Definition remove_voting_end_entry (s : gov_state) (h : Z) (pid : hash) : gov_state :=
  with_voting_end s (g_voting_end s ∖ {[ (h, pid) ]}).
Definition add_pending_execution (s : gov_state) (h : Z) (pid : hash) : option gov_state :=
  if decide ((h, pid) ∈ g_pending s) then None
  else Some (with_pending s ({[ (h, pid) ]} ∪ g_pending s)).
Definition remove_pending_execution (s : gov_state) (h : Z) (pid : hash) : gov_state :=
  with_pending s (g_pending s ∖ {[ (h, pid) ]}).

(** The order of the rows: by height, then by the bytes of the id. *)
Definition entry_le (a b : Z * hash) : Prop :=
  fst a < fst b \/ (fst a = fst b /\ bytes_leb (snd a) (snd b) = true).
#[export] Instance entry_le_dec : RelDecision entry_le.
Proof. intros a b. unfold entry_le. apply _. Defined.

Definition get_voting_end_entries (s : gov_state) (height : Z) : list hash :=
  snd <$> merge_sort entry_le (elements (filter (fun e => fst e = height) (g_voting_end s))).
Definition get_pending_executions (s : gov_state) (max_height : Z) : list (Z * hash) :=
  merge_sort entry_le (elements (filter (fun e => fst e <= max_height) (g_pending s))).

(** *** Proposals of the policy tables *)

Definition store_proposal (s : gov_state) (rec : proposal_record) : gov_state :=
  with_policy s (add_proposal_record (g_policy s) (proposal_id rec) rec).
Definition remove_proposal (s : gov_state) (pid : hash) : gov_state :=
  with_policy s (set_proposals (g_policy s) (delete pid (proposals (g_policy s)))).
Definition set_proposal_data (s : gov_state) (pid : hash) (blob : bytes) : gov_state :=
  let p := g_policy s in
  with_policy s
    {| governance_parameters := governance_parameters p; extension_policy := extension_policy p;
       premium_label_policy := premium_label_policy p; banned_label_policy := banned_label_policy p;
       banned_extension_policy := banned_extension_policy p;
       exact_domain_ban_policy := exact_domain_ban_policy p;
       exact_domain_tier_policy := exact_domain_tier_policy p;
       pending_domain_policy := pending_domain_policy p; proposals := proposals p;
       proposal_data := <[pid := blob]> (proposal_data p);
       proposal_executions := proposal_executions p |}.
Definition with_locks (s : gov_state) (m : gmap bytes pending_domain_policy_record) : gov_state :=
  with_policy s (set_pending_domain_policy (g_policy s) m).

(** ** The proposal in a transaction *)

Definition TREASURY_PAYMENT : Z := 0.
Definition PARAMETER_CHANGE : Z := 1.

Record proposal := {
  p_version : Z;
  p_metadata_hash : hash;
  p_action : Z;
  p_amount : Z;
  p_spend_public_key : bytes;   (* of the destination *)
  p_view_public_key : bytes;
  p_recipient_view_public_key : bytes;
  p_is_subaddress : bool;
  p_voting_start_height : Z;
  p_voting_end_height : Z;
  p_voting_period_days : Z;
  p_title : bytes;
  p_description : bytes;
}.

Section proposals.
Context `{VoteEnv}.

Definition read_proposal : reader proposal := fun d =>
  '(v, d) ← read_le 1 d; '(mh, d) ← read_raw 32 d; '(a, d) ← read_varint 8 d;
  '(am, d) ← read_varint 64 d; '(sp, d) ← read_raw 32 d; '(vw, d) ← read_raw 32 d;
  '(rv, d) ← read_raw 32 d; '(sub, d) ← read_bool vote_trap_bool d;
  '(st, d) ← read_varint 64 d; '(en, d) ← read_varint 64 d; '(days, d) ← read_varint 8 d;
  '(ti, d) ← read_container (read_le 1) d; '(de, d) ← read_container (read_le 1) d;
  Some ({| p_version := v; p_metadata_hash := mh; p_action := a; p_amount := am;
           p_spend_public_key := sp; p_view_public_key := vw; p_recipient_view_public_key := rv;
           p_is_subaddress := sub; p_voting_start_height := st; p_voting_end_height := en;
           p_voting_period_days := days; p_title := ti; p_description := de |}, d).

(** [is_proposal_tx]: the first governance payload decides. *)
Definition is_proposal_tx (tx : vote_tx) : bool :=
  match parse_tx_extra vote_trap_bool (vt_extra tx) with
  | None => false
  | Some fields =>
      match first_payload fields with
      | None => false
      | Some gp => gp_type gp =? GO_PROPOSAL
      end
  end.

(** [extract_proposal]: the proposal and the bytes behind it. *)
Definition extract_proposal (tx : vote_tx) : option (proposal * bytes) :=
  fields ← parse_tx_extra vote_trap_bool (vt_extra tx);
  gp ← first_payload fields;
  if negb (gp_type gp =? GO_PROPOSAL) then None else read_proposal (gp_data gp).

(** ** Validation *)

(** The governance update a parameter change carries. *)
Definition validate_update (vns : vns_state) (data_blob : bytes) : bool :=
  match data_blob with
  | [] => false
  | payload_version :: _ =>
      if payload_version =? 1 then
        match parse_all read_parameter_update data_blob with
        | None => false
        | Some payload =>
            if negb (zlen (pup_entries payload) =? 6) then false
            else entries_ok 0 (pup_entries payload)
        end
      else if payload_version =? 2 then
        match parse_all read_extension_update data_blob with
        | None => false
        | Some payload =>
            if is_empty (normalize_vns_extension (eup_extension payload)) then false
            else negb (5 <? eup_tier payload)
        end
      else if (payload_version =? 3) || (payload_version =? 4) || (payload_version =? 5) then
        match parse_all (read_label_policy_update vote_trap_bool) data_blob with
        | None => false
        | Some payload =>
            if negb (lpu_version payload =? payload_version) then false else
            let normalized_term :=
              if payload_version =? 5 then normalize_vns_extension (lpu_term payload)
              else normalize_vns_label (lpu_term payload) in
            negb (is_empty normalized_term)
        end
      else if payload_version =? 6 then
        match parse_all (read_exact_domain_tier_update vote_trap_bool) data_blob with
        | None => false
        | Some payload =>
            if negb (etu_version payload =? 6) then false else
            if is_empty (normalize_vns_domain (etu_domain payload)) then false
            else negb (5 <? etu_tier payload)
        end
      else if payload_version =? 7 then
        match parse_all (read_exact_domain_ban_update vote_trap_bool) data_blob with
        | None => false
        | Some payload =>
            if negb (ebu_version payload =? 7) then false else
            let normalized := normalize_vns_domain (ebu_domain payload) in
            if is_empty normalized then false
            else negb (bool_decide (is_Some (db_domains vns !! normalized)))
        end
      else false
  end.

(** [null_pkey], 32 zero bytes. *)
Definition null_pkey : bytes := replicate 32 0.

Definition validate_proposal (vns : vns_state) (p : proposal) (height : Z) (data_blob : bytes) : bool :=
  if negb (p_version p =? 1) then false else
  if (p_voting_period_days p <? 1) || (30 <? p_voting_period_days p) then false else
  let start_height := if p_voting_start_height p =? 0 then u64 (height + 1) else p_voting_start_height p in
  if start_height <=? height then false else
  if negb (p_voting_end_height p =? 0) && (p_voting_end_height p <=? start_height) then false else
  if (p_action p =? TREASURY_PAYMENT) && (p_amount p =? 0) then false else
  if (p_action p =? TREASURY_PAYMENT) &&
     (beq (p_view_public_key p) null_pkey || beq (p_spend_public_key p) null_pkey) then false else
  if beq (p_metadata_hash p) null_hash then false else
  if p_action p =? PARAMETER_CHANGE then validate_update vns data_blob else true.

(** ** Storing a proposal *)

(** [get_account_address_as_str], and the bytes the stack holds where the
    recipient of another kind of proposal is left unset. *)
Context (address_str : bool -> bytes -> bytes -> bytes) (unset_recipient : bytes).

Definition end_of_voting (p : proposal) (height : Z) : Z :=
  let start_height := if p_voting_start_height p =? 0 then u64 (height + 1) else p_voting_start_height p in
  if p_voting_end_height p =? 0 then u64 (start_height + p_voting_period_days p * 720)
  else p_voting_end_height p.

Definition new_proposal (p : proposal) (tx_hash : hash) (height : Z) : proposal_record :=
  {| proposal_id := tx_hash; ptype := u8 (p_action p); title := strncpy_buf 128 (p_title p);
     description := strncpy_buf 1024 (p_description p);
     recipient := if p_action p =? TREASURY_PAYMENT
       then strncpy_buf 256 (address_str (p_is_subaddress p) (p_spend_public_key p) (p_view_public_key p))
       else 0 :: unset_recipient;
     amount := p_amount p; voting_period_days := p_voting_period_days p;
     submission_height := height; voting_end_height := end_of_voting p height;
     tally_key_id := null_hash; submission_tx_hash := tx_hash; executed := false;
     status := PROPOSAL_STATUS_ACTIVE; status_height := height;
     recipient_view_public_key := p_recipient_view_public_key p;
     is_subaddress := p_is_subaddress p |}.

(** The lock a proposal about an exact name takes: [None] when the payload
    cannot be read, [Some None] when the proposal is of another kind. *)
Definition domain_lock (p : proposal) (data_blob : bytes)
    : option (option (bytes * Z * bool * Z)) :=
  match data_blob with
  | pv :: _ =>
      if negb (p_action p =? PARAMETER_CHANGE) then Some None
      else if pv =? 6 then
        payload ← parse_all (read_exact_domain_tier_update vote_trap_bool) data_blob;
        let normalized_domain := normalize_vns_domain (etu_domain payload) in
        if is_empty normalized_domain then None
        else Some (Some (normalized_domain, 0, etu_enable payload, etu_tier payload))
      else if pv =? 7 then
        payload ← parse_all (read_exact_domain_ban_update vote_trap_bool) data_blob;
        let normalized_domain := normalize_vns_domain (ebu_domain payload) in
        if is_empty normalized_domain then None
        else Some (Some (normalized_domain, 1, ebu_enable payload, 0))
      else Some None
  | [] => Some None
  end.

(** The writes behind the lock: record, data and queue entry. *)
Definition store_new (p : proposal) (rec : proposal_record) (data_blob : bytes) (s : gov_state) : gov_result :=
  let s := store_proposal s rec in
  let s := if p_action p =? PARAMETER_CHANGE then set_proposal_data s (proposal_id rec) data_blob else s in
  match add_voting_end_entry s (u64 (voting_end_height rec + 1)) (proposal_id rec) with
  | Some s => gov_true s
  | None => gov_threw s
  end.

Definition index_proposal (vns : vns_state) (tx : vote_tx) (height : Z) (s : gov_state) : gov_result :=
  if negb (is_proposal_tx tx) then gov_true s else
  match extract_proposal tx with
  | None => gov_false s
  | Some (p, data_blob) =>
    if negb (validate_proposal vns p height data_blob) then gov_false s else
    let rec := new_proposal p (vt_hash tx) height in
    match domain_lock p data_blob with
    | None => gov_false s
    | Some None => store_new p rec data_blob s
    | Some (Some (domain, action, enable, tier)) =>
      match get_pending_domain_policy (pending_domain_policy (g_policy s)) domain with
      | Some _ => gov_false s
      | None =>
        let lock := {| pend_domain := strncpy_buf 64 domain; pend_proposal_id := vt_hash tx;
                       pend_voting_end_height := voting_end_height rec; pend_action := action;
                       pend_enable := enable; pend_tier := tier; pend_submission_height := height |} in
        match add_pending_domain_policy_record (pending_domain_policy (g_policy s)) lock with
        | None => gov_threw s
        | Some m => store_new p rec data_blob (with_locks s m)
        end
      end
    end
  end.

(** [ProposalManager::process_block], over the transactions of the block. *)
Fixpoint process_block_proposals (vns : vns_state) (txs : list vote_tx) (height : Z) (s : gov_state)
    : gov_result :=
  match txs with
  | [] => gov_true s
  | tx :: txs =>
      if negb (is_proposal_tx tx) then process_block_proposals vns txs height s else
      match index_proposal vns tx height s with
      | gov_true s => process_block_proposals vns txs height s
      | r => r
      end
  end.

(** ** Popping a block *)

(** One transaction of [ProposalManager::rollback_block]. *)
Definition rollback_proposal (tx : vote_tx) (s : gov_state) : gov_state :=
  if negb (is_proposal_tx tx) then s else
  let pid := vt_hash tx in
  let s := with_locks s (remove_pending_domain_policy_by_proposal (pending_domain_policy (g_policy s)) pid) in
  let s := match proposals (g_policy s) !! pid with
           | Some rec => remove_voting_end_entry s (u64 (voting_end_height rec + 1)) pid
           | None => s
           end in
  remove_proposal s pid.

Definition rollback_block_proposals (txs : list vote_tx) (s : gov_state) : gov_state :=
  fold_left (fun s tx => rollback_proposal tx s) txs s.

End proposals.

(** ** What submission changes *)

(** Equality of states except for the data blobs of proposals, which nothing
    removes. *)
Definition forget_data (s : gov_state) : gov_state :=
  let p := g_policy s in
  with_policy s
    {| governance_parameters := governance_parameters p; extension_policy := extension_policy p;
       premium_label_policy := premium_label_policy p; banned_label_policy := banned_label_policy p;
       banned_extension_policy := banned_extension_policy p;
       exact_domain_ban_policy := exact_domain_ban_policy p;
       exact_domain_tier_policy := exact_domain_tier_policy p;
       pending_domain_policy := pending_domain_policy p; proposals := proposals p;
       proposal_data := ∅; proposal_executions := proposal_executions p |}.
Definition same_but_data (s s' : gov_state) : Prop := forget_data s = forget_data s'.

#[export] Instance same_but_data_equiv : Equivalence same_but_data.
Proof. split; unfold same_but_data; [done|by intros ??|by intros ??? -> ->]. Qed.

(** The state with a proposal, its queue entry and its locks added. *)
Definition submitted (pid : hash) (rec : proposal_record) (locks : gmap bytes pending_domain_policy_record)
    (s : gov_state) : gov_state :=
  let s := with_locks s locks in
  with_voting_end (with_policy s (add_proposal_record (g_policy s) pid rec))
    ({[ (u64 (voting_end_height rec + 1), pid) ]} ∪ g_voting_end s).

Section submission.
Context `{VoteEnv} (address_str : bool -> bytes -> bytes -> bytes) (unset_recipient : bytes).
Notation index := (index_proposal address_str unset_recipient).
Notation new_record := (new_proposal address_str unset_recipient).

(** A lock that is taken is keyed by the canonical name and was free. *)
Definition takes_lock (pid : hash) (m m' : gmap bytes pending_domain_policy_record) : Prop :=
  m' = m \/ exists k lock, m !! k = None /\ k = cstr (pend_domain lock) /\ pend_proposal_id lock = pid /\ m' = <[k := lock]> m.

Lemma store_new_true p rec blob s s' : store_new p rec blob s = gov_true s' ->
  ((u64 (voting_end_height rec + 1), proposal_id rec) ∉ g_voting_end s) /\
  same_but_data s' (submitted (proposal_id rec) rec (pending_domain_policy (g_policy s)) s).
Proof.
  unfold store_new, add_voting_end_entry, set_proposal_data.
  destruct (p_action p =? PARAMETER_CHANGE); cbn; (case_decide; [done|]); intros [= <-]; (split; [done|]);
    by destruct s as [[]].
Qed.

Lemma index_true vns tx h s s' : is_proposal_tx tx = true -> index vns tx h s = gov_true s' ->
  exists p blob locks, extract_proposal tx = Some (p, blob) /\ validate_proposal vns p h blob = true /\
    let rec := new_record p (vt_hash tx) h in
    ((u64 (voting_end_height rec + 1), vt_hash tx) ∉ g_voting_end s) /\
    takes_lock (vt_hash tx) (pending_domain_policy (g_policy s)) locks /\
    same_but_data s' (submitted (vt_hash tx) rec locks s).
Proof.
  intros Ht. unfold index_proposal. rewrite Ht. cbn [negb].
  destruct (extract_proposal tx) as [[p blob]|]; [|done].
  destruct (validate_proposal vns p h blob) eqn:V; [|done]. cbn [negb]. intros E. exists p, blob.
  destruct (domain_lock p blob) as [[[[[d a] e] t]|]|]; [| |done].
  - destruct (get_pending_domain_policy _ d); [done|]. unfold add_pending_domain_policy_record in E.
    match type of E with context [_ !! cstr (pend_domain ?l)] => set (lock := l) in E end.
    destruct (_ !! _) eqn:L; [done|]. apply store_new_true in E as [Hq E].
    exists (<[cstr (pend_domain lock) := lock]> (pending_domain_policy (g_policy s))).
    do 2 (split; [done|]). cbn. split; [exact Hq|]. split; [|exact E]. right. by eexists _, lock.
  - apply store_new_true in E as [Hq E]. eexists. do 2 (split; [done|]). cbn.
    split; [exact Hq|]. split; [by left|exact E].
Qed.

(** The data of a parameter change is stored. *)
Lemma store_new_data p rec blob s s' : p_action p = PARAMETER_CHANGE -> store_new p rec blob s = gov_true s' ->
  proposal_data (g_policy s') !! proposal_id rec = Some blob.
Proof.
  intros Ha. unfold store_new, add_voting_end_entry, set_proposal_data. rewrite Ha. cbn. case_decide; [done|].
  intros [= <-]. cbn. apply lookup_insert_eq.
Qed.

Lemma index_data vns tx h s s' p blob : is_proposal_tx tx = true -> extract_proposal tx = Some (p, blob) ->
  p_action p = PARAMETER_CHANGE -> index vns tx h s = gov_true s' ->
  proposal_data (g_policy s') !! vt_hash tx = Some blob.
Proof.
  intros Ht He Ha. unfold index_proposal. rewrite Ht, He. cbn [negb].
  destruct (validate_proposal vns p h blob); [|done]. cbn [negb].
  destruct (domain_lock p blob) as [[[[[d a] e] t]|]|]; [| |done].
  - destruct (get_pending_domain_policy _ d); [done|]. destruct (add_pending_domain_policy_record _ _); [|done].
    by apply store_new_data.
  - by apply store_new_data.
Qed.

(** Rolling a proposal back does not look at data blobs. *)
#[export] Instance rollback_proposal_proper : Proper (eq ==> same_but_data ==> same_but_data) rollback_proposal.
Proof.
  intros tx ? <- s s' E. unfold rollback_proposal. destruct (is_proposal_tx tx); [|exact E].
  destruct s as [[]], s' as [[]]. unfold same_but_data, forget_data in *. cbn in *. injection E as -> -> -> -> -> -> -> -> -> -> -> -> -> -> ->.
  by destruct (_ !! _).
Qed.

(** Nothing in the state belongs to a proposal of this id yet. *)
Definition unknown (s : gov_state) (pid : hash) : Prop :=
  proposals (g_policy s) !! pid = None /\
  map_Forall (fun _ lock => pend_proposal_id lock <> pid) (pending_domain_policy (g_policy s)).

Lemma rollback_submitted tx rec locks s : is_proposal_tx tx = true -> unknown s (vt_hash tx) ->
  takes_lock (vt_hash tx) (pending_domain_policy (g_policy s)) locks ->
  ((u64 (voting_end_height rec + 1), vt_hash tx) ∉ g_voting_end s) ->
  rollback_proposal tx (submitted (vt_hash tx) rec locks s) = s.
Proof.
  intros Ht [Hp Hl] Hk Hq. unfold rollback_proposal. rewrite Ht. cbn [negb].
  assert (remove_pending_domain_policy_by_proposal locks (vt_hash tx) = pending_domain_policy (g_policy s)) as El.
  { unfold remove_pending_domain_policy_by_proposal. destruct Hk as [-> | (k & lock & N & _ & Hid & ->)].
    - apply map_filter_id. intros k r. apply Hl.
    - rewrite map_filter_insert_False, map_filter_delete, map_filter_id, delete_id by (cbn; naive_solver). done. }
  destruct s as [[] ? ? ? q ?]. cbn in *. rewrite lookup_insert_eq. unfold remove_voting_end_entry, remove_proposal. cbn.
  rewrite El, delete_insert_id by done. unfold with_policy, with_voting_end. cbn. f_equal. set_solver.
Qed.

Lemma difference_comm (X Y W : gset (Z * hash)) : X ∖ Y ∖ W = X ∖ W ∖ Y.
Proof. apply set_eq. intros e. rewrite !elem_of_difference. tauto. Qed.

(** Rolling back in one step. *)
Definition entry_of (m : gmap hash proposal_record) (pid : hash) : gset (Z * hash) :=
  match m !! pid with Some rec => {[ (u64 (voting_end_height rec + 1), pid) ]} | None => ∅ end.
Definition rolled (pid : hash) (s : gov_state) : gov_state :=
  with_voting_end
    (with_policy s (set_proposals
       (set_pending_domain_policy (g_policy s)
          (remove_pending_domain_policy_by_proposal (pending_domain_policy (g_policy s)) pid))
       (delete pid (proposals (g_policy s)))))
    (g_voting_end s ∖ entry_of (proposals (g_policy s)) pid).

Lemma rollback_rolled tx s : is_proposal_tx tx = true -> rollback_proposal tx s = rolled (vt_hash tx) s.
Proof.
  intros Ht. unfold rollback_proposal, rolled, entry_of. rewrite Ht. cbn [negb].
  destruct s as [[f1 f2 f3 f4 f5 f6 f7 locks props f10 f11] o vr dd q pe].
  unfold with_locks, set_pending_domain_policy. cbn [g_policy with_policy proposals].
  destruct (props !! vt_hash tx); [done|].
  unfold remove_proposal, with_voting_end, with_policy. cbn [g_policy g_voting_end]. by rewrite difference_empty_L.
Qed.

Lemma rolled_commute a b s : a <> b -> rolled a (rolled b s) = rolled b (rolled a s).
Proof.
  intros Hne. destruct s as [[f1 f2 f3 f4 f5 f6 f7 locks props f10 f11] o vr dd q pe].
  unfold rolled, with_voting_end, with_policy, set_proposals, set_pending_domain_policy, entry_of.
  cbn [g_policy g_voting_end proposals pending_domain_policy governance_parameters extension_policy
    premium_label_policy banned_label_policy banned_extension_policy exact_domain_ban_policy
    exact_domain_tier_policy proposal_data proposal_executions g_outcomes g_vote_records g_dao g_pending].
  rewrite !lookup_delete_ne by done. rewrite difference_comm. f_equal. f_equal; [|apply delete_delete].
  unfold remove_pending_domain_policy_by_proposal. rewrite !map_filter_filter. apply map_filter_ext. naive_solver.
Qed.

Lemma rollback_commute tx1 tx2 s : vt_hash tx1 <> vt_hash tx2 ->
  rollback_proposal tx1 (rollback_proposal tx2 s) = rollback_proposal tx2 (rollback_proposal tx1 s).
Proof.
  intros Hne. destruct (is_proposal_tx tx1) eqn:E1, (is_proposal_tx tx2) eqn:E2;
    try (unfold rollback_proposal; rewrite ?E1, ?E2; done).
  rewrite !rollback_rolled by done. by apply rolled_commute.
Qed.

Lemma rollback_block_commute tx txs s : Forall (fun tx' => vt_hash tx' <> vt_hash tx) txs ->
  rollback_block_proposals txs (rollback_proposal tx s) = rollback_proposal tx (rollback_block_proposals txs s).
Proof.
  unfold rollback_block_proposals. intros F. revert s. induction F as [|tx' txs Hne F IH]; intros s; [done|].
  cbn. by rewrite rollback_commute, IH by done.
Qed.

#[export] Instance rollback_block_proper : Proper (eq ==> same_but_data ==> same_but_data) rollback_block_proposals.
Proof.
  intros txs ? <-. unfold rollback_block_proposals. induction txs as [|tx txs IH]; intros s s' E; [done|].
  cbn. apply IH. by rewrite E.
Qed.

#[export] Instance unknown_proper : Proper (same_but_data ==> eq ==> iff) unknown.
Proof.
  intros s s' E pid ? <-. unfold unknown.
  pose proof (f_equal (fun s => proposals (g_policy s)) E) as E1.
  pose proof (f_equal (fun s => pending_domain_policy (g_policy s)) E) as E2. cbn in E1, E2. by rewrite E1, E2.
Qed.

Lemma unknown_submitted pid pid' rec locks s : pid' <> pid -> unknown s pid' ->
  takes_lock pid (pending_domain_policy (g_policy s)) locks -> unknown (submitted pid rec locks s) pid'.
Proof.
  intros Hne [Hp Hl] Hk. split.
  - change (<[pid := rec]> (proposals (g_policy s)) !! pid' = None). by rewrite lookup_insert_ne.
  - change (map_Forall (fun _ lock => pend_proposal_id lock <> pid') locks).
    destruct Hk as [-> | (k & lock & N & _ & Hid & ->)]; [done|]. apply map_Forall_insert_2; [|done]. congruence.
Qed.

Lemma block_rolled_back vns txs h s s' :
  process_block_proposals address_str unset_recipient vns txs h s = gov_true s' ->
  NoDup (vt_hash <$> txs) -> Forall (fun tx => unknown s (vt_hash tx)) txs ->
  same_but_data (rollback_block_proposals txs s') s.
Proof.
  revert s. induction txs as [|tx txs IH]; intros s E ND F; cbn [process_block_proposals] in E.
  { by injection E as <-. }
  apply NoDup_cons in ND as [Hnew ND]. apply Forall_cons in F as [Htx F].
  assert (Forall (fun tx' => vt_hash tx' <> vt_hash tx) txs) as Hne.
  { apply Forall_forall. intros tx' Hin Heq. apply Hnew. rewrite <- Heq. by apply list_elem_of_fmap_2. }
  change (rollback_block_proposals (tx :: txs) s') with (rollback_block_proposals txs (rollback_proposal tx s')).
  rewrite rollback_block_commute by done. destruct (is_proposal_tx tx) eqn:Ht; cbn [negb] in E.
  - destruct (index vns tx h s) as [s1| |] eqn:E1; [|done|done].
    destruct (index_true vns tx h s s1 Ht E1) as (p & blob & locks & _ & _ & Hq & Hk & Es1).
    rewrite (IH s1 E ND).
    + rewrite Es1. by rewrite rollback_submitted.
    + apply Forall_forall. intros tx' Hin. rewrite Es1. rewrite Forall_forall in F, Hne.
      apply unknown_submitted; auto.
  - rewrite (IH s E ND F). unfold rollback_proposal. by rewrite Ht.
Qed.

End submission.


(** ** A sample proposal *)

Definition sample_pid : hash := replicate 32 9.

(** To ban [spam..io], with 30 days of voting. *)
Definition sample_update : bytes :=
  write_exact_domain_ban_update {| ebu_version := 7; ebu_domain := str "Spam..io"; ebu_enable := true |}.

Definition sample_proposal_bytes (start_height end_height : Z) : bytes :=
  [1] ++ replicate 32 5 ++ [PARAMETER_CHANGE] ++ [0] ++ replicate 96 6 ++ [0] ++
  write_varint start_height ++ write_varint end_height ++ [30] ++ [0] ++ [0].

Definition sample_submission (start_height end_height : Z) : vote_tx :=
  {| vt_hash := sample_pid; vt_vote_key_image := None;
     vt_extra := payload_extra GO_PROPOSAL (sample_proposal_bytes start_height end_height ++ sample_update) |}.

Definition empty_gov : gov_state :=
  {| g_policy := empty_policy_db; g_outcomes := ∅; g_vote_records := ∅;
     g_dao := {| tally_keys := ∅; aggregates := ∅; vote_records := ∅; vote_nullifiers := ∅ |};
     g_voting_end := ∅; g_pending := ∅ |}.

Definition sample_registry : vns_state :=
  {| m_vns_domain_registry := ∅; m_vns_extension_registry := ∅; db_domains := ∅; db_proofs := ∅;
     db_events := [] |}.

(** The state after the submission at height 1000. *)
Definition submit_sample : gov_result :=
  @index_proposal sample_env (fun _ _ _ => []) [] sample_registry (sample_submission 0 0) 1000 empty_gov.
Definition sample_open : gov_state := match submit_sample with gov_true s => s | _ => empty_gov end.

Lemma submit_sample_ok : submit_sample = gov_true sample_open.
Proof. unfold sample_open. assert (exists s, submit_sample = gov_true s) as [s ->] by (vm_compute; by eexists). done. Qed.


(** ** Where the code does not do what it means to *)

(** A start height close to the largest number passes validation, and the end
    of voting wraps around to a height long past. *)
Lemma voting_end_wraps :
  match @index_proposal sample_env (fun _ _ _ => []) [] sample_registry
          (sample_submission (2 ^ 64 - 1) 0) 50000 empty_gov with
  | gov_true s => voting_end_height <$> proposals (g_policy s) !! sample_pid = Some 21599
  | _ => False
  end.
Proof. by vm_compute. Qed.

(** The lock of a proposal is not released when it has been executed, and it
    keeps every later proposal about the name out. *)
Lemma executed_lock_refuses_proposals :
  let rec := proposals (g_policy sample_open) !! sample_pid in
  let s := with_policy sample_open (mark_executed (g_policy sample_open)
             (default sample_vote_prop rec) 30000) in
  let tx := {| vt_hash := replicate 32 8; vt_vote_key_image := None;
               vt_extra := vt_extra (sample_submission 0 0) |} in
  executed <$> proposals (g_policy s) !! sample_pid = Some true /\
  match @index_proposal sample_env (fun _ _ _ => []) [] sample_registry tx 40000 s with
  | gov_false _ => True
  | _ => False
  end.
Proof. by vm_compute. Qed.
