(* ===== verification/Lifecycle.v ===== *)
(** * The life of a proposal

    [governance/lifecycle_manager.cpp]: deciding the proposals whose voting
    has ended; [governance/execution.cpp]: [execute_due]; and
    [governance/governance.cpp]: the manager that composes proposals, votes,
    decisions and executions for a block and undoes them, and the recovery of
    overdue executions at start-up. *)

From stdpp Require Import base gmap sorting.
From Stdlib Require Import ZArith Lia.
From S2P Require Import Prelude Archive TxExtra Curve Crypto GovParams GovStore Registry ParamExecution VotingWeight VoteV2 Voting Proposals.
Open Scope Z_scope.

(** What the managers read of the chain.  [generated_coins] is
    [get_block_already_generated_coins], [None] where it throws [BLOCK_DNE];
    blocks are numbered from 0 to [db_height - 1]. *)
Record chain_view := {
  db_height : Z;
  generated_coins : Z -> option Z;
  treasury_balance : Z;
  burned_fees : Z;
}.

(** [get_pending_domain_policy_by_proposal]: the first row of the table with
    that proposal. *)
Definition lock_le (a b : bytes * pending_domain_policy_record) : Prop :=
  bytes_leb (fst a) (fst b) = true.
#[export] Instance lock_le_dec : RelDecision lock_le.
Proof. intros a b. unfold lock_le. apply _. Defined.
Definition get_pending_domain_policy_by_proposal (m : gmap bytes pending_domain_policy_record) (pid : hash)
    : option pending_domain_policy_record :=
  snd <$> head (merge_sort lock_le (map_to_list (filter (fun kv => pend_proposal_id kv.2 = pid) m))).

Section lifecycle.
Context (voting_quorum_percent : Z) (ch : chain_view).

(** ** Deciding a proposal *)

Definition required_quorum (minted treasury burned percent : Z) : Z :=
  let circulating := if u64 (treasury + burned) <? minted then u128 (u128 (minted - treasury) - burned) else 0 in
  u128 (circulating * percent) / 100.

(** [None] when the block is not there. *)
Definition is_quorum_met (yes_b no_b voting_end_height : Z) : option bool :=
  let participating := u64 (yes_b + no_b) in
  let effective_height := Z.min voting_end_height (db_height ch) in
  minted ← generated_coins ch effective_height;
  Some (required_quorum minted (treasury_balance ch) (burned_fees ch) voting_quorum_percent <=? participating).

Definition is_majority_met (yes_w no_w : Z) : bool := no_w <? yes_w.

(** The delay of an execution, as [evaluate_proposal] and the recovery read it. *)
Definition delay_or_fallback (db : policy_db) (height : Z) : Z :=
  match get_parameter db execution_delay height with
  | None => 720
  | Some d => if d =? 0 then 720 else d
  end.

(** Unlocking the exact name of a rejected proposal. *)
Definition release_lock (s : gov_state) (pid : hash) : gov_state :=
  let m := pending_domain_policy (g_policy s) in
  match get_pending_domain_policy_by_proposal m pid with
  | Some pending => with_locks s (remove_pending_domain_policy_by_domain m (cstr (pend_domain pending)))
  | None => s
  end.

Definition evaluate_proposal (pid : hash) (height : Z) (s : gov_state) : gov_result :=
  match proposals (g_policy s) !! pid with
  | None => gov_false s
  | Some rec =>
    if negb (status rec =? PROPOSAL_STATUS_ACTIVE) then gov_true s else
    match g_outcomes s !! pid with
    | None => gov_false s
    | Some o =>
      match is_quorum_met (yes_b o) (no_b o) (voting_end_height rec) with
      | None => gov_threw s
      | Some quorum_met =>
        if quorum_met && is_majority_met (yes_w o) (no_w o) then
          let execution_height := u64 (voting_end_height rec + delay_or_fallback (g_policy s) height) in
          match add_pending_execution s execution_height pid with
          | None => gov_threw s
          | Some s => gov_true (store_proposal s (with_status rec PROPOSAL_STATUS_PASSED (executed rec) height))
          end
        else
          let s := release_lock s pid in
          gov_true (store_proposal s (with_status rec PROPOSAL_STATUS_REJECTED (executed rec) height))
      end
    end
  end.

(** The loop over the due proposals: [gov_threw] also stands for the exception
    thrown when a proposal cannot be evaluated. *)
Fixpoint evaluate_due (height : Z) (due : list hash) (s : gov_state) : gov_result :=
  match due with
  | [] => gov_true s
  | pid :: due =>
      match proposals (g_policy s) !! pid with
      | None => evaluate_due height due s
      | Some rec =>
          if executed rec then evaluate_due height due s else
          match evaluate_proposal pid height s with
          | gov_true s => evaluate_due height due (remove_voting_end_entry s height pid)
          | gov_false s | gov_threw s => gov_threw s
          end
      end
  end.

(** [LifecycleManager::process_block].  A write transaction that cannot be
    started ([start_ok]) fails the block; inside a batch an abort undoes
    nothing. *)
Definition lifecycle_process_block (start_ok batch_active : bool) (height : Z) (s : gov_state) : bool * gov_state :=
  let due := get_voting_end_entries s height in
  if is_empty due then (true, s) else
  if negb start_ok then (false, s) else
  match evaluate_due height due s with
  | gov_true s' => (true, s')
  | gov_false s' | gov_threw s' => (false, if batch_active then s' else s)
  end.

(** ** The execution queue *)

Definition due_step (s : gov_state) (e : Z * hash) : gov_state :=
  match proposals (g_policy s) !! snd e with
  | None => remove_pending_execution s (fst e) (snd e)
  | Some rec =>
      if negb (status rec =? PROPOSAL_STATUS_PASSED) then remove_pending_execution s (fst e) (snd e) else s
  end.

Definition execute_due (current_height : Z) (s : gov_state) : gov_state :=
  fold_left due_step (get_pending_executions s current_height) s.

(** ** Recovery at start-up *)

(** [GovernanceManager::is_proposal_passed], with the parameters it reads from
    the database; [None] when it throws. *)
Definition is_proposal_passed (db_quorum_percent yes_weight no_weight yes_balance no_balance end_height : Z)
    : option bool :=
  let effective_height := Z.min end_height (db_height ch) in
  minted ← generated_coins ch effective_height;
  Some ((required_quorum minted (treasury_balance ch) (burned_fees ch) db_quorum_percent
           <=? u64 (yes_balance + no_balance)) && (no_weight <? yes_weight)).

Record overdue := { od_id : hash; od_exec_height : Z; od_needs_status_fix : bool }.

(** What the scan makes of one proposal. *)
Definition overdue_of (s : gov_state) (current_height : Z) (already_pending : gset hash)
    (row : hash * proposal_record) : option overdue :=
  let '(pid, rec) := row in
  if executed rec then None else
  let scheduled := u64 (voting_end_height rec + delay_or_fallback (g_policy s) current_height) in
  if current_height <? scheduled then None else
  let passed := status rec =? PROPOSAL_STATUS_PASSED in
  let needs_fix := negb passed && (status rec =? PROPOSAL_STATUS_ACTIVE) &&
    match g_outcomes s !! pid with Some o => no_w o <? yes_w o | None => false end in
  if negb (passed || needs_fix) then None else
  if negb (bool_decide (pid ∈ already_pending)) then Some {| od_id := pid; od_exec_height := scheduled; od_needs_status_fix := needs_fix |}
  else if needs_fix then Some {| od_id := pid; od_exec_height := scheduled; od_needs_status_fix := true |}
  else None.

Definition fix_status (s : gov_state) (current_height : Z) (pid : hash) : gov_state :=
  match proposals (g_policy s) !! pid with
  | Some rec =>
      if (status rec =? PROPOSAL_STATUS_ACTIVE) && negb (executed rec)
      then store_proposal s (with_status rec PROPOSAL_STATUS_PASSED (executed rec) current_height) else s
  | None => s
  end.

Fixpoint recover_items (current_height : Z) (already_pending : gset hash) (items : list overdue)
    (s : gov_state) : gov_result :=
  match items with
  | [] => gov_true s
  | item :: items =>
      let s := if od_needs_status_fix item then fix_status s current_height (od_id item) else s in
      if decide (od_id item ∈ already_pending) then recover_items current_height already_pending items s else
      match add_pending_execution s (od_exec_height item) (od_id item) with
      | None => gov_threw s
      | Some s => recover_items current_height already_pending items s
      end
  end.

(** [recover_overdue_executions]; [rows] are the proposals in the order
    [for_all_proposals] visits them. *)
Definition recover_overdue_executions (start_ok batch_active : bool) (rows : list (hash * proposal_record))
    (current_height : Z) (s : gov_state) : gov_state :=
  let already_pending := list_to_set (snd <$> get_pending_executions s current_height) in
  let to_recover := omap (overdue_of s current_height already_pending) rows in
  if is_empty to_recover then s else
  if negb start_ok then s else
  match recover_items current_height already_pending to_recover s with
  | gov_true s' => s'
  | gov_false s' | gov_threw s' => if batch_active then s' else s
  end.

End lifecycle.

(** ** The manager *)

(** A transaction of the block: what the proposal and vote managers read of
    it, and the proposals its treasury inputs name. *)
Record gov_tx := { gt_tx : vote_tx; gt_treasury_inputs : list hash }.

Section manager.
Context `{VoteEnv} `{RctOps}.
Context (address_str : bool -> bytes -> bytes -> bytes) (unset_recipient : bytes).
Context (voting_quorum_percent : Z) (ch : chain_view) (vns : vns_state).

(** [GovernanceManager::process_block]; [None] is an exception.  The parameter
    manager only logs. *)
Definition governance_process_block (start_ok batch_active : bool) (txs : list gov_tx) (height : Z)
    (s : gov_state) : option (bool * gov_state) :=
  match process_block_proposals address_str unset_recipient vns (gt_tx <$> txs) height s with
  | gov_threw _ => None
  | gov_false s => Some (false, s)
  | gov_true s =>
      '(ok, v) ← process_block_votes (gt_tx <$> txs) height [] (votes_of s);
      let s := with_votes s v in
      if negb ok then Some (false, s) else
      let '(ok, s) := lifecycle_process_block voting_quorum_percent ch start_ok batch_active height s in
      if negb ok then Some (false, s) else
      Some (true, execute_due height s)
  end.

(** The executions a transaction carries as governance payloads. *)
Definition payload_executions (tx : vote_tx) : list hash :=
  match parse_tx_extra vote_trap_bool (vt_extra tx) with
  | None => []
  | Some fields =>
      omap (fun f => match f with
        | tx_extra_governance_payload gp =>
            if gp_type gp =? GO_EXECUTION
            then pep_proposal_id <$> parse_all read_parameter_execution (gp_data gp) else None
        | _ => None
        end) fields
  end.

Definition rollback_executions (pids : list hash) (s : gov_state) : gov_state :=
  with_policy s (fold_left execution_rollback pids (g_policy s)).

(** [GovernanceManager::rollback_block]; the lifecycle has nothing to undo. *)
Definition governance_rollback_block (txs : list gov_tx) (height : Z) (s : gov_state) : option gov_state :=
  let s := rollback_executions (mjoin (gt_treasury_inputs <$> txs)) s in
  let s := rollback_executions (mjoin ((fun tx => payload_executions (gt_tx tx)) <$> txs)) s in
  v ← rollback_block_votes (gt_tx <$> txs) (votes_of s);
  let s := with_votes s v in
  let s := rollback_block_proposals (gt_tx <$> txs) s in
  Some (with_policy s (parameters_rollback_block (g_policy s) height)).

End manager.
