(* ===== verification/LifecycleProofs.v ===== *)
(** * Theorems about the life of proposals

    What submission accepts is what execution understands; along a chain of
    blocks every open proposal is on schedule; and a block decides exactly the
    proposals whose voting ends with it. *)

From stdpp Require Import base gmap sorting.
From Stdlib Require Import ZArith Lia.
From S2P Require Import Prelude Archive TxExtra Curve Crypto DomainName GovParams GovStore DomainPolicy Registry ParamExecution ParamExecutionProofs Treasury VotingWeight VoteV2 Voting Proposals Lifecycle.
Open Scope Z_scope.

(** ** Submission against execution *)

(** Versions 1 and 2 are not compared with the version in the payload, but
    they are the same byte. *)
Lemma parse_fees_version d p : parse_all read_parameter_update (1 :: d) = Some p -> pup_version p = 1.
Proof.
  unfold parse_all, read_parameter_update. change (read_varint 8 (1 :: d)) with (Some (1, d)). cbn [mbind option_bind].
  destruct (read_container _ d) as [[es [|]]|]; [|done..]. by intros [= <-].
Qed.

Lemma parse_extension_version d p : parse_all read_extension_update (2 :: d) = Some p -> eup_version p = 2.
Proof.
  unfold parse_all, read_extension_update. change (read_varint 8 (2 :: d)) with (Some (2, d)). cbn [mbind option_bind].
  destruct (read_archive_string d) as [[e d1]|]; [|done]. cbn [mbind option_bind].
  destruct (read_varint 8 d1) as [[t [|]]|]; [|done..]. by intros [= <-].
Qed.

Lemma not_above_five t : negb (5 <? t) = (t <=? 5).
Proof. by rewrite Z.leb_antisym. Qed.

(** The validator computes what the decoder of executions decides. *)
Lemma validate_update_decodes `{VoteEnv} vns blob :
  validate_update vns blob =
  match decode_change vote_trap_bool blob with Some c => negb (held vns c) | None => false end.
Proof.
  unfold validate_update, decode_change. destruct blob as [|v blob]; [done|].
  destruct (Z.eqb_spec v 1) as [->|N1].
  { unfold decode_tier_fees. destruct (parse_all _ _) as [p|] eqn:P; [|done]. cbn [mbind option_bind].
    rewrite (parse_fees_version _ _ P). cbn [Z.eqb Pos.eqb andb].
    destruct (zlen _ =? 6), (entries_ok _ _); done. }
  destruct (Z.eqb_spec v 2) as [->|N2].
  { unfold decode_extension_tier. destruct (parse_all _ _) as [p|] eqn:P; [|done]. cbn [mbind option_bind].
    rewrite (parse_extension_version _ _ P), not_above_five. cbn [Z.eqb Pos.eqb andb].
    by destruct (is_empty _), (eup_tier p <=? 5). }
  destruct (Z.eqb_spec v 3) as [->|N3]; [|destruct (Z.eqb_spec v 4) as [->|N4]; [|destruct (Z.eqb_spec v 5) as [->|N5]]];
    cbn [orb].
  1-3: unfold decode_label; destruct (parse_all _ _) as [p|]; [|done]; cbn [mbind option_bind Z.eqb Pos.eqb];
    by destruct (lpu_version p =? _), (is_empty _).
  destruct (Z.eqb_spec v 6) as [->|N6]; [|destruct (Z.eqb_spec v 7) as [->|N7]; [|done]].
  - unfold decode_exact_tier. destruct (parse_all _ _) as [p|]; [|done]. cbn [mbind option_bind].
    rewrite not_above_five. by destruct (etu_version p =? 6), (is_empty _), (etu_tier p <=? 5).
  - unfold decode_exact_ban. destruct (parse_all _ _) as [p|]; [|done]. cbn [mbind option_bind].
    by destruct (ebu_version p =? 7), (is_empty _).
Qed.


(** ** One decision *)

Definition ids_ok (s : gov_state) : Prop :=
  forall pid rec, proposals (g_policy s) !! pid = Some rec -> proposal_id rec = pid.

(** A record either stays or goes from open to decided. *)
Inductive moved (h : Z) : option proposal_record -> option proposal_record -> Prop :=
| moved_same o : moved h o o
| moved_decided rec st : status rec = PROPOSAL_STATUS_ACTIVE ->
    st = PROPOSAL_STATUS_PASSED \/ st = PROPOSAL_STATUS_REJECTED ->
    moved h (Some rec) (Some (with_status rec st (executed rec) h)).

Lemma moved_trans h a b c : moved h a b -> moved h b c -> moved h a c.
Proof.
  intros [|rec st Ha Hs] M; [done|]. remember (Some (with_status rec st (executed rec) h)) as b' eqn:E.
  destruct M as [|rec' st' Ha' Hs']; subst; [by constructor|].
  injection E as ->. cbn in Ha'. subst. by destruct Hs.
Qed.

(** What evaluating leaves alone, and what it may change. *)
Record advanced (h : Z) (s s' : gov_state) : Prop := {
  adv_moved : forall pid, moved h (proposals (g_policy s) !! pid) (proposals (g_policy s') !! pid);
  adv_queue : forall e, e ∈ g_voting_end s -> fst e <> h -> e ∈ g_voting_end s';
  adv_outcomes : g_outcomes s' = g_outcomes s;
  adv_data : proposal_data (g_policy s') = proposal_data (g_policy s);
  adv_parameters : governance_parameters (g_policy s') = governance_parameters (g_policy s);
}.

#[export] Instance advanced_preorder h : PreOrder (advanced h).
Proof.
  split.
  - intros s. split; try done. intros pid. constructor.
  - intros a b c [M1 Q1 O1 D1 P1] [M2 Q2 O2 D2 P2]. split; [|auto|congruence..].
    intros pid. eapply moved_trans; [apply M1|apply M2].
Qed.

Lemma advanced_ids h s s' : advanced h s s' -> ids_ok s -> ids_ok s'.
Proof.
  intros A I pid rec R. pose proof (adv_moved _ _ _ A pid) as M. rewrite R in M.
  inversion M as [o E1 E2|rec' st Ha Hs E1 E2]; subst; [by apply I|]. cbn. by apply I.
Qed.

(** Only the proposals table matters to [advanced]. *)
Lemma store_advanced h s rec st : ids_ok s -> proposals (g_policy s) !! proposal_id rec = Some rec ->
  status rec = PROPOSAL_STATUS_ACTIVE -> st = PROPOSAL_STATUS_PASSED \/ st = PROPOSAL_STATUS_REJECTED ->
  advanced h s (store_proposal s (with_status rec st (executed rec) h)).
Proof.
  intros I R Ha Hs. split; try done. intros pid. cbn.
  destruct (decide (proposal_id rec = pid)) as [<-|N].
  - rewrite lookup_insert_eq, R. by constructor.
  - rewrite lookup_insert_ne by done. constructor.
Qed.

Lemma release_lock_frame s pid :
  proposals (g_policy (release_lock s pid)) = proposals (g_policy s) /\
  g_voting_end (release_lock s pid) = g_voting_end s /\ g_outcomes (release_lock s pid) = g_outcomes s /\
  proposal_data (g_policy (release_lock s pid)) = proposal_data (g_policy s) /\
  governance_parameters (g_policy (release_lock s pid)) = governance_parameters (g_policy s) /\
  g_pending (release_lock s pid) = g_pending s.
Proof. unfold release_lock. by destruct (get_pending_domain_policy_by_proposal _ _). Qed.

Section decisions.
Context (percent : Z) (ch : chain_view).
Notation evaluate := (evaluate_proposal percent ch).

Lemma evaluate_advances pid h s s' : ids_ok s -> evaluate pid h s = gov_true s' ->
  advanced h s s' /\ forall rec, proposals (g_policy s') !! pid = Some rec -> status rec <> PROPOSAL_STATUS_ACTIVE.
Proof.
  intros I. unfold evaluate_proposal. destruct (proposals (g_policy s) !! pid) as [rec|] eqn:R; [|done].
  pose proof (I _ _ R) as Hid.
  destruct (Z.eqb_spec (status rec) PROPOSAL_STATUS_ACTIVE) as [Ha|Ha]; cbn [negb].
  2: { intros [= <-]. split; [done|]. rewrite R. by intros ? [= <-]. }
  destruct (g_outcomes s !! pid) as [o|]; [|done].
  destruct (is_quorum_met _ _ _ _ _) as [q|]; [|done]. destruct (q && _).
  - unfold add_pending_execution. case_decide; [done|]. intros [= <-]. split.
    + match goal with |- advanced _ _ (store_proposal ?s1 _) => transitivity s1 end; [by split; try constructor|].
      apply store_advanced; cbn; rewrite ?Hid; auto.
    + cbn. rewrite Hid, lookup_insert_eq. by intros ? [= <-].
  - intros [= <-]. destruct (release_lock_frame s pid) as (E1 & E2 & E3 & E4 & E5 & E6).
    assert (advanced h s (release_lock s pid)) as A.
    { split; rewrite ?E1, ?E2, ?E3, ?E4, ?E5; try done. intros. constructor. }
    split.
    + etransitivity; [exact A|]. apply store_advanced; rewrite ?E1, ?Hid; auto. by eapply advanced_ids.
    + cbn. rewrite Hid, lookup_insert_eq. by intros ? [= <-].
Qed.

Lemma evaluate_due_advances h due s s' : ids_ok s -> evaluate_due percent ch h due s = gov_true s' ->
  advanced h s s' /\ forall pid rec, pid ∈ due -> proposals (g_policy s') !! pid = Some rec ->
    status rec = PROPOSAL_STATUS_ACTIVE -> executed rec = true.
Proof.
  revert s. induction due as [|pid due IH]; intros s I; cbn [evaluate_due].
  { intros [= <-]. split; [done|]. intros ? ? []%elem_of_nil. }
  destruct (proposals (g_policy s) !! pid) as [rec|] eqn:R.
  2: { intros E. destruct (IH s I E) as [A D]. split; [done|]. intros pid' rec' [->|Hin]%elem_of_cons R'; [|by eapply D].
       pose proof (adv_moved _ _ _ A pid) as M. rewrite R, R' in M. inversion M. }
  destruct (executed rec) eqn:X.
  { intros E. destruct (IH s I E) as [A D]. split; [done|]. intros pid' rec' [->|Hin]%elem_of_cons R' Ha; [|by eapply D].
    pose proof (adv_moved _ _ _ A pid) as M. rewrite R, R' in M. inversion M as [|? ? ? [-> | ->]]; by subst. }
  destruct (evaluate pid h s) as [s1| |] eqn:E1; [|done|done].
  destruct (evaluate_advances pid h s s1 I E1) as [A1 D1].
  set (s2 := remove_voting_end_entry s1 h pid). assert (advanced h s1 s2) as A2.
  { split; try done; [intros; constructor|]. intros e He Hne. cbn. apply elem_of_difference. split; [done|].
    intros ->%elem_of_singleton. by apply Hne. }
  intros E. destruct (IH s2) as [A D]; [eapply advanced_ids, advanced_ids; eassumption|done|].
  split; [by do 2 (etransitivity; [eassumption|])|].
  intros pid' rec' [->|Hin]%elem_of_cons R' Ha; [|by eapply D].
  exfalso. pose proof (adv_moved _ _ _ A pid) as M. rewrite R' in M.
  change (proposals (g_policy s2) !! pid) with (proposals (g_policy s1) !! pid) in M.
  inversion M as [o Eo Eo'|rec0 st Ha0 Hs Eo Eo']; subst.
  - by eapply D1.
  - by eapply D1.
Qed.
End decisions.

Lemma elem_of_voting_end s h pid : pid ∈ get_voting_end_entries s h <-> (h, pid) ∈ g_voting_end s.
Proof.
  unfold get_voting_end_entries. rewrite merge_sort_Permutation, list_elem_of_fmap.
  setoid_rewrite elem_of_elements. setoid_rewrite elem_of_filter. split.
  - by intros ([h' pid'] & -> & <- & ?).
  - intros ?. by exists (h, pid).
Qed.

Lemma elem_of_pending s h e : e ∈ get_pending_executions s h <-> e ∈ g_pending s /\ fst e <= h.
Proof.
  unfold get_pending_executions. rewrite merge_sort_Permutation, elem_of_elements, elem_of_filter. tauto.
Qed.

(** ** The execution queue *)

Lemma due_fold_frame l s :
  g_policy (fold_left due_step l s) = g_policy s /\ g_voting_end (fold_left due_step l s) = g_voting_end s /\
  g_outcomes (fold_left due_step l s) = g_outcomes s.
Proof.
  revert s. induction l as [|e l IH]; intros s; [done|]. cbn. destruct (IH (due_step s e)) as (-> & -> & ->).
  unfold due_step. destruct (_ !! _) as [rec|]; [|done]. by destruct (negb _).
Qed.

(** Entries of proposals that are no longer waiting. *)
Definition stale (s : gov_state) (e : Z * hash) : Prop :=
  match proposals (g_policy s) !! snd e with
  | None => True
  | Some rec => status rec <> PROPOSAL_STATUS_PASSED
  end.

Lemma due_fold_pending l s e :
  e ∈ g_pending (fold_left due_step l s) <-> e ∈ g_pending s /\ ~ (e ∈ l /\ stale s e).
Proof.
  revert s. induction l as [|e' l IH]; intros s; cbn [fold_left]; [set_solver|].
  rewrite IH. assert (stale (due_step s e') e <-> stale s e) as ->.
  { unfold stale. destruct (due_fold_frame [e'] s) as (E & _). cbn in E. by rewrite E. }
  rewrite elem_of_cons. unfold due_step, stale. destruct (proposals (g_policy s) !! snd e') as [rec|] eqn:R.
  - destruct (Z.eqb_spec (status rec) PROPOSAL_STATUS_PASSED) as [P|P]; cbn.
    + destruct (decide (e = e')) as [->|N]; [rewrite R|]; tauto.
    + rewrite elem_of_difference, elem_of_singleton, <- surjective_pairing.
      destruct (decide (e = e')) as [->|N]; [rewrite R|]; tauto.
  - cbn. rewrite elem_of_difference, elem_of_singleton, <- surjective_pairing.
    destruct (decide (e = e')) as [->|N]; [rewrite R|]; tauto.
Qed.

(** After a block the queue holds, of the entries that are due, exactly those
    of proposals still waiting to be executed. *)
Lemma execute_due_spec h s e :
  e ∈ g_pending (execute_due h s) <-> e ∈ g_pending s /\ (fst e <= h -> ~ stale s e).
Proof. unfold execute_due. rewrite due_fold_pending, elem_of_pending. tauto. Qed.

(** ** No open proposal is overlooked *)

(** Every open proposal is within its voting period at height [h] and queued
    for the height at which it is decided. *)
Definition on_schedule (h : Z) (s : gov_state) : Prop :=
  ids_ok s /\ forall pid rec, proposals (g_policy s) !! pid = Some rec -> status rec = PROPOSAL_STATUS_ACTIVE ->
    executed rec = false /\ h <= voting_end_height rec < 2 ^ 64 - 1 /\
    (voting_end_height rec + 1, pid) ∈ g_voting_end s.

(** Heights that do not overflow when the voting period is added. *)
Definition sane_heights `{VoteEnv} (tx : vote_tx) : Prop :=
  forall p blob, extract_proposal tx = Some (p, blob) ->
    0 <= p_voting_start_height p < 2 ^ 63 /\ 0 <= p_voting_end_height p < 2 ^ 63.

Lemma validated_end `{VoteEnv} vns p h blob : 0 <= h < 2 ^ 63 -> 
  0 <= p_voting_start_height p < 2 ^ 63 -> 0 <= p_voting_end_height p < 2 ^ 63 ->
  validate_proposal vns p h blob = true -> h < end_of_voting p h < 2 ^ 64 - 1.
Proof.
  intros Hh Hs He. unfold validate_proposal, end_of_voting. cbv zeta. split_if; [done|]. split_if; [done|].
  assert (u64 (h + 1) = h + 1) as -> by (apply u64_id; lia). to_prop.
  destruct (p_voting_start_height p =? 0) eqn:E0, (p_voting_end_height p =? 0) eqn:E1; cbn [negb andb]; to_prop;
    (split_if; [done|]); to_prop; try (split_if; [done|]); to_prop; intros _; rewrite ?u64_id; lia.
Qed.

#[export] Instance on_schedule_proper g : Proper (same_but_data ==> iff) (on_schedule g).
Proof.
  intros s s' E. unfold on_schedule, ids_ok.
  pose proof (f_equal (fun s => proposals (g_policy s)) E) as E1.
  pose proof (f_equal g_voting_end E) as E2. cbn in E1, E2. by rewrite E1, E2.
Qed.

Lemma on_schedule_frame g s s' : g_policy s' = g_policy s -> g_voting_end s' = g_voting_end s ->
  on_schedule g s -> on_schedule g s'.
Proof. unfold on_schedule, ids_ok. by intros -> ->. Qed.

Section chain.
Context `{VoteEnv} `{RctOps}.
Context (address_str : bool -> bytes -> bytes -> bytes) (unset_recipient : bytes).

Lemma index_on_schedule vns tx g h s s' : on_schedule g s -> g <= h -> 0 <= h < 2 ^ 63 -> sane_heights tx ->
  index_proposal address_str unset_recipient vns tx h s = gov_true s' -> on_schedule g s'.
Proof.
  intros S Hg Hh Hsane E. destruct (is_proposal_tx tx) eqn:Ht.
  2: { unfold index_proposal in E. rewrite Ht in E. by injection E as <-. }
  destruct (index_true _ _ vns tx h s s' Ht E) as (p & blob & locks & Hp & V & _ & _ & ->).
  destruct (Hsane p blob Hp) as [Hsub Hend]. pose proof (validated_end vns p h blob Hh Hsub Hend V) as He.
  destruct S as [I S]. split.
  - intros pid rec. cbn. rewrite lookup_insert_Some. intros [[<- <-]|[_ R]]; [done|by apply I].
  - intros pid rec. cbn. rewrite lookup_insert_Some. intros [[<- <-]|[_ R]] Ha.
    + cbn. rewrite u64_id by lia. set_solver by lia.
    + destruct (S pid rec R Ha) as (? & ? & ?). set_solver.
Qed.

Lemma proposals_on_schedule vns txs g h s s' : on_schedule g s -> g <= h -> 0 <= h < 2 ^ 63 ->
  Forall sane_heights txs ->
  process_block_proposals address_str unset_recipient vns txs h s = gov_true s' -> on_schedule g s'.
Proof.
  intros S Hg Hh F. revert s S. induction F as [|tx txs Htx F IH]; intros s S; cbn [process_block_proposals].
  { by intros [= <-]. }
  destruct (negb _); [by apply IH|]. destruct (index_proposal _ _ _ _ _ _) as [s1| |] eqn:E; [|done|done].
  apply IH. by eapply index_on_schedule.
Qed.

Lemma lifecycle_on_schedule percent ch start_ok batch h s s' : on_schedule (h - 1) s ->
  lifecycle_process_block percent ch start_ok batch h s = (true, s') -> on_schedule h s'.
Proof.
  intros [I S] E.
  assert (advanced h s s' /\ forall pid rec, (h, pid) ∈ g_voting_end s -> proposals (g_policy s') !! pid = Some rec ->
    status rec = PROPOSAL_STATUS_ACTIVE -> executed rec = true) as [A D].
  { unfold lifecycle_process_block in E. destruct (is_empty _) eqn:Em.
    - injection E as <-. split; [done|]. intros pid rec Hq%elem_of_voting_end.
      apply is_empty_true in Em. rewrite Em in Hq. by apply elem_of_nil in Hq.
    - destruct start_ok; [|done]. cbn [negb] in E.
      destruct (evaluate_due _ _ _ _ _) as [s1| |] eqn:E1; [|done|done]. injection E as ->.
      apply evaluate_due_advances in E1 as [A D]; [|done]. split; [done|].
      intros pid rec Hq. apply D. by apply elem_of_voting_end. }
  split; [by eapply advanced_ids|]. intros pid rec R Ha.
  pose proof (adv_moved _ _ _ A pid) as M. rewrite R in M.
  assert (proposals (g_policy s) !! pid = Some rec) as Eo by (inversion M as [|? ? ? [-> | ->]]; by subst).
  destruct (S pid rec Eo Ha) as (X & Hend & Hq). split; [done|].
  assert (voting_end_height rec + 1 <> h) as Hne.
  { intros Eh. rewrite Eh in Hq. specialize (D pid rec Hq R Ha). congruence. }
  split; [lia|]. by apply (adv_queue _ _ _ A).
Qed.

(** A block whose governance succeeds. *)
Lemma block_on_schedule percent ch vns start_ok batch txs h s s' : on_schedule (h - 1) s -> 0 <= h < 2 ^ 63 ->
  Forall (fun tx => sane_heights (gt_tx tx)) txs ->
  governance_process_block address_str unset_recipient percent ch vns start_ok batch txs h s = Some (true, s') ->
  on_schedule h s'.
Proof.
  intros S Hh F. unfold governance_process_block.
  destruct (process_block_proposals _ _ _ _ _ _) as [s1| |] eqn:E1; [|done|done].
  apply (proposals_on_schedule _ _ (h - 1)) in E1; [|done|lia|done|by apply Forall_fmap].
  destruct (process_block_votes _ _ _ _) as [[[] v]|]; [|done|done]. cbn [mbind option_bind negb].
  assert (on_schedule (h - 1) (with_votes s1 v)) as S2 by exact E1.
  destruct (lifecycle_process_block _ _ _ _ _ _) as [[] s2] eqn:E2; [|done]. cbn [negb]. intros [= <-].
  apply lifecycle_on_schedule in E2; [|done].
  destruct (due_fold_frame (get_pending_executions s2 h) s2) as (Ep & Ev & _).
  by apply (on_schedule_frame h s2).
Qed.
(** A proposal that is marked executed. *)
Lemma executed_on_schedule g s p id rec h : on_schedule g s -> proposals (g_policy s) !! id = Some rec ->
  proposals p = <[id := with_status rec PROPOSAL_STATUS_EXECUTED true h]> (proposals (g_policy s)) ->
  on_schedule g (with_policy s p).
Proof.
  intros [I S] R E. unfold on_schedule, ids_ok. cbn. rewrite E. split.
  - intros pid rec'. rewrite lookup_insert_Some. intros [[<- <-]|[_ R']]; [cbn|]; by apply I.
  - intros pid rec'. rewrite lookup_insert_Some. intros [[<- <-]|[_ R']] Ha; [done|by apply S].
Qed.

Definition state_of (r : gov_result) : gov_state :=
  match r with gov_true s | gov_false s | gov_threw s => s end.

Lemma recover_on_schedule g h ap items s : on_schedule g s -> on_schedule g (state_of (recover_items h ap items s)).
Proof.
  revert s. induction items as [|item items IH]; intros s S; cbn [recover_items]; [done|].
  set (s1 := if od_needs_status_fix item then _ else s).
  assert (on_schedule g s1) as S1.
  { unfold s1, fix_status. destruct (od_needs_status_fix item); [|done].
    destruct (proposals (g_policy s) !! od_id item) as [rec|] eqn:R; [|done]. split_if; [|done].
    destruct S as [I S]. pose proof (I _ _ R) as Hid. unfold on_schedule, ids_ok. cbn. rewrite Hid. split.
    - intros pid rec'. rewrite lookup_insert_Some. intros [[<- <-]|[_ R']]; [done|by apply I].
    - intros pid rec'. rewrite lookup_insert_Some. intros [[<- <-]|[_ R']] Ha; [done|by apply S]. }
  case_decide; [by apply IH|]. unfold add_pending_execution. case_decide; [done|].
  apply IH. by apply (on_schedule_frame g s1).
Qed.

(** Chains of blocks whose governance succeeds, with executions and restarts
    in between.  [gov_chain h s]: [s] is reached with [h] the last height. *)
Inductive gov_chain : Z -> gov_state -> Prop :=
| chain_start h s : proposals (g_policy s) = ∅ -> gov_chain h s
| chain_block percent ch vns start_ok batch txs h s s' : gov_chain h s -> 0 <= h + 1 < 2 ^ 63 ->
    Forall (fun tx => sane_heights (gt_tx tx)) txs ->
    governance_process_block address_str unset_recipient percent ch vns start_ok batch txs (h + 1) s
    = Some (true, s') -> gov_chain (h + 1) s'
| chain_execution trap pads gp vns h s h' id p : gov_chain h s -> (forall i, length (pads i) = 7%nat) ->
    process_parameter_execution trap pads gp vns (g_policy s) h' id = exec_done p ->
    gov_chain h (with_policy s p)
| chain_grant h s h' ts ts' id : gov_chain h s -> t_gov ts = g_policy s -> grant h' ts id = inl ts' ->
    gov_chain h (with_policy s (t_gov ts'))
| chain_restart start_ok batch rows h s : gov_chain h s ->
    gov_chain h (recover_overdue_executions start_ok batch rows h s).

Lemma chain_on_schedule h s : gov_chain h s -> on_schedule h s.
Proof.
  induction 1 as [h s E|percent ch vns start_ok batch txs h s s' _ IH Hh F E|trap pads gp vns h s h' id p _ IH Hp E
    |h s h' ts ts' id _ IH Eg E|start_ok batch rows h s _ IH].
  - unfold on_schedule, ids_ok. rewrite E. split; intros ? ?; by rewrite lookup_empty.
  - eapply block_on_schedule; [|exact Hh|exact F|exact E]. by replace (h + 1 - 1) with h by lia.
  - destruct (execution_inv _ _ _ _ _ _ _ _ E) as (rec & blob & db1 & R & _ & _ & _ & _ & _ & X & ->).
    apply (exec_payload_writes _ _ _ _ _ _ Hp) in X. apply writes_other_tables in X as (Ep & _).
    apply (executed_on_schedule h s _ id rec h'); [done|done|]. cbn. by rewrite Ep, (proj1 IH _ _ R).
  - unfold grant in E. rewrite Eg in E. destruct (proposals (g_policy s) !! id) as [rec|] eqn:R; [|done].
    split_if_in E; [done|]. injection E as <-. apply (executed_on_schedule h s _ id rec h'); [done|done|].
    cbn. by rewrite Eg.
  - unfold recover_overdue_executions. destruct (is_empty _); [done|]. destruct start_ok; [|done]. cbn [negb].
    pose proof (recover_on_schedule h h (list_to_set (snd <$> get_pending_executions s h))
      (omap (overdue_of s h (list_to_set (snd <$> get_pending_executions s h))) rows) s IH) as S.
    destruct (recover_items _ _ _ _); [done|by destruct batch|by destruct batch].
Qed.
End chain.

(** ** What a block decides *)

(** Locks are keyed by their name, one per proposal. *)
Definition locks_wf (m : gmap bytes pending_domain_policy_record) : Prop :=
  (forall k l, m !! k = Some l -> k = cstr (pend_domain l)) /\
  (forall k k' l l', m !! k = Some l -> m !! k' = Some l' -> pend_proposal_id l = pend_proposal_id l' -> k = k').

Lemma lock_of_proposal m pid : locks_wf m ->
  match get_pending_domain_policy_by_proposal m pid with
  | Some l => exists k, m !! k = Some l /\ pend_proposal_id l = pid
  | None => forall k l, m !! k = Some l -> pend_proposal_id l <> pid
  end.
Proof.
  intros W. unfold get_pending_domain_policy_by_proposal.
  set (rows := merge_sort _ _).
  assert (forall k l, (k, l) ∈ rows <-> m !! k = Some l /\ pend_proposal_id l = pid) as Hrows.
  { intros k l. unfold rows. by rewrite merge_sort_Permutation, elem_of_map_to_list, map_lookup_filter_Some. }
  destruct rows as [|[k l] rows]; cbn.
  - intros k l Hl Hid. by assert ((k, l) ∈ []) as []%elem_of_nil by by apply Hrows.
  - exists k. apply Hrows. left.
Qed.

Lemma release_lock_spec s pid k l : locks_wf (pending_domain_policy (g_policy s)) ->
  pending_domain_policy (g_policy (release_lock s pid)) !! k = Some l <->
  pending_domain_policy (g_policy s) !! k = Some l /\ pend_proposal_id l <> pid.
Proof.
  intros W. unfold release_lock. pose proof (lock_of_proposal _ pid W) as L.
  destruct (get_pending_domain_policy_by_proposal _ pid) as [l0|].
  - destruct L as (k0 & E0 & Hid). cbn. unfold remove_pending_domain_policy_by_domain.
    rewrite (cstr_id (cstr _)) by apply cstr_no_nul. rewrite <- (proj1 W _ _ E0), lookup_delete_Some. split.
    + intros [N E]. split; [done|]. intros Hl. apply N. eapply (proj2 W); [done..|congruence].
    + intros [E Hl]. split; [|done]. intros ->. congruence.
  - split; [|tauto]. intros E. split; [done|]. by eapply L.
Qed.

Lemma locks_wf_sub m m' : locks_wf m -> (forall k l, m' !! k = Some l -> m !! k = Some l) -> locks_wf m'.
Proof. intros [W1 W2] S. split; eauto. Qed.

(** The rule of a vote: the participating balance reaches a share of the
    circulating supply, and more weight is for the proposal than against it. *)
Definition circulating_supply (ch : chain_view) (minted : Z) : Z :=
  Z.max 0 (minted - treasury_balance ch - burned_fees ch).
Definition vote_rule (percent : Z) (ch : chain_view) (minted yes_weight no_weight balance : Z) : bool :=
  (circulating_supply ch minted * percent / 100 <=? balance) && (no_weight <? yes_weight).

(** Amounts for which the arithmetic of the quorum is exact. *)
Record supply_ok (percent : Z) (ch : chain_view) (minted : Z) : Prop := {
  so_treasury : 0 <= treasury_balance ch;
  so_burned : 0 <= burned_fees ch;
  so_sum : treasury_balance ch + burned_fees ch < 2 ^ 64;
  so_minted : 0 <= minted < 2 ^ 120;
  so_percent : 0 <= percent <= 100;
}.

Lemma required_quorum_exact percent ch minted : supply_ok percent ch minted ->
  required_quorum minted (treasury_balance ch) (burned_fees ch) percent = circulating_supply ch minted * percent / 100.
Proof.
  intros [Ht Hb Hs Hm Hp]. unfold required_quorum, circulating_supply. rewrite u64_id by lia.
  destruct (_ <? _) eqn:E; cbv zeta.
  - rewrite (u128_id (minted - _)), (u128_id (minted - _ - _)) by lia. rewrite u128_id by nia. do 2 f_equal. lia.
  - rewrite u128_id by lia. do 2 f_equal. lia.
Qed.

Lemma quorum_and_majority percent ch minted o e : supply_ok percent ch minted ->
  generated_coins ch (Z.min e (db_height ch)) = Some minted -> 0 <= yes_b o + no_b o < 2 ^ 64 ->
  exists q, is_quorum_met percent ch (yes_b o) (no_b o) e = Some q /\
    q && is_majority_met (yes_w o) (no_w o) = vote_rule percent ch minted (yes_w o) (no_w o) (yes_b o + no_b o).
Proof.
  intros S Hm Hb. unfold is_quorum_met. rewrite Hm. cbn [mbind option_bind]. eexists. split; [done|].
  by rewrite required_quorum_exact, u64_id by done.
Qed.

Section deciding.
Context (percent : Z) (ch : chain_view) (h : Z).

Definition passes (rec : proposal_record) (o : proposal_outcome) : bool :=
  match generated_coins ch (Z.min (voting_end_height rec) (db_height ch)) with
  | Some minted => vote_rule percent ch minted (yes_w o) (no_w o) (yes_b o + no_b o)
  | None => false
  end.

Definition decided_as (rec : proposal_record) (o : proposal_outcome) : proposal_record :=
  with_status rec (if passes rec o then PROPOSAL_STATUS_PASSED else PROPOSAL_STATUS_REJECTED) (executed rec) h.

(** The queue entry of a proposal that passes. *)
Definition entry_for (s : gov_state) (rec : proposal_record) : Z * hash :=
  (u64 (voting_end_height rec + delay_or_fallback (g_policy s) h), proposal_id rec).

(** An open proposal with votes whose quorum can be computed. *)
Record ready (s : gov_state) (pid : hash) (rec : proposal_record) (o : proposal_outcome) : Prop := {
  rd_record : proposals (g_policy s) !! pid = Some rec;
  rd_active : status rec = PROPOSAL_STATUS_ACTIVE;
  rd_unexecuted : executed rec = false;
  rd_outcome : g_outcomes s !! pid = Some o;
  rd_balance : 0 <= yes_b o + no_b o < 2 ^ 64;
  rd_supply : exists minted, generated_coins ch (Z.min (voting_end_height rec) (db_height ch)) = Some minted /\
    supply_ok percent ch minted;
  rd_not_queued : entry_for s rec ∉ g_pending s;
}.

(** The effect of deciding one proposal and taking it off the queue. *)
Lemma decide_one s pid rec o : ids_ok s -> locks_wf (pending_domain_policy (g_policy s)) -> ready s pid rec o ->
  exists s1, evaluate_proposal percent ch pid h s = gov_true s1 /\ let s' := remove_voting_end_entry s1 h pid in
    proposals (g_policy s') = <[pid := decided_as rec o]> (proposals (g_policy s)) /\
    g_pending s' = (if passes rec o then {[ entry_for s rec ]} else ∅) ∪ g_pending s /\
    g_voting_end s' = g_voting_end s ∖ {[ (h, pid) ]} /\
    (forall k l, pending_domain_policy (g_policy s') !! k = Some l <->
      pending_domain_policy (g_policy s) !! k = Some l /\ (passes rec o = true \/ pend_proposal_id l <> pid)) /\
    g_outcomes s' = g_outcomes s /\ governance_parameters (g_policy s') = governance_parameters (g_policy s) /\
    proposal_data (g_policy s') = proposal_data (g_policy s).
Proof.
  intros I W [R Ha X O Hb (minted & Hm & S) N]. pose proof (I _ _ R) as Hid. unfold evaluate_proposal, decided_as, passes.
  destruct (quorum_and_majority percent ch minted o (voting_end_height rec) S Hm Hb) as (q & Q & Eq).
  rewrite R, Ha, O, Q, Hm, <- Eq. cbn [negb Z.eqb]. unfold entry_for in *. rewrite Hid in N |- *.
  destruct (q && _) eqn:P.
  - unfold add_pending_execution. rewrite decide_False by done. eexists. split; [done|]. cbn. rewrite Hid.
    split_and!; try done. naive_solver.
  - eexists. split; [done|]. destruct (release_lock_frame s pid) as (E1 & E2 & E3 & E4 & E5 & E6). cbn.
    rewrite E1, E2, E3, E4, E5, E6, Hid. split_and!; try done; [by rewrite union_empty_l_L|].
    intros k l. rewrite (release_lock_spec s pid k l W). naive_solver.
Qed.
Lemma delay_same db db' : governance_parameters db' = governance_parameters db ->
  delay_or_fallback db' h = delay_or_fallback db h.
Proof. unfold delay_or_fallback, get_parameter, get_parameter_record. by intros ->. Qed.

(** The effect of deciding a list of proposals. *)
Record all_decided (l : list (hash * proposal_record * proposal_outcome)) (s s' : gov_state) : Prop := {
  ad_decided : forall pid rec o, (pid, rec, o) ∈ l ->
    proposals (g_policy s') !! pid = Some (decided_as rec o);
  ad_others : forall pid, pid ∉ l.*1.*1 -> proposals (g_policy s') !! pid = proposals (g_policy s) !! pid;
  ad_pending : forall e, e ∈ g_pending s' <->
    e ∈ g_pending s \/ exists pid rec o, (pid, rec, o) ∈ l /\ passes rec o = true /\ e = entry_for s rec;
  ad_queue : forall e, e ∈ g_voting_end s' <-> e ∈ g_voting_end s /\ ~ (fst e = h /\ snd e ∈ l.*1.*1);
  ad_locks : forall k lock, pending_domain_policy (g_policy s') !! k = Some lock <->
    pending_domain_policy (g_policy s) !! k = Some lock /\
    forall rec o, (pend_proposal_id lock, rec, o) ∈ l -> passes rec o = true;
  ad_outcomes : g_outcomes s' = g_outcomes s;
  ad_parameters : governance_parameters (g_policy s') = governance_parameters (g_policy s);
  ad_data : proposal_data (g_policy s') = proposal_data (g_policy s);
}.

Lemma decide_list l : forall s, ids_ok s -> locks_wf (pending_domain_policy (g_policy s)) ->
  NoDup l.*1.*1 -> Forall (fun x => ready s x.1.1 x.1.2 x.2) l ->
  exists s', evaluate_due percent ch h l.*1.*1 s = gov_true s' /\ all_decided l s s'.
Proof.
  induction l as [|[[pid rec] o] l IH]; intros s I W ND F; [|rewrite !fmap_cons in ND |- *]; cbn [evaluate_due fst].
  { exists s. split; [done|]. split; try done; set_solver. }
  apply NoDup_cons in ND as [Hnew ND]. apply Forall_cons in F as [Hr F]. cbn in Hr.
  pose proof (I _ _ (rd_record _ _ _ _ Hr)) as Hid.
  destruct (decide_one s pid rec o I W Hr) as (s1 & E1 & Ep & Epe & Eq & El & Eo & Egp & Ed).
  set (s2 := remove_voting_end_entry s1 h pid) in *.
  assert (forall x, x ∈ l -> entry_for s2 x.1.2 = entry_for s x.1.2) as Ee.
  { intros x _. unfold entry_for. by rewrite (delay_same _ _ Egp). }
  assert (forall x, x ∈ l -> x.1.1 <> pid) as Hne.
  { intros x Hx <-. apply Hnew. rewrite <- list_fmap_compose. apply list_elem_of_fmap. by exists x. }
  destruct (IH s2) as (s' & E' & [D1 D2 D3 D4 D5 D6 D7 D8]).
  - intros pid' rec'. rewrite Ep, lookup_insert_Some. intros [[<- <-]|[_ R]]; [done|by apply I].
  - eapply locks_wf_sub; [exact W|]. intros k lk. rewrite El. tauto.
  - done.
  - rewrite Forall_forall in F |- *. intros x Hx. destruct (F x Hx) as [R Ha X O Hb Q N]. split; try done.
    + rewrite Ep, lookup_insert_ne; [done|]. intros ->. by apply (Hne x).
    + by rewrite Eo.
    + rewrite (Ee x Hx), Epe. intros [Hin|]%elem_of_union; [|done]. destruct (passes rec o); [|set_solver].
      apply elem_of_singleton in Hin. apply (f_equal snd) in Hin. cbn in Hin. rewrite Hid in Hin.
      rewrite (I _ _ R) in Hin. by apply (Hne x).
  - exists s'. split; [by rewrite (rd_record _ _ _ _ Hr), (rd_unexecuted _ _ _ _ Hr), E1|]. split.
    + intros pid' rec' o' [[= -> -> ->]|Hin]%elem_of_cons; [|by apply D1].
      rewrite D2, Ep, lookup_insert_eq by done. done.
    + intros pid' Hn. apply not_elem_of_cons in Hn as [Hn1 Hn2]. cbn in Hn1.
      by rewrite D2, Ep, lookup_insert_ne by done.
    + intros e. rewrite D3, Epe, elem_of_union. split.
      * intros [[Hin|?]|(p & r & o' & Hin & Hps & ->)]; [right|by left|right].
        -- destruct (passes rec o) eqn:P; [|set_solver]. apply elem_of_singleton in Hin as ->.
           exists pid, rec, o. split; [left|done].
        -- exists p, r, o'. split; [by right|]. split; [done|]. exact (Ee _ Hin).
      * intros [?|(p & r & o' & [[= -> -> ->]|Hin]%elem_of_cons & Hps & ->)]; [by left; right| |].
        -- left. left. rewrite Hps. by apply elem_of_singleton.
        -- right. exists p, r, o'. split; [done|]. split; [done|]. symmetry. exact (Ee _ Hin).
    + intros [h' p']. rewrite !fmap_cons, D4, Eq, elem_of_difference, elem_of_singleton, elem_of_cons. cbn. naive_solver.
    + intros k lk. rewrite D5, El. split.
      * intros [[L [P|N]] A]; (split; [done|]); intros r o' [E|Hin]%elem_of_cons; try (by eapply A); naive_solver.
      * intros [L A]. split; [split; [done|]|].
        -- destruct (passes rec o) eqn:P; [by left|right]. intros E.
           rewrite (A rec o) in P by (rewrite E; left). done.
        -- intros r o' Hin. apply (A r o'). by right.
    + by rewrite D6.
    + by rewrite D7.
    + by rewrite D8.
Qed.
End deciding.

Lemma due_nodup s h : NoDup (get_voting_end_entries s h).
Proof.
  unfold get_voting_end_entries. rewrite merge_sort_Permutation.
  apply NoDup_fmap_2_strong; [|apply NoDup_elements].
  intros [a p] [b q] Ha%elem_of_elements Hb%elem_of_elements. rewrite elem_of_filter in Ha, Hb. cbn in *.
  destruct Ha as [-> _], Hb as [-> _]. by intros ->.
Qed.


(** A proposal on which nobody voted has no outcome row, and fails the block
    in which its voting ends, with every other proposal due there. *)
Lemma unvoted_proposal_fails_block percent ch start_ok h s pid rec : ids_ok s ->
  (h, pid) ∈ g_voting_end s -> proposals (g_policy s) !! pid = Some rec ->
  status rec = PROPOSAL_STATUS_ACTIVE -> executed rec = false -> g_outcomes s !! pid = None ->
  lifecycle_process_block percent ch start_ok false h s = (false, s).
Proof.
  intros I Hq%elem_of_voting_end R Ha X O. unfold lifecycle_process_block.
  destruct (is_empty _) eqn:Em; [apply is_empty_true in Em; rewrite Em in Hq; by apply elem_of_nil in Hq|].
  destruct start_ok; [|done]. cbn [negb]. clear Em.
  assert (forall due s, ids_ok s -> proposals (g_policy s) !! pid = Some rec -> g_outcomes s !! pid = None ->
    pid ∈ due -> forall s', evaluate_due percent ch h due s <> gov_true s') as Hfail.
  { clear s I R O Hq. intros due. induction due as [|pid' due IH]; intros s I R O Hin s'; [by apply elem_of_nil in Hin|].
    cbn [evaluate_due]. destruct (decide (pid' = pid)) as [->|Hne].
    - rewrite R, X. unfold evaluate_proposal. by rewrite R, Ha, O.
    - apply elem_of_cons in Hin as [->|Hin]; [done|]. destruct (proposals (g_policy s) !! pid') as [rec'|] eqn:R'; [|by apply IH].
      destruct (executed rec'); [by apply IH|]. destruct (evaluate_proposal _ _ _ _ _) as [s1| |] eqn:E1; [|done|done].
      pose proof (proj1 (evaluate_advances _ _ _ _ _ _ I E1)) as A.
      apply IH; [by eapply (advanced_ids h s s1)| |cbn; by rewrite (adv_outcomes _ _ _ A)|done]. cbn.
      unfold evaluate_proposal in E1. rewrite R' in E1. pose proof (I _ _ R') as Hid.
      split_if_in E1; [by injection E1 as <-|]. destruct (g_outcomes s !! pid'); [|done].
      destruct (is_quorum_met _ _ _ _ _); [|done]. split_if_in E1.
      + unfold add_pending_execution in E1. case_decide; [done|]. injection E1 as <-. cbn. by rewrite Hid, lookup_insert_ne.
      + injection E1 as <-. cbn. rewrite (proj1 (release_lock_frame s pid')). by rewrite Hid, lookup_insert_ne. }
  specialize (Hfail (get_voting_end_entries s h) s I R O Hq).
  destruct (evaluate_due _ _ _ _ _) as [s1| |]; [by destruct (Hfail s1)|done|done].
Qed.
