(* ===== verification/Election.v ===== *)
(** * From submission to effect

    The managers together: a proposal that is submitted, voted on openly,
    decided and executed changes the policy exactly when the votes approve it;
    no open proposal is overlooked by a chain of blocks; and what a restart
    recovers.  At the end, runs in which the code does not do what it means
    to. *)

From stdpp Require Import base gmap sorting.
From Stdlib Require Import ZArith Lia.
From S2P Require Import Prelude Archive TxExtra Curve CurveModel Crypto DomainName GovParams GovStore DomainPolicy Registry ParamExecution ParamExecutionProofs Treasury Threshold VotingWeight VoteV2 Emission Tally Voting Proposals Lifecycle LifecycleProofs.
Open Scope Z_scope.

(** ** Counting the votes of an election *)

(** [votes_counted v l v']: the votes [l], each with its height, are processed
    one after the other and all count. *)
Inductive votes_counted `{VoteEnv} : vote_state -> list (vote_proof * Z) -> vote_state -> Prop :=
| vc_nil v : votes_counted v [] v
| vc_cons v tx vp h v1 l v2 : is_vote_tx tx = true -> extract_vote tx = Some vp -> vote_proof_wf vp ->
    0 <= h < 2 ^ 64 -> process_v1_vote tx h false v = (success, v1) -> votes_counted v1 l v2 ->
    votes_counted v ((vp, h) :: l) v2.

(** The totals of one side, weights and balances. *)
Definition side (yes : bool) (l : list (vote_proof * Z)) : list (vote_proof * Z) :=
  filter (fun x => vp_direction_yes x.1 = yes) l.
Definition weight_of (yes : bool) (l : list (vote_proof * Z)) : Z :=
  zsum ((fun x => v1_weight x.1 x.2) <$> side yes l).
Definition balance_of (yes : bool) (l : list (vote_proof * Z)) : Z :=
  zsum ((fun x => vp_participation_balance x.1) <$> side yes l).

(** No total exceeds 64 bits. *)
Definition totals_fit (o : proposal_outcome) (l : list (vote_proof * Z)) : Prop :=
  yes_w o + weight_of true l < 2 ^ 64 /\ no_w o + weight_of false l < 2 ^ 64 /\
  yes_b o + balance_of true l < 2 ^ 64 /\ no_b o + balance_of false l < 2 ^ 64.

Definition outcome_nonneg (o : proposal_outcome) : Prop :=
  0 <= yes_w o /\ 0 <= no_w o /\ 0 <= yes_b o /\ 0 <= no_b o.

Lemma totals_cons yes vp h l :
  weight_of yes ((vp, h) :: l) = (if eqb (vp_direction_yes vp) yes then v1_weight vp h else 0) + weight_of yes l /\
  balance_of yes ((vp, h) :: l) =
    (if eqb (vp_direction_yes vp) yes then vp_participation_balance vp else 0) + balance_of yes l.
Proof.
  unfold weight_of, balance_of, side. rewrite filter_cons. cbn [fst].
  destruct (decide (vp_direction_yes vp = yes)) as [->|N].
  - by rewrite eqb_reflx.
  - by destruct (vp_direction_yes vp), yes.
Qed.

Section counting.
Context `{VoteEnv}.

Lemma vote_counts tx vp h v v1 : is_vote_tx tx = true -> extract_vote tx = Some vp -> vote_proof_wf vp ->
  0 <= h < 2 ^ 64 -> process_v1_vote tx h false v = (success, v1) ->
  v1_acceptable v vp h /\ v1 = v1_counted v vp h.
Proof.
  intros Ht He Hwf Hh E. destruct (process_v1_cases tx vp v h Ht He Hwf Hh) as [[A E']|[_ (r & N & E')]]; [|congruence].
  split; [done|]. congruence.
Qed.

Lemma side_totals_nonneg v l v' yes : votes_counted v l v' -> 0 <= weight_of yes l /\ 0 <= balance_of yes l.
Proof.
  induction 1 as [v|v tx vp h v1 l v2 Ht He Hwf Hh E _ [IH1 IH2]]; [done|].
  destruct (vote_counts tx vp h v v1 Ht He Hwf Hh E) as [(_ & _ & _ & _ & _ & _ & _ & _ & Hw & Hb) _].
  destruct (totals_cons yes vp h l) as [-> ->]. destruct (eqb _ _); lia.
Qed.

Lemma votes_frame v l v' : votes_counted v l v' -> vm_proposals v' = vm_proposals v.
Proof.
  induction 1 as [v|v tx vp h v1 l v2 Ht He Hwf Hh E _ IH]; [done|].
  by destruct (vote_counts tx vp h v v1 Ht He Hwf Hh E) as [_ ->].
Qed.

(** The tally of a proposal is the sum of its votes. *)
Lemma votes_summed v l v' pid : votes_counted v l v' -> Forall (fun x => vp_proposal_id x.1 = pid) l ->
  let o := default zero_outcome (vm_outcomes v !! pid) in
  outcome_nonneg o -> totals_fit o l -> l <> [] ->
  vm_outcomes v' !! pid =
    Some {| yes_w := yes_w o + weight_of true l; no_w := no_w o + weight_of false l;
            yes_b := yes_b o + balance_of true l; no_b := no_b o + balance_of false l |}.
Proof.
  induction 1 as [v|v tx vp h v1 l v2 Ht He Hwf Hh E V IH]; intros F o Ho Hfit Hne; [done|].
  apply Forall_cons in F as [Hp F]. cbn in Hp.
  destruct (vote_counts tx vp h v v1 Ht He Hwf Hh E) as [(_ & _ & _ & _ & _ & _ & _ & _ & Hw & Hb) Ev1].
  pose proof (side_totals_nonneg _ _ _ true V) as [N1 N2]. pose proof (side_totals_nonneg _ _ _ false V) as [N3 N4].
  set (o1 := {| yes_w := yes_w o + (if vp_direction_yes vp then v1_weight vp h else 0);
                no_w := no_w o + (if vp_direction_yes vp then 0 else v1_weight vp h);
                yes_b := yes_b o + (if vp_direction_yes vp then vp_participation_balance vp else 0);
                no_b := no_b o + (if vp_direction_yes vp then 0 else vp_participation_balance vp) |}).
  destruct Ho as (O1 & O2 & O3 & O4), Hfit as (T1 & T2 & T3 & T4).
  destruct (totals_cons true vp h l) as [W1 B1], (totals_cons false vp h l) as [W2 B2]. rewrite W1 in *. rewrite W2 in *. rewrite B1 in *. rewrite B2 in *.
  assert (vm_outcomes v1 !! pid = Some o1) as Eo1.
  { rewrite Ev1, <- Hp. unfold v1_counted. cbn. rewrite lookup_insert_eq, Hp. fold o. unfold o1, add_to_outcome.
    destruct (vp_direction_yes vp); cbn [eqb] in *; rewrite !u64_id, !Z.add_0_r by lia; done. }
  destruct l as [|x l].
  - inversion V; subst v2. rewrite Eo1. unfold o1. rewrite (eq_refl : weight_of true [] = 0), (eq_refl : weight_of false [] = 0),
      (eq_refl : balance_of true [] = 0), (eq_refl : balance_of false [] = 0), !Z.add_0_r.
    by destruct (vp_direction_yes vp).
  - rewrite IH; [|done|..]; rewrite ?Eo1; cbn [from_option id]; [| | |done].
    + unfold o1. cbn [yes_w no_w yes_b no_b]. rewrite !Z.add_assoc. by destruct (vp_direction_yes vp).
    + unfold outcome_nonneg, o1. cbn. destruct (vp_direction_yes vp); lia.
    + unfold totals_fit, o1. cbn [yes_w no_w yes_b no_b]. destruct (vp_direction_yes vp); cbn [eqb] in *; lia.
Qed.
End counting.

(** ** The invariant along the way *)

#[export] Instance policy_inv_proper : Proper (same_but_data ==> iff) (fun s => policy_inv (g_policy s)).
Proof.
  assert (forall s s', same_but_data s s' -> policy_inv (g_policy s) -> policy_inv (g_policy s')) as Hd.
  { intros [[] ? ? ? ? ?] [[] ? ? ? ? ?] E [I1 I2 I3 I4 I5 I6 I7 I8]. unfold same_but_data, forget_data, with_policy in E.
    cbn in *. simplify_eq. by split. }
  intros s s' E. split; by apply Hd.
Qed.

Lemma submitted_inv pid rec locks s : proposal_id rec = pid -> policy_inv (g_policy s) ->
  policy_inv (g_policy (submitted pid rec locks s)).
Proof.
  intros Hid [I1 I2 I3 I4 I5 I6 I7 I8]. split; try done. intros id r. cbn. rewrite lookup_insert_Some.
  intros [[<- <-]|[_ R]]; [done|by apply I8].
Qed.

Lemma submitted_locks pid rec locks s : locks_wf (pending_domain_policy (g_policy s)) -> unknown s pid ->
  takes_lock pid (pending_domain_policy (g_policy s)) locks ->
  locks_wf (pending_domain_policy (g_policy (submitted pid rec locks s))).
Proof.
  intros [W1 W2] [_ Hn] Hk. change (pending_domain_policy (g_policy (submitted pid rec locks s))) with locks.
  destruct Hk as [-> | (k & lock & N & Ek & Hid & ->)]; [done|]. split.
  - intros k' l. rewrite lookup_insert_Some. intros [[<- <-]|[_ E]]; [done|by apply W1].
  - intros k1 k2 l1 l2. rewrite !lookup_insert_Some. intros [[<- <-]|[_ E1]] [[<- <-]|[_ E2]] E; [done|..].
    + destruct (Hn k2 l2 E2). congruence.
    + destruct (Hn k1 l1 E1). congruence.
    + by eapply W2.
Qed.

Lemma evaluate_inv percent ch pid h s s' : policy_inv (g_policy s) ->
  evaluate_proposal percent ch pid h s = gov_true s' -> policy_inv (g_policy s').
Proof.
  intros I. assert (forall s1 rec st, policy_inv (g_policy s1) -> proposals (g_policy s) !! pid = Some rec ->
    policy_inv (g_policy (store_proposal s1 (with_status rec st (executed rec) h)))) as Hst.
  { intros s1 rec st [I1 I2 I3 I4 I5 I6 I7 I8] R. split; try done. intros id r. cbn. rewrite lookup_insert_Some.
    intros [[<- <-]|[_ R']]; [done|by apply I8]. }
  unfold evaluate_proposal. destruct (proposals (g_policy s) !! pid) as [rec|] eqn:R; [|done].
  split_if; [by intros [= <-]|]. destruct (g_outcomes s !! pid); [|done]. destruct (is_quorum_met _ _ _ _ _); [|done].
  split_if.
  - unfold add_pending_execution. case_decide; [done|]. intros [= <-]. by apply Hst.
  - intros [= <-]. apply Hst; [|done]. unfold release_lock.
    destruct (get_pending_domain_policy_by_proposal _ _); [|done]. by destruct I.
Qed.

(** ** The election of a parameter change *)

(** What the votes say of a proposal. *)
Definition approved (percent : Z) (ch : chain_view) (minted : Z) (l : list (vote_proof * Z)) : bool :=
  vote_rule percent ch minted (weight_of true l) (weight_of false l) (balance_of true l + balance_of false l).

(** A state a new proposal can be submitted to. *)
Record admits (s : gov_state) (pid : hash) : Prop := {
  am_inv : policy_inv (g_policy s);
  am_locks : locks_wf (pending_domain_policy (g_policy s));
  am_unknown : unknown s pid;
  am_outcome : g_outcomes s !! pid = None;
  am_pending : forall h, (h, pid) ∉ g_pending s;
}.

Section election.
Context `{VoteEnv}.
Context (address_str : bool -> bytes -> bytes -> bytes) (unset_recipient : bytes).
Context (vns : vns_state) (tx : vote_tx) (p : proposal) (blob : bytes) (h0 : Z) (s0 s1 : gov_state).
Context (Htx : is_proposal_tx tx = true) (Hp : extract_proposal tx = Some (p, blob))
  (Hchange : p_action p = PARAMETER_CHANGE) (Hs0 : admits s0 (vt_hash tx))
  (Hsub : index_proposal address_str unset_recipient vns tx h0 s0 = gov_true s1).
Notation rec := (new_proposal address_str unset_recipient p (vt_hash tx) h0).

(** The state after submission. *)
Lemma after_submission :
  exists c, decode_change vote_trap_bool blob = Some c /\ held vns c = false /\
  proposals (g_policy s1) !! vt_hash tx = Some rec /\ proposal_data (g_policy s1) !! vt_hash tx = Some blob /\
  policy_inv (g_policy s1) /\ locks_wf (pending_domain_policy (g_policy s1)) /\
  g_outcomes s1 !! vt_hash tx = None /\ forall h, (h, vt_hash tx) ∉ g_pending s1.
Proof.
  pose proof (index_data address_str unset_recipient vns tx h0 s0 s1 p blob Htx Hp Hchange Hsub) as Hd.
  destruct (index_true address_str unset_recipient vns tx h0 s0 s1 Htx Hsub) as (p' & blob' & locks & Hp' & V & _ & Hk & E).
  rewrite Hp in Hp'. injection Hp' as <- <-. destruct Hs0 as [I W U O P].
  assert (validate_update vns blob = true) as Vu.
  { unfold validate_proposal in V. rewrite Hchange in V. cbv zeta in V. cbn [Z.eqb TREASURY_PAYMENT PARAMETER_CHANGE Pos.eqb andb] in V.
    by repeat (split_if_in V; [done|]). }
  rewrite validate_update_decodes in Vu. destruct (decode_change vote_trap_bool blob) as [c|]; [|done].
  apply negb_true_iff in Vu. exists c. do 2 (split; [done|]).
  pose proof (f_equal (fun s => proposals (g_policy s)) E) as E1.
  pose proof (f_equal (fun s => pending_domain_policy (g_policy s)) E) as E2.
  pose proof (f_equal g_outcomes E) as E3. pose proof (f_equal g_pending E) as E4. cbn in E1, E2, E3, E4.
  rewrite E1, E2, E3, E4, lookup_insert_eq. split_and!; try done.
  - apply (policy_inv_proper _ _ E). by apply submitted_inv.
  - by apply (submitted_locks (vt_hash tx) rec locks s0).
Qed.

Context (l : list (vote_proof * Z)) (v : vote_state).
Context (Hv : votes_counted (votes_of s1) l v) (Hl : Forall (fun x => vp_proposal_id x.1 = vt_hash tx) l)
  (Hne : l <> []) (Hfit : totals_fit zero_outcome l) (Hbal : balance_of true l + balance_of false l < 2 ^ 64).
Context (percent : Z) (ch : chain_view) (h minted : Z) (Hsupply : supply_ok percent ch minted)
  (Hminted : generated_coins ch (Z.min (voting_end_height rec) (db_height ch)) = Some minted).

Lemma decided_by_votes :
  exists o, g_outcomes (with_votes s1 v) !! vt_hash tx = Some o /\ 0 <= yes_b o + no_b o < 2 ^ 64 /\
    passes percent ch rec o = approved percent ch minted l.
Proof.
  destruct after_submission as (c & _ & _ & _ & _ & _ & _ & O & _).
  pose proof (votes_summed _ _ _ (vt_hash tx) Hv Hl) as S. cbn in S. rewrite O in S. cbn [from_option id] in S.
  specialize (S ltac:(unfold outcome_nonneg; cbn; lia) Hfit Hne). cbn [yes_w no_w yes_b no_b zero_outcome] in S.
  eexists. split; [exact S|]. cbn [yes_b no_b].
  destruct (side_totals_nonneg _ _ _ true Hv) as [_ N1]. destruct (side_totals_nonneg _ _ _ false Hv) as [_ N2].
  split; [lia|]. unfold passes, approved. rewrite Hminted. cbn [yes_w no_w yes_b no_b]. by rewrite !Z.add_0_l.
Qed.

Lemma election_runs : exists c s2, decode_change vote_trap_bool blob = Some c /\
  evaluate_proposal percent ch (vt_hash tx) h (with_votes s1 v) = gov_true s2 /\
  policy_inv (g_policy s2) /\ proposal_data (g_policy s2) !! vt_hash tx = Some blob /\
  proposals (g_policy s2) !! vt_hash tx =
    Some (with_status rec (if approved percent ch minted l then PROPOSAL_STATUS_PASSED else PROPOSAL_STATUS_REJECTED)
            false h) /\
  (approved percent ch minted l = true ->
   (u64 (voting_end_height rec + delay_or_fallback (g_policy s1) h), vt_hash tx) ∈ g_pending s2).
Proof.
  destruct after_submission as (c & Hc & _ & R & D & I & W & O & P).
  destruct decided_by_votes as (o & Eo & Hb & Ep).
  destruct (decide_one percent ch h (with_votes s1 v) (vt_hash tx) rec o) as (s2 & E & E1 & E2 & _ & _ & _ & _ & E3).
  - intros id r. apply I.
  - exact W.
  - split; try done; [by exists minted|apply P].
  - exists c, s2. split; [done|]. split; [done|]. split; [exact (evaluate_inv _ _ _ _ (with_votes s1 v) s2 I E)|].
    cbn in E1, E2, E3. unfold decided_as in E1. rewrite Ep in E1, E2.
    split; [by rewrite E3|]. split; [by rewrite E1, lookup_insert_eq|].
    intros A. rewrite E2, A. apply elem_of_union_l, elem_of_singleton. done.
Qed.
End election.


(** *** The sample proposal, voted on, passed and executed *)

Definition sample_votes : vote_state :=
  snd (@process_v1_vote sample_env (sample_vote [] [nf_a; nf_b] 0) 20000 false (votes_of sample_open)).

Definition sample_chain : chain_view :=
  {| db_height := 22602; generated_coins := fun h => if h <? 22602 then Some 5000 else None;
     treasury_balance := 300; burned_fees := 200 |}.

Definition sample_decided : gov_state :=
  match evaluate_proposal 10 sample_chain sample_pid 22602 (with_votes sample_open sample_votes) with
  | gov_true s => s
  | _ => empty_gov
  end.

Lemma sample_counted : @votes_counted sample_env (votes_of sample_open) [(sample_vp [nf_a; nf_b] 0, 20000)] sample_votes.
Proof.
  eapply (@vc_cons sample_env) with (tx := sample_vote [] [nf_a; nf_b] 0) (v1 := sample_votes).
  - by vm_compute.
  - by vm_compute.
  - apply sample_wf. cbn. lia.
  - lia.
  - unfold sample_votes. assert (fst (@process_v1_vote sample_env (sample_vote [] [nf_a; nf_b] 0) 20000 false
      (votes_of sample_open)) = success) as E by by vm_compute.
    destruct (process_v1_vote _ _ _ _) as [r s]. cbn in E |- *. by rewrite E.
  - constructor.
Qed.

Lemma empty_admits pid : admits empty_gov pid.
Proof.
  split; try done; try (by intros ? ?%elem_of_empty). by split; repeat constructor.
Qed.


(** ** No proposal is overlooked *)


(** The block with the sample submission. *)
Definition run_sample_block : option (bool * gov_state) :=
  @governance_process_block sample_env model_curve model_rct (fun _ _ _ => []) [] 10 sample_chain sample_registry true false
    [{| gt_tx := sample_submission 0 0; gt_treasury_inputs := [] |}] (999 + 1) empty_gov.
Definition sample_after_block : gov_state :=
  match run_sample_block with Some (_, s) => s | None => empty_gov end.

Lemma run_sample_block_ok : run_sample_block = Some (true, sample_after_block).
Proof.
  unfold sample_after_block. assert (fst <$> run_sample_block = Some true) as E by by vm_compute.
  destruct run_sample_block as [[ok s]|]; [|done]. injection E as ->. done.
Qed.

Lemma sample_sane : @sane_heights sample_env (sample_submission 0 0).
Proof. intros p blob E. vm_compute in E. injection E as <- <-. cbn. lia. Qed.


(** ** One block decides *)

Definition sample_record : proposal_record :=
  default sample_vote_prop (proposals (g_policy sample_open) !! sample_pid).
Definition sample_outcome : proposal_outcome :=
  default zero_outcome (vm_outcomes sample_votes !! sample_pid).

Lemma sample_open_ok :
  policy_inv (g_policy sample_open) /\ locks_wf (pending_domain_policy (g_policy sample_open)).
Proof.
  destruct (@extract_proposal sample_env (sample_submission 0 0)) as [[p blob]|] eqn:Hp; [|by vm_compute in Hp].
  destruct (@after_submission sample_env (fun _ _ _ => []) [] sample_registry (sample_submission 0 0) p blob 1000
    empty_gov sample_open) as (c & _ & _ & _ & _ & I & W & _); [by vm_compute|exact Hp| | |exact submit_sample_ok|done].
  - vm_compute in Hp. injection Hp as <- <-. done.
  - apply empty_admits.
Qed.


(** ** Restarts *)

Section recovery.
Context (current_height : Z) (already_pending : gset hash).

Lemma fix_status_pending s pid : g_pending (fix_status s current_height pid) = g_pending s.
Proof. unfold fix_status. destruct (_ !! _); [|done]. by destruct (_ && _). Qed.

Lemma recover_items_queues items s : NoDup (od_id <$> items) ->
  Forall (fun it => od_id it ∉ already_pending -> (od_exec_height it, od_id it) ∉ g_pending s) items ->
  exists s', recover_items current_height already_pending items s = gov_true s' /\ g_pending s ⊆ g_pending s' /\
    Forall (fun it => od_id it ∉ already_pending -> (od_exec_height it, od_id it) ∈ g_pending s') items.
Proof.
  revert s. induction items as [|it items IH]; intros s ND F; cbn [recover_items].
  { exists s. split; [done|]. split; [done|constructor]. }
  rewrite fmap_cons in ND. apply NoDup_cons in ND as [Hnew ND]. apply Forall_cons in F as [Hit F].
  set (s1 := if od_needs_status_fix it then _ else s).
  assert (g_pending s1 = g_pending s) as E1 by (unfold s1; destruct (od_needs_status_fix it); [apply fix_status_pending|done]).
  case_decide as Hap.
  - destruct (IH s1 ND) as (s' & E & Sub & Q); [by rewrite E1|]. exists s'. split; [done|]. rewrite E1 in Sub.
    split; [done|]. by constructor.
  - unfold add_pending_execution. rewrite E1, decide_False by auto.
    destruct (IH (with_pending s1 ({[ (od_exec_height it, od_id it) ]} ∪ g_pending s)) ND) as (s' & E & Sub & Q).
    { rewrite Forall_forall in F |- *. intros it' Hin Hn. cbn. rewrite not_elem_of_union, not_elem_of_singleton.
      split; [|by apply F]. intros [= _ Eid]. apply Hnew. rewrite <- Eid. by apply list_elem_of_fmap_2. }
    cbn in Sub. exists s'. split; [done|]. split; [set_solver|]. constructor; [set_solver|done].
Qed.
End recovery.

(** After a restart every passed proposal that is due and not executed is in
    the execution queue. *)
Lemma recovery_queues_passed batch rows h s pid rec : NoDup rows.*1 -> (pid, rec) ∈ rows ->
  status rec = PROPOSAL_STATUS_PASSED -> executed rec = false ->
  u64 (voting_end_height rec + delay_or_fallback (g_policy s) h) <= h ->
  exists h', (h', pid) ∈ g_pending (recover_overdue_executions true batch rows h s).
Proof.
  intros ND Hin Hst Hex Hdue. unfold recover_overdue_executions. set (ap := list_to_set _).
  assert (forall p, p ∈ ap <-> exists h', (h', p) ∈ g_pending s /\ h' <= h) as Hap.
  { intros p. unfold ap. rewrite elem_of_list_to_set, list_elem_of_fmap. setoid_rewrite elem_of_pending. split.
    - intros ([h' p'] & -> & ?). by exists h'.
    - intros (h' & ?). by exists (h', p). }
  assert (forall it, it ∈ omap (overdue_of s h ap) rows -> od_id it ∉ ap -> (od_exec_height it, od_id it) ∉ g_pending s) as Hfree.
  { intros it ([p r] & _ & E)%list_elem_of_omap Hn Hq. apply Hn, Hap. exists (od_exec_height it). split; [done|].
    unfold overdue_of in E. split_if_in E; [done|]. split_if_in E; [done|]. to_prop.
    repeat (split_if_in E; try done); injection E as <-; cbn; lia. }
  assert (NoDup (od_id <$> omap (overdue_of s h ap) rows)) as ND'.
  { clear -ND. induction rows as [|[p r] rows IH]; [constructor|]. rewrite fmap_cons in ND. apply NoDup_cons in ND as [N ND].
    cbn [omap list_omap]. destruct (overdue_of s h ap (p, r)) as [it|] eqn:E; [|by apply IH].
    rewrite fmap_cons. apply NoDup_cons. split; [|by apply IH].
    assert (forall p r it, overdue_of s h ap (p, r) = Some it -> od_id it = p) as Hid.
    { clear. intros p r it E. unfold overdue_of in E. repeat (split_if_in E; try done); by injection E as <-. }
    rewrite (Hid _ _ _ E). intros (it' & Eid & ([p' r'] & Hin & E')%list_elem_of_omap)%list_elem_of_fmap.
    apply N. rewrite Eid, (Hid _ _ _ E'). apply list_elem_of_fmap. by exists (p', r'). }
  destruct (recover_items_queues h ap _ s ND') as (s' & E & Sub & Q); [by apply Forall_forall|].
  assert (pid ∉ ap -> exists h', (h', pid) ∈ g_pending s') as Hnew.
  { intros Hn. rewrite Forall_forall in Q. set (sched := u64 (voting_end_height rec + delay_or_fallback (g_policy s) h)) in *.
    specialize (Q {| od_id := pid; od_exec_height := sched; od_needs_status_fix := false |}). exists sched. apply Q; [|done].
    apply list_elem_of_omap. exists (pid, rec). split; [done|]. unfold overdue_of. rewrite Hex, Hst. fold sched.
    rewrite (proj2 (Z.ltb_ge _ _)) by done. cbn. by rewrite bool_decide_eq_false_2. }
  destruct (is_empty _) eqn:Em; cbn [negb].
  - apply is_empty_true in Em. rewrite Em in E. cbn in E. injection E as <-.
    destruct (decide (pid ∈ ap)) as [(h' & ? & _)%Hap|Hn]; [by exists h'|by apply Hnew].
  - rewrite E. destruct (decide (pid ∈ ap)) as [(h' & ? & _)%Hap|Hn]; [exists h'; by apply Sub|by apply Hnew].
Qed.

(** ** Where the code does not do what it means to *)

(** Inside a batch the abort of a failed block undoes nothing: the sample
    proposal stays decided although the block failed over another proposal that
    nobody voted on. *)
Definition two_due : gov_state :=
  let other := replicate 32 10 in
  let s := with_votes sample_open sample_votes in
  with_voting_end
    (with_policy s (add_proposal_record (g_policy s) other
       {| proposal_id := other; ptype := 2; title := []; description := []; recipient := []; amount := 0;
          voting_period_days := 30; submission_height := 1000; voting_end_height := 22601;
          tally_key_id := null_hash; submission_tx_hash := other; executed := false;
          status := PROPOSAL_STATUS_ACTIVE; status_height := 1000; recipient_view_public_key := [];
          is_subaddress := false |}))
    ({[ (22602, other) ]} ∪ g_voting_end s).

Lemma batch_abort_keeps_decisions :
  let '(ok, s) := lifecycle_process_block 10 sample_chain true true 22602 two_due in
  ok = false /\ status <$> proposals (g_policy s) !! sample_pid = Some PROPOSAL_STATUS_PASSED.
Proof. by vm_compute. Qed.

(** Popping the block that decided a proposal leaves the decision, the queued
    execution and the emptied queue of ending votes in place. *)
Lemma decision_not_rolled_back :
  match @governance_rollback_block sample_env model_curve [] 22602 sample_decided with
  | Some s => status <$> proposals (g_policy s) !! sample_pid = Some PROPOSAL_STATUS_PASSED /\
      (23321, sample_pid) ∈ g_pending s
  | None => False
  end.
Proof. vm_compute. split; [reflexivity|]. by eexists. Qed.

(** The recovery passes an open proposal on its majority alone, where the
    evaluation rejects it for want of a quorum. *)
Definition few_votes : gov_state :=
  with_votes sample_open
    {| vm_proposals := ∅; vm_vote_records := ∅; vm_dao := g_dao sample_open;
       vm_outcomes := {[ sample_pid := {| yes_w := 4; no_w := 0; yes_b := 1; no_b := 0 |} ]} |}.

Lemma recovery_ignores_quorum :
  status <$> proposals (g_policy (state_of (evaluate_proposal 10 sample_chain sample_pid 22602 few_votes))) !! sample_pid
    = Some PROPOSAL_STATUS_REJECTED /\
  status <$> proposals (g_policy (recover_overdue_executions true false
      (map_to_list (proposals (g_policy few_votes))) 30000 few_votes)) !! sample_pid
    = Some PROPOSAL_STATUS_PASSED.
Proof. split; by vm_compute. Qed.

(** The height is capped at the number of blocks, one above the last block, so
    asking about a proposal still open throws. *)
Lemma open_proposal_query_throws ch percent yw nw yb nb e :
  (forall h, db_height ch <= h -> generated_coins ch h = None) -> db_height ch <= e ->
  is_proposal_passed ch percent yw nw yb nb e = None.
Proof. intros Hc He. unfold is_proposal_passed. rewrite Hc by lia. done. Qed.

(** Tallies are 64 bits wide and added without a check: a counted yes vote can
    take the majority away. *)
Lemma tally_wraps :
  let s := {| vm_proposals := vm_proposals sample_vote_state; vm_vote_records := ∅; vm_dao := vm_dao sample_vote_state;
              vm_outcomes := {[ sample_pid := {| yes_w := 2 ^ 64 - 1; no_w := 7000; yes_b := 10; no_b := 10 |} ]} |} in
  let '(r, s') := @process_v1_vote sample_env (sample_vote [] [nf_a; nf_b] 0) 50000 false s in
  r = success /\ yes_w <$> vm_outcomes s' !! sample_pid = Some 5999 /\ no_w <$> vm_outcomes s' !! sample_pid = Some 7000.
Proof. by vm_compute. Qed.

(** A tally result that rejects a proposal about an exact name does not release
    the name, which stays locked for registrations. *)
Lemma rejected_tally_keeps_lock cert h s s' name lock prop :
  get_pending_domain_policy (pending_domain_policy (t_policy s)) name = Some lock ->
  pend_proposal_id lock = cert_proposal_id cert ->
  proposals (t_policy s) !! cert_proposal_id cert = Some prop -> executed prop = false -> passed cert = false ->
  apply_dao_v2_tally_result cert h s = tally_applied s' ->
  status <$> proposals (t_policy s') !! cert_proposal_id cert = Some PROPOSAL_STATUS_REJECTED /\
  pending_lock (t_policy s') name = Some lock.
Proof.
  intros Hl Hid Hp Hx Hf. unfold apply_dao_v2_tally_result. destruct (v2_outcomes s !! _); [done|].
  cbn [t_policy]. rewrite Hp, Hf. intros [= <-]. cbn. rewrite lookup_insert_eq. split; [done|].
  unfold pending_lock. cbn. rewrite Hl, Hid, lookup_insert_eq. cbn. by rewrite Hx.
Qed.
